(* ===== verification/_CoqProject ===== *)
-Q . S2P
Prelude.v
Ebus.v
WirePhase.v
EchoTracker.v
Arbitration.v
ArbitrationDuty.v
PassiveTap.v
Reconstructor.v
ReconstructorInv.v
ReconstructorLive.v
Fanout.v
WatchCatalog.v
FamilyPolicy.v
Dedup.v
DedupInv.v
DedupMatch.v
DedupIdentity.v
DedupFanout.v
ShadowCache.v
ShadowInv.v
ShadowSpec.v
ShadowCompact.v
Scheduler.v
SchedulerInv.v
SchedulerFresh.v
Discovery.v
DiscoverySpec.v
DiscoveryPromoter.v
B503Session.v
B503Inv.v
B503Gate.v
B503Epoch.v
B503Wire.v
B503Dispatch.v
B503Restart.v
AddressTable.v
AddressTableSpec.v
EscapePair.v
EscapePairInv.v
Float64.v
DriverManager.v
DriverCaps.v
DriverInv.v
DriverLive.v
DriverOpen.v
DriverRetry.v
DriverTerm.v
DriverWorld.v
DriverSpec.v
Pacer.v
PacerSpec.v
BroadcastListener.v
BroadcastSpec.v
