(* ===== verification/Prelude.v ===== *)
(** * Verification of the eBUS data path of helianthus-ebusgateway

    ** The program

    The gateway sits on an eBUS, a two-wire bus on which every byte sent is
    echoed, SYN bytes (0xAA) separate telegrams and initiators win the bus by
    arbitration.  Bytes come from an adapter.  On the active side the adapter
    multiplexer ([src/internal/adaptermux]) shares the adapter between the
    gateway and external sessions: an arbitrator decides who may send, an
    echo tracker takes a session's own bytes out of what it receives and a
    wire phase tracker knows where in a telegram the bus is.  On the passive
    side a tap reads the same bytes, undoes the byte stuffing and hands
    symbols to the transaction reconstructor, which turns them into
    classified events and fans these out.  The deduplicator compares the
    events with what the gateway sent itself and marks each as a copy of its
    own traffic, traffic of others or local inbound traffic.  Policies decide
    per register family what an observed value may be used for; the watch
    catalogue names the registers of interest, the shadow cache keeps their
    last known values and the semantic read scheduler serves readers from it
    or from a fetch.  The same events feed an evidence buffer, and a promoter
    probes and registers the devices the evidence points to; and they feed
    the address table, which gives every address heard on the bus a slot and
    registers the devices behind it.  The Vaillant B503 sessions are a
    service of the gateway on top of this: one client at a time owns a
    device's live monitor, and the session manager decides which ENABLE,
    READ and DISABLE frames may go to the bus across timeouts, reconnects
    and restarts.  Below all of it the driver manager starts, replaces,
    retries and stops the drivers that own the transports, and decides when
    a driver may be used.

    ** The files

    - [Prelude]: machine integers ([u8], [u16], [u64], [i64] write the
      wrap-around of Go's integers out), strings, tactics, shared lemmas.
    - [Ebus]: frames, the parser of [wire_log.go], the canonical encoder,
      the address predicates.  The helianthus-ebusgo protocol package is not
      in this repository: it is the class [EbusProtocol], with the constants
      and facts the gateway relies on as [EbusLaws]; [demo_protocol] is an
      instance that satisfies them.
    - [WirePhase], [EchoTracker], [Arbitration]: the files of the same names
      of [internal/adaptermux], every operation of each.  [ArbitrationDuty]:
      the arbitrator's lock sections one by one, with who owes a bid its
      result between them (and [expireGatewayAdmission] of [mux.go]).
    - [EscapePair], [EscapePairInv]: the encoding of gateway writes and the
      protocol that writes an escape pair in two raw symbols and verifies
      its echo ([raw_symbols.go]).
    - [Float64], [Pacer], [PacerSpec]: the output pacer and the echo watchdog
      ([v8classifier/pacer.go]), over Go's floating-point numbers.
    - [PassiveTap]: [passive_bus_tap.go] (escape decoder, [readLoop], [run],
      status, back-off) and the frame decoder of [wire_log.go].
    - [Reconstructor], [ReconstructorInv], [ReconstructorLive], [Fanout]:
      [passive_transaction_reconstructor.go], its state machine, safety,
      recognition of telegrams, and its subscribers.
    - [BroadcastListener], [BroadcastSpec]: the supervisor of
      [broadcast_listener.go].
    - [WatchCatalog]: [watch_catalog.go].  [FamilyPolicy]:
      [observe_first_flags.go] and [observe_first_family_policy.go].
    - [Dedup], [DedupInv], [DedupMatch], [DedupIdentity], [DedupFanout]:
      [active_passive_deduplicator.go].
    - [ShadowCache], [ShadowInv], [ShadowSpec], [ShadowCompact]:
      [shadow_cache.go].  [Scheduler], [SchedulerInv], [SchedulerFresh]:
      [semantic_read_scheduler.go] and its composition with the cache.
    - [Discovery], [DiscoverySpec], [DiscoveryPromoter]: the evidence buffer
      ([internal/ebus/evidence/discovery/buffer.go]), its feeding from
      events ([recordEvidenceFromEventLocked] of
      [bus_observability_store.go], [b524_coherency.go]), the back-off
      schedule of [admission_escalation.go] and
      [passive_discovery_promoter.go].
    - [AddressTable], [AddressTableSpec]: [address_table.go] and
      [address_table_inserter.go], composed with the reconstructor.
    - [B503Session], [B503Inv], [B503Gate], [B503Epoch], [B503Wire],
      [B503Restart]: the session manager
      ([internal/vaillant/b503session]), its invariants, what it lets out to
      the wire and the fence after a restart.  [B503Dispatch]: the
      dispatcher and the wiring ([cmd/gateway/vaillant_b503_dispatcher.go],
      [vaillant_b503_wiring.go]).
    - [DriverManager]: one driver of [internal/drivermanager/manager.go], its
      state, every section under its locks and the threads that run them.
      [DriverCaps] (capability sets), [DriverInv] (the invariant),
      [DriverLive] (who moves a driver on), [DriverOpen] (which
      constructions are open), [DriverRetry] (delays and budget),
      [DriverTerm] (locks and the end of calls), [DriverWorld] ([New],
      several drivers, [Shutdown]), [DriverSpec] (the theorems).

    A file without a suffix holds the data and operations of a component,
    with the source's names, and executable; its siblings hold the theorems.
    A Go struct is a record, a method that changes it a function from state
    to state and results, a value with a nil or error case an option or sum.
    Objects that are shared or outlive their place in a map (start requests,
    subscriptions, notify channels) live in stores under identities.  An
    operation under one lock is one step; concurrency is the interleaving of
    steps, and the scheduler's callers, the callers, timers and dispatches of
    the B503 manager, the writer of an escape pair, the calls, attempts and
    retries of the driver manager, the callbacks of the watchdog and the
    recovery loops of the broadcast listener are threads that can be
    interrupted between any two critical sections.  The B503 dispatcher is a
    tree of its calls to the manager, its contexts and the bus, run by a step
    relation.  Clocks, transports, contexts and
    what other components do are arguments, quantified over in the theorems.
    The order in which Go ranges over a map is a function of the map; the
    digest of the deduplicator, the watch observer, the device registry and
    the standard address table are parameters.  Times are nanoseconds; 0 is Go's zero time.

    ** What the theorems show

    - Passive path: a transaction is reported only at the SYN that ends it,
      when its bytes, checksums and acknowledgements have just been on the
      wire ([passive_no_forgery]); every
      legal telegram after a SYN is reported exactly once, from any state,
      also from the stuffed bytes through the tap ([telegram_recognised],
      [wire_to_event], [tap_decodes_wire], for symbols no further apart than
      the watchdog); one SYN resynchronises ([reconstructor_resynchronises]),
      buffers are bounded, subscribers see a stream without gaps.
    - Active path: a bid's channel has one result, or none and one party that
      owes it ([one_result_per_bid]), the best bid wins, stale
      owners cannot commit, own echoes are suppressed and others' bytes are
      not, the phase tracker follows every telegram and always comes back.
    - Deduplicator: events are conserved, identity bytes identify
      transactions, matches never exceed active successes, both orders of
      arrival are matched, and publishing terminates although an overflow
      publishes again.
    - Catalogue and policy: the activation set refines its contract,
      canonical keys are injective, and the direct-apply policy is exact.
    - Shadow cache: its invariant, the refinement of the lock-free snapshot,
      the generation fence, the provenance and order in time of its values,
      and completeness of a compaction pass.  Scheduler: one flight per
      register and progress over every interleaving ([single_flight]), and,
      composed with the cache, no value obtained before an invalidation is
      served after it ([served_values_current]).
    - Discovery: the evidence buffer refines an ordered list, an event
      counts once and for what its bytes show, no probe without fresh
      evidence and back-off, at most five probes per observation, and candidates that answer are
      registered.
    - Address table: over any wire traffic no slot appears for an address
      that no accepted telegram named ([no_phantom_slots]), and the devices
      of an observed transaction are registered.
    - Escape pairs: a write reported as verified had both symbols on the
      wire and echoed in order, decided after the write of the suffix had
      returned; a pair that lost the bus, its ownership or its lifecycle
      withholds its suffix; every write ends, and a listener decodes what
      was written.
    - B503: over every interleaving the gate has one owner and is released
      exactly once, only current, admitted operations reach the wire
      ([b503_emissions_sound]), an emitted enable is never forgotten, the
      dispatcher implements the contract the manager relies on, from a source
      admitted twice, and after a restart nothing is admitted for sending.
    - Driver manager, over every interleaving of calls, runtime results,
      hooks and reports: a capability is admitted exactly in a serving state
      ([admission_exact]), one construction is in flight at a time, a driver
      that rests has released all of them ([stopped_means_released]), no busy
      state is without a thread that moves it on ([driver_never_stranded]),
      every call ends after at most 40 steps of its own and no lock is left
      held ([driver_calls_end]), a quarantine is final, each retry waits what
      its place in the schedule says and the budget is kept, and a shutdown leaves no task.
    - Pacer: its slots are the earliest ones with the cadence, and a timeout
      counts and reports once and only for the outstanding write.  Broadcast
      listener: the invariant of its supervisor, whose transitions alternate,
      and a schedule that leaves it
      degraded without a recovery loop ([recovery_lost]).

    ** Fuel, bounds and hypotheses

    Loops that are not structural take fuel: [Dedup.makeRoom],
    [DedupFanout.publish], [ShadowCache.evictLoop] and
    [ShadowCache.compactLoop].  Each is given a measure of the state (the
    pending events, the live subscribers, the entries, the compactor list)
    and proved never to run out, so that the theorems are about the Go loops.
    Counters that wrap keep their width; where a theorem needs that a uint64
    generation or tick does not come round, it says so with a bound near
    2^63 or 2^64 on the number of operations ([few] for the driver manager).
    [DriverManager.search], the bisection of [sort.Search], gets the length
    as fuel and is proved to decide membership.  The B503 theorems are over the
    labels of [production], the entry points the gateway uses; where they
    need it, dispatchers report truthfully whether they were admitted
    ([honest]) and random operation identities differ ([distinctIDs]).  [StandardTable] and
    [RegistryLaws] state what the address table relies on.  Every hypothesis of a theorem
    is met by a concrete run in its witness.

    ** Not modelled

    The mux that ties the tracker, echo tracker and arbitrator to sessions
    ([mux.go], [session.go], [arbitration_recovery.go]) is over five thousand
    lines of one read loop and is not modelled (so neither is the result it
    sends to the winner of a selection); the v8 classifier wraps a
    state machine of a library that is not in this repository; runtime
    control and the semantic hub are clients of the modelled core.  Dialling, serial devices and log files are I/O.  The GraphQL,
    MCP, portal, Matter and eeBUS surfaces, metrics text, the release and
    acceptance tooling and configuration loading present or check what the
    modelled core produces.  Within the modelled files: goroutine start and
    stop, the compactor's ticker, replacing the shadow cache of a running
    scheduler, the degraded-mode accumulator, the B503 entry points
    without operation identities ([Enable], [Disable], [Read]), which only
    tests call, the default jitter and wait of the driver manager, and the
    constructors of the broadcast listener. *)

From stdpp Require Export base tactics numbers list gmap strings.
From Stdlib Require Export ZArith Lia.
From Stdlib Require Import Ascii.

(** ** Scope and machine integers

    Bytes, lengths, counters and times are [Z]; the width of a Go integer
    is kept by writing its wrap-around out. *)

Declare Scope gateway_scope.
Delimit Scope gateway_scope with gw.
Global Open Scope Z_scope.

(** A Go [byte]: an integer in 0..255 (see [is_byte]). *)
Abbreviation byte := Z (only parsing).
(** A Go [time.Time] or [time.Duration], in nanoseconds; the zero
    [time.Time{}] is 0. *)
Abbreviation time := Z (only parsing).

Definition is_byte (b : Z) : Prop := 0 <= b < 256.
Definition all_bytes (l : list Z) : Prop := Forall is_byte l.

(** Conversions [byte(x)], [uint16(x)] and [uint64(x)]: reduction modulo
    the width. *)
Definition u8 (x : Z) : Z := x mod 2 ^ 8.
Definition u16 (x : Z) : Z := x mod 2 ^ 16.
Definition u64 (x : Z) : Z := x mod 2 ^ 64.

(** [x++] on a [uint64] field. *)
Definition incr64 (x : Z) : Z := u64 (x + 1).
(** [x--] on a [uint64] field. *)
Definition decr64 (x : Z) : Z := u64 (x - 1).

(** [int64] two's complement wrap, for [time.Duration] arithmetic. *)
Definition i64 (x : Z) : Z := (x + 2 ^ 63) mod 2 ^ 64 - 2 ^ 63.

(** [t.IsZero()]. *)
Definition IsZero (t : time) : bool := t =? 0.

(** [time.Second]. *)
Definition second : Z := 1000000000.

(** [len(l)] as an [int]. *)
Abbreviation len l := (Z.of_nat (length l)).

(** [raw[i]] on a slice; the zero value stands for the panic of an index
    out of range, and every use is guarded as in the source. *)
Definition at_ (l : list Z) (i : nat) : Z := nth i l 0.

(** [m[k]++] on a [map[string]uint64]. *)
Definition bump (k : string) (m : gmap string Z) : gmap string Z :=
  <[k := incr64 (default 0 (m !! k))]> m.

(** [count] of the elements a boolean test accepts. *)
Definition countb {A} (p : A -> bool) (l : list A) : nat := length (List.filter p l).

(** ** Strings

    [strings.TrimSpace] and [strings.ToLower] on ASCII text. *)

(** The white space [strings.TrimSpace] removes, in the ASCII range. *)
Definition isSpace (c : ascii) : bool :=
  match N_of_ascii c with
  | 9%N | 10%N | 11%N | 12%N | 13%N | 32%N => true
  | _ => false
  end.
Fixpoint trimLeft (l : list ascii) : list ascii :=
  match l with
  | [] => []
  | c :: rest => if isSpace c then trimLeft rest else l
  end.
Definition TrimSpace (s : string) : string :=
  String.string_of_list_ascii (rev (trimLeft (rev (trimLeft (String.list_ascii_of_string s))))).

Definition lowerAscii (c : ascii) : ascii :=
  let n := N_of_ascii c in
  if ((65 <=? n) && (n <=? 90))%N then ascii_of_N (n + 32) else c.
Definition ToLower (s : string) : string :=
  String.string_of_list_ascii (map lowerAscii (String.list_ascii_of_string s)).

(** ** Automation *)

Create HintDb gw.
Create Rewrite HintDb gwrw.

(** Symbolic evaluation leaves integer arithmetic alone. *)
#[global] Arguments Z.eqb : simpl never.
#[global] Arguments Z.ltb : simpl never.
#[global] Arguments Z.leb : simpl never.
#[global] Arguments Z.add : simpl never.
#[global] Arguments Z.sub : simpl never.
#[global] Arguments Z.of_nat : simpl never.
#[global] Arguments Z.land : simpl never.
#[global] Arguments Z.modulo : simpl never.

(** Case analysis on the tests the translated code branches on, keeping
    the equation of each scrutinee. *)
Ltac break_match_hyp :=
  match goal with
  | H : context [if ?c then _ else _] |- _ => destruct c eqn:?
  | H : context [match ?c with _ => _ end] |- _ => destruct c eqn:?
  end.
Ltac break_match_goal :=
  match goal with
  | |- context [if ?c then _ else _] => destruct c eqn:?
  | |- context [match ?c with _ => _ end] => destruct c eqn:?
  end.
Ltac break := repeat (break_match_goal; simplify_eq/=).
Ltac break_all := repeat ((break_match_hyp || break_match_goal); simplify_eq/=).

(** Turn the boolean comparisons of the code into arithmetic facts. *)
Ltac bool_facts :=
  repeat match goal with
  | H : (_ && _) = true |- _ => apply andb_prop in H as [? ?]
  | H : (_ || _) = false |- _ => apply orb_false_elim in H as [? ?]
  | H : negb _ = true |- _ => apply negb_true_iff in H
  | H : negb _ = false |- _ => apply negb_false_iff in H
  | H : (_ =? _) = true |- _ => apply Z.eqb_eq in H
  | H : (_ =? _) = false |- _ => apply Z.eqb_neq in H
  | H : (_ <? _) = true |- _ => apply Z.ltb_lt in H
  | H : (_ <? _) = false |- _ => apply Z.ltb_ge in H
  | H : (_ <=? _) = true |- _ => apply Z.leb_le in H
  | H : (_ <=? _) = false |- _ => apply Z.leb_gt in H
  end.

(** Evaluate the integer sums and comparisons that are closed. *)
Ltac zconst r := lazymatch r with Z0 => idtac | Zpos _ => idtac | Zneg _ => idtac end.
Ltac zeval :=
  repeat match goal with
  | |- context [?a + ?b] =>
      let r := eval vm_compute in (a + b) in zconst r; progress change (a + b) with r
  | |- context [?a =? ?b] =>
      let r := eval vm_compute in (a =? b) in
      lazymatch r with true => idtac | false => idtac end; change (a =? b) with r
  | |- context [?a <=? ?b] =>
      let r := eval vm_compute in (a <=? b) in
      lazymatch r with true => idtac | false => idtac end; change (a <=? b) with r
  end.

(** ** Generic lemmas *)

Lemma u8_id (b : Z) : is_byte b -> u8 b = b.
Proof. intros Hb. unfold u8, is_byte in *. apply Z.mod_small. lia. Qed.

Lemma u8_is_byte (x : Z) : is_byte (u8 x).
Proof. unfold u8, is_byte. pose proof (Z.mod_pos_bound x (2 ^ 8)). lia. Qed.

Lemma u64_range (x : Z) : 0 <= u64 x < 2 ^ 64.
Proof. apply Z.mod_pos_bound. lia. Qed.

Lemma u64_id (x : Z) : 0 <= x < 2 ^ 64 -> u64 x = x.
Proof. apply Z.mod_small. Qed.

Lemma decr64_incr64 (x : Z) : 0 <= x < 2 ^ 64 -> decr64 (incr64 x) = x.
Proof.
  intros Hx. unfold decr64, incr64, u64.
  rewrite Zminus_mod_idemp_l. replace (x + 1 - 1) with x by lia.
  by apply Z.mod_small.
Qed.

Lemma len_nonneg {A} (l : list A) : 0 <= len l.
Proof. lia. Qed.

Lemma at_app_l (l k : list Z) (i : nat) :
  (i < length l)%nat -> at_ (l ++ k) i = at_ l i.
Proof. intros Hi. unfold at_. by apply app_nth1. Qed.

Lemma at_snoc (l : list Z) (x : Z) : at_ (l ++ [x]) (length l) = x.
Proof. unfold at_. rewrite app_nth2; [|lia]. by rewrite Nat.sub_diag. Qed.

Lemma at_is_byte (l : list Z) (i : nat) : all_bytes l -> is_byte (at_ l i).
Proof.
  intros Hl. unfold at_. destruct (nth_in_or_default i l 0) as [Hin | ->].
  - by apply (proj1 (List.Forall_forall _ _) Hl).
  - unfold is_byte. lia.
Qed.

Lemma bump_lookup (k : string) (m : gmap string Z) :
  bump k m !! k = Some (incr64 (default 0 (m !! k))).
Proof. apply lookup_insert_eq. Qed.

Lemma bump_lookup_ne (k j : string) (m : gmap string Z) :
  k <> j -> bump k m !! j = m !! j.
Proof. intros Hne. by apply lookup_insert_ne. Qed.

Lemma countb_app {A} (p : A -> bool) (l k : list A) :
  countb p (l ++ k) = (countb p l + countb p k)%nat.
Proof. unfold countb. by rewrite List.filter_app, List.length_app. Qed.

Lemma countb_nil {A} (p : A -> bool) : countb p [] = 0%nat.
Proof. reflexivity. Qed.

(** [List.filter] splits a list, keeps its order and its members. *)
Lemma filter_perm {A} (p : A -> bool) (l : list A) :
  l ≡ₚ List.filter p l ++ List.filter (fun x => negb (p x)) l.
Proof.
  induction l as [|x l IH]; simpl; [done|].
  destruct (p x); simpl; [by rewrite <- IH|]. by rewrite <- Permutation_middle, <- IH.
Qed.

Lemma filter_sublist {A} (p : A -> bool) (l : list A) : List.filter p l `sublist_of` l.
Proof. induction l as [|x l IH]; simpl; [done|]. destruct (p x); by constructor. Qed.

Lemma elem_of_filterb {A} (p : A -> bool) (l : list A) (x : A) :
  x ∈ List.filter p l <-> x ∈ l /\ p x = true.
Proof. by rewrite !list_elem_of_In, List.filter_In. Qed.

Lemma filter_nil {A} (p : A -> bool) (l : list A) :
  (forall x, x ∈ l -> p x = false) -> List.filter p l = [].
Proof.
  induction l as [|x l IH]; intros H; simpl; [done|].
  rewrite H by set_solver. apply IH. set_solver.
Qed.

Lemma filter_all {A} (p : A -> bool) (l : list A) :
  (forall x, x ∈ l -> p x = true) -> List.filter p l = l.
Proof.
  induction l as [|x l IH]; intros H; simpl; [done|].
  rewrite H by set_solver. f_equal. apply IH. set_solver.
Qed.

(** Taking one member out of a list without duplicates. *)
Lemma filter_out_perm `{EqDecision A} (w : A) (l : list A) :
  NoDup l -> w ∈ l -> l ≡ₚ w :: List.filter (fun x => negb (bool_decide (x = w))) l.
Proof.
  induction l as [|x l IH]; intros Hnd Hw; [set_solver|].
  apply NoDup_cons in Hnd as [Hx Hnd]. simpl.
  case_bool_decide as Heq; simpl.
  - subst. f_equiv. rewrite filter_all; [done|].
    intros y Hy. rewrite bool_decide_eq_false_2; [done|]. by intros ->.
  - rewrite (IH Hnd) at 1 by set_solver. solve_Permutation.
Qed.

#[export] Hint Resolve u8_is_byte at_is_byte len_nonneg : gw.
#[export] Hint Rewrite @countb_app @countb_nil : gwrw.
