(* ===== verification/Ebus.v ===== *)
(** * The eBUS vocabulary the gateway shares

    The byte-level facts every component of the passive path uses: the
    interface of the [helianthus-ebusgo] protocol package (a parameter of
    the model, its source is not in this repository), frames, the frame
    parser of [wire_log.go], the canonical encoder of
    [active_passive_deduplicator.go] and the address predicates of
    [passive_reconstructor_f19c_helpers.go]. *)

From S2P Require Import Prelude.

(** ** The external protocol package *)

(** [protocol.FrameType]. *)
Inductive FrameType :=
| FrameTypeUnknown
| FrameTypeInitiatorInitiator
| FrameTypeInitiatorTarget
| FrameTypeBroadcast.

#[export] Instance FrameType_eq_dec : EqDecision FrameType.
Proof. solve_decision. Defined.

(** [protocol.Frame]. *)
Record Frame := mkFrame {
  Source : byte;
  Target : byte;
  Primary : byte;
  Secondary : byte;
  Data : list byte
}.

#[export] Instance Frame_eq_dec : EqDecision Frame.
Proof. solve_decision. Defined.

(** [protocol.Frame{}]. *)
Definition zeroFrame : Frame := mkFrame 0 0 0 0 [].

(** What the gateway calls in [helianthus-ebusgo/protocol]: constants, the
    CRC of a byte string, [Frame.Type], the test
    [AddressClassOf(b) == AddressClassMaster] and
    [IsInitiatorCapableAddress]. *)
Class EbusProtocol := {
  SymbolSyn : byte;
  SymbolEscape : byte;
  SymbolAck : byte;
  SymbolNack : byte;
  AddressBroadcast : byte;
  CRC : list byte -> byte;
  frame_type : Frame -> FrameType;
  address_class_master : byte -> bool;
  IsInitiatorCapableAddress : byte -> bool
}.

(** The documented values the gateway relies on: SYN is 0xAA, ESC 0xA9,
    ACK 0x00, NACK 0xFF, broadcast 0xFE, and a CRC is one byte. *)
Class EbusLaws (P : EbusProtocol) : Prop := {
  syn_value : SymbolSyn = 0xAA;
  escape_value : SymbolEscape = 0xA9;
  ack_value : SymbolAck = 0x00;
  nack_value : SymbolNack = 0xFF;
  broadcast_value : AddressBroadcast = 0xFE;
  crc_is_byte : forall raw, is_byte (CRC raw)
}.

(** ** Addresses *)

(** [isInitiatorNibble]. *)
Definition isInitiatorNibble (n : byte) : bool :=
  match n with
  | 0x0 | 0x1 | 0x3 | 0x7 | 0xF => true
  | _ => false
  end.

(** [isInitiatorAddr]. *)
Definition isInitiatorAddr (b : byte) : bool :=
  isInitiatorNibble (Z.land b 0x0F) && isInitiatorNibble (Z.land (Z.shiftr b 4) 0x0F).

(** [isValidTargetAddr]. *)
Definition isValidTargetAddr (b : byte) : bool :=
  negb (b =? 0xAA) && negb (b =? 0xA9) && negb (b =? 0xFE) && negb (isInitiatorAddr b).

(** ** Frame codec *)

Section Codec.
Context {P : EbusProtocol}.

(** [parseFrame]: structural length, CRC, then the fields. *)
Definition parseFrame (raw : list byte) : option Frame :=
  if len raw <? 6 then None
  else
    let length_ := at_ raw 4 in
    let expected := 6 + length_ in
    if negb (len raw =? expected) then None
    else
      let crc := CRC (take (length raw - 1) raw) in
      if negb (crc =? at_ raw (length raw - 1)) then None
      else
        Some (mkFrame (at_ raw 0) (at_ raw 1) (at_ raw 2) (at_ raw 3)
                (take (Z.to_nat length_) (drop 5 raw))).

(** The bytes [canonicalFrameBytes] appends before the CRC. *)
Definition canonicalHeaderData (f : Frame) : list byte :=
  [Source f; Target f; Primary f; Secondary f; u8 (len (Data f))] ++ Data f.

(** [canonicalFrameBytes]. *)
Definition canonicalFrameBytes (f : Frame) : list byte :=
  let raw := canonicalHeaderData f in
  raw ++ [CRC raw].

(** [parsePassiveResponse]: the response of [request] out of the raw
    bytes LEN DATA CRC, with the CRC verdict. *)
Definition parsePassiveResponse (request : Frame) (raw : list byte) : Frame * bool :=
  if len raw <? 2 then (zeroFrame, false)
  else
    let length_ := at_ raw 0 in
    if negb (len raw =? length_ + 2) then (zeroFrame, false)
    else
      (mkFrame (Target request) (Source request) (Primary request) (Secondary request)
         (take (Z.to_nat length_) (drop 1 raw)),
       CRC (take (length raw - 1) raw) =? at_ raw (length raw - 1)).

(** [dedupRequestFrameFromFingerprint]: [parseFrame] without the CRC. *)
Definition dedupRequestFrameFromFingerprint (raw : list byte) : option Frame :=
  if len raw <? 6 then None
  else
    let dataLen := at_ raw 4 in
    if negb (len raw =? 6 + dataLen) then None
    else
      Some (mkFrame (at_ raw 0) (at_ raw 1) (at_ raw 2) (at_ raw 3)
              (take (Z.to_nat dataLen) (drop 5 raw))).

(** The raw bytes of a response: LEN DATA CRC. *)
Definition responseBytes (payload : list byte) : list byte :=
  (len payload :: payload) ++ [CRC (len payload :: payload)].
End Codec.

(** [isScanProbeRaw]: a 0704 identification query. *)
Definition isScanProbeRaw (raw : list byte) : bool :=
  (4 <=? len raw) && (at_ raw 2 =? 0x07) && (at_ raw 3 =? 0x04).

(** ** A concrete protocol

    An instance of [EbusProtocol] that satisfies [EbusLaws], used only to
    evaluate examples and to show that the hypotheses on the external
    package can hold together. *)
Definition demo_crc_bit (crc : Z) : Z :=
  if Z.testbit crc 7 then Z.lxor (u8 (Z.shiftl crc 1)) 0x9B else u8 (Z.shiftl crc 1).
Definition demo_crc_byte (crc b : Z) : Z :=
  u8 (Z.lxor (Nat.iter 8 demo_crc_bit crc) b).
Definition demo_crc (raw : list byte) : byte := fold_left demo_crc_byte raw 0.

Definition demo_frame_type (f : Frame) : FrameType :=
  if Target f =? 0xFE then FrameTypeBroadcast
  else if isInitiatorAddr (Target f) then FrameTypeInitiatorInitiator
  else if isValidTargetAddr (Target f) then FrameTypeInitiatorTarget
  else FrameTypeUnknown.

Definition demo_protocol : EbusProtocol := {|
  SymbolSyn := 0xAA; SymbolEscape := 0xA9; SymbolAck := 0x00; SymbolNack := 0xFF;
  AddressBroadcast := 0xFE; CRC := demo_crc; frame_type := demo_frame_type;
  address_class_master := isInitiatorAddr;
  IsInitiatorCapableAddress := isInitiatorAddr |}.

(** ** Lemmas *)

Lemma demo_crc_is_byte (raw : list byte) : is_byte (demo_crc raw).
Proof.
  unfold demo_crc.
  destruct raw as [|b raw _] using rev_ind; [unfold is_byte; simpl; lia|].
  rewrite fold_left_app. apply u8_is_byte.
Qed.

#[export] Instance demo_laws : EbusLaws demo_protocol.
Proof. split; try reflexivity. apply demo_crc_is_byte. Qed.

(** Every initiator address is a byte value that is none of SYN, ESC and
    broadcast. *)
Lemma isInitiatorAddr_spec (b : byte) :
  is_byte b -> isInitiatorAddr b = true ->
  b <> 0xAA /\ b <> 0xA9 /\ b <> 0xFE.
Proof.
  intros _ Hb. repeat split; intros ->; vm_compute in Hb; discriminate.
Qed.

(** All byte values, for the finite facts about addresses. *)
Definition byte_values : list Z := Z.of_nat <$> seq 0 256.

Lemma byte_values_complete (b : Z) : is_byte b -> In b byte_values.
Proof.
  intros Hb. unfold byte_values, is_byte in *.
  apply in_map_iff. exists (Z.to_nat b). split; [lia|].
  apply in_seq. lia.
Qed.

Section CodecLemmas.
Context {P : EbusProtocol}.

Lemma length_canonicalHeaderData (f : Frame) :
  length (canonicalHeaderData f) = (5 + length (Data f))%nat.
Proof. reflexivity. Qed.

Lemma length_canonicalFrameBytes (f : Frame) :
  length (canonicalFrameBytes f) = (6 + length (Data f))%nat.
Proof.
  unfold canonicalFrameBytes. rewrite length_app, length_canonicalHeaderData. simpl. lia.
Qed.

(** The parser on a buffer whose last byte is singled out. *)
Lemma parseFrame_snoc (h : list byte) (c : byte) :
  (5 <= length h)%nat ->
  parseFrame (h ++ [c]) =
    if negb (len h =? 5 + at_ h 4) then None
    else if negb (CRC h =? c) then None
    else Some (mkFrame (at_ h 0) (at_ h 1) (at_ h 2) (at_ h 3) (drop 5 h)).
Proof.
  intros Hh. unfold parseFrame.
  rewrite length_app. simpl length.
  rewrite !at_app_l by lia.
  replace (length h + 1 - 1)%nat with (length h) by lia.
  rewrite take_app_length, at_snoc.
  destruct (Z.ltb_spec (Z.of_nat (length h + 1)) 6); [lia|].
  replace (Z.of_nat (length h + 1) =? 6 + at_ h 4) with (len h =? 5 + at_ h 4)
    by (destruct (Z.eqb_spec (len h) (5 + at_ h 4)),
          (Z.eqb_spec (Z.of_nat (length h + 1)) (6 + at_ h 4)); lia).
  destruct (Z.eqb_spec (len h) (5 + at_ h 4)) as [Hl|]; [|done]. cbn [negb].
  destruct (CRC h =? c); [|done]. cbn [negb]. do 2 f_equal; try (apply at_app_l; lia).
  rewrite drop_app_le by lia. apply take_app_length'. rewrite length_drop. lia.
Qed.

Lemma parseFrame_Some_inv (raw : list byte) (f : Frame) :
  parseFrame raw = Some f ->
  exists h c, raw = h ++ [c] /\ (5 <= length h)%nat /\ len h = 5 + at_ h 4 /\
    CRC h = c /\
    f = mkFrame (at_ h 0) (at_ h 1) (at_ h 2) (at_ h 3) (drop 5 h).
Proof.
  intros Hp. destruct raw as [|c h _] using rev_ind; [done|].
  destruct (decide (5 <= length h)%nat) as [Hh|Hh].
  - rewrite parseFrame_snoc in Hp by done. break_all. bool_facts.
    exists h, (CRC h). by subst.
  - unfold parseFrame in Hp. rewrite length_app in Hp. simpl in Hp.
    break_all. bool_facts. lia.
Qed.

(** A frame that parses is the canonical encoding of its fields. *)
Lemma parseFrame_canonical (raw : list byte) (f : Frame) :
  all_bytes raw -> parseFrame raw = Some f -> canonicalFrameBytes f = raw.
Proof.
  intros Hb (h & c & -> & Hh & Hl & Hc & ->)%parseFrame_Some_inv.
  apply Forall_app in Hb as [Hbh _]. pose proof (at_is_byte h 4 Hbh) as H4.
  destruct h as [|s [|t [|p [|q [|n rest]]]]]; simpl in Hh; try lia.
  unfold canonicalFrameBytes, canonicalHeaderData, at_ in *. simpl in *.
  rewrite drop_0. replace (u8 (len rest)) with n by (rewrite u8_id; unfold is_byte in *; lia).
  by rewrite Hc.
Qed.

(** Parsing the canonical encoding gives the frame back, provided its
    length byte does not wrap. *)
Lemma parseFrame_encode (f : Frame) :
  (length (Data f) < 256)%nat -> parseFrame (canonicalFrameBytes f) = Some f.
Proof.
  intros Hd. unfold canonicalFrameBytes. destruct f as [s t p q d].
  rewrite parseFrame_snoc by (rewrite length_canonicalHeaderData; lia).
  unfold canonicalHeaderData, at_. simpl in *.
  rewrite u8_id by (unfold is_byte; lia).
  destruct (Z.eqb_spec (Z.of_nat (S (S (S (S (S (length d)))))))
              (5 + len d)); [|lia].
  rewrite Z.eqb_refl, drop_0. done.
Qed.

(** The response parser on LEN, payload and CRC singled out. *)
Lemma parsePassiveResponse_snoc (req : Frame) (n c : byte) (rest : list byte) :
  parsePassiveResponse req ((n :: rest) ++ [c]) =
    if negb (len rest =? n) then (zeroFrame, false)
    else (mkFrame (Target req) (Source req) (Primary req) (Secondary req) rest,
          CRC (n :: rest) =? c).
Proof.
  unfold parsePassiveResponse. rewrite length_app. simpl length.
  replace (S (length rest) + 1 - 1)%nat with (length (n :: rest)) by (simpl; lia).
  rewrite take_app_length, at_snoc.
  change (at_ ((n :: rest) ++ [c]) 0) with n.
  destruct (Z.ltb_spec (Z.of_nat (S (length rest) + 1)) 2); [lia|].
  replace (Z.of_nat (S (length rest) + 1) =? n + 2) with (len rest =? n)
    by (destruct (Z.eqb_spec (len rest) n),
          (Z.eqb_spec (Z.of_nat (S (length rest) + 1)) (n + 2)); lia).
  destruct (Z.eqb_spec (len rest) n) as [<-|]; [|done].
  cbn [negb app drop]. by rewrite drop_0, Nat2Z.id, take_app_length.
Qed.

Lemma parsePassiveResponse_encode (req : Frame) (payload : list byte) :
  parsePassiveResponse req (responseBytes payload) =
    (mkFrame (Target req) (Source req) (Primary req) (Secondary req) payload, true).
Proof.
  unfold responseBytes. by rewrite parsePassiveResponse_snoc, !Z.eqb_refl.
Qed.

(** What a response with a valid CRC contains. *)
Lemma parsePassiveResponse_valid (req f : Frame) (raw : list byte) :
  parsePassiveResponse req raw = (f, true) ->
  raw = responseBytes (Data f) /\ Source f = Target req /\ Target f = Source req /\
  Primary f = Primary req /\ Secondary f = Secondary req.
Proof.
  intros Hp. destruct raw as [|c h _] using rev_ind; [done|].
  destruct h as [|n rest]; [done|].
  rewrite parsePassiveResponse_snoc in Hp.
  destruct (Z.eqb_spec (len rest) n) as [<-|]; [|done]. simpl in Hp.
  injection Hp as <- Hc%Z.eqb_eq. unfold responseBytes. simpl. by rewrite Hc.
Qed.

Lemma dedupRequestFrame_encode (f : Frame) :
  (length (Data f) < 256)%nat ->
  dedupRequestFrameFromFingerprint (canonicalFrameBytes f) = Some f.
Proof.
  intros Hd. pose proof (parseFrame_encode f Hd) as Hp.
  unfold parseFrame in Hp. unfold dedupRequestFrameFromFingerprint.
  break_all. by rewrite Hp.
Qed.
End CodecLemmas.

(** ** Properties *)

Section CodecProperties.
Context {P : EbusProtocol}.

(** [parseFrame] and [canonicalFrameBytes] are inverse. *)
Theorem frame_codec_roundtrip (f : Frame) (raw : list byte) :
  (length (Data f) < 256)%nat -> all_bytes raw ->
  parseFrame (canonicalFrameBytes f) = Some f /\
  (parseFrame raw = Some f <-> canonicalFrameBytes f = raw).
Proof.
  intros Hd Hb. split; [by apply parseFrame_encode|]. split.
  - by apply parseFrame_canonical.
  - intros <-. by apply parseFrame_encode.
Qed.
End CodecProperties.

Lemma frame_codec_roundtrip_witness :
  @parseFrame demo_protocol
    (@canonicalFrameBytes demo_protocol (mkFrame 0x10 0x08 0xB5 0x09 [0x0D; 0xAA; 0x01])) =
  Some (mkFrame 0x10 0x08 0xB5 0x09 [0x0D; 0xAA; 0x01]).
Proof.
  refine (proj1 (@frame_codec_roundtrip demo_protocol
    (mkFrame 0x10 0x08 0xB5 0x09 [0x0D; 0xAA; 0x01]) [] _ _)).
  - simpl; lia.
  - constructor.
Defined.

(** Exactly 25 byte values are initiator addresses, none of them a
    reserved symbol; every byte is exactly one of reserved, initiator,
    valid target. *)
Theorem address_partition :
  length (List.filter isInitiatorAddr byte_values) = 25%nat /\
  (forall b, is_byte b ->
     (if isInitiatorAddr b then 1 else 0) + (if isValidTargetAddr b then 1 else 0) +
     (if (b =? 0xAA) || (b =? 0xA9) || (b =? 0xFE) then 1 else 0) = 1).
Proof.
  split; [by vm_compute|]. intros b Hb%byte_values_complete.
  assert (Hall : List.forallb (fun b =>
     (if isInitiatorAddr b then 1 else 0) + (if isValidTargetAddr b then 1 else 0) +
     (if (b =? 0xAA) || (b =? 0xA9) || (b =? 0xFE) then 1 else 0) =? 1) byte_values = true)
    by (by vm_compute).
  rewrite List.forallb_forall in Hall. by apply Z.eqb_eq, Hall.
Qed.

Lemma address_partition_witness :
  is_byte 0x10 /\
  (if isInitiatorAddr 0x10 then 1 else 0) + (if isValidTargetAddr 0x10 then 1 else 0) +
  (if (0x10 =? 0xAA) || (0x10 =? 0xA9) || (0x10 =? 0xFE) then 1 else 0) = 1.
Proof.
  assert (Hb : is_byte 0x10) by (unfold is_byte; lia).
  split; [exact Hb|]. exact (proj2 address_partition 0x10 Hb).
Defined.

(** Encodings are unfolded by hand. *)
#[global] Arguments canonicalFrameBytes : simpl never.
#[global] Arguments responseBytes : simpl never.
