(* ===== verification/WirePhase.v ===== *)
(** * Byte-level phase tracker of the adapter multiplexer

    Models [internal/adaptermux/wire_phase.go]: the tracker that follows
    one eBUS telegram by counting bytes, and tells the multiplexer when a
    request, a response and a whole transaction are over. *)

From S2P Require Import Prelude Ebus.

Module WirePhase.

(** [wirePhase]. *)
Inductive wirePhase :=
| wirePhaseIdle
| wirePhaseCollectRequest
| wirePhaseWaitCmdAck
| wirePhaseWaitResponseLen
| wirePhaseWaitResponseBody
| wirePhaseWaitResponseAck
| wirePhaseWaitTerminalSyn.

#[export] Instance wirePhase_eq_dec : EqDecision wirePhase.
Proof. solve_decision. Defined.

(** [wirePhase.isSYNTimeoutBoundary]. *)
Definition isSYNTimeoutBoundary (p : wirePhase) : bool :=
  match p with
  | wirePhaseWaitCmdAck | wirePhaseWaitResponseLen
  | wirePhaseWaitResponseBody | wirePhaseWaitResponseAck => true
  | _ => false
  end.

(** [wirePhaseTracker]. *)
Record wirePhaseTracker := mkTracker {
  phase : wirePhase;
  requestBytesSeen : Z;
  requestDataLength : Z;
  requestSrc : byte;
  requestDst : byte;
  cmdRetried : bool;
  responseRetried : bool;
  responseBytesRemain : Z;
  ownerWrote : bool
}.

(** [wirePhaseEvent]. *)
Inductive wirePhaseEvent :=
| wirePhaseEventNone
| wirePhaseEventRequestComplete
| wirePhaseEventCmdACK
| wirePhaseEventCmdNACK
| wirePhaseEventResponseDone
| wirePhaseEventTransactionDone
| wirePhaseEventCmdNACKRetry
| wirePhaseEventSYNIdle
| wirePhaseEventSYNTimeout.

#[export] Instance wirePhaseEvent_eq_dec : EqDecision wirePhaseEvent.
Proof. solve_decision. Defined.

(** [reset]. *)
Definition reset (p : wirePhase) (t : wirePhaseTracker) : wirePhaseTracker :=
  mkTracker p 0 (-1) 0 0 false false 0 false.

(** [t.phase = p]. *)
Definition set_phase (p : wirePhase) (t : wirePhaseTracker) : wirePhaseTracker :=
  mkTracker p (requestBytesSeen t) (requestDataLength t) (requestSrc t) (requestDst t)
    (cmdRetried t) (responseRetried t) (responseBytesRemain t) (ownerWrote t).

(** [markOwnerWrite]. *)
Definition markOwnerWrite (t : wirePhaseTracker) : wirePhaseTracker :=
  mkTracker (phase t) (requestBytesSeen t) (requestDataLength t) (requestSrc t)
    (requestDst t) (cmdRetried t) (responseRetried t) (responseBytesRemain t) true.

(** [telegramLive]. *)
Definition telegramLive (t : wirePhaseTracker) : bool :=
  if negb (ownerWrote t) then false
  else match phase t with
       | wirePhaseCollectRequest => 1 <? requestBytesSeen t
       | wirePhaseWaitCmdAck | wirePhaseWaitResponseLen
       | wirePhaseWaitResponseBody | wirePhaseWaitResponseAck => true
       | _ => false
       end.

Section Advance.
Context {P : EbusProtocol}.

(** [advanceCollectRequest]. *)
Definition advanceCollectRequest (symbol : byte) (t : wirePhaseTracker)
    : wirePhaseTracker * wirePhaseEvent :=
  let seen := requestBytesSeen t + 1 in
  let src := if seen =? 1 then symbol else requestSrc t in
  let dst := if seen =? 2 then symbol else requestDst t in
  let dlen := if seen =? 5 then symbol else requestDataLength t in
  let t1 := mkTracker (phase t) seen dlen src dst (cmdRetried t) (responseRetried t)
              (responseBytesRemain t) (ownerWrote t) in
  if (0 <=? dlen) && (6 + dlen <=? seen)
  then (set_phase wirePhaseWaitCmdAck t1, wirePhaseEventRequestComplete)
  else (t1, wirePhaseEventNone).

(** [advanceWaitCmdAck]. *)
Definition advanceWaitCmdAck (symbol : byte) (t : wirePhaseTracker)
    : wirePhaseTracker * wirePhaseEvent :=
  if symbol =? SymbolAck then
    if requestDst t =? AddressBroadcast then
      (set_phase wirePhaseWaitTerminalSyn t, wirePhaseEventNone)
    else if IsInitiatorCapableAddress (requestDst t) then
      (set_phase wirePhaseWaitTerminalSyn t, wirePhaseEventNone)
    else (set_phase wirePhaseWaitResponseLen t, wirePhaseEventCmdACK)
  else if symbol =? SymbolNack then
    if negb (cmdRetried t) then
      (mkTracker wirePhaseCollectRequest 0 (-1) (requestSrc t) (requestDst t) true
         (responseRetried t) (responseBytesRemain t) (ownerWrote t),
       wirePhaseEventCmdNACKRetry)
    else (set_phase wirePhaseWaitTerminalSyn t, wirePhaseEventNone)
  else (reset wirePhaseIdle t, wirePhaseEventCmdNACK).

(** [advanceWaitResponseLen]. *)
Definition advanceWaitResponseLen (symbol : byte) (t : wirePhaseTracker)
    : wirePhaseTracker * wirePhaseEvent :=
  (mkTracker wirePhaseWaitResponseBody (requestBytesSeen t) (requestDataLength t)
     (requestSrc t) (requestDst t) (cmdRetried t) (responseRetried t)
     (symbol + 1) (ownerWrote t),
   wirePhaseEventNone).

(** [advanceWaitResponseBody]. *)
Definition advanceWaitResponseBody (symbol : byte) (t : wirePhaseTracker)
    : wirePhaseTracker * wirePhaseEvent :=
  let remain := responseBytesRemain t - 1 in
  let t1 := mkTracker (phase t) (requestBytesSeen t) (requestDataLength t)
              (requestSrc t) (requestDst t) (cmdRetried t) (responseRetried t)
              remain (ownerWrote t) in
  if remain <=? 0
  then (set_phase wirePhaseWaitResponseAck t1, wirePhaseEventResponseDone)
  else (t1, wirePhaseEventNone).

(** [advanceWaitResponseAck]. *)
Definition advanceWaitResponseAck (symbol : byte) (t : wirePhaseTracker)
    : wirePhaseTracker * wirePhaseEvent :=
  if symbol =? SymbolNack then
    if negb (responseRetried t) then
      (mkTracker wirePhaseWaitResponseLen (requestBytesSeen t) (requestDataLength t)
         (requestSrc t) (requestDst t) (cmdRetried t) true
         (responseBytesRemain t) (ownerWrote t),
       wirePhaseEventNone)
    else (set_phase wirePhaseWaitTerminalSyn t, wirePhaseEventNone)
  else (set_phase wirePhaseWaitTerminalSyn t, wirePhaseEventNone).

(** [advanceWaitTerminalSyn]: whatever the byte is. *)
Definition advanceWaitTerminalSyn (symbol : byte) (t : wirePhaseTracker)
    : wirePhaseTracker * wirePhaseEvent :=
  (reset wirePhaseIdle t, wirePhaseEventTransactionDone).

(** [advanceWithProvenance]. *)
Definition advanceWithProvenance (symbol : byte) (isWireSyn : bool) (t : wirePhaseTracker)
    : wirePhaseTracker * wirePhaseEvent :=
  if decide (phase t = wirePhaseWaitTerminalSyn) then advanceWaitTerminalSyn symbol t
  else if isWireSyn then
    if isSYNTimeoutBoundary (phase t) then
      (reset wirePhaseIdle t, wirePhaseEventSYNTimeout)
    else if decide (phase t = wirePhaseCollectRequest) then
      if requestBytesSeen t <=? 1 then
        (reset wirePhaseIdle t, wirePhaseEventSYNIdle)
      else (reset wirePhaseIdle t, wirePhaseEventSYNTimeout)
    else (reset wirePhaseIdle t, wirePhaseEventSYNIdle)
  else
    match phase t with
    | wirePhaseIdle => (t, wirePhaseEventNone)
    | wirePhaseCollectRequest => advanceCollectRequest symbol t
    | wirePhaseWaitCmdAck => advanceWaitCmdAck symbol t
    | wirePhaseWaitResponseLen => advanceWaitResponseLen symbol t
    | wirePhaseWaitResponseBody => advanceWaitResponseBody symbol t
    | wirePhaseWaitResponseAck => advanceWaitResponseAck symbol t
    | wirePhaseWaitTerminalSyn => (t, wirePhaseEventNone)
    end.

(** [advance]: the value-only variant. *)
Definition advance (symbol : byte) (t : wirePhaseTracker)
    : wirePhaseTracker * wirePhaseEvent :=
  advanceWithProvenance symbol (symbol =? SymbolSyn) t.

(** A sequence of received symbols, each with its provenance flag, and
    the events the tracker reports for them. *)
Fixpoint run (input : list (byte * bool)) (t : wirePhaseTracker)
    : wirePhaseTracker * list wirePhaseEvent :=
  match input with
  | [] => (t, [])
  | (symbol, syn) :: rest =>
      let '(t1, ev) := advanceWithProvenance symbol syn t in
      let '(t2, evs) := run rest t1 in
      (t2, ev :: evs)
  end.
End Advance.

(** [startRequest]. *)
Definition startRequest (t : wirePhaseTracker) : wirePhaseTracker :=
  reset wirePhaseCollectRequest t.

(** [startRequestWithSource]. *)
Definition startRequestWithSource (src : byte) (t : wirePhaseTracker) : wirePhaseTracker :=
  let t1 := reset wirePhaseCollectRequest t in
  mkTracker (phase t1) 1 (requestDataLength t1) src (requestDst t1) (cmdRetried t1)
    (responseRetried t1) (responseBytesRemain t1) (ownerWrote t1).

(** [isIdle], [initiator], [target]. *)
Definition isIdle (t : wirePhaseTracker) : bool := bool_decide (phase t = wirePhaseIdle).
Definition initiator (t : wirePhaseTracker) : byte := requestSrc t.
Definition target (t : wirePhaseTracker) : byte := requestDst t.

(** Data symbols: their provenance says they are not a wire SYN. *)
Definition data_symbols (l : list byte) : list (byte * bool) := (fun b => (b, false)) <$> l.

(** The bytes of one request (SRC DST PB SB LEN DATA CRC) and of one
    response (LEN DATA CRC) on the wire. *)
Definition request_wire (s d pb sb : byte) (data : list byte) (crc : byte) : list byte :=
  [s; d; pb; sb; len data] ++ data ++ [crc].
Definition response_wire (payload : list byte) (crc : byte) : list byte :=
  [len payload] ++ payload ++ [crc].

(** The events of those bytes. *)
Definition request_events (data : list byte) : list wirePhaseEvent :=
  replicate (5 + length data) wirePhaseEventNone ++ [wirePhaseEventRequestComplete].
Definition response_events (payload : list byte) : list wirePhaseEvent :=
  replicate (1 + length payload) wirePhaseEventNone ++ [wirePhaseEventResponseDone].

(** A whole initiator-target telegram: the request, possibly NACKed once
    and repeated, the target's ACK, the response, possibly NACKed once and
    repeated, the initiator's closing symbol and the trailing SYN; with the
    events the tracker must report for it. *)
Definition telegram {P : EbusProtocol} (nackRequest nackResponse : bool)
    (req resp : list byte) (closing : byte) : list (byte * bool) :=
  data_symbols ((if nackRequest then req ++ [SymbolNack] else []) ++ req ++ [SymbolAck] ++
    (if nackResponse then resp ++ [SymbolNack] else []) ++ resp ++ [closing]) ++
  [(SymbolSyn, true)].
Definition telegram_events (nackRequest nackResponse : bool)
    (reqEv respEv : list wirePhaseEvent) : list wirePhaseEvent :=
  (if nackRequest then reqEv ++ [wirePhaseEventCmdNACKRetry] else []) ++
  reqEv ++ [wirePhaseEventCmdACK] ++
  (if nackResponse then respEv ++ [wirePhaseEventNone] else []) ++
  respEv ++ [wirePhaseEventNone] ++ [wirePhaseEventTransactionDone].

Definition is_retry (ev : wirePhaseEvent) : bool :=
  match ev with wirePhaseEventCmdNACKRetry => true | _ => false end.
Definition is_response_done (ev : wirePhaseEvent) : bool :=
  match ev with wirePhaseEventResponseDone => true | _ => false end.

(** The events after which the multiplexer releases bus ownership. *)
Definition releases (ev : wirePhaseEvent) : bool :=
  match ev with
  | wirePhaseEventTransactionDone | wirePhaseEventCmdNACK | wirePhaseEventSYNTimeout => true
  | _ => false
  end.

(** ** Invariant *)

(** What holds of the tracker's counters between two symbols. *)
Definition wf (t : wirePhaseTracker) : Prop :=
  0 <= requestBytesSeen t /\
  -1 <= requestDataLength t <= 255 /\
  match phase t with
  | wirePhaseCollectRequest =>
      (requestDataLength t = -1 /\ requestBytesSeen t <= 4) \/
      (0 <= requestDataLength t /\ 5 <= requestBytesSeen t < 6 + requestDataLength t)
  | wirePhaseWaitResponseBody => 1 <= responseBytesRemain t <= 256
  | _ => True
  end.

(** How many more symbols, at most, before the tracker is idle again. *)
Definition budget (t : wirePhaseTracker) : Z :=
  let response := if responseRetried t then 259 else 259 + 258 in
  let ack := 2 + response + (if cmdRetried t then 0 else 262) in
  match phase t with
  | wirePhaseIdle => 0
  | wirePhaseCollectRequest =>
      (if 0 <=? requestDataLength t then 6 + requestDataLength t else 261)
      - requestBytesSeen t + ack
  | wirePhaseWaitCmdAck => ack
  | wirePhaseWaitResponseLen => response
  | wirePhaseWaitResponseBody => response - 257 + responseBytesRemain t
  | wirePhaseWaitResponseAck => response - 257
  | wirePhaseWaitTerminalSyn => 1
  end.

(** How many retries, complete responses and releases a tracker can still
    report before its next grant. *)
Definition retry_potential (t : wirePhaseTracker) : nat :=
  match phase t with
  | wirePhaseIdle => 0
  | _ => if cmdRetried t then 0 else 1
  end.
Definition response_potential (t : wirePhaseTracker) : nat :=
  match phase t with
  | wirePhaseIdle | wirePhaseWaitTerminalSyn => 0
  | wirePhaseWaitResponseAck => if responseRetried t then 0 else 1
  | _ => if responseRetried t then 1 else 2
  end.
Definition release_potential (t : wirePhaseTracker) : nat :=
  match phase t with wirePhaseIdle => 0 | _ => 1 end.

(** The event a wire SYN produces. *)
Definition syn_event (t : wirePhaseTracker) : wirePhaseEvent :=
  match phase t with
  | wirePhaseWaitTerminalSyn => wirePhaseEventTransactionDone
  | wirePhaseIdle => wirePhaseEventSYNIdle
  | wirePhaseCollectRequest =>
      if requestBytesSeen t <=? 1 then wirePhaseEventSYNIdle else wirePhaseEventSYNTimeout
  | _ => wirePhaseEventSYNTimeout
  end.

(** ** Lemmas *)

Section Lemmas.
Context {P : EbusProtocol}.

Ltac unfold_advance :=
  unfold advanceWithProvenance, advanceCollectRequest, advanceWaitCmdAck,
    advanceWaitResponseLen, advanceWaitResponseBody, advanceWaitResponseAck,
    advanceWaitTerminalSyn.

Lemma wf_startRequest t : wf (startRequest t).
Proof. unfold wf; simpl; lia. Qed.

Lemma wf_startRequestWithSource src t : wf (startRequestWithSource src t).
Proof. unfold wf; simpl; lia. Qed.

(** One symbol keeps the invariant and, unless the tracker is idle,
    uses up budget. *)
Lemma advance_wf_budget symbol syn t t' ev :
  is_byte symbol -> wf t -> advanceWithProvenance symbol syn t = (t', ev) ->
  wf t' /\ (phase t <> wirePhaseIdle -> 0 <= budget t' < budget t) /\
  (phase t = wirePhaseIdle -> phase t' = wirePhaseIdle).
Proof.
  intros Hs Hwf. unfold_advance. unfold wf, is_byte in *.
  destruct t as [p seen dlen src dst cr rr rem ow]; simpl in *.
  destruct p; simpl in *; intros H; break_all; bool_facts; unfold budget; simpl;
    repeat split; try done; try lia; break; bool_facts; try lia.
Qed.

Lemma run_app (a b : list (byte * bool)) t :
  run (a ++ b) t =
    let '(t1, e1) := run a t in let '(t2, e2) := run b t1 in (t2, e1 ++ e2).
Proof.
  revert t; induction a as [|[x y] a IH]; intros t; simpl.
  - by destruct (run b t).
  - destruct (advanceWithProvenance x y t) as [t1 ev].
    rewrite IH. destruct (run a t1) as [t2 e1]. by destruct (run b t2).
Qed.

Lemma run_compose (a b : list (byte * bool)) t t1 t2 e1 e2 :
  run a t = (t1, e1) -> run b t1 = (t2, e2) -> run (a ++ b) t = (t2, e1 ++ e2).
Proof. intros Ha Hb. by rewrite run_app, Ha, Hb. Qed.

Lemma data_symbols_app (a b : list byte) :
  data_symbols (a ++ b) = data_symbols a ++ data_symbols b.
Proof. apply fmap_app. Qed.

(** Request bytes after the LEN field, before the CRC. *)
Lemma run_request_body (body : list byte) k n s d cr rr rem ow :
  5 <= k -> k + len body < 6 + n ->
  run (data_symbols body) (mkTracker wirePhaseCollectRequest k n s d cr rr rem ow) =
    (mkTracker wirePhaseCollectRequest (k + len body) n s d cr rr rem ow,
     replicate (length body) wirePhaseEventNone).
Proof.
  revert k; induction body as [|b body IH]; intros k Hk Hn.
  - simpl. by rewrite Z.add_0_r.
  - simpl length in Hn. cbn [data_symbols fmap list_fmap run].
    unfold advanceWithProvenance, advanceCollectRequest. simpl.
    destruct (Z.eqb_spec (k + 1) 1), (Z.eqb_spec (k + 1) 2),
      (Z.eqb_spec (k + 1) 5); try lia.
    destruct (Z.leb_spec (6 + n) (k + 1)); [lia|]. rewrite andb_false_r.
    fold (data_symbols body). rewrite IH by lia.
    simpl. f_equal. f_equal; lia.
Qed.

(** A whole request, from a tracker that has seen none of it. *)
Lemma run_request s d pb sb data crc s0 d0 cr rr rem ow :
  run (data_symbols (request_wire s d pb sb data crc))
    (mkTracker wirePhaseCollectRequest 0 (-1) s0 d0 cr rr rem ow) =
  (mkTracker wirePhaseWaitCmdAck (6 + len data) (len data) s d cr rr rem ow,
   request_events data).
Proof.
  unfold request_wire, request_events. rewrite !data_symbols_app.
  replace (replicate (5 + length data) wirePhaseEventNone) with
    (replicate 5 wirePhaseEventNone ++ replicate (length data) wirePhaseEventNone)
    by (by rewrite <- replicate_add).
  rewrite <- app_assoc.
  eapply run_compose; [|eapply run_compose].
  - simpl. unfold advanceWithProvenance, advanceCollectRequest. simpl. zeval. simpl.
    destruct (Z.leb_spec (6 + len data) 5); [lia|]. by rewrite andb_false_r.
  - apply run_request_body; lia.
  - simpl. unfold advanceWithProvenance, advanceCollectRequest. simpl.
    destruct (Z.eqb_spec (5 + len data + 1) 1), (Z.eqb_spec (5 + len data + 1) 2),
      (Z.eqb_spec (5 + len data + 1) 5); try lia.
    destruct (Z.leb_spec (6 + len data) (5 + len data + 1)); [|lia].
    destruct (Z.leb_spec 0 (len data)); [|lia]. simpl.
    unfold set_phase. simpl. f_equal. f_equal. lia.
Qed.

Lemma run_response_body (body : list byte) k n s d cr rr rem ow :
  len body < rem ->
  run (data_symbols body) (mkTracker wirePhaseWaitResponseBody k n s d cr rr rem ow) =
    (mkTracker wirePhaseWaitResponseBody k n s d cr rr (rem - len body) ow,
     replicate (length body) wirePhaseEventNone).
Proof.
  revert rem; induction body as [|b body IH]; intros rem Hn.
  - simpl. by rewrite Z.sub_0_r.
  - simpl length in Hn. cbn [data_symbols fmap list_fmap run].
    unfold advanceWithProvenance, advanceWaitResponseBody. simpl.
    destruct (Z.leb_spec (rem - 1) 0); [lia|].
    fold (data_symbols body). rewrite IH by lia. simpl. f_equal. f_equal; lia.
Qed.

Lemma run_response payload crc k n s d cr rr rem ow :
  run (data_symbols (response_wire payload crc))
    (mkTracker wirePhaseWaitResponseLen k n s d cr rr rem ow) =
  (mkTracker wirePhaseWaitResponseAck k n s d cr rr 0 ow, response_events payload).
Proof.
  unfold response_wire, response_events. rewrite !data_symbols_app.
  replace (replicate (1 + length payload) wirePhaseEventNone) with
    ([wirePhaseEventNone] ++ replicate (length payload) wirePhaseEventNone) by done.
  rewrite <- app_assoc.
  eapply run_compose; [|eapply run_compose].
  - done.
  - apply run_response_body. lia.
  - simpl. unfold advanceWithProvenance, advanceWaitResponseBody. simpl.
    destruct (Z.leb_spec (len payload + 1 - len payload - 1) 0); [|lia].
    unfold set_phase. simpl. f_equal. f_equal. lia.
Qed.

(** Potential argument: an event kind that only occurs when a potential
    drops occurs at most as often as the potential allows. *)
Lemma run_potential (p : wirePhaseEvent -> bool) (pot : wirePhaseTracker -> nat) :
  (forall symbol syn t t' ev, advanceWithProvenance symbol syn t = (t', ev) ->
     ((if p ev then 1 else 0) + pot t' <= pot t)%nat) ->
  forall input t t' evs, run input t = (t', evs) -> (countb p evs + pot t' <= pot t)%nat.
Proof.
  intros Hstep input. induction input as [|[x y] input IH]; intros t t' evs H; simpl in H.
  - simplify_eq. unfold countb. simpl. lia.
  - destruct (advanceWithProvenance x y t) as [t1 ev] eqn:H1.
    destruct (run input t1) as [t2 evs2] eqn:H2. simplify_eq.
    apply Hstep in H1. apply IH in H2. unfold countb in *. simpl.
    destruct (p ev); simpl; lia.
Qed.

Lemma run_wf input t t' evs :
  Forall (fun '(b, _) => is_byte b) input -> wf t -> run input t = (t', evs) -> wf t'.
Proof.
  revert t evs; induction input as [|[x y] input IH]; intros t evs Hb Hwf H; simpl in H.
  - by simplify_eq.
  - inversion_clear Hb as [|? ? Hx Hin].
    destruct (advanceWithProvenance x y t) as [t1 ev] eqn:H1.
    destruct (run input t1) as [t2 evs2] eqn:H2. simplify_eq.
    eapply IH; [done| |done]. by eapply advance_wf_budget.
Qed.
(** The target's ACK, on a request that expects a response. *)
Lemma run_cmd_ack k n s d cr rr rem ow :
  d <> AddressBroadcast -> IsInitiatorCapableAddress d = false ->
  run (data_symbols [SymbolAck]) (mkTracker wirePhaseWaitCmdAck k n s d cr rr rem ow) =
    (mkTracker wirePhaseWaitResponseLen k n s d cr rr rem ow, [wirePhaseEventCmdACK]).
Proof.
  intros Hd Hi. simpl. unfold advanceWithProvenance, advanceWaitCmdAck. simpl.
  rewrite Z.eqb_refl, Hi. by destruct (Z.eqb_spec d AddressBroadcast).
Qed.

Lemma run_cmd_nack {L : EbusLaws P} k n s d rr rem ow :
  run (data_symbols [SymbolNack]) (mkTracker wirePhaseWaitCmdAck k n s d false rr rem ow) =
    (mkTracker wirePhaseCollectRequest 0 (-1) s d true rr rem ow,
     [wirePhaseEventCmdNACKRetry]).
Proof.
  simpl. unfold advanceWithProvenance, advanceWaitCmdAck. simpl.
  by rewrite nack_value, ack_value.
Qed.

(** The response phase up to the trailing SYN. *)
Lemma run_response_phase (nackResponse : bool) payload rcrc closing k n s d cr rem ow t0 :
  closing <> SymbolNack ->
  run (data_symbols ((if nackResponse then response_wire payload rcrc ++ [SymbolNack] else [])
         ++ response_wire payload rcrc ++ [closing]) ++ [(SymbolSyn, true)])
    (mkTracker wirePhaseWaitResponseLen k n s d cr false rem ow) =
  (reset wirePhaseIdle t0,
   (if nackResponse then response_events payload ++ [wirePhaseEventNone] else []) ++
   response_events payload ++ [wirePhaseEventNone] ++ [wirePhaseEventTransactionDone]).
Proof.
  intros Hc.
  assert (Hclose : forall rr rem, run (data_symbols [closing] ++ [(SymbolSyn, true)])
      (mkTracker wirePhaseWaitResponseAck k n s d cr rr rem ow) =
      (reset wirePhaseIdle t0,
       [wirePhaseEventNone] ++ [wirePhaseEventTransactionDone])).
  { intros rr rem'. simpl. unfold advanceWithProvenance, advanceWaitResponseAck. simpl.
    by destruct (Z.eqb_spec closing SymbolNack). }
  rewrite !data_symbols_app, <- !app_assoc. destruct nackResponse.
  - rewrite data_symbols_app, <- !app_assoc.
    eapply run_compose; [apply run_response|].
    eapply run_compose; [|eapply run_compose; [apply run_response|apply Hclose]].
    simpl. unfold advanceWithProvenance, advanceWaitResponseAck. simpl.
    by rewrite Z.eqb_refl.
  - eapply run_compose; [done|]. eapply run_compose; [apply run_response|apply Hclose].
Qed.

Ltac solve_potential :=
  unfold_advance; simpl; intros; break_all; simpl; lia.

Lemma retry_potential_drops symbol syn t t' ev :
  advanceWithProvenance symbol syn t = (t', ev) ->
  ((if is_retry ev then 1 else 0) + retry_potential t' <= retry_potential t)%nat.
Proof. unfold retry_potential. destruct t as [[] ? ? ? ? [] ? ? ?]; solve_potential. Qed.

Lemma response_potential_drops symbol syn t t' ev :
  advanceWithProvenance symbol syn t = (t', ev) ->
  ((if is_response_done ev then 1 else 0) + response_potential t' <=
    response_potential t)%nat.
Proof. unfold response_potential. destruct t as [[] ? ? ? ? ? [] ? ?]; solve_potential. Qed.

Lemma release_potential_drops symbol syn t t' ev :
  advanceWithProvenance symbol syn t = (t', ev) ->
  ((if releases ev then 1 else 0) + release_potential t' <= release_potential t)%nat.
Proof. unfold release_potential. destruct t as [[] ? ? ? ? ? ? ? ?]; solve_potential. Qed.

(** While its budget lasts the tracker reaches idle. *)
Lemma run_reaches_idle (input : list (byte * bool)) t :
  Forall (fun '(b, _) => is_byte b) input -> wf t -> budget t <= len input ->
  exists pre post, input = pre ++ post /\ len pre <= budget t /\
    phase (fst (run pre t)) = wirePhaseIdle.
Proof.
  revert t; induction input as [|[x y] input IH]; intros t Hb Hwf Hlen;
    (destruct (decide (phase t = wirePhaseIdle)) as [Hi|Hi];
     [eexists [], _; split_and!; [reflexivity|unfold budget; by rewrite Hi|done]|]).
  - destruct (advanceWithProvenance 0 true t) as [t1 ev] eqn:H1.
    eapply advance_wf_budget in H1 as (_ & H1 & _); [|unfold is_byte; lia|done].
    specialize (H1 Hi). simpl in Hlen. lia.
  - inversion_clear Hb as [|? ? Hx Hin].
    destruct (advanceWithProvenance x y t) as [t1 ev] eqn:H1.
    pose proof H1 as H1'.
    eapply advance_wf_budget in H1 as (Hwf1 & H1 & _); [|done|done].
    specialize (H1 Hi). simpl length in Hlen.
    destruct (IH t1 Hin Hwf1) as (pre & post & -> & Hpre & Hidle); [lia|].
    exists ((x, y) :: pre), post. split_and!; [done|simpl length; lia|].
    simpl. rewrite H1'. by destruct (run pre t1).
Qed.

End Lemmas.

(** ** Properties *)

Section Properties.
Context {P : EbusProtocol} {L : EbusLaws P}.

(** On every initiator-target telegram, with or without one NACKed
    request and one NACKed response, the tracker started by a grant
    reports exactly the expected events and is idle after the SYN. *)
Theorem tracker_follows_telegram nackRequest nackResponse
    s d pb sb data crc payload rcrc closing t0 :
  d <> AddressBroadcast -> IsInitiatorCapableAddress d = false ->
  closing <> SymbolNack ->
  run (telegram nackRequest nackResponse (request_wire s d pb sb data crc)
         (response_wire payload rcrc) closing) (startRequest t0) =
  (reset wirePhaseIdle t0,
   telegram_events nackRequest nackResponse (request_events data) (response_events payload)).
Proof.
  intros Hd Hi Hc. unfold telegram, telegram_events.
  rewrite (data_symbols_app (if nackRequest then _ else _)).
  rewrite (data_symbols_app (request_wire _ _ _ _ _ _) ([SymbolAck] ++ _)).
  rewrite (data_symbols_app [SymbolAck]), <- !app_assoc.
  destruct nackRequest; [rewrite data_symbols_app, <- !app_assoc|];
    repeat first
      [ apply run_response_phase; done
      | eapply run_compose;
        [first [apply run_request | apply run_cmd_nack | by apply run_cmd_ack | done]|] ].
Qed.

(** The tracker cannot be kept busy: whatever bytes follow, within
    [budget t] symbols it is idle again, and a grant's budget is at most
    1042 symbols. *)
Theorem tracker_returns_to_idle (input : list (byte * bool)) t src :
  Forall (fun '(b, _) => is_byte b) input -> wf t -> budget t <= len input ->
  (exists pre post, input = pre ++ post /\ len pre <= budget t /\
    phase (fst (run pre t)) = wirePhaseIdle) /\
  budget (startRequest t) = 1042 /\ budget (startRequestWithSource src t) = 1041.
Proof. intros Hb Hwf Hlen. split; [by apply run_reaches_idle|done]. Qed.

(** Between a grant and the next one the tracker reports at most one
    request retry, at most two complete responses and at most one event
    that releases ownership, whatever the bytes are. *)
Theorem tracker_events_bounded input t t' evs :
  run input (startRequest t) = (t', evs) ->
  (countb is_retry evs <= 1)%nat /\ (countb is_response_done evs <= 2)%nat /\
  (countb releases evs <= 1)%nat.
Proof.
  intros Hrun.
  pose proof (run_potential _ _ retry_potential_drops _ _ _ _ Hrun).
  pose proof (run_potential _ _ response_potential_drops _ _ _ _ Hrun).
  pose proof (run_potential _ _ release_potential_drops _ _ _ _ Hrun).
  unfold retry_potential, response_potential, release_potential in *. simpl in *. lia.
Qed.

(** A wire SYN always leaves a freshly reset idle tracker, and it is
    reported as a timeout exactly when the telegram the owner wrote is
    live on the wire. *)
Theorem wire_syn_resynchronises symbol t :
  advanceWithProvenance symbol true t = (reset wirePhaseIdle t, syn_event t) /\
  (ownerWrote t = true -> (syn_event t = wirePhaseEventSYNTimeout <-> telegramLive t = true)).
Proof.
  unfold advanceWithProvenance, advanceWaitTerminalSyn, syn_event, telegramLive.
  destruct t as [[] seen ? ? ? ? ? ? []]; simpl; split; try done;
    destruct (Z.leb_spec seen 1), (Z.ltb_spec 1 seen); done || lia || naive_solver.
Qed.
End Properties.

Definition demo_tracker : wirePhaseTracker :=
  mkTracker wirePhaseIdle 0 (-1) 0 0 false false 0 false.

Lemma tracker_follows_telegram_witness :
  snd (@run demo_protocol (@telegram demo_protocol true false
      (request_wire 0x10 0x08 0xB5 0x09 [0x0D; 0xAA] 0x33) (response_wire [0x01] 0x44) 0x00)
      (startRequest demo_tracker)) =
  telegram_events true false (request_events [0x0D; 0xAA]) (response_events [0x01]).
Proof.
  rewrite (@tracker_follows_telegram demo_protocol demo_laws); [reflexivity | | | ];
    simpl; first [reflexivity | lia].
Defined.

Lemma tracker_returns_to_idle_witness :
  exists pre post, repeat (0x55, false) 1100 = pre ++ post /\ len pre <= 1042 /\
    phase (fst (@run demo_protocol pre (startRequest demo_tracker))) = wirePhaseIdle.
Proof.
  refine (proj1 (@tracker_returns_to_idle demo_protocol (repeat (0x55, false) 1100)
    (startRequest demo_tracker) 0x10 _ _ _)).
  - apply Forall_forall. intros x Hx%list_elem_of_In%repeat_spec. subst x. unfold is_byte. lia.
  - apply wf_startRequest.
  - vm_compute. discriminate.
Defined.

Definition demo_telegram : list (byte * bool) :=
  @telegram demo_protocol true true
    (request_wire 0x10 0x08 0xB5 0x09 [] 0x33) (response_wire [0x01] 0x44) 0x00.

Lemma tracker_events_bounded_witness :
  (countb releases (snd (@run demo_protocol demo_telegram (startRequest demo_tracker)))
    <= 1)%nat.
Proof.
  refine (proj2 (proj2 (@tracker_events_bounded demo_protocol _ demo_tracker _ _ _))).
  apply surjective_pairing.
Defined.

Lemma wire_syn_resynchronises_witness :
  syn_event (markOwnerWrite (startRequestWithSource 0x10 demo_tracker)) =
    wirePhaseEventSYNTimeout <->
  telegramLive (markOwnerWrite (startRequestWithSource 0x10 demo_tracker)) = true.
Proof.
  apply (@wire_syn_resynchronises demo_protocol 0xAA). reflexivity.
Defined.
End WirePhase.
