(* ===== verification/EchoTracker.v ===== *)
(** * Echo suppression of the adapter multiplexer

    Models [internal/adaptermux/echo_tracker.go]: a session's queue of
    bytes it has sent and whose echoes it must not see, with the
    structural-SYN flags and write times kept beside it, the transactional
    overflow reset and the inter-write window flag. *)

From S2P Require Import Prelude.

Module EchoTracker.

Definition maxPendingEchoes : Z := 256.
Definition maxSeenEchoes : Z := 256.

(** [echoTracker]; a slice that may be nil is an [option]. *)
Record echoTracker := mkEcho {
  expectedEchoes : list byte;
  expectedStructural : list bool;
  preOverflowStructural : option (list bool);
  expectedWriteTimes : list time;
  seenEchoes : list byte;
  atRequestStart : bool;
  totalSuppressed : Z;
  totalWritten : Z;
  totalMismatches : Z;
  totalOverflowResets : Z;
  preOverflowEchoes : option (list byte);
  preOverflowWriteTimes : option (list time);
  queueJustDrained : bool
}.

(** [newEchoTracker]. *)
Definition newEchoTracker : echoTracker :=
  mkEcho [] [] None [] [] false 0 0 0 0 None None false.

(** [recordSentInternal]. *)
Definition recordSentInternal (data : byte) (structural : bool) (writeAt : time)
    (withTime : bool) (t : echoTracker) : echoTracker :=
  let overflow := maxPendingEchoes <=? len (expectedEchoes t) in
  let echoes := if overflow then [] else expectedEchoes t in
  let flags := if overflow then [] else expectedStructural t in
  let times := if overflow then [] else expectedWriteTimes t in
  mkEcho
    (echoes ++ [data])
    (flags ++ [structural])
    (if overflow then Some (expectedStructural t) else None)
    (if withTime then times ++ [writeAt] else times)
    (seenEchoes t) (atRequestStart t) (totalSuppressed t)
    (incr64 (totalWritten t)) (totalMismatches t)
    (if overflow then incr64 (totalOverflowResets t) else totalOverflowResets t)
    (if overflow then Some (expectedEchoes t) else None)
    (if overflow then (if withTime then Some (expectedWriteTimes t) else None) else None)
    false.

(** [recordSent], [recordSentStructural], [recordSentWithTimeStructural]. *)
Definition recordSent (data : byte) : echoTracker -> echoTracker :=
  recordSentInternal data false 0 false.
Definition recordSentStructural (data : byte) (structural : bool) : echoTracker -> echoTracker :=
  recordSentInternal data structural 0 false.
Definition recordSentWithTimeStructural (data : byte) (writeAt : time) (structural : bool)
  : echoTracker -> echoTracker :=
  recordSentInternal data structural writeAt true.

(** [l[:len(l)-1]], for a non-empty slice. *)
Definition pop_last {A} (l : list A) : list A := take (length l - 1) l.

(** [rollbackSent]. *)
Definition rollbackSent (t : echoTracker) : echoTracker :=
  match preOverflowEchoes t with
  | Some prior =>
      mkEcho prior
        (match preOverflowStructural t with Some s => s | None => [] end)
        None
        (match preOverflowWriteTimes t with Some w => w | None => [] end)
        (seenEchoes t) (atRequestStart t) (totalSuppressed t) (totalWritten t)
        (totalMismatches t)
        (if 0 <? totalOverflowResets t then decr64 (totalOverflowResets t)
         else totalOverflowResets t)
        None None (queueJustDrained t)
  | None =>
      if 0 <? len (expectedEchoes t) then
        mkEcho (pop_last (expectedEchoes t))
          (if 0 <? len (expectedStructural t) then pop_last (expectedStructural t)
           else expectedStructural t)
          (preOverflowStructural t)
          (if 0 <? len (expectedWriteTimes t) then pop_last (expectedWriteTimes t)
           else expectedWriteTimes t)
          (seenEchoes t) (atRequestStart t) (totalSuppressed t) (totalWritten t)
          (totalMismatches t) (totalOverflowResets t)
          (preOverflowEchoes t) (preOverflowWriteTimes t) (queueJustDrained t)
      else t
  end.

(** [echoMatchResult]. *)
Inductive echoMatchResult :=
| echoMatchNone
| echoMatchSuppressed
| echoMatchFlushed.

(** What [matchEchoWithTime] returns. *)
Record matchOutcome := mkOutcome {
  result : echoMatchResult;
  flushedBytes : list byte;
  matchWriteAt : time;
  hasWriteAt : bool
}.

(** The literal [symbolSyn] of [matchEchoWithTime]. *)
Definition symbolSyn : byte := 0xAA.

(** [matchEchoWithTime]. *)
Definition matchEchoWithTime (received : byte) (receivedWasEscaped : bool) (t : echoTracker)
    : echoTracker * matchOutcome :=
  match expectedEchoes t with
  | [] => (t, mkOutcome echoMatchNone [] 0 false)
  | head :: rest =>
      if received =? head then
        let writeAt := match expectedWriteTimes t with w :: _ => w | [] => 0 end in
        let has := match expectedWriteTimes t with w :: _ => negb (IsZero w) | [] => false end in
        let seen := if maxSeenEchoes <=? len (seenEchoes t) then tail (seenEchoes t)
                    else seenEchoes t in
        let preLen := len (expectedEchoes t) in
        let isRealWireSyn := (received =? symbolSyn) && negb receivedWasEscaped in
        (mkEcho rest (tail (expectedStructural t)) (preOverflowStructural t)
           (tail (expectedWriteTimes t)) (seen ++ [received]) (atRequestStart t)
           (incr64 (totalSuppressed t)) (totalWritten t) (totalMismatches t)
           (totalOverflowResets t) None None
           (if preLen =? 1 then negb isRealWireSyn else queueJustDrained t),
         mkOutcome echoMatchSuppressed [] writeAt has)
      else
        (mkEcho [] [] (preOverflowStructural t) [] [] false
           (totalSuppressed t) (totalWritten t) (incr64 (totalMismatches t))
           (totalOverflowResets t) None None (queueJustDrained t),
         mkOutcome echoMatchFlushed (seenEchoes t) 0 false)
  end.

(** [matchEcho]. *)
Definition matchEcho (received : byte) (receivedWasEscaped : bool) (t : echoTracker)
    : echoTracker * (echoMatchResult * list byte) :=
  let '(t', o) := matchEchoWithTime received receivedWasEscaped t in
  (t', (result o, flushedBytes o)).

(** [flushOnSYN]: the flushed bytes and whether they open a request. *)
Definition flushOnSYN (t : echoTracker) : echoTracker * (list byte * bool) :=
  (mkEcho [] [] None [] [] (atRequestStart t) (totalSuppressed t) (totalWritten t)
     (totalMismatches t) (totalOverflowResets t) None None false,
   (seenEchoes t, atRequestStart t)).

(** [markRequestStart]. *)
Definition markRequestStart (t : echoTracker) : echoTracker :=
  mkEcho [] [] None [] [] true 0 0 (totalMismatches t) (totalOverflowResets t)
    None None false.

(** [reset]. *)
Definition reset (t : echoTracker) : echoTracker :=
  mkEcho [] [] None [] [] false 0 0 (totalMismatches t) (totalOverflowResets t)
    None None false.

(** [hasPendingEchoes], [peekNextExpected], [peekNextExpectedWithFlags]. *)
Definition hasPendingEchoes (t : echoTracker) : bool := 0 <? len (expectedEchoes t).
Definition peekNextExpected (t : echoTracker) : option byte := head (expectedEchoes t).
Definition peekNextExpectedWithFlags (t : echoTracker) : byte * bool * bool :=
  match expectedEchoes t with
  | [] => (0, false, false)
  | b :: _ => (b, match expectedStructural t with s :: _ => s | [] => false end, true)
  end.

(** [IsQueueJustDrained], [ClearQueueJustDrained]. *)
Definition IsQueueJustDrained (t : echoTracker) : bool := queueJustDrained t.
Definition ClearQueueJustDrained (t : echoTracker) : echoTracker :=
  mkEcho (expectedEchoes t) (expectedStructural t) (preOverflowStructural t)
    (expectedWriteTimes t) (seenEchoes t) (atRequestStart t) (totalSuppressed t)
    (totalWritten t) (totalMismatches t) (totalOverflowResets t)
    (preOverflowEchoes t) (preOverflowWriteTimes t) false.

(** [stats], [matchCount], [writeCount], [overflowResets]. *)
Definition stats (t : echoTracker) : Z * Z := (totalSuppressed t, totalMismatches t).
Definition matchCount (t : echoTracker) : Z := totalSuppressed t.
Definition writeCount (t : echoTracker) : Z := totalWritten t.
Definition overflowResets (t : echoTracker) : Z := totalOverflowResets t.

(** ** Operation sequences

    A tracker lives in one multiplexer, whose classifier mode never
    changes: [timed] says whether its writes carry a time. *)
Inductive op :=
| OpRecord (data : byte) (structural : bool) (writeAt : time)
| OpRollback
| OpMatch (received : byte) (wasEscaped : bool)
| OpFlushOnSYN
| OpMarkRequestStart
| OpReset
| OpClearQueueJustDrained.

Definition step (timed : bool) (o : op) (t : echoTracker) : echoTracker :=
  match o with
  | OpRecord d s w => if timed then recordSentWithTimeStructural d w s t
                      else recordSentStructural d s t
  | OpRollback => rollbackSent t
  | OpMatch b e => fst (matchEchoWithTime b e t)
  | OpFlushOnSYN => fst (flushOnSYN t)
  | OpMarkRequestStart => markRequestStart t
  | OpReset => reset t
  | OpClearQueueJustDrained => ClearQueueJustDrained t
  end.

Definition steps (timed : bool) (os : list op) (t : echoTracker) : echoTracker :=
  fold_left (fun t o => step timed o t) os t.

(** The lockstep of the three queues and the bounds of every buffer. *)
Definition lockstep (timed : bool) (n : nat) (flags : list bool) (times : list time) : Prop :=
  length flags = n /\ length times = (if timed then n else 0)%nat.

Definition inv (timed : bool) (t : echoTracker) : Prop :=
  lockstep timed (length (expectedEchoes t)) (expectedStructural t) (expectedWriteTimes t) /\
  len (expectedEchoes t) <= maxPendingEchoes /\
  len (seenEchoes t) <= maxSeenEchoes /\
  (queueJustDrained t = true -> expectedEchoes t = []) /\
  match preOverflowEchoes t with
  | None => True
  | Some prior =>
      len prior = maxPendingEchoes /\ queueJustDrained t = false /\
      lockstep timed (length prior) (default [] (preOverflowStructural t))
        (default [] (preOverflowWriteTimes t))
  end.

(** ** The loop with an adapter that echoes in order *)

(** The session sends a byte, or the adapter echoes the oldest byte it has
    not echoed yet. *)
Inductive io :=
| Send (data : byte) (structural : bool) (writeAt : time)
| EchoBack (wasEscaped : bool).

Fixpoint loop (timed : bool) (ios : list io) (t : echoTracker) (adapter : list byte)
    : echoTracker * list byte * list (byte * matchOutcome) :=
  match ios with
  | [] => (t, adapter, [])
  | Send d s w :: rest => loop timed rest (step timed (OpRecord d s w) t) (adapter ++ [d])
  | EchoBack e :: rest =>
      match adapter with
      | [] => loop timed rest t adapter
      | b :: adapter' =>
          let '(t1, o) := matchEchoWithTime b e t in
          let '(t2, a2, os) := loop timed rest t1 adapter' in
          (t2, a2, (b, o) :: os)
      end
  end.

(** The bytes a schedule sends. *)
Definition sent (ios : list io) : list byte :=
  flat_map (fun x => match x with Send d _ _ => [d] | EchoBack _ => [] end) ios.

(** The write times a schedule records. *)
Definition sentTimes (ios : list io) : list time :=
  flat_map (fun x => match x with Send _ _ w => [w] | EchoBack _ => [] end) ios.

(** ** Lemmas *)

Lemma length_pop_last {A} (l : list A) : length (pop_last l) = (length l - 1)%nat.
Proof. unfold pop_last. rewrite length_take. lia. Qed.

Lemma pop_last_snoc {A} (l : list A) (x : A) : pop_last (l ++ [x]) = l.
Proof.
  unfold pop_last. rewrite length_app. simpl.
  replace (length l + 1 - 1)%nat with (length l) by lia. apply take_app_length.
Qed.

Lemma echo_inv_new timed : inv timed newEchoTracker.
Proof. unfold inv, lockstep. by destruct timed. Qed.

Lemma echo_inv_record timed d s w t : inv timed t -> inv timed (step timed (OpRecord d s w) t).
Proof.
  intros ([Hf Ht] & Hq & Hs & Hd & Hp). unfold step, recordSentWithTimeStructural,
    recordSentStructural, recordSentInternal, inv, lockstep, maxPendingEchoes in *.
  destruct timed; simpl; destruct (Z.leb_spec 256 (len (expectedEchoes t))); simpl;
    rewrite ?length_app; simpl; repeat split; try done; try lia.
Qed.

Lemma echo_inv_rollback timed t : inv timed t -> inv timed (rollbackSent t).
Proof.
  intros Hinv. pose proof Hinv as ([Hf Ht] & Hq & Hs & Hd & Hp). unfold rollbackSent.
  destruct (preOverflowEchoes t) as [prior|] eqn:Hpre.
  - destruct Hp as (Hl & Hqd & [Hpf Hpt]). unfold inv, lockstep, maxPendingEchoes in *. simpl.
    destruct (preOverflowStructural t), (preOverflowWriteTimes t); simpl in *;
      repeat split; try done; try lia; by rewrite Hqd.
  - destruct (Z.ltb_spec 0 (len (expectedEchoes t))); [|done].
    unfold inv, lockstep in *. simpl. rewrite length_pop_last.
    repeat split; try done; try lia.
    + destruct (Z.ltb_spec 0 (len (expectedStructural t))); rewrite ?length_pop_last; lia.
    + destruct (Z.ltb_spec 0 (len (expectedWriteTimes t))), timed;
        rewrite ?length_pop_last; lia.
    + intros Hqd. rewrite (Hd Hqd) in *. done.
Qed.

Lemma echo_inv_match timed b e t : inv timed t -> inv timed (fst (matchEchoWithTime b e t)).
Proof.
  intros Hinv. pose proof Hinv as ([Hf Ht] & Hq & Hs & Hd & Hp). unfold matchEchoWithTime.
  destruct (expectedEchoes t) as [|h rest] eqn:He; [done|].
  destruct (Z.eqb_spec b h); simpl.
  - unfold inv, lockstep, maxPendingEchoes, maxSeenEchoes in *. simpl in *.
    repeat split; try lia.
    + rewrite length_tl. lia.
    + rewrite length_tl. destruct timed; lia.
    + rewrite length_app. simpl. destruct (Z.leb_spec 256 (len (seenEchoes t)));
        rewrite ?length_tl; lia.
    + destruct (Z.eqb_spec (Z.of_nat (S (length rest))) 1).
      * intros _. destruct rest; [done|simpl in *; lia].
      * intros Hqd. by apply Hd in Hqd.
  - unfold inv, lockstep, maxPendingEchoes, maxSeenEchoes in *. by destruct timed.
Qed.

Lemma echo_inv_step timed o t : inv timed t -> inv timed (step timed o t).
Proof.
  intros Hinv. destruct o; simpl.
  - by apply (echo_inv_record timed).
  - by apply echo_inv_rollback.
  - by apply echo_inv_match.
  - unfold inv, lockstep, flushOnSYN; by destruct timed.
  - unfold inv, lockstep; by destruct timed.
  - unfold inv, lockstep; by destruct timed.
  - destruct Hinv as (? & ? & ? & ? & Hp). unfold inv. simpl.
    destruct (preOverflowEchoes t); naive_solver.
Qed.
#[export] Hint Resolve echo_inv_new echo_inv_step : gw.

Lemma echo_inv_steps timed os t : inv timed t -> inv timed (steps timed os t).
Proof.
  revert t; induction os as [|o os IH]; intros t Hinv; [done|].
  apply IH. by apply echo_inv_step.
Qed.

(** The loop against any starting queue the adapter agrees with. *)
Lemma loop_spec (timed : bool) ios t a t' a' (outs : list (byte * matchOutcome)) :
  expectedEchoes t = a ->
  length (expectedWriteTimes t) = (if timed then length a else 0)%nat ->
  len (seenEchoes t) + len a + len (sent ios) <= 256 ->
  loop timed ios t a = (t', a', outs) ->
  Forall (fun '(_, o) => result o = echoMatchSuppressed /\ flushedBytes o = []) outs /\
  (fst <$> outs) ++ a' = a ++ sent ios /\
  seenEchoes t' = seenEchoes t ++ (fst <$> outs) /\
  expectedEchoes t' = a' /\
  (timed = true ->
     ((fun o => matchWriteAt (snd o)) <$> outs) ++ expectedWriteTimes t' =
       expectedWriteTimes t ++ sentTimes ios).
Proof.
  revert t a t' a' outs; induction ios as [|[d st w|e] ios IH];
    intros t a t' a' outs Ha Hw Hlen Hrun; simpl in Hrun.
  - simplify_eq. simpl. rewrite !app_nil_r. naive_solver.
  - assert (Hov : maxPendingEchoes <=? len (expectedEchoes t) = false)
      by (apply Z.leb_gt; unfold maxPendingEchoes; rewrite Ha; simpl in Hlen; lia).
    eapply IH in Hrun as (H1 & H2 & H3 & H4 & H5); cycle 1.
    + destruct timed; simpl; unfold recordSentWithTimeStructural, recordSentStructural,
        recordSentInternal; simpl; by rewrite Hov, Ha.
    + destruct timed; simpl; rewrite ?Hov, ?length_app; simpl; lia.
    + destruct timed; simpl; rewrite length_app; simpl in *; lia.
    + split; [done|]. rewrite H2, <- app_assoc. split; [done|].
      rewrite H3. split; [by destruct timed|]. split; [done|].
      intros ->. rewrite (H5 eq_refl). simpl. rewrite Hov. by rewrite <- app_assoc.
  - destruct a as [|b a]; [by eapply IH in Hrun|].
    unfold matchEchoWithTime in Hrun. rewrite Ha, Z.eqb_refl in Hrun.
    destruct (loop timed ios _ a) as [[t2 a2] os2] eqn:Hl. simplify_eq.
    assert (Hseen : maxSeenEchoes <=? len (seenEchoes t) = false)
      by (apply Z.leb_gt; unfold maxSeenEchoes; simpl in Hlen; lia).
    rewrite Hseen in Hl.
    eapply IH in Hl as (H1 & H2 & H3 & H4 & H5); cycle 1; [done| | |].
    + simpl. rewrite length_tl. destruct timed; simpl in *; lia.
    + simpl. rewrite length_app. simpl in *. lia.
    + rewrite !fmap_cons. cbn [fst snd matchWriteAt seenEchoes app] in *.
      split; [by constructor|]. split; [by f_equal|].
      split; [by rewrite H3, <- app_assoc|]. split; [done|].
      intros ->. destruct (expectedWriteTimes t) as [|w ws]; [done|].
      cbn [app]. f_equal. by apply H5.
Qed.

(** ** Properties *)

(** Every sequence of operations keeps the queues in lockstep (the
    times only in a timed tracker), every buffer within its cap, the
    overflow snapshot a full queue, and the inter-write flag set only over
    an empty queue. *)
Theorem echo_tracker_invariant timed (os : list op) :
  inv timed (steps timed os newEchoTracker).
Proof. apply echo_inv_steps, echo_inv_new. Qed.

(** Recording a byte whose write then fails, and rolling it back,
    restores the three queues and the overflow counter exactly, also when
    the record hit the cap and reset the queue. *)
Theorem rollback_undoes_record timed (os : list op) d s w :
  let t := steps timed os newEchoTracker in
  let t' := rollbackSent (step timed (OpRecord d s w) t) in
  0 <= totalOverflowResets t < 2 ^ 64 - 1 ->
  expectedEchoes t' = expectedEchoes t /\
  expectedStructural t' = expectedStructural t /\
  expectedWriteTimes t' = expectedWriteTimes t /\
  totalOverflowResets t' = totalOverflowResets t.
Proof.
  intros t t' Hov. subst t'.
  assert (Hinv : inv timed t) by apply echo_inv_steps, echo_inv_new.
  clearbody t. destruct Hinv as ([Hf Ht] & Hq & _ & _ & _).
  unfold step, recordSentWithTimeStructural, recordSentStructural, recordSentInternal,
    rollbackSent, maxPendingEchoes in *.
  destruct timed; simpl; destruct (Z.leb_spec 256 (len (expectedEchoes t))) as [Hc|Hc]; simpl;
    rewrite ?length_app; simpl;
    repeat match goal with |- context [0 <? ?x] => destruct (Z.ltb_spec 0 x) end;
    rewrite ?pop_last_snoc, ?decr64_incr64 by lia; try (repeat split; done || lia);
    try (unfold incr64 in *; rewrite u64_id in * by lia; lia).
  by apply nil_length_inv in Ht as ->.
Qed.

(** Against an adapter that echoes every byte in order, in any
    interleaving of sends and echoes of one request (at most 256 bytes),
    each echo is suppressed with its own write time, nothing is flushed
    early, and the SYN flush returns exactly the echoed bytes in order. *)
Theorem own_echoes_suppressed timed ios t t' a' (outs : list (byte * matchOutcome)) :
  len (sent ios) <= 256 ->
  loop timed ios (markRequestStart t) [] = (t', a', outs) ->
  Forall (fun '(_, o) => result o = echoMatchSuppressed /\ flushedBytes o = []) outs /\
  (fst <$> outs) ++ a' = sent ios /\
  fst (snd (flushOnSYN t')) = (fst <$> outs) /\
  expectedEchoes t' = a' /\
  (timed = true ->
     ((fun o => matchWriteAt (snd o)) <$> outs) ++ expectedWriteTimes t' = sentTimes ios).
Proof.
  intros Hlen Hl. eapply loop_spec in Hl as (H1 & H2 & H3 & H4 & H5); simpl in *; try done.
  by destruct timed.
Qed.

(** The inter-write flag is exact: a suppressed echo leaves it set
    precisely when it emptied the queue and was not a raw wire SYN, and a
    new write clears it. *)
Theorem inter_write_window timed (os : list op) b e o t' d s w :
  matchEchoWithTime b e (steps timed os newEchoTracker) = (t', o) ->
  result o = echoMatchSuppressed ->
  IsQueueJustDrained t' =
    negb (hasPendingEchoes t') && negb ((b =? symbolSyn) && negb e) /\
  IsQueueJustDrained (step timed (OpRecord d s w) t') = false.
Proof.
  intros Hm Hr. pose proof (echo_inv_steps timed os _ (echo_inv_new timed)) as (_ & _ & _ & Hd & _).
  split; [|by destruct timed]. revert Hm Hd. generalize (steps timed os newEchoTracker). intros t Hm Hd.
  unfold matchEchoWithTime in Hm. destruct (expectedEchoes t) as [|h rest] eqn:He;
    [by simplify_eq|].
  destruct (b =? h); simplify_eq/=. unfold hasPendingEchoes. simpl.
  destruct rest as [|r rest]; simpl; [done|].
  destruct (Z.eqb_spec (Z.of_nat (S (S (length rest)))) 1); [lia|].
  destruct (Z.ltb_spec 0 (Z.of_nat (S (length rest)))); [|lia].
  simpl. destruct (queueJustDrained t); [naive_solver|done].
Qed.

(** The cap is hit for real: 256 writes fill the queue, one more resets it
    and its rollback brings the 256 expectations back. *)
Example overflow_rollback_demo :
  let t := steps true (repeat (OpRecord 0x10 false 5) 256) newEchoTracker in
  let t' := step true (OpRecord 0x20 true 9) t in
  expectedEchoes t' = [0x20] /\ totalOverflowResets t' = 1 /\
  expectedEchoes (rollbackSent t') = repeat 0x10 256.
Proof. vm_compute. repeat split. Qed.

Lemma rollback_undoes_record_witness :
  expectedEchoes (rollbackSent (step true (OpRecord 0x20 true 9)
    (steps true [OpRecord 0x10 false 5] newEchoTracker))) =
  expectedEchoes (steps true [OpRecord 0x10 false 5] newEchoTracker).
Proof.
  assert (Hr : 0 <= totalOverflowResets (steps true [OpRecord 0x10 false 5] newEchoTracker)
                 < 2 ^ 64 - 1) by (vm_compute; split; [discriminate|reflexivity]).
  exact (proj1 (rollback_undoes_record true [OpRecord 0x10 false 5] 0x20 true 9 Hr)).
Defined.

Definition demo_schedule : list io :=
  [Send 0x10 false 100; Send 0x08 false 200; EchoBack false; Send 0xAA false 300;
   EchoBack false; EchoBack true].

Lemma own_echoes_suppressed_witness :
  let '(t', _, outs) := loop true demo_schedule (markRequestStart newEchoTracker) [] in
  fst (snd (flushOnSYN t')) = (fst <$> outs).
Proof.
  destruct (loop true demo_schedule (markRequestStart newEchoTracker) [])
    as [[t' a'] outs] eqn:Hl.
  assert (Hs : len (sent demo_schedule) <= 256) by (vm_compute; discriminate).
  exact (proj1 (proj2 (proj2 (own_echoes_suppressed true demo_schedule newEchoTracker
    t' a' outs Hs Hl)))).
Defined.

Example own_echoes_demo :
  (fst <$> snd (loop true demo_schedule (markRequestStart newEchoTracker) [])) =
  [0x10; 0x08; 0xAA].
Proof. vm_compute. reflexivity. Qed.

Lemma inter_write_window_witness :
  IsQueueJustDrained (fst (matchEchoWithTime 0x10 false
    (steps false [OpRecord 0x10 false 0] newEchoTracker))) = true.
Proof.
  refine (eq_trans (proj1 (inter_write_window false [OpRecord 0x10 false 0] 0x10 false
    _ _ 0x08 false 0 (surjective_pairing _) eq_refl)) _).
  vm_compute. reflexivity.
Defined.
End EchoTracker.
