(* ===== verification/Arbitration.v ===== *)
(** * Bus arbitration between the gateway and the external sessions

    Models [internal/adaptermux/arbitration.go].  A START request is a
    heap object: the arbitrator holds pointers to it in several places and
    replaces its [notify] channel when a session bids again, so requests
    live in a store and the arbitrator holds their identities.  A notify
    channel is identified by a number; [mail] holds what was ever sent on
    each channel.  The channels have capacity one, so a second send on a
    channel nobody reads would block under the arbitrator's lock. *)

From S2P Require Import Prelude.

Module Arbitration.

Abbreviation reqId := nat (only parsing).
Abbreviation chan := nat (only parsing).

(** [startRequest]. *)
Record startRequest := mkReq {
  sessionID : Z;
  initiator : byte;
  notify : chan;
  cancelled : bool
}.

(** The errors a result may carry (all named by the caller). *)
Inductive arbError :=
| errLifecycle (why : string)
| errGatewayAdmission
| errOwnershipLifecycleFenced
| errOwnershipChanged.

(** [startResult]. *)
Record startResult := mkResult {
  granted : bool;
  resCancelled : bool;
  resInitiator : byte;
  startedQueued : bool;
  failedQueued : bool;
  resErr : option arbError
}.

Definition gatewaySessionID : Z := 0.

(** [startResult{cancelled: true, initiator: i}] and its siblings. *)
Definition cancelledResult (i : byte) : startResult := mkResult false true i false false None.
Definition lostResult (i : byte) : startResult := mkResult false false i false false None.
Definition failedResult (i : byte) (e : arbError) : startResult :=
  mkResult false false i false false (Some e).

(** [arbitrator], with the store of requests and the channels. *)
Record arbitrator := mkArb {
  ownershipGen : Z;
  lifecycleEpoch : Z;
  ownerEpoch : Z;
  pendingGateway : option reqId;
  deferredGatewayLoser : option reqId;
  pendingExternal : list reqId;
  hasOwner : bool;
  currentOwner : Z;
  currentInitiator : byte;
  reqs : gmap nat startRequest;
  mail : gmap nat (list startResult);
  nextReq : reqId;
  nextChan : chan
}.

(** [newArbitrator]. *)
Definition newArbitrator : arbitrator :=
  mkArb 0 0 0 None None [] false 0 0 ∅ ∅ 0 0.

Definition zeroReq : startRequest := mkReq 0 0 0 false.
Definition req (a : arbitrator) (id : reqId) : startRequest := default zeroReq (reqs a !! id).

(** Field updates. *)
Definition set_bids (g d : option reqId) (e : list reqId) (a : arbitrator) : arbitrator :=
  mkArb (ownershipGen a) (lifecycleEpoch a) (ownerEpoch a) g d e (hasOwner a)
    (currentOwner a) (currentInitiator a) (reqs a) (mail a) (nextReq a) (nextChan a).
Definition set_owner (gen oe : Z) (h : bool) (o i : Z) (a : arbitrator) : arbitrator :=
  mkArb gen (lifecycleEpoch a) oe (pendingGateway a) (deferredGatewayLoser a)
    (pendingExternal a) h o i (reqs a) (mail a) (nextReq a) (nextChan a).
Definition set_req (id : reqId) (r : startRequest) (a : arbitrator) : arbitrator :=
  mkArb (ownershipGen a) (lifecycleEpoch a) (ownerEpoch a) (pendingGateway a)
    (deferredGatewayLoser a) (pendingExternal a) (hasOwner a) (currentOwner a)
    (currentInitiator a) (<[id := r]> (reqs a)) (mail a) (nextReq a) (nextChan a).

(** [req.cancelled.Store(true)]. *)
Definition cancelReq (id : reqId) (a : arbitrator) : arbitrator :=
  let r := req a id in
  set_req id (mkReq (sessionID r) (initiator r) (notify r) true) a.

(** [req.notify <- result]. *)
Definition send (id : reqId) (res : startResult) (a : arbitrator) : arbitrator :=
  let ch := notify (req a id) in
  mkArb (ownershipGen a) (lifecycleEpoch a) (ownerEpoch a) (pendingGateway a)
    (deferredGatewayLoser a) (pendingExternal a) (hasOwner a) (currentOwner a)
    (currentInitiator a) (reqs a)
    (<[ch := default [] (mail a !! ch) ++ [res]]> (mail a)) (nextReq a) (nextChan a).

(** [&startRequest{...}] with a new channel. *)
Definition alloc (sid : Z) (ini : byte) (a : arbitrator) : arbitrator * reqId * chan :=
  (mkArb (ownershipGen a) (lifecycleEpoch a) (ownerEpoch a) (pendingGateway a)
     (deferredGatewayLoser a) (pendingExternal a) (hasOwner a) (currentOwner a)
     (currentInitiator a) (<[nextReq a := mkReq sid ini (nextChan a) false]> (reqs a))
     (mail a) (S (nextReq a)) (S (nextChan a)),
   nextReq a, nextChan a).

(** Cancel a bid the arbitrator holds and send its one result. *)
Definition cancelBid (id : reqId) (a : arbitrator) : arbitrator :=
  send id (cancelledResult (initiator (req a id))) (cancelReq id a).

(** The index of the first pending external bid of a session. *)
Fixpoint findSession (a : arbitrator) (sid : Z) (l : list reqId) : option (nat * reqId) :=
  match l with
  | [] => None
  | id :: rest =>
      if sessionID (req a id) =? sid then Some (0%nat, id)
      else match findSession a sid rest with
           | Some (i, r) => Some (S i, r)
           | None => None
           end
  end.

(** [requestStart]. *)
Definition requestStart (sid : Z) (ini : byte) (a0 : arbitrator) : arbitrator * chan :=
  let '(a, new, ch) := alloc sid ini a0 in
  if sid =? gatewaySessionID then
    let a1 := match pendingGateway a with
              | Some old => cancelBid old a
              | None => a
              end in
    let a2 := match deferredGatewayLoser a1 with
              | Some old =>
                  cancelBid old (set_bids (pendingGateway a1) None (pendingExternal a1) a1)
              | None => a1
              end in
    (set_bids (Some new) (deferredGatewayLoser a2) (pendingExternal a2) a2, ch)
  else
    match findSession a sid (pendingExternal a) with
    | Some (i, old) =>
        let r := req a old in
        let a1 := send old (cancelledResult (initiator r)) a in
        if initiator r =? ini then
          (set_req old (mkReq (sessionID r) (initiator r) ch (cancelled r)) a1, ch)
        else
          let a2 := cancelReq old a1 in
          (set_bids (pendingGateway a2) (deferredGatewayLoser a2)
             (<[i := new]> (pendingExternal a2)) a2, ch)
    | None =>
        (set_bids (pendingGateway a) (deferredGatewayLoser a) (pendingExternal a ++ [new]) a, ch)
    end.

(** [markInFlightCancelled]: sets the flag and returns its previous value. *)
Definition markInFlightCancelled (r : option reqId) (a : arbitrator) : arbitrator * bool :=
  match r with
  | None => (a, false)
  | Some id => (cancelReq id a, cancelled (req a id))
  end.

(** [cancelStart]. *)
Definition cancelStart (sid : Z) (a : arbitrator) : arbitrator * bool :=
  if sid =? gatewaySessionID then
    match pendingGateway a with
    | Some old =>
        let a1 := cancelBid old a in
        (set_bids None (deferredGatewayLoser a1) (pendingExternal a1) a1, true)
    | None =>
        match deferredGatewayLoser a with
        | Some old =>
            (cancelBid old (set_bids (pendingGateway a) None (pendingExternal a) a), true)
        | None => (a, false)
        end
    end
  else
    match findSession a sid (pendingExternal a) with
    | Some (i, id) =>
        let a1 := cancelBid id a in
        (set_bids (pendingGateway a1) (deferredGatewayLoser a1)
           (delete i (pendingExternal a1)) a1, true)
    | None => (a, false)
    end.

(** [higherPriority]. *)
Definition higherPriority (x y : startRequest) : bool :=
  let lx := Z.land (initiator x) 0x0F in
  let ly := Z.land (initiator y) 0x0F in
  if negb (lx =? ly) then lx <? ly
  else if negb (initiator x =? initiator y)
  then Z.shiftr (initiator x) 4 <? Z.shiftr (initiator y) 4
  else sessionID x <? sessionID y.

(** [snapshotBids]. *)
Definition snapshotBids (a : arbitrator) : gmap nat chan :=
  list_to_map ((fun id => (id, notify (req a id))) <$>
    (option_list (pendingGateway a) ++ pendingExternal a)).

(** The [eligible] closure of [selectBidsAtSYN]; [None] is the nil map. *)
Definition eligible (bids : option (gmap nat chan)) (a : arbitrator) (id : reqId) : bool :=
  match bids with
  | None => true
  | Some m => bool_decide (m !! id = Some (notify (req a id)))
  end.

(** The winner loop of [selectBidsAtSYN]. *)
Definition pickWinner (a : arbitrator) (start : option reqId) (ids : list reqId)
    : option reqId :=
  fold_left (fun w id =>
    match w with
    | None => Some id
    | Some x => if higherPriority (req a id) (req a x) then Some id else w
    end) ids start.

(** [selectBidsAtSYN]: the winner and the losers. *)
Definition selectBidsAtSYN (busIdle : bool) (bids : option (gmap nat chan)) (a : arbitrator)
    : arbitrator * option reqId * list reqId :=
  if hasOwner a || negb busIdle then (a, None, [])
  else
    let el := eligible bids a in
    let gw := List.filter el (option_list (pendingGateway a)) in
    let ext := List.filter el (pendingExternal a) in
    match pickWinner a (head gw) ext with
    | None => (a, None, [])
    | Some winner =>
        let losers := List.filter (fun id => negb (bool_decide (id = winner))) (gw ++ ext) in
        let gwLoser := List.filter (fun id => sessionID (req a id) =? gatewaySessionID) losers in
        (set_bids
           (match gw with [] => pendingGateway a | _ => None end)
           (match last gwLoser with Some l => Some l | None => deferredGatewayLoser a end)
           (List.filter (fun id => negb (el id)) (pendingExternal a)) a,
         Some winner, losers)
    end.

(** [takeDeferredGatewayLoser]. *)
Definition takeDeferredGatewayLoser (r : option reqId) (a : arbitrator) : arbitrator * bool :=
  match r with
  | None => (a, false)
  | Some id =>
      if bool_decide (deferredGatewayLoser a = Some id)
      then (set_bids (pendingGateway a) None (pendingExternal a) a, true)
      else (a, false)
  end.

(** The loop of [tryGrant] that tells the losers. *)
Definition tellLosers (w : reqId) (losers : list reqId) (a : arbitrator) : arbitrator :=
  fold_left (fun a id =>
    send id (lostResult (initiator (req a w)))
      (fst (takeDeferredGatewayLoser (Some id) a))) losers a.

(** [tryGrant], run with no other goroutine in the arbitrator between its
    lock sections; [ArbitrationDuty] takes the sections apart. *)
Definition tryGrant (busIdle : bool) (a : arbitrator) : arbitrator * option reqId :=
  let '(a1, winner, losers) := selectBidsAtSYN busIdle None a in
  match winner with
  | None => (a1, None)
  | Some w =>
      (tellLosers w losers a1, Some w)
  end.

(** [confirmOwnership], [releaseOwnership], [forceRelease]. *)
Definition confirmOwnership (sid : Z) (ini : byte) (a : arbitrator) : arbitrator :=
  set_owner (incr64 (ownershipGen a)) (lifecycleEpoch a) true sid ini a.
Definition releaseOwnership (sid : Z) (a : arbitrator) : arbitrator :=
  if hasOwner a && (currentOwner a =? sid)
  then set_owner (incr64 (ownershipGen a)) (ownerEpoch a) false 0 0 a
  else a.
Definition forceRelease (a : arbitrator) : arbitrator :=
  set_owner (incr64 (ownershipGen a)) (ownerEpoch a) false 0 0 a.

(** [fenceLifecycle]. *)
Definition fenceLifecycle (a : arbitrator) : arbitrator :=
  mkArb (ownershipGen a) (incr64 (lifecycleEpoch a)) (ownerEpoch a) (pendingGateway a)
    (deferredGatewayLoser a) (pendingExternal a) (hasOwner a) (currentOwner a)
    (currentInitiator a) (reqs a) (mail a) (nextReq a) (nextChan a).

(** [ownershipToken] and [currentOwnershipToken]. *)
Record ownershipToken := mkToken { tokSession : Z; tokGen : Z; tokEpoch : Z }.

Definition currentOwnershipToken (sid : Z) (a : arbitrator) : option ownershipToken :=
  if negb (hasOwner a) || negb (currentOwner a =? sid) then None
  else Some (mkToken sid (ownershipGen a) (ownerEpoch a)).

(** [commitWhileOwnershipCurrent]: [commit] acts on a state of its own and
    must not call back into the arbitrator. *)
Definition commitWhileOwnershipCurrent {S} (tok : ownershipToken)
    (commit : S -> S * option arbError) (s : S) (a : arbitrator) : S * option arbError :=
  if negb (lifecycleEpoch a =? tokEpoch tok) then (s, Some errOwnershipLifecycleFenced)
  else if negb (hasOwner a) || negb (currentOwner a =? tokSession tok)
          || negb (ownershipGen a =? tokGen tok)
  then (s, Some errOwnershipChanged)
  else commit s.

(** [owner], [isOwner], [hasPending], [hasExternalPending]. *)
Definition owner (a : arbitrator) : Z * byte * bool :=
  if negb (hasOwner a) then (0, 0, false) else (currentOwner a, currentInitiator a, true).
Definition isOwner (sid : Z) (a : arbitrator) : bool := hasOwner a && (currentOwner a =? sid).
Definition hasPending (a : arbitrator) : bool :=
  match pendingGateway a with Some _ => true | None => 0 <? len (pendingExternal a) end.
Definition hasExternalPending (a : arbitrator) : bool := 0 <? len (pendingExternal a).

(** [failAllPending]. *)
Definition failBid (e : arbError) (a : arbitrator) (id : reqId) : arbitrator :=
  send id (failedResult (initiator (req a id)) e) a.
Definition failAllPending (e : arbError) (a : arbitrator) : arbitrator :=
  let a1 := match pendingGateway a with
            | Some g => set_bids None (deferredGatewayLoser a) (pendingExternal a) (failBid e a g)
            | None => a
            end in
  let a2 := match deferredGatewayLoser a1 with
            | Some d => set_bids (pendingGateway a1) None (pendingExternal a1) (failBid e a1 d)
            | None => a1
            end in
  let a3 := fold_left (failBid e) (pendingExternal a2) a2 in
  set_bids (pendingGateway a3) (deferredGatewayLoser a3) [] a3.

(** [removeSession]. *)
Definition removeSession (sid : Z) (a : arbitrator) : arbitrator :=
  releaseOwnership sid (fst (cancelStart sid a)).

(** ** Operation sequences *)

Inductive op :=
| ORequest (sid : Z) (ini : byte)
| OCancel (sid : Z)
| OTryGrant (busIdle : bool)
| OSelect (busIdle : bool) (bids : option (gmap nat chan))
| OTakeDeferred (r : option reqId)
| OMarkInFlight (r : option reqId)
| OConfirm (sid : Z) (ini : byte)
| ORelease (sid : Z)
| OForceRelease
| OFence
| OFailAll (e : arbError)
| ORemove (sid : Z).

Definition step (o : op) (a : arbitrator) : arbitrator :=
  match o with
  | ORequest sid ini => fst (requestStart sid ini a)
  | OCancel sid => fst (cancelStart sid a)
  | OTryGrant idle => fst (tryGrant idle a)
  | OSelect idle bids => fst (fst (selectBidsAtSYN idle bids a))
  | OTakeDeferred r => fst (takeDeferredGatewayLoser r a)
  | OMarkInFlight r => fst (markInFlightCancelled r a)
  | OConfirm sid ini => confirmOwnership sid ini a
  | ORelease sid => releaseOwnership sid a
  | OForceRelease => forceRelease a
  | OFence => fenceLifecycle a
  | OFailAll e => failAllPending e a
  | ORemove sid => removeSession sid a
  end.

Definition steps (os : list op) (a : arbitrator) : arbitrator :=
  fold_left (fun a o => step o a) os a.

(** Session identifiers are [uint64] and initiators are bytes. *)
Definition op_ok (o : op) : Prop :=
  match o with
  | ORequest sid ini => 0 <= sid < 2 ^ 64 /\ is_byte ini
  | _ => True
  end.

(** ** Invariant *)

(** The bids the arbitrator holds, and their channels and sessions. *)
Definition bidsOf (a : arbitrator) : list reqId :=
  option_list (pendingGateway a) ++ option_list (deferredGatewayLoser a) ++ pendingExternal a.
Definition chans (a : arbitrator) (l : list reqId) : list chan :=
  (fun id => notify (req a id)) <$> l.
Definition sess (a : arbitrator) (l : list reqId) : list Z :=
  (fun id => sessionID (req a id)) <$> l.

(** Of the channels [chs] none has a result yet, no channel has two, and
    the channels from [n] on are unused. *)
Definition mail_ok (m : gmap nat (list startResult)) (chs : list chan) (n : chan) : Prop :=
  NoDup chs /\
  (forall ch, ch ∈ chs -> (ch < n)%nat /\ m !! ch = None) /\
  (forall ch, (length (default [] (m !! ch)) <= 1)%nat) /\
  (forall ch, (n <= ch)%nat -> m !! ch = None).

(** The invariant, with channels [xs] handed out but not yet attached to a
    bid. *)
Definition inv_x (xs : list chan) (a : arbitrator) : Prop :=
  mail_ok (mail a) (xs ++ chans a (bidsOf a)) (nextChan a) /\
  NoDup (bidsOf a) /\
  Forall (fun id => (id < nextReq a)%nat) (bidsOf a) /\
  (pendingGateway a <> None -> deferredGatewayLoser a = None) /\
  Forall (fun sid => sid = gatewaySessionID)
    (sess a (option_list (pendingGateway a) ++ option_list (deferredGatewayLoser a))) /\
  Forall (fun sid => sid <> gatewaySessionID) (sess a (pendingExternal a)) /\
  NoDup (sess a (pendingExternal a)) /\
  Forall (fun id => 0 <= sessionID (req a id) < 2 ^ 64 /\ is_byte (initiator (req a id)))
    (bidsOf a).
Definition inv (a : arbitrator) : Prop := inv_x [] a.

(** The fields of a request that bidding depends on. *)
Definition same_req (x y : startRequest) : Prop :=
  notify x = notify y /\ sessionID x = sessionID y /\ initiator x = initiator y.

(** One result sent on each of several channels. *)
Definition sendAll (r : startResult) (chs : list chan) (m : gmap nat (list startResult)) :=
  fold_left (fun m ch => <[ch := default [] (m !! ch) ++ [r]]> m) chs m.

(** The arbitrator without the external bid at [i], which got its result. *)
Definition without (i : nat) (old : reqId) (a : arbitrator) : arbitrator :=
  set_bids (pendingGateway a) (deferredGatewayLoser a) (delete i (pendingExternal a))
    (send old (cancelledResult (initiator (req a old))) a).

(** The order [higherPriority] decides, as one number: low nibble, then
    high nibble, then session. *)
Definition prio (r : startRequest) : Z :=
  (Z.land (initiator r) 0x0F * 16 + Z.shiftr (initiator r) 4) * 2 ^ 64 + sessionID r.

(** Session and initiator are in range. *)
Definition req_range (r : startRequest) : Prop :=
  0 <= sessionID r < 2 ^ 64 /\ is_byte (initiator r).

(** The fields that describe the ownership period. *)
Definition own (a : arbitrator) : Z * Z * bool * Z * Z :=
  (ownershipGen a, ownerEpoch a, hasOwner a, currentOwner a, lifecycleEpoch a).

(** The operations that end or begin an ownership period. *)
Definition touches (o : op) (a : arbitrator) : bool :=
  match o with
  | OConfirm _ _ | OForceRelease => true
  | ORelease sid | ORemove sid => isOwner sid a
  | _ => false
  end.
Fixpoint touched (os : list op) (a : arbitrator) : bool :=
  match os with
  | [] => false
  | o :: rest => touches o a || touched rest (step o a)
  end.
Definition isFence (o : op) : bool := match o with OFence => true | _ => false end.

(** Counters modulo 2^64 do not come back to a value in fewer steps. *)
Definition dist64 (x y : Z) : Z := u64 (y - x).

(** ** Lemmas *)

(** *** Channels *)

Lemma mail_ok_perm m chs chs' n : chs ≡ₚ chs' -> mail_ok m chs n -> mail_ok m chs' n.
Proof.
  intros Hp (Hnd & Hin & H1 & Hf). split; [by rewrite <- Hp|].
  split; [intros ch Hc; apply Hin; by rewrite Hp|done].
Qed.

(** Bids, channels and sessions are used up to order. *)
#[export] Instance mail_ok_proper m : Proper ((≡ₚ) ==> (=) ==> iff) (mail_ok m).
Proof. intros l l' Hl n ? <-. split; by apply mail_ok_perm. Qed.
#[export] Instance chans_proper a : Proper ((≡ₚ) ==> (≡ₚ)) (chans a).
Proof. intros l l' Hl. unfold chans. by rewrite Hl. Qed.
#[export] Instance sess_proper a : Proper ((≡ₚ) ==> (≡ₚ)) (sess a).
Proof. intros l l' Hl. unfold sess. by rewrite Hl. Qed.

Lemma mail_ok_drop m chs chs' n : mail_ok m (chs ++ chs') n -> mail_ok m chs' n.
Proof.
  intros (Hnd & Hin & H1 & Hf). apply NoDup_app in Hnd as (_ & _ & Hnd).
  split; [done|]. split; [intros ch Hc; apply Hin; set_solver|done].
Qed.

Lemma mail_ok_send m ch chs n r :
  mail_ok m (ch :: chs) n -> mail_ok (<[ch := default [] (m !! ch) ++ [r]]> m) chs n.
Proof.
  intros (Hnd & Hin & H1 & Hf). apply NoDup_cons in Hnd as [Hni Hnd].
  destruct (Hin ch) as [Hlt Hnone]; [set_solver|]. rewrite Hnone. simpl.
  split; [done|]. split; [|split].
  - intros c Hc. rewrite lookup_insert_ne by set_solver. apply Hin. set_solver.
  - intros c. destruct (decide (ch = c)) as [->|Hne].
    + rewrite lookup_insert_eq. simpl. lia.
    + by rewrite lookup_insert_ne.
  - intros c Hc. rewrite lookup_insert_ne by lia. by apply Hf.
Qed.

Lemma mail_ok_fresh m chs n : mail_ok m chs n -> mail_ok m (n :: chs) (S n).
Proof.
  intros (Hnd & Hin & H1 & Hf). split.
  - apply NoDup_cons. split; [|done]. intros Hn%Hin. lia.
  - split; [|split; [done|intros c Hc; apply Hf; lia]].
    intros c [->|Hc]%elem_of_cons; [split; [lia|by apply Hf]|].
    apply Hin in Hc as [? ?]. split; [lia|done].
Qed.

(** *** Requests are stable *)

Lemma req_set_req id r a j : req (set_req id r a) j = if decide (id = j) then r else req a j.
Proof.
  unfold req, set_req. simpl. rewrite lookup_insert. by destruct (decide (id = j)).
Qed.

Lemma req_send id r a j : req (send id r a) j = req a j.
Proof. done. Qed.

Lemma cancelReq_fields id a j :
  notify (req (cancelReq id a) j) = notify (req a j) /\
  sessionID (req (cancelReq id a) j) = sessionID (req a j) /\
  initiator (req (cancelReq id a) j) = initiator (req a j).
Proof.
  unfold cancelReq. rewrite req_set_req. destruct (decide (id = j)) as [->|]; done.
Qed.

Lemma chans_ext a a' l :
  (forall id, id ∈ l -> same_req (req a' id) (req a id)) -> chans a' l = chans a l.
Proof.
  intros H. apply list_fmap_ext. intros i x Hx. apply H. by eapply list_elem_of_lookup_2.
Qed.

Lemma sess_ext a a' l :
  (forall id, id ∈ l -> same_req (req a' id) (req a id)) -> sess a' l = sess a l.
Proof.
  intros H. apply list_fmap_ext. intros i x Hx. apply H. by eapply list_elem_of_lookup_2.
Qed.

Lemma same_req_alloc sid ini a id :
  (id < nextReq a)%nat -> same_req (req (fst (fst (alloc sid ini a))) id) (req a id).
Proof.
  intros Hid. unfold same_req, req, alloc. simpl. rewrite lookup_insert_ne by lia. done.
Qed.

Lemma req_alloc_new sid ini a :
  req (fst (fst (alloc sid ini a))) (nextReq a) = mkReq sid ini (nextChan a) false.
Proof. unfold req, alloc. simpl. by rewrite lookup_insert_eq. Qed.

Lemma findSession_Some a sid l i id :
  findSession a sid l = Some (i, id) -> l !! i = Some id /\ sessionID (req a id) = sid.
Proof.
  revert i; induction l as [|x l IH]; intros i H; simpl in H; [done|].
  destruct (Z.eqb_spec (sessionID (req a x)) sid); [by simplify_eq|].
  destruct (findSession a sid l) as [[j r]|]; simplify_eq. by apply IH.
Qed.

Lemma findSession_None a sid l : findSession a sid l = None -> sid ∉ sess a l.
Proof.
  induction l as [|x l IH]; intros H; simpl in H; [set_solver|].
  destruct (Z.eqb_spec (sessionID (req a x)) sid); [done|].
  destruct (findSession a sid l) as [[j r]|]; [done|].
  unfold sess. rewrite fmap_cons. set_solver.
Qed.
(** *** The invariant under the primitive changes *)

(** Drop bids, keeping the requests: the bids that remain keep every
    property but the one of their channels. *)
Lemma inv_drop xs a a' dropped :
  inv_x xs a ->
  (forall id, same_req (req a' id) (req a id)) ->
  nextReq a' = nextReq a -> nextChan a' = nextChan a ->
  bidsOf a ≡ₚ dropped ++ bidsOf a' ->
  option_list (pendingGateway a') ++ option_list (deferredGatewayLoser a') ⊆+
    option_list (pendingGateway a) ++ option_list (deferredGatewayLoser a) ->
  pendingExternal a' `sublist_of` pendingExternal a ->
  (pendingGateway a' <> None -> deferredGatewayLoser a' = None) ->
  mail_ok (mail a') (xs ++ chans a (bidsOf a')) (nextChan a) ->
  inv_x xs a'.
Proof.
  intros (_ & Hnd & Hlt & _ & Hgd & He & Hse & Hr) Hsame Hnr Hnc Hp Hsub Hext Hx Hm.
  rewrite Hp in Hnd. apply NoDup_app in Hnd as (_ & _ & Hnd).
  rewrite Hp in Hlt, Hr. apply Forall_app in Hlt as [_ Hlt]. apply Forall_app in Hr as [_ Hr].
  unfold inv_x. rewrite Hnr, Hnc, (chans_ext a a'), !(sess_ext a a') by done.
  split_and!; try done.
  - unfold sess in *. rewrite Forall_forall in *. intros sid (id & -> & Hin)%list_elem_of_fmap.
    apply Hgd, list_elem_of_fmap. exists id. split; [done|].
    by eapply elem_of_submseteq.
  - unfold sess in *. rewrite Forall_forall in *. intros sid (id & -> & Hin)%list_elem_of_fmap.
    apply He, list_elem_of_fmap. exists id. split; [done|].
    by eapply elem_of_submseteq, sublist_submseteq.
  - unfold sess in *. by eapply sublist_NoDup, fmap_sublist.
  - eapply Forall_impl; [done|]. intros id Hid. destruct (Hsame id) as (_ & -> & ->). done.
Qed.

(** Resolve one bid: it leaves and its channel gets its result. *)
Lemma inv_resolve xs a a' id r :
  inv_x xs a ->
  (forall j, same_req (req a' j) (req a j)) ->
  nextReq a' = nextReq a -> nextChan a' = nextChan a -> mail a' = mail (send id r a) ->
  bidsOf a ≡ₚ id :: bidsOf a' ->
  option_list (pendingGateway a') ++ option_list (deferredGatewayLoser a') ⊆+
    option_list (pendingGateway a) ++ option_list (deferredGatewayLoser a) ->
  pendingExternal a' `sublist_of` pendingExternal a ->
  (pendingGateway a' <> None -> deferredGatewayLoser a' = None) ->
  inv_x xs a'.
Proof.
  intros Hinv Hsame Hnr Hnc Hmail Hp Hsub Hext Hx.
  eapply (inv_drop xs a a' [id]); try done. rewrite Hmail. simpl.
  apply mail_ok_send. destruct Hinv as (Hm & _). eapply mail_ok_perm; [|done].
  rewrite Hp. unfold chans. rewrite fmap_cons. by rewrite Permutation_middle.
Qed.
(** Requests outside the bids may change freely. *)
Lemma inv_reqs xs a a' :
  inv_x xs a -> bidsOf a' = bidsOf a -> pendingGateway a' = pendingGateway a ->
  deferredGatewayLoser a' = deferredGatewayLoser a ->
  pendingExternal a' = pendingExternal a ->
  (forall id, id ∈ bidsOf a -> same_req (req a' id) (req a id)) ->
  mail a' = mail a -> nextChan a' = nextChan a -> (nextReq a <= nextReq a')%nat ->
  inv_x xs a'.
Proof.
  intros (Hm & Hnd & Hlt & Hx & Hgd & He & Hse & Hr) Hb Hg Hd Hext Hs Hmail Hnc Hnr.
  unfold inv_x. rewrite Hmail, Hnc, Hb, Hg, Hd, Hext, (chans_ext a a') by done.
  rewrite !(sess_ext a a') by (intros id Hid; apply Hs; unfold bidsOf; set_solver).
  split_and!; try done.
  - eapply Forall_impl; [exact Hlt|]. intros ? ?; simpl in *; lia.
  - rewrite Forall_forall in *. intros id Hid. destruct (Hs id Hid) as (_ & -> & ->). by apply Hr.
Qed.

Lemma inv_alloc a sid ini :
  inv a -> inv_x [nextChan a] (fst (fst (alloc sid ini a))).
Proof.
  intros Hinv. pose proof Hinv as (Hm & Hnd & Hlt & Hx & Hgd & He & Hse & Hr).
  assert (Hs : forall id, id ∈ bidsOf a ->
      same_req (req (fst (fst (alloc sid ini a))) id) (req a id)).
  { intros id Hid. apply same_req_alloc. rewrite Forall_forall in Hlt. by apply Hlt. }
  set (a' := fst (fst (alloc sid ini a))) in *. unfold inv_x.
  change (bidsOf a') with (bidsOf a).
  change (pendingGateway a') with (pendingGateway a).
  change (deferredGatewayLoser a') with (deferredGatewayLoser a).
  change (pendingExternal a') with (pendingExternal a).
  rewrite (chans_ext a a') by apply Hs.
  rewrite !(sess_ext a a') by (intros id Hid; apply Hs; unfold bidsOf; set_solver).
  split_and!; try done.
  - by apply mail_ok_fresh.
  - eapply Forall_impl; [exact Hlt|]. intros ? ?; simpl in *; lia.
  - rewrite Forall_forall in *. intros id Hid. destruct (Hs id Hid) as (_ & -> & ->). by apply Hr.
Qed.

(** Attach a handed-out channel as the bid of a fresh request. *)
Lemma inv_insert_gateway a id :
  inv_x [notify (req a id)] a -> pendingGateway a = None -> deferredGatewayLoser a = None ->
  (id < nextReq a)%nat -> id ∉ bidsOf a -> sessionID (req a id) = gatewaySessionID ->
  is_byte (initiator (req a id)) ->
  inv (set_bids (Some id) None (pendingExternal a) a).
Proof.
  intros (Hm & Hnd & Hlt & Hx & Hgd & He & Hse & Hr) Hg Hd Hid Hni Hs0 Hi.
  unfold inv, inv_x, bidsOf in *. simpl in *. rewrite Hg, Hd in *. simpl in *.
  split_and!; try done.
  - by apply NoDup_cons.
  - by constructor.
  - by constructor.
  - constructor; [|done]. change (0 <= sessionID (req a id) < 2 ^ 64 /\ is_byte (initiator (req a id))).
    rewrite Hs0. split; [unfold gatewaySessionID; lia|done].
Qed.

Lemma inv_insert_external a id ext :
  inv_x [notify (req a id)] a -> ext ≡ₚ id :: pendingExternal a ->
  (id < nextReq a)%nat -> id ∉ bidsOf a -> sessionID (req a id) <> gatewaySessionID ->
  sessionID (req a id) ∉ sess a (pendingExternal a) ->
  0 <= sessionID (req a id) < 2 ^ 64 -> is_byte (initiator (req a id)) ->
  inv (set_bids (pendingGateway a) (deferredGatewayLoser a) ext a).
Proof.
  intros (Hm & Hnd & Hlt & Hx & Hgd & He & Hse & Hr) Hext Hid Hni Hs0 Hsn Hsr Hi.
  assert (Hp : bidsOf (set_bids (pendingGateway a) (deferredGatewayLoser a) ext a) ≡ₚ
               id :: bidsOf a).
  { unfold bidsOf. simpl. rewrite Hext. solve_Permutation. }
  assert (Hsp : sess a ext ≡ₚ sessionID (req a id) :: sess a (pendingExternal a)).
  { unfold sess. by rewrite Hext. }
  unfold inv, inv_x.
  change (sess (set_bids (pendingGateway a) (deferredGatewayLoser a) ext a)) with (sess a).
  change (chans (set_bids (pendingGateway a) (deferredGatewayLoser a) ext a)) with (chans a).
  change (req (set_bids (pendingGateway a) (deferredGatewayLoser a) ext a)) with (req a).
  split_and!; try done; rewrite ?Hp, ?Hsp; try done.
  - by apply NoDup_cons.
  - by constructor.
  - by constructor.
  - by apply NoDup_cons.
  - by constructor.
Qed.
(** *** Operations *)

Lemma inv_new : inv newArbitrator.
Proof.
  unfold inv, inv_x, mail_ok, bidsOf, chans, sess. simpl.
  split_and!; try constructor; try done; set_solver.
Qed.

(** Changing the owner fields or the epochs touches no bid. *)
Lemma inv_frame a a' :
  bidsOf a' = bidsOf a -> pendingGateway a' = pendingGateway a ->
  deferredGatewayLoser a' = deferredGatewayLoser a ->
  pendingExternal a' = pendingExternal a -> reqs a' = reqs a -> mail a' = mail a ->
  nextChan a' = nextChan a -> nextReq a' = nextReq a -> inv a -> inv a'.
Proof.
  intros Hb Hg Hd He Hr Hm Hc Hn Hinv. eapply inv_reqs; try done.
  - intros id _. unfold same_req, req. by rewrite Hr.
  - lia.
Qed.

Lemma same_req_cancelReq id a j : same_req (req (cancelReq id a) j) (req a j).
Proof. unfold same_req. pose proof (cancelReq_fields id a j). naive_solver. Qed.

Lemma same_req_cancelBid id a j : same_req (req (cancelBid id a) j) (req a j).
Proof. unfold cancelBid. rewrite req_send. apply same_req_cancelReq. Qed.

Lemma mail_cancelBid id a :
  mail (cancelBid id a) = mail (send id (cancelledResult (initiator (req a id))) a).
Proof.
  unfold cancelBid, send. simpl. by destruct (cancelReq_fields id a id) as (-> & _).
Qed.

(** Cancel the gateway's bid, pending or deferred, out of its slot. *)
Lemma inv_cancel_gateway xs a g :
  inv_x xs a -> pendingGateway a = Some g ->
  inv_x xs (set_bids None None (pendingExternal a) (cancelBid g a)) /\ deferredGatewayLoser a = None.
Proof.
  intros Hinv Hg. pose proof Hinv as (_ & _ & _ & Hx & _).
  assert (Hd : deferredGatewayLoser a = None) by (apply Hx; by rewrite Hg).
  split; [|done].
  eapply (inv_resolve _ _ _ g); [done|apply same_req_cancelBid|done|done|
    apply mail_cancelBid| | |done|done]; unfold bidsOf; simpl; rewrite Hg, Hd; simpl.
  - done.
  - apply submseteq_nil_l.
Qed.

Lemma inv_cancel_deferred xs a d :
  inv_x xs a -> deferredGatewayLoser a = Some d ->
  inv_x xs (cancelBid d (set_bids None None (pendingExternal a) a)) /\ pendingGateway a = None.
Proof.
  intros Hinv Hd. pose proof Hinv as (_ & _ & _ & Hx & _).
  assert (Hg : pendingGateway a = None).
  { destruct (pendingGateway a); [|done]. rewrite Hx in Hd; done. }
  split; [|done].
  eapply (inv_resolve _ _ _ d); [done|intros j; apply (same_req_cancelBid d (set_bids None None (pendingExternal a) a))|
    done|done|apply (mail_cancelBid d (set_bids None None (pendingExternal a) a))| | |done|done];
    unfold bidsOf; simpl; rewrite Hg, Hd; simpl.
  - done.
  - apply submseteq_nil_l.
Qed.

(** Take the external bid at position [i] out, sending it a result. *)
Lemma inv_take_external xs a a' i id r :
  inv_x xs a -> pendingExternal a !! i = Some id ->
  (forall j, same_req (req a' j) (req a j)) ->
  nextReq a' = nextReq a -> nextChan a' = nextChan a -> mail a' = mail (send id r a) ->
  pendingGateway a' = pendingGateway a -> deferredGatewayLoser a' = deferredGatewayLoser a ->
  pendingExternal a' = delete i (pendingExternal a) ->
  inv_x xs a'.
Proof.
  intros Hinv Hi Hs Hnr Hnc Hm Hg Hd He. pose proof Hinv as (_ & _ & _ & Hx & _).
  apply (inv_resolve xs a a' id r); try done.
  - unfold bidsOf. rewrite Hg, Hd, He.
    pose proof (delete_Permutation _ _ _ Hi) as Hp. revert Hp.
    generalize (delete i (pendingExternal a)). intros l ->. solve_Permutation.
  - by rewrite Hg, Hd.
  - rewrite He. apply sublist_delete.
  - by rewrite Hg, Hd.
Qed.

Lemma inv_requestStart_gateway ini a :
  inv a -> is_byte ini -> inv (fst (requestStart gatewaySessionID ini a)).
Proof.
  intros Hinv Hi. pose proof (inv_alloc a gatewaySessionID ini Hinv) as Ha.
  pose proof Hinv as (_ & _ & Hlt & _).
  assert (Hni : nextReq a ∉ bidsOf a) by (rewrite Forall_forall in Hlt; intros ?%Hlt; lia).
  pose proof (req_alloc_new gatewaySessionID ini a) as Hnew.
  unfold requestStart. destruct (alloc gatewaySessionID ini a) as [[a1 new] ch] eqn:Hal.
  assert (new = nextReq a /\ ch = nextChan a /\ bidsOf a1 = bidsOf a /\
          nextReq a1 = S (nextReq a)) as (-> & -> & Hb & Hn1)
    by (unfold alloc in Hal; simplify_eq; done).
  simpl in Ha, Hnew. rewrite Z.eqb_refl. simpl.
  (* the cleared arbitrator both branches end in *)
  assert (Hfin : forall b, inv_x [nextChan a] b -> pendingGateway b = None ->
      deferredGatewayLoser b = None -> pendingExternal b = pendingExternal a1 ->
      same_req (req b (nextReq a)) (req a1 (nextReq a)) -> nextReq b = nextReq a1 ->
      inv (set_bids (Some (nextReq a)) None (pendingExternal a1) b)).
  { intros b Hbi Hbg Hbd Hbe (Hsn & Hss & Hsi) Hbn. rewrite Hnew in *. simpl in *.
    rewrite <- Hbe. apply inv_insert_gateway; try done.
    - by rewrite Hsn.
    - lia.
    - intros Hin. apply Hni. rewrite <- Hb. unfold bidsOf in *. rewrite Hbg, Hbd, Hbe in Hin.
      simpl in Hin. set_solver.
    - by rewrite Hsi. }
  destruct (pendingGateway a1) as [g|] eqn:Hg.
  - destruct (inv_cancel_gateway _ _ _ Ha Hg) as [Hc Hd].
    do 2 (change (deferredGatewayLoser (cancelBid g a1)) with (deferredGatewayLoser a1);
          rewrite Hd).
    refine (Hfin _ Hc _ _ _ _ _); try done. apply same_req_cancelBid.
  - destruct (deferredGatewayLoser a1) as [d|] eqn:Hd.
    + destruct (inv_cancel_deferred _ _ _ Ha Hd) as [Hc _].
      refine (Hfin _ Hc _ _ _ _ _); try done.
      apply (same_req_cancelBid d (set_bids None None (pendingExternal a1) a1)).
    + rewrite Hd. by apply Hfin.
Qed.
Lemma insert_delete_perm (l : list nat) i x y :
  l !! i = Some x -> <[i := y]> l ≡ₚ y :: delete i l.
Proof.
  revert i; induction l as [|z l IH]; intros [|i] Hi; simplify_eq/=; [done|].
  change (z :: <[i:=y]> l ≡ₚ y :: z :: delete i l).
  rewrite (IH i Hi). solve_Permutation.
Qed.

Lemma without_spec xs a i old :
  inv_x xs a -> pendingExternal a !! i = Some old ->
  inv_x xs (without i old a) /\
  bidsOf a ≡ₚ old :: bidsOf (without i old a) /\
  old ∉ bidsOf (without i old a) /\
  sessionID (req a old) ∉ sess a (pendingExternal (without i old a)).
Proof.
  intros Ha Hi. pose proof Ha as (_ & Hnd & _ & _ & _ & _ & Hse & _).
  pose proof (delete_Permutation _ _ _ Hi) as Hdp.
  assert (Hob : bidsOf a ≡ₚ old :: bidsOf (without i old a)).
  { unfold bidsOf, without. simpl. rewrite Hdp at 1. solve_Permutation. }
  assert (Hsb : sess a (pendingExternal a) ≡ₚ
                sessionID (req a old) :: sess a (pendingExternal (without i old a))).
  { unfold without, sess. simpl. rewrite Hdp at 1. by rewrite fmap_cons. }
  rewrite Hsb in Hse. apply NoDup_cons in Hse as [Hse _].
  rewrite Hob in Hnd. apply NoDup_cons in Hnd as [Hnob _].
  split_and!; try done. eapply (inv_take_external _ a _ i old); done.
Qed.

(** A second bid from the same address: the request keeps its identity, the
    channel moves. *)
Lemma inv_rebid_same a i old ch :
  inv_x [ch] a -> pendingExternal a !! i = Some old ->
  let r := req a old in
  inv (set_req old (mkReq (sessionID r) (initiator r) ch (cancelled r))
         (send old (cancelledResult (initiator r)) a)).
Proof.
  intros Ha Hi r. destruct (without_spec _ _ _ _ Ha Hi) as (Hb & _ & Hnob & Hns).
  pose proof Ha as (_ & _ & Hlt & _ & _ & He & _ & Hr).
  assert (Hext : old ∈ pendingExternal a) by (by eapply list_elem_of_lookup_2).
  assert (Hold : old ∈ bidsOf a) by (unfold bidsOf; set_solver).
  rewrite Forall_forall in Hlt, Hr. rewrite Forall_forall in He. apply Hr in Hold as Hr1.
  set (r' := mkReq (sessionID r) (initiator r) ch (cancelled r)).
  set (b := set_req old r' (without i old a)).
  change (inv (set_bids (pendingGateway b) (deferredGatewayLoser b) (pendingExternal a) b)).
  assert (Hr' : req b old = r') by (unfold b; rewrite req_set_req; by case_decide).
  assert (Hsame : forall j, j ∈ bidsOf (without i old a) ->
      same_req (req b j) (req (without i old a) j)).
  { intros j Hj. unfold b. rewrite req_set_req. case_decide; [by subst|done]. }
  apply (inv_insert_external _ old); rewrite ?Hr'; simpl; try done.
  - by eapply inv_reqs.
  - by apply delete_Permutation.
  - by apply Hlt.
  - apply He. by apply (list_elem_of_fmap_2 (fun id => sessionID (req a id))).
  - change (sessionID r ∉ sess b (pendingExternal (without i old a))).
    rewrite (sess_ext (without i old a) b); [done|].
    intros j Hj. apply Hsame. unfold bidsOf. set_solver.
  - apply Hr1.
  - apply Hr1.
Qed.

(** A second bid from another address: a new request takes the slot. *)
Lemma inv_rebid_other a i old new :
  inv_x [notify (req a new)] a -> pendingExternal a !! i = Some old ->
  (new < nextReq a)%nat -> new ∉ bidsOf a -> req_range (req a new) ->
  sessionID (req a new) = sessionID (req a old) ->
  inv (set_bids (pendingGateway a) (deferredGatewayLoser a) (<[i := new]> (pendingExternal a))
         (cancelReq old (send old (cancelledResult (initiator (req a old))) a))).
Proof.
  intros Ha Hi Hn Hni Hrr Hs. destruct (without_spec _ _ _ _ Ha Hi) as (Hb & Hob & _ & Hns).
  pose proof Ha as (_ & _ & _ & _ & _ & He & _). rewrite Forall_forall in He.
  set (b := cancelReq old (without i old a)).
  change (inv (set_bids (pendingGateway b) (deferredGatewayLoser b)
    (<[i := new]> (pendingExternal a)) b)).
  destruct (cancelReq_fields old (without i old a) new) as (Hcn & Hcs & Hci). fold b in Hcn, Hcs, Hci.
  change (req (without i old a) new) with (req a new) in Hcn, Hcs, Hci.
  apply (inv_insert_external _ new); rewrite ?Hcn, ?Hcs, ?Hci; try done.
  - eapply (inv_reqs _ (without i old a)); try done. intros j _. apply same_req_cancelReq.
  - by apply (insert_delete_perm _ _ old).
  - change (bidsOf b) with (bidsOf (without i old a)). rewrite Hob in Hni. set_solver.
  - rewrite Hs. apply He, (list_elem_of_fmap_2 (fun id => sessionID (req a id))).
    by eapply list_elem_of_lookup_2.
  - rewrite Hs, (sess_ext (without i old a)); [done|]. intros j _. apply same_req_cancelReq.
  - apply Hrr.
  - apply Hrr.
Qed.

Lemma inv_requestStart_external sid ini a :
  inv a -> 0 <= sid < 2 ^ 64 -> sid <> gatewaySessionID -> is_byte ini ->
  inv (fst (requestStart sid ini a)).
Proof.
  intros Hinv Hsr Hs0 Hi. pose proof (inv_alloc a sid ini Hinv) as Ha.
  pose proof Hinv as (_ & _ & Hlt & _).
  assert (Hni : nextReq a ∉ bidsOf a) by (rewrite Forall_forall in Hlt; intros ?%Hlt; lia).
  pose proof (req_alloc_new sid ini a) as Hnew.
  unfold requestStart. destruct (alloc sid ini a) as [[a1 new] ch] eqn:Hal.
  assert (new = nextReq a /\ ch = nextChan a /\ bidsOf a1 = bidsOf a /\
          nextReq a1 = S (nextReq a)) as (-> & -> & Hb & Hn1)
    by (unfold alloc in Hal; simplify_eq; done).
  simpl in Ha, Hnew. destruct (Z.eqb_spec sid gatewaySessionID); [done|].
  rewrite <- Hb in Hni.
  destruct (findSession a1 sid (pendingExternal a1)) as [[i old]|] eqn:Hf.
  - apply findSession_Some in Hf as [Hi' Hso].
    destruct (Z.eqb_spec (initiator (req a1 old)) ini) as [Heq|Hne]; simpl.
    + by apply (inv_rebid_same a1 i old).
    + apply (inv_rebid_other a1 i old); rewrite ?Hnew; try done. lia.
  - apply findSession_None in Hf. simpl.
    apply (inv_insert_external _ (nextReq a)); rewrite ?Hnew; simpl; try done.
    + by rewrite Permutation_app_comm.
    + lia.
Qed.

Lemma inv_cancelStart sid a : inv a -> inv (fst (cancelStart sid a)).
Proof.
  intros Hinv. unfold cancelStart. destruct (sid =? gatewaySessionID).
  - destruct (pendingGateway a) as [g|] eqn:Hg.
    + destruct (inv_cancel_gateway _ _ _ Hinv Hg) as [Hc Hd]. simpl. by rewrite Hd.
    + destruct (deferredGatewayLoser a) as [d|] eqn:Hd; [|done].
      by destruct (inv_cancel_deferred _ _ _ Hinv Hd) as [Hc _].
  - destruct (findSession a sid (pendingExternal a)) as [[i id]|] eqn:Hf; [|done].
    apply findSession_Some in Hf as [Hi _].
    eapply (inv_take_external _ a _ i id); try done.
    + apply same_req_cancelBid.
    + apply mail_cancelBid.
Qed.
Lemma inv_handover a a' dropped :
  inv a -> reqs a' = reqs a -> mail a' = mail a -> nextReq a' = nextReq a ->
  nextChan a' = nextChan a -> bidsOf a ≡ₚ dropped ++ bidsOf a' ->
  option_list (pendingGateway a') ++ option_list (deferredGatewayLoser a') ⊆+
    option_list (pendingGateway a) ++ option_list (deferredGatewayLoser a) ->
  pendingExternal a' `sublist_of` pendingExternal a ->
  (pendingGateway a' <> None -> deferredGatewayLoser a' = None) ->
  inv a'.
Proof.
  intros Hinv Hr Hm Hnr Hnc Hp Hsub Hext Hx.
  eapply (inv_drop [] a a' dropped); try done.
  - intros id. unfold same_req, req. by rewrite Hr.
  - rewrite Hm. destruct Hinv as (Hok & _). simpl in *.
    eapply (mail_ok_drop _ (chans a dropped)). unfold chans. rewrite <- fmap_app.
    by rewrite <- Hp.
Qed.

(** Only the gateway's own slot holds a gateway bid. *)
Lemma gateway_losers a (f : nat -> bool) gw ext :
  inv a -> gw ⊆ option_list (pendingGateway a) -> ext ⊆ pendingExternal a ->
  List.filter (fun id => sessionID (req a id) =? gatewaySessionID) (List.filter f (gw ++ ext)) =
  List.filter f gw.
Proof.
  intros (_ & _ & _ & _ & Hgd & He & _) Hgw Hext. unfold sess in *.
  rewrite Forall_forall in Hgd, He. rewrite List.filter_app, List.filter_app.
  rewrite (filter_nil _ (List.filter f ext)), app_nil_r.
  - apply filter_all. intros x [Hx _]%elem_of_filterb. apply Z.eqb_eq, Hgd, list_elem_of_fmap.
    exists x. set_solver.
  - intros x [Hx _]%elem_of_filterb. apply Z.eqb_neq, He, list_elem_of_fmap.
    exists x. set_solver.
Qed.

Lemma inv_select idle bids a : inv a -> inv (fst (fst (selectBidsAtSYN idle bids a))).
Proof.
  intros Hinv. unfold selectBidsAtSYN. destruct (hasOwner a || negb idle); [done|].
  set (el := eligible bids a). set (gw := List.filter el (option_list (pendingGateway a))).
  set (ext := List.filter el (pendingExternal a)).
  destruct (pickWinner a (head gw) ext) as [w|]; [|done]. simpl.
  rewrite (gateway_losers a _ gw ext) by (done || (intros x; unfold gw, ext;
    rewrite elem_of_filterb; naive_solver)).
  pose proof Hinv as (_ & _ & _ & Hx & _).
  pose proof (filter_perm el (pendingExternal a)) as Hext. fold ext in Hext.
  pose proof (filter_sublist (fun id => negb (el id)) (pendingExternal a)) as Hsub.
  revert Hext Hsub. generalize (List.filter (fun id => negb (el id)) (pendingExternal a)).
  intros rest Hext Hsub.
  destruct (pendingGateway a) as [g|] eqn:Hg; simpl in gw.
  - assert (Hd : deferredGatewayLoser a = None) by (by apply Hx).
    destruct (el g) eqn:Heg; unfold gw; simpl.
    + destruct (bool_decide_reflect (g = w)); simpl.
      * eapply (inv_handover a _ (g :: ext)); unfold bidsOf; simpl; rewrite ?Hg, ?Hd; try done.
        -- rewrite Hext. done.
        -- apply submseteq_nil_l.
      * eapply (inv_handover a _ ext); unfold bidsOf; simpl; rewrite ?Hg, ?Hd; try done.
        rewrite Hext. solve_Permutation.
    + eapply (inv_handover a _ ext); unfold bidsOf; simpl; rewrite ?Hg, ?Hd; try done.
      rewrite Hext. solve_Permutation.
  - unfold gw. simpl.
    eapply (inv_handover a _ ext); unfold bidsOf; simpl; rewrite ?Hg; try done.
    rewrite Hext. solve_Permutation.
Qed.

Lemma inv_takeDeferred r a : inv a -> inv (fst (takeDeferredGatewayLoser r a)).
Proof.
  intros Hinv. destruct r as [id|]; simpl; [|done].
  case_bool_decide as Hd; [|done]. simpl.
  eapply (inv_handover a _ [id]); unfold bidsOf; simpl; rewrite ?Hd; try done.
  - simpl. solve_Permutation.
  - simpl. rewrite app_nil_r. apply submseteq_app_l_r || apply submseteq_inserts_r. done.
Qed.

Lemma inv_markInFlight r a : inv a -> inv (fst (markInFlightCancelled r a)).
Proof.
  intros Hinv. destruct r as [id|]; simpl; [|done].
  eapply inv_reqs; try done. intros j _. apply same_req_cancelReq.
Qed.

(** Failing a whole list of bids, each of them still pending. *)
Lemma inv_failList e l a ext0 :
  inv (set_bids (pendingGateway a) (deferredGatewayLoser a) (ext0 ++ l) a) ->
  let a' := fold_left (failBid e) l a in
  inv (set_bids (pendingGateway a') (deferredGatewayLoser a') ext0 a').
Proof.
  revert a ext0; induction l as [|x l IH]; intros a ext0 Hinv; simpl.
  - by rewrite app_nil_r in Hinv.
  - apply (IH (failBid e a x) ext0). unfold failBid.
    eapply (inv_take_external _ _ _ (length ext0) x); try done.
    + simpl. by rewrite list_lookup_middle.
    + simpl. by rewrite delete_middle.
Qed.

(** Failing the gateway's bid, pending or deferred. *)
Lemma inv_fail_gateway e a g :
  inv a ->
  option_list (pendingGateway a) ++ option_list (deferredGatewayLoser a) = [g] ->
  inv (set_bids None None (pendingExternal a) (failBid e a g)).
Proof.
  intros Hinv Hg.
  apply (inv_resolve [] a _ g (failedResult (initiator (req a g)) e)); try done.
  - unfold bidsOf. simpl. by rewrite app_assoc, Hg.
  - apply submseteq_nil_l.
Qed.

Lemma inv_failAll e a : inv a -> inv (failAllPending e a).
Proof.
  intros Hinv. unfold failAllPending. pose proof Hinv as (_ & _ & _ & Hx & _).
  assert (Hres : forall b, inv b ->
      let c := fold_left (failBid e) (pendingExternal b) b in
      inv (set_bids (pendingGateway c) (deferredGatewayLoser c) [] c)).
  { intros b Hb. apply (inv_failList e (pendingExternal b) b []). by destruct b. }
  destruct (pendingGateway a) as [g|] eqn:Hg; [|destruct (deferredGatewayLoser a) as [d|] eqn:Hd];
    simpl.
  - assert (Hd : deferredGatewayLoser a = None) by (by apply Hx).
    rewrite Hd. apply (Hres (set_bids None None (pendingExternal a) (failBid e a g))).
    apply inv_fail_gateway; [done|]. by rewrite Hg, Hd.
  - rewrite Hg. apply (Hres (set_bids None None (pendingExternal a) (failBid e a d))).
    apply inv_fail_gateway; [done|]. by rewrite Hg, Hd.
  - by apply (Hres a).
Qed.

(** *** Granting *)

Lemma mail_ok_sendAll r cs chs n m :
  mail_ok m (cs ++ chs) n -> mail_ok (sendAll r cs m) chs n.
Proof.
  revert m; induction cs as [|c cs IH]; intros m Hm; [done|].
  unfold sendAll. cbn [fold_left]. by apply IH, mail_ok_send.
Qed.

Lemma sendAll_lookup r cs m ch :
  NoDup cs -> (forall c, c ∈ cs -> m !! c = None) ->
  sendAll r cs m !! ch = if decide (ch ∈ cs) then Some [r] else m !! ch.
Proof.
  revert m; induction cs as [|c cs IH]; intros m Hnd Hm; unfold sendAll; cbn [fold_left].
  - case_decide; [set_solver|done].
  - apply NoDup_cons in Hnd as [Hc Hnd].
    change (sendAll r cs (<[c := default [] (m !! c) ++ [r]]> m) !! ch =
            if decide (ch ∈ c :: cs) then Some [r] else m !! ch).
    rewrite IH; [|done|].
    + rewrite (Hm c) by set_solver. cbn [default app]. destruct (decide (c = ch)) as [->|Hne].
      * rewrite lookup_insert_eq. do 2 case_decide; set_solver.
      * rewrite lookup_insert_ne by done. do 2 case_decide; set_solver.
    + intros x Hx. rewrite lookup_insert_ne by set_solver. apply Hm. set_solver.
Qed.

Lemma takeDeferred_frame id a :
  let a' := fst (takeDeferredGatewayLoser (Some id) a) in
  reqs a' = reqs a /\ mail a' = mail a /\ nextReq a' = nextReq a /\ nextChan a' = nextChan a /\
  pendingGateway a' = pendingGateway a /\ pendingExternal a' = pendingExternal a /\
  deferredGatewayLoser a' =
    (if decide (deferredGatewayLoser a = Some id) then None else deferredGatewayLoser a).
Proof. unfold takeDeferredGatewayLoser. case_bool_decide; case_decide; done. Qed.

Lemma tellLosers_spec w l a :
  let a' := tellLosers w l a in
  reqs a' = reqs a /\ nextReq a' = nextReq a /\ nextChan a' = nextChan a /\
  pendingGateway a' = pendingGateway a /\ pendingExternal a' = pendingExternal a /\
  deferredGatewayLoser a' = (d ← deferredGatewayLoser a; if decide (d ∈ l) then None else Some d) /\
  mail a' = sendAll (lostResult (initiator (req a w))) (chans a l) (mail a).
Proof.
  revert a; induction l as [|x l IH]; intros a.
  - split_and!; try done. cbn. by destruct (deferredGatewayLoser a).
  - unfold tellLosers. cbn [fold_left].
    destruct (takeDeferred_frame x a) as (Hr & Hm & Hn & Hc & Hg & He & Hd).
    set (b := fst (takeDeferredGatewayLoser (Some x) a)) in *.
    destruct (IH (send x (lostResult (initiator (req a w))) b))
      as (Hr' & Hn' & Hc' & Hg' & He' & Hd' & Hm').
    fold (tellLosers w l (send x (lostResult (initiator (req a w))) b)).
    assert (Hreq : forall j, req (send x (lostResult (initiator (req a w))) b) j = req a j)
      by (intros j; unfold req; simpl; by rewrite Hr).
    split_and!; try (etransitivity; [eassumption|simpl; done]).
    + rewrite Hd'. simpl. rewrite Hd.
      destruct (deferredGatewayLoser a) as [d|]; [|by case_decide]. simpl.
      repeat case_decide; simplify_eq/=; repeat case_decide; set_solver.
    + rewrite Hm'. rewrite Hreq, (chans_ext a) by (intros j _; by rewrite Hreq).
      change (mail (send x (lostResult (initiator (req a w))) b)) with
        (<[notify (req b x) := default [] (mail b !! notify (req b x)) ++
             [lostResult (initiator (req a w))]]> (mail b)).
      change (req b x) with (req (send x (lostResult (initiator (req a w))) b) x).
      by rewrite Hreq, Hm.
Qed.

Lemma pickWinner_in a start l w :
  pickWinner a start l = Some w -> w ∈ option_list start ++ l.
Proof.
  revert start; induction l as [|x l IH]; intros start H; simpl in H.
  - subst. set_solver.
  - apply IH in H. destruct start as [y|]; simpl in *; [destruct (higherPriority _ _)|];
      simpl in *; set_solver.
Qed.

(** What selecting among all bids does to them. *)
Lemma select_all_spec idle a a1 w losers :
  inv a -> selectBidsAtSYN idle None a = (a1, Some w, losers) ->
  hasOwner a = false /\ idle = true /\
  w ∈ option_list (pendingGateway a) ++ pendingExternal a /\
  option_list (pendingGateway a) ++ pendingExternal a ≡ₚ w :: losers /\
  reqs a1 = reqs a /\ mail a1 = mail a /\ nextReq a1 = nextReq a /\ nextChan a1 = nextChan a /\
  pendingGateway a1 = None /\ pendingExternal a1 = [] /\
  deferredGatewayLoser a1 =
    match pendingGateway a with
    | Some g => if decide (g = w) then None else Some g
    | None => deferredGatewayLoser a
    end /\
  pickWinner a (pendingGateway a) (pendingExternal a) = Some w.
Proof.
  intros Hinv Hsel. unfold selectBidsAtSYN in Hsel.
  destruct (hasOwner a) eqn:Hown; [done|]. destruct idle; [|done]. simpl in Hsel.
  change (eligible None a) with (fun _ : reqId => true) in Hsel.
  rewrite !filter_all in Hsel by done. rewrite (filter_nil _ (pendingExternal a)) in Hsel by done.
  replace (head (option_list (pendingGateway a))) with (pendingGateway a) in Hsel
    by (by destruct (pendingGateway a)).
  destruct (pickWinner a _ _) as [w'|] eqn:Hw; [|done].
  pose proof (pickWinner_in _ _ _ _ Hw) as Hin. simplify_eq.
  pose proof Hinv as (_ & Hnd & _ & Hx & _).
  rewrite (gateway_losers a _ (option_list (pendingGateway a)) (pendingExternal a)) by done.
  assert (Hnd' : NoDup (option_list (pendingGateway a) ++ pendingExternal a)).
  { eapply sublist_NoDup; [exact Hnd|]. unfold bidsOf.
    apply sublist_app; [done|]. by apply sublist_inserts_l. }
  split_and!; try done.
  - by apply filter_out_perm.
  - simpl. by destruct (pendingGateway a).
  - simpl. destruct (pendingGateway a) as [g|] eqn:Hg; simpl; [|done].
    case_bool_decide; case_decide; simpl; try done. by apply Hx.
Qed.

(** The whole grant on the arbitrator's state: every bid of the round
    leaves, the losers' channels get the winner's address. *)
Lemma tryGrant_spec idle a a2 w :
  inv a -> tryGrant idle a = (a2, Some w) ->
  exists losers,
  hasOwner a = false /\ idle = true /\
  option_list (pendingGateway a) ++ pendingExternal a ≡ₚ w :: losers /\
  reqs a2 = reqs a /\ nextReq a2 = nextReq a /\ nextChan a2 = nextChan a /\
  pendingGateway a2 = None /\ pendingExternal a2 = [] /\
  deferredGatewayLoser a2 = deferredGatewayLoser a /\
  mail a2 = sendAll (lostResult (initiator (req a w))) (chans a losers) (mail a) /\
  pickWinner a (pendingGateway a) (pendingExternal a) = Some w.
Proof.
  intros Hinv Hgr. unfold tryGrant in Hgr.
  destruct (selectBidsAtSYN idle None a) as [[a1 w'] losers] eqn:Hsel.
  destruct w' as [w'|]; [|done]. injection Hgr as <- ->. exists losers.
  destruct (select_all_spec _ _ _ _ _ Hinv Hsel)
    as (Ho & Hi & _ & Hp & Hr & Hm & Hn & Hc & Hg & He & Hd & Hw).
  destruct (tellLosers_spec w losers a1) as (Hr' & Hn' & Hc' & Hg' & He' & Hd' & Hm').
  pose proof Hinv as (Hok & Hnd & _ & Hx & _).
  split_and!; try congruence.
  - rewrite Hd', Hd. unfold bidsOf in Hnd. destruct (pendingGateway a) as [g|]; simpl in *.
    + rewrite (Hx ltac:(done)). case_decide as Hgw; simpl; [done|].
      rewrite decide_True; [done|]. assert (g ∈ w :: losers) by (rewrite <- Hp; set_solver).
      set_solver.
    + destruct (deferredGatewayLoser a) as [d|]; simpl; [|done].
      rewrite decide_False; [done|]. intros Hdl. simpl in Hnd.
      apply NoDup_cons in Hnd as [Hnd _]. apply Hnd. rewrite Hp. set_solver.
  - assert (Hreq : forall j, req a1 j = req a j) by (intros j; unfold req; by rewrite Hr).
    rewrite Hm', Hm, Hreq. f_equal. apply chans_ext. intros j _. by rewrite Hreq.
Qed.

Lemma inv_tryGrant idle a : inv a -> inv (fst (tryGrant idle a)).
Proof.
  intros Hinv. destruct (tryGrant idle a) as [a2 [w|]] eqn:Hgr; simpl.
  - destruct (tryGrant_spec _ _ _ _ Hinv Hgr)
      as (losers & _ & _ & Hp & Hr & Hn & Hc & Hg & He & Hd & Hm & _).
    pose proof Hinv as (Hok & _ & _ & Hx & _).
    assert (Hb : bidsOf a ≡ₚ (w :: losers) ++ bidsOf a2).
    { unfold bidsOf. rewrite Hg, He, Hd, <- Hp. simpl. solve_Permutation. }
    apply (inv_drop [] a a2 (w :: losers)); try done.
    + intros j. unfold same_req, req. by rewrite Hr.
    + rewrite Hg, Hd. simpl. by apply submseteq_inserts_l.
    + rewrite He. apply sublist_nil_l.
    + rewrite Hm. apply mail_ok_sendAll. simpl. simpl in Hok. rewrite Hb in Hok.
      unfold chans in *. rewrite <- fmap_app. by apply (mail_ok_drop _ [notify (req a w)]).
  - unfold tryGrant in Hgr. pose proof (inv_select idle None a Hinv) as H.
    destruct (selectBidsAtSYN idle None a) as [[a1 [w|]] losers]; [done|]. by simplify_eq.
Qed.

Lemma inv_releaseOwnership sid a : inv a -> inv (releaseOwnership sid a).
Proof. intros Hinv. unfold releaseOwnership. destruct (_ && _); by apply (inv_frame a). Qed.

Lemma inv_step o a : op_ok o -> inv a -> inv (step o a).
Proof.
  intros Hok Hinv. destruct o; simpl.
  - destruct Hok as [Hs Hi]. destruct (decide (sid = gatewaySessionID)) as [->|Hne].
    + by apply inv_requestStart_gateway.
    + by apply inv_requestStart_external.
  - by apply inv_cancelStart.
  - by apply inv_tryGrant.
  - by apply inv_select.
  - by apply inv_takeDeferred.
  - by apply inv_markInFlight.
  - by apply (inv_frame a).
  - by apply inv_releaseOwnership.
  - by apply (inv_frame a).
  - by apply (inv_frame a).
  - by apply inv_failAll.
  - by apply inv_releaseOwnership, inv_cancelStart.
Qed.

Lemma inv_steps os a : Forall op_ok os -> inv a -> inv (steps os a).
Proof.
  revert a; induction os as [|o os IH]; intros a Hok Hinv; [done|].
  apply Forall_cons in Hok as [Ho Hok]. apply (IH (step o a)); [done|]. by apply inv_step.
Qed.

(** *** The winner *)

Lemma higherPriority_prio x y :
  is_byte (initiator x) -> is_byte (initiator y) ->
  0 <= sessionID x < 2 ^ 64 -> 0 <= sessionID y < 2 ^ 64 ->
  higherPriority x y = (prio x <? prio y).
Proof.
  unfold is_byte, higherPriority, prio. intros Hx Hy Hsx Hsy.
  change 0x0F with (Z.ones 4). rewrite !Z.land_ones, !Z.shiftr_div_pow2 by lia.
  change (2 ^ 4) with 16. change (2 ^ 64) with 18446744073709551616 in *.
  pose proof (Z.div_mod (initiator x) 16). pose proof (Z.div_mod (initiator y) 16).
  pose proof (Z.mod_pos_bound (initiator x) 16). pose proof (Z.mod_pos_bound (initiator y) 16).
  repeat match goal with
  | |- context [?p =? ?q] => destruct (Z.eqb_spec p q); cbn [negb]
  | |- context [?p <? ?q] => destruct (Z.ltb_spec p q)
  end; lia.
Qed.

(** The loop keeps a bid none of the others outranks. *)
Lemma pickWinner_from a s l w :
  req_range (req a s) -> Forall (fun x => req_range (req a x)) l ->
  pickWinner a (Some s) l = Some w ->
  prio (req a w) <= prio (req a s) /\ Forall (fun x => prio (req a w) <= prio (req a x)) l.
Proof.
  revert s; induction l as [|y l IH]; intros s Hs Hl Hw; simpl in Hw.
  - simplify_eq. split; [lia|constructor].
  - apply Forall_cons in Hl as [Hy Hl].
    rewrite higherPriority_prio in Hw by (apply Hs || apply Hy).
    destruct (Z.ltb_spec (prio (req a y)) (prio (req a s))).
    + destruct (IH y Hy Hl Hw) as [H1 H2]. split; [lia|]. by constructor.
    + destruct (IH s Hs Hl Hw) as [H1 H2]. split; [lia|]. constructor; [lia|done].
Qed.

Lemma pickWinner_min a start l w :
  Forall (fun x => req_range (req a x)) (option_list start ++ l) ->
  pickWinner a start l = Some w ->
  Forall (fun x => prio (req a w) <= prio (req a x)) (option_list start ++ l).
Proof.
  intros Hr Hw. destruct start as [s|]; simpl in *.
  - apply Forall_cons in Hr as [Hs Hl]. destruct (pickWinner_from a s l w Hs Hl Hw).
    by constructor.
  - destruct l as [|y l]; [done|]. apply Forall_cons in Hr as [Hy Hl].
    destruct (pickWinner_from a y l w Hy Hl Hw). by constructor.
Qed.

(** Two bids of one round belong to different sessions, so their priorities
    differ. *)
Lemma round_sessions a :
  inv a -> NoDup (sess a (option_list (pendingGateway a) ++ pendingExternal a)).
Proof.
  intros (_ & _ & _ & _ & Hgd & He & Hse & _). unfold sess in *. rewrite fmap_app.
  apply NoDup_app. split_and!; [destruct (pendingGateway a); simpl; repeat constructor; set_solver| |done].
  rewrite Forall_forall in Hgd, He. intros sid Hg Hin. apply (He sid Hin).
  apply Hgd. rewrite fmap_app. set_solver.
Qed.

Lemma round_ranges a x :
  inv a -> x ∈ option_list (pendingGateway a) ++ pendingExternal a ->
  req_range (req a x).
Proof.
  intros (_ & _ & _ & _ & _ & _ & _ & Hr) Hx. rewrite Forall_forall in Hr. apply Hr.
  unfold bidsOf. set_solver.
Qed.

Lemma winner_outranks a w x :
  inv a -> pickWinner a (pendingGateway a) (pendingExternal a) = Some w ->
  x ∈ option_list (pendingGateway a) ++ pendingExternal a -> x <> w ->
  higherPriority (req a w) (req a x) = true.
Proof.
  intros Hinv Hw Hx Hne. pose proof (pickWinner_in _ _ _ _ Hw) as Hwin.
  destruct (round_ranges a x Hinv Hx) as [Hxs Hxi].
  destruct (round_ranges a w Hinv Hwin) as [Hws Hwi].
  assert (Hle : prio (req a w) <= prio (req a x)).
  { assert (Hall : Forall (fun x => req_range (req a x))
        (option_list (pendingGateway a) ++ pendingExternal a))
      by (apply Forall_forall; intros y; by apply round_ranges).
    apply (pickWinner_min a _ _ w) in Hall; [|done]. rewrite Forall_forall in Hall. by apply Hall. }
  rewrite higherPriority_prio by done. apply Z.ltb_lt.
  assert (Hsne : sessionID (req a w) <> sessionID (req a x)).
  { intros Heq. apply Hne. pose proof (round_sessions a Hinv) as Hnd. unfold sess in Hnd.
    apply list_elem_of_lookup_1 in Hx as [i Hi]. apply list_elem_of_lookup_1 in Hwin as [j Hj].
    assert (i = j) as ->; [|congruence].
    eapply NoDup_lookup; [done| |]; rewrite list_lookup_fmap.
    - by rewrite Hi.
    - rewrite Hj. simpl. by rewrite Heq. }
  unfold prio in *. lia.
Qed.

Lemma pickWinner_total a start l :
  option_list start ++ l <> [] -> exists w, pickWinner a start l = Some w.
Proof.
  revert start; induction l as [|x l IH]; intros start H; simpl.
  - destruct start as [s|]; [by exists s|done].
  - destruct start as [s|]; [destruct (higherPriority _ _)|]; by apply IH.
Qed.

Lemma tryGrant_total a :
  hasOwner a = false -> hasPending a = true -> exists a2 w, tryGrant true a = (a2, Some w).
Proof.
  intros Ho Hp. unfold tryGrant, selectBidsAtSYN. rewrite Ho. simpl.
  change (eligible None a) with (fun _ : reqId => true). rewrite !filter_all by done.
  destruct (pickWinner_total a (head (option_list (pendingGateway a))) (pendingExternal a))
    as [w Hw].
  - unfold hasPending in Hp. destruct (pendingGateway a), (pendingExternal a); done.
  - rewrite Hw. eauto.
Qed.

(** *** Ownership periods *)

Lemma own_select idle bids a : own (fst (fst (selectBidsAtSYN idle bids a))) = own a.
Proof. unfold selectBidsAtSYN. break; done. Qed.

Lemma own_tellLosers w l a : own (tellLosers w l a) = own a.
Proof.
  revert a; induction l as [|x l IH]; intros a; [done|].
  unfold tellLosers in *. cbn [fold_left]. rewrite IH.
  unfold takeDeferredGatewayLoser. by case_bool_decide.
Qed.

Lemma own_tryGrant idle a : own (fst (tryGrant idle a)) = own a.
Proof.
  unfold tryGrant. pose proof (own_select idle None a) as H.
  destruct (selectBidsAtSYN idle None a) as [[a1 [w|]] l]; simpl in *; [|done].
  by rewrite own_tellLosers.
Qed.

Lemma own_requestStart sid ini a : own (fst (requestStart sid ini a)) = own a.
Proof. unfold requestStart, alloc. break; done. Qed.

Lemma own_cancelStart sid a : own (fst (cancelStart sid a)) = own a.
Proof. unfold cancelStart. break; done. Qed.

Lemma own_failAllPending e a : own (failAllPending e a) = own a.
Proof.
  assert (Hl : forall l b, own (fold_left (failBid e) l b) = own b).
  { induction l as [|x l IH]; intros b; [done|]. simpl. by rewrite IH. }
  unfold failAllPending. break;
    match goal with |- own (set_bids _ _ _ ?c) = _ => change (own c = own a) end;
    by rewrite Hl.
Qed.

Lemma own_releaseOwnership sid a :
  isOwner sid a = false -> own (releaseOwnership sid a) = own a.
Proof. unfold releaseOwnership, isOwner. by intros ->. Qed.

#[local] Hint Resolve own_select own_tryGrant own_requestStart own_cancelStart
  own_failAllPending own_releaseOwnership : gw.

(** An operation that is neither a fence nor an ownership transition
    leaves the period as it is. *)
Lemma own_step_same o a :
  touches o a = false -> isFence o = false -> own (step o a) = own a.
Proof.
  destruct o; simpl; intros Ht Hf; try done; auto with gw.
  - unfold takeDeferredGatewayLoser. break; done.
  - unfold markInFlightCancelled. break; done.
  - unfold removeSession. rewrite own_releaseOwnership; [auto with gw|].
    pose proof (own_cancelStart sid a) as H. unfold own in H. simplify_eq.
    unfold isOwner in *. congruence.
Qed.

(** A transition adds one to the generation and leaves the epoch. *)
Lemma own_step_touch o a :
  touches o a = true ->
  ownershipGen (step o a) = incr64 (ownershipGen a) /\ lifecycleEpoch (step o a) = lifecycleEpoch a.
Proof.
  destruct o; simpl; intros Ht; try done.
  - unfold releaseOwnership. unfold isOwner in Ht. by rewrite Ht.
  - unfold removeSession. pose proof (own_cancelStart sid a) as H. unfold own in H.
    injection H as Hg _ Ho Hc Hl. unfold releaseOwnership, isOwner in *.
    rewrite Ho, Hc, Ht. simpl. by rewrite Hg.
Qed.

Lemma step_fence_or o a :
  own (step o a) = own a /\ touches o a = false /\ isFence o = false \/
  o = OFence \/
  touches o a = true.
Proof.
  destruct (touches o a) eqn:Ht; [by right; right|].
  destruct (isFence o) eqn:Hf; [right; left; by destruct o|].
  left. split; [by apply own_step_same|done].
Qed.

Lemma dist64_incr x y k :
  0 <= dist64 x y <= k -> k + 1 < 2 ^ 64 -> 0 < dist64 x (incr64 y) <= k + 1.
Proof.
  unfold dist64, incr64, u64. intros Hd Hk.
  rewrite Zminus_mod_idemp_l. replace (y + 1 - x) with ((y - x) + 1) by lia.
  rewrite <- Zplus_mod_idemp_l. rewrite (Z.mod_small (_ + 1)) by lia. lia.
Qed.

Lemma dist64_same x : dist64 x x = 0.
Proof. unfold dist64. by rewrite Z.sub_diag. Qed.

Lemma steps_cons o os a : steps (o :: os) a = steps os (step o a).
Proof. done. Qed.

(** Without a transition the period's owner stays; without a fence the
    epoch stays. *)
Lemma steps_untouched os a :
  touched os a = false ->
  ownershipGen (steps os a) = ownershipGen a /\ ownerEpoch (steps os a) = ownerEpoch a /\
  hasOwner (steps os a) = hasOwner a /\ currentOwner (steps os a) = currentOwner a.
Proof.
  revert a; induction os as [|o os IH]; intros a Ht; [done|].
  simpl in Ht. apply orb_false_elim in Ht as [Ho Ht]. rewrite steps_cons.
  destruct (IH _ Ht) as (-> & -> & -> & ->).
  destruct (step_fence_or o a) as [(H & _)|[->|H]]; [|done|congruence].
  unfold own in H. by simplify_eq.
Qed.

Lemma steps_unfenced os a :
  existsb isFence os = false -> lifecycleEpoch (steps os a) = lifecycleEpoch a.
Proof.
  revert a; induction os as [|o os IH]; intros a Hf; [done|].
  simpl in Hf. apply orb_false_elim in Hf as [Ho Hf]. rewrite steps_cons, IH by done.
  destruct (step_fence_or o a) as [(H & _)|[->|H]]; [|done|by apply own_step_touch].
  unfold own in H. by simplify_eq.
Qed.

(** The generation and the epoch move by at most one per operation, and by
    at least one when touched or fenced. *)
Lemma step_moves o a g e k :
  0 <= dist64 g (ownershipGen a) <= k -> 0 <= dist64 e (lifecycleEpoch a) <= k ->
  k + 1 < 2 ^ 64 ->
  0 <= dist64 g (ownershipGen (step o a)) <= k + 1 /\
  0 <= dist64 e (lifecycleEpoch (step o a)) <= k + 1 /\
  (0 < dist64 g (ownershipGen a) \/ touches o a = true ->
     0 < dist64 g (ownershipGen (step o a))) /\
  (0 < dist64 e (lifecycleEpoch a) \/ isFence o = true ->
     0 < dist64 e (lifecycleEpoch (step o a))).
Proof.
  intros Hg He Hk. destruct (step_fence_or o a) as [(H & Ht & Hf)|[->|H]].
  - unfold own in H. injection H as -> _ _ _ ->. rewrite Ht, Hf.
    split_and!; try lia; intros [?|?]; (lia || done).
  - pose proof (dist64_incr e (lifecycleEpoch a) k He Hk). simpl.
    split_and!; lia.
  - destruct (own_step_touch o a H) as [-> ->].
    pose proof (dist64_incr g (ownershipGen a) k Hg Hk).
    split_and!; try lia. intros [?|Hf]; [lia|]. by destruct o.
Qed.

Lemma steps_move os a g e k :
  0 <= dist64 g (ownershipGen a) <= k -> 0 <= dist64 e (lifecycleEpoch a) <= k ->
  k + len os < 2 ^ 64 ->
  (0 < dist64 g (ownershipGen a) \/ touched os a = true ->
     0 < dist64 g (ownershipGen (steps os a))) /\
  (0 < dist64 e (lifecycleEpoch a) \/ existsb isFence os = true ->
     0 < dist64 e (lifecycleEpoch (steps os a))).
Proof.
  revert a k; induction os as [|o os IH]; intros a k Hg He Hk.
  - simpl. split; intros [?|?]; done.
  - simpl in Hk. destruct (step_moves o a g e k Hg He ltac:(lia)) as (Hg' & He' & Hgt & Hef).
    destruct (IH (step o a) (k + 1) Hg' He' ltac:(lia)) as [IHg IHe]. simpl. split.
    + intros [H|H%orb_prop]; apply IHg; [left; auto|]. destruct H as [H|H]; [left|right]; auto.
    + intros [H|H%orb_prop]; apply IHe; [left; auto|]. destruct H as [H|H]; [left|right]; auto.
Qed.

(** The channels of one round are distinct and empty. *)
Lemma round_channels a w losers :
  inv a -> option_list (pendingGateway a) ++ pendingExternal a ≡ₚ w :: losers ->
  (forall x, x ∈ w :: losers -> mail a !! notify (req a x) = None) /\
  notify (req a w) ∉ chans a losers /\ NoDup (chans a losers).
Proof.
  intros ((Hnd & Hin & _) & _) Hperm. simpl in Hnd, Hin.
  assert (Hp : bidsOf a ≡ₚ (w :: losers) ++ option_list (deferredGatewayLoser a)).
  { rewrite <- Hperm. unfold bidsOf. solve_Permutation. }
  rewrite Hp in Hnd. unfold chans in Hnd. rewrite fmap_app, fmap_cons in Hnd.
  apply NoDup_app in Hnd as ([? ?]%NoDup_cons & _ & _). split_and!; try done.
  intros x Hx. apply Hin, list_elem_of_fmap. exists x. split; [done|]. rewrite Hp. set_solver.
Qed.

(** ** Properties *)

(** C38: when no session owns the bus and a bid is pending, [tryGrant] at an
    idle SYN picks the one bid that outranks every other (low nibble, high
    nibble, session), sends each loser exactly the winner's address, sends
    the winner nothing and leaves no bid of the round behind. *)
Theorem tryGrant_correct (os : list op) :
  Forall op_ok os ->
  let a := steps os newArbitrator in
  let bids := option_list (pendingGateway a) ++ pendingExternal a in
  hasOwner a = false -> hasPending a = true ->
  exists w a', tryGrant true a = (a', Some w) /\
    w ∈ bids /\
    (forall x, x ∈ bids -> x <> w ->
       higherPriority (req a w) (req a x) = true /\
       mail a' !! notify (req a x) = Some [lostResult (initiator (req a w))]) /\
    mail a' !! notify (req a w) = None /\
    pendingGateway a' = None /\ pendingExternal a' = [] /\
    deferredGatewayLoser a' = deferredGatewayLoser a.
Proof.
  intros Hok a bids Ho Hp. pose proof (inv_steps os newArbitrator Hok inv_new) as Hinv.
  fold a in Hinv. destruct (tryGrant_total a Ho Hp) as (a' & w & Hgr). exists w, a'.
  destruct (tryGrant_spec _ _ _ _ Hinv Hgr)
    as (losers & _ & _ & Hperm & _ & _ & _ & Hg & He & Hd & Hm & Hw).
  destruct (round_channels a w losers Hinv Hperm) as (Hfree & Hwl & Hndl).
  assert (Hlook := fun ch => sendAll_lookup (lostResult (initiator (req a w))) (chans a losers)
    (mail a) ch Hndl).
  assert (Hnone : forall c, c ∈ chans a losers -> mail a !! c = None).
  { intros c (x & -> & Hx)%list_elem_of_fmap. apply Hfree. set_solver. }
  split_and!; try done.
  - unfold bids. rewrite Hperm. set_solver.
  - intros x Hx Hne. split; [by apply winner_outranks|].
    rewrite Hm, Hlook by done. apply decide_True. unfold bids in Hx. rewrite Hperm in Hx.
    unfold chans. apply list_elem_of_fmap. exists x. set_solver.
  - rewrite Hm, Hlook by done. rewrite decide_False by done. apply Hfree. set_solver.
Qed.

Definition demo_bids : list op := [ORequest 0 0x31; ORequest 7 0x10; ORequest 8 0x71].

Lemma demo_bids_ok : Forall op_ok demo_bids.
Proof. unfold demo_bids, is_byte. repeat constructor; simpl; lia. Qed.

Lemma tryGrant_correct_witness :
  exists w a', tryGrant true (steps demo_bids newArbitrator) = (a', Some w) /\
    pendingExternal a' = [].
Proof.
  destruct (tryGrant_correct demo_bids demo_bids_ok) as (w & a' & H & _ & _ & _ & _ & He & _);
    [by vm_compute|by vm_compute|]. by exists w, a'.
Defined.

Example tryGrant_demo :
  snd (tryGrant true (steps demo_bids newArbitrator)) = Some 1%nat /\
  mail (fst (tryGrant true (steps demo_bids newArbitrator))) !! 2%nat = Some [lostResult 0x10].
Proof. by vm_compute. Qed.

(** A write guarded by the token of an ownership period runs exactly
    when no fence and no ownership transition happened since the grant, in
    whatever order the other operations came; otherwise it does not run and
    the error names the reason.  The counters are [uint64], so the period
    must be shorter than 2^64 operations. *)
Theorem ownership_commit_exact {S} (a0 : arbitrator) (sid ini : Z) (os : list op)
    (commit : S -> S * option arbError) (s : S) :
  len os < 2 ^ 64 ->
  let a := confirmOwnership sid ini a0 in
  exists tok, currentOwnershipToken sid a = Some tok /\
    commitWhileOwnershipCurrent tok commit s (steps os a) =
      (if existsb isFence os then (s, Some errOwnershipLifecycleFenced)
       else if touched os a then (s, Some errOwnershipChanged)
       else commit s) /\
    (touched os a = false -> currentOwnershipToken sid (steps os a) = Some tok).
Proof.
  intros Hlen a. exists (mkToken sid (ownershipGen a) (ownerEpoch a)).
  destruct (steps_move os a (ownershipGen a) (lifecycleEpoch a) 0) as [Hg He];
    rewrite ?dist64_same; try lia.
  split; [unfold currentOwnershipToken; simpl; by rewrite Z.eqb_refl|]. split.
  - unfold commitWhileOwnershipCurrent. change (ownerEpoch a) with (lifecycleEpoch a). cbn [tokEpoch tokGen tokSession].
    destruct (existsb isFence os) eqn:Hf.
    + destruct (Z.eqb_spec (lifecycleEpoch (steps os a)) (lifecycleEpoch a)) as [Heq|]; [|done].
      rewrite Heq, dist64_same in He. destruct (Z.lt_irrefl 0). auto.
    + rewrite (steps_unfenced os a Hf), Z.eqb_refl. cbn [negb].
      destruct (touched os a) eqn:Ht.
      * destruct (Z.eqb_spec (ownershipGen (steps os a)) (ownershipGen a)) as [Heq|].
        { rewrite Heq, dist64_same in Hg. destruct (Z.lt_irrefl 0). auto. }
        cbn [negb]. by rewrite orb_true_r.
      * destruct (steps_untouched os a Ht) as (-> & _ & -> & ->). simpl.
        by rewrite !Z.eqb_refl.
  - intros Ht. unfold currentOwnershipToken.
    destruct (steps_untouched os a Ht) as (-> & -> & -> & ->). simpl. by rewrite Z.eqb_refl.
Qed.

Definition demo_commit (n : nat) : nat * option arbError := (Datatypes.S n, None).

Lemma ownership_commit_exact_witness :
  exists tok, currentOwnershipToken 7 (confirmOwnership 7 0x10 newArbitrator) = Some tok /\
    commitWhileOwnershipCurrent tok demo_commit 0%nat
      (steps [ORequest 8 0x71; ORelease 8] (confirmOwnership 7 0x10 newArbitrator)) =
    (1%nat, None).
Proof.
  destruct (ownership_commit_exact newArbitrator 7 0x10 [ORequest 8 0x71; ORelease 8]
    demo_commit 0%nat) as (tok & Ht & Hc & _); [simpl; lia|].
  exists tok. split; [exact Ht|]. by rewrite Hc.
Defined.
End Arbitration.
