(* ===== verification/ArbitrationDuty.v ===== *)
(** * Who owes a bid its result

    The lock sections of [internal/adaptermux/arbitration.go] one by one, in
    any order, as the goroutines of the mux interleave them.  Selecting at a
    SYN takes bids out of the arbitrator before they have a result: the
    winner is then settled by the START it began (in [mux.go], not modelled
    here), the external losers by the loop that follows the selection, and
    the losing gateway bid stays registered as deferred until
    [takeDeferredGatewayLoser] hands it to whoever settles the START.  The
    state records which requests are in those hands. *)

From S2P Require Import Prelude Arbitration.

Module ArbitrationDuty.
Import Arbitration.

(** The arbitrator, the requests whose result some goroutine has taken over
    to send, and the requests selected as winners. *)
Record duty := mkDuty { arb : arbitrator; owed : list reqId; won : list reqId }.
Definition newDuty : duty := mkDuty newArbitrator [] [].

(** [expireGatewayAdmission]: the timer of a gateway bid, which knows the bid
    by its channel. *)
Definition expireGatewayAdmission (ch : chan) (a : arbitrator) : arbitrator :=
  let its id := bool_decide (notify (req a id) = ch) in
  let expire id b := send id (failedResult (initiator (req a id)) errGatewayAdmission) b in
  let deferred :=
    match deferredGatewayLoser a with
    | Some d => if its d then expire d (set_bids (pendingGateway a) None (pendingExternal a) a) else a
    | None => a
    end in
  match pendingGateway a with
  | Some g => if its g then expire g (set_bids None (deferredGatewayLoser a) (pendingExternal a) a) else deferred
  | None => deferred
  end.

(** The sections.  [ASelect] is the selection of [tryGrantAndStartForBids];
    [ATell] is a send to a request in the caller's hands, by its loop over
    the external losers, by [settleLocalLosses] or by the deadline;
    [ATakeDeferred] is how the last two take the deferred loser.
    [removeSession] is [ACancel] and then [ARelease]. *)
Inductive act :=
| ARequest (sid : Z) (ini : byte)
| ACancel (sid : Z)
| ASelect (busIdle : bool) (bids : option (gmap nat chan))
| ATakeDeferred (r : option reqId)
| ATell (id : reqId) (res : startResult)
| AExpire (ch : chan)
| AMarkInFlight (r : option reqId)
| AConfirm (sid : Z) (ini : byte)
| ARelease (sid : Z)
| AForceRelease
| AFence
| AFailAll (e : arbError).

Definition onArb (f : arbitrator -> arbitrator) (d : duty) : duty := mkDuty (f (arb d)) (owed d) (won d).

Definition dstep (x : act) (d : duty) : duty :=
  match x with
  | ARequest sid ini => onArb (fun a => fst (requestStart sid ini a)) d
  | ACancel sid => onArb (fun a => fst (cancelStart sid a)) d
  | ASelect idle bids =>
      let '(a, w, losers) := selectBidsAtSYN idle bids (arb d) in
      mkDuty a (List.filter (fun id => negb (sessionID (req a id) =? gatewaySessionID)) losers ++ owed d)
        (option_list w ++ won d)
  | ATakeDeferred r =>
      let '(a, taken) := takeDeferredGatewayLoser r (arb d) in
      mkDuty a (if taken then option_list r ++ owed d else owed d) (won d)
  | ATell id res =>
      if bool_decide (id ∈ owed d)
      then mkDuty (send id res (arb d)) (List.filter (fun j => negb (bool_decide (j = id))) (owed d)) (won d)
      else d
  | AExpire ch => onArb (expireGatewayAdmission ch) d
  | AMarkInFlight r => onArb (fun a => fst (markInFlightCancelled r a)) d
  | AConfirm sid ini => onArb (confirmOwnership sid ini) d
  | ARelease sid => onArb (releaseOwnership sid) d
  | AForceRelease => onArb forceRelease d
  | AFence => onArb fenceLifecycle d
  | AFailAll e => onArb (failAllPending e) d
  end.
Definition dsteps (xs : list act) (d : duty) : duty := fold_left (fun d x => dstep x d) xs d.

(** Session identifiers are [uint64] and initiators are bytes. *)
Definition act_ok (x : act) : Prop :=
  match x with ARequest sid ini => 0 <= sid < 2 ^ 64 /\ is_byte ini | _ => True end.

(** The channels whose bid waits in the arbitrator, and those whose request
    is in somebody's hands. *)
Definition waiting (a : arbitrator) : list chan := chans a (bidsOf a).
Definition inHands (d : duty) : list chan := chans (arb d) (owed d ++ won d).

(** ** Bookkeeping of the channels *)

Definition sendEach (rs : list (chan * startResult)) (m : gmap nat (list startResult)) :=
  fold_left (fun m cr => <[cr.1 := default [] (m !! cr.1) ++ [cr.2]]> m) rs m.

(** Every channel below [n] is listed or has a result. *)
Definition covered (m : gmap nat (list startResult)) (chs : list chan) (n : chan) : Prop :=
  forall ch, (ch < n)%nat -> ch ∈ chs \/ default [] (m !! ch) <> [].
Definition accounted (chs : list chan) (a : arbitrator) : Prop :=
  mail_ok (mail a) (chs ++ waiting a) (nextChan a) /\ covered (mail a) (chs ++ waiting a) (nextChan a).

(** What a section does to the channels: those waiting before, with the new
    ones [ins], got a result, went into somebody's hands ([outs]) or wait. *)
Definition trade (ins outs : list chan) (a a' : arbitrator) : Prop :=
  exists rs, ins ++ waiting a ≡ₚ rs.*1 ++ outs ++ waiting a' /\ mail a' = sendEach rs (mail a).

(** Requests that are no bid keep their channel. *)
Definition keeps (a a' : arbitrator) : Prop :=
  (nextReq a <= nextReq a')%nat /\
  forall id, (id < nextReq a)%nat -> id ∉ bidsOf a -> notify (req a' id) = notify (req a id).

Lemma mail_ok_sendEach rs m chs n : mail_ok m (rs.*1 ++ chs) n -> mail_ok (sendEach rs m) chs n.
Proof. revert m; induction rs as [|[c r] rs IH]; intros m H; [done|]. cbn. by apply IH, mail_ok_send. Qed.

Lemma covered_sendEach rs m chs n : covered m (rs.*1 ++ chs) n -> covered (sendEach rs m) chs n.
Proof.
  revert m; induction rs as [|[c r] rs IH]; intros m H; [done|]. cbn. apply IH. intros ch Hch.
  destruct (H ch Hch) as [Hin|Hm]; destruct (decide (c = ch)) as [->|Hne].
  - right. rewrite lookup_insert_eq. cbn. by destruct (default [] (m !! ch)).
  - left. cbn in Hin. set_solver.
  - right. rewrite lookup_insert_eq. cbn. by destruct (default [] (m !! ch)).
  - right. by rewrite lookup_insert_ne.
Qed.

Lemma covered_perm m chs chs' n : chs ≡ₚ chs' -> covered m chs n -> covered m chs' n.
Proof. intros Hp H ch Hch. destruct (H ch Hch); [left; by rewrite <- Hp|by right]. Qed.

Lemma trade_accounted outs chs a a' :
  accounted chs a -> trade [] outs a a' -> nextChan a' = nextChan a -> accounted (outs ++ chs) a'.
Proof.
  intros [Hm Hc] (rs & Hp & Hmail) Hn. unfold accounted. rewrite Hn, Hmail. cbn in Hp.
  assert (Hq : chs ++ waiting a ≡ₚ rs.*1 ++ (outs ++ chs) ++ waiting a') by (rewrite Hp; solve_Permutation).
  split; [apply mail_ok_sendEach|apply covered_sendEach]; [by eapply mail_ok_perm|by eapply covered_perm].
Qed.

Lemma trade_fresh chs a a' :
  accounted chs a -> trade [nextChan a] [] a a' -> nextChan a' = S (nextChan a) -> accounted chs a'.
Proof.
  intros [Hm Hc] (rs & Hp & Hmail) Hn. unfold accounted. rewrite Hn, Hmail.
  assert (Hq : nextChan a :: chs ++ waiting a ≡ₚ rs.*1 ++ chs ++ waiting a').
  { change (nextChan a :: chs ++ waiting a) with ([nextChan a] ++ chs ++ waiting a).
    rewrite app_assoc, (Permutation_app_comm _ chs), <- app_assoc, Hp. cbn. solve_Permutation. }
  split; [apply mail_ok_sendEach; eapply mail_ok_perm; [done|by apply mail_ok_fresh]|].
  apply covered_sendEach. eapply covered_perm; [done|]. intros ch Hch.
  destruct (decide (ch = nextChan a)) as [->|]; [left; set_solver|].
  destruct (Hc ch ltac:(lia)) as [?|?]; [left; set_solver|by right].
Qed.

(** ** The sections *)

Lemma chans_same a a' l : (forall id, id ∈ l -> notify (req a' id) = notify (req a id)) -> chans a' l = chans a l.
Proof. intros H. apply list_fmap_ext. intros i x Hx. apply H. by eapply list_elem_of_lookup_2. Qed.

(** Nothing moves. *)
Lemma trade_same a a' :
  (forall id, notify (req a' id) = notify (req a id)) -> bidsOf a' = bidsOf a -> mail a' = mail a -> trade [] [] a a'.
Proof. intros Hn Hb Hm. exists []. split; [|done]. unfold waiting. by rewrite Hb, (chans_same a a'). Qed.

(** Bids leave, each with its result. *)
Lemma trade_resolve a a' ids (res : reqId -> startResult) :
  (forall id, notify (req a' id) = notify (req a id)) -> bidsOf a ≡ₚ ids ++ bidsOf a' ->
  mail a' = sendEach ((fun id => (notify (req a id), res id)) <$> ids) (mail a) -> trade [] [] a a'.
Proof.
  intros Hn Hb Hm. exists ((fun id => (notify (req a id), res id)) <$> ids). split; [|done].
  unfold waiting. rewrite (chans_same a a') by done. rewrite Hb, <- list_fmap_compose. unfold chans. by rewrite fmap_app.
Qed.

(** Bids leave without one. *)
Lemma trade_handover a a' ids :
  reqs a' = reqs a -> mail a' = mail a -> bidsOf a ≡ₚ ids ++ bidsOf a' -> trade [] (chans a' ids) a a'.
Proof.
  intros Hr Hm Hb. exists []. split; [|done]. unfold waiting.
  assert (Hn : forall id, notify (req a' id) = notify (req a id)) by (intros id; unfold req; by rewrite Hr).
  rewrite !(chans_same a a') by done. rewrite Hb. unfold chans. by rewrite fmap_app.
Qed.

Lemma keeps_all a a' : nextReq a' = nextReq a -> (forall id, notify (req a' id) = notify (req a id)) -> keeps a a'.
Proof. intros Hn H. split; [lia|]. intros id _ _. apply H. Qed.

(** A section that allocates nothing. *)
Definition quiet (outs : list chan) (a a' : arbitrator) : Prop :=
  trade [] outs a a' /\ keeps a a' /\ nextChan a' = nextChan a.

Lemma cancelBid_notify id a j : notify (req (cancelBid id a) j) = notify (req a j).
Proof. apply (same_req_cancelBid id a j). Qed.

Lemma resolve_one a a' id r :
  (forall j, notify (req a' j) = notify (req a j)) -> nextReq a' = nextReq a -> nextChan a' = nextChan a ->
  mail a' = mail (send id r a) -> bidsOf a ≡ₚ id :: bidsOf a' -> quiet [] a a'.
Proof.
  intros Hs Hr Hc Hm Hb. split_and!; [|by apply keeps_all|done]. by apply (trade_resolve a a' [id] (fun _ => r)).
Qed.

Lemma take_perm a i id :
  pendingExternal a !! i = Some id ->
  bidsOf a ≡ₚ id :: option_list (pendingGateway a) ++ option_list (deferredGatewayLoser a) ++ delete i (pendingExternal a).
Proof. intros Hi. unfold bidsOf. rewrite (delete_Permutation _ _ _ Hi) at 1. solve_Permutation. Qed.

Lemma quiet_same a a' :
  (forall id, notify (req a' id) = notify (req a id)) -> bidsOf a' = bidsOf a -> mail a' = mail a ->
  nextReq a' = nextReq a -> nextChan a' = nextChan a -> quiet [] a a'.
Proof. intros. split_and!; [by apply trade_same|by apply keeps_all|done]. Qed.

Lemma cancelStart_quiet sid a : quiet [] a (fst (cancelStart sid a)).
Proof.
  unfold cancelStart. repeat case_match; simplify_eq/=; try (by apply quiet_same).
  - apply (resolve_one _ _ n (cancelledResult (initiator (req a n))));
      [intros j; apply cancelBid_notify|done|done|apply mail_cancelBid|]. unfold bidsOf. cbn. by rewrite H0.
  - apply (resolve_one _ _ n (cancelledResult (initiator (req a n))));
      [intros j; apply (cancelBid_notify n (set_bids None None (pendingExternal a) a))|done|done
      |apply (mail_cancelBid n (set_bids None None (pendingExternal a) a))|]. unfold bidsOf. cbn. by rewrite H0, H1.
  - apply findSession_Some in H0 as [Hi _].
    apply (resolve_one _ _ n0 (cancelledResult (initiator (req a n0))));
      [intros j; apply cancelBid_notify|done|done|apply mail_cancelBid|exact (take_perm a n n0 Hi)].
Qed.

Lemma expire_quiet ch a : quiet [] a (expireGatewayAdmission ch a).
Proof.
  unfold expireGatewayAdmission. repeat case_match; simplify_eq/=; try (by apply quiet_same);
    (eapply resolve_one; [done|done|done|reflexivity|]; unfold bidsOf; cbn; repeat match goal with E : _ = Some _ |- _ => rewrite E | E : _ = None |- _ => rewrite E end; cbn; solve_Permutation).
Qed.

(** A bid on a new channel. *)
Definition fresh (a a' : arbitrator) : Prop :=
  trade [nextChan a] [] a a' /\ keeps a a' /\ nextChan a' = S (nextChan a).

Lemma fresh_bid sid ini a a' ids (res : reqId -> startResult) :
  let a1 := fst (fst (alloc sid ini a)) in
  inv a -> (forall j, notify (req a' j) = notify (req a1 j)) -> nextReq a' = S (nextReq a) -> nextChan a' = S (nextChan a) ->
  nextReq a :: bidsOf a ≡ₚ ids ++ bidsOf a' ->
  mail a' = sendEach ((fun id => (notify (req a1 id), res id)) <$> ids) (mail a) -> fresh a a'.
Proof.
  intros a1 Hinv Hn Hr Hc Hb Hm. pose proof Hinv as (_ & _ & Hlt & _). rewrite Forall_forall in Hlt.
  assert (Ho : forall id, (id < nextReq a)%nat -> notify (req a1 id) = notify (req a id))
    by (intros id Hid; by apply (same_req_alloc sid ini a id)).
  split_and!; [|split; [lia|intros id Hid _; by rewrite Hn, Ho]|done].
  exists ((fun id => (notify (req a1 id), res id)) <$> ids). split; [|done].
  rewrite <- list_fmap_compose. unfold waiting. rewrite (chans_same a1 a') by done.
  rewrite <- (chans_same a a1) by (intros id Hid; by apply Ho, Hlt).
  transitivity (chans a1 (nextReq a :: bidsOf a)); [|rewrite Hb; unfold chans; by rewrite fmap_app].
  unfold chans. rewrite fmap_cons. unfold a1 at 2. by rewrite req_alloc_new.
Qed.

(** A bid again from the same address. *)
Lemma fresh_rebid sid ini a i old r :
  let a1 := fst (fst (alloc sid ini a)) in
  inv a -> pendingExternal a !! i = Some old ->
  fresh a (set_req old (mkReq (sessionID (req a1 old)) (initiator (req a1 old)) (nextChan a) (cancelled (req a1 old))) (send old r a1)).
Proof.
  intros a1 Hinv Hi. pose proof Hinv as (_ & Hnd & Hlt & _). rewrite Forall_forall in Hlt.
  assert (Ho : forall id, (id < nextReq a)%nat -> notify (req a1 id) = notify (req a id))
    by (intros id Hid; by apply (same_req_alloc sid ini a id)).
  assert (Hob : old ∈ bidsOf a) by (unfold bidsOf; apply list_elem_of_lookup_2 in Hi; set_solver).
  set (a' := set_req old _ _).
  assert (Hn : forall id, (id < nextReq a)%nat -> notify (req a' id) = if decide (old = id) then nextChan a else notify (req a id)).
  { intros id Hid. unfold a'. rewrite req_set_req. case_decide; [done|]. rewrite req_send. by apply Ho. }
  split_and!; [|split; [cbn; lia|]|done].
  - exists [(notify (req a old), r)]. split; [|rewrite <- (Ho old) by auto; reflexivity]. unfold waiting.
    change (bidsOf a') with (bidsOf a). pose proof (take_perm a i old Hi) as Hp. set (rest := option_list (pendingGateway a) ++ _) in Hp.
    assert (Hin : forall id, id ∈ old :: rest -> (id < nextReq a)%nat) by (intros id Hid; apply Hlt; by rewrite Hp).
    rewrite Hp in Hnd |- *. apply NoDup_cons in Hnd as [Hnr _].
    unfold chans. rewrite !fmap_cons. rewrite (Hn old) by (apply Hin; set_solver). rewrite decide_True by done. cbn.
    rewrite (Permutation_swap (notify (req a old))). f_equiv. f_equiv.
    symmetry. apply reflexive_eq, (chans_same a a' rest). intros id Hid. rewrite Hn by (apply Hin; set_solver). rewrite decide_False; [done|]. by intros ->.
  - intros id Hid Hb. rewrite Hn by done. rewrite decide_False; [done|]. by intros ->.
Qed.

Lemma requestStart_fresh sid ini a : inv a -> fresh a (fst (requestStart sid ini a)).
Proof.
  intros Hinv. pose proof Hinv as (_ & _ & Hlt & Hx & _).
  unfold requestStart. destruct (alloc sid ini a) as [[a1 new] ch] eqn:Hal.
  assert (new = nextReq a /\ ch = nextChan a /\ a1 = fst (fst (alloc sid ini a))) as (-> & -> & ->)
    by (rewrite Hal; unfold alloc in Hal; by simplify_eq).
  clear Hal. destruct (sid =? gatewaySessionID).
  - set (a1 := fst (fst (alloc sid ini a))).
    change (pendingGateway a1) with (pendingGateway a). destruct (pendingGateway a) as [g|] eqn:Hg.
    + assert (Hd : deferredGatewayLoser a = None) by (by apply Hx).
      change (deferredGatewayLoser (cancelBid g a1)) with (deferredGatewayLoser a). rewrite Hd. cbn [fst].
      apply (fresh_bid sid ini a _ [g] (fun _ => cancelledResult (initiator (req a1 g)))); try done.
      * intros j. apply (cancelBid_notify g a1 j).
      * unfold bidsOf. cbn. rewrite Hg, Hd. cbn. apply Permutation_swap.
      * apply (mail_cancelBid g a1).
    + change (deferredGatewayLoser a1) with (deferredGatewayLoser a). destruct (deferredGatewayLoser a) as [d|] eqn:Hd; cbn [fst].
      * apply (fresh_bid sid ini a _ [d] (fun _ => cancelledResult (initiator (req a1 d)))); try done.
        -- intros j. apply (cancelBid_notify d (set_bids None None (pendingExternal a1) a1) j).
        -- unfold bidsOf. cbn. rewrite Hg, Hd. cbn. apply Permutation_swap.
        -- apply (mail_cancelBid d (set_bids None None (pendingExternal a1) a1)).
      * apply (fresh_bid sid ini a _ [] (fun _ => cancelledResult 0)); try done. unfold bidsOf. cbn. by rewrite Hg, Hd.
  - set (a1 := fst (fst (alloc sid ini a))). destruct (findSession a1 sid (pendingExternal a1)) as [[i old]|] eqn:Hf.
    + apply findSession_Some in Hf as [Hi _]. change (pendingExternal a1) with (pendingExternal a) in Hi.
      destruct (initiator (req a1 old) =? ini); cbn [fst]; [by apply (fresh_rebid sid ini a i)|].
      apply (fresh_bid sid ini a _ [old] (fun _ => cancelledResult (initiator (req a1 old)))); try done.
      * intros j. apply (cancelReq_fields old (send old (cancelledResult (initiator (req a1 old))) a1) j).
      * unfold bidsOf. cbn. rewrite (insert_delete_perm _ _ _ (nextReq a) Hi), (delete_Permutation _ _ _ Hi) at 1. solve_Permutation.
    + cbn [fst]. apply (fresh_bid sid ini a _ [] (fun _ => cancelledResult 0)); try done. unfold bidsOf. cbn. solve_Permutation.
Qed.

(** The losers that are not the gateway's. *)
Lemma external_losers a (f : nat -> bool) gw ext :
  inv a -> gw ⊆ option_list (pendingGateway a) -> ext ⊆ pendingExternal a ->
  List.filter (fun id => negb (sessionID (req a id) =? gatewaySessionID)) (List.filter f (gw ++ ext)) = List.filter f ext.
Proof.
  intros (_ & _ & _ & _ & Hgd & He & _) Hgw Hext. unfold sess in *. rewrite Forall_forall in Hgd, He.
  rewrite !List.filter_app, (filter_nil _ (List.filter f gw)); cbn.
  - apply filter_all. intros x [Hx _]%elem_of_filterb. apply negb_true_iff, Z.eqb_neq, He, list_elem_of_fmap.
    exists x. set_solver.
  - intros x [Hx _]%elem_of_filterb. apply negb_false_iff, Z.eqb_eq, Hgd, list_elem_of_fmap. exists x. set_solver.
Qed.

Lemma select_quiet idle bids a :
  inv a -> let '(a', w, losers) := selectBidsAtSYN idle bids a in
  let out := option_list w ++ List.filter (fun id => negb (sessionID (req a' id) =? gatewaySessionID)) losers in
  quiet (chans a' out) a a' /\ reqs a' = reqs a /\ nextReq a' = nextReq a /\ out ⊆ bidsOf a.
Proof.
  intros Hinv. unfold selectBidsAtSYN. destruct (hasOwner a || negb idle).
  { split_and!; [by apply quiet_same|done..|set_solver]. }
  set (el := eligible bids a). set (gw := List.filter el (option_list (pendingGateway a))).
  set (ext := List.filter el (pendingExternal a)).
  assert (Hgs : gw ⊆ option_list (pendingGateway a)) by (intros x; unfold gw; rewrite elem_of_filterb; naive_solver).
  assert (Hes : ext ⊆ pendingExternal a) by (intros x; unfold ext; rewrite elem_of_filterb; naive_solver).
  destruct (pickWinner a (head gw) ext) as [w|] eqn:Hw.
  2:{ split_and!; [by apply quiet_same|done..|set_solver]. }
  rewrite (gateway_losers a _ gw ext) by done. set (a' := set_bids _ _ _ a). cbv zeta.
  change (req a') with (req a). rewrite (external_losers a _ gw ext) by done.
  pose proof Hinv as (_ & Hnd & _ & Hx & _). pose proof (pickWinner_in _ _ _ _ Hw) as Hin.
  pose proof (filter_perm el (pendingExternal a)) as Hext. fold ext in Hext.
  assert (Hne : NoDup ext) by (eapply sublist_NoDup; [|apply filter_sublist]; unfold bidsOf in Hnd; rewrite app_assoc in Hnd; by apply NoDup_app in Hnd as (_ & _ & ?)).
  set (f := fun id => negb (bool_decide (id = w))).
  assert (Hp : bidsOf a ≡ₚ (w :: List.filter f ext) ++ bidsOf a').
  { assert (Hwe : w ∈ ext -> pendingExternal a ≡ₚ w :: List.filter f ext ++ List.filter (fun x => negb (el x)) (pendingExternal a))
      by (intros Hwe; rewrite Hext at 1; rewrite (filter_out_perm w ext) at 1 by done; done).
    unfold bidsOf, a'. cbn. unfold bidsOf in Hnd. revert Hext Hwe.
    generalize (List.filter (fun x => negb (el x)) (pendingExternal a)) as rest. intros rest Hext Hwe.
    destruct (pendingGateway a) as [g|] eqn:Hg; cbn in gw, Hnd; [rewrite (Hx ltac:(done)) in *|]; cbn in Hnd.
    - apply NoDup_cons in Hnd as [Hgn _]. destruct (el g) eqn:Heg; subst gw; cbn in *.
      + destruct (bool_decide_reflect (g = w)) as [->|Hne']; cbn.
        * rewrite (filter_all f ext), Hext; [done|]. intros x Hx'. unfold f. rewrite bool_decide_eq_false_2; [done|].
          intros ->. by apply Hgn, Hes.
        * rewrite Hwe by set_solver. solve_Permutation.
      + rewrite Hwe by done. solve_Permutation.
    - subst gw. cbn in *. rewrite Hwe by done. solve_Permutation. }
  split_and!; [|done|done|intros x; rewrite Hp; set_solver].
  split_and!; [by apply trade_handover|by apply keeps_all|done].
Qed.

Lemma takeDeferred_quiet r a :
  let '(a', taken) := takeDeferredGatewayLoser r a in
  let out := if taken then option_list r else [] in
  quiet (chans a' out) a a' /\ reqs a' = reqs a /\ nextReq a' = nextReq a /\ out ⊆ bidsOf a.
Proof.
  destruct r as [id|]; cbn; [case_bool_decide as Hd|]; try (split_and!; [by apply quiet_same|done..|set_solver]).
  assert (Hp : bidsOf a ≡ₚ [id] ++ bidsOf (set_bids (pendingGateway a) None (pendingExternal a) a))
    by (unfold bidsOf; cbn; rewrite Hd; cbn; solve_Permutation).
  split_and!; [|done|done|intros x; rewrite Hp; set_solver].
  split_and!; [by apply trade_handover|by apply keeps_all|done].
Qed.

Lemma failList_mail e l a :
  let b := fold_left (failBid e) l a in
  mail b = sendEach ((fun id => (notify (req a id), failedResult (initiator (req a id)) e)) <$> l) (mail a) /\
  reqs b = reqs a /\ nextReq b = nextReq a /\ nextChan b = nextChan a /\
  pendingGateway b = pendingGateway a /\ deferredGatewayLoser b = deferredGatewayLoser a.
Proof.
  revert a; induction l as [|x l IH]; intros a; [done|]. cbn [fold_left].
  destruct (IH (failBid e a x)) as (Hm & Hr & ?). cbv zeta in *. split_and!; tauto.
Qed.

Lemma failAll_quiet e a : quiet [] a (failAllPending e a).
Proof.
  assert (Hres : forall b, reqs b = reqs a -> nextReq b = nextReq a -> nextChan b = nextChan a ->
    pendingGateway b = None -> deferredGatewayLoser b = None -> pendingExternal b = pendingExternal a ->
    mail b = sendEach ((fun id => (notify (req a id), failedResult (initiator (req a id)) e)) <$>
      (option_list (pendingGateway a) ++ option_list (deferredGatewayLoser a))) (mail a) ->
    let c := fold_left (failBid e) (pendingExternal b) b in
    quiet [] a (set_bids (pendingGateway c) (deferredGatewayLoser c) [] c)).
  { intros b Hr Hn Hc Hg Hd He Hm c. destruct (failList_mail e (pendingExternal b) b) as (Cm & Cr & Cn & Cc & Cg & Cd). fold c in Cm, Cr, Cn, Cc, Cg, Cd.
    assert (Hq : forall id, req c id = req a id) by (intros id; unfold req; by rewrite Cr, Hr).
    assert (Hk : forall id, notify (req c id) = notify (req a id)) by (intros id; by rewrite Hq).
    split_and!; [|apply keeps_all; [cbn; congruence|done]|cbn; congruence].
    apply (trade_resolve _ _ (bidsOf a) (fun id => failedResult (initiator (req a id)) e)); [done| |].
    - unfold bidsOf at 3. cbn. rewrite Cg, Cd, Hg, Hd. by rewrite app_nil_r.
    - cbn. rewrite Cm, Hm, He. unfold bidsOf. rewrite !fmap_app. unfold sendEach. rewrite !fold_left_app.
      f_equal. apply list_fmap_ext. intros i x _. unfold req. by rewrite Hr. }
  unfold failAllPending. destruct (pendingGateway a) as [g|] eqn:Hg; cbn.
  - destruct (deferredGatewayLoser a) as [d|] eqn:Hd; apply Hres; cbn; rewrite ?Hg, ?Hd; done.
  - destruct (deferredGatewayLoser a) as [d|] eqn:Hd; apply Hres; cbn; rewrite ?Hg, ?Hd; done.
Qed.

(** ** The invariant *)

Record dInv (d : duty) : Prop := {
  di_inv : inv (arb d);
  di_acc : accounted (inHands d) (arb d);
  di_lt : Forall (fun id => (id < nextReq (arb d))%nat) (owed d ++ won d)
}.

Lemma hands_stable d a' : dInv d -> keeps (arb d) a' -> chans a' (owed d ++ won d) = inHands d.
Proof.
  intros [_ [(Hnd & _) _] Hlt] [_ Hk]. rewrite Forall_forall in Hlt. apply chans_same. intros id Hid. apply Hk; [by apply Hlt|].
  intros Hb. apply NoDup_app in Hnd as (_ & Hnd & _). apply (Hnd (notify (req (arb d) id))); unfold inHands, waiting, chans;
    by apply (list_elem_of_fmap_2 (fun id => notify (req (arb d) id))).
Qed.

(** A section that hands out [out]. *)
Lemma dInv_handover d a' o' w' out :
  dInv d -> inv a' -> quiet (chans a' out) (arb d) a' -> out ⊆ bidsOf (arb d) -> o' ++ w' ≡ₚ out ++ owed d ++ won d ->
  dInv (mkDuty a' o' w').
Proof.
  intros Hd Hi (Ht & Hk & Hc) Hout Hp. pose proof (di_inv _ Hd) as (_ & _ & Hb & _). rewrite Forall_forall in Hb.
  constructor; cbn; [done| |].
  - pose proof (trade_accounted _ _ _ _ (di_acc _ Hd) Ht Hc) as Ha. rewrite <- (hands_stable d a') in Ha by done.
    unfold inHands. cbn. unfold chans in Ha |- *. rewrite <- fmap_app in Ha. destruct Ha as [Hm Hv].
    split; [eapply mail_ok_perm; [|done]|eapply covered_perm; [|done]]; by rewrite Hp.
  - rewrite Hp. destruct Hk as [Hk _]. rewrite Forall_forall. intros id [Hid|Hid]%elem_of_app; [apply Hout, Hb in Hid; lia|].
    pose proof (di_lt _ Hd) as Hl. rewrite Forall_forall in Hl. apply Hl in Hid. lia.
Qed.
Lemma dInv_quiet d a' : dInv d -> inv a' -> quiet [] (arb d) a' -> dInv (onArb (fun _ => a') d).
Proof. intros Hd Hi Hq. apply (dInv_handover d a' (owed d) (won d) []); [done..|set_solver|done]. Qed.

Lemma dInv_fresh d a' : dInv d -> inv a' -> fresh (arb d) a' -> dInv (onArb (fun _ => a') d).
Proof.
  intros Hd Hi (Ht & Hk & Hc). constructor; cbn; [done| |].
  - change (accounted (chans a' (owed d ++ won d)) a'). rewrite (hands_stable d a') by done. by apply (trade_fresh _ (arb d)); [exact (di_acc _ Hd)|..].
  - eapply Forall_impl; [apply Hd|]. intros id Hid. destruct Hk as [Hk _]. cbn in *. lia.
Qed.

Lemma dInv_tell d id res :
  dInv d -> id ∈ owed d ->
  dInv (mkDuty (send id res (arb d)) (List.filter (fun j => negb (bool_decide (j = id))) (owed d)) (won d)).
Proof.
  intros [Hi [Hm Hv] Hlt] Hid. pose proof Hm as (Hnd & _).
  assert (Hno : NoDup (owed d)).
  { unfold inHands, chans in Hnd. apply NoDup_app in Hnd as (Hnd & _ & _). apply NoDup_fmap_1 in Hnd. by apply NoDup_app in Hnd as (? & _). }
  pose proof (filter_out_perm id (owed d) Hno Hid) as Hp. set (o' := List.filter _ (owed d)) in *.
  set (a' := send id res (arb d)). set (c := notify (req (arb d) id)).
  assert (Hq : inHands d ++ waiting (arb d) ≡ₚ c :: chans a' (o' ++ won d) ++ waiting a').
  { unfold inHands, chans. rewrite Hp. done. }
  assert (Hm' : mail_ok (mail a') (chans a' (o' ++ won d) ++ waiting a') (nextChan a')).
  { apply mail_ok_send. by eapply mail_ok_perm. }
  constructor; cbn; [|split; [done|]|].
  - destruct Hi as (_ & Hi). split; [|exact Hi]. by apply mail_ok_drop in Hm'.
  - apply (covered_sendEach [(c, res)]). by eapply covered_perm.
  - rewrite Hp in Hlt. by apply Forall_cons in Hlt as [_ ?].
Qed.

Lemma inv_expire ch a : inv a -> inv (expireGatewayAdmission ch a).
Proof.
  intros Hinv. pose proof Hinv as (_ & _ & _ & Hx & _). unfold expireGatewayAdmission.
  repeat case_match; try done;
    (eapply (inv_resolve [] a); [done|done|done|done|reflexivity|..]; try done; unfold bidsOf; cbn;
     repeat match goal with E : _ = Some _ |- _ => rewrite E | E : _ = None |- _ => rewrite E end; cbn;
     try solve_Permutation; try apply submseteq_nil_l; solve_submseteq).
Qed.

Lemma dInv_step x d : act_ok x -> dInv d -> dInv (dstep x d).
Proof.
  intros Hok Hd. pose proof (di_inv _ Hd) as Hi. destruct x as [sid ini|sid|idle bids|r|id res|ch|r|sid ini|sid| | |e]; cbn [dstep].
  - apply (dInv_fresh d _ Hd (inv_step (ORequest sid ini) _ Hok Hi)), requestStart_fresh, Hi.
  - apply (dInv_quiet d _ Hd (inv_step (OCancel sid) _ I Hi)), cancelStart_quiet.
  - pose proof (inv_step (OSelect idle bids) _ I Hi) as Hi'. cbn in Hi'. pose proof (select_quiet idle bids (arb d) Hi) as Hq.
    destruct (selectBidsAtSYN idle bids (arb d)) as [[a' w] losers]. destruct Hq as (Hq & _ & _ & Hs).
    eapply dInv_handover; [done|done|exact Hq|exact Hs|]. solve_Permutation.
  - pose proof (inv_step (OTakeDeferred r) _ I Hi) as Hi'. cbn in Hi'. pose proof (takeDeferred_quiet r (arb d)) as Hq.
    destruct (takeDeferredGatewayLoser r (arb d)) as [a' taken]. destruct Hq as (Hq & _ & _ & Hs).
    eapply dInv_handover; [done|done|exact Hq|exact Hs|]. destruct taken; [by rewrite app_assoc|done].
  - case_bool_decide; [by apply dInv_tell|done].
  - apply (dInv_quiet d _ Hd (inv_expire ch _ Hi)), expire_quiet.
  - apply (dInv_quiet d _ Hd (inv_step (OMarkInFlight r) _ I Hi)). apply quiet_same; destruct r; try done. intros j. apply cancelReq_fields.
  - apply (dInv_quiet d _ Hd (inv_step (OConfirm sid ini) _ I Hi)). by apply quiet_same.
  - apply (dInv_quiet d _ Hd (inv_step (ORelease sid) _ I Hi)). cbn [step]; unfold releaseOwnership. destruct (hasOwner _ && _); by apply quiet_same.
  - apply (dInv_quiet d _ Hd (inv_step OForceRelease _ I Hi)). by apply quiet_same.
  - apply (dInv_quiet d _ Hd (inv_step OFence _ I Hi)). by apply quiet_same.
  - apply (dInv_quiet d _ Hd (inv_step (OFailAll e) _ I Hi)), failAll_quiet.
Qed.

Lemma dInv_steps xs d : Forall act_ok xs -> dInv d -> dInv (dsteps xs d).
Proof.
  revert d; induction xs as [|x xs IH]; intros d Hok Hd; [done|]. apply Forall_cons in Hok as [Hx Hok].
  apply (IH (dstep x d)); [done|by apply dInv_step].
Qed.

Lemma dInv_new : dInv newDuty.
Proof.
  constructor; [apply inv_new| |constructor]. split; [apply inv_new|]. intros ch Hch. cbn in Hch. lia.
Qed.

(** C9: however the lock sections of the arbitrator and the sends of the
    callers interleave, every channel that was ever handed to a bidder either
    has exactly one result and nobody holds its request any more, or has none
    and is held exactly once: by the arbitrator, by the one caller that has
    taken over sending its result, or as the winner of a selection, to which
    nothing but the START it began sends (that send is outside the model).  The
    gateway has at most one bid in the arbitrator, pending or deferred, and
    every other session at most one; a new bid gets a channel of its own. *)
Theorem one_result_per_bid (xs : list act) :
  Forall act_ok xs ->
  let d := dsteps xs newDuty in
  let a := arb d in
  let held := chans a (owed d ++ won d ++ bidsOf a) in
  (forall ch, (ch < nextChan a)%nat ->
     (exists r, mail a !! ch = Some [r]) /\ ch ∉ held \/ mail a !! ch = None /\ ch ∈ held) /\
  NoDup held /\
  (pendingGateway a <> None -> deferredGatewayLoser a = None) /\
  NoDup (sess a (pendingExternal a)) /\
  Forall (fun sid => sid <> gatewaySessionID) (sess a (pendingExternal a)) /\
  (forall sid ini, snd (requestStart sid ini a) = nextChan a).
Proof.
  intros Hok d a held. destruct (dInv_steps xs newDuty Hok dInv_new) as [Hi [Hm Hv] _]. fold d a in Hi, Hm, Hv.
  assert (Hh : inHands d ++ waiting a = held) by (unfold inHands, waiting, held, chans; by rewrite <- fmap_app, <- app_assoc).
  rewrite Hh in Hm, Hv. destruct Hm as (Hnd & Hin & H1 & _). destruct Hi as (_ & _ & _ & Hx & _ & He & Hse & _).
  split_and!; try done.
  - intros ch Hch. destruct (decide (ch ∈ held)) as [Hc|Hc]; [right; split; [by apply Hin|done]|left].
    split; [|done]. destruct (Hv ch Hch) as [?|Hl]; [done|]. specialize (H1 ch).
    destruct (mail a !! ch) as [[|r [|]]|]; cbn in H1, Hl; [done|by exists r|lia|done].
  - intros sid ini. unfold requestStart, alloc. repeat case_match; by simplify_eq.
Qed.

(** Two external bidders and the gateway: the gateway loses and is deferred,
    the external loser is told, the gateway bids again before its loss is
    settled (so [takeDeferredGatewayLoser] no longer yields it), and the
    reset fails the new bid. *)
Definition demo_acts : list act :=
  [ARequest 0 0x31; ARequest 7 0x10; ARequest 8 0x71; ASelect true None; ATell 2 (lostResult 0x10);
   ARequest 0 0x31; ATakeDeferred (Some 0%nat); ATell 0 (lostResult 0x10); AFailAll (errLifecycle "adapter reset")].

Lemma one_result_per_bid_witness :
  let d := dsteps demo_acts newDuty in
  (exists r, mail (arb d) !! 0%nat = Some [r]) /\ mail (arb d) !! 1%nat = None /\ won d = [1%nat].
Proof.
  destruct (one_result_per_bid demo_acts) as (H & _).
  { unfold demo_acts, is_byte. repeat constructor; simpl; lia. }
  split; [|split; vm_compute; reflexivity].
  destruct (H 0%nat) as [[Hr _]|[Hr _]]; [vm_compute; lia|exact Hr|vm_compute in Hr; discriminate].
Defined.

(** [tryGrant] of [arbitration.go] sends to every loser without looking at
    what [takeDeferredGatewayLoser] answers.  When the gateway bids again
    between the selection and the loop, the deferred loser has its result
    already and gets a second one; the channel has room for one. *)
Example tryGrant_two_results :
  let bids := steps [ORequest 0 0x31; ORequest 7 0x10] newArbitrator in
  let '(a, w, losers) := selectBidsAtSYN true None bids in
  let a := fst (requestStart 0 0x31 a) in
  mail (tellLosers (default 0%nat w) losers a) !! 0%nat = Some [cancelledResult 0x31; lostResult 0x10].
Proof. by vm_compute. Qed.

End ArbitrationDuty.
