(* ===== verification/PassiveTap.v ===== *)
(** * The passive bus tap

    Models [passive_bus_tap.go]: the byte-stuffing decoder, one iteration of
    [readLoop], the reconnect loop [run] with its status counters and
    back-off, and the [frameDecoder] of [wire_log.go], which decodes the same
    stuffing for the wire log.  The transport, the clock and the context are
    inputs; the calls of the consumer are the output. *)

From S2P Require Import Prelude Ebus.

Module PassiveTap.

(** ** Events and status *)

(** [PassiveTapEventKind]. *)
Inductive PassiveTapEventKind :=
| PassiveTapEventConnected
| PassiveTapEventDisconnected
| PassiveTapEventSymbol
| PassiveTapEventReset
| PassiveTapEventDecodeFault
| PassiveTapEventReadTimeout.

#[export] Instance PassiveTapEventKind_eq_dec : EqDecision PassiveTapEventKind.
Proof. solve_decision. Defined.

(** [PassiveEndpointState]. *)
Inductive PassiveEndpointState :=
| PassiveEndpointStateUnknown
| PassiveEndpointStateConnected
| PassiveEndpointStateTemporarilyDisconnected
| PassiveEndpointStateUnsupportedOrMisconfigured
| PassiveEndpointStateClosed.

(** The errors the tap reports or reads from the transport: a read timeout,
    the two context errors, the tap's own faults, anything else. *)
Inductive tapError :=
| ErrTimeout
| ErrCanceled
| ErrDeadlineExceeded
| ErrAbsence
| ErrInvalidEscape (raw : byte)
| ErrIncompleteEscape
| ErrTransport (why : string).

#[export] Instance tapError_eq_dec : EqDecision tapError.
Proof. solve_decision. Defined.

(** [errors.Is(err, ErrTimeout)]: the absence error wraps a timeout. *)
Definition isTimeout (e : tapError) : bool :=
  match e with ErrTimeout | ErrAbsence => true | _ => false end.
(** [errors.Is(err, context.Canceled) || errors.Is(err, context.DeadlineExceeded)]. *)
Definition isContextError (e : tapError) : bool :=
  match e with ErrCanceled | ErrDeadlineExceeded => true | _ => false end.

(** [PassiveTapEvent]. *)
Record PassiveTapEvent := mkTapEvent {
  Kind : PassiveTapEventKind;
  Symbol : byte;
  ObservedAt : time;
  Err : option tapError;
  WasEscaped : bool
}.

#[export] Instance PassiveTapEvent_eq_dec : EqDecision PassiveTapEvent.
Proof. solve_decision. Defined.

(** [PassiveTapStatus]; [LastError] keeps the error, not its text. *)
Record PassiveTapStatus := mkStatus {
  Connected : bool;
  EndpointState : PassiveEndpointState;
  LastError : option tapError;
  ConnectAttemptCount : Z;
  ConnectCount : Z;
  ConnectFailureCount : Z;
  DisconnectCount : Z;
  ResetCount : Z;
  DecodeFaultCount : Z;
  ObservedSymbolCount : Z;
  LastConnectAt : time;
  LastDisconnectAt : time;
  LastObservedSymbol : time
}.

(** The part of [Config] the tap reads, with the two transport predicates
    already evaluated. *)
Record TapConfig := mkTapConfig {
  decodeWireEscapes : bool;
  absenceDisconnect : bool;
  PassiveAbsenceThreshold : time;
  PassiveReconnectInitialDelay : time;
  PassiveReconnectMaxDelay : time
}.

(** [PassiveBusTap]: configuration, whether a transport is attached, status,
    and the events handed to the consumer so far. *)
Record PassiveBusTap := mkTap {
  cfg : TapConfig;
  transport : bool;
  status : PassiveTapStatus;
  emitted : list PassiveTapEvent
}.

(** The tap before its first [connect]. *)
Definition newTap (c : TapConfig) : PassiveBusTap :=
  mkTap c false
    (mkStatus false PassiveEndpointStateUnknown None 0 0 0 0 0 0 0 0 0 0) [].

Definition set_status (f : PassiveTapStatus -> PassiveTapStatus) (t : PassiveBusTap)
    : PassiveBusTap :=
  mkTap (cfg t) (transport t) (f (status t)) (emitted t).
Definition set_transport (b : bool) (t : PassiveBusTap) : PassiveBusTap :=
  mkTap (cfg t) b (status t) (emitted t).

(** [emit]; [now] is the clock it reads when the event carries no time. *)
Definition emit (now : time) (e : PassiveTapEvent) (t : PassiveBusTap) : PassiveBusTap :=
  let e' := if IsZero (ObservedAt e)
            then mkTapEvent (Kind e) (Symbol e) now (Err e) (WasEscaped e) else e in
  mkTap (cfg t) (transport t) (status t) (emitted t ++ [e']).

(** ** The record operations *)

(** [recordDisconnect]. *)
Definition recordDisconnect (now : time) (err : option tapError) (st : PassiveEndpointState)
    (t : PassiveBusTap) : PassiveBusTap :=
  emit now (mkTapEvent PassiveTapEventDisconnected 0 now err false)
    (set_status (fun s =>
       mkStatus false st err (ConnectAttemptCount s) (ConnectCount s) (ConnectFailureCount s)
         (incr64 (DisconnectCount s)) (ResetCount s) (DecodeFaultCount s)
         (ObservedSymbolCount s) (LastConnectAt s) now (LastObservedSymbol s)) t).

(** [recordReset]. *)
Definition recordReset (observedAt now : time) (t : PassiveBusTap) : PassiveBusTap :=
  emit now (mkTapEvent PassiveTapEventReset 0 observedAt None false)
    (set_status (fun s =>
       mkStatus (Connected s) (EndpointState s) (LastError s) (ConnectAttemptCount s)
         (ConnectCount s) (ConnectFailureCount s) (DisconnectCount s) (incr64 (ResetCount s))
         (DecodeFaultCount s) (ObservedSymbolCount s) (LastConnectAt s) (LastDisconnectAt s)
         (LastObservedSymbol s)) t).

(** [recordDecodeFault]. *)
Definition recordDecodeFault (now : time) (err : option tapError) (t : PassiveBusTap)
    : PassiveBusTap :=
  emit now (mkTapEvent PassiveTapEventDecodeFault 0 now err false)
    (set_status (fun s =>
       mkStatus (Connected s) (EndpointState s)
         (match err with Some _ => err | None => LastError s end) (ConnectAttemptCount s)
         (ConnectCount s) (ConnectFailureCount s) (DisconnectCount s) (ResetCount s)
         (incr64 (DecodeFaultCount s)) (ObservedSymbolCount s) (LastConnectAt s)
         (LastDisconnectAt s) (LastObservedSymbol s)) t).

(** [recordSymbol]. *)
Definition recordSymbol (observedAt : time) (t : PassiveBusTap) : PassiveBusTap :=
  set_status (fun s =>
    mkStatus (Connected s) (EndpointState s) (LastError s) (ConnectAttemptCount s)
      (ConnectCount s) (ConnectFailureCount s) (DisconnectCount s) (ResetCount s)
      (DecodeFaultCount s) (incr64 (ObservedSymbolCount s)) (LastConnectAt s)
      (LastDisconnectAt s) observedAt) t.

(** [markClosed]. *)
Definition markClosed (t : PassiveBusTap) : PassiveBusTap :=
  set_status (fun s =>
    mkStatus false PassiveEndpointStateClosed (LastError s) (ConnectAttemptCount s)
      (ConnectCount s) (ConnectFailureCount s) (DisconnectCount s) (ResetCount s)
      (DecodeFaultCount s) (ObservedSymbolCount s) (LastConnectAt s) (LastDisconnectAt s)
      (LastObservedSymbol s)) t.

(** [connect]; [dialErr] is what [resolvePassiveTransport] returned. *)
Definition connect (now : time) (dialErr : option tapError) (t : PassiveBusTap)
    : PassiveBusTap * option tapError :=
  let t1 := set_status (fun s =>
    mkStatus (Connected s) (EndpointState s) (LastError s) (incr64 (ConnectAttemptCount s))
      (ConnectCount s) (ConnectFailureCount s) (DisconnectCount s) (ResetCount s)
      (DecodeFaultCount s) (ObservedSymbolCount s) (LastConnectAt s) (LastDisconnectAt s)
      (LastObservedSymbol s)) t in
  match dialErr with
  | Some e =>
      (set_status (fun s =>
         mkStatus (Connected s) (EndpointState s) (Some e) (ConnectAttemptCount s)
           (ConnectCount s) (incr64 (ConnectFailureCount s)) (DisconnectCount s) (ResetCount s)
           (DecodeFaultCount s) (ObservedSymbolCount s) (LastConnectAt s) (LastDisconnectAt s)
           (LastObservedSymbol s)) t1, Some e)
  | None =>
      let t2 := set_status (fun s =>
        mkStatus true PassiveEndpointStateConnected None (ConnectAttemptCount s)
          (incr64 (ConnectCount s)) (ConnectFailureCount s) (DisconnectCount s) (ResetCount s)
          (DecodeFaultCount s) (ObservedSymbolCount s) now (LastDisconnectAt s)
          (LastObservedSymbol s)) (set_transport true t1) in
      (emit now (mkTapEvent PassiveTapEventConnected 0 now None false) t2, None)
  end.

(** ** The escape decoder *)

Section Decoder.
Context {P : EbusProtocol}.

(** The results of [push]: nothing yet, a decoded byte with its
    provenance, or an error. *)
Inductive pushResult :=
| NeedMore
| Decoded (b : byte) (wasEscaped : bool)
| PushError (e : tapError).

(** [passiveEscapeDecoder.push]; the state is the field [escape]. *)
Definition push (escape : bool) (raw : byte) : bool * pushResult :=
  if escape then
    (false,
     if raw =? 0x00 then Decoded SymbolEscape true
     else if raw =? 0x01 then Decoded SymbolSyn true
     else PushError (ErrInvalidEscape raw))
  else if raw =? SymbolEscape then (true, NeedMore)
  else (false, Decoded raw false).

(** ** The read loop *)

(** What one read returns: an error, a reset, an event of another kind or
    a byte with the upstream provenance flag; and the clock of the iteration, read up to twice. *)
Inductive readResult :=
| ReadErr (e : tapError)
| ReadReset
| ReadOther
| ReadByte (b : byte) (wasEscaped : bool).

Record loopState := mkLoop {
  escape : bool;
  lastSymbolAt : time
}.

(** One iteration of [readLoop] after its context check; the result is
    [Some err] when the loop returns. *)
Definition readStep (r : readResult) (now now' : time) (l : loopState) (t : PassiveBusTap)
    : loopState * PassiveBusTap * option tapError :=
  match r with
  | ReadErr e =>
      if isTimeout e then
        let t1 := emit now (mkTapEvent PassiveTapEventReadTimeout 0 now (Some e) false) t in
        if absenceDisconnect (cfg t) && (0 <? PassiveAbsenceThreshold (cfg t))
           && (PassiveAbsenceThreshold (cfg t) <=? now' - lastSymbolAt l)
        then (l, t1, Some ErrAbsence)
        else (l, t1, None)
      else if escape l then
        (mkLoop false (lastSymbolAt l), recordDecodeFault now (Some ErrIncompleteEscape) t,
         Some e)
      else (l, t, Some e)
  | ReadReset =>
      if decodeWireEscapes (cfg t) && escape l then
        (mkLoop false (lastSymbolAt l),
         recordReset now now' (recordDecodeFault now' (Some ErrIncompleteEscape) t), None)
      else (l, recordReset now now' t, None)
  | ReadOther => (l, t, None)
  | ReadByte b we =>
      let symbol sym w esc :=
        (mkLoop esc now,
         emit now' (mkTapEvent PassiveTapEventSymbol sym now None w) (recordSymbol now t),
         None) in
      if decodeWireEscapes (cfg t) then
        let '(esc, res) := push (escape l) b in
        match res with
        | PushError e => (mkLoop esc (lastSymbolAt l), recordDecodeFault now' (Some e) t, None)
        | NeedMore => (mkLoop esc (lastSymbolAt l), t, None)
        | Decoded sym w => symbol sym w esc
        end
      else symbol b we (escape l)
  end.

(** The inputs of one iteration: the context error, or a read. *)
Record readInput := mkRead { ctxErr : option tapError; rd : readResult; clk : time; clk' : time }.

(** [readLoop] over the transport's behaviour; when the given reads are
    used up the loop is still running ([None]). *)
Fixpoint readLoop_from (ins : list readInput) (l : loopState) (t : PassiveBusTap)
    : loopState * PassiveBusTap * option tapError :=
  match ins with
  | [] => (l, t, None)
  | i :: rest =>
      match ctxErr i with
      | Some e => (l, t, Some e)
      | None =>
          match readStep (rd i) (clk i) (clk' i) l t with
          | (l', t', Some e) => (l', t', Some e)
          | (l', t', None) => readLoop_from rest l' t'
          end
      end
  end.
Definition readLoop (start : time) (ins : list readInput) (t : PassiveBusTap)
    : loopState * PassiveBusTap * option tapError :=
  readLoop_from ins (mkLoop false start) t.
End Decoder.

(** ** Reconnecting *)

(** The loop of [reconnectDelay]. *)
Fixpoint delayLoop (attempt : nat) (delay max : time) : time :=
  match attempt with
  | O => delay
  | S k =>
      if max <=? delay then max
      else
        let delay' := i64 (delay * 2) in
        if max <=? delay' then max else delayLoop k delay' max
  end.

(** [reconnectDelay]; the defaults are one and thirty seconds. *)
Definition reconnectDelay (attempt : nat) (initial max : time) : time :=
  let initial := if initial <=? 0 then 1000000000 else initial in
  let max := if max <=? 0 then 30000000000 else max in
  delayLoop attempt initial max.

(** What the outside decides in one iteration of [run]: whether the context
    is done, the result of dialling, the reads of a session, and whether the
    sleep is interrupted. *)
Record runInput := mkRun {
  ctxDone : bool;
  dial : option tapError;
  reads : list readInput;
  sleepOk : bool;
  start : time;
  now : time
}.

Inductive runOutcome := RunContinue (retryAttempt : nat) | RunReturned | RunReading.

(** The tail of both failing branches of [run]. *)
Definition disconnectAndSleep (i : runInput) (err : tapError) (st : PassiveEndpointState)
    (retry : nat) (t : PassiveBusTap) : PassiveBusTap * runOutcome :=
  let t' := recordDisconnect (now i) (Some err) st t in
  if sleepOk i then (t', RunContinue (S retry)) else (markClosed t', RunReturned).

(** One iteration of [run]. *)
Definition runIter `{EbusProtocol} (i : runInput) (retry : nat) (t : PassiveBusTap)
    : PassiveBusTap * runOutcome :=
  if negb (transport t) then
    if ctxDone i then (markClosed t, RunReturned)
    else
      match connect (now i) (dial i) t with
      | (t1, Some e) =>
          disconnectAndSleep i e
            (if ConnectCount (status t1) =? 0
             then PassiveEndpointStateUnsupportedOrMisconfigured
             else PassiveEndpointStateTemporarilyDisconnected) retry t1
      | (t1, None) => (t1, RunContinue 0)
      end
  else
    match readLoop (start i) (reads i) t with
    | (_, t1, None) => (t1, RunReading)
    | (_, t1, Some e) =>
        let t2 := set_transport false t1 in
        if isContextError e || ctxDone i then (markClosed t2, RunReturned)
        else disconnectAndSleep i e PassiveEndpointStateTemporarilyDisconnected retry t2
    end.

(** [StartPassiveBusTapWithTransport]: the first connection must succeed. *)
Definition startTap (c : TapConfig) (at_time : time) (dialErr : option tapError)
    : option PassiveBusTap :=
  match connect at_time dialErr (newTap c) with
  | (t, None) => Some t
  | (_, Some _) => None
  end.

(** [run], from the state [StartPassiveBusTap] leaves. *)
Fixpoint run `{EbusProtocol} (ins : list runInput) (retry : nat) (t : PassiveBusTap)
    : PassiveBusTap * runOutcome :=
  match ins with
  | [] => (t, RunContinue retry)
  | i :: rest =>
      match runIter i retry t with
      | (t', RunContinue k) => run rest k t'
      | (t', out) => (t', out)
      end
  end.

(** ** The wire log's frame decoder *)

Section FrameDecoder.
Context {P : EbusProtocol}.

(** [frameDecoder]. *)
Record frameDecoder := mkFD { fdEscape : bool; fdBuffer : list byte }.

(** [frameDecoder.push]. *)
Definition fdPush (d : frameDecoder) (symbol : byte) : frameDecoder * option Frame :=
  if fdEscape d then
    (mkFD false
       (if symbol =? 0x00 then fdBuffer d ++ [SymbolEscape]
        else if symbol =? 0x01 then fdBuffer d ++ [SymbolSyn]
        else []), None)
  else if symbol =? SymbolEscape then (mkFD true (fdBuffer d), None)
  else if symbol =? SymbolSyn then
    if len (fdBuffer d) =? 0 then (d, None)
    else (mkFD false [], parseFrame (fdBuffer d))
  else (mkFD false (fdBuffer d ++ [symbol]), None).

(** [frameDecoder.reset]. *)
Definition fdReset (d : frameDecoder) : frameDecoder := mkFD false [].

(** A run of the decoder and the frames it reports. *)
Fixpoint fdRun (d : frameDecoder) (l : list byte) : frameDecoder * list Frame :=
  match l with
  | [] => (d, [])
  | b :: rest =>
      let '(d1, f) := fdPush d b in
      let '(d2, fs) := fdRun d1 rest in
      (d2, option_list f ++ fs)
  end.
End FrameDecoder.

(** ** Specification *)

Section Spec.
Context {P : EbusProtocol}.

(** What is on the bus: a SYN, or a data byte, which is sent stuffed. *)
Inductive wireItem := WireSyn | WireData (b : byte).

(** The eBUS stuffing rule. *)
Definition stuff (b : byte) : list byte :=
  if b =? SymbolEscape then [SymbolEscape; 0x00]
  else if b =? SymbolSyn then [SymbolEscape; 0x01]
  else [b].
Definition wireBytes (w : wireItem) : list byte :=
  match w with WireSyn => [SymbolSyn] | WireData b => stuff b end.
Definition encodeWire (ws : list wireItem) : list byte := ws ≫= wireBytes.

(** The logical symbol of an item and whether it was escaped. *)
Definition logical (w : wireItem) : byte * bool :=
  match w with
  | WireSyn => (SymbolSyn, false)
  | WireData b => (b, (b =? SymbolEscape) || (b =? SymbolSyn))
  end.

(** The decoder run over raw bytes: decoded symbols until the first
    error. *)
Fixpoint decodeWire (esc : bool) (l : list byte) : option (list (byte * bool) * bool) :=
  match l with
  | [] => Some ([], esc)
  | b :: rest =>
      match push esc b with
      | (_, PushError _) => None
      | (esc', NeedMore) => decodeWire esc' rest
      | (esc', Decoded x w) =>
          match decodeWire esc' rest with
          | Some (xs, e) => Some ((x, w) :: xs, e)
          | None => None
          end
      end
  end.
End Spec.

(** Events of one kind the tap has emitted. *)
Definition emittedKind (k : PassiveTapEventKind) (t : PassiveBusTap) : nat :=
  countb (fun e => bool_decide (Kind e = k)) (emitted t).

(** The counters of the status agree, as [uint64], with the events. *)
Definition counters_ok (t : PassiveBusTap) : Prop :=
  ObservedSymbolCount (status t) = u64 (Z.of_nat (emittedKind PassiveTapEventSymbol t)) /\
  DecodeFaultCount (status t) = u64 (Z.of_nat (emittedKind PassiveTapEventDecodeFault t)) /\
  ResetCount (status t) = u64 (Z.of_nat (emittedKind PassiveTapEventReset t)) /\
  DisconnectCount (status t) = u64 (Z.of_nat (emittedKind PassiveTapEventDisconnected t)) /\
  ConnectCount (status t) = u64 (Z.of_nat (emittedKind PassiveTapEventConnected t)) /\
  ConnectAttemptCount (status t) = u64 (ConnectCount (status t) + ConnectFailureCount (status t)).

(** ** Lemmas *)

Section DecoderLemmas.
Context {P : EbusProtocol} {L : EbusLaws P}.

(** The decoder on one bus item, ahead of anything. *)
Lemma decodeWire_item (w : wireItem) (rest : list byte) :
  decodeWire false (wireBytes w ++ rest) =
    match decodeWire false rest with
    | Some (xs, e) => Some (logical w :: xs, e)
    | None => None
    end.
Proof.
  destruct w as [|b]; simpl; unfold stuff, push.
  - by rewrite syn_value, escape_value.
  - rewrite !syn_value, !escape_value.
    destruct (Z.eqb_spec b 0xA9) as [->|]; [|destruct (Z.eqb_spec b 0xAA) as [->|]];
      cbn [app decodeWire]; unfold push; rewrite ?syn_value, ?escape_value; zeval; [done..|].
    by destruct (Z.eqb_spec b 0xA9).
Qed.

Lemma decodeWire_encode (ws : list wireItem) :
  decodeWire false (encodeWire ws) = Some (logical <$> ws, false).
Proof.
  induction ws as [|w ws IH]; [done|].
  change (encodeWire (w :: ws)) with (wireBytes w ++ encodeWire ws).
  by rewrite decodeWire_item, IH.
Qed.

(** The frame decoder on the stuffed bytes of a byte. *)
Lemma fdRun_app (d : frameDecoder) (l k : list byte) :
  fdRun d (l ++ k) =
    let '(d1, fs) := fdRun d l in let '(d2, gs) := fdRun d1 k in (d2, fs ++ gs).
Proof.
  revert d; induction l as [|b l IH]; intros d; simpl.
  - by destruct (fdRun d k).
  - destruct (fdPush d b) as [d1 f]. rewrite IH.
    destruct (fdRun d1 l) as [d2 fs]. destruct (fdRun d2 k) as [d3 gs]. by rewrite app_assoc.
Qed.

Lemma fdRun_stuff (buf : list byte) (b : byte) :
  fdRun (mkFD false buf) (stuff b) = (mkFD false (buf ++ [b]), []).
Proof.
  unfold stuff. rewrite !escape_value, !syn_value.
  destruct (Z.eqb_spec b 0xA9) as [->|]; [|destruct (Z.eqb_spec b 0xAA) as [->|]]; simpl;
    unfold fdPush; simpl; rewrite ?escape_value, ?syn_value; simpl; try done.
  destruct (Z.eqb_spec b 0xA9); [done|]. by destruct (Z.eqb_spec b 0xAA).
Qed.

Lemma fdRun_stuffed (buf raw : list byte) :
  fdRun (mkFD false buf) (raw ≫= stuff) = (mkFD false (buf ++ raw), []).
Proof.
  revert buf; induction raw as [|b raw IH]; intros buf; simpl; [by rewrite app_nil_r|].
  rewrite fdRun_app, fdRun_stuff, IH. by rewrite <- app_assoc.
Qed.

(** A SYN empties the buffer, whatever came before. *)
Lemma fdPush_syn (d : frameDecoder) :
  fst (fdPush d SymbolSyn) = mkFD false [] \/
  fst (fdPush d SymbolSyn) = d /\ fdEscape d = false /\ fdBuffer d = [].
Proof.
  unfold fdPush. rewrite syn_value, escape_value. destruct (fdEscape d) eqn:He; [by left|].
  simpl. destruct (fdBuffer d) eqn:Hb; simpl; [right|left]; done.
Qed.

Lemma fdPush_syn_clean (d : frameDecoder) : fst (fdPush d SymbolSyn) = mkFD false [].
Proof.
  destruct (fdPush_syn d) as [H|(-> & He & Hb)]; [done|]. destruct d. simpl in *. by subst.
Qed.
End DecoderLemmas.

(** *** Counters *)

Lemma emittedKind_emit k n e t :
  emittedKind k (emit n e t) =
    (emittedKind k t + if bool_decide (Kind e = k) then 1 else 0)%nat.
Proof.
  unfold emittedKind, emit. simpl. rewrite countb_app. f_equal. unfold countb.
  destruct (IsZero (ObservedAt e)); simpl; by case_bool_decide.
Qed.

Lemma emittedKind_status k f t : emittedKind k (set_status f t) = emittedKind k t.
Proof. done. Qed.

Lemma incr64_u64 (x : Z) : incr64 (u64 x) = u64 (x + 1).
Proof. unfold incr64, u64. by rewrite Zplus_mod_idemp_l. Qed.


Lemma count_event (c : Z) (n : nat) : c = u64 (Z.of_nat n) -> incr64 c = u64 (Z.of_nat (n + 1)).
Proof. intros ->. rewrite incr64_u64. f_equal. lia. Qed.

(** Adding an event and counting it. *)
Ltac counters :=
  unfold counters_ok; intros (Hs & Hf & Hr & Hd & Hc & Ha);
  rewrite ?emittedKind_emit, ?emittedKind_status;
  split_and!; cbn -[emittedKind u64 incr64]; rewrite ?Nat.add_0_r;
  first [done | by apply count_event | idtac].

Lemma counters_recordDisconnect n e st t :
  counters_ok t -> counters_ok (recordDisconnect n e st t).
Proof. unfold recordDisconnect. counters. Qed.
Lemma counters_recordReset n n' t : counters_ok t -> counters_ok (recordReset n n' t).
Proof. unfold recordReset. counters. Qed.
Lemma counters_recordDecodeFault n e t :
  counters_ok t -> counters_ok (recordDecodeFault n e t).
Proof. unfold recordDecodeFault. counters. Qed.
Lemma counters_symbol n n' sym w t :
  counters_ok t ->
  counters_ok (emit n' (mkTapEvent PassiveTapEventSymbol sym n None w) (recordSymbol n t)).
Proof. unfold recordSymbol. counters. Qed.
Lemma counters_timeout n e t :
  counters_ok t -> counters_ok (emit n (mkTapEvent PassiveTapEventReadTimeout 0 n e false) t).
Proof. counters. Qed.
Lemma counters_markClosed t : counters_ok t -> counters_ok (markClosed t).
Proof. done. Qed.
Lemma counters_transport b t : counters_ok t -> counters_ok (set_transport b t).
Proof. done. Qed.

Lemma counters_connect n d t : counters_ok t -> counters_ok (fst (connect n d t)).
Proof.
  unfold connect. destruct d; cbn [fst]; counters.
  - rewrite Ha, incr64_u64. unfold incr64, u64. rewrite Zplus_mod_idemp_r. f_equal. lia.
  - rewrite Ha, incr64_u64. unfold incr64, u64. rewrite Zplus_mod_idemp_l. f_equal. lia.
Qed.

#[export] Hint Resolve counters_recordDisconnect counters_recordReset counters_recordDecodeFault
  counters_symbol counters_timeout counters_markClosed counters_transport counters_connect : gw.

Lemma counters_readStep `{EbusProtocol} r n n' l t :
  counters_ok t -> counters_ok (snd (fst (readStep r n n' l t))).
Proof.
  intros Ht. destruct r; simpl; break; simpl; auto with gw.
Qed.

Lemma counters_readLoop `{EbusProtocol} ins l t :
  counters_ok t -> counters_ok (snd (fst (readLoop_from ins l t))).
Proof.
  revert l t; induction ins as [|i ins IH]; intros l t Ht; simpl; [done|].
  destruct (ctxErr i); [done|].
  pose proof (counters_readStep (rd i) (clk i) (clk' i) l t Ht) as H1.
  destruct (readStep (rd i) (clk i) (clk' i) l t) as [[l' t'] [e|]]; [done|]. by apply IH.
Qed.

Lemma counters_disconnectAndSleep i e st k t :
  counters_ok t -> counters_ok (fst (disconnectAndSleep i e st k t)).
Proof. intros Ht. unfold disconnectAndSleep. destruct (sleepOk i); simpl; auto with gw. Qed.

Lemma counters_runIter `{EbusProtocol} i k t :
  counters_ok t -> counters_ok (fst (runIter i k t)).
Proof.
  intros Ht. unfold runIter. destruct (transport t); simpl.
  - unfold readLoop. pose proof (counters_readLoop (reads i) (mkLoop false (start i)) t Ht) as H1.
    destruct (readLoop_from (reads i) (mkLoop false (start i)) t) as [[l' t'] [e|]]; [|done].
    simpl in H1. destruct (isContextError e || ctxDone i); simpl; [auto with gw|].
    by apply counters_disconnectAndSleep.
  - destruct (ctxDone i); simpl; [auto with gw|].
    pose proof (counters_connect (now i) (dial i) t Ht) as H1.
    destruct (connect (now i) (dial i) t) as [t' [e|]]; [|done].
    by apply counters_disconnectAndSleep.
Qed.

Lemma counters_run `{EbusProtocol} ins k t : counters_ok t -> counters_ok (fst (run ins k t)).
Proof.
  revert k t; induction ins as [|i ins IH]; intros k t Ht; simpl; [done|].
  pose proof (counters_runIter i k t Ht) as H1.
  destruct (runIter i k t) as [t' [k'| |]]; try done. by apply IH.
Qed.

Lemma counters_new c : counters_ok (newTap c).
Proof. done. Qed.

(** *** The read loop decodes *)

Lemma readLoop_decodes `{EbusProtocol} ins bytes esc at0 t xs e :
  decodeWireEscapes (cfg t) = true ->
  Forall2 (fun i b => ctxErr i = None /\ exists w, rd i = ReadByte b w) ins bytes ->
  decodeWire esc bytes = Some (xs, e) ->
  exists at1 t' evs,
    readLoop_from ins (mkLoop esc at0) t = (mkLoop e at1, t', None) /\
    cfg t' = cfg t /\ emitted t' = emitted t ++ evs /\
    (fun v => (Kind v, (Symbol v, WasEscaped v))) <$> evs =
    (fun x => (PassiveTapEventSymbol, x)) <$> xs.
Proof.
  intros Hcfg Hins. revert esc at0 t xs Hcfg.
  induction Hins as [|i b ins bytes [Hctx [w Hrd]] Hrest IH]; intros esc at0 t xs Hcfg Hdec.
  - simpl in Hdec. simplify_eq. exists at0, t, []. by rewrite app_nil_r.
  - cbn [decodeWire] in Hdec. cbn [readLoop_from]. rewrite Hctx, Hrd. unfold readStep.
    rewrite Hcfg. cbn [escape]. destruct (push esc b) as [esc' [|x w'|err]]; [| |done].
    + by apply IH.
    + destruct (decodeWire esc' bytes) as [[xs' e']|] eqn:Hd; [|done]. simplify_eq.
      set (ev := mkTapEvent PassiveTapEventSymbol x (clk i) None w').
      destruct (IH esc' (clk i) (emit (clk' i) ev (recordSymbol (clk i) t)) xs' Hcfg Hd)
        as (at1 & t' & evs & -> & Hc & He & Hm).
      exists at1, t'. unfold emit in He. cbn [emitted recordSymbol set_status ObservedAt ev] in He.
      rewrite <- app_assoc in He. eexists. split; [done|]. split; [done|]. split; [exact He|].
      rewrite fmap_app, Hm. by destruct (IsZero (clk i)).
Qed.

(** *** Back-off *)

Lemma delayLoop_spec (k : nat) (d m : Z) :
  0 < d < m -> m <= 2 ^ 62 -> delayLoop k d m = Z.min m (d * 2 ^ Z.of_nat k).
Proof.
  revert d; induction k as [|k IH]; intros d Hd Hm; cbn [delayLoop].
  - change (2 ^ Z.of_nat 0) with 1. lia.
  - destruct (Z.leb_spec m d); [lia|].
    assert (Hi : i64 (d * 2) = d * 2).
    { unfold i64. rewrite Z.mod_small; lia. }
    rewrite Hi. rewrite Nat2Z.inj_succ, Z.pow_succ_r by lia.
    pose proof (Z.pow_pos_nonneg 2 (Z.of_nat k)).
    destruct (Z.leb_spec m (d * 2)); [nia|].
    rewrite IH by lia. f_equal. lia.
Qed.

Lemma delayLoop_clamped (k : nat) (d m : Z) : m <= d -> delayLoop (S k) d m = m.
Proof. intros H. cbn [delayLoop]. destruct (Z.leb_spec m d); [done|lia]. Qed.

(** ** Properties *)

Section TapProperties.
Context {P : EbusProtocol} {L : EbusLaws P}.

(** The tap run over the stuffed bytes of any sequence of bus items
    hands its consumer one symbol event per item, in order, with the
    logical byte and a provenance flag that is set exactly for the data
    bytes 0xA9 and 0xAA: an unescaped 0xAA is a SYN of the bus. *)
Theorem tap_decodes_wire (ws : list wireItem) (ins : list readInput) (at0 : time)
    (t : PassiveBusTap) :
  decodeWireEscapes (cfg t) = true ->
  Forall2 (fun i b => ctxErr i = None /\ exists w, rd i = ReadByte b w) ins (encodeWire ws) ->
  exists at1 t' evs,
    readLoop at0 ins t = (mkLoop false at1, t', None) /\
    emitted t' = emitted t ++ evs /\
    (fun v => (Kind v, (Symbol v, WasEscaped v))) <$> evs =
    (fun w => (PassiveTapEventSymbol, logical w)) <$> ws /\
    (forall w, logical w = (SymbolSyn, false) <-> w = WireSyn).
Proof.
  intros Hcfg Hins.
  destruct (readLoop_decodes ins _ false at0 t _ _ Hcfg Hins (decodeWire_encode ws))
    as (at1 & t' & evs & Hrun & _ & He & Hm).
  exists at1, t', evs. split_and!; try done.
  - rewrite Hm, <- list_fmap_compose. done.
  - intros [|b]; simpl; [done|]. split; [|done]. intros [= Hb Hf].
    rewrite Hb, Z.eqb_refl, orb_true_r in Hf. done.
Qed.

(** A SYN brings the wire log's frame decoder back in step from any
    state; the frame sent after it is reported, once and unchanged. *)
Theorem frame_decoder_resync (d : frameDecoder) (f : Frame) :
  (length (Data f) < 256)%nat ->
  fdRun d (SymbolSyn :: (canonicalFrameBytes f ≫= stuff) ++ [SymbolSyn]) =
    (mkFD false [], option_list (snd (fdPush d SymbolSyn)) ++ [f]).
Proof.
  intros Hf. cbn [fdRun]. pose proof (fdPush_syn_clean d) as Hd.
  destruct (fdPush d SymbolSyn) as [d1 o]. simpl in Hd. subst d1.
  rewrite fdRun_app, fdRun_stuffed. simpl. unfold fdPush. simpl.
  rewrite syn_value, escape_value. zeval. simpl.
  rewrite parseFrame_encode by done. done.
Qed.
End TapProperties.

(** Reads of raw bytes at consecutive instants. *)
Fixpoint demo_reads_from (t : time) (bytes : list byte) : list readInput :=
  match bytes with
  | [] => []
  | b :: rest => mkRead None (ReadByte b false) t t :: demo_reads_from (t + 1) rest
  end.
Definition demo_reads (bytes : list byte) : list readInput := demo_reads_from 1 bytes.
Definition demo_config : TapConfig := mkTapConfig true true 0 0 0.

Lemma demo_reads_bytes (bytes : list byte) :
  Forall2 (fun i b => ctxErr i = None /\ exists w, rd i = ReadByte b w) (demo_reads bytes) bytes.
Proof.
  unfold demo_reads. generalize 1. induction bytes as [|b bytes IH]; intros t; constructor; eauto.
Qed.

Lemma tap_decodes_wire_witness :
  let P := demo_protocol in
  exists at1 t' evs,
    readLoop 0 (demo_reads [0xAA; 0x10; 0xA9; 0x01; 0xA9; 0x00]) (newTap demo_config) =
      (mkLoop false at1, t', None) /\
    emitted t' = [] ++ evs /\
    (fun v => (Kind v, (Symbol v, WasEscaped v))) <$> evs =
      [(PassiveTapEventSymbol, (0xAA, false)); (PassiveTapEventSymbol, (0x10, false));
       (PassiveTapEventSymbol, (0xAA, true)); (PassiveTapEventSymbol, (0xA9, true))].
Proof.
  intros P.
  destruct (tap_decodes_wire [WireSyn; WireData 0x10; WireData 0xAA; WireData 0xA9]
    (demo_reads [0xAA; 0x10; 0xA9; 0x01; 0xA9; 0x00]) 0 (newTap demo_config))
    as (at1 & t' & evs & H1 & H2 & H3 & _).
  - reflexivity.
  - apply demo_reads_bytes.
  - exists at1, t', evs. split; [exact H1|]. split; [exact H2|exact H3].
Defined.

Lemma frame_decoder_resync_witness :
  let P := demo_protocol in
  let f := mkFrame 0x10 0x08 0xB5 0x09 [0xAA; 0xA9] in
  fdRun (mkFD true [1; 2]) (SymbolSyn :: (canonicalFrameBytes f ≫= stuff) ++ [SymbolSyn]) =
    (mkFD false [], [f]).
Proof.
  intros P f. apply (frame_decoder_resync (mkFD true [1; 2]) f). cbn. lia.
Defined.

(** The reconnect back-off doubles from the initial delay up to the
    maximum, with the defaults of one and thirty seconds; no [int64]
    overflow for a maximum up to 2^62 nanoseconds, whatever the attempt. *)
Theorem reconnect_backoff (attempt : nat) (initial max : time) :
  max <= 2 ^ 62 ->
  let i := if initial <=? 0 then 1000000000 else initial in
  let m := if max <=? 0 then 30000000000 else max in
  reconnectDelay attempt initial max =
    (match attempt with O => i | S _ => Z.min m (i * 2 ^ Z.of_nat attempt) end) /\
  0 < reconnectDelay attempt initial max <= Z.max i m.
Proof.
  intros Hmax i m. unfold reconnectDelay. fold i m.
  assert (Hi : 0 < i) by (unfold i; destruct (Z.leb_spec initial 0); lia).
  assert (Hm : 0 < m <= 2 ^ 62) by (unfold m; destruct (Z.leb_spec max 0); lia).
  pose proof (Z.pow_pos_nonneg 2 (Z.of_nat attempt)) as Hp.
  assert (Hformula : delayLoop attempt i m =
    match attempt with O => i | S _ => Z.min m (i * 2 ^ Z.of_nat attempt) end).
  { destruct attempt as [|k]; [done|].
    destruct (Z.le_gt_cases m i) as [Hle|Hlt].
    - rewrite delayLoop_clamped by done. nia.
    - apply delayLoop_spec; lia. }
  split; [done|]. rewrite Hformula. destruct attempt; [lia|]. nia.
Qed.

Lemma reconnect_backoff_witness :
  reconnectDelay 3 1000000000 30000000000 = 8000000000 /\
  reconnectDelay 9 0 0 = 30000000000.
Proof.
  split.
  - exact (proj1 (reconnect_backoff 3 1000000000 30000000000 ltac:(lia))).
  - exact (proj1 (reconnect_backoff 9 0 0 ltac:(lia))).
Defined.

(** Whatever the transport, the clock and the context do, the status
    counters agree with the events the consumer got (modulo 2^64), every
    connection attempt is counted as a success or a failure, and a loop
    that returned left the endpoint closed. *)
Theorem tap_status_exact `{EbusProtocol} (c : TapConfig) (at0 : time) (d : option tapError)
    (ins : list runInput) :
  let t0 := fst (connect at0 d (newTap c)) in
  counters_ok (fst (run ins 0 t0)) /\
  (snd (run ins 0 t0) = RunReturned ->
     Connected (status (fst (run ins 0 t0))) = false /\
     EndpointState (status (fst (run ins 0 t0))) = PassiveEndpointStateClosed).
Proof.
  intros t0. split; [apply counters_run, counters_connect, counters_new|].
  generalize 0%nat t0. clear. induction ins as [|i ins IH]; intros k t; simpl; [done|].
  destruct (runIter i k t) as [t' [k'| |]] eqn:Hi; [apply IH| |done]. intros _.
  unfold runIter, disconnectAndSleep in Hi. break_all; done.
Qed.

Lemma tap_status_exact_witness :
  let P := demo_protocol in
  snd (run [mkRun false None
              [mkRead None ReadReset 5 5; mkRead (Some ErrCanceled) ReadReset 6 6] true 5 7]
         0 (fst (connect 1 None (newTap demo_config)))) = RunReturned /\
  EndpointState (status (fst (run [mkRun false None
              [mkRead None ReadReset 5 5; mkRead (Some ErrCanceled) ReadReset 6 6] true 5 7]
         0 (fst (connect 1 None (newTap demo_config)))))) = PassiveEndpointStateClosed.
Proof.
  intros P. split; [by vm_compute|].
  apply (proj2 (tap_status_exact demo_config 1 None [mkRun false None
    [mkRead None ReadReset 5 5; mkRead (Some ErrCanceled) ReadReset 6 6] true 5 7])).
  by vm_compute.
Defined.
End PassiveTap.
