(* ===== verification/Reconstructor.v ===== *)
(** * The passive transaction reconstructor

    Models [passive_transaction_reconstructor.go]: the state machine that
    turns the symbols of the passive tap into classified eBUS transactions,
    its abandon rules, its metrics and its forensic log.  A handler of the
    source that appends to [events] returns the events it appends; the
    bound on [time] and the external [LocalBusAddressSnapshotter] are fields
    of the model's reconstructor. *)

From Stdlib Require Import Ascii.
From S2P Require Import Prelude Ebus PassiveTap.

Module Reconstructor.
Import PassiveTap.

(** ** Constants *)

Definition minPassiveTransactionWatchdog : time := 250000000.
Definition maxPassiveTransactionWatchdog : time := 5000000000.
Definition maxPassiveDataLen : Z := 16.
Definition maxPassiveLogicalRequestBytes : Z := 50.

(** ** Data *)

(** [PassiveClassifiedEventKind]. *)
Inductive PassiveClassifiedEventKind :=
| PassiveClassifiedEventBroadcastFrame
| PassiveClassifiedEventMasterFrame
| PassiveClassifiedEventTransaction
| PassiveClassifiedEventAbandonedTransaction
| PassiveClassifiedEventDiscontinuity.

(** [PassiveDiscontinuityReason]; the first one is the empty string. *)
Inductive PassiveDiscontinuityReason :=
| PassiveDiscontinuityNone
| PassiveDiscontinuityConnected
| PassiveDiscontinuityDisconnected
| PassiveDiscontinuityTransportReset
| PassiveDiscontinuityDecodeFault
| PassiveDiscontinuityReadTimeout
| PassiveDiscontinuityShutdown
| PassiveDiscontinuityCriticalSubscriberFault.

Definition discontinuityString (r : PassiveDiscontinuityReason) : string :=
  match r with
  | PassiveDiscontinuityNone => EmptyString
  | PassiveDiscontinuityConnected => "connected"
  | PassiveDiscontinuityDisconnected => "disconnected"
  | PassiveDiscontinuityTransportReset => "transport_reset"
  | PassiveDiscontinuityDecodeFault => "decode_fault"
  | PassiveDiscontinuityReadTimeout => "read_timeout"
  | PassiveDiscontinuityShutdown => "shutdown"
  | PassiveDiscontinuityCriticalSubscriberFault => "critical_subscriber_overflow"
  end.

(** [PassiveAbandonReason]; the first one is the empty string. *)
Inductive PassiveAbandonReason :=
| PassiveAbandonReasonNone
| PassiveAbandonReasonCorruptedRequest
| PassiveAbandonReasonCorruptedTarget
| PassiveAbandonReasonNACK
| PassiveAbandonReasonNoResponse
| PassiveAbandonReasonNoProgress
| PassiveAbandonReasonUnexpectedSYN
| PassiveAbandonReasonUnexpectedSymbol
| PassiveAbandonReasonTransportReset
| PassiveAbandonReasonDecodeFault
| PassiveAbandonReasonDisconnected
| PassiveAbandonReasonCRCMismatch
| PassiveAbandonReasonAmbiguousRetransmit
| PassiveAbandonReasonShutdown
| PassiveAbandonReasonScanTimeout
| PassiveAbandonReasonScanCollision
| PassiveAbandonReasonArbitrationFragment
| PassiveAbandonReasonSelfEcho
| PassiveAbandonReasonInvalidQQ
| PassiveAbandonReasonInvalidZZ
| PassiveAbandonReasonInvalidNNMaster
| PassiveAbandonReasonInvalidNNSlave
| PassiveAbandonReasonBufferOverflow.

Definition abandonString (r : PassiveAbandonReason) : string :=
  match r with
  | PassiveAbandonReasonNone => EmptyString
  | PassiveAbandonReasonCorruptedRequest => "corrupted_request"
  | PassiveAbandonReasonCorruptedTarget => "corrupted_target"
  | PassiveAbandonReasonNACK => "nack"
  | PassiveAbandonReasonNoResponse => "no_response"
  | PassiveAbandonReasonNoProgress => "no_progress"
  | PassiveAbandonReasonUnexpectedSYN => "unexpected_syn"
  | PassiveAbandonReasonUnexpectedSymbol => "unexpected_symbol"
  | PassiveAbandonReasonTransportReset => "transport_reset"
  | PassiveAbandonReasonDecodeFault => "decode_fault"
  | PassiveAbandonReasonDisconnected => "disconnected"
  | PassiveAbandonReasonCRCMismatch => "crc_mismatch"
  | PassiveAbandonReasonAmbiguousRetransmit => "ambiguous_retransmission"
  | PassiveAbandonReasonShutdown => "shutdown"
  | PassiveAbandonReasonScanTimeout => "scan_timeout"
  | PassiveAbandonReasonScanCollision => "scan_collision"
  | PassiveAbandonReasonArbitrationFragment => "arbitration_fragment"
  | PassiveAbandonReasonSelfEcho => "self_echo"
  | PassiveAbandonReasonInvalidQQ => "invalid_qq"
  | PassiveAbandonReasonInvalidZZ => "invalid_zz"
  | PassiveAbandonReasonInvalidNNMaster => "invalid_nn_m"
  | PassiveAbandonReasonInvalidNNSlave => "invalid_nn_s"
  | PassiveAbandonReasonBufferOverflow => "buffer_overflow"
  end.

#[export] Instance PassiveClassifiedEventKind_eq_dec : EqDecision PassiveClassifiedEventKind.
Proof. solve_decision. Defined.
#[export] Instance PassiveAbandonReason_eq_dec : EqDecision PassiveAbandonReason.
Proof. solve_decision. Defined.
#[export] Instance PassiveDiscontinuityReason_eq_dec : EqDecision PassiveDiscontinuityReason.
Proof. solve_decision. Defined.

(** The errors an event may carry. *)
Inductive recError :=
| RecInvalidPayload
| RecTimeout
| RecNACK
| RecCRCMismatch
| RecCanceled
| RecTap (e : tapError).

(** [PassiveTimingMarkers]. *)
Record PassiveTimingMarkers := mkTiming {
  RequestStart : time;
  RequestEnd : time;
  ResponseStart : time;
  ResponseEnd : time;
  Terminal : time
}.
Definition zeroTiming : PassiveTimingMarkers := mkTiming 0 0 0 0 0.

(** [PassiveACKCorrelation]: position and correlator are the constants
    ACKPositionRequestACK and ACKCorrelatorM2A, or unset. *)
Record PassiveACKCorrelation := mkAck {
  ackByte : byte;
  ackAtRequestACK : bool;
  CompleteRequest : bool;
  correlatorM2A : bool
}.
Definition noAck : PassiveACKCorrelation := mkAck 0 false false false.
(** [m2aRequestACKCorrelation]. *)
Definition m2aRequestACKCorrelation (symbol : byte) : PassiveACKCorrelation :=
  mkAck symbol true true true.

(** [PassiveClassifiedEvent]. *)
Record PassiveClassifiedEvent := mkEvent {
  EvKind : PassiveClassifiedEventKind;
  EvFrameType : FrameType;
  EvRequest : Frame;
  EvResponse : Frame;
  HasRequest : bool;
  HasResponse : bool;
  Timing : PassiveTimingMarkers;
  EvObservedAt : time;
  AbandonReason : PassiveAbandonReason;
  DiscontinuityReason : PassiveDiscontinuityReason;
  ACKCorrelation : PassiveACKCorrelation;
  EvErr : option recError;
  Subscriber : string;
  OffendingSymbol : byte;
  OffendingWasEscaped : bool
}.

(** [passiveTransactionPhase]. *)
Inductive passiveTransactionPhase :=
| passivePhaseIdle
| passivePhaseRequest
| passivePhaseWaitACK
| passivePhaseWaitResponse
| passivePhaseWaitFinalACK
| passivePhaseWaitTerminal
| passivePhaseAbandoned.

#[export] Instance passiveTransactionPhase_eq_dec : EqDecision passiveTransactionPhase.
Proof. solve_decision. Defined.

(** [passiveTransactionState]. *)
Record passiveTransactionState := mkState {
  phase : passiveTransactionPhase;
  requestRaw : list byte;
  request : Frame;
  responseRaw : list byte;
  response : Frame;
  responseExpectedLen : Z;
  responseCRCValid : bool;
  ackCorrelation : PassiveACKCorrelation;
  frameType : FrameType;
  timing : PassiveTimingMarkers;
  lastProgressAt : time;
  synced : bool;
  awaitingResync : bool
}.

(** The state [resetStateLocked] installs, which is also the initial one. *)
Definition idleState (sync : bool) : passiveTransactionState :=
  mkState passivePhaseIdle [] zeroFrame [] zeroFrame 0 false noAck FrameTypeUnknown zeroTiming 0
    sync false.

(** [passiveReconstructorMetrics]. *)
Record passiveReconstructorMetrics := mkMetrics {
  recoveryTotal : gmap string Z;
  abandonsByReason : gmap string Z;
  prefixResyncSkippedTotal : Z;
  invalidSrcClassSkippedTotal : Z
}.

(** One line of [logForensicsLocked]. *)
Record forensicLine := mkLine {
  lnReason : PassiveAbandonReason;
  lnPhase : passiveTransactionPhase;
  lnSrc : byte;
  lnDst : byte;
  lnPrim : byte;
  lnSec : byte;
  lnReqRaw : string;
  lnRespRaw : string;
  lnObservedAt : time;
  lnOffending : byte;
  lnWasEscaped : bool
}.

(** [PassiveTransactionReconstructor] without its subscribers, which are
    modelled in [Fanout]; [localAddr] is what the address snapshotter
    answers ([None]: no snapshotter), as (Known, Address). *)
Record reconstructor := mkRec {
  watchdog : time;
  localAddr : option (bool * byte);
  state : passiveTransactionState;
  pendingRecoveryReason : string;
  metrics : passiveReconstructorMetrics;
  forensics : list forensicLine
}.

(** ** Field updates *)

Definition set_state (f : passiveTransactionState -> passiveTransactionState) (r : reconstructor)
    : reconstructor :=
  mkRec (watchdog r) (localAddr r) (f (state r)) (pendingRecoveryReason r) (metrics r)
    (forensics r).
Definition set_pending (p : string) (r : reconstructor) : reconstructor :=
  mkRec (watchdog r) (localAddr r) (state r) p (metrics r) (forensics r).
Definition set_metrics (f : passiveReconstructorMetrics -> passiveReconstructorMetrics)
    (r : reconstructor) : reconstructor :=
  mkRec (watchdog r) (localAddr r) (state r) (pendingRecoveryReason r) (f (metrics r))
    (forensics r).
Definition add_line (l : forensicLine) (r : reconstructor) : reconstructor :=
  mkRec (watchdog r) (localAddr r) (state r) (pendingRecoveryReason r) (metrics r)
    (forensics r ++ [l]).

Definition set_phase (p : passiveTransactionPhase) (s : passiveTransactionState) :=
  mkState p (requestRaw s) (request s) (responseRaw s) (response s) (responseExpectedLen s)
    (responseCRCValid s) (ackCorrelation s) (frameType s) (timing s) (lastProgressAt s)
    (synced s) (awaitingResync s).
Definition set_requestRaw (raw : list byte) (s : passiveTransactionState) :=
  mkState (phase s) raw (request s) (responseRaw s) (response s) (responseExpectedLen s)
    (responseCRCValid s) (ackCorrelation s) (frameType s) (timing s) (lastProgressAt s)
    (synced s) (awaitingResync s).
Definition set_request (f : Frame) (ty : FrameType) (s : passiveTransactionState) :=
  mkState (phase s) (requestRaw s) f (responseRaw s) (response s) (responseExpectedLen s)
    (responseCRCValid s) (ackCorrelation s) ty (timing s) (lastProgressAt s) (synced s)
    (awaitingResync s).
Definition set_responseRaw (raw : list byte) (s : passiveTransactionState) :=
  mkState (phase s) (requestRaw s) (request s) raw (response s) (responseExpectedLen s)
    (responseCRCValid s) (ackCorrelation s) (frameType s) (timing s) (lastProgressAt s)
    (synced s) (awaitingResync s).
Definition set_response (f : Frame) (ok : bool) (s : passiveTransactionState) :=
  mkState (phase s) (requestRaw s) (request s) (responseRaw s) f (responseExpectedLen s) ok
    (ackCorrelation s) (frameType s) (timing s) (lastProgressAt s) (synced s) (awaitingResync s).
Definition set_expected (n : Z) (s : passiveTransactionState) :=
  mkState (phase s) (requestRaw s) (request s) (responseRaw s) (response s) n
    (responseCRCValid s) (ackCorrelation s) (frameType s) (timing s) (lastProgressAt s)
    (synced s) (awaitingResync s).
Definition set_crcValid (b : bool) (s : passiveTransactionState) :=
  mkState (phase s) (requestRaw s) (request s) (responseRaw s) (response s)
    (responseExpectedLen s) b (ackCorrelation s) (frameType s) (timing s) (lastProgressAt s)
    (synced s) (awaitingResync s).
Definition set_ack (a : PassiveACKCorrelation) (s : passiveTransactionState) :=
  mkState (phase s) (requestRaw s) (request s) (responseRaw s) (response s)
    (responseExpectedLen s) (responseCRCValid s) a (frameType s) (timing s) (lastProgressAt s)
    (synced s) (awaitingResync s).
Definition set_timing (t : PassiveTimingMarkers) (s : passiveTransactionState) :=
  mkState (phase s) (requestRaw s) (request s) (responseRaw s) (response s)
    (responseExpectedLen s) (responseCRCValid s) (ackCorrelation s) (frameType s) t
    (lastProgressAt s) (synced s) (awaitingResync s).
Definition set_progress (t : time) (s : passiveTransactionState) :=
  mkState (phase s) (requestRaw s) (request s) (responseRaw s) (response s)
    (responseExpectedLen s) (responseCRCValid s) (ackCorrelation s) (frameType s) (timing s) t
    (synced s) (awaitingResync s).
Definition set_gate (sync await : bool) (s : passiveTransactionState) :=
  mkState (phase s) (requestRaw s) (request s) (responseRaw s) (response s)
    (responseExpectedLen s) (responseCRCValid s) (ackCorrelation s) (frameType s) (timing s)
    (lastProgressAt s) sync await.

Definition with_RequestEnd (t : time) (m : PassiveTimingMarkers) :=
  mkTiming (RequestStart m) t (ResponseStart m) (ResponseEnd m) (Terminal m).
Definition with_ResponseStart (t : time) (m : PassiveTimingMarkers) :=
  mkTiming (RequestStart m) (RequestEnd m) t (ResponseEnd m) (Terminal m).
Definition with_ResponseEnd (t : time) (m : PassiveTimingMarkers) :=
  mkTiming (RequestStart m) (RequestEnd m) (ResponseStart m) t (Terminal m).
Definition with_Terminal (t : time) (m : PassiveTimingMarkers) :=
  mkTiming (RequestStart m) (RequestEnd m) (ResponseStart m) (ResponseEnd m) t.

(** ** Construction and resets *)

(** [clampPassiveTransactionWatchdog]. *)
Definition clampPassiveTransactionWatchdog (value : time) : time :=
  if value <=? 0 then 1000000000
  else if value <? minPassiveTransactionWatchdog then minPassiveTransactionWatchdog
  else if maxPassiveTransactionWatchdog <? value then maxPassiveTransactionWatchdog
  else value.

(** [newPassiveTransactionReconstructorCore] with the configured watchdog. *)
Definition newReconstructor (configured : time) (addr : option (bool * byte)) : reconstructor :=
  mkRec (clampPassiveTransactionWatchdog configured) addr (idleState false) EmptyString
    (mkMetrics ∅ ∅ 0 0) [].

(** [resetStateLocked] and [resetStateLockedAfterSyn]. *)
Definition resetStateLocked (r : reconstructor) : reconstructor :=
  set_state (fun _ => idleState false) r.
Definition resetStateLockedAfterSyn (r : reconstructor) : reconstructor :=
  set_state (set_gate true false) (resetStateLocked r).

(** [startRequestLocked]. *)
Definition startRequestLocked (symbol : byte) (observedAt : time) (r : reconstructor)
    : reconstructor :=
  set_state (fun _ =>
    mkState passivePhaseRequest [symbol] zeroFrame [] zeroFrame 0 false noAck FrameTypeUnknown
      (mkTiming observedAt 0 0 0 0) observedAt false false) r.

(** ** Abandoning *)

(** [shouldLogReconstructorForensics]. *)
Definition shouldLogReconstructorForensics (reason : PassiveAbandonReason) : bool :=
  match reason with
  | PassiveAbandonReasonUnexpectedSymbol | PassiveAbandonReasonCorruptedRequest
  | PassiveAbandonReasonCorruptedTarget | PassiveAbandonReasonNoResponse
  | PassiveAbandonReasonInvalidQQ | PassiveAbandonReasonInvalidZZ
  | PassiveAbandonReasonInvalidNNMaster | PassiveAbandonReasonInvalidNNSlave
  | PassiveAbandonReasonBufferOverflow => true
  | _ => false
  end.

(** The digits of [hexBytes]. *)
Definition hexDigit (n : Z) : Ascii.ascii :=
  default "0"%char (String.get (Z.to_nat n) "0123456789ABCDEF").
Fixpoint hexPairs (first : bool) (b : list byte) : string :=
  match b with
  | [] => EmptyString
  | x :: rest =>
      let pair := String (hexDigit (Z.shiftr x 4)) (String (hexDigit (Z.land x 0x0F)) EmptyString) in
      String.append (if first then pair else String " " pair) (hexPairs false rest)
  end.

(** [hexBytes]: at most sixteen bytes, then dots. *)
Definition hexBytes (b : list byte) : string :=
  if len b =? 0 then "<empty>"
  else
    let count := Z.min (len b) 16 in
    String.append (hexPairs true (take (Z.to_nat count) b))
      (if 16 <? len b then "..." else EmptyString).

(** [logForensicsLocked]. *)
Definition logForensicsLocked (reason : PassiveAbandonReason) (observedAt : time)
    (offending : byte) (wasEscaped : bool) (r : reconstructor) : reconstructor :=
  let s := state r in
  let '(src, dst, prim, sec) :=
    match frameType s with
    | FrameTypeUnknown =>
        if 4 <=? len (requestRaw s)
        then (at_ (requestRaw s) 0, at_ (requestRaw s) 1, at_ (requestRaw s) 2, at_ (requestRaw s) 3)
        else (0, 0, 0, 0)
    | _ => (Source (request s), Target (request s), Primary (request s), Secondary (request s))
    end in
  add_line (mkLine reason (phase s) src dst prim sec (hexBytes (requestRaw s))
    (hexBytes (responseRaw s)) observedAt offending wasEscaped) r.

(** The reasons for which the request's ACK is not evidence any more. *)
Definition stripsAck (reason : PassiveAbandonReason) : bool :=
  match reason with
  | PassiveAbandonReasonNoResponse | PassiveAbandonReasonNoProgress
  | PassiveAbandonReasonAmbiguousRetransmit | PassiveAbandonReasonCRCMismatch => true
  | _ => false
  end.

Definition isUnknown (ty : FrameType) : bool :=
  match ty with FrameTypeUnknown => true | _ => false end.

(** [abandonLocked]: the event, the forensic line and the counter. *)
Definition abandonLocked (reason : PassiveAbandonReason) (observedAt : time) (err : option recError)
    (offending : byte) (wasEscaped : bool) (r : reconstructor)
    : reconstructor * PassiveClassifiedEvent :=
  let s := state r in
  let ev :=
    mkEvent PassiveClassifiedEventAbandonedTransaction (frameType s) (request s) (response s)
      (negb (isUnknown (frameType s))) (0 <? responseExpectedLen s)
      (with_Terminal observedAt (timing s)) observedAt reason PassiveDiscontinuityNone
      (if stripsAck reason then noAck else ackCorrelation s) err EmptyString
      offending wasEscaped in
  let r1 := if shouldLogReconstructorForensics reason
            then logForensicsLocked reason observedAt offending wasEscaped r else r in
  (set_metrics (fun m =>
     mkMetrics (recoveryTotal m) (bump (abandonString reason) (abandonsByReason m))
       (prefixResyncSkippedTotal m) (invalidSrcClassSkippedTotal m)) r1, ev).

(** [recordRecoveryLocked]. *)
Definition recordRecoveryLocked (r : reconstructor) : reconstructor :=
  if String.eqb (pendingRecoveryReason r) EmptyString then r
  else
    set_pending EmptyString
      (set_metrics (fun m =>
         mkMetrics (bump (pendingRecoveryReason r) (recoveryTotal m)) (abandonsByReason m)
           (prefixResyncSkippedTotal m) (invalidSrcClassSkippedTotal m)) r).

(** Abandon, then continue with the given tail ([resetStateLocked] or one
    of its variants); one event. *)
Definition abandonThen (reason : PassiveAbandonReason) (observedAt : time) (err : option recError)
    (offending : byte) (wasEscaped : bool) (tail : reconstructor -> reconstructor)
    (r : reconstructor) : reconstructor * list PassiveClassifiedEvent :=
  let '(r1, ev) := abandonLocked reason observedAt err offending wasEscaped r in
  (tail r1, [ev]).

Definition toAbandoned (r : reconstructor) : reconstructor :=
  set_state (set_phase passivePhaseAbandoned) r.

(** ** Predicates on the pending request *)

Definition isSelfOriginatedRaw (r : reconstructor) : bool :=
  match localAddr r with
  | None => false
  | Some (known, addr) =>
      (1 <=? len (requestRaw (state r))) && known && (at_ (requestRaw (state r)) 0 =? addr)
  end.
Definition isSelfOriginatedParsed (r : reconstructor) : bool :=
  match localAddr r with
  | None => false
  | Some (known, addr) => known && (Source (request (state r)) =? addr)
  end.
Definition isScanTimeoutLocked (r : reconstructor) : bool :=
  (Primary (request (state r)) =? 0x07) && (Secondary (request (state r)) =? 0x04).

(** A discontinuity event. *)
Definition discontinuityEvent (observedAt : time) (reason : PassiveDiscontinuityReason)
    (err : option recError) : PassiveClassifiedEvent :=
  mkEvent PassiveClassifiedEventDiscontinuity FrameTypeUnknown zeroFrame zeroFrame false false
    zeroTiming observedAt PassiveAbandonReasonNone reason noAck err EmptyString 0 false.

(** The tail [state.phase = passivePhaseAbandoned; resetStateLocked()]. *)
Definition abandonAndReset (r : reconstructor) : reconstructor := resetStateLocked (toAbandoned r).

(** ** Symbol handlers *)

Section Handlers.
Context {P : EbusProtocol}.

Abbreviation result := (reconstructor * list PassiveClassifiedEvent)%type.

(** [dispatchParsedRequestLocked]. *)
Definition dispatchParsedRequestLocked (frame : Frame) (observedAt : time) (afterSyn : bool)
    (r : reconstructor) : result :=
  let reset := if afterSyn then resetStateLockedAfterSyn else resetStateLocked in
  let ty := frame_type frame in
  if isUnknown ty then
    abandonThen PassiveAbandonReasonCorruptedTarget observedAt (Some RecInvalidPayload) 0 false reset r
  else
    let r1 := set_state (fun s =>
      set_request frame ty
        (set_progress observedAt (set_timing (with_RequestEnd observedAt (timing s)) s))) r in
    match ty with
    | FrameTypeBroadcast =>
        let r2 := recordRecoveryLocked r1 in
        (reset r2,
         [mkEvent PassiveClassifiedEventBroadcastFrame ty frame zeroFrame true false
            (mkTiming (RequestStart (timing (state r2))) observedAt 0 0 observedAt) observedAt
            PassiveAbandonReasonNone PassiveDiscontinuityNone noAck None EmptyString 0 false])
    | FrameTypeInitiatorInitiator | FrameTypeInitiatorTarget =>
        (set_state (set_phase passivePhaseWaitACK) r1, [])
    | FrameTypeUnknown =>
        abandonThen PassiveAbandonReasonCorruptedTarget observedAt (Some RecInvalidPayload) 0 false
          reset r1
    end.

(** [commitRequestFrameLocked]; [None] is [ok = false]. *)
Definition commitRequestFrameLocked (observedAt : time) (r : reconstructor) : option result :=
  match parseFrame (requestRaw (state r)) with
  | None => None
  | Some frame =>
      match frame_type frame with
      | FrameTypeInitiatorInitiator | FrameTypeInitiatorTarget =>
          Some (dispatchParsedRequestLocked frame observedAt false r)
      | _ => None
      end
  end.

(** The check of [requestRaw] at the offset of ZZ. *)
Definition invalidZZ (zz : byte) : bool :=
  (zz =? 0xAA) || (zz =? 0xA9)
  || (negb (zz =? 0xFE) && negb (isInitiatorAddr zz) && negb (isValidTargetAddr zz)).

(** The part of [handleRequestSymbolLocked] for a byte that is data. *)
Definition handleRequestData (symbol : byte) (wasEscaped : bool) (observedAt : time)
    (r0 : reconstructor) : result :=
  let r := set_state (fun s =>
    set_progress observedAt (set_requestRaw (requestRaw s ++ [symbol]) s)) r0 in
  let raw := requestRaw (state r) in
  let rawLen := len raw in
  if (rawLen =? 2) && invalidZZ (at_ raw 1) then
    abandonThen PassiveAbandonReasonInvalidZZ observedAt (Some RecInvalidPayload) (at_ raw 1) wasEscaped
      abandonAndReset r
  else if (rawLen =? 5) && (maxPassiveDataLen <? at_ raw 4) then
    abandonThen PassiveAbandonReasonInvalidNNMaster observedAt (Some RecInvalidPayload) (at_ raw 4)
      wasEscaped abandonAndReset r
  else if maxPassiveLogicalRequestBytes <? rawLen then
    abandonThen PassiveAbandonReasonBufferOverflow observedAt (Some RecInvalidPayload) symbol wasEscaped
      abandonAndReset r
  else if (5 <=? rawLen) && (rawLen =? 6 + at_ raw 4) then
    match commitRequestFrameLocked observedAt r with
    | Some res => res
    | None =>
        match parseFrame raw with
        | None =>
            let reason :=
              if isSelfOriginatedRaw r then PassiveAbandonReasonSelfEcho
              else if isScanProbeRaw raw then PassiveAbandonReasonScanCollision
              else PassiveAbandonReasonCorruptedRequest in
            abandonThen reason observedAt (Some RecInvalidPayload) symbol wasEscaped abandonAndReset r
        | Some _ => (r, [])
        end
    end
  else (r, []).

(** The part of [handleRequestSymbolLocked] for a wire SYN. *)
Definition handleRequestSyn (symbol : byte) (wasEscaped : bool) (observedAt : time)
    (r0 : reconstructor) : result :=
  let r := set_state (fun s =>
    set_progress observedAt (set_timing (with_RequestEnd observedAt (timing s)) s)) r0 in
  let raw := requestRaw (state r) in
  match parseFrame raw with
  | Some frame => dispatchParsedRequestLocked frame observedAt true r
  | None =>
      let abandon reason r' :=
        abandonThen reason observedAt (Some RecInvalidPayload) symbol wasEscaped
          resetStateLockedAfterSyn r' in
      if len raw <? 5 then abandon PassiveAbandonReasonArbitrationFragment r
      else if isSelfOriginatedRaw r then abandon PassiveAbandonReasonSelfEcho r
      else if isScanProbeRaw raw then abandon PassiveAbandonReasonScanCollision r
      else if (at_ raw 4 <=? maxPassiveDataLen) && (len raw <? 6 + at_ raw 4) then
        abandon PassiveAbandonReasonUnexpectedSYN
          (set_pending (abandonString PassiveAbandonReasonUnexpectedSYN) r)
      else abandon PassiveAbandonReasonCorruptedRequest r
  end.

(** [handleRequestSymbolLocked]. *)
Definition handleRequestSymbolLocked (symbol : byte) (wasEscaped : bool) (observedAt : time)
    (r : reconstructor) : result :=
  if negb (symbol =? SymbolSyn) || wasEscaped
  then handleRequestData symbol wasEscaped observedAt r
  else handleRequestSyn symbol wasEscaped observedAt r.

(** [handleACKSymbolLocked]. *)
Definition handleACKSymbolLocked (symbol : byte) (wasEscaped : bool) (observedAt : time)
    (r : reconstructor) : result :=
  if symbol =? SymbolAck then
    let r1 := set_state (fun s =>
      set_ack (m2aRequestACKCorrelation symbol) (set_progress observedAt s)) r in
    match frameType (state r1) with
    | FrameTypeInitiatorInitiator => (set_state (set_phase passivePhaseWaitTerminal) r1, [])
    | _ =>
        (set_state (fun s =>
           set_crcValid false (set_expected 0 (set_responseRaw []
             (set_phase passivePhaseWaitResponse s)))) r1, [])
    end
  else if symbol =? SymbolNack then
    abandonThen PassiveAbandonReasonNACK observedAt (Some RecNACK) symbol wasEscaped
      resetStateLockedAfterSyn
      (set_state (set_ack (m2aRequestACKCorrelation symbol)) r)
  else if symbol =? SymbolSyn then
    if isScanTimeoutLocked r then
      abandonThen PassiveAbandonReasonScanTimeout observedAt (Some RecTimeout) symbol wasEscaped
        resetStateLockedAfterSyn r
    else if isSelfOriginatedParsed r then
      abandonThen PassiveAbandonReasonSelfEcho observedAt (Some RecTimeout) symbol wasEscaped
        resetStateLockedAfterSyn r
    else
      abandonThen PassiveAbandonReasonUnexpectedSYN observedAt (Some RecTimeout) symbol wasEscaped
        (fun r' => resetStateLockedAfterSyn
           (set_pending (abandonString PassiveAbandonReasonUnexpectedSYN) r')) r
  else
    abandonThen PassiveAbandonReasonUnexpectedSymbol observedAt (Some RecInvalidPayload) symbol wasEscaped
      toAbandoned r.

(** [handleResponseSymbolLocked]. *)
Definition handleResponseSymbolLocked (symbol : byte) (wasEscaped : bool) (observedAt : time)
    (r : reconstructor) : result :=
  let empty := len (responseRaw (state r)) =? 0 in
  if empty && (symbol =? SymbolSyn) && negb wasEscaped then
    abandonThen PassiveAbandonReasonNoResponse observedAt (Some RecTimeout) symbol wasEscaped
      resetStateLockedAfterSyn r
  else if negb empty && (symbol =? SymbolSyn) && negb wasEscaped then
    abandonThen PassiveAbandonReasonUnexpectedSYN observedAt (Some RecTimeout) symbol wasEscaped
      (fun r' => resetStateLockedAfterSyn
         (set_pending (abandonString PassiveAbandonReasonUnexpectedSYN) r')) r
  else
    let r1 := set_state (set_progress observedAt) r in
    if empty && (maxPassiveDataLen <? symbol) then
      abandonThen PassiveAbandonReasonInvalidNNSlave observedAt (Some RecInvalidPayload) symbol wasEscaped
        abandonAndReset
        (set_state (fun s => set_responseRaw (responseRaw s ++ [symbol]) s) r1)
    else
      let r2 := if empty
                then set_state (fun s =>
                       set_expected (symbol + 2)
                         (set_timing (with_ResponseStart observedAt (timing s)) s)) r1
                else r1 in
      let r3 := set_state (fun s => set_responseRaw (responseRaw s ++ [symbol]) s) r2 in
      let s3 := state r3 in
      if len (responseRaw s3) <? responseExpectedLen s3 then (r3, [])
      else if responseExpectedLen s3 <? len (responseRaw s3) then
        abandonThen PassiveAbandonReasonUnexpectedSymbol observedAt (Some RecInvalidPayload) symbol
          wasEscaped toAbandoned r3
      else
        let '(f, ok) := parsePassiveResponse (request s3) (responseRaw s3) in
        (set_state (fun s =>
           set_phase passivePhaseWaitFinalACK
             (set_timing (with_ResponseEnd observedAt (timing s)) (set_response f ok s))) r3, []).

(** [handleFinalACKSymbolLocked]. *)
Definition handleFinalACKSymbolLocked (symbol : byte) (wasEscaped : bool) (observedAt : time)
    (r : reconstructor) : result :=
  if symbol =? SymbolAck then
    if negb (responseCRCValid (state r)) then
      abandonThen PassiveAbandonReasonCRCMismatch observedAt (Some RecCRCMismatch) symbol wasEscaped
        toAbandoned r
    else
      (set_state (fun s =>
         set_phase passivePhaseWaitTerminal (set_progress observedAt s)) r, [])
  else if symbol =? SymbolNack then
    abandonThen PassiveAbandonReasonAmbiguousRetransmit observedAt (Some RecNACK) symbol wasEscaped
      toAbandoned r
  else if symbol =? SymbolSyn then
    abandonThen PassiveAbandonReasonUnexpectedSYN observedAt (Some RecTimeout) symbol wasEscaped
      (fun r' => resetStateLockedAfterSyn
         (set_pending (abandonString PassiveAbandonReasonUnexpectedSYN) r')) r
  else
    abandonThen PassiveAbandonReasonUnexpectedSymbol observedAt (Some RecInvalidPayload) symbol wasEscaped
      toAbandoned r.

(** [handleTerminalSymbolLocked]. *)
Definition handleTerminalSymbolLocked (symbol : byte) (wasEscaped : bool) (observedAt : time)
    (r : reconstructor) : result :=
  if negb (symbol =? SymbolSyn) then
    abandonThen PassiveAbandonReasonUnexpectedSymbol observedAt (Some RecInvalidPayload) symbol wasEscaped
      toAbandoned r
  else
    let r1 := set_state (set_progress observedAt) r in
    let s := state r1 in
    let tm := with_Terminal observedAt (timing s) in
    match frameType s with
    | FrameTypeInitiatorInitiator =>
        (resetStateLockedAfterSyn (recordRecoveryLocked r1),
         [mkEvent PassiveClassifiedEventMasterFrame (frameType s) (request s) zeroFrame true false
            tm observedAt PassiveAbandonReasonNone PassiveDiscontinuityNone (ackCorrelation s)
            None EmptyString 0 false])
    | FrameTypeInitiatorTarget =>
        (resetStateLockedAfterSyn (recordRecoveryLocked r1),
         [mkEvent PassiveClassifiedEventTransaction (frameType s) (request s) (response s) true
            true tm observedAt PassiveAbandonReasonNone PassiveDiscontinuityNone
            (ackCorrelation s) None EmptyString 0 false])
    | _ =>
        abandonThen PassiveAbandonReasonUnexpectedSymbol observedAt (Some RecInvalidPayload) 0 false
          resetStateLockedAfterSyn r1
    end.

(** The [passivePhaseIdle] case of [handleSymbolLocked]. *)
Definition handleIdleSymbol (symbol : byte) (wasEscaped : bool) (observedAt : time)
    (r : reconstructor) : result :=
  if symbol =? SymbolSyn then (set_state (set_gate true false) r, [])
  else if negb (synced (state r)) then
    if negb (awaitingResync (state r)) then
      (set_metrics (fun m =>
         mkMetrics (recoveryTotal m) (abandonsByReason m)
           (incr64 (prefixResyncSkippedTotal m)) (invalidSrcClassSkippedTotal m)) r, [])
    else (r, [])
  else if negb (address_class_master symbol) then
    (set_state (set_gate false true)
       (set_metrics (fun m =>
          mkMetrics (recoveryTotal m) (abandonsByReason m) (prefixResyncSkippedTotal m)
            (incr64 (invalidSrcClassSkippedTotal m))) r), [])
  else if negb (isInitiatorAddr symbol) then
    abandonThen PassiveAbandonReasonInvalidQQ observedAt (Some RecInvalidPayload) symbol wasEscaped
      abandonAndReset r
  else (startRequestLocked symbol observedAt r, []).

(** [handleSymbolLocked]. *)
Definition handleSymbolLocked (symbol : byte) (wasEscaped : bool) (observedAt : time)
    (r : reconstructor) : result :=
  match phase (state r) with
  | passivePhaseIdle => handleIdleSymbol symbol wasEscaped observedAt r
  | passivePhaseRequest => handleRequestSymbolLocked symbol wasEscaped observedAt r
  | passivePhaseWaitACK => handleACKSymbolLocked symbol wasEscaped observedAt r
  | passivePhaseWaitResponse => handleResponseSymbolLocked symbol wasEscaped observedAt r
  | passivePhaseWaitFinalACK => handleFinalACKSymbolLocked symbol wasEscaped observedAt r
  | passivePhaseWaitTerminal => handleTerminalSymbolLocked symbol wasEscaped observedAt r
  | passivePhaseAbandoned =>
      if symbol =? SymbolSyn then (resetStateLockedAfterSyn r, []) else (r, [])
  end.

(** The phases in which a transaction is pending. *)
Definition pendingPhase (p : passiveTransactionPhase) : bool :=
  match p with passivePhaseIdle | passivePhaseAbandoned => false | _ => true end.

(** [expireIfStaleLocked]. *)
Definition expireIfStaleLocked (observedAt : time) (r : reconstructor) : result :=
  if negb (pendingPhase (phase (state r))) || IsZero (lastProgressAt (state r)) then (r, [])
  else if observedAt - lastProgressAt (state r) <=? watchdog r then (r, [])
  else
    abandonThen PassiveAbandonReasonNoProgress observedAt (Some RecTimeout) 0 false toAbandoned r.

(** [handleTransportDiscontinuityLocked]. *)
Definition handleTransportDiscontinuityLocked (observedAt : time)
    (reason : PassiveDiscontinuityReason) (abandonReason : PassiveAbandonReason)
    (err : option recError) (r : reconstructor) : result :=
  let '(r1, evs) :=
    if pendingPhase (phase (state r))
    then abandonThen abandonReason observedAt err 0 false
           (fun r' => r') r
    else (r, []) in
  let r2 := match reason with
            | PassiveDiscontinuityTransportReset | PassiveDiscontinuityDecodeFault =>
                set_pending (discontinuityString reason) r1
            | _ => r1
            end in
  (resetStateLocked r2, evs ++ [discontinuityEvent observedAt reason err]).

(** [handleTapEventLocked]. *)
Definition handleTapEventLocked (e : PassiveTapEvent) (r : reconstructor) : result :=
  let err := RecTap <$> Err e in
  match Kind e with
  | PassiveTapEventSymbol =>
      let '(r1, evs1) := expireIfStaleLocked (ObservedAt e) r in
      let '(r2, evs2) := handleSymbolLocked (Symbol e) (WasEscaped e) (ObservedAt e) r1 in
      (r2, evs1 ++ evs2)
  | PassiveTapEventConnected =>
      (resetStateLocked r, [discontinuityEvent (ObservedAt e) PassiveDiscontinuityConnected err])
  | PassiveTapEventDisconnected =>
      handleTransportDiscontinuityLocked (ObservedAt e) PassiveDiscontinuityDisconnected
        PassiveAbandonReasonDisconnected err r
  | PassiveTapEventReset =>
      handleTransportDiscontinuityLocked (ObservedAt e) PassiveDiscontinuityTransportReset
        PassiveAbandonReasonTransportReset err r
  | PassiveTapEventDecodeFault =>
      handleTransportDiscontinuityLocked (ObservedAt e) PassiveDiscontinuityDecodeFault
        PassiveAbandonReasonDecodeFault err r
  | PassiveTapEventReadTimeout => expireIfStaleLocked (ObservedAt e) r
  end.

(** [shutdownEvents]; [now] is the clock. *)
Definition shutdownEvents (now : time) (r : reconstructor) : result :=
  let '(r1, evs) :=
    if pendingPhase (phase (state r))
    then abandonThen PassiveAbandonReasonShutdown now (Some RecCanceled) 0 false (fun r' => r') r
    else (r, []) in
  (resetStateLocked r1,
   evs ++ [discontinuityEvent now PassiveDiscontinuityShutdown (Some RecCanceled)]).

(** The consumer over a sequence of tap events. *)
Fixpoint runTap (es : list PassiveTapEvent) (r : reconstructor) : result :=
  match es with
  | [] => (r, [])
  | e :: rest =>
      let '(r1, evs) := handleTapEventLocked e r in
      let '(r2, evs') := runTap rest r1 in
      (r2, evs ++ evs')
  end.
End Handlers.


(** ** Example traffic *)

(** Symbol events at consecutive instants. *)
Definition demo_symbols (t0 : Z) (l : list (byte * bool)) : list PassiveTapEvent :=
  imap (fun i x => mkTapEvent PassiveTapEventSymbol (fst x) (t0 + Z.of_nat i) None (snd x)) l.

(** A B509 read and its three-byte answer, 0xAA among the data. *)
Definition demo_request : Frame := mkFrame 0x10 0x08 0xB5 0x09 [0x0D; 0xAA].
Definition demo_answer : list byte := [0x01; 0xA9; 0x02].
Definition demo_wire : list wireItem :=
  let P := demo_protocol in
  WireSyn :: (WireData <$> canonicalFrameBytes demo_request) ++
  (WireData <$> 0 :: responseBytes demo_answer ++ [0]) ++ [WireSyn].
Definition demo_events : list PassiveTapEvent :=
  let P := demo_protocol in demo_symbols 1 (logical <$> demo_wire).

Example demo_transaction :
  let P := demo_protocol in
  (fun e => (EvKind e, EvRequest e, Data (EvResponse e))) <$>
    snd (runTap demo_events (newReconstructor 0 None)) =
  [(PassiveClassifiedEventTransaction, demo_request, demo_answer)].
Proof. by vm_compute. Qed.

(** The inter-frame gate can open without a SYN on the bus: the
    idle handler does not read the escape flag, so after an invalid LEN
    byte closed the gate a stuffed data byte 0xAA of the same telegram opens
    it again and the next data byte is taken as the source of a request.  No
    unescaped 0xAA follows the one that preceded the telegram. *)
Example escaped_payload_opens_gate :
  let P := demo_protocol in
  let before := [(0xAA, false); (0x10, false); (0x08, false); (0xB5, false); (0x09, false);
                 (0x20, false)] in
  let r1 := fst (runTap (demo_symbols 1 before) (newReconstructor 0 None)) in
  let r2 := fst (runTap (demo_symbols 7 [(0xAA, true); (0x03, false)]) r1) in
  state r1 = idleState false /\ phase (state r2) = passivePhaseRequest /\
  requestRaw (state r2) = [0x03].
Proof. by vm_compute. Qed.
End Reconstructor.
