(* ===== verification/ReconstructorInv.v ===== *)
(** * Safety of the passive reconstructor

    The invariant that ties every phase of [Reconstructor] to the symbols
    observed so far, its preservation by every handler, and the safety
    properties that follow: no transaction is forged, the buffers are
    bounded, the counters agree with the events. *)

From S2P Require Import Prelude Ebus PassiveTap Reconstructor.

Module ReconstructorInv.
Import PassiveTap Reconstructor.

(** ** The invariant *)

Section Invariant.
Context {P : EbusProtocol}.

(** A request buffer that passed the checks made so far. *)
Definition req_shape (raw : list byte) : Prop :=
  all_bytes raw /\ (1 <= length raw <= 50)%nat /\
  isInitiatorAddr (at_ raw 0) = true /\ address_class_master (at_ raw 0) = true /\
  ((2 <= length raw)%nat -> invalidZZ (at_ raw 1) = false) /\
  ((5 <= length raw)%nat -> at_ raw 4 <= maxPassiveDataLen).

(** A buffer of the length its LEN byte announces is still pending only
    when it parses as a frame that waits for its SYN. *)
Definition awaits_syn (raw : list byte) : Prop :=
  (5 <= length raw)%nat -> len raw = 6 + at_ raw 4 ->
  exists f, parseFrame raw = Some f /\
    (frame_type f = FrameTypeBroadcast \/ frame_type f = FrameTypeUnknown).

(** The request was committed out of its buffer. *)
Definition committed (s : passiveTransactionState) : Prop :=
  req_shape (requestRaw s) /\ parseFrame (requestRaw s) = Some (request s) /\
  frame_type (request s) = frameType s /\
  (frameType s = FrameTypeInitiatorInitiator \/ frameType s = FrameTypeInitiatorTarget).

(** The response buffer, being filled or complete. *)
Definition resp_partial (s : passiveTransactionState) : Prop :=
  (responseRaw s = [] /\ responseExpectedLen s = 0) \/
  (exists n rest, responseRaw s = n :: rest /\ n <= maxPassiveDataLen /\
     responseExpectedLen s = n + 2 /\ len (responseRaw s) < n + 2).
Definition resp_complete (s : passiveTransactionState) : Prop :=
  (2 <= length (responseRaw s) <= 18)%nat /\
  parsePassiveResponse (request s) (responseRaw s) = (response s, responseCRCValid s).

(** [h] is the symbols seen since the last discontinuity. *)
Definition wf (h : list byte) (s : passiveTransactionState) : Prop :=
  match phase s with
  | passivePhaseIdle => s = set_gate (synced s) (awaitingResync s) (idleState false)
  | passivePhaseRequest =>
      req_shape (requestRaw s) /\ awaits_syn (requestRaw s) /\ responseRaw s = [] /\
      requestRaw s `suffix_of` h
  | passivePhaseWaitACK =>
      committed s /\ responseRaw s = [] /\ requestRaw s `suffix_of` h
  | passivePhaseWaitResponse =>
      committed s /\ frameType s = FrameTypeInitiatorTarget /\ resp_partial s /\
      ackCorrelation s = m2aRequestACKCorrelation SymbolAck /\
      requestRaw s ++ SymbolAck :: responseRaw s `suffix_of` h
  | passivePhaseWaitFinalACK =>
      committed s /\ frameType s = FrameTypeInitiatorTarget /\ resp_complete s /\
      ackCorrelation s = m2aRequestACKCorrelation SymbolAck /\
      requestRaw s ++ SymbolAck :: responseRaw s `suffix_of` h
  | passivePhaseWaitTerminal =>
      committed s /\ ackCorrelation s = m2aRequestACKCorrelation SymbolAck /\
      (frameType s = FrameTypeInitiatorInitiator /\ responseRaw s = [] /\
         requestRaw s ++ [SymbolAck] `suffix_of` h \/
       frameType s = FrameTypeInitiatorTarget /\ resp_complete s /\ responseCRCValid s = true /\
         requestRaw s ++ SymbolAck :: responseRaw s ++ [SymbolAck] `suffix_of` h)
  | passivePhaseAbandoned =>
      (length (requestRaw s) <= 50)%nat /\ (length (responseRaw s) <= 18)%nat
  end.

(** ** What an event claims *)

(** A request the bus rules allow. *)
Definition legal_request (f : Frame) : Prop :=
  isInitiatorAddr (Source f) = true /\ invalidZZ (Target f) = false /\
  (length (Data f) <= 16)%nat /\ all_bytes (canonicalFrameBytes f).

(** The symbols an event of each kind stands for are the last ones seen. *)
Definition event_ok (h : list byte) (e : PassiveClassifiedEvent) : Prop :=
  match EvKind e with
  | PassiveClassifiedEventBroadcastFrame =>
      legal_request (EvRequest e) /\ frame_type (EvRequest e) = FrameTypeBroadcast /\
      canonicalFrameBytes (EvRequest e) ++ [SymbolSyn] `suffix_of` h
  | PassiveClassifiedEventMasterFrame =>
      legal_request (EvRequest e) /\ frame_type (EvRequest e) = FrameTypeInitiatorInitiator /\
      ACKCorrelation e = m2aRequestACKCorrelation SymbolAck /\
      canonicalFrameBytes (EvRequest e) ++ [SymbolAck; SymbolSyn] `suffix_of` h
  | PassiveClassifiedEventTransaction =>
      legal_request (EvRequest e) /\ frame_type (EvRequest e) = FrameTypeInitiatorTarget /\
      ACKCorrelation e = m2aRequestACKCorrelation SymbolAck /\
      Source (EvResponse e) = Target (EvRequest e) /\
      Target (EvResponse e) = Source (EvRequest e) /\
      Primary (EvResponse e) = Primary (EvRequest e) /\
      Secondary (EvResponse e) = Secondary (EvRequest e) /\
      (length (Data (EvResponse e)) <= 16)%nat /\
      canonicalFrameBytes (EvRequest e) ++ SymbolAck ::
        responseBytes (Data (EvResponse e)) ++ [SymbolAck; SymbolSyn] `suffix_of` h
  | PassiveClassifiedEventAbandonedTransaction =>
      stripsAck (AbandonReason e) = true -> ACKCorrelation e = noAck
  | PassiveClassifiedEventDiscontinuity => True
  end.

(** An event for a telegram that was completed. *)
Definition completes (e : PassiveClassifiedEvent) : bool :=
  match EvKind e with
  | PassiveClassifiedEventBroadcastFrame | PassiveClassifiedEventMasterFrame
  | PassiveClassifiedEventTransaction => true
  | _ => false
  end.

(** ** Counting *)

(** Abandon events with reason string [k]. *)
Definition abandons (k : string) (evs : list PassiveClassifiedEvent) : nat :=
  countb (fun e => bool_decide (EvKind e = PassiveClassifiedEventAbandonedTransaction)
                   && String.eqb (abandonString (AbandonReason e)) k) evs.
Definition counter (k : string) (r : reconstructor) : Z :=
  default 0 (abandonsByReason (metrics r) !! k).
Definition counted (r : reconstructor) (res : reconstructor * list PassiveClassifiedEvent) : Prop :=
  watchdog (fst res) = watchdog r /\
  forall k, 0 <= counter k r < 2 ^ 64 ->
    0 <= counter k (fst res) < 2 ^ 64 /\
    counter k (fst res) = u64 (counter k r + Z.of_nat (abandons k (snd res))).

(** A handler's result is fine after symbol [sym]. *)
Definition step_ok (h : list byte) (r : reconstructor)
    (res : reconstructor * list PassiveClassifiedEvent) : Prop :=
  wf h (state (fst res)) /\ Forall (event_ok h) (snd res) /\
  (length (snd res) <= 1)%nat /\ counted r res.
End Invariant.

(** The symbols since the last discontinuity; a read timeout is none. *)
Definition observe (h : list byte) (e : PassiveTapEvent) : list byte :=
  match Kind e with
  | PassiveTapEventSymbol => h ++ [Symbol e]
  | PassiveTapEventReadTimeout => h
  | _ => []
  end.
Definition observed (es : list PassiveTapEvent) : list byte := fold_left observe es [].

(** What the event [ev] stands for holds at the moment the tap event [e],
    which comes after the symbols [h], makes the reconstructor emit it; a
    telegram is completed by a SYN symbol and by no other tap event. *)
Definition emission_ok `{EbusProtocol} (h : list byte) (e : PassiveTapEvent)
    (ev : PassiveClassifiedEvent) : Prop :=
  event_ok (observe h e) ev /\
  (completes ev = true -> Kind e = PassiveTapEventSymbol /\ Symbol e = SymbolSyn).

(** A tap event carries a byte. *)
Definition tap_ok (e : PassiveTapEvent) : Prop := is_byte (Symbol e).

Definition tap_okb (e : PassiveTapEvent) : bool := (0 <=? Symbol e) && (Symbol e <? 256).

(** ** Lemmas *)

Lemma tap_ok_forall (es : list PassiveTapEvent) : forallb tap_okb es = true -> Forall tap_ok es.
Proof.
  intros H. apply List.Forall_forall. rewrite List.forallb_forall in H. intros e He.
  apply H in He. unfold tap_okb in He. unfold tap_ok, is_byte. bool_facts. lia.
Qed.

Lemma suffix_snoc (l h : list Z) (x : Z) : l `suffix_of` h -> l ++ [x] `suffix_of` h ++ [x].
Proof. intros [k ->]. exists k. by rewrite app_assoc. Qed.

Section Lemmas.
Context {P : EbusProtocol} {L : EbusLaws P}.

Lemma wf_idle (h : list byte) (b : bool) : wf h (idleState b).
Proof. done. Qed.

Lemma req_shape_length (raw : list byte) : req_shape raw -> (length raw <= 50)%nat.
Proof. intros (_ & H & _). lia. Qed.

Lemma resp_partial_length (s : passiveTransactionState) :
  resp_partial s -> (length (responseRaw s) <= 17)%nat.
Proof.
  unfold maxPassiveDataLen. intros [[-> _]|(n & rest & -> & Hn & _ & Hl)]; simpl in *;
    unfold maxPassiveDataLen in *; lia.
Qed.

(** The buffers are bounded in every phase. *)
Lemma wf_bounds (h : list byte) (s : passiveTransactionState) :
  wf h s -> (length (requestRaw s) <= 50)%nat /\ (length (responseRaw s) <= 18)%nat.
Proof.
  unfold wf, committed, resp_complete. destruct (phase s); intros Hw.
  - rewrite Hw. simpl. lia.
  - destruct Hw as (Hr & _ & -> & _). apply req_shape_length in Hr. simpl. lia.
  - destruct Hw as ((Hr & _) & -> & _). apply req_shape_length in Hr. simpl. lia.
  - destruct Hw as ((Hr & _) & _ & Hp & _). apply req_shape_length in Hr.
    apply resp_partial_length in Hp. lia.
  - destruct Hw as ((Hr & _) & _ & Hp & _). apply req_shape_length in Hr. lia.
  - destruct Hw as ((Hr & _) & _ & [(_ & -> & _)|(_ & Hp & _)]);
      apply req_shape_length in Hr; simpl; lia.
  - lia.
Qed.

(** *** Counting *)

Lemma counted_same r r' :
  watchdog r' = watchdog r -> abandonsByReason (metrics r') = abandonsByReason (metrics r) ->
  counted r (r', []).
Proof.
  intros Hw Hm. split; [done|]. intros k Hk. unfold counter in *. simpl. rewrite Hm.
  split; [done|]. rewrite Z.add_0_r. by rewrite u64_id.
Qed.

(** An event that is no abandon does not count. *)
Lemma counted_other r r' e :
  watchdog r' = watchdog r -> abandonsByReason (metrics r') = abandonsByReason (metrics r) ->
  EvKind e <> PassiveClassifiedEventAbandonedTransaction -> counted r (r', [e]).
Proof.
  intros Hw Hm He. destruct (counted_same r r' Hw Hm) as [_ H]. split; [done|]. intros k Hk.
  destruct (H k Hk) as [H1 H2]. cbn [fst snd] in *. split; [done|]. rewrite H2.
  unfold abandons, countb. simpl. by rewrite bool_decide_eq_false_2.
Qed.

Lemma abandon_metrics reason t err sym w r :
  let r' := fst (abandonLocked reason t err sym w r) in
  abandonsByReason (metrics r') = bump (abandonString reason) (abandonsByReason (metrics r)) /\
  state r' = state r /\ watchdog r' = watchdog r.
Proof.
  unfold abandonLocked, logForensicsLocked. simpl.
  destruct (shouldLogReconstructorForensics reason); [|done]. by break.
Qed.

(** Abandoning counts one under its reason; the tail must not count. *)
Lemma counted_abandon reason t err sym w tail r :
  (forall r', watchdog (tail r') = watchdog r' /\
     abandonsByReason (metrics (tail r')) = abandonsByReason (metrics r')) ->
  counted r (abandonThen reason t err sym w tail r).
Proof.
  intros Ht. unfold abandonThen.
  destruct (abandon_metrics reason t err sym w r) as (Hm & _ & Hw).
  destruct (abandonLocked reason t err sym w r) as [r1 ev] eqn:Hab. simpl in Hm, Hw.
  destruct (Ht r1) as [Ht1 Ht2]. split; [simpl; congruence|]. intros k Hk.
  unfold counter in *. simpl. rewrite Ht2, Hm. unfold abandonLocked in Hab. simplify_eq.
  unfold abandons, countb. simpl.
  destruct (String.eqb_spec (abandonString reason) k) as [->|Hne]; simpl.
  - rewrite bump_lookup. simpl. unfold incr64. split; [apply u64_range|done].
  - rewrite bump_lookup_ne by done. split; [done|]. rewrite Z.add_0_r. by rewrite u64_id.
Qed.

(** *** The two ways an abandon ends *)

(** A tail that resets to an idle state and counts nothing. *)
Definition idle_tail (tail : reconstructor -> reconstructor) : Prop :=
  forall r, (exists b, state (tail r) = idleState b) /\ watchdog (tail r) = watchdog r /\
    abandonsByReason (metrics (tail r)) = abandonsByReason (metrics r).

Lemma idle_reset : idle_tail resetStateLocked.
Proof. intros r. split; [by exists false|done]. Qed.
Lemma idle_resetAfterSyn : idle_tail resetStateLockedAfterSyn.
Proof. intros r. split; [by exists true|done]. Qed.
Lemma idle_abandonAndReset : idle_tail abandonAndReset.
Proof. intros r. split; [by exists false|done]. Qed.
Lemma idle_pending p : idle_tail (fun r => resetStateLockedAfterSyn (set_pending p r)).
Proof. intros r. split; [by exists true|done]. Qed.

Lemma abandon_event_ok h reason t err sym w r :
  event_ok h (snd (abandonLocked reason t err sym w r)).
Proof. unfold event_ok, abandonLocked. simpl. by intros ->. Qed.

Lemma step_abandon_idle h reason t err sym w tail r r0 :
  idle_tail tail -> watchdog r = watchdog r0 ->
  abandonsByReason (metrics r) = abandonsByReason (metrics r0) ->
  step_ok h r0 (abandonThen reason t err sym w tail r).
Proof.
  intros Ht Hw Hm.
  assert (Hc : counted r (abandonThen reason t err sym w tail r)).
  { apply counted_abandon. intros r'. by destruct (Ht r') as (_ & ? & ?). }
  pose proof (abandon_event_ok h reason t err sym w r) as He.
  unfold abandonThen in *. destruct (abandonLocked reason t err sym w r) as [r1 ev].
  simpl in He. split_and!; simpl.
  - destruct (Ht r1) as ([b ->] & _). apply wf_idle.
  - by constructor.
  - lia.
  - destruct Hc as [Hc1 Hc2]. split; [congruence|]. intros k Hk. unfold counter in *.
    rewrite <- Hm in *. by apply Hc2.
Qed.

Lemma step_abandon_here h reason t err sym w r r0 :
  (length (requestRaw (state r)) <= 50)%nat -> (length (responseRaw (state r)) <= 18)%nat ->
  watchdog r = watchdog r0 ->
  abandonsByReason (metrics r) = abandonsByReason (metrics r0) ->
  step_ok h r0 (abandonThen reason t err sym w toAbandoned r).
Proof.
  intros Hq Hp Hw Hm.
  assert (Hc : counted r (abandonThen reason t err sym w toAbandoned r))
    by (by apply counted_abandon).
  pose proof (abandon_event_ok h reason t err sym w r) as He.
  destruct (abandon_metrics reason t err sym w r) as (_ & Hs & _).
  unfold abandonThen in *. destruct (abandonLocked reason t err sym w r) as [r1 ev].
  simpl in He, Hs. split_and!; simpl.
  - rewrite Hs. done.
  - by constructor.
  - lia.
  - destruct Hc as [Hc1 Hc2]. split; [congruence|]. intros k Hk. unfold counter in *.
    rewrite <- Hm in *. by apply Hc2.
Qed.

(** No event, no count: only the state matters. *)
Lemma step_quiet h r r' :
  watchdog r' = watchdog r -> abandonsByReason (metrics r') = abandonsByReason (metrics r) ->
  wf h (state r') -> step_ok h r (r', []).
Proof.
  intros Hw Hm Hwf. split_and!; [done|constructor|simpl; lia|by apply counted_same].
Qed.

(** *** Requests *)

(** A parsed buffer of the right shape is a legal request. *)
Lemma legal_of_shape (raw : list byte) (f : Frame) :
  req_shape raw -> parseFrame raw = Some f ->
  legal_request f /\ canonicalFrameBytes f = raw.
Proof.
  intros (Hb & Hl & Hq & _ & Hz & Hn) Hp.
  pose proof (parseFrame_canonical raw f Hb Hp) as Hc. split; [|done].
  apply parseFrame_Some_inv in Hp as (h & c & -> & Hh & Hlen & _ & ->).
  rewrite length_app in *. simpl in Hl. unfold legal_request. simpl.
  rewrite Hc. split_and!; try done.
  - by rewrite at_app_l in Hq by lia.
  - rewrite at_app_l in Hz by lia. apply Hz. simpl. lia.
  - rewrite at_app_l in Hn by lia. unfold maxPassiveDataLen in Hn.
    rewrite length_drop. simpl in Hn. lia.
Qed.

Lemma recordRecovery_frame r :
  state (recordRecoveryLocked r) = state r /\ watchdog (recordRecoveryLocked r) = watchdog r /\
  abandonsByReason (metrics (recordRecoveryLocked r)) = abandonsByReason (metrics r).
Proof. unfold recordRecoveryLocked. by destruct (String.eqb _ _). Qed.

(** A request that waits for its ACK. *)
Lemma step_dispatch_ack h f t after r r0 :
  req_shape (requestRaw (state r)) -> parseFrame (requestRaw (state r)) = Some f ->
  (frame_type f = FrameTypeInitiatorInitiator \/ frame_type f = FrameTypeInitiatorTarget) ->
  responseRaw (state r) = [] -> requestRaw (state r) `suffix_of` h ->
  watchdog r = watchdog r0 -> abandonsByReason (metrics r) = abandonsByReason (metrics r0) ->
  step_ok h r0 (dispatchParsedRequestLocked f t after r).
Proof.
  intros Hs Hp Hty Hr Hsuf Hw Hm. unfold dispatchParsedRequestLocked.
  destruct (frame_type f) eqn:Ht; try (destruct Hty; done); simpl;
    (apply step_quiet; [done|done|]); unfold wf, committed; simpl; rewrite Ht; auto.
Qed.

(** A frame its SYN completes: a broadcast, or one of unknown type. *)
Lemma step_dispatch_syn h f t r r0 :
  req_shape (requestRaw (state r)) -> parseFrame (requestRaw (state r)) = Some f ->
  (frame_type f = FrameTypeBroadcast \/ frame_type f = FrameTypeUnknown) ->
  requestRaw (state r) `suffix_of` h ->
  watchdog r = watchdog r0 -> abandonsByReason (metrics r) = abandonsByReason (metrics r0) ->
  step_ok (h ++ [SymbolSyn]) r0 (dispatchParsedRequestLocked f t true r).
Proof.
  intros Hs Hp Hty Hsuf Hw Hm. unfold dispatchParsedRequestLocked.
  destruct (legal_of_shape _ _ Hs Hp) as [Hlegal Hc].
  destruct (frame_type f) eqn:Ht; try (destruct Hty; done); simpl.
  - by apply step_abandon_idle; [apply idle_resetAfterSyn| |].
  - set (r1 := set_state _ r). destruct (recordRecovery_frame r1) as (_ & Hw1 & Hm1).
    split_and!.
    + apply wf_idle.
    + constructor; [|constructor]. unfold event_ok. cbn [EvKind EvRequest].
      split_and!; try done. rewrite Hc. by apply suffix_snoc.
    + simpl. lia.
    + apply counted_other; simpl; [rewrite Hw1|rewrite Hm1|]; done.
Qed.

(** Appending a byte that passed its checks keeps the shape. *)
Lemma req_shape_snoc (raw : list byte) (x : byte) :
  req_shape raw -> is_byte x ->
  (len (raw ++ [x]) =? 2) && invalidZZ (at_ (raw ++ [x]) 1) = false ->
  (len (raw ++ [x]) =? 5) && (maxPassiveDataLen <? at_ (raw ++ [x]) 4) = false ->
  (maxPassiveLogicalRequestBytes <? len (raw ++ [x])) = false ->
  req_shape (raw ++ [x]).
Proof.
  intros (Hb & Hl & Hq & Hm & Hz & Hn) Hx H2 H5 Hcap. unfold maxPassiveLogicalRequestBytes in *.
  rewrite length_app in *. simpl in *. bool_facts. unfold req_shape.
  rewrite length_app. simpl. rewrite (at_app_l raw [x] 0) by lia. split_and!; try done.
  - apply Forall_app. split; [done|]. by apply Forall_singleton.
  - lia.
  - lia.
  - intros Hlen. destruct (decide (length raw = 1)%nat) as [He|He].
    + destruct (Z.eqb_spec (Z.of_nat (length raw + 1)) 2); [|lia]. done.
    + rewrite at_app_l by lia. apply Hz. lia.
  - intros Hlen. destruct (decide (length raw = 4)%nat) as [He|He].
    + destruct (Z.eqb_spec (Z.of_nat (length raw + 1)) 5); [|lia]. simpl in H5. bool_facts. lia.
    + rewrite at_app_l by lia. apply Hn. lia.
Qed.

Lemma step_request_data h sym w t r :
  wf h (state r) -> phase (state r) = passivePhaseRequest -> is_byte sym ->
  step_ok (h ++ [sym]) r (handleRequestData sym w t r).
Proof.
  unfold wf. intros Hwf Hph Hb. rewrite Hph in Hwf. destruct Hwf as (Hs & Ha & Hr & Hsuf).
  unfold handleRequestData. set (r1 := set_state _ r).
  change (requestRaw (state r1)) with (requestRaw (state r) ++ [sym]).
  set (raw := requestRaw (state r) ++ [sym]).
  destruct (_ && invalidZZ _) eqn:H2; [by apply step_abandon_idle; [apply idle_abandonAndReset| |]|].
  destruct (_ && (maxPassiveDataLen <? _)) eqn:H5;
    [by apply step_abandon_idle; [apply idle_abandonAndReset| |]|].
  destruct (maxPassiveLogicalRequestBytes <? len raw) eqn:Hcap;
    [by apply step_abandon_idle; [apply idle_abandonAndReset| |]|].
  pose proof (req_shape_snoc _ _ Hs Hb H2 H5 Hcap) as Hs1. fold raw in Hs1.
  assert (Hsuf1 : raw `suffix_of` h ++ [sym]) by (by apply suffix_snoc).
  assert (Hquiet : awaits_syn raw -> step_ok (h ++ [sym]) r (r1, [])).
  { intros Haw. apply step_quiet; [done|done|]. unfold wf. simpl. by rewrite Hph. }
  destruct (_ && (len raw =? _)) eqn:Hcomplete.
  - unfold commitRequestFrameLocked. change (requestRaw (state r1)) with raw.
    destruct (parseFrame raw) as [f|] eqn:Hp.
    + destruct (frame_type f) eqn:Ht.
      * apply Hquiet. intros _ _. exists f. auto.
      * apply step_dispatch_ack; auto.
      * apply step_dispatch_ack; auto.
      * apply Hquiet. intros _ _. exists f. auto.
    + by apply step_abandon_idle; [apply idle_abandonAndReset| |].
  - apply Hquiet. intros H5' Hlen. exfalso.
    destruct (Z.leb_spec 5 (len raw)); [|lia].
    destruct (Z.eqb_spec (len raw) (6 + at_ raw 4)); done.
Qed.

Lemma step_request_syn h t r :
  wf h (state r) -> phase (state r) = passivePhaseRequest ->
  step_ok (h ++ [SymbolSyn]) r (handleRequestSyn SymbolSyn false t r).
Proof.
  unfold wf. intros Hwf Hph. rewrite Hph in Hwf. destruct Hwf as (Hs & Ha & Hr & Hsuf).
  unfold handleRequestSyn. set (r1 := set_state _ r).
  change (requestRaw (state r1)) with (requestRaw (state r)).
  destruct (parseFrame (requestRaw (state r))) as [f|] eqn:Hp.
  - apply step_dispatch_syn; try done.
    apply parseFrame_Some_inv in Hp as Hinv.
    destruct Hinv as (hd & c & Heq & Hh & Hlen & _).
    destruct Ha as (f' & Hp' & Hty); [rewrite Heq, length_app; simpl; lia| |congruence].
    rewrite Heq, length_app. simpl. rewrite at_app_l by lia. lia.
  - break; apply step_abandon_idle; try done; apply idle_resetAfterSyn.
Qed.

(** *** Later phases *)

Lemma step_ack h sym w t r :
  wf h (state r) -> phase (state r) = passivePhaseWaitACK ->
  step_ok (h ++ [sym]) r (handleACKSymbolLocked sym w t r).
Proof.
  intros Hwf Hph. destruct (wf_bounds _ _ Hwf) as [Hb1 Hb2].
  unfold wf in Hwf. rewrite Hph in Hwf. destruct Hwf as (Hc & Hr & Hsuf).
  unfold handleACKSymbolLocked.
  destruct (Z.eqb_spec sym SymbolAck) as [->|].
  - pose proof Hc as (_ & _ & _ & Hty).
    change (frameType (state (set_state (fun s => set_ack (m2aRequestACKCorrelation SymbolAck)
      (set_progress t s)) r))) with (frameType (state r)).
    destruct (frameType (state r)) eqn:Ht; try (destruct Hty; done);
      (apply step_quiet; [done|done|]); unfold wf; simpl.
    + split_and!; try done. left. split_and!; try done. by apply suffix_snoc.
    + split_and!; try done; [by left|]. by apply suffix_snoc.
  - destruct (sym =? SymbolNack); [by apply step_abandon_idle; [apply idle_resetAfterSyn| |]|].
    destruct (sym =? SymbolSyn); [|by apply step_abandon_here].
    break; apply step_abandon_idle; try done; apply idle_resetAfterSyn || apply idle_pending.
Qed.

Lemma step_response h sym w t r :
  wf h (state r) -> phase (state r) = passivePhaseWaitResponse -> is_byte sym ->
  step_ok (h ++ [sym]) r (handleResponseSymbolLocked sym w t r).
Proof.
  intros Hwf Hph Hb. destruct (wf_bounds _ _ Hwf) as [Hb1 Hb2].
  unfold wf in Hwf. rewrite Hph in Hwf. destruct Hwf as (Hc & Hty & Hp & Hack & Hsuf).
  assert (Hsuf1 : requestRaw (state r) ++ SymbolAck :: responseRaw (state r) ++ [sym]
      `suffix_of` h ++ [sym]).
  { replace (requestRaw (state r) ++ SymbolAck :: responseRaw (state r) ++ [sym])
      with ((requestRaw (state r) ++ SymbolAck :: responseRaw (state r)) ++ [sym])
      by (by rewrite <- app_assoc). by apply suffix_snoc. }
  unfold handleResponseSymbolLocked.
  destruct (_ && _ && negb w); [by apply step_abandon_idle; [apply idle_resetAfterSyn| |]|].
  destruct (_ && _ && negb w); [by apply step_abandon_idle; [apply idle_pending| |]|].
  destruct Hp as [[Hr He]|(n & rest & Hr & Hn & He & Hl)].
  - (* the first byte is NN_s *)
    rewrite Hr. change (len (@nil Z) =? 0) with true. cbn [andb].
    destruct (Z.ltb_spec maxPassiveDataLen sym) as [Hgt|Hle];
      [by apply step_abandon_idle; [apply idle_abandonAndReset| |]|].
    cbn [responseRaw state set_state set_responseRaw set_expected responseExpectedLen
      set_progress set_timing]. rewrite Hr. cbn [app length].
    destruct (Z.ltb_spec (Z.of_nat 1) (sym + 2)); [|unfold is_byte in Hb; lia].
    apply step_quiet; [done|done|]. unfold wf. simpl. rewrite Hph, Hr in *. simpl in *.
    split_and!; try done. right. exists sym, []. simpl. split_and!; try done.
  - (* further bytes *)
    rewrite Hr. destruct (Z.eqb_spec (len (n :: rest)) 0); [simpl in *; lia|]. cbn [andb].
    cbn [responseRaw state set_state set_responseRaw set_expected responseExpectedLen
      set_progress set_timing request]. rewrite Hr, He. rewrite Hr in Hl, Hsuf1.
    rewrite length_app. simpl length in *.
    destruct (Z.ltb_spec (Z.of_nat (S (length rest) + 1)) (n + 2)).
    + apply step_quiet; [done|done|]. unfold wf, resp_partial. simpl. rewrite Hph, ?Hr, ?He. simpl.
      split_and!; try done. right. exists n, (rest ++ [sym]). simpl. rewrite length_app. simpl.
      by split_and!.
    + destruct (Z.ltb_spec (n + 2) (Z.of_nat (S (length rest) + 1))); [lia|].
      destruct (parsePassiveResponse (request (state r)) ((n :: rest) ++ [sym])) as [f ok] eqn:Hpr.
      apply step_quiet; [done|done|]. unfold wf, resp_complete. simpl. rewrite Hr, Hty. simpl in *.
      unfold maxPassiveDataLen in Hn. rewrite length_app. simpl. split_and!; try done; lia.
Qed.

Lemma step_finalACK h sym w t r :
  wf h (state r) -> phase (state r) = passivePhaseWaitFinalACK ->
  step_ok (h ++ [sym]) r (handleFinalACKSymbolLocked sym w t r).
Proof.
  intros Hwf Hph. destruct (wf_bounds _ _ Hwf) as [Hb1 Hb2].
  unfold wf in Hwf. rewrite Hph in Hwf. destruct Hwf as (Hc & Hty & Hp & Hack & Hsuf).
  unfold handleFinalACKSymbolLocked. destruct (Z.eqb_spec sym SymbolAck) as [->|].
  - destruct (responseCRCValid (state r)) eqn:Hv; [|by apply step_abandon_here].
    apply step_quiet; [done|done|]. unfold wf. simpl. split_and!; try done.
    right. split_and!; try done.
    replace (requestRaw (state r) ++ SymbolAck :: responseRaw (state r) ++ [SymbolAck])
      with ((requestRaw (state r) ++ SymbolAck :: responseRaw (state r)) ++ [SymbolAck])
      by (by rewrite <- app_assoc). by apply suffix_snoc.
  - destruct (sym =? SymbolNack); [by apply step_abandon_here|].
    destruct (sym =? SymbolSyn); [|by apply step_abandon_here].
    by apply step_abandon_idle; [apply idle_pending| |].
Qed.

Lemma step_terminal h sym w t r :
  wf h (state r) -> phase (state r) = passivePhaseWaitTerminal ->
  step_ok (h ++ [sym]) r (handleTerminalSymbolLocked sym w t r).
Proof.
  intros Hwf Hph. destruct (wf_bounds _ _ Hwf) as [Hb1 Hb2].
  unfold wf in Hwf. rewrite Hph in Hwf. destruct Hwf as (Hc & Hack & Hcase).
  unfold handleTerminalSymbolLocked.
  destruct (Z.eqb_spec sym SymbolSyn) as [->|]; cbn [negb]; [|by apply step_abandon_here].
  set (r1 := set_state (set_progress t) r).
  destruct (recordRecovery_frame r1) as (_ & Hw1 & Hm1).
  change (frameType (state r1)) with (frameType (state r)).
  pose proof Hc as (Hs & Hpar & Hft & _). destruct (legal_of_shape _ _ Hs Hpar) as [Hlegal Hcan].
  destruct Hcase as [(Hty & Hr & Hsuf)|(Hty & [Hrl Hresp] & Hv & Hsuf)]; rewrite Hty in *.
  - split_and!; [apply wf_idle| |simpl; lia|apply counted_other; simpl; [rewrite Hw1|rewrite Hm1|]; done].
    constructor; [|constructor]. unfold event_ok. cbn [EvKind EvRequest ACKCorrelation].
    split_and!; try done. change (request (state r1)) with (request (state r)). rewrite Hcan.
    apply (suffix_snoc _ _ SymbolSyn) in Hsuf. by rewrite <- app_assoc in Hsuf.
  - rewrite Hv in Hresp. destruct (parsePassiveResponse_valid _ _ _ Hresp)
      as (Hraw & H1 & H2 & H3 & H4).
    split_and!; [apply wf_idle| |simpl; lia|apply counted_other; simpl; [rewrite Hw1|rewrite Hm1|]; done].
    constructor; [|constructor]. unfold event_ok. cbn [EvKind EvRequest EvResponse ACKCorrelation].
    change (request (state r1)) with (request (state r)).
    change (response (state r1)) with (response (state r)).
    split_and!; try done.
    + rewrite Hraw in Hrl. unfold responseBytes in Hrl. rewrite length_app in Hrl. simpl in Hrl. lia.
    + rewrite Hcan, <- Hraw. apply (suffix_snoc _ _ SymbolSyn) in Hsuf.
      rewrite <- app_assoc in Hsuf. simpl in Hsuf. by rewrite <- app_assoc in Hsuf.
Qed.

Lemma step_idle h sym w t r :
  wf h (state r) -> phase (state r) = passivePhaseIdle -> is_byte sym ->
  step_ok (h ++ [sym]) r (handleIdleSymbol sym w t r).
Proof.
  intros Hwf Hph Hb. unfold wf in Hwf. rewrite Hph in Hwf.
  assert (Hquiet : forall r' b c, watchdog r' = watchdog r ->
      abandonsByReason (metrics r') = abandonsByReason (metrics r) ->
      state r' = set_gate b c (state r) -> step_ok (h ++ [sym]) r (r', [])).
  { intros r' b c ? ? Hs. apply step_quiet; try done. unfold wf. rewrite Hs. simpl.
    rewrite Hph. by rewrite Hwf. }
  unfold handleIdleSymbol.
  destruct (sym =? SymbolSyn); [by eapply Hquiet|].
  destruct (negb (synced (state r))).
  { destruct (negb (awaitingResync (state r)));
      eapply (Hquiet _ (synced (state r)) (awaitingResync (state r))); try done;
      simpl; by destruct (state r). }
  destruct (address_class_master sym) eqn:Hm; cbn [negb]; [|by eapply Hquiet].
  destruct (isInitiatorAddr sym) eqn:Hi; cbn [negb];
    [|by apply step_abandon_idle; [apply idle_abandonAndReset| |]].
  apply step_quiet; [done|done|]. unfold wf, req_shape, awaits_syn, at_. simpl.
  split_and!; try done; try lia.
  - by apply Forall_singleton.
  - by exists h.
Qed.

(** One symbol, in any phase. *)
Lemma step_symbol h sym w t r :
  wf h (state r) -> is_byte sym -> step_ok (h ++ [sym]) r (handleSymbolLocked sym w t r).
Proof.
  intros Hwf Hb. unfold handleSymbolLocked. destruct (phase (state r)) eqn:Hph.
  - by apply step_idle.
  - unfold handleRequestSymbolLocked. destruct (Z.eqb_spec sym SymbolSyn) as [->|]; simpl.
    + destruct w; [by apply step_request_data|by apply step_request_syn].
    + by apply step_request_data.
  - by apply step_ack.
  - by apply step_response.
  - by apply step_finalACK.
  - by apply step_terminal.
  - destruct (sym =? SymbolSyn); (apply step_quiet; [done|done|]).
    + apply wf_idle.
    + unfold wf in *. by rewrite Hph in *.
Qed.

(** *** Tap events *)

Lemma counted_trans r r1 r2 evs1 evs2 :
  counted r (r1, evs1) -> counted r1 (r2, evs2) -> counted r (r2, evs1 ++ evs2).
Proof.
  intros [Hw1 H1] [Hw2 H2]. cbn [fst snd] in *. split; [simpl; congruence|]. intros k Hk.
  destruct (H1 k Hk) as [Hr1 He1]. destruct (H2 k Hr1) as [Hr2 He2]. split; [done|].
  cbn [fst snd]. rewrite He2, He1. unfold abandons. rewrite countb_app, Nat2Z.inj_add.
  unfold u64. rewrite Zplus_mod_idemp_l. f_equal. lia.
Qed.

Lemma step_expire h t r :
  wf h (state r) ->
  step_ok h r (expireIfStaleLocked t r) /\
  (expireIfStaleLocked t r = (r, []) \/
   phase (state (fst (expireIfStaleLocked t r))) = passivePhaseAbandoned /\
   forall h', Forall (event_ok h') (snd (expireIfStaleLocked t r))).
Proof.
  intros Hwf. destruct (wf_bounds _ _ Hwf) as [Hb1 Hb2]. unfold expireIfStaleLocked.
  destruct (_ || _); [split; [by apply step_quiet|by left]|].
  destruct (_ <=? _); [split; [by apply step_quiet|by left]|].
  split; [by apply step_abandon_here|right].
  pose proof (fun h' => abandon_event_ok h' PassiveAbandonReasonNoProgress t (Some RecTimeout)
    0 false r) as He.
  unfold abandonThen. destruct (abandonLocked _ _ _ _ _ r) as [r1 ev].
  split; [done|]. intros h'. by apply Forall_singleton.
Qed.

(** The result of one tap event, as [step_ok] but with up to two events. *)
Definition tap_step_ok (h : list byte) (r : reconstructor)
    (res : reconstructor * list PassiveClassifiedEvent) : Prop :=
  wf h (state (fst res)) /\ Forall (event_ok h) (snd res) /\
  (length (snd res) <= 2)%nat /\ counted r res.

Lemma tap_of_step h r res : step_ok h r res -> tap_step_ok h r res.
Proof. intros (H1 & H2 & H3 & H4). split_and!; try done. lia. Qed.

Lemma tap_discontinuity h t reason ab err r :
  tap_step_ok h r (handleTransportDiscontinuityLocked t reason ab err r).
Proof.
  unfold handleTransportDiscontinuityLocked.
  set (mid := if pendingPhase _ then _ else _).
  assert (Hmid : Forall (event_ok h) (snd mid) /\ (length (snd mid) <= 1)%nat /\ counted r mid).
  { unfold mid. destruct (pendingPhase _); [|split_and!; [constructor|simpl; lia|by apply counted_same]].
    pose proof (counted_abandon ab t err 0 false (fun r' => r') r) as Hc.
    pose proof (abandon_event_ok h ab t err 0 false r) as He. unfold abandonThen in *.
    destruct (abandonLocked ab t err 0 false r) as [r1 ev]. simpl in He.
    split_and!; [by constructor|simpl; lia|by apply Hc]. }
  destruct mid as [r1 evs]. destruct Hmid as (He & Hl & Hc). simpl in He, Hl. split_and!; simpl.
  - apply wf_idle.
  - apply Forall_app. split; [done|]. by apply Forall_singleton.
  - rewrite length_app. simpl. lia.
  - eapply counted_trans; [exact Hc|]. apply counted_other; [|by destruct reason|done].
    by destruct reason.
Qed.

Lemma tap_step h e r :
  wf h (state r) -> tap_ok e -> tap_step_ok (observe h e) r (handleTapEventLocked e r).
Proof.
  intros Hwf Hb. unfold handleTapEventLocked, observe.
  destruct (Kind e); try apply tap_discontinuity.
  - split_and!; [apply wf_idle|by apply Forall_singleton|simpl; lia|by apply counted_other].
  - destruct (step_expire h (ObservedAt e) r Hwf) as [(Hw1 & He1 & Hl1 & Hc1) Hor].
    destruct (expireIfStaleLocked (ObservedAt e) r) as [r1 evs1]. simpl in Hw1, He1, Hl1.
    destruct Hor as [Heq|[Hph Hev]].
    + injection Heq as -> ->.
      pose proof (step_symbol h (Symbol e) (WasEscaped e) (ObservedAt e) r Hwf Hb) as Hs.
      destruct (handleSymbolLocked _ _ _ r) as [r2 evs2]. by apply tap_of_step.
    + pose proof (step_symbol h (Symbol e) (WasEscaped e) (ObservedAt e) r1 Hw1 Hb)
        as (Hw2 & _ & _ & Hc2).
      simpl in Hph. unfold handleSymbolLocked in *. rewrite Hph in *.
      specialize (Hev (h ++ [Symbol e])).
      destruct (Symbol e =? SymbolSyn); split_and!; simpl in *; try done; try lia;
        rewrite ?app_nil_r; try done; try lia; rewrite <- (app_nil_r evs1);
        by eapply counted_trans.
  - apply tap_of_step. by apply step_expire.
Qed.

(** *** Completed telegrams *)

Lemma expire_incomplete t r : Forall (fun ev => completes ev = false) (snd (expireIfStaleLocked t r)).
Proof. unfold expireIfStaleLocked. destruct (_ || _); [done|]. destruct (_ <=? _); [done|]. by constructor. Qed.

Lemma discontinuity_incomplete t reason ab err r :
  Forall (fun ev => completes ev = false) (snd (handleTransportDiscontinuityLocked t reason ab err r)).
Proof. unfold handleTransportDiscontinuityLocked. destruct (pendingPhase _); by repeat constructor. Qed.

Lemma suffix_last (l h : list Z) (x y : Z) : l ++ [x] `suffix_of` h ++ [y] -> y = x.
Proof. intros [k Hk]. rewrite app_assoc in Hk. by apply app_inj_2 in Hk as [_ [= ->]]. Qed.

Lemma completed_syn h sym ev : completes ev = true -> event_ok (h ++ [sym]) ev -> sym = SymbolSyn.
Proof.
  unfold completes, event_ok. destruct (EvKind ev); try done; intros _.
  - intros (_ & _ & Hs). by apply suffix_last in Hs.
  - intros (_ & _ & _ & Hs). apply (suffix_last (canonicalFrameBytes (EvRequest ev) ++ [SymbolAck]) h).
    by rewrite <- app_assoc.
  - intros (_ & _ & _ & _ & _ & _ & _ & _ & Hs).
    apply (suffix_last (canonicalFrameBytes (EvRequest ev) ++ SymbolAck ::
      responseBytes (Data (EvResponse ev)) ++ [SymbolAck]) h).
    by rewrite <- app_assoc; cbn [app]; rewrite <- app_assoc.
Qed.

Lemma incomplete_count evs : Forall (fun ev => completes ev = false) evs -> countb completes evs = 0%nat.
Proof. unfold countb. induction 1 as [|ev evs He _ IH]; [done|]. cbn. by rewrite He. Qed.

Lemma countb_length {A} (f : A -> bool) l : (countb f l <= length l)%nat.
Proof. unfold countb. induction l as [|x l IH]; cbn; [done|]. destruct (f x); cbn; lia. Qed.

(** What one tap event makes the reconstructor emit is true when it is
    emitted, and one telegram at most is completed. *)
Lemma tap_emission h e r :
  wf h (state r) -> tap_ok e ->
  Forall (emission_ok h e) (snd (handleTapEventLocked e r)) /\
  (countb completes (snd (handleTapEventLocked e r)) <= 1)%nat.
Proof.
  intros Hwf Hb. destruct (tap_step h e r Hwf Hb) as (_ & He & _ & _).
  assert (Hno : Forall (fun ev => completes ev = false) (snd (handleTapEventLocked e r)) ->
     Forall (emission_ok h e) (snd (handleTapEventLocked e r)) /\
     (countb completes (snd (handleTapEventLocked e r)) <= 1)%nat).
  { intros Hn. split; [|rewrite incomplete_count by done; lia].
    revert Hn. induction He as [|ev evs He _ IH]; intros Hn; [done|]. inversion Hn as [|? ? H1 H2]; subst.
    constructor; [|by apply IH]. split; [done|]. by rewrite H1. }
  unfold handleTapEventLocked in *. destruct (Kind e) eqn:Hk.
  all: try (apply Hno; first [apply discontinuity_incomplete | apply expire_incomplete | by repeat constructor]).
  clear Hno. pose proof (expire_incomplete (ObservedAt e) r) as Hx.
  destruct (step_expire h (ObservedAt e) r Hwf) as [(Hw1 & _) _].
  destruct (expireIfStaleLocked (ObservedAt e) r) as [r1 evs1]. cbn [fst snd] in Hx, Hw1.
  pose proof (step_symbol h (Symbol e) (WasEscaped e) (ObservedAt e) r1 Hw1 Hb) as (_ & _ & Hl & _).
  destruct (handleSymbolLocked _ _ _ r1) as [r2 evs2]. cbn [snd] in *. split.
  - eapply Forall_impl; [exact He|]. intros ev Hev. split; [done|]. intros Hc. split; [done|].
    unfold observe in Hev. rewrite Hk in Hev. by eapply completed_syn.
  - rewrite countb_app, (incomplete_count evs1) by done. pose proof (countb_length completes evs2). lia.
Qed.

(** *** Runs *)

Lemma runTap_snoc es e r :
  runTap (es ++ [e]) r =
    (fst (handleTapEventLocked e (fst (runTap es r))),
     snd (runTap es r) ++ snd (handleTapEventLocked e (fst (runTap es r)))).
Proof.
  revert r. induction es as [|e0 es IH]; intros r; cbn [app runTap].
  - cbn. destruct (handleTapEventLocked e r). by rewrite app_nil_r.
  - destruct (handleTapEventLocked e0 r) as [r1 evs]. rewrite IH.
    destruct (runTap es r1) as [r2 evs2]. cbn. by rewrite app_assoc.
Qed.

Lemma run_ok es r h0 :
  wf h0 (state r) -> Forall tap_ok es ->
  wf (fold_left observe es h0) (state (fst (runTap es r))) /\
  (forall ev, ev ∈ snd (runTap es r) ->
     exists es1, es1 `prefix_of` es /\ event_ok (fold_left observe es1 h0) ev) /\
  counted r (runTap es r).
Proof.
  intros Hwf Hes. revert r h0 Hwf. induction Hes as [|e es He Hes IH]; intros r h0 Hwf.
  - simpl. split_and!; [done|set_solver|by apply counted_same].
  - cbn [runTap]. destruct (tap_step h0 e r Hwf He) as (Hw1 & He1 & _ & Hc1).
    destruct (handleTapEventLocked e r) as [r1 evs1]. simpl in Hw1, He1.
    destruct (IH r1 _ Hw1) as (Hw2 & He2 & Hc2).
    destruct (runTap es r1) as [r2 evs2]. simpl in *. split_and!; [done| |by eapply counted_trans].
    intros ev [Hev|Hev]%elem_of_app.
    + exists [e]. split; [by apply prefix_cons, prefix_nil|]. rewrite Forall_forall in He1.
      by apply He1.
    + destruct (He2 ev Hev) as (es1 & Hp & Hok). exists (e :: es1). split; [by apply prefix_cons|done].
Qed.

(** *** A wire SYN *)

Lemma request_syn_resync h t r :
  wf h (state r) -> phase (state r) = passivePhaseRequest ->
  state (fst (handleRequestSyn SymbolSyn false t r)) = idleState true.
Proof.
  unfold wf. intros Hwf Hph. rewrite Hph in Hwf. destruct Hwf as (Hs & Ha & _ & _).
  unfold handleRequestSyn. set (r1 := set_state _ r).
  change (requestRaw (state r1)) with (requestRaw (state r)).
  destruct (parseFrame (requestRaw (state r))) as [f|] eqn:Hp.
  - apply parseFrame_Some_inv in Hp as Hinv. destruct Hinv as (hd & c & Heq & Hh & Hlen & _).
    destruct Ha as (f' & Hp' & Hty).
    { rewrite Heq, length_app. simpl. lia. }
    { rewrite Heq, length_app. simpl. rewrite at_app_l by lia. lia. }
    assert (f' = f) as -> by congruence. unfold dispatchParsedRequestLocked.
    destruct (frame_type f); by destruct Hty.
  - by break.
Qed.

Lemma symbol_syn_resync h t r :
  wf h (state r) -> state (fst (handleSymbolLocked SymbolSyn false t r)) = idleState true.
Proof.
  intros Hwf. unfold handleSymbolLocked. destruct (phase (state r)) eqn:Hph.
  - unfold wf in Hwf. rewrite Hph in Hwf. unfold handleIdleSymbol. rewrite Z.eqb_refl. simpl.
    by rewrite Hwf.
  - unfold handleRequestSymbolLocked. rewrite Z.eqb_refl. simpl. by eapply request_syn_resync.
  - unfold handleACKSymbolLocked. rewrite syn_value, ack_value, nack_value. zeval.
    by break.
  - unfold handleResponseSymbolLocked. rewrite Z.eqb_refl. simpl.
    by destruct (_ =? 0).
  - unfold handleFinalACKSymbolLocked. rewrite syn_value, ack_value, nack_value. by zeval.
  - unfold handleTerminalSymbolLocked. rewrite Z.eqb_refl. simpl.
    by break.
  - by rewrite Z.eqb_refl.
Qed.

Lemma tap_syn_resync h t r :
  wf h (state r) ->
  state (fst (handleTapEventLocked (mkTapEvent PassiveTapEventSymbol SymbolSyn t None false) r)) =
    idleState true.
Proof.
  intros Hwf. unfold handleTapEventLocked. simpl.
  destruct (step_expire h t r Hwf) as [(Hw1 & _) _].
  destruct (expireIfStaleLocked t r) as [r1 evs1]. simpl in Hw1.
  pose proof (symbol_syn_resync h t r1 Hw1) as H.
  by destruct (handleSymbolLocked SymbolSyn false t r1).
Qed.

(** One tap event and the gate. *)
Lemma tap_resync h e r :
  wf h (state r) ->
  let '(r', evs) := handleTapEventLocked e r in
  match Kind e with
  | PassiveTapEventSymbol =>
      (Symbol e = SymbolSyn -> WasEscaped e = false -> state r' = idleState true) /\
      (Symbol e <> SymbolSyn -> phase (state r) = passivePhaseIdle -> synced (state r) = false ->
         state r' = state r /\ evs = [])
  | PassiveTapEventReadTimeout => phase (state r) = passivePhaseIdle -> state r' = state r /\ evs = []
  | _ => state r' = idleState false
  end.
Proof.
  intros Hwf. unfold handleTapEventLocked. destruct (Kind e) eqn:Hk.
  all: try (unfold handleTransportDiscontinuityLocked; destruct (pendingPhase _); cbn; by repeat case_match).
  - done.
  - destruct (step_expire h (ObservedAt e) r Hwf) as [(Hw1 & _) _].
    assert (Hidle : phase (state r) = passivePhaseIdle -> expireIfStaleLocked (ObservedAt e) r = (r, [])).
    { intros Hph. unfold expireIfStaleLocked. by rewrite Hph. }
    destruct (expireIfStaleLocked (ObservedAt e) r) as [r1 evs1]. cbn [fst] in Hw1.
    pose proof (symbol_syn_resync h (ObservedAt e) r1 Hw1) as Hs.
    destruct (handleSymbolLocked (Symbol e) (WasEscaped e) (ObservedAt e) r1) as [r2 evs2] eqn:Hh. split.
    + intros E1 E2. rewrite E1, E2 in Hh. by rewrite Hh in Hs.
    + intros Hne Hph Hsy. specialize (Hidle Hph). injection Hidle as -> ->. revert Hh. unfold handleSymbolLocked, handleIdleSymbol.
      rewrite Hph, Hsy, (proj2 (Z.eqb_neq _ _) Hne). cbn. destruct (awaitingResync (state r)); cbn; by intros [= <- <-].
  - unfold expireIfStaleLocked. destruct (phase (state r)) eqn:Hph; cbn; by repeat case_match.
Qed.

Lemma clamp_range v :
  minPassiveTransactionWatchdog <= clampPassiveTransactionWatchdog v <=
  maxPassiveTransactionWatchdog.
Proof.
  unfold clampPassiveTransactionWatchdog, minPassiveTransactionWatchdog,
    maxPassiveTransactionWatchdog.
  destruct (Z.leb_spec v 0); [lia|]. destruct (Z.ltb_spec v 250000000); [lia|].
  destruct (Z.ltb_spec 5000000000 v); lia.
Qed.
End Lemmas.

(** ** Properties *)

Section Safety.
Context {P : EbusProtocol} {L : EbusLaws P}.

(** C1: no transaction is forged.  Whatever the tap has delivered before,
    every event that the next tap event makes the reconstructor emit is true
    at that moment.  A broadcast, master frame or transaction is emitted only
    on a SYN symbol, one at most, and then the symbols observed up to and
    including that SYN, with no discontinuity between, end with exactly the
    encoding of what the event claims: the request with its CRC, the ACK, the
    response with its CRC, the final ACK and the SYN; so no telegram is
    reported twice or later than it ended.  The request's source is an
    initiator, its target legal, its data at most sixteen bytes.  An
    abandoned event for a missing response, no progress, an ambiguous
    retransmission or a CRC mismatch carries no ACK correlation. *)
Theorem passive_no_forgery (wd : time) (addr : option (bool * byte))
    (es : list PassiveTapEvent) (e : PassiveTapEvent) :
  Forall tap_ok es -> tap_ok e ->
  let r := newReconstructor wd addr in
  let now := snd (handleTapEventLocked e (fst (runTap es r))) in
  snd (runTap (es ++ [e]) r) = snd (runTap es r) ++ now /\
  Forall (emission_ok (observed es) e) now /\ (countb completes now <= 1)%nat.
Proof.
  intros Hes He. cbv zeta. destruct (run_ok es (newReconstructor wd addr) []) as (Hwf & _ & _); [done|done|].
  split; [by rewrite runTap_snoc|]. by apply tap_emission.
Qed.

(** The reconstructor's memory is bounded: in every reachable state
    the request buffer holds at most fifty bytes and the response buffer
    eighteen, one tap event yields at most two classified events, and the
    watchdog is between a quarter of a second and five seconds. *)
Theorem reconstructor_bounded (wd : time) (addr : option (bool * byte))
    (es : list PassiveTapEvent) (e : PassiveTapEvent) :
  Forall tap_ok es -> tap_ok e ->
  let r := fst (runTap es (newReconstructor wd addr)) in
  (length (requestRaw (state r)) <= 50)%nat /\ (length (responseRaw (state r)) <= 18)%nat /\
  (length (snd (handleTapEventLocked e r)) <= 2)%nat /\
  minPassiveTransactionWatchdog <= watchdog r <= maxPassiveTransactionWatchdog.
Proof.
  intros Hes He r.
  destruct (run_ok es (newReconstructor wd addr) []) as (Hwf & _ & Hw & _); [done|done|].
  destruct (wf_bounds _ _ Hwf) as [H1 H2]. split_and!; try done.
  - by destruct (tap_step _ e r Hwf He) as (_ & _ & H & _).
  - unfold r. rewrite Hw. apply clamp_range.
  - unfold r. rewrite Hw. apply clamp_range.
Qed.

(** The counter of each abandon reason is, modulo 2^64, the number of
    abandon events emitted with that reason. *)
Theorem abandon_counters_exact (wd : time) (addr : option (bool * byte))
    (es : list PassiveTapEvent) (k : string) :
  Forall tap_ok es ->
  let '(r, evs) := runTap es (newReconstructor wd addr) in
  counter k r = u64 (Z.of_nat (abandons k evs)).
Proof.
  intros Hes.
  destruct (run_ok es (newReconstructor wd addr) []) as (_ & _ & _ & Hc); [done|done|].
  destruct (runTap es (newReconstructor wd addr)) as [r evs].
  destruct (Hc k) as [_ H]; [unfold counter; simpl; rewrite lookup_empty; simpl; lia|].
  unfold counter in *. simpl in *. rewrite H, lookup_empty. done.
Qed.

(** C39: the parser resynchronises itself.  From any reachable state, after
    any garbage, one wire SYN leads to the idle state with the gate open,
    ready for a frame, and a connect, disconnect, transport reset or decode
    fault leads to the idle state with the gate closed; behind a closed gate
    no symbol but 0xAA starts a request or makes the reconstructor emit
    anything: the parser stays idle and closed. *)
Theorem reconstructor_resynchronises (wd : time) (addr : option (bool * byte))
    (es : list PassiveTapEvent) (e : PassiveTapEvent) :
  Forall tap_ok es -> tap_ok e ->
  let r := fst (runTap es (newReconstructor wd addr)) in
  let '(r', evs) := handleTapEventLocked e r in
  match Kind e with
  | PassiveTapEventSymbol =>
      (Symbol e = SymbolSyn -> WasEscaped e = false -> state r' = idleState true) /\
      (Symbol e <> SymbolSyn -> phase (state r) = passivePhaseIdle -> synced (state r) = false ->
         state r' = state r /\ evs = [])
  | PassiveTapEventReadTimeout => phase (state r) = passivePhaseIdle -> state r' = state r /\ evs = []
  | _ => state r' = idleState false
  end.
Proof.
  intros Hes He r. destruct (run_ok es (newReconstructor wd addr) []) as (Hwf & _); [done|done|]. fold r in Hwf.
  pose proof (tap_resync (fold_left observe es []) e r Hwf) as H.
  destruct (handleTapEventLocked e r) as [r' evs]. exact H.
Qed.
End Safety.

(** *** The hypotheses can hold *)

Definition demo_event : PassiveClassifiedEvent :=
  let P := demo_protocol in
  default (discontinuityEvent 0 PassiveDiscontinuityNone None)
    (head (snd (runTap demo_events (newReconstructor 0 None)))).

Definition demo_before : list PassiveTapEvent := Eval vm_compute in removelast demo_events.
Definition demo_last : PassiveTapEvent :=
  Eval vm_compute in List.last demo_events (mkTapEvent PassiveTapEventSymbol 0 0 None false).
Lemma demo_last_emits :
  snd (@handleTapEventLocked demo_protocol demo_last
    (fst (@runTap demo_protocol demo_before (newReconstructor 0 None)))) = [demo_event].
Proof. by vm_compute. Qed.

Lemma passive_no_forgery_witness :
  demo_before ++ [demo_last] = demo_events /\ completes demo_event = true /\
  @emission_ok demo_protocol (observed demo_before) demo_last demo_event.
Proof.
  destruct (@passive_no_forgery demo_protocol demo_laws 0 None demo_before demo_last) as (_ & H & _).
  - apply tap_ok_forall. by vm_compute.
  - vm_compute. split; [discriminate|reflexivity].
  - rewrite demo_last_emits in H. apply (proj1 (Forall_singleton _ _)) in H.
    split; [vm_compute; reflexivity|]. split; [vm_compute; reflexivity|exact H].
Defined.

Lemma reconstructor_bounded_witness :
  let r := fst (@runTap demo_protocol (take 12 demo_events) (newReconstructor 0 None)) in
  (length (requestRaw (state r)) <= 50)%nat /\ phase (state r) = passivePhaseWaitResponse.
Proof.
  split.
  - apply (@reconstructor_bounded demo_protocol demo_laws 0 None (take 12 demo_events)
      (mkTapEvent PassiveTapEventSymbol 1 9 None false)).
    + apply tap_ok_forall. by vm_compute.
    + unfold tap_ok, is_byte. simpl. lia.
  - by vm_compute.
Defined.

Lemma abandon_counters_exact_witness :
  let '(r, evs) := @runTap demo_protocol
    (demo_symbols 1 [(0xAA, false); (0x10, false); (0xAA, false)]) (newReconstructor 0 None) in
  counter "arbitration_fragment" r = u64 (Z.of_nat (abandons "arbitration_fragment" evs)).
Proof.
  apply (@abandon_counters_exact demo_protocol demo_laws 0 None
    (demo_symbols 1 [(0xAA, false); (0x10, false); (0xAA, false)]) "arbitration_fragment").
  apply tap_ok_forall. by vm_compute.
Defined.

Lemma reconstructor_resynchronises_witness :
  state (fst (@handleTapEventLocked demo_protocol
    (mkTapEvent PassiveTapEventSymbol 0xAA 100 None false)
    (fst (@runTap demo_protocol (take 9 demo_events) (newReconstructor 0 None))))) = idleState true.
Proof.
  pose proof (@reconstructor_resynchronises demo_protocol demo_laws 0 None (take 9 demo_events)
    (mkTapEvent PassiveTapEventSymbol 0xAA 100 None false)) as H. cbv zeta in H.
  destruct (@handleTapEventLocked demo_protocol (mkTapEvent PassiveTapEventSymbol 0xAA 100 None false)
    (fst (@runTap demo_protocol (take 9 demo_events) (newReconstructor 0 None)))) as [r' evs].
  apply H; [apply tap_ok_forall; by vm_compute|unfold tap_ok, is_byte; simpl; lia|reflexivity|reflexivity].
Defined.

End ReconstructorInv.
