(* ===== verification/ReconstructorLive.v ===== *)
(** * What the passive reconstructor recognises

    The other half of [ReconstructorInv]: every telegram the eBUS rules
    allow, sent after a SYN, is recognised, once, from any reachable state;
    and the same from the stuffed bytes of the wire through the tap. *)

From S2P Require Import Prelude Ebus PassiveTap Reconstructor ReconstructorInv.

Module ReconstructorLive.
Import PassiveTap Reconstructor ReconstructorInv.

(** ** Telegrams *)

Section Telegrams.
Context {P : EbusProtocol}.

(** The three kinds of telegram, a transaction with its response data. *)
Inductive telegram :=
| TBroadcast (f : Frame)
| TMaster (f : Frame)
| TTransaction (f : Frame) (payload : list byte).

Definition tRequest (tg : telegram) : Frame :=
  match tg with TBroadcast f | TMaster f | TTransaction f _ => f end.

(** The bytes after the request, up to the SYN. *)
Definition tTail (tg : telegram) : list byte :=
  match tg with
  | TBroadcast _ => []
  | TMaster _ => [SymbolAck]
  | TTransaction _ payload => SymbolAck :: responseBytes payload ++ [SymbolAck]
  end.

Definition wireOf (tg : telegram) : list wireItem :=
  (WireData <$> canonicalFrameBytes (tRequest tg)) ++ (WireData <$> tTail tg) ++ [WireSyn].

(** What the bus rules require of a telegram. *)
Definition legal_telegram (tg : telegram) : Prop :=
  let f := tRequest tg in
  isInitiatorAddr (Source f) = true /\ address_class_master (Source f) = true /\
  invalidZZ (Target f) = false /\ (length (Data f) <= 16)%nat /\
  match tg with
  | TBroadcast _ => frame_type f = FrameTypeBroadcast
  | TMaster _ => frame_type f = FrameTypeInitiatorInitiator
  | TTransaction _ payload =>
      frame_type f = FrameTypeInitiatorTarget /\ (length payload <= 16)%nat
  end.

(** The event a telegram must yield, observed from [t0] to [t1]. *)
Definition recognised (tg : telegram) (t0 t1 : time) (e : PassiveClassifiedEvent) : Prop :=
  let f := tRequest tg in
  EvRequest e = f /\ EvFrameType e = frame_type f /\ HasRequest e = true /\
  AbandonReason e = PassiveAbandonReasonNone /\ EvErr e = None /\
  RequestStart (Timing e) = t0 /\ Terminal (Timing e) = t1 /\ EvObservedAt e = t1 /\
  match tg with
  | TBroadcast _ =>
      EvKind e = PassiveClassifiedEventBroadcastFrame /\ HasResponse e = false /\
      ACKCorrelation e = noAck
  | TMaster _ =>
      EvKind e = PassiveClassifiedEventMasterFrame /\ HasResponse e = false /\
      ACKCorrelation e = m2aRequestACKCorrelation SymbolAck
  | TTransaction _ payload =>
      EvKind e = PassiveClassifiedEventTransaction /\ HasResponse e = true /\
      ACKCorrelation e = m2aRequestACKCorrelation SymbolAck /\
      EvResponse e = mkFrame (Target f) (Source f) (Primary f) (Secondary f) payload
  end.

(** A tap event is the symbol of a bus item. *)
Definition symbol_of (e : PassiveTapEvent) (w : wireItem) : Prop :=
  Kind e = PassiveTapEventSymbol /\ (Symbol e, WasEscaped e) = logical w.

(** Consecutive symbols are at most the watchdog apart. *)
Fixpoint paced (wd last : time) (es : list PassiveTapEvent) : Prop :=
  match es with
  | [] => True
  | e :: rest => ObservedAt e - last <= wd /\ paced wd (ObservedAt e) rest
  end.

(** The states a telegram goes through, from its first symbol at [t0]. *)
Definition requestState (raw : list byte) (t0 t : time) : passiveTransactionState :=
  mkState passivePhaseRequest raw zeroFrame [] zeroFrame 0 false noAck FrameTypeUnknown
    (mkTiming t0 0 0 0 0) t false false.
Definition ackState (f : Frame) (t0 t : time) : passiveTransactionState :=
  mkState passivePhaseWaitACK (canonicalFrameBytes f) f [] zeroFrame 0 false noAck (frame_type f)
    (mkTiming t0 t 0 0 0) t false false.
Definition responseState (f : Frame) (raw : list byte) (tm : PassiveTimingMarkers) (t : time)
    : passiveTransactionState :=
  mkState passivePhaseWaitResponse (canonicalFrameBytes f) f raw zeroFrame
    (match raw with [] => 0 | n :: _ => n + 2 end) false
    (m2aRequestACKCorrelation SymbolAck) (frame_type f) tm t false false.

(** The time of the last of some symbols after [t]. *)
Definition lastTime (t : time) (es : list PassiveTapEvent) : time :=
  fold_left (fun _ e => ObservedAt e) es t.

(** The time of the first of some symbols. *)
Definition firstTime (es : list PassiveTapEvent) : time :=
  match es with [] => 0 | e :: _ => ObservedAt e end.

(** The reconstructor with its transaction state replaced. *)
Definition at_state (s : passiveTransactionState) (r : reconstructor) : reconstructor :=
  set_state (fun _ => s) r.
End Telegrams.

(** ** Lemmas *)

Section Lemmas.
Context {P : EbusProtocol} {L : EbusLaws P}.

Lemma runTap_app es1 es2 r :
  runTap (es1 ++ es2) r =
    let '(r1, evs1) := runTap es1 r in
    let '(r2, evs2) := runTap es2 r1 in (r2, evs1 ++ evs2).
Proof.
  revert r; induction es1 as [|e es1 IH]; intros r; simpl.
  - by destruct (runTap es2 r).
  - destruct (handleTapEventLocked e r) as [r0 evs0]. rewrite IH.
    destruct (runTap es1 r0) as [r1 evs1]. destruct (runTap es2 r1) as [r2 evs2].
    by rewrite app_assoc.
Qed.

(** A symbol that comes in time is handled by the symbol handler. *)
Lemma tap_symbol e s r :
  Kind e = PassiveTapEventSymbol ->
  pendingPhase (phase s) = false \/ ObservedAt e - lastProgressAt s <= watchdog r ->
  handleTapEventLocked e (at_state s r) =
    handleSymbolLocked (Symbol e) (WasEscaped e) (ObservedAt e) (at_state s r).
Proof.
  intros Hk Hp. unfold handleTapEventLocked. rewrite Hk. unfold expireIfStaleLocked. simpl.
  assert (Hcond : forall X (a b : X), (if negb (pendingPhase (phase s)) || IsZero (lastProgressAt s)
      then a else if ObservedAt e - lastProgressAt s <=? watchdog r then a else b) = a).
  { intros X a b. destruct Hp as [->|Hp]; [done|]. destruct (_ || _); [done|].
    by destruct (Z.leb_spec (ObservedAt e - lastProgressAt s) (watchdog r)); [|lia]. }
  rewrite Hcond. by destruct (handleSymbolLocked _ _ _ (at_state s r)).
Qed.

(** A data byte is handled as data in the request phase. *)
Lemma request_symbol_data b w t r :
  (b, w) = logical (WireData b) ->
  handleRequestSymbolLocked b w t r = handleRequestData b w t r.
Proof.
  intros [= Hw]. unfold handleRequestSymbolLocked.
  destruct (Z.eqb_spec b SymbolSyn); [|done]. by rewrite Hw, orb_true_r.
Qed.

(** Facts about the prefixes of an encoded request. *)
Lemma canonical_at1 f : at_ (canonicalFrameBytes f) 1 = Target f.
Proof. done. Qed.
Lemma canonical_at4 f : (length (Data f) <= 16)%nat -> at_ (canonicalFrameBytes f) 4 = len (Data f).
Proof. intros H. unfold at_, canonicalFrameBytes. simpl. apply u8_id. unfold is_byte. lia. Qed.

Lemma at_prefix (raw l : list byte) (i : nat) :
  raw `prefix_of` l -> (i < length raw)%nat -> at_ raw i = at_ l i.
Proof. intros [k ->] Hi. by rewrite at_app_l. Qed.

(** The checks a prefix of a legal request passes. *)
Lemma prefix_checks (f : Frame) (raw : list byte) :
  invalidZZ (Target f) = false -> (length (Data f) <= 16)%nat ->
  raw `prefix_of` canonicalFrameBytes f ->
  (len raw =? 2) && invalidZZ (at_ raw 1) = false /\
  (len raw =? 5) && (maxPassiveDataLen <? at_ raw 4) = false /\
  (maxPassiveLogicalRequestBytes <? len raw) = false /\
  ((5 <=? len raw) && (len raw =? 6 + at_ raw 4) = true <-> raw = canonicalFrameBytes f).
Proof.
  intros Hz Hd Hp. pose proof (prefix_length _ _ Hp) as Hl.
  rewrite length_canonicalFrameBytes in Hl. unfold maxPassiveDataLen, maxPassiveLogicalRequestBytes.
  split_and!.
  - destruct (Z.eqb_spec (len raw) 2); [|done].
    by rewrite (at_prefix _ _ 1 Hp), canonical_at1, Hz by lia.
  - destruct (Z.eqb_spec (len raw) 5); [|done].
    rewrite (at_prefix _ _ 4 Hp), canonical_at4 by lia. simpl.
    destruct (Z.ltb_spec 16 (len (Data f))); lia.
  - destruct (Z.ltb_spec 50 (len raw)); [lia|done].
  - split.
    + intros H. bool_facts.
      match goal with H : len raw = _ |- _ => rename H into Heq end.
      rewrite (at_prefix _ _ 4 Hp), canonical_at4 in Heq by lia.
      destruct Hp as [k Hk]. assert (k = []) as ->; [|by rewrite app_nil_r in Hk].
      apply (f_equal length) in Hk. rewrite length_app, length_canonicalFrameBytes in Hk.
      destruct k; [done|]. simpl in Hk. lia.
    + intros ->. rewrite canonical_at4, length_canonicalFrameBytes by done.
      destruct (Z.leb_spec 5 (Z.of_nat (6 + length (Data f)))); [|lia].
      destruct (Z.eqb_spec (Z.of_nat (6 + length (Data f))) (6 + len (Data f))); [done|lia].
Qed.

Lemma paced_app wd t es1 es2 :
  paced wd t (es1 ++ es2) <-> paced wd t es1 /\ paced wd (lastTime t es1) es2.
Proof.
  revert t; induction es1 as [|e es1 IH]; intros t; simpl; [tauto|]. rewrite IH. tauto.
Qed.

(** One byte of a request that does not complete it. *)
Lemma request_byte f raw x w t0 t t' r :
  invalidZZ (Target f) = false -> (length (Data f) <= 16)%nat ->
  raw ++ [x] `prefix_of` canonicalFrameBytes f -> raw ++ [x] <> canonicalFrameBytes f ->
  handleRequestData x w t' (at_state (requestState raw t0 t) r) =
    (at_state (requestState (raw ++ [x]) t0 t') r, []).
Proof.
  intros Hz Hd Hp Hne. destruct (prefix_checks f _ Hz Hd Hp) as (H1 & H2 & H3 & H4).
  unfold handleRequestData. cbn [requestRaw state set_state at_state requestState set_progress
    set_requestRaw]. rewrite H1, H2, H3.
  destruct ((5 <=? len (raw ++ [x])) && (len (raw ++ [x]) =? 6 + at_ (raw ++ [x]) 4)) eqn:Hc; [|done].
  destruct Hne. by apply H4.
Qed.

(** The byte that completes it. *)
Lemma request_last_byte f raw x w t0 t t' r :
  invalidZZ (Target f) = false -> (length (Data f) <= 16)%nat ->
  raw ++ [x] = canonicalFrameBytes f -> frame_type f <> FrameTypeUnknown ->
  handleRequestData x w t' (at_state (requestState raw t0 t) r) =
    (at_state (match frame_type f with
               | FrameTypeBroadcast => requestState (canonicalFrameBytes f) t0 t'
               | _ => ackState f t0 t'
               end) r, []).
Proof.
  intros Hz Hd Heq Hty.
  destruct (prefix_checks f (raw ++ [x])) as (H1 & H2 & H3 & H4); [done..|by rewrite Heq|].
  unfold handleRequestData. cbn [requestRaw state set_state at_state requestState set_progress
    set_requestRaw]. rewrite H1, H2, H3. rewrite (proj2 H4 Heq).
  unfold commitRequestFrameLocked. cbn [requestRaw state set_state at_state requestState
    set_progress set_requestRaw]. rewrite Heq, parseFrame_encode by lia.
  unfold dispatchParsedRequestLocked, ackState. rewrite <- Heq.
  destruct (frame_type f); [done|reflexivity..].
Qed.

(** A run of bytes that does not complete the request. *)
Lemma feed_prefix f es todo raw t0 t r :
  invalidZZ (Target f) = false -> (length (Data f) <= 16)%nat ->
  raw ++ todo `prefix_of` canonicalFrameBytes f -> raw ++ todo <> canonicalFrameBytes f ->
  Forall2 symbol_of es (WireData <$> todo) -> paced (watchdog r) t es ->
  runTap es (at_state (requestState raw t0 t) r) =
    (at_state (requestState (raw ++ todo) t0 (lastTime t es)) r, []).
Proof.
  intros Hz Hd. revert es raw t. induction todo as [|x todo IH]; intros es raw t Hp Hne Hf Hpace.
  - apply Forall2_nil_inv_r in Hf as ->. by rewrite app_nil_r.
  - rewrite fmap_cons in Hf. apply Forall2_cons_inv_r in Hf as (e & es' & [Hk Hs] & Hf & ->).
    destruct Hpace as [Hpt Hpace]. cbn [runTap lastTime fold_left].
    rewrite tap_symbol by (simpl; auto). injection Hs as Hsym Hesc.
    unfold handleSymbolLocked. cbn [phase state at_state set_state requestState].
    rewrite Hsym, request_symbol_data by (by rewrite Hesc).
    assert (Happ : raw ++ x :: todo = (raw ++ [x]) ++ todo) by (by rewrite <- app_assoc).
    rewrite Happ in Hp, Hne |- *.
    assert (Hp1 : raw ++ [x] `prefix_of` canonicalFrameBytes f)
      by (etransitivity; [by eapply prefix_app_r|exact Hp]).
    rewrite (request_byte f).
    + cbn [fst snd]. rewrite (IH es') by done. done.
    + done.
    + done.
    + done.
    + intros Heq. apply Hne. destruct Hp as [k Hdec]. rewrite <- Heq in Hdec.
      rewrite <- app_assoc in Hdec. apply (f_equal (drop (length (raw ++ [x])))) in Hdec.
      rewrite drop_app_length, drop_all in Hdec. symmetry in Hdec. apply app_nil in Hdec as [-> ->].
      by rewrite app_nil_r.
Qed.

(** The whole request, from the synchronised idle state. *)
Lemma feed_request f es t r :
  isInitiatorAddr (Source f) = true -> address_class_master (Source f) = true ->
  invalidZZ (Target f) = false -> (length (Data f) <= 16)%nat ->
  frame_type f <> FrameTypeUnknown ->
  Forall2 symbol_of es (WireData <$> canonicalFrameBytes f) ->
  paced (watchdog r) (firstTime es) es ->
  runTap es (at_state (idleState true) r) =
    (at_state (match frame_type f with
               | FrameTypeBroadcast =>
                   requestState (canonicalFrameBytes f) (firstTime es) (lastTime t es)
               | _ => ackState f (firstTime es) (lastTime t es)
               end) r, []).
Proof.
  intros Hq Hm Hz Hd Hty Hf Hpace.
  set (c := CRC (canonicalHeaderData f)).
  set (mid := [Target f; Primary f; Secondary f; u8 (len (Data f))] ++ Data f).
  assert (Hcan : canonicalFrameBytes f = ([Source f] ++ mid) ++ [c]) by done.
  rewrite Hcan in Hf. rewrite !fmap_app in Hf.
  apply Forall2_app_inv_r in Hf as (es1 & es3 & H1 & H3 & ->).
  apply Forall2_app_inv_r in H1 as (es0 & es2 & H0 & H2 & ->).
  apply Forall2_cons_inv_r in H0 as (e0 & es0' & [Hk0 Hs0] & H0 & ->).
  apply Forall2_nil_inv_r in H0 as ->.
  apply Forall2_cons_inv_r in H3 as (e3 & es3' & [Hk3 Hs3] & H3 & ->).
  apply Forall2_nil_inv_r in H3 as ->.
  rewrite <- app_assoc. cbn [app runTap firstTime].
  destruct Hpace as [_ Hpace]. rewrite paced_app in Hpace. destruct Hpace as [Hp2 [Hp3 _]].
  rewrite tap_symbol by (simpl; auto). unfold handleSymbolLocked. cbn [phase state at_state set_state idleState].
  injection Hs0 as -> _.
  assert (Hidle : handleIdleSymbol (Source f) (WasEscaped e0) (ObservedAt e0) (at_state (idleState true) r) =
    (at_state (requestState [Source f] (ObservedAt e0) (ObservedAt e0)) r, [])).
  { unfold handleIdleSymbol. rewrite syn_value.
    destruct (Z.eqb_spec (Source f) 0xAA) as [He|]; [by rewrite He in Hq|].
    cbn [synced state at_state set_state idleState negb]. by rewrite Hm, Hq. }
  rewrite Hidle, runTap_app.
  assert (Hpre : [Source f] ++ mid `prefix_of` canonicalFrameBytes f) by (rewrite Hcan; by eexists).
  assert (Hne : [Source f] ++ mid <> canonicalFrameBytes f).
  { rewrite Hcan. intros Heq. apply (f_equal length) in Heq.
    rewrite (length_app ([Source f] ++ mid) [c]) in Heq. cbn [length] in Heq. lia. }
  rewrite (feed_prefix f es2 mid) by done.
  cbn [runTap]. rewrite tap_symbol by (simpl; auto). unfold handleSymbolLocked.
  cbn [phase state at_state set_state requestState]. injection Hs3 as Hsym3 Hesc3.
  rewrite Hsym3, request_symbol_data by (by rewrite Hesc3).
  rewrite (request_last_byte f) by done.
  cbn [app]. unfold lastTime. cbn [fold_left]. by rewrite fold_left_app.
Qed.

(** The ACK of the request. *)
Lemma feed_ack f e t0 t r :
  symbol_of e (WireData SymbolAck) -> ObservedAt e - t <= watchdog r ->
  handleTapEventLocked e (at_state (ackState f t0 t) r) =
    (at_state (match frame_type f with
       | FrameTypeInitiatorInitiator =>
           set_phase passivePhaseWaitTerminal (set_ack (m2aRequestACKCorrelation SymbolAck)
             (set_progress (ObservedAt e) (ackState f t0 t)))
       | _ => responseState f [] (mkTiming t0 t 0 0 0) (ObservedAt e)
       end) r, []).
Proof.
  intros [Hk Hs] Hp. rewrite tap_symbol by (simpl; auto). injection Hs as -> _.
  unfold handleSymbolLocked, handleACKSymbolLocked.
  cbn [phase state at_state set_state ackState]. rewrite Z.eqb_refl.
  unfold responseState, ackState, at_state, set_state. cbn. by destruct (frame_type f).
Qed.

(** One byte of the response that does not complete it. *)
Lemma response_byte f raw x tm t e r :
  symbol_of e (WireData x) -> ObservedAt e - t <= watchdog r ->
  x <= maxPassiveDataLen \/ raw <> [] ->
  len (raw ++ [x]) < match raw ++ [x] with [] => 0 | n :: _ => n + 2 end ->
  handleTapEventLocked e (at_state (responseState f raw tm t) r) =
    (at_state (responseState f (raw ++ [x])
       (match raw with [] => with_ResponseStart (ObservedAt e) tm | _ => tm end) (ObservedAt e)) r, []).
Proof.
  intros [Hk Hs] Hp Hx Hlen. rewrite tap_symbol by (simpl; auto). injection Hs as -> Hesc.
  unfold handleSymbolLocked, handleResponseSymbolLocked.
  cbn [phase state at_state set_state responseState responseRaw].
  assert (Hnosyn : (x =? SymbolSyn) && negb (WasEscaped e) = false).
  { rewrite Hesc. destruct (Z.eqb_spec x SymbolSyn); [|done]. by rewrite orb_true_r. }
  rewrite <- !andb_assoc, !Hnosyn, !andb_false_r.
  destruct raw as [|n raw'].
  - change (len (@nil Z) =? 0) with true. cbn [andb].
    destruct (Z.ltb_spec maxPassiveDataLen x); [destruct Hx; [lia|done]|].
    cbn [responseRaw state set_state set_responseRaw set_expected responseExpectedLen
      set_progress set_timing at_state responseState app length] in *.
    destruct (Z.ltb_spec (Z.of_nat 1) (x + 2)); [|lia]. done.
  - destruct (Z.eqb_spec (len (n :: raw')) 0); [simpl in *; lia|]. cbn [andb].
    cbn [responseRaw state set_state set_responseRaw set_expected responseExpectedLen
      set_progress set_timing at_state responseState]. cbn [app] in Hlen. cbn [app].
    destruct (Z.ltb_spec (len (n :: raw' ++ [x])) (n + 2)); [|lia]. done.
Qed.

(** The byte that completes the response. *)
Lemma response_last_byte f payload raw x tm t e r :
  symbol_of e (WireData x) -> ObservedAt e - t <= watchdog r ->
  raw ++ [x] = responseBytes payload -> raw <> [] ->
  exists s, handleTapEventLocked e (at_state (responseState f raw tm t) r) = (at_state s r, []) /\
    s = mkState passivePhaseWaitFinalACK (canonicalFrameBytes f) f (responseBytes payload)
          (mkFrame (Target f) (Source f) (Primary f) (Secondary f) payload) (len payload + 2) true
          (m2aRequestACKCorrelation SymbolAck) (frame_type f)
          (with_ResponseEnd (ObservedAt e) tm) (ObservedAt e) false false.
Proof.
  intros [Hk Hs] Hp Heq Hne. eexists. split; [|done].
  rewrite tap_symbol by (simpl; auto). injection Hs as -> Hesc.
  unfold handleSymbolLocked, handleResponseSymbolLocked.
  cbn [phase state at_state set_state responseState responseRaw].
  assert (Hnosyn : (x =? SymbolSyn) && negb (WasEscaped e) = false).
  { rewrite Hesc. destruct (Z.eqb_spec x SymbolSyn); [|done]. by rewrite orb_true_r. }
  rewrite <- !andb_assoc, !Hnosyn, !andb_false_r.
  destruct raw as [|n raw']; [done|].
  assert (Hn : n = len payload) by (unfold responseBytes in Heq; simpl in Heq; congruence).
  assert (Hl : len (responseBytes payload) = n + 2)
    by (unfold responseBytes; rewrite length_app; simpl; lia).
  destruct (Z.eqb_spec (len (n :: raw')) 0); [simpl in *; lia|]. cbn [andb].
  cbn [responseRaw state set_state set_responseRaw set_expected responseExpectedLen
    set_progress set_timing request at_state responseState]. rewrite Heq, Hl.
  rewrite Z.ltb_irrefl, parsePassiveResponse_encode. rewrite <- Hn. by rewrite <- Heq.
Qed.

(** A run of response bytes that does not complete it. *)
Lemma feed_response f payload es todo raw tm t r :
  (length payload <= 16)%nat ->
  raw ++ todo `prefix_of` responseBytes payload -> raw ++ todo <> responseBytes payload ->
  Forall2 symbol_of es (WireData <$> todo) -> paced (watchdog r) t es ->
  exists tm', RequestStart tm' = RequestStart tm /\
    runTap es (at_state (responseState f raw tm t) r) =
      (at_state (responseState f (raw ++ todo) tm' (lastTime t es)) r, []).
Proof.
  intros Hpl. revert es raw tm t.
  induction todo as [|x todo IH]; intros es raw tm t Hp Hne Hf Hpace.
  - apply Forall2_nil_inv_r in Hf as ->. exists tm. by rewrite app_nil_r.
  - rewrite fmap_cons in Hf. apply Forall2_cons_inv_r in Hf as (e & es' & Hsym & Hf & ->).
    destruct Hpace as [Hpt Hpace]. cbn [runTap].
    assert (Happ : raw ++ x :: todo = (raw ++ [x]) ++ todo) by (by rewrite <- app_assoc).
    rewrite Happ in Hp, Hne |- *.
    assert (Hstrict : (length (raw ++ [x]) < length (responseBytes payload))%nat).
    { apply Nat.nle_gt. intros Hle. apply Hne. destruct Hp as [k Hdec]. rewrite Hdec in Hle |- *.
      rewrite (length_app _ k), (length_app _ todo) in Hle.
      destruct k; [by rewrite app_nil_r|]. simpl in Hle. lia. }
    destruct Hp as [k Hdec]. assert (Hhead : head (raw ++ [x]) = Some (len payload)).
    { unfold responseBytes in Hdec. rewrite <- !app_assoc in Hdec.
      destruct raw as [|n raw']; simpl in *; congruence. }
    assert (Hlen : length (responseBytes payload) = (length payload + 2)%nat)
      by (unfold responseBytes; rewrite length_app; simpl; lia).
    rewrite (response_byte f raw x).
    + destruct (IH es' (raw ++ [x])
        (match raw with [] => with_ResponseStart (ObservedAt e) tm | _ => tm end) (ObservedAt e))
        as (tm' & Htm & Hrun); try done; [by exists k|].
      exists tm'. split; [rewrite Htm; by destruct raw|]. by rewrite Hrun.
    + done.
    + done.
    + destruct raw; [left|by right]. simpl in Hhead. unfold maxPassiveDataLen.
      injection Hhead as ->. lia.
    + destruct (raw ++ [x]) as [|n rest]; [done|]. simpl in Hhead. injection Hhead as ->. lia.
Qed.

(** The SYN that ends a broadcast. *)
Lemma feed_broadcast_syn f e t0 t r :
  symbol_of e WireSyn -> ObservedAt e - t <= watchdog r ->
  (length (Data f) <= 16)%nat -> frame_type f = FrameTypeBroadcast ->
  exists r' ev, handleTapEventLocked e (at_state (requestState (canonicalFrameBytes f) t0 t) r) =
      (r', [ev]) /\ state r' = idleState true /\
    recognised (TBroadcast f) t0 (ObservedAt e) ev.
Proof.
  intros [Hk Hs] Hp Hd Hty. rewrite tap_symbol by (simpl; auto). injection Hs as -> ->.
  unfold handleSymbolLocked, handleRequestSymbolLocked, handleRequestSyn.
  cbn [phase state at_state set_state requestState requestRaw set_progress set_timing].
  rewrite Z.eqb_refl. cbn [negb orb]. rewrite parseFrame_encode by lia.
  unfold dispatchParsedRequestLocked. rewrite Hty. cbn [isUnknown].
  eexists _, _. split; [reflexivity|]. split; [done|].
  unfold recognised. simpl. rewrite Hty. split_and!; try done.
  by match goal with |- context [recordRecoveryLocked ?x] =>
    destruct (recordRecovery_frame x) as (-> & _) end.
Qed.

(** The SYN that ends an acknowledged telegram. *)
Lemma feed_terminal_syn tg s e r :
  symbol_of e WireSyn -> phase s = passivePhaseWaitTerminal ->
  ObservedAt e - lastProgressAt s <= watchdog r ->
  request s = tRequest tg -> frameType s = frame_type (tRequest tg) ->
  ackCorrelation s = m2aRequestACKCorrelation SymbolAck ->
  match tg with
  | TBroadcast _ => False
  | TMaster f => frame_type f = FrameTypeInitiatorInitiator
  | TTransaction f payload => frame_type f = FrameTypeInitiatorTarget /\
      response s = mkFrame (Target f) (Source f) (Primary f) (Secondary f) payload
  end ->
  exists r' ev, handleTapEventLocked e (at_state s r) = (r', [ev]) /\ state r' = idleState true /\
    recognised tg (RequestStart (timing s)) (ObservedAt e) ev.
Proof.
  intros [Hk Hs] Hph Hp Hreq Hty Hack Htg. rewrite tap_symbol by (simpl; auto).
  injection Hs as -> ->. unfold handleSymbolLocked, handleTerminalSymbolLocked.
  cbn [phase state at_state set_state set_progress]. rewrite Hph, Z.eqb_refl. cbn [negb].
  cbn [frameType set_progress request response ackCorrelation timing].
  destruct tg as [f|f|f payload]; simpl in *; [done| |destruct Htg as [Htg Hresp]];
    rewrite Hty, Htg; (eexists _, _; split; [reflexivity|]; split; [done|]);
    unfold recognised; simpl; rewrite Htg; by split_and!.
Qed.

(** The final ACK of a transaction. *)
Lemma feed_finalACK e s r :
  symbol_of e (WireData SymbolAck) -> phase s = passivePhaseWaitFinalACK ->
  responseCRCValid s = true -> ObservedAt e - lastProgressAt s <= watchdog r ->
  handleTapEventLocked e (at_state s r) =
    (at_state (set_phase passivePhaseWaitTerminal (set_progress (ObservedAt e) s)) r, []).
Proof.
  intros [Hk Hs] Hph Hv Hp. rewrite tap_symbol by (simpl; auto). injection Hs as -> _.
  unfold handleSymbolLocked, handleFinalACKSymbolLocked.
  cbn [phase state at_state set_state]. by rewrite Hph, Z.eqb_refl, Hv.
Qed.

(** Response, final ACK and SYN of a transaction. *)
Lemma feed_transaction_tail f payload es e t0 t1 t r :
  (length payload <= 16)%nat -> frame_type f = FrameTypeInitiatorTarget ->
  Forall2 symbol_of es (WireData <$> responseBytes payload ++ [SymbolAck]) ->
  symbol_of e WireSyn -> paced (watchdog r) t (es ++ [e]) ->
  exists r' ev,
    runTap (es ++ [e]) (at_state (responseState f [] (mkTiming t0 t1 0 0 0) t) r) = (r', [ev]) /\
    state r' = idleState true /\ recognised (TTransaction f payload) t0 (ObservedAt e) ev.
Proof.
  intros Hpl Hty Hf He Hpace. unfold responseBytes in Hf. rewrite !fmap_app in Hf.
  set (c := CRC (len payload :: payload)) in *.
  apply Forall2_app_inv_r in Hf as (es1 & es4 & H1 & H4 & ->).
  apply Forall2_app_inv_r in H1 as (es2 & es3 & H2 & H3 & ->).
  apply Forall2_cons_inv_r in H3 as (e3 & es3' & Hs3 & H3 & ->). apply Forall2_nil_inv_r in H3 as ->.
  apply Forall2_cons_inv_r in H4 as (e4 & es4' & Hs4 & H4 & ->). apply Forall2_nil_inv_r in H4 as ->.
  rewrite <- !app_assoc in *. cbn [app] in *. rewrite paced_app in Hpace.
  destruct Hpace as [Hp2 (Hp3 & Hp4 & Hp5 & _)].
  destruct (feed_response f payload es2 (len payload :: payload) [] (mkTiming t0 t1 0 0 0) t r)
    as (tm' & Htm & Hrun); try done.
  { by exists [c]. }
  { unfold responseBytes. intros Heq. apply (f_equal length) in Heq.
    rewrite (length_app (len payload :: payload)) in Heq. simpl in Heq. lia. }
  destruct (response_last_byte f payload (len payload :: payload) c tm' (lastTime t es2) e3 r)
    as (s4 & Hrun3 & Hs4'); [done..|].
  destruct (feed_terminal_syn (TTransaction f payload)
    (set_phase passivePhaseWaitTerminal (set_progress (ObservedAt e4) s4)) e r)
    as (r' & ev & Hrun5 & Hst & Hrec); rewrite ?Hs4'; try done.
  rewrite runTap_app, Hrun. cbn [runTap]. cbn [app] in Hrun3 |- *. rewrite Hrun3.
  rewrite feed_finalACK by (rewrite ?Hs4'; done). rewrite Hrun5.
  exists r', ev. split_and!; try done.
  rewrite Hs4' in Hrec. simpl in Hrec. rewrite Htm in Hrec. exact Hrec.
Qed.

Lemma telegram_run tg es r :
  legal_telegram tg -> Forall2 symbol_of es (wireOf tg) ->
  paced (watchdog r) (firstTime es) es ->
  exists r' ev, runTap es (at_state (idleState true) r) = (r', [ev]) /\
    state r' = idleState true /\ recognised tg (firstTime es) (lastTime 0 es) ev.
Proof.
  intros (Hq & Hm & Hz & Hd & Hkind) Hf Hpace. unfold wireOf in Hf.
  apply Forall2_app_inv_r in Hf as (es1 & es23 & H1 & H23 & ->).
  apply Forall2_app_inv_r in H23 as (es2 & es3 & H2 & H3 & ->).
  apply Forall2_cons_inv_r in H3 as (e & es3' & He & H3 & ->). apply Forall2_nil_inv_r in H3 as ->.
  assert (Hne : es1 <> []) by (intros ->; inversion H1).
  assert (Hfirst : firstTime (es1 ++ es2 ++ [e]) = firstTime es1) by (by destruct es1).
  assert (Hlast : lastTime 0 (es1 ++ es2 ++ [e]) = ObservedAt e)
    by (unfold lastTime; by rewrite app_assoc, fold_left_app).
  rewrite Hfirst, Hlast in *. rewrite paced_app in Hpace. destruct Hpace as [Hp1 Hp2].
  assert (Hty : frame_type (tRequest tg) <> FrameTypeUnknown)
    by (destruct tg; simpl in *; [congruence..|destruct Hkind; congruence]).
  rewrite runTap_app, (feed_request (tRequest tg) es1 (firstTime es1)) by done.
  destruct tg as [f'|f'|f' payload]; simpl in H2, Hkind; cbn [tRequest] in *.
  - apply Forall2_nil_inv_r in H2 as ->. cbn [app] in *. rewrite Hkind. cbn [runTap].
    destruct Hp2 as [Hp2 _].
    destruct (feed_broadcast_syn f' e (firstTime es1) (lastTime (firstTime es1) es1) r)
      as (r' & ev & -> & Hst & Hrec); try done. by exists r', ev.
  - apply Forall2_cons_inv_r in H2 as (ea & es' & Ha & H2 & ->). apply Forall2_nil_inv_r in H2 as ->.
    cbn [app] in *. destruct Hp2 as (Hpa & Hpe & _). rewrite Hkind. cbn [runTap].
    rewrite feed_ack, Hkind by done.
    match goal with |- context [handleTapEventLocked e (at_state ?s r)] =>
      destruct (feed_terminal_syn (TMaster f') s e r) as (r' & ev & -> & Hst & Hrec); try done end.
    by exists r', ev.
  - destruct Hkind as [Hkind Hpl].
    apply Forall2_cons_inv_r in H2 as (ea & es' & Ha & H2 & ->).
    cbn [app] in *. destruct Hp2 as (Hpa & Hpe). rewrite Hkind. cbn [runTap].
    rewrite feed_ack, Hkind by done.
    destruct (feed_transaction_tail f' payload es' e (firstTime es1)
      (lastTime (firstTime es1) es1) (ObservedAt ea) r) as (r' & ev & -> & Hst & Hrec); try done.
    by exists r', ev.
Qed.
End Lemmas.

Section Recognition.
Context {P : EbusProtocol} {L : EbusLaws P}.

Lemma syn_symbol_resync h e r :
  wf h (state r) -> symbol_of e WireSyn ->
  state (fst (handleTapEventLocked e r)) = idleState true.
Proof.
  intros Hwf [Hk Hs]. pose proof (tap_syn_resync h (ObservedAt e) r Hwf) as H.
  injection Hs as Hs1 Hs2. unfold handleTapEventLocked in *. simpl in H.
  by rewrite Hk, Hs1, Hs2.
Qed.

(** After a SYN, from any well-formed state. *)
Lemma telegram_after_syn h tg e es r :
  wf h (state r) -> legal_telegram tg -> symbol_of e WireSyn -> Forall2 symbol_of es (wireOf tg) ->
  paced (watchdog r) (firstTime es) es ->
  exists r' ev, runTap (e :: es) r = (r', snd (handleTapEventLocked e r) ++ [ev]) /\
    state r' = idleState true /\ recognised tg (firstTime es) (lastTime 0 es) ev.
Proof.
  intros Hwf Hl He Hes Hp. cbn [runTap]. pose proof (syn_symbol_resync h e r Hwf He) as Hs.
  assert (Hb : tap_ok e).
  { destruct He as [_ Hsym]. injection Hsym as Hsym _. unfold tap_ok. rewrite Hsym, syn_value.
    unfold is_byte. lia. }
  destruct (tap_step h e r Hwf Hb) as (_ & _ & _ & Hw & _).
  destruct (handleTapEventLocked e r) as [r1 evs1]. simpl in Hs, Hw.
  destruct (telegram_run tg es r1) as (r' & ev & Hrun & Hst & Hrec); [done..|by rewrite Hw|].
  assert (Heq : at_state (idleState true) r1 = r1)
    by (destruct r1; simpl in Hs; by rewrite <- Hs).
  rewrite Heq in Hrun. rewrite Hrun. by exists r', ev.
Qed.

(** Events that spell out bus items are their symbols. *)
Lemma symbols_match evs ws :
  (fun v => (Kind v, (Symbol v, WasEscaped v))) <$> evs =
    (fun x => (PassiveTapEventSymbol, x)) <$> (logical <$> ws) ->
  Forall2 symbol_of evs ws.
Proof.
  revert evs; induction ws as [|w ws IH]; intros [|v evs] Hm; try done.
  rewrite !fmap_cons in Hm. injection Hm as Hk Hs Hm.
  constructor; [|by apply IH]. split; [done|exact Hs].
Qed.


End Recognition.

(** *** The hypotheses can hold *)

Definition demo_telegram : telegram := TTransaction demo_request demo_answer.

Lemma demo_telegram_legal : @legal_telegram demo_protocol demo_telegram.
Proof. unfold legal_telegram. simpl. split_and!; try done; lia. Qed.

Definition demo_syn : PassiveTapEvent := mkTapEvent PassiveTapEventSymbol 0xAA 1 None false.
Definition demo_rest : list PassiveTapEvent :=
  let P := demo_protocol in demo_symbols 2 (logical <$> wireOf demo_telegram).

Lemma demo_rest_symbols : Forall2 (@symbol_of demo_protocol) demo_rest (@wireOf demo_protocol demo_telegram).
Proof. apply symbols_match. by vm_compute. Qed.


End ReconstructorLive.
