(* ===== verification/Fanout.v ===== *)
(** * Fan-out of classified events

    Models the subscriber side of [passive_transaction_reconstructor.go]:
    [Subscribe], [publish], [trySendPassiveEvent], [unsubscribe],
    [drainPassiveSubscription], [closeAllSubscribers] and the overflow
    metric.  A subscription is a heap object that outlives its place in the
    subscriber map, so subscriptions live in a store; a channel is its
    buffered queue, its capacity and whether it is closed.  The order in
    which Go ranges over the map is an argument of [publish]. *)

From Stdlib Require Import Ascii.
From S2P Require Import Prelude Ebus PassiveTap Reconstructor.

Module Fanout.
Import PassiveTap Reconstructor.

(** ** Data *)

(** [PassiveSubscriberPriority]. *)
Inductive PassiveSubscriberPriority := PassiveSubscriberCritical | PassiveSubscriberNonCritical.

#[export] Instance PassiveSubscriberPriority_eq_dec : EqDecision PassiveSubscriberPriority.
Proof. solve_decision. Defined.

(** [PassiveClassifiedSubscription]; [received] is what its consumer has
    read from the channel so far. *)
Record subscription := mkSub {
  name : string;
  priority : PassiveSubscriberPriority;
  capacity : Z;
  queue : list PassiveClassifiedEvent;
  closed : bool;
  received : list PassiveClassifiedEvent
}.

(** The subscriber side of the reconstructor; [live] is the key set of the
    [subscribers] map, [None] the nil map after [Close]. *)
Record hub := mkHub {
  subs : gmap Z subscription;
  live : option (gset Z);
  nextSubID : Z;
  fanoutOverflowTotal : gmap string Z
}.

Definition newHub : hub := mkHub ∅ (Some ∅) 0 ∅.

Inductive subError := errMissingName | errClosed.

Definition set_sub (id : Z) (s : subscription) (h : hub) : hub :=
  mkHub (<[id := s]> (subs h)) (live h) (nextSubID h) (fanoutOverflowTotal h).

(** ** Operations *)

(** [defaultPassiveSubscriberBuffer]. *)
Definition defaultPassiveSubscriberBuffer (p : PassiveSubscriberPriority) : Z :=
  match p with PassiveSubscriberCritical => 128 | PassiveSubscriberNonCritical => 32 end.

(** [Subscribe]; [None] for [priority] is the zero value. *)
Definition Subscribe (nm : string) (pr : option PassiveSubscriberPriority) (buffer : Z) (h : hub)
    : hub * (Z + subError) :=
  if String.eqb (TrimSpace nm) EmptyString then (h, inr errMissingName)
  else
    let p := default PassiveSubscriberNonCritical pr in
    let b := if buffer <=? 0 then defaultPassiveSubscriberBuffer p else buffer in
    let id := incr64 (nextSubID h) in
    match live h with
    | None => (mkHub (subs h) None id (fanoutOverflowTotal h), inr errClosed)
    | Some l =>
        (mkHub (<[id := mkSub (TrimSpace nm) p b [] false []]> (subs h)) (Some (l ∪ {[id]})) id
           (fanoutOverflowTotal h), inl id)
    end.

(** [trySendPassiveEvent]: a send on a closed channel panics and is
    recovered. *)
Definition trySendPassiveEvent (e : PassiveClassifiedEvent) (s : subscription)
    : subscription * bool :=
  if closed s then (s, false)
  else if len (queue s) <? capacity s then
    (mkSub (name s) (priority s) (capacity s) (queue s ++ [e]) (closed s) (received s), true)
  else (s, false).

(** [drainPassiveSubscription]. *)
Definition drainPassiveSubscription (s : subscription) : subscription :=
  mkSub (name s) (priority s) (capacity s) [] (closed s) (received s).

(** [close(subscription.ch)]. *)
Definition closeChan (s : subscription) : subscription :=
  mkSub (name s) (priority s) (capacity s) (queue s) true (received s).

(** [unsubscribe] of one subscription, by [closeOnce]. *)
Definition unsubscribeSub (fault : option PassiveClassifiedEvent) (s : subscription) : subscription :=
  closeChan
    match fault with
    | Some f => fst (trySendPassiveEvent f (drainPassiveSubscription s))
    | None => s
    end.
Definition unsubscribe (id : Z) (fault : option PassiveClassifiedEvent) (h : hub) : hub :=
  match subs h !! id with
  | None => h
  | Some s =>
      if closed s then h
      else
        mkHub (<[id := unsubscribeSub fault s]> (subs h)) ((fun l => l ∖ {[id]}) <$> live h)
          (nextSubID h) (fanoutOverflowTotal h)
  end.

(** [normalizePassiveConsumerName]. *)
Definition normalizePassiveConsumerName (nm : string) : string :=
  let s := TrimSpace (ToLower nm) in
  if String.eqb s "broadcast-listener" then "broadcast_listener"
  else if String.eqb s "active-passive-dedup" then "dedup"
  else if String.eqb s "observability-store" then "observability_store"
  else "debug_summary".

(** [recordFanoutOverflow]. *)
Definition recordFanoutOverflow (nm : string) (h : hub) : hub :=
  mkHub (subs h) (live h) (nextSubID h)
    (bump (normalizePassiveConsumerName nm) (fanoutOverflowTotal h)).

(** The fault event of [publish]. *)
Definition faultEvent (e : PassiveClassifiedEvent) (nm : string) : PassiveClassifiedEvent :=
  mkEvent PassiveClassifiedEventDiscontinuity FrameTypeUnknown zeroFrame zeroFrame false false
    zeroTiming (EvObservedAt e) PassiveAbandonReasonNone
    PassiveDiscontinuityCriticalSubscriberFault noAck None nm 0 false.

(** The body of the loop of [publish]. *)
Definition publishTo (e : PassiveClassifiedEvent) (h : hub) (id : Z) : hub :=
  match subs h !! id with
  | None => h
  | Some s =>
      match trySendPassiveEvent e s with
      | (s', true) => set_sub id s' h
      | (_, false) =>
          match priority s with
          | PassiveSubscriberNonCritical => h
          | PassiveSubscriberCritical =>
              unsubscribe id (Some (faultEvent e (name s))) (recordFanoutOverflow (name s) h)
          end
      end
  end.

(** [publish], ranging over the subscribers in [order]. *)
Definition publish (order : list Z) (e : PassiveClassifiedEvent) (h : hub) : hub :=
  fold_left (publishTo e) order h.

(** [closeAllSubscribers], in [order]. *)
Definition closeAllSubscribers (order : list Z) (h : hub) : hub :=
  fold_left (fun h id => unsubscribe id None h) order
    (mkHub (subs h) None (nextSubID h) (fanoutOverflowTotal h)).

(** A consumer reads one event. *)
Definition receive (id : Z) (h : hub) : hub :=
  match subs h !! id with
  | Some s =>
      match queue s with
      | e :: rest =>
          set_sub id (mkSub (name s) (priority s) (capacity s) rest (closed s) (received s ++ [e])) h
      | [] => h
      end
  | None => h
  end.

(** ** Specification *)

(** What [publish] does to one live subscription. *)
Definition delivered (e : PassiveClassifiedEvent) (s : subscription) : subscription :=
  if len (queue s) <? capacity s then
    mkSub (name s) (priority s) (capacity s) (queue s ++ [e]) false (received s)
  else
    match priority s with
    | PassiveSubscriberNonCritical => s
    | PassiveSubscriberCritical =>
        mkSub (name s) (priority s) (capacity s) [faultEvent e (name s)] true (received s)
    end.
Definition overflows (s : subscription) : bool :=
  negb (len (queue s) <? capacity s) && bool_decide (priority s = PassiveSubscriberCritical).

(** A range over the subscriber map visits each key once. *)
Definition ranges (order : list Z) (h : hub) : Prop :=
  NoDup order /\ forall id, id ∈ order <-> id ∈ default ∅ (live h).

(** The invariant: live subscriptions exist and are open, capacities are
    positive and respected. *)
Definition hub_ok (h : hub) : Prop :=
  (forall id, id ∈ default ∅ (live h) -> exists s, subs h !! id = Some s /\ closed s = false) /\
  (forall id s, subs h !! id = Some s -> 0 < capacity s /\ len (queue s) <= capacity s) /\
  (forall id s, subs h !! id = Some s -> closed s = false -> id ∈ default ∅ (live h)).

(** Overflowing live subscriptions whose metric name is [k]. *)
Definition overflowCount (k : string) (order : list Z) (h : hub) : nat :=
  countb (fun id => match subs h !! id with
                    | Some s => overflows s && String.eqb (normalizePassiveConsumerName (name s)) k
                    | None => false
                    end) order.
Definition overflowTotal (k : string) (h : hub) : Z := default 0 (fanoutOverflowTotal h !! k).

(** ** Operation sequences *)

Inductive hubOp :=
| OpSubscribe (nm : string) (pr : option PassiveSubscriberPriority) (buffer : Z)
| OpPublish (order : list Z) (e : PassiveClassifiedEvent)
| OpReceive (id : Z)
| OpClose (id : Z)
| OpCloseAll (order : list Z).

Definition hubStep (h : hub) (o : hubOp) : hub :=
  match o with
  | OpSubscribe nm pr b => fst (Subscribe nm pr b h)
  | OpPublish order e => publish order e h
  | OpReceive id => receive id h
  | OpClose id => unsubscribe id None h
  | OpCloseAll order => closeAllSubscribers order h
  end.

(** Ranges visit the map's keys; a subscription identifier is not used
    twice (2^64 of them). *)
Definition op_valid (h : hub) (o : hubOp) : Prop :=
  match o with
  | OpSubscribe _ _ _ => subs h !! incr64 (nextSubID h) = None
  | OpPublish order _ | OpCloseAll order => ranges order h
  | _ => True
  end.
Fixpoint run_valid (h : hub) (os : list hubOp) : Prop :=
  match os with
  | [] => True
  | o :: rest => op_valid h o /\ run_valid (hubStep h o) rest
  end.
Definition hubRun (h : hub) (os : list hubOp) : hub := fold_left hubStep os h.

(** The events published by a sequence of operations. *)
Definition published (os : list hubOp) : list PassiveClassifiedEvent :=
  os ≫= fun o => match o with OpPublish _ e => [e] | _ => [] end.

(** What a subscriber has read or can still read, against what was
    published since it subscribed. *)
Definition stream_ok (pubs : list PassiveClassifiedEvent) (s : subscription) : Prop :=
  match priority s with
  | PassiveSubscriberCritical =>
      if closed s then
        received s ++ queue s `prefix_of` pubs \/
        exists pre e, received s ++ queue s = pre ++ [faultEvent e (name s)] /\ pre `prefix_of` pubs
      else received s ++ queue s = pubs
  | PassiveSubscriberNonCritical => received s ++ queue s `sublist_of` pubs
  end.

(** ** Lemmas *)

Lemma publishTo_open e h id s :
  subs h !! id = Some s -> closed s = false -> 0 < capacity s ->
  publishTo e h id =
    mkHub (<[id := delivered e s]> (subs h))
      (if overflows s then (fun l => l ∖ {[id]}) <$> live h else live h) (nextSubID h)
      (if overflows s then bump (normalizePassiveConsumerName (name s)) (fanoutOverflowTotal h)
       else fanoutOverflowTotal h).
Proof.
  intros Hs Hc Hcap. unfold publishTo, trySendPassiveEvent, delivered, overflows.
  rewrite Hs, Hc. destruct (len (queue s) <? capacity s) eqn:Hl; simpl.
  - unfold set_sub. done.
  - destruct (priority s) eqn:Hp; simpl.
    + unfold unsubscribe. simpl. rewrite Hs, Hc. unfold unsubscribeSub, trySendPassiveEvent. simpl.
      rewrite Hc. simpl. destruct (Z.ltb_spec (Z.of_nat 0) (capacity s)); [|lia]. simpl.
      unfold closeChan. simpl. by rewrite Hp.
    + rewrite insert_id by done. by destruct h.
Qed.

(** One delivery moves the overflow counter of its metric name. *)
Lemma publishTo_total e h x s k :
  subs h !! x = Some s -> closed s = false -> 0 < capacity s ->
  0 <= overflowTotal k h < 2 ^ 64 ->
  overflowTotal k (publishTo e h x) = u64 (overflowTotal k h + Z.of_nat (overflowCount k [x] h)) /\
  0 <= overflowTotal k (publishTo e h x) < 2 ^ 64.
Proof.
  intros Hs Hc Hcap Hk. rewrite (publishTo_open e h x s) by done.
  unfold overflowTotal, overflowCount, countb in *. simpl. rewrite Hs.
  destruct (overflows s); simpl.
  - destruct (String.eqb_spec (normalizePassiveConsumerName (name s)) k) as [->|Hne]; simpl.
    + rewrite bump_lookup. simpl. split; [done|apply u64_range].
    + rewrite bump_lookup_ne by done. rewrite Z.add_0_r, u64_id by done. done.
  - rewrite Z.add_0_r, u64_id by done. done.
Qed.

Lemma overflowCount_ext k order h h' :
  (forall id, id ∈ order -> subs h' !! id = subs h !! id) ->
  overflowCount k order h' = overflowCount k order h.
Proof.
  intros H. unfold overflowCount, countb. f_equal. apply List.filter_ext_in. intros id Hid.
  rewrite H; [done|]. by apply list_elem_of_In.
Qed.

(** The loop of [publish] over distinct open subscriptions. *)
Lemma publish_loop e order h :
  NoDup order ->
  (forall id, id ∈ order -> exists s, subs h !! id = Some s /\ closed s = false /\ 0 < capacity s) ->
  (forall id, subs (publish order e h) !! id =
     if decide (id ∈ order) then delivered e <$> subs h !! id else subs h !! id) /\
  (forall id, id ∈ default ∅ (live (publish order e h)) <->
     id ∈ default ∅ (live h) /\
     ~ (id ∈ order /\ exists s, subs h !! id = Some s /\ overflows s = true)) /\
  nextSubID (publish order e h) = nextSubID h /\
  (live h = None -> live (publish order e h) = None) /\
  (forall k, 0 <= overflowTotal k h < 2 ^ 64 ->
     0 <= overflowTotal k (publish order e h) < 2 ^ 64 /\
     overflowTotal k (publish order e h) =
       u64 (overflowTotal k h + Z.of_nat (overflowCount k order h))).
Proof.
  revert h; induction order as [|x order IH]; intros h Hnd Hopen.
  - unfold publish. cbn [fold_left]. split_and!; try done.
    + set_solver.
    + intros k Hk. split; [done|]. unfold overflowCount. rewrite countb_nil, Z.add_0_r.
      by rewrite u64_id.
  - apply NoDup_cons in Hnd as [Hx Hnd].
    destruct (Hopen x) as (s & Hs & Hc & Hcap); [set_solver|].
    unfold publish. cbn [fold_left]. fold (publish order e (publishTo e h x)).
    pose proof (publishTo_open e h x s Hs Hc Hcap) as Hx1.
    assert (Hsub1 : forall id, id <> x -> subs (publishTo e h x) !! id = subs h !! id)
      by (intros id Hne; rewrite Hx1; simpl; by rewrite lookup_insert_ne).
    assert (Hsubx : subs (publishTo e h x) !! x = Some (delivered e s))
      by (rewrite Hx1; simpl; by rewrite lookup_insert_eq).
    destruct (IH (publishTo e h x)) as (IH1 & IH2 & IH3 & IH4 & IH5); [done| |].
    { intros id Hid. rewrite Hsub1 by set_solver. apply Hopen. set_solver. }
    split_and!.
    + intros id. rewrite IH1. destruct (decide (id = x)) as [->|Hne].
      * rewrite decide_False by done. rewrite decide_True by set_solver. by rewrite Hsubx, Hs.
      * rewrite Hsub1 by done. do 2 case_decide; set_solver.
    + intros id. rewrite IH2. destruct (decide (id = x)) as [->|Hne].
      * rewrite Hx1. simpl. destruct (overflows s) eqn:Ho.
        -- destruct (live h); simpl; set_solver.
        -- split; [|set_solver]. intros [H _]. split; [done|]. intros (_ & s' & Hs' & Ho').
           congruence.
      * rewrite Hsub1 by done. rewrite Hx1. simpl.
        destruct (overflows s), (live h); simpl; set_solver.
    + by rewrite IH3, Hx1.
    + intros Hl. apply IH4. rewrite Hx1. simpl. rewrite Hl. by destruct (overflows s).
    + intros k Hk.
      destruct (publishTo_total e h x s k Hs Hc Hcap Hk) as [H1 H2].
      destruct (IH5 k H2) as [H3 H4]. split; [done|]. rewrite H4, H1.
      rewrite (overflowCount_ext k order h) by (intros id Hid; apply Hsub1; set_solver).
      unfold u64. rewrite Zplus_mod_idemp_l. f_equal. unfold overflowCount.
      change (x :: order) with ([x] ++ order). rewrite countb_app. lia.
Qed.

(** The invariant gives [publish] its open subscriptions. *)
Lemma ranges_open order h :
  hub_ok h -> ranges order h ->
  forall id, id ∈ order -> exists s, subs h !! id = Some s /\ closed s = false /\ 0 < capacity s.
Proof.
  intros (H1 & H2 & _) [_ Hr] id Hid. apply Hr in Hid. destruct (H1 id Hid) as (s & Hs & Hc).
  exists s. split_and!; try done. by apply (H2 id).
Qed.

Lemma delivered_bounds e s :
  0 < capacity s -> len (queue s) <= capacity s ->
  0 < capacity (delivered e s) /\ len (queue (delivered e s)) <= capacity (delivered e s).
Proof.
  intros Hc Hl. unfold delivered. destruct (Z.ltb_spec (len (queue s)) (capacity s)); simpl.
  - rewrite length_app. simpl. lia.
  - destruct (priority s); simpl; lia.
Qed.

Lemma delivered_closed e s : closed s = false -> closed (delivered e s) = overflows s.
Proof.
  intros Hc. unfold delivered, overflows. destruct (_ <? _); [done|].
  destruct (priority s); simpl; [done|]. by rewrite Hc.
Qed.

Lemma hub_ok_publish order e h : hub_ok h -> ranges order h -> hub_ok (publish order e h).
Proof.
  intros Hok Hr. destruct (publish_loop e order h) as (Hs & Hl & _);
    [apply Hr|by apply ranges_open|].
  pose proof Hok as (H1 & H2 & H3). destruct Hr as [_ Hr]. split_and!.
  - intros id Hid. apply Hl in Hid as [Hid Hno]. destruct (H1 id Hid) as (s & Hsub & Hc).
    rewrite Hs. rewrite decide_True by (by apply Hr). rewrite Hsub. simpl.
    exists (delivered e s). split; [done|]. rewrite delivered_closed by done.
    destruct (overflows s) eqn:Ho; [|done]. destruct Hno. split; [by apply Hr|]. by exists s.
  - intros id s Hsub. rewrite Hs in Hsub. case_decide; [|by apply (H2 id)].
    destruct (subs h !! id) as [s0|] eqn:Hs0; simplify_eq/=. apply H2 in Hs0 as [? ?].
    by apply delivered_bounds.
  - intros id s Hsub Hc. rewrite Hs in Hsub. apply Hl. case_decide as Hd.
    + destruct (subs h !! id) as [s0|] eqn:Hs0; simplify_eq/=. split; [by apply Hr|].
      intros (_ & s1 & Hs1 & Ho). simplify_eq.
      destruct (H1 id) as (s2 & Hs2 & Hc2); [by apply Hr|]. simplify_eq.
      rewrite delivered_closed in Hc by done. congruence.
    + split; [by apply (H3 id s)|]. tauto.
Qed.

Lemma hub_ok_unsubscribe id h : hub_ok h -> hub_ok (unsubscribe id None h).
Proof.
  intros Hok. unfold unsubscribe. destruct (subs h !! id) as [s|] eqn:Hs; [|done].
  destruct (closed s) eqn:Hc; [done|]. pose proof Hok as (H1 & H2 & H3). split_and!; simpl.
  - intros j Hj. assert (j <> id /\ j ∈ default ∅ (live h)) as [Hne Hj']
      by (destruct (live h); simpl in *; set_solver).
    rewrite lookup_insert_ne by done. by apply H1.
  - intros j s' Hj. destruct (decide (id = j)) as [->|Hne].
    + rewrite lookup_insert_eq in Hj. simplify_eq/=. by apply (H2 j).
    + rewrite lookup_insert_ne in Hj by done. by apply (H2 j).
  - intros j s' Hj Hc'. destruct (decide (id = j)) as [->|Hne].
    + rewrite lookup_insert_eq in Hj. by simplify_eq/=.
    + rewrite lookup_insert_ne in Hj by done. apply H3 in Hj; [|done].
      destruct (live h); simpl in *; set_solver.
Qed.

Lemma hub_ok_receive id h : hub_ok h -> hub_ok (receive id h).
Proof.
  intros (H1 & H2 & H3). unfold receive. destruct (subs h !! id) as [s|] eqn:Hs; [|done].
  destruct (queue s) as [|e rest] eqn:Hq; [done|]. pose proof (H2 id s Hs) as [Hc Hl].
  rewrite Hq in Hl. simpl in Hl. split_and!; simpl.
  - intros j Hj. destruct (decide (id = j)) as [->|Hne]; [|rewrite lookup_insert_ne by done; by apply H1].
    rewrite lookup_insert_eq. destruct (H1 j Hj) as (s' & Hs' & Hc'). simplify_eq. by eexists.
  - intros j s' Hj. destruct (decide (id = j)) as [->|Hne].
    + rewrite lookup_insert_eq in Hj. simplify_eq/=. lia.
    + rewrite lookup_insert_ne in Hj by done. by apply (H2 j).
  - intros j s' Hj Hc'. destruct (decide (id = j)) as [->|Hne].
    + rewrite lookup_insert_eq in Hj. simplify_eq/=. by apply (H3 j s).
    + rewrite lookup_insert_ne in Hj by done. by apply (H3 j s').
Qed.

Lemma hub_ok_subscribe nm pr b h : hub_ok h -> hub_ok (fst (Subscribe nm pr b h)).
Proof.
  intros (H1 & H2 & H3). unfold Subscribe. destruct (String.eqb _ _); [done|].
  destruct (live h) as [l|] eqn:Hl; simpl in *.
  - set (id := incr64 (nextSubID h)). split_and!; simpl.
    + intros j Hj. destruct (decide (id = j)) as [->|Hne]; [rewrite lookup_insert_eq; by eexists|].
      rewrite lookup_insert_ne by done. apply H1. set_solver.
    + intros j s Hj. destruct (decide (id = j)) as [->|Hne].
      * rewrite lookup_insert_eq in Hj. simplify_eq/=.
        destruct (Z.leb_spec b 0); [|lia]. destruct pr as [[]|]; simpl; lia.
      * rewrite lookup_insert_ne in Hj by done. by apply (H2 j).
    + intros j s Hj Hc. destruct (decide (id = j)) as [->|Hne]; [set_solver|].
      rewrite lookup_insert_ne in Hj by done. apply (H3 j s) in Hj; [set_solver|done].
  - split_and!; simpl; [set_solver|done|done].
Qed.

Lemma unsubscribe_lookup id j h :
  subs (unsubscribe id None h) !! j =
    if decide (id = j) then closeChan <$> subs h !! j else subs h !! j.
Proof.
  unfold unsubscribe. case_decide as He; subst.
  - destruct (subs h !! j) as [s|] eqn:Hs; [|by rewrite Hs]. destruct (closed s) eqn:Hc; simpl.
    + rewrite Hs. simpl. f_equal. destruct s; simpl in *; by subst.
    + by rewrite lookup_insert_eq.
  - destruct (subs h !! id) as [s|]; [|done]. destruct (closed s); [done|].
    simpl. by rewrite lookup_insert_ne.
Qed.

Lemma unsubscribe_live id h : live h = None -> live (unsubscribe id None h) = None.
Proof. intros Hl. unfold unsubscribe. break; try done. by rewrite Hl. Qed.

Lemma closeAll_lookup order h j :
  subs (closeAllSubscribers order h) !! j =
    (if decide (j ∈ order) then closeChan <$> subs h !! j else subs h !! j) /\
  live (closeAllSubscribers order h) = None.
Proof.
  unfold closeAllSubscribers.
  assert (Hgen : forall h0, live h0 = None ->
    subs (fold_left (fun h id => unsubscribe id None h) order h0) !! j =
      (if decide (j ∈ order) then closeChan <$> subs h0 !! j else subs h0 !! j) /\
    live (fold_left (fun h id => unsubscribe id None h) order h0) = None).
  { induction order as [|x order IH]; intros h0 Hl; cbn [fold_left]; [done|].
    destruct (IH (unsubscribe x None h0)) as [-> ->]; [by apply unsubscribe_live|].
    split; [|done]. rewrite !unsubscribe_lookup. destruct (decide (x = j)) as [->|Hne].
    - rewrite (decide_True (P := j ∈ j :: order)) by set_solver.
      case_decide; [|done]. by destruct (subs h0 !! j).
    - do 2 case_decide; set_solver. }
  by apply (Hgen (mkHub (subs h) None (nextSubID h) (fanoutOverflowTotal h))).
Qed.

Lemma hub_ok_closeAll order h : hub_ok h -> ranges order h -> hub_ok (closeAllSubscribers order h).
Proof.
  intros (H1 & H2 & H3) [_ Hr]. split_and!.
  - intros id Hid. destruct (closeAll_lookup order h id) as [_ Hl]. rewrite Hl in Hid. set_solver.
  - intros id s Hs. destruct (closeAll_lookup order h id) as [Heq _]. rewrite Heq in Hs.
    case_decide; [|by apply (H2 id)]. destruct (subs h !! id) as [s0|] eqn:Hs0; simplify_eq/=.
    by apply (H2 id).
  - intros id s Hs Hc. destruct (closeAll_lookup order h id) as [Heq _]. rewrite Heq in Hs.
    case_decide as Hd.
    + destruct (subs h !! id); by simplify_eq/=.
    + destruct Hd. apply Hr. by apply (H3 id s).
Qed.

Lemma hub_ok_step h o : hub_ok h -> op_valid h o -> hub_ok (hubStep h o).
Proof.
  intros Hok Hv. destruct o; simpl in *.
  - by apply hub_ok_subscribe.
  - by apply hub_ok_publish.
  - by apply hub_ok_receive.
  - by apply hub_ok_unsubscribe.
  - by apply hub_ok_closeAll.
Qed.

Lemma hub_ok_run h os : hub_ok h -> run_valid h os -> hub_ok (hubRun h os).
Proof.
  revert h; induction os as [|o os IH]; intros h Hok Hv; [done|]. destruct Hv as [Hv1 Hv2].
  apply (IH (hubStep h o)); [by apply hub_ok_step|done].
Qed.

Lemma hub_ok_new : hub_ok newHub.
Proof. split_and!; simpl; set_solver. Qed.

(** *** One subscriber's stream *)

(** The tracked subscription stays in the store, with its name and
    priority, and its stream stays in order. *)
Lemma stream_delivered pubs e s :
  closed s = false -> stream_ok pubs s -> stream_ok (pubs ++ [e]) (delivered e s).
Proof.
  intros Hc. unfold stream_ok, delivered. rewrite Hc.
  destruct (len (queue s) <? capacity s); simpl.
  - rewrite app_assoc. destruct (priority s); [by intros ->|].
    intros Hs. by apply sublist_app.
  - destruct (priority s) eqn:Hp; simpl.
    + intros <-. right. exists (received s), e. split; [done|]. rewrite <- app_assoc. by eexists.
    + rewrite Hp. intros Hs. etransitivity; [exact Hs|]. by apply sublist_inserts_r.
Qed.

Lemma stream_closed_more pubs e s : closed s = true -> stream_ok pubs s -> stream_ok (pubs ++ [e]) s.
Proof.
  intros Hc. unfold stream_ok. rewrite Hc. destruct (priority s).
  - intros [H|(pre & e' & H & Hp)]; [left; by apply prefix_app_r|].
    right. exists pre, e'. split; [done|]. by apply prefix_app_r.
  - intros Hs. etransitivity; [exact Hs|]. by apply sublist_inserts_r.
Qed.

Lemma stream_closeChan pubs s : stream_ok pubs s -> stream_ok pubs (closeChan s).
Proof.
  unfold stream_ok. simpl. destruct (priority s); [|done]. destruct (closed s); [done|].
  intros ->. by left.
Qed.

Lemma stream_step id h o pubs s :
  hub_ok h -> op_valid h o -> subs h !! id = Some s -> stream_ok pubs s ->
  exists s', subs (hubStep h o) !! id = Some s' /\
    stream_ok (pubs ++ published [o]) s' /\ priority s' = priority s /\ name s' = name s.
Proof.
  intros Hok Hv Hs Hst. destruct o as [nm pr b|order e|j|j|order]; simpl in *;
    unfold published; cbn [mbind list_bind]; rewrite ?app_nil_r.
  - unfold Subscribe. destruct (String.eqb _ _); [by exists s|].
    destruct (live h); simpl; [|by exists s].
    exists s. rewrite lookup_insert_ne; [done|]. intros Heq. by rewrite Heq, Hs in Hv.
  - destruct (publish_loop e order h) as (Hp & _); [apply Hv|by apply ranges_open|].
    rewrite Hp, Hs. case_decide as Hd.
    + exists (delivered e s). destruct (ranges_open _ _ Hok Hv id Hd) as (s0 & Hs0 & Hc & _).
      simplify_eq. split_and!; [done|by apply stream_delivered| |];
        unfold delivered; (destruct (_ <? _); [done|]; by destruct (priority s) eqn:?).
    + exists s. split_and!; try done. apply stream_closed_more; [|done].
      destruct (closed s) eqn:Hc; [done|]. destruct Hd. apply Hv. destruct Hok as (_ & _ & H3).
      by apply (H3 id s).
  - unfold receive. destruct (decide (j = id)) as [->|Hne].
    + rewrite Hs. destruct (queue s) as [|e rest] eqn:Hq; [by exists s|]. simpl.
      rewrite lookup_insert_eq. eexists. split; [done|]. split_and!; try done.
      unfold stream_ok in *. simpl. rewrite Hq in Hst.
      by rewrite <- app_assoc.
    + exists s. split_and!; try done. destruct (subs h !! j) as [sj|]; [|done].
      destruct (queue sj); [done|]. simpl. by rewrite lookup_insert_ne.
  - rewrite unsubscribe_lookup, Hs. case_decide; [|by exists s]. exists (closeChan s).
    split_and!; try done. by apply stream_closeChan.
  - destruct (closeAll_lookup order h id) as [-> _]. rewrite Hs. case_decide; [|by exists s].
    exists (closeChan s). split_and!; try done. by apply stream_closeChan.
Qed.

Lemma stream_run id os h pubs s :
  hub_ok h -> run_valid h os -> subs h !! id = Some s -> stream_ok pubs s ->
  exists s', subs (hubRun h os) !! id = Some s' /\ stream_ok (pubs ++ published os) s' /\
    priority s' = priority s /\ name s' = name s.
Proof.
  revert h pubs s; induction os as [|o os IH]; intros h pubs s Hok Hv Hs Hst.
  - exists s. unfold published. simpl. by rewrite app_nil_r.
  - destruct Hv as [Hv1 Hv2].
    destruct (stream_step id h o pubs s Hok Hv1 Hs Hst) as (s1 & Hs1 & Hst1 & Hp1 & Hn1).
    destruct (IH (hubStep h o) (pubs ++ published [o]) s1) as (s2 & Hs2 & Hst2 & Hp2 & Hn2);
      [by apply hub_ok_step|done|done|done|].
    exists s2. split_and!; [done| |congruence|congruence].
    unfold published in *. rewrite <- app_assoc, <- bind_app in Hst2. exact Hst2.
Qed.

(** ** Properties *)

(** Whatever order the range over the subscriber map takes, publishing
    an event appends it to every live channel with room, drops it for a full
    non-critical one, replaces the content of a full critical one by the
    fault event and closes and removes it, leaves every other subscription
    alone, and counts each overflow under its metric name. *)
Theorem publish_exact (os : list hubOp) (order : list Z) (e : PassiveClassifiedEvent) :
  run_valid newHub os ->
  let h := hubRun newHub os in
  ranges order h ->
  let h' := publish order e h in
  (forall id, subs h' !! id =
     if decide (id ∈ default ∅ (live h)) then delivered e <$> subs h !! id else subs h !! id) /\
  (forall id, id ∈ default ∅ (live h') <->
     id ∈ default ∅ (live h) /\ exists s, subs h !! id = Some s /\ overflows s = false) /\
  (forall k, 0 <= overflowTotal k h < 2 ^ 64 ->
     overflowTotal k h' = u64 (overflowTotal k h + Z.of_nat (overflowCount k order h))).
Proof.
  intros Hv h Hr h'. assert (Hok : hub_ok h) by (apply hub_ok_run; [apply hub_ok_new|done]).
  destruct (publish_loop e order h) as (Hs & Hl & _ & _ & Ht);
    [apply Hr|by apply ranges_open|]. pose proof Hr as [_ Hin]. split_and!.
  - intros id. unfold h'. rewrite Hs. do 2 case_decide; try done; by (destruct (Hin id); tauto).
  - intros id. unfold h'. rewrite Hl. split.
    + intros [H1 H2]. split; [done|]. destruct Hok as (H & _). destruct (H id H1) as (s & Hsub & _).
      exists s. split; [done|]. destruct (overflows s) eqn:Ho; [|done]. destruct H2.
      split; [by apply Hin|]. by exists s.
    + intros (H1 & s & Hsub & Ho). split; [done|]. intros (_ & s' & Hs' & Ho'). congruence.
  - intros k Hk. by apply Ht.
Qed.

(** Streams.  From its subscription on, what a critical subscriber has
    read or can still read is exactly what was published, without gaps, as
    long as its channel is open; once it is closed, it is a prefix of that,
    possibly followed by the one fault event.  A non-critical subscriber
    sees a subsequence.  In either case no channel exceeds its capacity. *)
Theorem subscriber_stream (os1 os2 : list hubOp) (nm : string)
    (pr : option PassiveSubscriberPriority) (buffer id : Z) :
  run_valid newHub (os1 ++ OpSubscribe nm pr buffer :: os2) ->
  snd (Subscribe nm pr buffer (hubRun newHub os1)) = inl id ->
  exists s, subs (hubRun newHub (os1 ++ OpSubscribe nm pr buffer :: os2)) !! id = Some s /\
    priority s = default PassiveSubscriberNonCritical pr /\
    stream_ok (published os2) s /\ len (queue s) <= capacity s.
Proof.
  intros Hv Hid. set (h1 := hubRun newHub os1) in *.
  assert (Hsplit : forall h a b, run_valid h (a ++ b) -> run_valid h a /\ run_valid (hubRun h a) b).
  { intros h a; revert h; induction a as [|o a IH]; intros h b H; [done|].
    destruct H as [H1 H2]. destruct (IH _ _ H2) as [H3 H4]. done. }
  destruct (Hsplit _ _ _ Hv) as [Hv1 [Hv2 Hv3]]. fold h1 in Hv2, Hv3.
  assert (Hok1 : hub_ok h1) by (apply hub_ok_run; [apply hub_ok_new|done]).
  set (h2 := hubStep h1 (OpSubscribe nm pr buffer)) in *.
  assert (Hsub : exists s0, subs h2 !! id = Some s0 /\ stream_ok [] s0 /\
      priority s0 = default PassiveSubscriberNonCritical pr).
  { unfold h2. simpl. unfold Subscribe in *. destruct (String.eqb _ _); [done|].
    destruct (live h1); [|done]. simpl in Hid |- *. injection Hid as <-. rewrite lookup_insert_eq.
    eexists. split; [done|]. split; [|done]. unfold stream_ok. simpl.
    destruct pr as [[]|]; simpl; done. }
  destruct Hsub as (s0 & Hs0 & Hst0 & Hp0).
  assert (Hok2 : hub_ok h2) by (by apply hub_ok_step).
  destruct (stream_run id os2 h2 [] s0) as (s & Hs & Hst & Hp & _); [done..|].
  assert (Heq : hubRun newHub (os1 ++ OpSubscribe nm pr buffer :: os2) = hubRun h2 os2)
    by (unfold hubRun at 1; by rewrite fold_left_app).
  rewrite Heq. exists s. split_and!; try done; [congruence|].
  destruct (hub_ok_run h2 os2 Hok2 Hv3) as (_ & H & _). by apply (H id s).
Qed.

(** A critical and a non-critical subscriber with room for one event. *)
Definition demo_hub_ops : list hubOp :=
  [OpSubscribe " dedup " (Some PassiveSubscriberCritical) 1; OpSubscribe "debug" None 1].
Definition demo_ev (t : Z) : PassiveClassifiedEvent :=
  discontinuityEvent t PassiveDiscontinuityConnected None.

Lemma demo_hub_valid : run_valid newHub demo_hub_ops.
Proof. by vm_compute. Qed.

Lemma demo_ranges h :
  live h = Some {[1; 2]} -> ranges [1; 2] h.
Proof.
  intros Hl. split; [repeat constructor; set_solver|]. intros id. rewrite Hl. simpl. set_solver.
Qed.

Lemma publish_exact_witness :
  let h := hubRun newHub demo_hub_ops in
  ranges [1; 2] h /\ forall id, subs (publish [1; 2] (demo_ev 5) h) !! id =
    if decide (id ∈ default ∅ (live h)) then delivered (demo_ev 5) <$> subs h !! id
    else subs h !! id.
Proof.
  assert (Hr : ranges [1; 2] (hubRun newHub demo_hub_ops))
    by (apply demo_ranges; vm_compute; reflexivity).
  split; [exact Hr|].
  exact (proj1 (publish_exact demo_hub_ops [1; 2] (demo_ev 5) demo_hub_valid Hr)).
Defined.

Lemma subscriber_stream_witness :
  exists s, subs (hubRun newHub ([] ++ OpSubscribe "dedup" (Some PassiveSubscriberCritical) 1 ::
      [OpReceive 1])) !! 1 = Some s /\ stream_ok [] s.
Proof.
  destruct (subscriber_stream [] [OpReceive 1] "dedup" (Some PassiveSubscriberCritical) 1 1)
    as (s & H1 & _ & H2 & _); [by vm_compute|by vm_compute|].
  exists s. split; [exact H1|exact H2].
Defined.
End Fanout.
