(* ===== verification/WatchCatalog.v ===== *)
(** * The watch catalogue

    [watch_catalog.go]: the registers the gateway watches, as keys with a
    canonical string, descriptors with their validation, the immutable
    catalogue built from them and the activation set the pollers and tools
    update.  The Go string types are [string]s, because the validation of
    the code looks at unknown and empty values too. *)

From stdpp Require Import sorting.
From Stdlib Require Import Ascii String.
From S2P Require Import Prelude Ebus.

Local Open Scope Z_scope.

Module WatchCatalog.

(** ** Constants *)

Definition WatchSemanticClassState : string := "state".
Definition WatchSemanticClassConfig : string := "config".
Definition WatchSemanticClassDiscovery : string := "discovery".
Definition WatchSemanticClassDebug : string := "debug".

Definition WatchFreshnessProfileStateFast : string := "state_fast".
Definition WatchFreshnessProfileStateSlow : string := "state_slow".
Definition WatchFreshnessProfileConfig : string := "config".
Definition WatchFreshnessProfileDiscovery : string := "discovery".
Definition WatchFreshnessProfileDebug : string := "debug".

Definition WatchCorrelationPolicyRequestResponse : string := "request_response".
Definition WatchCorrelationPolicyBroadcastSelector : string := "broadcast_selector".
Definition WatchCorrelationPolicyRecordInvalidate : string := "record_and_invalidate".
Definition WatchCorrelationPolicyRecordOnly : string := "record_only".
Definition WatchCorrelationPolicyInvalidateOnly : string := "invalidate_only".

Definition WatchDirectApplyPolicyNever : string := "never".
Definition WatchDirectApplyPolicyStateDefault : string := "state_default".
Definition WatchDirectApplyPolicyConfigOptIn : string := "config_opt_in".
Definition WatchDirectApplyPolicyEnergyMergeOnly : string := "energy_merge_only".

Definition WatchActivationSourcePoller : string := "poller".
Definition WatchActivationSourceWriteConfirm : string := "write_confirm".
Definition WatchActivationSourceTooling : string := "tooling".
Definition WatchActivationSourceOperator : string := "operator".

(** [WatchObservationState]. *)
Inductive WatchObservationState :=
| WatchObservationStateActive
| WatchObservationStateInactive
| WatchObservationStateCatalogMiss.

#[export] Instance WatchObservationState_eq_dec : EqDecision WatchObservationState.
Proof. solve_decision. Defined.

(** [watchFreshnessProfileDefaults]; [None] is a missing map key. *)
Definition watchFreshnessProfileDefaults (profile : string) : option Z :=
  if String.eqb profile WatchFreshnessProfileStateFast then Some (30 * second)
  else if String.eqb profile WatchFreshnessProfileStateSlow then Some (120 * second)
  else if String.eqb profile WatchFreshnessProfileConfig then Some (5 * 60 * second)
  else if String.eqb profile WatchFreshnessProfileDiscovery then Some (3600 * second)
  else if String.eqb profile WatchFreshnessProfileDebug then Some 0
  else None.

(** [watchActivationSourceOrder]. *)
Definition watchActivationSourceOrder (source : string) : option Z :=
  if String.eqb source WatchActivationSourcePoller then Some 0
  else if String.eqb source WatchActivationSourceWriteConfirm then Some 1
  else if String.eqb source WatchActivationSourceTooling then Some 2
  else if String.eqb source WatchActivationSourceOperator then Some 3
  else None.

(** ** Keys *)

Inductive WatchFamily := WatchFamilyB509 | WatchFamilyB516 | WatchFamilyB524 | WatchFamilyB555.

(** The four built-in key shapes. *)
Record B524WatchKey := NewB524WatchKey {
  B524Target : byte;
  B524Opcode : byte;
  B524Group : byte;
  B524Instance : byte;
  B524RegisterAddress : Z
}.
Record B509WatchKey := NewB509WatchKey {
  B509Target : byte;
  B509RegisterAddress : Z
}.
Record B516WatchKey := NewB516WatchKey {
  B516Target : byte;
  B516Period : byte;
  B516Source : byte;
  B516Usage : byte
}.
Record B555WatchKey := mkB555 {
  B555Target : byte;
  B555Opcode : byte;
  B555Zone : byte;
  B555HC : byte;
  Weekday : byte;
  Slot : byte;
  HasWeekday : bool;
  HasSlot : bool
}.

(** [NewB555ProgramWatchKey] and [NewB555WatchKey]. *)
Definition NewB555ProgramWatchKey (target opcode zone hc : byte) : B555WatchKey :=
  mkB555 target opcode zone hc 0 0 false false.
Definition NewB555WatchKey (target opcode zone hc weekday slot : byte) : B555WatchKey :=
  mkB555 target opcode zone hc weekday slot true true.

Inductive WatchKey :=
| KeyB509 (k : B509WatchKey)
| KeyB516 (k : B516WatchKey)
| KeyB524 (k : B524WatchKey)
| KeyB555 (k : B555WatchKey).

(** [Family]. *)
Definition Family (k : WatchKey) : WatchFamily :=
  match k with
  | KeyB509 _ => WatchFamilyB509
  | KeyB516 _ => WatchFamilyB516
  | KeyB524 _ => WatchFamilyB524
  | KeyB555 _ => WatchFamilyB555
  end.

(** The verbs [%02x] and [%04x] of [fmt.Sprintf], on a byte and on a
    [uint16]. *)
Definition hexDigit (n : Z) : ascii :=
  ascii_of_N (Z.to_N (if n <? 10 then 48 + n else 87 + n)).
Definition hex1 (n : Z) (rest : string) : string := String (hexDigit (n mod 16)) rest.
Definition hex2 (b : Z) (rest : string) : string := hex1 (Z.shiftr b 4) (hex1 b rest).
Definition hex4 (w : Z) (rest : string) : string := hex2 (Z.shiftr w 8) (hex2 w rest).
(** A colon before the rest of the format. *)
Definition colon (rest : string) : string := String ":" rest.

(** [b555SelectorByte], [b555BoolByte] and [b555WatchKeySelectorsValid]. *)
Definition b555SelectorByte (set : bool) (value : byte) : byte := if set then value else 0xFF.
Definition b555BoolByte (value : bool) : byte := if value then 1 else 0.
Definition b555WatchKeySelectorsValid (k : B555WatchKey) : bool :=
  if negb (Bool.eqb (HasWeekday k) (HasSlot k)) then false
  else if negb (HasWeekday k) then (Weekday k =? 0x00) && (Slot k =? 0x00)
  else negb (Weekday k =? 0xFF) && negb (Slot k =? 0xFF).

(** The [%d] of [b555BoolByte]: one decimal digit. *)
Definition digit1 (b : bool) (rest : string) : string :=
  String (ascii_of_N (Z.to_N (48 + b555BoolByte b))) rest.

(** [Canonical] of each key. *)
Definition canonicalB509 (k : B509WatchKey) : string :=
  "b509:" +:+ hex2 (B509Target k) (colon (hex4 (B509RegisterAddress k) "")).
Definition canonicalB516 (k : B516WatchKey) : string :=
  "b516:" +:+ hex2 (B516Target k) (colon (hex2 (B516Period k)
    (colon (hex2 (B516Source k) (colon (hex2 (B516Usage k) "")))))).
Definition canonicalB524 (k : B524WatchKey) : string :=
  "b524:" +:+ hex2 (B524Target k) (colon (hex2 (B524Opcode k) (colon (hex2 (B524Group k)
    (colon (hex2 (B524Instance k) (colon (hex4 (B524RegisterAddress k) "")))))))).
Definition canonicalB555 (k : B555WatchKey) : string :=
  let suffix :=
    if b555WatchKeySelectorsValid k then EmptyString
    else ":raw:" +:+ digit1 (HasWeekday k) (colon (hex2 (Weekday k)
           (colon (digit1 (HasSlot k) (colon (hex2 (Slot k) "")))))) in
  "b555:" +:+ hex2 (B555Target k) (colon (hex2 (B555Opcode k) (colon (hex2 (B555Zone k)
    (colon (hex2 (B555HC k) (colon (hex2 (b555SelectorByte (HasWeekday k) (Weekday k))
      (colon (hex2 (b555SelectorByte (HasSlot k) (Slot k)) suffix)))))))))).

Definition Canonical (k : WatchKey) : string :=
  match k with
  | KeyB509 k => canonicalB509 k
  | KeyB516 k => canonicalB516 k
  | KeyB524 k => canonicalB524 k
  | KeyB555 k => canonicalB555 k
  end.

(** The key of a request on the wire: [parsePassiveB524WatchKey],
    [parsePassiveB509WatchKey] and [PassiveWatchKeyFromFrame]. *)
Definition parsePassiveB524WatchKey (f : Frame) : option WatchKey :=
  if len (Data f) <? 6 then None
  else
    let opcode := at_ (Data f) 0 in
    if negb (opcode =? 0x02) && negb (opcode =? 0x06) then None
    else
      let addr := Z.lor (at_ (Data f) 4) (Z.shiftl (at_ (Data f) 5) 8) in
      Some (KeyB524 (NewB524WatchKey (Target f) opcode (at_ (Data f) 2) (at_ (Data f) 3) addr)).
Definition parsePassiveB509WatchKey (f : Frame) : option WatchKey :=
  if len (Data f) <? 3 then None
  else
    match at_ (Data f) 0 with
    | 0x0D | 0x29 | 0x0E =>
        let addr := Z.lor (Z.shiftl (at_ (Data f) 1) 8) (at_ (Data f) 2) in
        Some (KeyB509 (NewB509WatchKey (Target f) addr))
    | _ => None
    end.
Definition PassiveWatchKeyFromFrame (f : Frame) : option WatchKey :=
  if (Primary f =? 0xB5) && (Secondary f =? 0x24) then parsePassiveB524WatchKey f
  else if (Primary f =? 0xB5) && (Secondary f =? 0x09) then parsePassiveB509WatchKey f
  else None.

(** ** Descriptors *)

(** The dynamic values of the interface [WatchKey] a caller may put in a
    descriptor: a key by value, by pointer, a nil pointer of one of the
    built-in types, or a type of its own with the string its [Canonical]
    returns. *)
Inductive KeyArg :=
| KeyVal (k : WatchKey)
| KeyPtr (k : WatchKey)
| KeyNilPtr (f : WatchFamily)
| KeyForeign (canonical : string).

(** The errors of the package; the string is the canonical key the message
    quotes. *)
Inductive watchError :=
| ErrMissingKey
| ErrNilPointerKey (f : WatchFamily)
| ErrUnsupportedKey
| ErrSelectorsTogether (key : string)
| ErrProgramSelectors (key : string)
| ErrTimerSentinel (key : string)
| ErrMissingSemanticClass (key : string)
| ErrMissingProfile (key : string)
| ErrClassProfile (key : string)
| ErrMissingDecoder (key : string)
| ErrMissingCorrelation (key : string)
| ErrMissingDirectApply (key : string)
| ErrUnknownProfile (key : string)
| ErrNegativeTTL (key : string)
| ErrWidenZeroTTL (key : string)
| ErrWidenTTL (key : string)
| ErrDuplicate (key : string)
| ErrActivationMissingSource
| ErrActivationNilKey
| ErrActivationUnknownKey (key : string).

(** [WatchDescriptor]; [None] is a nil [Key] or a nil [FreshnessTTL]. *)
Record WatchDescriptor := mkDescriptor {
  Key : option KeyArg;
  SemanticClass : string;
  FreshnessProfile : string;
  DecoderID : string;
  CorrelationPolicy : string;
  DirectApplyPolicy : string;
  FreshnessTTL : option Z
}.

(** [WatchDescriptor{}]. *)
Definition zeroDescriptor : WatchDescriptor :=
  mkDescriptor None "" "" "" "" "" None.

(** [key.Canonical()] through the interface.  The call on a nil pointer
    panics; the code clones a key before it asks for its canonical form, and
    cloning refuses nil pointers. *)
Definition argCanonical (k : KeyArg) : string :=
  match k with
  | KeyVal k | KeyPtr k => Canonical k
  | KeyNilPtr _ => ""
  | KeyForeign c => c
  end.

(** [CanonicalKey] and [WatchDescriptor.Family]. *)
Definition CanonicalKey (d : WatchDescriptor) : string :=
  match Key d with None => "" | Some k => argCanonical k end.

(** [cloneWatchKey]. *)
Definition cloneWatchKey (k : KeyArg) : watchError + WatchKey :=
  match k with
  | KeyVal k | KeyPtr k => inr k
  | KeyNilPtr f => inl (ErrNilPointerKey f)
  | KeyForeign _ => inl ErrUnsupportedKey
  end.

(** [validateB555WatchKey]; [None] is a nil error. *)
Definition validateB555WatchKey (canonical : string) (k : WatchKey) : option watchError :=
  match k with
  | KeyB555 k =>
      if negb (Bool.eqb (HasWeekday k) (HasSlot k)) then Some (ErrSelectorsTogether canonical)
      else if negb (HasWeekday k) then
        if negb (Weekday k =? 0x00) || negb (Slot k =? 0x00)
        then Some (ErrProgramSelectors canonical) else None
      else if (Weekday k =? 0xFF) || (Slot k =? 0xFF) then Some (ErrTimerSentinel canonical)
      else None
  | _ => None
  end.

(** [watchSemanticClassAllowsProfile]. *)
Definition watchSemanticClassAllowsProfile (class profile : string) : bool :=
  if String.eqb class WatchSemanticClassState then
    String.eqb profile WatchFreshnessProfileStateFast
    || String.eqb profile WatchFreshnessProfileStateSlow
  else if String.eqb class WatchSemanticClassConfig then
    String.eqb profile WatchFreshnessProfileConfig
  else if String.eqb class WatchSemanticClassDiscovery then
    String.eqb profile WatchFreshnessProfileDiscovery
  else if String.eqb class WatchSemanticClassDebug then
    String.eqb profile WatchFreshnessProfileDebug
  else false.

(** [validateWatchDescriptor]. *)
Definition validateWatchDescriptor (d : WatchDescriptor) : option watchError :=
  match Key d with
  | None => Some ErrMissingKey
  | Some arg =>
      match cloneWatchKey arg with
      | inl e => Some e
      | inr normalizedKey =>
          let canonical := Canonical normalizedKey in
          match validateB555WatchKey canonical normalizedKey with
          | Some e => Some e
          | None =>
              if String.eqb (SemanticClass d) "" then Some (ErrMissingSemanticClass canonical)
              else if String.eqb (FreshnessProfile d) "" then Some (ErrMissingProfile canonical)
              else if negb (watchSemanticClassAllowsProfile (SemanticClass d) (FreshnessProfile d))
              then Some (ErrClassProfile canonical)
              else if String.eqb (DecoderID d) "" then Some (ErrMissingDecoder canonical)
              else if String.eqb (CorrelationPolicy d) "" then Some (ErrMissingCorrelation canonical)
              else if String.eqb (DirectApplyPolicy d) "" then Some (ErrMissingDirectApply canonical)
              else
                match watchFreshnessProfileDefaults (FreshnessProfile d) with
                | None => Some (ErrUnknownProfile canonical)
                | Some defaultTTL =>
                    match FreshnessTTL d with
                    | None => None
                    | Some ttl =>
                        if ttl <? 0 then Some (ErrNegativeTTL canonical)
                        else if (defaultTTL =? 0) && negb (ttl =? 0) then Some (ErrWidenZeroTTL canonical)
                        else if (0 <? defaultTTL) && (defaultTTL <? ttl) then Some (ErrWidenTTL canonical)
                        else None
                    end
                end
          end
      end
  end.

(** [EffectiveFreshnessTTL]. *)
Definition EffectiveFreshnessTTL (d : WatchDescriptor) : watchError + Z :=
  match validateWatchDescriptor d with
  | Some e => inl e
  | None =>
      inr (match FreshnessTTL d with
           | None => default 0 (watchFreshnessProfileDefaults (FreshnessProfile d))
           | Some ttl => ttl
           end)
  end.

Definition set_Key (k : option KeyArg) (d : WatchDescriptor) : WatchDescriptor :=
  mkDescriptor k (SemanticClass d) (FreshnessProfile d) (DecoderID d) (CorrelationPolicy d)
    (DirectApplyPolicy d) (FreshnessTTL d).

(** [normalizeWatchDescriptor]. *)
Definition normalizeWatchDescriptor (d : WatchDescriptor) : watchError + WatchDescriptor :=
  let cloned :=
    match Key d with
    | None => inr d
    | Some arg =>
        match cloneWatchKey arg with
        | inl e => inl e
        | inr k => inr (set_Key (Some (KeyVal k)) d)
        end
    end in
  match cloned with
  | inl e => inl e
  | inr normalized =>
      match validateWatchDescriptor normalized with
      | Some e => inl e
      | None => inr normalized
      end
  end.

(** ** The catalogue *)

Record WatchCatalog := mkCatalog {
  descriptors : gmap string WatchDescriptor;
  ordered : list WatchDescriptor
}.
Definition emptyCatalog : WatchCatalog := mkCatalog ∅ [].

(** The order of [sort.Slice] on canonical keys; the keys of a catalogue
    are distinct, so every sorting algorithm gives the same slice. *)
Definition keyLe (a b : WatchDescriptor) : Prop :=
  String.leb (CanonicalKey a) (CanonicalKey b) = true.
#[export] Instance keyLe_dec : RelDecision keyLe.
Proof. intros a b. unfold keyLe. apply _. Defined.

(** The loop of [NewWatchCatalog]. *)
Fixpoint addDescriptors (ds : list WatchDescriptor) (c : WatchCatalog) : watchError + WatchCatalog :=
  match ds with
  | [] => inr c
  | d :: ds' =>
      match normalizeWatchDescriptor d with
      | inl e => inl e
      | inr normalized =>
          let key := CanonicalKey normalized in
          match descriptors c !! key with
          | Some _ => inl (ErrDuplicate key)
          | None =>
              addDescriptors ds'
                (mkCatalog (<[key := normalized]> (descriptors c)) (ordered c ++ [normalized]))
          end
      end
  end.

(** [NewWatchCatalog]. *)
Definition NewWatchCatalog (ds : list WatchDescriptor) : watchError + WatchCatalog :=
  match addDescriptors ds emptyCatalog with
  | inl e => inl e
  | inr c => inr (mkCatalog (descriptors c) (merge_sort keyLe (ordered c)))
  end.

(** [Len], [DescriptorByCanonical], [Descriptor] and [Descriptors]; the
    copies are by value. *)
Definition Len (c : WatchCatalog) : Z := len (ordered c).
Definition DescriptorByCanonical (c : WatchCatalog) (key : string) : option WatchDescriptor :=
  descriptors c !! key.
Definition Descriptor (c : WatchCatalog) (key : option WatchKey) : option WatchDescriptor :=
  match key with None => None | Some k => DescriptorByCanonical c (Canonical k) end.
Definition Descriptors (c : WatchCatalog) : list WatchDescriptor := ordered c.

(** ** The activation set *)

Record WatchObservationSummary := mkSummary {
  ActiveTotal : Z;
  InactiveTotal : Z;
  CatalogMissTotal : Z
}.

(** [WatchObservation]. *)
Record WatchObservation := mkObservation {
  State : WatchObservationState;
  ObsDescriptor : WatchDescriptor;
  HasDescriptor : bool;
  Sources : list string
}.
Definition catalogMiss : WatchObservation :=
  mkObservation WatchObservationStateCatalogMiss zeroDescriptor false [].

(** [WatchActivationSet]; a key is absent from [active] when no source
    holds it. *)
Record WatchActivationSet := mkSet {
  catalog : WatchCatalog;
  active : gmap string (gset string);
  summary : WatchObservationSummary
}.

(** [NewWatchActivationSet]; [None] is a nil catalogue. *)
Definition NewWatchActivationSet (c : option WatchCatalog) : WatchActivationSet :=
  mkSet (default emptyCatalog c) ∅ (mkSummary 0 0 0).

(** The validation loop of [Activate]. *)
Fixpoint activationCanonicals (c : WatchCatalog) (keys : list (option WatchKey))
    : watchError + list string :=
  match keys with
  | [] => inr []
  | None :: _ => inl ErrActivationNilKey
  | Some k :: keys' =>
      let canonical := Canonical k in
      match DescriptorByCanonical c canonical with
      | None => inl (ErrActivationUnknownKey canonical)
      | Some _ =>
          match activationCanonicals c keys' with
          | inl e => inl e
          | inr cs => inr (canonical :: cs)
          end
      end
  end.

Definition activateOne (source : string) (m : gmap string (gset string)) (canonical : string)
    : gmap string (gset string) :=
  <[canonical := {[source]} ∪ default ∅ (m !! canonical)]> m.

(** [Activate]; the set and the error. *)
Definition Activate (source : string) (keys : list (option WatchKey)) (s : WatchActivationSet)
    : WatchActivationSet * option watchError :=
  if String.eqb source "" then (s, Some ErrActivationMissingSource)
  else
    match activationCanonicals (catalog s) keys with
    | inl e => (s, Some e)
    | inr cs => (mkSet (catalog s) (fold_left (activateOne source) cs (active s)) (summary s), None)
    end.

(** One iteration of [Deactivate]. *)
Definition deactivateOne (source : string) (m : gmap string (gset string)) (key : option WatchKey)
    : gmap string (gset string) :=
  match key with
  | None => m
  | Some k =>
      let canonical := Canonical k in
      let sources := default ∅ (m !! canonical) in
      if (size sources =? 0)%nat then m
      else
        let sources' := sources ∖ {[source]} in
        if (size sources' =? 0)%nat then delete canonical m else <[canonical := sources']> m
  end.

(** [Deactivate]. *)
Definition Deactivate (source : string) (keys : list (option WatchKey)) (s : WatchActivationSet)
    : WatchActivationSet :=
  if String.eqb source "" then s
  else mkSet (catalog s) (fold_left (deactivateOne source) keys (active s)) (summary s).

(** The [less] function of [sortedWatchActivationSources]. *)
Definition sourceLess (l r : string) : bool :=
  match watchActivationSourceOrder l, watchActivationSourceOrder r with
  | Some a, Some b => if negb (a =? b) then a <? b else String.ltb l r
  | Some _, None => true
  | None, Some _ => false
  | None, None => String.ltb l r
  end.
Definition sourceLe (l r : string) : Prop := sourceLess r l = false.
#[export] Instance sourceLe_dec : RelDecision sourceLe.
Proof. intros a b. unfold sourceLe. apply _. Defined.

(** [sortedWatchActivationSources]. *)
Definition sortedWatchActivationSources (sources : gset string) : list string :=
  merge_sort sourceLe (elements sources).

(** [ActiveSources]. *)
Definition ActiveSources (s : WatchActivationSet) (key : option WatchKey) : list string :=
  match key with
  | None => []
  | Some k => sortedWatchActivationSources (default ∅ (active s !! Canonical k))
  end.

(** [Observe]. *)
Definition Observe (key : option WatchKey) (s : WatchActivationSet)
    : WatchActivationSet * WatchObservation :=
  match key with
  | None => (s, catalogMiss)
  | Some k =>
      let u := summary s in
      match DescriptorByCanonical (catalog s) (Canonical k) with
      | None =>
          (mkSet (catalog s) (active s)
             (mkSummary (ActiveTotal u) (InactiveTotal u) (incr64 (CatalogMissTotal u))),
           catalogMiss)
      | Some d =>
          let sources := sortedWatchActivationSources (default ∅ (active s !! Canonical k)) in
          match sources with
          | [] =>
              (mkSet (catalog s) (active s)
                 (mkSummary (ActiveTotal u) (incr64 (InactiveTotal u)) (CatalogMissTotal u)),
               mkObservation WatchObservationStateInactive d true [])
          | _ :: _ =>
              (mkSet (catalog s) (active s)
                 (mkSummary (incr64 (ActiveTotal u)) (InactiveTotal u) (CatalogMissTotal u)),
               mkObservation WatchObservationStateActive d true sources)
          end
      end
  end.

(** ** Canonical strings identify keys *)

(** The machine ranges of the fields of a key. *)
Definition key_ok (k : WatchKey) : Prop :=
  match k with
  | KeyB509 k => is_byte (B509Target k) /\ 0 <= B509RegisterAddress k < 2 ^ 16
  | KeyB516 k =>
      is_byte (B516Target k) /\ is_byte (B516Period k) /\ is_byte (B516Source k)
      /\ is_byte (B516Usage k)
  | KeyB524 k =>
      is_byte (B524Target k) /\ is_byte (B524Opcode k) /\ is_byte (B524Group k)
      /\ is_byte (B524Instance k) /\ 0 <= B524RegisterAddress k < 2 ^ 16
  | KeyB555 k =>
      is_byte (B555Target k) /\ is_byte (B555Opcode k) /\ is_byte (B555Zone k)
      /\ is_byte (B555HC k) /\ is_byte (Weekday k) /\ is_byte (Slot k)
  end.

Lemma hexDigit_inj a b :
  0 <= a < 16 -> 0 <= b < 16 -> hexDigit a = hexDigit b -> a = b.
Proof.
  intros Ha Hb H. apply (f_equal N_of_ascii) in H. unfold hexDigit in H.
  rewrite !N_ascii_embedding in H by (break_match_goal; lia).
  destruct (a <? 10) eqn:?, (b <? 10) eqn:?; bool_facts; lia.
Qed.

Lemma hex1_inj a b s t : hex1 a s = hex1 b t -> a mod 16 = b mod 16 /\ s = t.
Proof.
  unfold hex1. intros [= H ->]. split; [|done].
  apply hexDigit_inj; [apply Z.mod_pos_bound; lia..|done].
Qed.

Lemma hex2_mod a b s t : hex2 a s = hex2 b t -> a mod 256 = b mod 256 /\ s = t.
Proof.
  unfold hex2. intros [H1 [H2 ->]%hex1_inj]%hex1_inj. split; [|done].
  rewrite !Z.shiftr_div_pow2 in H1 by lia. change (2 ^ 4) with 16 in H1.
  change 256 with (16 * 16).
  rewrite (Z.rem_mul_r a 16 16), (Z.rem_mul_r b 16 16) by lia. lia.
Qed.

Lemma hex2_inj a b s t : is_byte a -> is_byte b -> hex2 a s = hex2 b t -> a = b /\ s = t.
Proof.
  unfold is_byte. intros Ha Hb [H ->]%hex2_mod. rewrite !Z.mod_small in H by lia. done.
Qed.

Lemma hex4_inj a b s t :
  0 <= a < 2 ^ 16 -> 0 <= b < 2 ^ 16 -> hex4 a s = hex4 b t -> a = b /\ s = t.
Proof.
  unfold hex4. intros Ha Hb [H1 [H2 ->]%hex2_mod]%hex2_mod. split; [|done].
  rewrite !Z.shiftr_div_pow2 in H1 by lia. change (2 ^ 8) with 256 in H1.
  rewrite !(Z.mod_small (_ / _)) in H1 by (split; [apply Z.div_pos|apply Z.div_lt_upper_bound]; lia).
  rewrite (Z.div_mod a 256), (Z.div_mod b 256) by lia. lia.
Qed.

Lemma colon_inj s t : colon s = colon t -> s = t.
Proof. by intros [= ->]. Qed.

Lemma digit1_inj a b s t : digit1 a s = digit1 b t -> a = b /\ s = t.
Proof. destruct a, b; unfold digit1; simpl; intros [=]; done. Qed.

Lemma selector_is_byte set value : is_byte value -> is_byte (b555SelectorByte set value).
Proof. unfold b555SelectorByte, is_byte. destruct set; lia. Qed.

(** Peels one field off an equation between two canonical strings. *)
Ltac peel H :=
  first [ apply hex2_inj in H as [? H]; [|by eauto using selector_is_byte..]
        | apply hex4_inj in H as [? H]; [|by eauto..]
        | apply digit1_inj in H as [? H]
        | apply colon_inj in H ].

Lemma canonicalB555_inj x y :
  key_ok (KeyB555 x) -> key_ok (KeyB555 y) -> canonicalB555 x = canonicalB555 y -> x = y.
Proof.
  destruct x as [t1 o1 z1 h1 w1 s1 hw1 hs1], y as [t2 o2 z2 h2 w2 s2 hw2 hs2]; simpl.
  intros (?&?&?&?&?&?) (?&?&?&?&?&?) Eq. unfold canonicalB555 in Eq.
  apply (inj (String.append _)) in Eq. simpl in Eq. repeat peel Eq. subst.
  destruct (b555WatchKeySelectorsValid _) eqn:V1 in Eq;
    destruct (b555WatchKeySelectorsValid _) eqn:V2 in Eq; simpl in Eq; try done.
  - unfold b555WatchKeySelectorsValid, b555SelectorByte in *; simpl in *.
    destruct hw1, hs1, hw2, hs2; simpl in *; bool_facts; try done; by subst.
  - apply (inj (String.append ":raw:")) in Eq. repeat peel Eq. by subst.
Qed.

(** C40: Two keys with the same canonical string are the same key: the
    canonical form the catalogue, the activation set and the deduplicator
    compare never confuses two registers, including the B555 keys whose
    selectors are not valid. *)
Theorem canonical_injective (x y : WatchKey) :
  key_ok x -> key_ok y -> Canonical x = Canonical y -> x = y.
Proof.
  destruct x as [x|x|x|x], y as [y|y|y|y]; intros Hx Hy Eq; try done; f_equal.
  4: by apply canonicalB555_inj.
  all: destruct x, y; apply (inj (String.append _)) in Eq;
    simpl in *; destruct_and?; repeat peel Eq; by subst.
Qed.

Lemma canonical_injective_witness :
  Canonical (KeyB524 (NewB524WatchKey 0x15 0x02 0x03 0x01 0x1600)) = "b524:15:02:03:01:1600"
  /\ Canonical (KeyB555 (mkB555 0x15 0xA5 0 0 7 0 true false)) = "b555:15:a5:00:00:07:ff:raw:1:07:0:00"
  /\ (Canonical (KeyB555 (NewB555ProgramWatchKey 0x15 0xA5 0 0))
       = Canonical (KeyB555 (mkB555 (0x10 + 5) 0xA5 0 0 0 0 false false)) ->
      KeyB555 (NewB555ProgramWatchKey 0x15 0xA5 0 0)
      = KeyB555 (mkB555 (0x10 + 5) 0xA5 0 0 0 0 false false)).
Proof.
  split; [reflexivity|]. split; [reflexivity|].
  apply canonical_injective; unfold key_ok, is_byte; simpl; lia.
Defined.

(** ** The order of Go strings *)

Lemma ascii_compare_trans c a b d :
  Ascii.compare a b = c -> Ascii.compare b d = c -> Ascii.compare a d = c.
Proof.
  unfold Ascii.compare. intros H1 H2. destruct c.
  - rewrite N.compare_eq_iff in *. congruence.
  - rewrite N.compare_lt_iff in *. lia.
  - rewrite N.compare_gt_iff in *. lia.
Qed.

Lemma ascii_compare_refl a : Ascii.compare a a = Eq.
Proof. apply N.compare_refl. Qed.

Lemma string_compare_refl s : String.compare s s = Eq.
Proof. induction s as [|a s IH]; simpl; [done|]. by rewrite ascii_compare_refl. Qed.

Lemma string_compare_lt_trans s t u :
  String.compare s t = Lt -> String.compare t u = Lt -> String.compare s u = Lt.
Proof.
  revert t u. induction s as [|a s IH]; intros [|b t] [|d u]; simpl; try done.
  destruct (Ascii.compare a b) eqn:E1; [|intros _|done].
  - apply Ascii.compare_eq_iff in E1 as ->.
    destruct (Ascii.compare b d); [apply IH|done..].
  - destruct (Ascii.compare b d) eqn:E2; [intros _|intros _|done].
    + apply Ascii.compare_eq_iff in E2 as ->. by rewrite E1.
    + by rewrite (ascii_compare_trans Lt a b d E1 E2).
Qed.

Lemma string_ltb_trans s t u :
  String.ltb s t = true -> String.ltb t u = true -> String.ltb s u = true.
Proof.
  unfold String.ltb. intros H1 H2.
  destruct (String.compare s t) eqn:E1; [done| |done].
  destruct (String.compare t u) eqn:E2; [done| |done].
  by rewrite (string_compare_lt_trans s t u E1 E2).
Qed.

Lemma string_leb_ltb s t : String.leb s t = true <-> s = t \/ String.ltb s t = true.
Proof.
  unfold String.leb, String.ltb. split.
  - destruct (String.compare s t) eqn:E; intros H; [|by right|done].
    left. by apply String.compare_eq_iff.
  - intros [->|H]; [by rewrite string_compare_refl|]. by destruct (String.compare s t).
Qed.

Lemma string_ltb_leb s t : String.ltb s t = negb (String.leb t s).
Proof.
  unfold String.leb, String.ltb. rewrite (String.compare_antisym t s).
  by destruct (String.compare s t).
Qed.

#[export] Instance keyLe_trans : Transitive keyLe.
Proof.
  intros a b c. unfold keyLe. rewrite !string_leb_ltb.
  intros [->|H1] [H2|H2]; auto; [right; by rewrite <- H2|].
  right. by eapply string_ltb_trans.
Qed.

#[export] Instance keyLe_total : Total keyLe.
Proof. intros a b. apply String.leb_total. Qed.

(** Strictly below, on canonical keys. *)
Definition keyLt (a b : WatchDescriptor) : Prop :=
  String.ltb (CanonicalKey a) (CanonicalKey b) = true.

Lemma sorted_strict (l : list WatchDescriptor) :
  NoDup (CanonicalKey <$> l) -> StronglySorted keyLe l -> StronglySorted keyLt l.
Proof.
  induction l as [|d l IH]; intros Hnd Hs; [constructor|].
  apply NoDup_cons in Hnd as [Hd Hnd].
  apply StronglySorted_inv in Hs as [Hs Hall]. constructor; [by apply IH|].
  rewrite Forall_forall in *. intros x Hx. specialize (Hall x Hx).
  apply string_leb_ltb in Hall as [Heq|Hlt]; [|done].
  destruct Hd. rewrite Heq. by apply list_elem_of_fmap_2.
Qed.

(** ** The catalogue holds what it was given *)

(** [ns] are the normalised forms of [ds], all with different keys. *)
Definition catalogued (ds ns : list WatchDescriptor) : Prop :=
  Forall2 (fun d n => normalizeWatchDescriptor d = inr n) ds ns
  /\ NoDup (CanonicalKey <$> ns).

(** The map and the slice of a catalogue under construction agree. *)
Definition indexed (c : WatchCatalog) (ns : list WatchDescriptor) : Prop :=
  forall key d, descriptors c !! key = Some d <-> d ∈ ns /\ CanonicalKey d = key.

Lemma indexed_snoc c ns n o :
  indexed c ns -> descriptors c !! CanonicalKey n = None ->
  indexed (mkCatalog (<[CanonicalKey n := n]> (descriptors c)) o) (ns ++ [n]).
Proof.
  intros Hi Hn key d. simpl. rewrite elem_of_app, list_elem_of_singleton.
  destruct (decide (key = CanonicalKey n)) as [->|Hne].
  - rewrite lookup_insert_eq. split; [intros [= ->]; auto|].
    intros [[Hd| ->] Hk]; [|done].
    assert (descriptors c !! CanonicalKey n = Some d) as E by (apply Hi; auto).
    by rewrite Hn in E.
  - rewrite lookup_insert_ne by done. rewrite (Hi key d). naive_solver.
Qed.

Lemma indexed_fresh c ns n :
  indexed c ns -> descriptors c !! CanonicalKey n = None <-> CanonicalKey n ∉ CanonicalKey <$> ns.
Proof.
  intros Hi. rewrite list_elem_of_fmap. split.
  - intros Hn (d & Hk & Hd). symmetry in Hk.
    assert (descriptors c !! CanonicalKey n = Some d) as E by (by apply Hi). congruence.
  - intros Hn. destruct (descriptors c !! CanonicalKey n) as [d|] eqn:E; [|done].
    apply Hi in E as [Hd Hk]. destruct Hn. by exists d.
Qed.

Lemma addDescriptors_spec ds pre c :
  catalogued pre (ordered c) -> indexed c (ordered c) ->
  match addDescriptors ds c with
  | inr c' => catalogued (pre ++ ds) (ordered c') /\ indexed c' (ordered c')
  | inl e =>
      exists front d back ns, ds = front ++ d :: back /\ catalogued (pre ++ front) ns
        /\ (normalizeWatchDescriptor d = inl e
            \/ exists n, normalizeWatchDescriptor d = inr n
                 /\ CanonicalKey n ∈ CanonicalKey <$> ns /\ e = ErrDuplicate (CanonicalKey n))
  end.
Proof.
  revert pre c. induction ds as [|d ds IH]; intros pre c Hc Hi; simpl.
  { by rewrite app_nil_r. }
  destruct (normalizeWatchDescriptor d) as [e|n] eqn:En.
  { exists [], d, ds, (ordered c). rewrite app_nil_r. auto. }
  destruct (descriptors c !! CanonicalKey n) eqn:El.
  { exists [], d, ds, (ordered c). rewrite app_nil_r. do 2 (split; [done|]). right.
    exists n. split; [done|]. split; [|done].
    destruct (decide (CanonicalKey n ∈ CanonicalKey <$> ordered c)) as [|Hn]; [done|].
    apply (indexed_fresh c _ n Hi) in Hn. congruence. }
  destruct Hc as [Hf Hnd].
  set (c1 := mkCatalog (<[CanonicalKey n := n]> (descriptors c)) (ordered c ++ [n])).
  assert (catalogued (pre ++ [d]) (ordered c1)) as Hc1.
  { split; [by apply Forall2_app; [|repeat constructor]|]. simpl. rewrite fmap_app.
    apply NoDup_app. split; [done|]. split; [|apply NoDup_singleton].
    intros x Hx ->%list_elem_of_singleton. by apply (indexed_fresh c _ n Hi) in El. }
  specialize (IH (pre ++ [d]) c1 Hc1 (indexed_snoc _ _ _ _ Hi El)).
  destruct (addDescriptors ds c1) as [e|c'].
  - destruct IH as (front & d' & back & ns & -> & Hcat & He).
    exists (d :: front), d', back, ns. split; [done|]. split; [|done].
    by rewrite <- app_assoc in Hcat.
  - by rewrite <- app_assoc in IH.
Qed.

Lemma addDescriptors_empty ds :
  match addDescriptors ds emptyCatalog with
  | inr c => catalogued ds (ordered c) /\ indexed c (ordered c)
  | inl e =>
      exists front d back ns, ds = front ++ d :: back /\ catalogued front ns
        /\ (normalizeWatchDescriptor d = inl e
            \/ exists n, normalizeWatchDescriptor d = inr n
                 /\ CanonicalKey n ∈ CanonicalKey <$> ns /\ e = ErrDuplicate (CanonicalKey n))
  end.
Proof.
  apply (addDescriptors_spec ds [] emptyCatalog).
  - split; constructor.
  - intros key d. simpl. rewrite lookup_empty. set_solver.
Qed.

(** Building a catalogue is exact.  On success it holds the normalised
    form of every descriptor given and nothing else, in strictly increasing
    order of canonical key, and looking a canonical key up finds the
    descriptor with that key and only it.  On failure the error is that of
    the first descriptor that does not validate or that repeats the key of
    an earlier one. *)
Theorem catalog_exact (ds : list WatchDescriptor) :
  match NewWatchCatalog ds with
  | inr c =>
      exists ns, catalogued ds ns /\ Descriptors c ≡ₚ ns /\ StronglySorted keyLt (Descriptors c)
        /\ Len c = len ds
        /\ forall key d, DescriptorByCanonical c key = Some d <-> d ∈ Descriptors c /\ CanonicalKey d = key
  | inl e =>
      exists front d back ns, ds = front ++ d :: back /\ catalogued front ns
        /\ (normalizeWatchDescriptor d = inl e
            \/ exists n, normalizeWatchDescriptor d = inr n
                 /\ CanonicalKey n ∈ CanonicalKey <$> ns /\ e = ErrDuplicate (CanonicalKey n))
  end.
Proof.
  unfold NewWatchCatalog. pose proof (addDescriptors_empty ds) as H.
  destruct (addDescriptors ds emptyCatalog) as [e|c]; [done|].
  destruct H as [[Hf Hnd] Hix]. exists (ordered c). simpl.
  pose proof (merge_sort_Permutation keyLe (ordered c)) as Hp.
  split; [done|]. split; [done|]. split; [|split].
  - apply sorted_strict; [by rewrite Hp|]. apply (StronglySorted_merge_sort _ _).
  - unfold Len. simpl. rewrite Hp. apply Forall2_length in Hf. simpl in Hf. lia.
  - intros key d. unfold DescriptorByCanonical. simpl. rewrite Hp. apply Hix.
Qed.

(** The descriptors of a catalogue validate. *)
Lemma normalize_valid d n : normalizeWatchDescriptor d = inr n -> validateWatchDescriptor n = None.
Proof. unfold normalizeWatchDescriptor. intros H. by break_all. Qed.

Lemma default_nonneg p t : watchFreshnessProfileDefaults p = Some t -> 0 <= t.
Proof. unfold watchFreshnessProfileDefaults, second. intros H. break_all; lia. Qed.

Lemma valid_ttl d :
  validateWatchDescriptor d = None ->
  exists limit, watchFreshnessProfileDefaults (FreshnessProfile d) = Some limit
    /\ forall ttl, FreshnessTTL d = Some ttl -> 0 <= ttl <= limit.
Proof.
  unfold validateWatchDescriptor. intros H.
  destruct (Key d); [|done]. destruct (cloneWatchKey k); [done|].
  destruct (validateB555WatchKey _ _); [done|]. repeat case_match; try done.
  - eexists. split; [done|]. intros ttl [= <-]. bool_facts.
    match goal with Hd : watchFreshnessProfileDefaults _ = Some _ |- _ => apply default_nonneg in Hd end.
    rewrite andb_false_iff in *. destruct_or!; bool_facts; lia.
  - by eexists.
Qed.

(** Every descriptor of a catalogue has an effective freshness, which
    never exceeds the default of its profile and is not negative. *)
Theorem catalog_freshness_bounded (ds : list WatchDescriptor) (c : WatchCatalog) (d : WatchDescriptor) :
  NewWatchCatalog ds = inr c -> d ∈ Descriptors c ->
  exists ttl limit, EffectiveFreshnessTTL d = inr ttl
    /\ watchFreshnessProfileDefaults (FreshnessProfile d) = Some limit
    /\ 0 <= ttl <= limit /\ (FreshnessTTL d = None -> ttl = limit).
Proof.
  unfold NewWatchCatalog. intros Hnew Hd.
  pose proof (addDescriptors_empty ds) as H.
  destruct (addDescriptors ds emptyCatalog) as [e|c0]; [done|]. injection Hnew as <-.
  destruct H as [[Hf _] _]. simpl in Hd. rewrite merge_sort_Permutation in Hd.
  apply list_elem_of_lookup in Hd as [i Hd].
  destruct (Forall2_lookup_r _ _ _ _ _ Hf Hd) as (x & _ & Hx).
  apply normalize_valid in Hx as Hv. destruct (valid_ttl d Hv) as (limit & Hl & Ht).
  unfold EffectiveFreshnessTTL. rewrite Hv, Hl. simpl.
  exists (match FreshnessTTL d with None => limit | Some ttl => ttl end), limit.
  split; [done|]. split; [done|]. apply default_nonneg in Hl.
  destruct (FreshnessTTL d); [|by split; [lia|]]. split; [by apply Ht|done].
Qed.

(** A catalogue with two registers, given out of order and one by pointer. *)
Definition demo_key1 : WatchKey := KeyB524 (NewB524WatchKey 0x15 0x02 0x03 0x01 0x1600).
Definition demo_key2 : WatchKey := KeyB509 (NewB509WatchKey 0x08 0x0100).
Definition demo_descriptors : list WatchDescriptor :=
  [ mkDescriptor (Some (KeyPtr demo_key1)) "state" "state_fast" "f32"
      WatchCorrelationPolicyRequestResponse WatchDirectApplyPolicyStateDefault (Some (10 * second));
    mkDescriptor (Some (KeyVal demo_key2)) "config" "config" "u8"
      WatchCorrelationPolicyRequestResponse WatchDirectApplyPolicyNever None ].
Definition demo_catalog : WatchCatalog :=
  match NewWatchCatalog demo_descriptors with inr c => c | inl _ => emptyCatalog end.

Lemma catalog_freshness_bounded_witness :
  exists d, Descriptors demo_catalog !! 1%nat = Some d
    /\ exists ttl limit, EffectiveFreshnessTTL d = inr ttl
    /\ watchFreshnessProfileDefaults (FreshnessProfile d) = Some limit
    /\ 0 <= ttl <= limit /\ (FreshnessTTL d = None -> ttl = limit).
Proof.
  eexists. split; [vm_compute; reflexivity|].
  apply (catalog_freshness_bounded demo_descriptors demo_catalog).
  - vm_compute. reflexivity.
  - apply (list_elem_of_lookup_2 _ 1%nat). vm_compute. reflexivity.
Defined.

(** ** The activation set *)

(** The operations of the set. *)
Inductive setOp :=
| OpActivate (source : string) (keys : list (option WatchKey))
| OpDeactivate (source : string) (keys : list (option WatchKey))
| OpObserve (key : option WatchKey).

Definition setStep (s : WatchActivationSet) (o : setOp) : WatchActivationSet :=
  match o with
  | OpActivate source keys => fst (Activate source keys s)
  | OpDeactivate source keys => Deactivate source keys s
  | OpObserve key => fst (Observe key s)
  end.
Definition setRun (ops : list setOp) (s : WatchActivationSet) : WatchActivationSet :=
  fold_left setStep ops s.

(** The contract: who holds a canonical key, as a function of the
    operations so far.  A batch is accepted as a whole or refused as a
    whole. *)
Definition mentions (keys : list (option WatchKey)) (key : string) : bool :=
  existsb (fun k => match k with Some k => String.eqb (Canonical k) key | None => false end) keys.
Definition batchAccepted (c : WatchCatalog) (source : string) (keys : list (option WatchKey)) : bool :=
  negb (String.eqb source "")
  && forallb (fun k => match k with
                       | Some k => bool_decide (is_Some (descriptors c !! Canonical k))
                       | None => false end) keys.
Definition heldStep (c : WatchCatalog) (key source : string) (held : bool) (o : setOp) : bool :=
  match o with
  | OpActivate src keys =>
      if batchAccepted c src keys && String.eqb src source && mentions keys key then true else held
  | OpDeactivate src keys =>
      if negb (String.eqb src "") && String.eqb src source && mentions keys key then false else held
  | OpObserve _ => held
  end.
Definition held (c : WatchCatalog) (ops : list setOp) (key source : string) : bool :=
  fold_left (heldStep c key source) ops false.

(** The sources the set stores for a key. *)
Definition sourcesOf (m : gmap string (gset string)) (key : string) : gset string :=
  default ∅ (m !! key).

Lemma sourcesOf_insert_eq m k S : sourcesOf (<[k := S]> m) k = S.
Proof. unfold sourcesOf. by rewrite lookup_insert_eq. Qed.
Lemma sourcesOf_insert_ne m k j S : k <> j -> sourcesOf (<[k := S]> m) j = sourcesOf m j.
Proof. intros H. unfold sourcesOf. by rewrite lookup_insert_ne. Qed.
Lemma sourcesOf_delete_eq m k : sourcesOf (delete k m) k = ∅.
Proof. unfold sourcesOf. by rewrite lookup_delete_eq. Qed.
Lemma sourcesOf_delete_ne m k j : k <> j -> sourcesOf (delete k m) j = sourcesOf m j.
Proof. intros H. unfold sourcesOf. by rewrite lookup_delete_ne. Qed.

Lemma activateOne_sources src m k key x :
  x ∈ sourcesOf (activateOne src m k) key <-> x ∈ sourcesOf m key \/ (k = key /\ x = src).
Proof.
  unfold activateOne. destruct (decide (k = key)) as [->|Hne].
  - rewrite sourcesOf_insert_eq. fold (sourcesOf m key). set_solver.
  - rewrite sourcesOf_insert_ne by done. naive_solver.
Qed.

Lemma activateAll_sources src cs m key x :
  x ∈ sourcesOf (fold_left (activateOne src) cs m) key
  <-> x ∈ sourcesOf m key \/ (key ∈ cs /\ x = src).
Proof.
  revert m. induction cs as [|c cs IH]; intros m; simpl; [set_solver|].
  rewrite IH, activateOne_sources. set_solver.
Qed.

Lemma deactivateOne_sources src m k key x :
  x ∈ sourcesOf (deactivateOne src m k) key
  <-> x ∈ sourcesOf m key /\ ~ (option_map Canonical k = Some key /\ x = src).
Proof.
  destruct k as [k|]; simpl; [|naive_solver].
  fold (sourcesOf m (Canonical k)).
  destruct (size (sourcesOf m (Canonical k)) =? 0)%nat eqn:E0.
  { apply Nat.eqb_eq, size_empty_inv in E0. split; [|tauto].
    intros Hx. split; [done|]. intros [[= <-] ->]. set_solver. }
  destruct (size (sourcesOf m (Canonical k) ∖ {[src]}) =? 0)%nat eqn:E1; destruct (decide (Canonical k = key)) as [<-|Hne].
  - apply Nat.eqb_eq, size_empty_inv in E1. rewrite sourcesOf_delete_eq. split; [set_solver|].
    intros [Hx Hn]. destruct (decide (x = src)) as [->|]; [naive_solver|]. set_solver.
  - rewrite sourcesOf_delete_ne by done. naive_solver.
  - rewrite sourcesOf_insert_eq, elem_of_difference, elem_of_singleton. naive_solver.
  - rewrite sourcesOf_insert_ne by done. naive_solver.
Qed.

Lemma mentions_spec keys key :
  mentions keys key = true <-> exists k, Some k ∈ keys /\ Canonical k = key.
Proof.
  unfold mentions. rewrite existsb_exists. split.
  - intros ([k|] & Hin & H); [|done]. apply String.eqb_eq in H.
    exists k. by rewrite list_elem_of_In.
  - intros (k & Hin & <-). exists (Some k). rewrite <- list_elem_of_In, String.eqb_refl. done.
Qed.

Lemma deactivateAll_sources src keys m key x :
  x ∈ sourcesOf (fold_left (deactivateOne src) keys m) key
  <-> x ∈ sourcesOf m key /\ ~ (mentions keys key = true /\ x = src).
Proof.
  revert m. induction keys as [|k keys IH]; intros m; [simpl; naive_solver|].
  cbn [fold_left]. rewrite IH, deactivateOne_sources, !mentions_spec. setoid_rewrite elem_of_cons.
  destruct k as [k|]; simpl; naive_solver.
Qed.

Lemma activationCanonicals_spec c source keys :
  String.eqb source "" = false ->
  match activationCanonicals c keys with
  | inr cs => batchAccepted c source keys = true /\ forall key, key ∈ cs <-> mentions keys key = true
  | inl _ => batchAccepted c source keys = false
  end.
Proof.
  intros Hs. unfold batchAccepted. rewrite Hs. simpl.
  induction keys as [|[k|] keys IH]; simpl; [by split; [|set_solver]| |done].
  unfold DescriptorByCanonical. destruct (descriptors c !! Canonical k) ; simpl; [|done].
  destruct (activationCanonicals c keys); [done|]. destruct IH as [IHa IHm].
  split; [done|]. intros key. rewrite elem_of_cons, IHm.
  destruct (String.eqb_spec (Canonical k) key); naive_solver.
Qed.

(** Only [Activate] and [Deactivate] move keys, and the catalogue stays. *)
Lemma setStep_catalog s o : catalog (setStep s o) = catalog s.
Proof.
  destruct o as [src keys|src keys|[k|]]; simpl; unfold Activate, Deactivate; try done; by break.
Qed.

Lemma setStep_sources s o key x :
  x ∈ sourcesOf (active (setStep s o)) key
  <-> heldStep (catalog s) key x (bool_decide (x ∈ sourcesOf (active s) key)) o = true.
Proof.
  assert (forall m : gmap string (gset string),
    x ∈ sourcesOf m key <-> bool_decide (x ∈ sourcesOf m key) = true) as Hb
    by (intros; by rewrite bool_decide_eq_true).
  destruct o as [src keys|src keys|k]; simpl.
  - unfold Activate. destruct (String.eqb src "") eqn:Es.
    { unfold batchAccepted. rewrite Es. simpl. apply Hb. }
    pose proof (activationCanonicals_spec (catalog s) src keys Es) as H.
    destruct (activationCanonicals (catalog s) keys) as [e|cs]; simpl.
    { rewrite H. simpl. apply Hb. }
    destruct H as [-> Hm]. rewrite activateAll_sources, Hm. simpl.
    destruct (String.eqb_spec src x), (mentions keys key); simpl; rewrite <- ?Hb; naive_solver.
  - unfold Deactivate. destruct (String.eqb src "") eqn:Es; simpl; [apply Hb|].
    rewrite deactivateAll_sources.
    destruct (String.eqb_spec src x), (mentions keys key); simpl; rewrite <- ?Hb; naive_solver.
  - assert (active (fst (Observe k s)) = active s) as ->
      by (unfold Observe; destruct k; [by break|done]). apply Hb.
Qed.

Lemma setRun_sources ops s key x :
  x ∈ sourcesOf (active (setRun ops s)) key
  <-> fold_left (heldStep (catalog s) key x) ops (bool_decide (x ∈ sourcesOf (active s) key)) = true.
Proof.
  revert s. induction ops as [|o ops IH]; intros s.
  { simpl. by rewrite bool_decide_eq_true. }
  cbn [setRun fold_left]. fold (setRun ops (setStep s o)). rewrite IH, setStep_catalog.
  replace (bool_decide (x ∈ sourcesOf (active (setStep s o)) key))
    with (heldStep (catalog s) key x (bool_decide (x ∈ sourcesOf (active s) key)) o); [done|].
  apply eq_true_iff_eq. by rewrite <- setStep_sources, bool_decide_eq_true.
Qed.

Lemma setRun_catalog ops s : catalog (setRun ops s) = catalog s.
Proof.
  revert s. induction ops as [|o ops IH]; intros s; [done|].
  cbn [setRun fold_left]. fold (setRun ops (setStep s o)). by rewrite IH, setStep_catalog.
Qed.

(** The order of the sources is lexicographic: the known ones first in
    the order of the table, then the others by name. *)
Definition sourceRank (s : string) : Z := default 4 (watchActivationSourceOrder s).

Lemma sourceOrder_bound s a : watchActivationSourceOrder s = Some a -> a < 4.
Proof. unfold watchActivationSourceOrder. intros H. break_all; lia. Qed.

Lemma sourceLess_rank l r :
  sourceLess l r = (sourceRank l <? sourceRank r)
                   || ((sourceRank l =? sourceRank r) && String.ltb l r).
Proof.
  unfold sourceLess, sourceRank.
  destruct (watchActivationSourceOrder l) as [a|] eqn:El,
    (watchActivationSourceOrder r) as [b|] eqn:Er; simpl; [| | |done].
  - destruct (Z.eqb_spec a b) as [->|]; simpl; [by rewrite Z.ltb_irrefl|].
    by rewrite orb_false_r.
  - apply sourceOrder_bound in El. symmetry. apply orb_true_iff. left. by apply Z.ltb_lt.
  - apply sourceOrder_bound in Er. symmetry. apply orb_false_iff.
    split; [by apply Z.ltb_ge; lia|]. apply andb_false_iff. left. by apply Z.eqb_neq; lia.
Qed.

Lemma sourceLe_rank l r :
  sourceLe l r <-> sourceRank l < sourceRank r
                   \/ sourceRank l = sourceRank r /\ String.leb l r = true.
Proof.
  unfold sourceLe. rewrite sourceLess_rank, orb_false_iff, andb_false_iff, string_ltb_leb,
    negb_false_iff, Z.ltb_ge, Z.eqb_neq.
  split; [intros [? [?|?]]|intros [?|[? ?]]; split; auto; lia]; [left; lia|].
  destruct (Z.eq_dec (sourceRank l) (sourceRank r)); [by right|left; lia].
Qed.

#[export] Instance sourceLe_trans : Transitive sourceLe.
Proof.
  intros a b c. rewrite !sourceLe_rank.
  intros [H1|[H1 L1]] [H2|[H2 L2]]; [lia..|]. right. split; [lia|].
  rewrite string_leb_ltb in *. destruct L1 as [->|L1], L2 as [<-|L2]; auto.
  right. by eapply string_ltb_trans.
Qed.

#[export] Instance sourceLe_total : Total sourceLe.
Proof.
  intros a b. rewrite !sourceLe_rank. 
  destruct (Z.lt_trichotomy (sourceRank a) (sourceRank b)) as [?|[?|?]]; auto.
  destruct (String.leb_total a b); auto.
Qed.

Lemma sourceLe_strict l r : l <> r -> sourceLe l r -> sourceLess l r = true.
Proof.
  rewrite sourceLe_rank, sourceLess_rank, orb_true_iff, andb_true_iff, Z.ltb_lt, Z.eqb_eq,
    string_leb_ltb. naive_solver.
Qed.

Lemma sorted_sources_strict (l : list string) :
  NoDup l -> StronglySorted sourceLe l -> StronglySorted (fun a b => sourceLess a b = true) l.
Proof.
  induction l as [|x l IH]; intros Hnd Hs; [constructor|].
  apply NoDup_cons in Hnd as [Hx Hnd]. apply StronglySorted_inv in Hs as [Hs Hall].
  constructor; [by apply IH|]. rewrite Forall_forall in *. intros y Hy.
  apply sourceLe_strict; [by intros ->|by apply Hall].
Qed.

Lemma elem_of_sorted_sources (S : gset string) x :
  x ∈ sortedWatchActivationSources S <-> x ∈ S.
Proof. unfold sortedWatchActivationSources. by rewrite merge_sort_Permutation, elem_of_elements. Qed.

(** C24: The activation set implements its contract.  After any sequence of
    operations the sources listed for a key are exactly the ones whose last
    accepted batch naming it was an activation, each once and in the fixed
    order; a refused batch changes nothing.  An observation of a key the
    catalogue does not have is a miss; of any other it carries the
    catalogue's descriptor and is active exactly when some source holds the
    key. *)
Theorem activation_exact (c : option WatchCatalog) (ops : list setOp) (k : WatchKey) :
  let cat := default emptyCatalog c in
  let s := setRun ops (NewWatchActivationSet c) in
  let obs := snd (Observe (Some k) s) in
  (forall source, source ∈ ActiveSources s (Some k) <-> held cat ops (Canonical k) source = true)
  /\ StronglySorted (fun a b => sourceLess a b = true) (ActiveSources s (Some k))
  /\ match DescriptorByCanonical cat (Canonical k) with
     | None => obs = catalogMiss
     | Some d =>
         ObsDescriptor obs = d /\ HasDescriptor obs = true
         /\ Sources obs = ActiveSources s (Some k)
         /\ State obs = (if decide (Sources obs = []) then WatchObservationStateInactive
                         else WatchObservationStateActive)
     end.
Proof.
  intros cat s obs. split; [|split].
  - intros source. unfold ActiveSources. rewrite elem_of_sorted_sources.
    fold (sourcesOf (active s) (Canonical k)). unfold s. by rewrite setRun_sources.
  - apply sorted_sources_strict.
    + simpl. unfold sortedWatchActivationSources. rewrite merge_sort_Permutation.
      apply NoDup_elements.
    + apply (StronglySorted_merge_sort _ _).
  - unfold obs, Observe, ActiveSources.
    assert (catalog s = cat) as -> by (unfold s; by rewrite setRun_catalog).
    destruct (DescriptorByCanonical cat (Canonical k)); [|done].
    by destruct (sortedWatchActivationSources _).
Qed.

(** A run: the poller takes both registers, tooling one of them, a batch
    with an unknown key is refused, the poller lets go. *)
Example demo_activation :
  let unknown := KeyB516 (NewB516WatchKey 0x15 1 2 3) in
  let ops := [ OpActivate "tooling" [Some demo_key1];
               OpActivate "poller" [Some demo_key1; Some demo_key2];
               OpActivate "operator" [Some demo_key2; Some unknown];
               OpDeactivate "poller" [Some demo_key2; None] ] in
  let s := setRun ops (NewWatchActivationSet (Some demo_catalog)) in
  ActiveSources s (Some demo_key1) = ["poller"; "tooling"]
  /\ State (snd (Observe (Some demo_key2) s)) = WatchObservationStateInactive
  /\ snd (Observe (Some unknown) s) = catalogMiss.
Proof. vm_compute. done. Qed.

End WatchCatalog.
