(* ===== verification/FamilyPolicy.v ===== *)
(** * Observe-first flags and family policies

    [observe_first_flags.go]: the feature flags of the observe-first mode
    and their normalisation.  [observe_first_family_policy.go]: the register
    family, request intent and response class of a telegram, and the policy
    that decides whether an observed value may be applied. *)

From Stdlib Require Import Ascii String.
From S2P Require Import Prelude Ebus WatchCatalog.

Local Open Scope Z_scope.

Module FamilyPolicy.
Import WatchCatalog.

(** ** Feature flags *)

Definition ObserveFirstExternalWritePolicyInvalidateOnly : string := "invalidate_only".
Definition ObserveFirstExternalWritePolicyRecordOnly : string := "record_only".
Definition ObserveFirstExternalWritePolicyRecordAndInvalidate : string := "record_and_invalidate".

(** [ObserveFirstFeatureFlagNormalizationReason]. *)
Inductive NormalizationReason :=
| MasterOffClamp
| ConfigRequiresState
| ConfigRequiresInvalidation.
#[export] Instance NormalizationReason_eq_dec : EqDecision NormalizationReason.
Proof. solve_decision. Defined.
Definition observeFirstFeatureFlagNormalizationReasons : list NormalizationReason :=
  [MasterOffClamp; ConfigRequiresState; ConfigRequiresInvalidation].

(** [ObserveFirstFeatureFlags]. *)
Record ObserveFirstFeatureFlags := mkFlags {
  observeFirstEnabled : bool;
  passiveStateDirectApply : bool;
  passiveConfigDirectApply : bool;
  externalWritePolicy : string;
  normalizationReasons : list NormalizationReason
}.

(** [strings.ReplaceAll] of "-" by "_". *)
Definition replaceHyphen (c : ascii) : ascii := if Ascii.eqb c "-" then "_"%char else c.
Definition replaceHyphens (s : string) : string :=
  string_of_list_ascii (replaceHyphen <$> list_ascii_of_string s).

(** [normalizeObserveFirstExternalWritePolicy]. *)
Definition normalizeObserveFirstExternalWritePolicy (policy : string) : string :=
  let value := replaceHyphens (TrimSpace (ToLower policy)) in
  if String.eqb value ObserveFirstExternalWritePolicyInvalidateOnly
     || String.eqb value ObserveFirstExternalWritePolicyRecordOnly
     || String.eqb value ObserveFirstExternalWritePolicyRecordAndInvalidate
  then value else "".

(** [ParseObserveFirstExternalWritePolicy]; [None] is the error. *)
Definition ParseObserveFirstExternalWritePolicy (value : string) : option string :=
  let policy := normalizeObserveFirstExternalWritePolicy value in
  if String.eqb policy "" then None else Some policy.

(** [NormalizeObserveFirstFeatureFlags]. *)
Definition NormalizeObserveFirstFeatureFlags (enabled stateDirect configDirect : bool)
    (policy : string) : ObserveFirstFeatureFlags :=
  let p0 := normalizeObserveFirstExternalWritePolicy policy in
  let p1 := if String.eqb p0 "" then ObserveFirstExternalWritePolicyRecordOnly else p0 in
  let r1 := if negb enabled
            then if stateDirect || configDirect
                    || negb (String.eqb p1 ObserveFirstExternalWritePolicyRecordOnly)
                 then [MasterOffClamp] else []
            else [] in
  let s2 := if negb enabled then false else stateDirect in
  let c2 := if negb enabled then false else configDirect in
  let p2 := if negb enabled then ObserveFirstExternalWritePolicyRecordOnly else p1 in
  let r2 := if negb s2 then (if c2 then ConfigRequiresState :: r1 else r1) else r1 in
  let c3 := if negb s2 then false else c2 in
  let clamp := c3 && String.eqb p2 ObserveFirstExternalWritePolicyRecordOnly in
  let r3 := if clamp then ConfigRequiresInvalidation :: r2 else r2 in
  let p3 := if clamp then ObserveFirstExternalWritePolicyRecordAndInvalidate else p2 in
  mkFlags enabled s2 c3 p3
    (List.filter (fun r => bool_decide (r ∈ r3)) observeFirstFeatureFlagNormalizationReasons).

Definition DefaultObserveFirstFeatureFlags : ObserveFirstFeatureFlags :=
  NormalizeObserveFirstFeatureFlags false false false ObserveFirstExternalWritePolicyRecordOnly.

(** [ObserveFirstFeatureFlagView]: what its four methods return. *)
Record ObserveFirstFeatureFlagView := mkView {
  viewEnabled : bool;
  viewState : bool;
  viewConfig : bool;
  viewPolicy : string
}.
Definition flagsView (f : ObserveFirstFeatureFlags) : ObserveFirstFeatureFlagView :=
  mkView (observeFirstEnabled f) (passiveStateDirectApply f) (passiveConfigDirectApply f)
    (externalWritePolicy f).

(** [NormalizeObserveFirstFeatureFlagsFromView]; [None] is a nil view. *)
Definition NormalizeObserveFirstFeatureFlagsFromView (view : option ObserveFirstFeatureFlagView)
    : ObserveFirstFeatureFlags :=
  match view with
  | None => DefaultObserveFirstFeatureFlags
  | Some v =>
      NormalizeObserveFirstFeatureFlags (viewEnabled v) (viewState v) (viewConfig v) (viewPolicy v)
  end.

(** ** Families, intents and response classes *)

(** The first constructor of each type is the empty string of a zero
    value. *)
Inductive ObserveFirstFamily :=
| ObserveFirstFamilyNone
| ObserveFirstFamilyOther
| ObserveFirstFamilyB509
| ObserveFirstFamilyB516
| ObserveFirstFamilyB524
| ObserveFirstFamilyB555.
Inductive ObserveFirstTrafficScope :=
| ObserveFirstTrafficScopeActive
| ObserveFirstTrafficScopePassive.
Inductive ObserveFirstRequestIntent :=
| ObserveFirstRequestIntentNone
| ObserveFirstRequestIntentUnknown
| ObserveFirstRequestIntentRead
| ObserveFirstRequestIntentWrite
| ObserveFirstRequestIntentBroadcast.
Inductive ObserveFirstDirectApplyPolicy :=
| ObserveFirstDirectApplyPolicyNone
| ObserveFirstDirectApplyPolicyNever
| ObserveFirstDirectApplyPolicyStateDefault
| ObserveFirstDirectApplyPolicyConfigOptIn
| ObserveFirstDirectApplyPolicyEnergyMergeOnly.
Inductive DedupOutcomeClass :=
| DedupOutcomeSuccess
| DedupOutcomeNACK
| DedupOutcomeTimeout
| DedupOutcomeCollision
| DedupOutcomeTransportReset
| DedupOutcomeDecodeReset
| DedupOutcomeAbandoned.
Inductive DedupResponseClass :=
| DedupResponseNone
| DedupResponseValueBearing
| DedupResponseACKOnly
| DedupResponseHeaderOnly
| DedupResponseErrorOrAmbiguous.

#[export] Instance ObserveFirstFamily_eq_dec : EqDecision ObserveFirstFamily.
Proof. solve_decision. Defined.
#[export] Instance ObserveFirstTrafficScope_eq_dec : EqDecision ObserveFirstTrafficScope.
Proof. solve_decision. Defined.
#[export] Instance ObserveFirstRequestIntent_eq_dec : EqDecision ObserveFirstRequestIntent.
Proof. solve_decision. Defined.
#[export] Instance ObserveFirstDirectApplyPolicy_eq_dec : EqDecision ObserveFirstDirectApplyPolicy.
Proof. solve_decision. Defined.
#[export] Instance DedupOutcomeClass_eq_dec : EqDecision DedupOutcomeClass.
Proof. solve_decision. Defined.
#[export] Instance DedupResponseClass_eq_dec : EqDecision DedupResponseClass.
Proof. solve_decision. Defined.

(** [ObserveFirstFamilyPolicy]. *)
Record ObserveFirstFamilyPolicy := mkPolicy {
  PolFamily : ObserveFirstFamily;
  RequestIntent : ObserveFirstRequestIntent;
  ResponseClass : DedupResponseClass;
  PolCorrelation : string;
  PolDirectApply : ObserveFirstDirectApplyPolicy;
  UsesRuntimeExternalWritePolicy : bool;
  EffectiveExternalWritePolicy : string
}.
(** [ObserveFirstFamilyPolicy{}]. *)
Definition zeroPolicy : ObserveFirstFamilyPolicy :=
  mkPolicy ObserveFirstFamilyNone ObserveFirstRequestIntentNone DedupResponseNone ""
    ObserveFirstDirectApplyPolicyNone false "".

(** [observeFirstFamilyFromFrame]. *)
Definition observeFirstFamilyFromFrame (f : Frame) : ObserveFirstFamily :=
  if negb (Primary f =? 0xB5) then ObserveFirstFamilyOther
  else
    match Secondary f with
    | 0x09 => ObserveFirstFamilyB509
    | 0x16 => ObserveFirstFamilyB516
    | 0x24 => ObserveFirstFamilyB524
    | 0x55 => ObserveFirstFamilyB555
    | _ => ObserveFirstFamilyOther
    end.

(** [observeFirstRequestIntentFromFrame]. *)
Definition observeFirstRequestIntentFromFrame (f : Frame) : ObserveFirstRequestIntent :=
  match observeFirstFamilyFromFrame f with
  | ObserveFirstFamilyB509 =>
      if len (Data f) =? 0 then ObserveFirstRequestIntentUnknown
      else
        match at_ (Data f) 0 with
        | 0x0D | 0x29 => ObserveFirstRequestIntentRead
        | 0x0E => ObserveFirstRequestIntentWrite
        | _ => ObserveFirstRequestIntentUnknown
        end
  | ObserveFirstFamilyB516 => ObserveFirstRequestIntentBroadcast
  | ObserveFirstFamilyB524 =>
      if len (Data f) =? 0 then ObserveFirstRequestIntentUnknown
      else
        match at_ (Data f) 0 with
        | 0x02 | 0x06 =>
            if (2 <=? len (Data f)) && (at_ (Data f) 1 =? 0x00) then ObserveFirstRequestIntentRead
            else if 2 <=? len (Data f) then ObserveFirstRequestIntentWrite
            else ObserveFirstRequestIntentUnknown
        | 0x03 => ObserveFirstRequestIntentRead
        | _ => ObserveFirstRequestIntentUnknown
        end
  | ObserveFirstFamilyB555 =>
      if len (Data f) =? 0 then ObserveFirstRequestIntentUnknown
      else
        match at_ (Data f) 0 with
        | 0xA3 | 0xA4 | 0xA5 => ObserveFirstRequestIntentRead
        | 0xA6 => ObserveFirstRequestIntentWrite
        | _ => ObserveFirstRequestIntentUnknown
        end
  | _ => ObserveFirstRequestIntentUnknown
  end.

(** [observeFirstGenericResponseClass]. *)
Definition observeFirstGenericResponseClass (payload : list byte) : DedupResponseClass :=
  if len payload =? 0 then DedupResponseHeaderOnly else DedupResponseValueBearing.

(** [observeFirstExpectedB509Address]. *)
Definition observeFirstExpectedB509Address (f : Frame) : option Z :=
  if len (Data f) <? 3 then None
  else
    match at_ (Data f) 0 with
    | 0x0D | 0x29 | 0x0E => Some (Z.lor (Z.shiftl (at_ (Data f) 1) 8) (at_ (Data f) 2))
    | _ => None
    end.

(** [observeFirstExpectedB524ReadSelector]: opcode, group, instance,
    address. *)
Definition observeFirstExpectedB524ReadSelector (f : Frame) : option (byte * byte * byte * Z) :=
  if len (Data f) <? 6 then None
  else if negb (at_ (Data f) 0 =? 0x02) && negb (at_ (Data f) 0 =? 0x06) then None
  else if negb (at_ (Data f) 1 =? 0x00) then None
  else Some (at_ (Data f) 0, at_ (Data f) 2, at_ (Data f) 3,
             Z.lor (at_ (Data f) 4) (Z.shiftl (at_ (Data f) 5) 8)).

(** [observeFirstIsB524TimerRead]. *)
Definition observeFirstIsB524TimerRead (f : Frame) : bool :=
  (0 <? len (Data f)) && (at_ (Data f) 0 =? 0x03).

(** [observeFirstMatchesB524ReplyInstance]. *)
Definition observeFirstMatchesB524ReplyInstance (replyInstance requestedInstance : byte) : bool :=
  if replyInstance =? requestedInstance then true
  else (requestedInstance <? 0xFF) && (replyInstance =? requestedInstance + 1).

(** [observeFirstB509ResponseClass]. *)
Definition observeFirstB509ResponseClass (request : Frame) (intent : ObserveFirstRequestIntent)
    (payload : list byte) : DedupResponseClass :=
  if len payload =? 0 then DedupResponseHeaderOnly
  else if decide (intent = ObserveFirstRequestIntentWrite) then DedupResponseHeaderOnly
  else if negb (bool_decide (intent = ObserveFirstRequestIntentRead))
  then observeFirstGenericResponseClass payload
  else
    match observeFirstExpectedB509Address request with
    | None => observeFirstGenericResponseClass payload
    | Some addr =>
        let addrHi := u8 (Z.shiftr addr 8) in
        let addrLo := u8 addr in
        if (3 <=? len payload) && ((at_ payload 0 =? 0x0D) || (at_ payload 0 =? 0x29))
           && (at_ payload 1 =? addrHi) && (at_ payload 2 =? addrLo) then
          if len payload =? 3 then DedupResponseHeaderOnly else DedupResponseValueBearing
        else if (2 <=? len payload) && (at_ payload 0 =? addrHi) && (at_ payload 1 =? addrLo) then
          if len payload =? 2 then DedupResponseHeaderOnly else DedupResponseValueBearing
        else observeFirstGenericResponseClass payload
    end.

(** [uint16(lo) | uint16(hi)<<8]. *)
Definition le16 (lo hi : byte) : Z := Z.lor lo (Z.shiftl hi 8).

(** [observeFirstB524ResponseClass]. *)
Definition observeFirstB524ResponseClass (request : Frame) (intent : ObserveFirstRequestIntent)
    (payload : list byte) : DedupResponseClass :=
  if len payload =? 0 then DedupResponseHeaderOnly
  else if negb (bool_decide (intent = ObserveFirstRequestIntentRead)) then
    if decide (intent = ObserveFirstRequestIntentWrite) then DedupResponseHeaderOnly
    else observeFirstGenericResponseClass payload
  else if observeFirstIsB524TimerRead request then observeFirstGenericResponseClass payload
  else
    match observeFirstExpectedB524ReadSelector request with
    | None => observeFirstGenericResponseClass payload
    | Some (_, group, instance, addr) =>
        if (len payload =? 1) && (at_ payload 0 =? 0x00) then DedupResponseErrorOrAmbiguous
        else if len payload <? 4 then DedupResponseErrorOrAmbiguous
        else if (5 <=? len payload) && (at_ payload 2 =? group)
                && (le16 (at_ payload 3) (at_ payload 4) =? addr) then
          if negb (observeFirstMatchesB524ReplyInstance (at_ payload 1) instance)
          then DedupResponseErrorOrAmbiguous
          else if len payload =? 5 then DedupResponseHeaderOnly
          else DedupResponseValueBearing
        else if negb (at_ payload 1 =? group) || negb (le16 (at_ payload 2) (at_ payload 3) =? addr)
        then DedupResponseErrorOrAmbiguous
        else if len payload =? 4 then DedupResponseHeaderOnly
        else DedupResponseValueBearing
    end.

(** [observeFirstResponseClass]. *)
Definition observeFirstResponseClass (request : Frame) (frameType : FrameType)
    (outcome : DedupOutcomeClass) (response : Frame) (hasResponse : bool) : DedupResponseClass :=
  if negb (bool_decide (outcome = DedupOutcomeSuccess)) then DedupResponseErrorOrAmbiguous
  else if negb hasResponse then
    if decide (frameType = FrameTypeInitiatorInitiator) then DedupResponseACKOnly
    else DedupResponseErrorOrAmbiguous
  else
    let intent := observeFirstRequestIntentFromFrame request in
    match observeFirstFamilyFromFrame request with
    | ObserveFirstFamilyB509 => observeFirstB509ResponseClass request intent (Data response)
    | ObserveFirstFamilyB524 => observeFirstB524ResponseClass request intent (Data response)
    | _ => observeFirstGenericResponseClass (Data response)
    end.

(** ** Correlated reads and the policy *)

(** [observeFirstMatchesActiveStateDefaultDescriptor], for a non-nil key. *)
Definition observeFirstMatchesActiveStateDefaultDescriptor (key : WatchKey)
    (observation : WatchObservation) : bool :=
  if negb (HasDescriptor observation)
     || negb (bool_decide (State observation = WatchObservationStateActive)) then false
  else
    let descriptor := ObsDescriptor observation in
    match Key descriptor with
    | None => false
    | Some k =>
        if negb (String.eqb (argCanonical k) (Canonical key)) then false
        else if negb (String.eqb (SemanticClass descriptor) WatchSemanticClassState) then false
        else if negb (String.eqb (CorrelationPolicy descriptor) WatchCorrelationPolicyRequestResponse)
        then false
        else String.eqb (DirectApplyPolicy descriptor) WatchDirectApplyPolicyStateDefault
    end.

(** [observeFirstB524CorrelatedStateRead]. *)
Definition observeFirstB524CorrelatedStateRead (f : Frame) (observation : WatchObservation) : bool :=
  match observeFirstExpectedB524ReadSelector f with
  | None => false
  | Some (opcode, group, instance, addr) =>
      observeFirstMatchesActiveStateDefaultDescriptor
        (KeyB524 (NewB524WatchKey (Target f) opcode group instance addr)) observation
  end.

(** [observeFirstB509CorrelatedStateRead]. *)
Definition observeFirstB509CorrelatedStateRead (f : Frame) (observation : WatchObservation) : bool :=
  match observeFirstExpectedB509Address f with
  | None => false
  | Some addr =>
      if negb (bool_decide (observeFirstRequestIntentFromFrame f = ObserveFirstRequestIntentRead))
      then false
      else
        observeFirstMatchesActiveStateDefaultDescriptor (KeyB509 (NewB509WatchKey (Target f) addr))
          observation
  end.

(** [observeFirstFamilyPolicy]. *)
Definition observeFirstFamilyPolicy (scope : ObserveFirstTrafficScope) (request : Frame)
    (responseClass : DedupResponseClass) (observation : WatchObservation)
    (flags : option ObserveFirstFeatureFlagView) : ObserveFirstFamilyPolicy :=
  let family := observeFirstFamilyFromFrame request in
  let intent := observeFirstRequestIntentFromFrame request in
  let passive := bool_decide (scope = ObserveFirstTrafficScopePassive) in
  let runtime := passive && bool_decide (intent = ObserveFirstRequestIntentWrite) in
  let value := bool_decide (responseClass = DedupResponseValueBearing) in
  let effective := if runtime
                   then externalWritePolicy (NormalizeObserveFirstFeatureFlagsFromView flags)
                   else EmptyString in
  let policy correlation direct :=
    mkPolicy family intent responseClass correlation direct runtime effective in
  match family with
  | ObserveFirstFamilyB516 =>
      policy WatchCorrelationPolicyBroadcastSelector
        (if value then ObserveFirstDirectApplyPolicyEnergyMergeOnly
         else ObserveFirstDirectApplyPolicyNever)
  | ObserveFirstFamilyB524 =>
      policy WatchCorrelationPolicyRequestResponse
        (if observeFirstB524CorrelatedStateRead request observation && value
         then ObserveFirstDirectApplyPolicyStateDefault else ObserveFirstDirectApplyPolicyNever)
  | ObserveFirstFamilyB509 =>
      policy WatchCorrelationPolicyRequestResponse
        (if observeFirstB509CorrelatedStateRead request observation && value
         then ObserveFirstDirectApplyPolicyStateDefault else ObserveFirstDirectApplyPolicyNever)
  | ObserveFirstFamilyB555 =>
      policy WatchCorrelationPolicyRecordInvalidate ObserveFirstDirectApplyPolicyNever
  | _ =>
      policy (if passive && bool_decide (intent = ObserveFirstRequestIntentBroadcast)
              then WatchCorrelationPolicyBroadcastSelector else WatchCorrelationPolicyRecordOnly)
        ObserveFirstDirectApplyPolicyNever
  end.

(** ** Normalised flags *)

Lemma normalize_policy_cases p :
  normalizeObserveFirstExternalWritePolicy p
  ∈ [EmptyString; ObserveFirstExternalWritePolicyInvalidateOnly;
     ObserveFirstExternalWritePolicyRecordOnly;
     ObserveFirstExternalWritePolicyRecordAndInvalidate].
Proof.
  unfold normalizeObserveFirstExternalWritePolicy. cbv zeta.
  set (v := replaceHyphens _). clearbody v.
  destruct (_ || _ || _) eqn:E; [|set_solver].
  apply orb_true_iff in E as [[E|E]%orb_true_iff|E]; apply String.eqb_eq in E; rewrite E; set_solver.
Qed.

(** Normalising the observe-first flags gives a consistent
    configuration: direct application of configuration needs that of state,
    which needs the mode enabled; it also needs a policy that invalidates on
    external writes; a disabled mode records only; the policy is one of the
    three known ones.  Normalising again changes nothing and gives no
    reason, and the reasons are empty exactly when the flags given were
    already consistent. *)
Theorem flags_normalised (enabled stateDirect configDirect : bool) (policy : string) :
  let f := NormalizeObserveFirstFeatureFlags enabled stateDirect configDirect policy in
  let given := normalizeObserveFirstExternalWritePolicy policy in
  let asked := if String.eqb given "" then ObserveFirstExternalWritePolicyRecordOnly else given in
  (passiveConfigDirectApply f = true ->
     passiveStateDirectApply f = true
     /\ externalWritePolicy f <> ObserveFirstExternalWritePolicyRecordOnly)
  /\ (passiveStateDirectApply f = true -> observeFirstEnabled f = true)
  /\ (observeFirstEnabled f = false ->
       externalWritePolicy f = ObserveFirstExternalWritePolicyRecordOnly)
  /\ (ParseObserveFirstExternalWritePolicy (externalWritePolicy f) = Some (externalWritePolicy f))
  /\ NormalizeObserveFirstFeatureFlagsFromView (Some (flagsView f))
     = mkFlags (observeFirstEnabled f) (passiveStateDirectApply f) (passiveConfigDirectApply f)
         (externalWritePolicy f) []
  /\ (normalizationReasons f = [] <->
       flagsView f = mkView enabled stateDirect configDirect asked).
Proof.
  intros f given asked. subst f asked given.
  unfold NormalizeObserveFirstFeatureFlagsFromView, NormalizeObserveFirstFeatureFlags, flagsView.
  pose proof (normalize_policy_cases policy) as H.
  set (q := normalizeObserveFirstExternalWritePolicy policy) in *. clearbody q.
  repeat (apply elem_of_cons in H as [->|H]); [..|by apply elem_of_nil in H].
  all: destruct enabled, stateDirect, configDirect; vm_compute; naive_solver.
Qed.

(** ** When an observed value may be applied *)

(** The key of a read on the wire is the one the correlation looks for. *)
Lemma b524_read_key f :
  observeFirstFamilyFromFrame f = ObserveFirstFamilyB524 ->
  observeFirstRequestIntentFromFrame f = ObserveFirstRequestIntentRead ->
  PassiveWatchKeyFromFrame f =
    match observeFirstExpectedB524ReadSelector f with
    | Some (opcode, group, instance, addr) =>
        Some (KeyB524 (NewB524WatchKey (Target f) opcode group instance addr))
    | None => None
    end.
Proof.
  intros Hf. unfold observeFirstRequestIntentFromFrame. rewrite Hf.
  unfold observeFirstFamilyFromFrame in Hf. destruct (Primary f =? 0xB5) eqn:Ep; [|done]. simpl in Hf.
  assert (Secondary f =? 0x24 = true) as Es by (by break_all).
  unfold PassiveWatchKeyFromFrame, parsePassiveB524WatchKey, observeFirstExpectedB524ReadSelector.
  rewrite Ep, Es. simpl. intros Hi.
  destruct (len (Data f) <? 6) eqn:E6; [done|].
  destruct (negb (at_ (Data f) 0 =? 0x02) && negb (at_ (Data f) 0 =? 0x06)) eqn:Eo; [done|].
  destruct (at_ (Data f) 1 =? 0x00) eqn:E1; [done|]. exfalso.
  rewrite andb_false_r in Hi. break_all; bool_facts; try lia.
  all: rewrite Heqz in Eo; done.
Qed.

Lemma b524_selector_intent f sel :
  observeFirstFamilyFromFrame f = ObserveFirstFamilyB524 ->
  observeFirstExpectedB524ReadSelector f = Some sel ->
  observeFirstRequestIntentFromFrame f = ObserveFirstRequestIntentRead.
Proof.
  intros Hf. unfold observeFirstRequestIntentFromFrame, observeFirstExpectedB524ReadSelector.
  rewrite Hf. intros Hs.
  destruct (len (Data f) <? 6) eqn:E6; [done|].
  destruct (at_ (Data f) 0 =? 0x02) eqn:E2; [|destruct (at_ (Data f) 0 =? 0x06) eqn:E3; [|done]];
    simpl in Hs; destruct (at_ (Data f) 1 =? 0x00) eqn:E1; try done;
    bool_facts; rewrite ?E2, ?E3;
    (replace (len (Data f) =? 0) with false by (symmetry; apply Z.eqb_neq; lia));
    (replace (2 <=? len (Data f)) with true by (symmetry; apply Z.leb_le; lia)); done.
Qed.

Lemma b509_read_key f :
  observeFirstFamilyFromFrame f = ObserveFirstFamilyB509 ->
  PassiveWatchKeyFromFrame f =
    option_map (fun addr => KeyB509 (NewB509WatchKey (Target f) addr))
      (observeFirstExpectedB509Address f).
Proof.
  intros Hf. unfold observeFirstFamilyFromFrame in Hf.
  destruct (Primary f =? 0xB5) eqn:Ep; [|done]. simpl in Hf.
  assert (Secondary f = 0x09) as Es by (by break_all).
  unfold PassiveWatchKeyFromFrame, parsePassiveB509WatchKey, observeFirstExpectedB509Address.
  rewrite Ep, Es. simpl. by break.
Qed.

(** The telegram is a read of a register the watch catalogue holds as
    active state, applied by default. *)
Definition correlatedRead (f : Frame) (o : WatchObservation) : Prop :=
  observeFirstRequestIntentFromFrame f = ObserveFirstRequestIntentRead
  /\ exists key, PassiveWatchKeyFromFrame f = Some key
       /\ observeFirstMatchesActiveStateDefaultDescriptor key o = true.

Lemma correlatedRead_b524 f o :
  observeFirstFamilyFromFrame f = ObserveFirstFamilyB524 ->
  observeFirstB524CorrelatedStateRead f o = true <-> correlatedRead f o.
Proof.
  intros Hf. unfold correlatedRead, observeFirstB524CorrelatedStateRead. split.
  - destruct (observeFirstExpectedB524ReadSelector f) as [[[[op g] i] a]|] eqn:E; [|done].
    intros Hm. pose proof (b524_selector_intent f _ Hf E) as Hi. split; [done|].
    rewrite (b524_read_key f Hf Hi), E. eauto.
  - intros [Hi (key & Hk & Hm)]. rewrite (b524_read_key f Hf Hi) in Hk.
    destruct (observeFirstExpectedB524ReadSelector f) as [[[[op g] i] a]|]; [|done].
    by injection Hk as <-.
Qed.

Lemma correlatedRead_b509 f o :
  observeFirstFamilyFromFrame f = ObserveFirstFamilyB509 ->
  observeFirstB509CorrelatedStateRead f o = true <-> correlatedRead f o.
Proof.
  intros Hf. unfold correlatedRead, observeFirstB509CorrelatedStateRead.
  rewrite (b509_read_key f Hf).
  destruct (observeFirstExpectedB509Address f) as [addr|]; simpl; [|naive_solver].
  case_bool_decide as Hi; simpl; naive_solver.
Qed.

Lemma read_key_family f key :
  PassiveWatchKeyFromFrame f = Some key ->
  observeFirstFamilyFromFrame f = ObserveFirstFamilyB524
  \/ observeFirstFamilyFromFrame f = ObserveFirstFamilyB509.
Proof.
  unfold PassiveWatchKeyFromFrame, observeFirstFamilyFromFrame.
  destruct (Primary f =? 0xB5); simpl; [|done].
  destruct (Secondary f =? 0x24) eqn:E1; [bool_facts; rewrite E1; auto|].
  destruct (Secondary f =? 0x09) eqn:E2; [bool_facts; rewrite E2; auto|done].
Qed.

(** The policy applies an observed value only where it should: by
    default exactly for the value-bearing answer to a read of a register
    that the catalogue has as active state with the same key; merged into
    the energy totals exactly for a value-bearing B516 broadcast; never by
    configuration opt-in, and never for a write.  The runtime policy for
    external writes is consulted exactly for writes seen passively. *)
Theorem direct_apply_exact (scope : ObserveFirstTrafficScope) (f : Frame)
    (rc : DedupResponseClass) (o : WatchObservation) (flags : option ObserveFirstFeatureFlagView) :
  let p := observeFirstFamilyPolicy scope f rc o flags in
  (PolDirectApply p = ObserveFirstDirectApplyPolicyStateDefault <->
     rc = DedupResponseValueBearing /\ correlatedRead f o)
  /\ (PolDirectApply p = ObserveFirstDirectApplyPolicyEnergyMergeOnly <->
       rc = DedupResponseValueBearing /\ observeFirstFamilyFromFrame f = ObserveFirstFamilyB516)
  /\ PolDirectApply p <> ObserveFirstDirectApplyPolicyConfigOptIn
  /\ (RequestIntent p = ObserveFirstRequestIntentWrite ->
       PolDirectApply p = ObserveFirstDirectApplyPolicyNever)
  /\ (UsesRuntimeExternalWritePolicy p = true <->
       scope = ObserveFirstTrafficScopePassive
       /\ observeFirstRequestIntentFromFrame f = ObserveFirstRequestIntentWrite).
Proof.
  intros p. subst p.
  assert (forall b : bool,
    (if b && bool_decide (rc = DedupResponseValueBearing)
     then ObserveFirstDirectApplyPolicyStateDefault else ObserveFirstDirectApplyPolicyNever)
    = ObserveFirstDirectApplyPolicyStateDefault <-> rc = DedupResponseValueBearing /\ b = true) as Hsd.
  { intros [] ; case_bool_decide; simpl; naive_solver. }
  assert (observeFirstFamilyFromFrame f <> ObserveFirstFamilyB524 ->
          observeFirstFamilyFromFrame f <> ObserveFirstFamilyB509 -> ~ correlatedRead f o) as Hno.
  { intros H1 H2 [_ (key & Hk & _)]. apply read_key_family in Hk. naive_solver. }
  pose proof (correlatedRead_b524 f o) as H24. pose proof (correlatedRead_b509 f o) as H09.
  assert (UsesRuntimeExternalWritePolicy (observeFirstFamilyPolicy scope f rc o flags) =
    bool_decide (scope = ObserveFirstTrafficScopePassive)
    && bool_decide (observeFirstRequestIntentFromFrame f = ObserveFirstRequestIntentWrite)) as ->
    by (unfold observeFirstFamilyPolicy; by destruct (observeFirstFamilyFromFrame f)).
  rewrite andb_true_iff, !bool_decide_eq_true.
  assert (observeFirstFamilyFromFrame f = ObserveFirstFamilyB516 ->
    observeFirstRequestIntentFromFrame f = ObserveFirstRequestIntentBroadcast) as Hbc.
  { intros E. unfold observeFirstRequestIntentFromFrame. by rewrite E. }
  unfold observeFirstFamilyPolicy. destruct (observeFirstFamilyFromFrame f); simpl;
    rewrite ?Hsd, ?H24, ?H09 by done.
  1,2,6: naive_solver.
  - split; [done|]. split; [destruct (_ && _); naive_solver|].
    split; [destruct (_ && _); naive_solver|]. split; [|done]. intros Hw.
    destruct (_ && _) eqn:E; [|done]. apply andb_true_iff in E as [E _].
    apply H09 in E as [E _]; [congruence|done].
  - split; [case_bool_decide; naive_solver|]. split; [case_bool_decide; naive_solver|].
    split; [by case_bool_decide|]. split; [|done]. rewrite Hbc by done. done.
  - split; [done|]. split; [destruct (_ && _); naive_solver|].
    split; [destruct (_ && _); naive_solver|]. split; [|done]. intros Hw.
    destruct (_ && _) eqn:E; [|done]. apply andb_true_iff in E as [E _].
    apply H24 in E as [E _]; [congruence|done].
Qed.

(** ** Replies to B524 register reads *)

(** The two layouts of a reply: status, optionally the instance, group,
    address low and high, then the value. *)
Definition longReply (status inst group : byte) (addr : Z) (value : list byte) : list byte :=
  [status; inst; group; addr mod 256; addr / 256] ++ value.
Definition shortReply (status group : byte) (addr : Z) (value : list byte) : list byte :=
  [status; group; addr mod 256; addr / 256] ++ value.

(** The request data of a read. *)
Definition readRequest (f : Frame) (opcode group inst : byte) (addr : Z) (rest : list byte) : Prop :=
  Primary f = 0xB5 /\ Secondary f = 0x24 /\ (opcode = 0x02 \/ opcode = 0x06)
  /\ Data f = [opcode; 0x00; group; inst; addr mod 256; addr / 256] ++ rest
  /\ 0 <= addr < 2 ^ 16.

Lemma le16_spec lo hi : is_byte lo -> is_byte hi -> le16 lo hi = lo + 256 * hi.
Proof.
  unfold is_byte, le16. intros Hlo Hhi. rewrite Z.shiftl_mul_pow2 by lia.
  rewrite <- Z.lxor_lor, <- Z.add_nocarry_lxor; [lia|..];
    apply Z.bits_inj'; intros n Hn; rewrite Z.land_spec, Z.bits_0;
    destruct (Z.lt_ge_cases n 8).
  all: try (rewrite Z.mul_pow2_bits_low by lia; apply andb_false_r).
  all: destruct (Z.eq_dec lo 0) as [->|]; [by rewrite Z.bits_0|].
  all: rewrite (Z.bits_above_log2 lo);
    [done|lia|eapply Z.lt_le_trans; [apply (Z.log2_lt_pow2 lo 8); lia|lia]].
Qed.

Lemma le16_split addr : 0 <= addr < 2 ^ 16 -> le16 (addr mod 256) (addr / 256) = addr.
Proof.
  intros Ha. rewrite le16_spec; [pose proof (Z.div_mod addr 256); lia|..]; unfold is_byte.
  - apply Z.mod_pos_bound. lia.
  - split; [apply Z.div_pos; lia|apply Z.div_lt_upper_bound; lia].
Qed.

Lemma le16_inj lo hi addr :
  is_byte lo -> is_byte hi -> le16 lo hi = addr -> lo = addr mod 256 /\ hi = addr / 256.
Proof.
  intros Hlo Hhi. rewrite le16_spec by done. unfold is_byte in *. intros <-.
  rewrite (Z.mul_comm 256), Z.mod_add, Z.div_add by lia.
  rewrite Z.mod_small, Z.div_small by lia. lia.
Qed.

Lemma readRequest_class f op g i a rest payload :
  readRequest f op g i a rest -> payload <> [] ->
  observeFirstResponseClass f FrameTypeInitiatorTarget DedupOutcomeSuccess
    (mkFrame 0 0 0 0 payload) true =
  if len payload <? 4 then DedupResponseErrorOrAmbiguous
  else if (5 <=? len payload) && (at_ payload 2 =? g)
          && (le16 (at_ payload 3) (at_ payload 4) =? a) then
    if negb (observeFirstMatchesB524ReplyInstance (at_ payload 1) i)
    then DedupResponseErrorOrAmbiguous
    else if len payload =? 5 then DedupResponseHeaderOnly else DedupResponseValueBearing
  else if negb (at_ payload 1 =? g) || negb (le16 (at_ payload 2) (at_ payload 3) =? a)
  then DedupResponseErrorOrAmbiguous
  else if len payload =? 4 then DedupResponseHeaderOnly else DedupResponseValueBearing.
Proof.
  intros (Hp & Hs & Ho & Hd & Ha) Hne.
  assert (observeFirstFamilyFromFrame f = ObserveFirstFamilyB524) as Hf.
  { unfold observeFirstFamilyFromFrame. by rewrite Hp, Hs. }
  assert (observeFirstExpectedB524ReadSelector f = Some (op, g, i, a)) as Hsel.
  { unfold observeFirstExpectedB524ReadSelector. fold (le16 (at_ (Data f) 4) (at_ (Data f) 5)).
    rewrite Hd. cbn [app at_ nth length]. rewrite le16_split by done.
    replace (Z.of_nat (S (S (S (S (S (S (length rest))))))) <? 6) with false
      by (symmetry; apply Z.ltb_ge; lia). by destruct Ho as [-> | ->]. }
  pose proof (b524_selector_intent f _ Hf Hsel) as Hi.
  unfold observeFirstResponseClass, observeFirstB524ResponseClass.
  rewrite Hf, Hi, Hsel. simpl.
  replace (observeFirstIsB524TimerRead f) with false
    by (unfold observeFirstIsB524TimerRead; rewrite Hd; symmetry; apply andb_false_iff;
        right; by destruct Ho as [-> | ->]).
  replace (len payload =? 0) with false
    by (symmetry; apply Z.eqb_neq; destruct payload; [done|simpl; lia]).
  destruct (len payload <? 4) eqn:E4; [by destruct (_ && _)|].
  by replace (len payload =? 1) with false by (symmetry; apply Z.eqb_neq; bool_facts; lia).
Qed.

Lemma reply_instance inst i :
  inst = i \/ (inst = i + 1 /\ i < 0xFF) -> observeFirstMatchesB524ReplyInstance inst i = true.
Proof.
  unfold observeFirstMatchesB524ReplyInstance. intros [-> |[-> Hlt]]; [by rewrite Z.eqb_refl|].
  destruct (_ =? _); [done|]. by rewrite Z.eqb_refl, (proj2 (Z.ltb_lt _ _) Hlt).
Qed.

Lemma addr_bytes a : 0 <= a < 2 ^ 16 -> is_byte (a mod 256) /\ is_byte (a / 256).
Proof.
  intros Ha. unfold is_byte. split; [apply Z.mod_pos_bound; lia|].
  split; [apply Z.div_pos; lia|apply Z.div_lt_upper_bound; lia].
Qed.

(** What follows a header of [n] bytes decides the class. *)
Definition valueClass (value : list byte) : DedupResponseClass :=
  if decide (value = []) then DedupResponseHeaderOnly else DedupResponseValueBearing.

Lemma valueClass_len (n : nat) (value : list byte) :
  (if Z.of_nat (n + length value) =? Z.of_nat n
   then DedupResponseHeaderOnly else DedupResponseValueBearing) = valueClass value.
Proof.
  unfold valueClass. destruct value as [|v value]; cbn [length].
  - by rewrite Nat.add_0_r, Z.eqb_refl.
  - by rewrite (proj2 (Z.eqb_neq _ _)) by lia.
Qed.

(** The class the code computes for the answer [payload] to the read [f]. *)
Definition readReplyClass (f : Frame) (payload : list byte) : DedupResponseClass :=
  observeFirstResponseClass f FrameTypeInitiatorTarget DedupOutcomeSuccess
    (mkFrame 0 0 0 0 payload) true.

Lemma long_reply_class f op g i a rest status inst value :
  readRequest f op g i a rest -> inst = i \/ (inst = i + 1 /\ i < 0xFF) ->
  readReplyClass f (longReply status inst g a value) = valueClass value.
Proof.
  intros Hr Hinst. unfold readReplyClass, longReply.
  rewrite (readRequest_class _ _ _ _ _ _ _ Hr) by done.
  destruct Hr as (_ & _ & _ & _ & Ha). cbn [app at_ nth length].
  rewrite le16_split, !Z.eqb_refl, reply_instance by done.
  rewrite (proj2 (Z.ltb_ge _ _)), (proj2 (Z.leb_le _ _)) by lia. simpl.
  apply (valueClass_len 5).
Qed.

Lemma short_reply_class f op g i a rest status value :
  readRequest f op g i a rest -> all_bytes value ->
  (g = a mod 256 -> a / 256 = a mod 256 -> head value <> Some (a / 256)) ->
  readReplyClass f (shortReply status g a value) = valueClass value.
Proof.
  intros Hr Hv Hamb. unfold readReplyClass, shortReply.
  rewrite (readRequest_class _ _ _ _ _ _ _ Hr) by done.
  destruct Hr as (_ & _ & _ & _ & Ha). destruct (addr_bytes a Ha) as [Hlo Hhi].
  cbn [app at_ nth length].
  rewrite (proj2 (Z.ltb_ge _ _)), (le16_split a), !Z.eqb_refl by (done || lia). simpl.
  pose proof (valueClass_len 4 value) as Hc. change (Z.of_nat 4) with 4 in Hc.
  cbn [Nat.add] in Hc. rewrite Hc. destruct (_ && _ && _) eqn:E; [|done].
  apply andb_true_iff in E as [E E3]. apply andb_true_iff in E as [E1 E2]. bool_facts.
  destruct value as [|v value]; [simpl in E1; lia|]. apply Forall_cons in Hv as [Hv _].
  apply le16_inj in E3 as [E3 E4]; [|done..]. exfalso. apply Hamb; [done..|]. simpl. by f_equal.
Qed.

Lemma value_reply_shape f op g i a rest payload :
  readRequest f op g i a rest -> all_bytes payload ->
  readReplyClass f payload = DedupResponseValueBearing ->
  exists status inst value, value <> []
    /\ (payload = longReply status inst g a value \/ payload = shortReply status g a value).
Proof.
  intros Hr Hb. destruct (decide (payload = [])) as [->|Hne].
  { destruct Hr as (Hp & Hs & _). unfold readReplyClass, observeFirstResponseClass,
      observeFirstB524ResponseClass, observeFirstFamilyFromFrame. by rewrite Hp, Hs. }
  unfold readReplyClass. rewrite (readRequest_class _ _ _ _ _ _ _ Hr) by done.
  destruct (len payload <? 4) eqn:E4; [done|].
  destruct payload as [|b0 [|b1 [|b2 [|b3 tail]]]]; [simpl in E4; bool_facts; lia..|].
  repeat (apply Forall_cons in Hb as [? Hb]). cbn [at_ nth]. destruct (_ && _ && _) eqn:E.
  - apply andb_true_iff in E as [E E3]. apply andb_true_iff in E as [E1 E2]. bool_facts.
    destruct tail as [|b4 value]; [simpl in E1; lia|]. apply Forall_cons in Hb as [? _].
    apply le16_inj in E3 as [E3 E5]; [|done..]. simpl in E5. intros Hc. exists b0, b1, value. split.
    + intros ->. by destruct (negb _).
    + left. by subst.
  - destruct (_ || _) eqn:Eo; [done|]. bool_facts.
    match goal with Hle : le16 _ _ = _ |- _ => apply le16_inj in Hle as [? ?]; [|done..] end.
    intros Hc. exists b0, 0, tail. split; [by intros ->|]. right. unfold shortReply. simpl. congruence.
Qed.

(** The answer to a B524 register read is classified by what it says.
    A reply in the long layout, for the instance asked or the next one, bears
    a value exactly when bytes follow the header; so does a reply in the
    short layout, except when its bytes also read as a long header.  And a
    reply classed as bearing a value names the group and the address that
    were asked, in one of the layouts, with at least one byte of value. *)
Theorem b524_reply_class (f : Frame) (op g i : byte) (a : Z) (rest : list byte) :
  readRequest f op g i a rest ->
  (forall status inst value, inst = i \/ (inst = i + 1 /\ i < 0xFF) ->
     readReplyClass f (longReply status inst g a value) = valueClass value)
  /\ (forall status value, all_bytes value ->
       (g = a mod 256 -> a / 256 = a mod 256 -> head value <> Some (a / 256)) ->
       readReplyClass f (shortReply status g a value) = valueClass value)
  /\ (forall payload, all_bytes payload ->
       readReplyClass f payload = DedupResponseValueBearing ->
       exists status inst value, value <> []
         /\ (payload = longReply status inst g a value \/ payload = shortReply status g a value)).
Proof.
  intros Hr. split; [|split].
  - intros. by eapply long_reply_class.
  - intros. by eapply short_reply_class.
  - intros. by eapply value_reply_shape.
Qed.

(** A read of group 3, instance 1, register 0x1600 of device 0x15. *)
Definition demo_read : Frame := mkFrame 0x71 0x15 0xB5 0x24 [0x02; 0x00; 0x03; 0x01; 0x00; 0x16].

Lemma b524_reply_class_witness :
  readRequest demo_read 0x02 0x03 0x01 0x1600 []
  /\ readReplyClass demo_read (longReply 0x01 0x02 0x03 0x1600 [0x15; 0x00])
     = DedupResponseValueBearing
  /\ readReplyClass demo_read (shortReply 0x01 0x03 0x1600 []) = DedupResponseHeaderOnly.
Proof.
  assert (readRequest demo_read 0x02 0x03 0x01 0x1600 []) as Hr.
  { unfold readRequest, demo_read. simpl. auto with lia. }
  split; [exact Hr|].
  pose proof (b524_reply_class demo_read 0x02 0x03 0x01 0x1600 [] Hr) as (Hl & Hs & _).
  split; [apply (Hl 0x01 0x02 [0x15; 0x00]); right; lia|].
  apply (Hs 0x01 []); [constructor|]. discriminate.
Defined.

(** The short layout is ambiguous.  Reading register 0x0000 of group 0
    of instance 2, the short reply whose value is the byte 0 reads as a long
    header of instance 0: the answer, although it names the register asked
    and carries a value, is classed as an error. *)
Theorem b524_short_reply_ambiguous :
  let f := mkFrame 0x71 0x15 0xB5 0x24 [0x02; 0x00; 0x00; 0x02; 0x00; 0x00] in
  let reply := shortReply 0x01 0x00 0x0000 [0x00; 0x00] in
  readRequest f 0x02 0x00 0x02 0x0000 []
  /\ readReplyClass f reply = DedupResponseErrorOrAmbiguous
  /\ readReplyClass f (shortReply 0x01 0x00 0x0000 [0x01; 0x00]) = DedupResponseValueBearing.
Proof. unfold readRequest. simpl. auto 10 with lia. Qed.

End FamilyPolicy.
