(* ===== verification/Dedup.v ===== *)
(** * The active/passive deduplicator

    [active_passive_deduplicator.go]: decides for every transaction the
    passive path classifies whether it is the copy of one the gateway ran
    itself, traffic of a third party, inbound traffic of the local
    participant, or only worth counting.  This file models the state under
    [deduplicator.mu] and the handlers that run with it held; the fan-out of
    their outputs is in [DedupFanout.v].

    The digest [sha256.Sum256] is a parameter: the theorems hold for every
    digest.  The process-wide expvar counters are the record [metrics]. *)

From Stdlib Require Import Ascii String.
From S2P Require Import Prelude Ebus Reconstructor WatchCatalog FamilyPolicy.

Local Open Scope Z_scope.

Module Dedup.
Import Reconstructor WatchCatalog FamilyPolicy.

(** ** Data *)

(** [DedupTransactionClass]. *)
Inductive DedupTransactionClass :=
| DedupTransactionClassInitiatorTarget
| DedupTransactionClassInitiatorInitiator
| DedupTransactionClassBroadcast
| DedupTransactionClassLocalParticipantIn
| DedupTransactionClassAbandonedPartial.

(** [DedupDisposition]; the first one is the empty string. *)
Inductive DedupDisposition :=
| DedupDispositionNone
| DedupDispositionUnmatchedThirdParty
| DedupDispositionMatchedActiveCopy
| DedupDispositionLocalParticipantIn
| DedupDispositionObservabilityOnly
| DedupDispositionDiscontinuity.

#[export] Instance DedupTransactionClass_eq_dec : EqDecision DedupTransactionClass.
Proof. solve_decision. Defined.
#[export] Instance DedupDisposition_eq_dec : EqDecision DedupDisposition.
Proof. solve_decision. Defined.

(** The strings of the constants. *)
Definition transactionClassString (c : DedupTransactionClass) : string :=
  match c with
  | DedupTransactionClassInitiatorTarget => "initiator_target"
  | DedupTransactionClassInitiatorInitiator => "initiator_initiator"
  | DedupTransactionClassBroadcast => "broadcast"
  | DedupTransactionClassLocalParticipantIn => "local_participant_inbound"
  | DedupTransactionClassAbandonedPartial => "abandoned_partial"
  end.
Definition outcomeString (o : DedupOutcomeClass) : string :=
  match o with
  | DedupOutcomeSuccess => "success"
  | DedupOutcomeNACK => "nack"
  | DedupOutcomeTimeout => "timeout"
  | DedupOutcomeCollision => "collision"
  | DedupOutcomeTransportReset => "transport_reset"
  | DedupOutcomeDecodeReset => "decode_reset"
  | DedupOutcomeAbandoned => "abandoned"
  end.
Definition responseClassString (r : DedupResponseClass) : string :=
  match r with
  | DedupResponseNone => EmptyString
  | DedupResponseValueBearing => "value_bearing"
  | DedupResponseACKOnly => "ack_only"
  | DedupResponseHeaderOnly => "header_only"
  | DedupResponseErrorOrAmbiguous => "error_or_ambiguous"
  end.
Definition dispositionString (d : DedupDisposition) : string :=
  match d with
  | DedupDispositionNone => EmptyString
  | DedupDispositionUnmatchedThirdParty => "unmatched_third_party"
  | DedupDispositionMatchedActiveCopy => "matched_active_duplicate"
  | DedupDispositionLocalParticipantIn => "local_participant_inbound"
  | DedupDispositionObservabilityOnly => "observability_only"
  | DedupDispositionDiscontinuity => "discontinuity"
  end.

(** [LocalAddressSnapshot]. *)
Record LocalAddressSnapshot := mkLocal {
  Address : byte;
  Known : bool;
  LocalEpoch : Z
}.

(** [ActiveTransactionFingerprint] and [PassiveTransactionFingerprint]: two
    Go types with the same fields. *)
Record TransactionFingerprint := mkFingerprint {
  FpEpoch : Z;
  TransactionClass : DedupTransactionClass;
  OutcomeClass : DedupOutcomeClass;
  FpResponseClass : DedupResponseClass;
  FpFamilyPolicy : ObserveFirstFamilyPolicy;
  SharedWatchKey : option WatchKey;
  FpSource : byte;
  FpTarget : byte;
  RequestBytes : list byte;
  ResponseBytes : list byte;
  Hash : list byte;
  FpObservedAt : time
}.

(** [AdjudicatedPassiveEvent]; a discontinuity has the zero fingerprint. *)
Record AdjudicatedPassiveEvent := mkAdjudicated {
  AdjEvent : PassiveClassifiedEvent;
  AdjFingerprint : option TransactionFingerprint;
  AdjFamilyPolicy : ObserveFirstFamilyPolicy;
  Disposition : DedupDisposition;
  SuppressShadow : bool;
  SuppressWatchEfficiency : bool;
  ThirdPartyEligible : bool;
  ObservabilityOnly : bool;
  LocalParticipantInbound : bool;
  MatchedActiveDuplicate : bool;
  AdjEpoch : Z
}.

(** [dedupTimingBudgets]. *)
Record dedupTimingBudgets := mkBudgets {
  LogicalRequestEnvelope : Z;
  ActivePublishBudget : Z;
  PassiveDeliveryBudget : Z;
  PendingGraceTimeout : Z;
  ActiveFingerprintRetention : Z;
  PendingCapacity : Z;
  RecoveryHysteresis : Z;
  RecoveryEventThreshold : Z
}.

Record retainedActiveFingerprint := mkRetained {
  RetFingerprint : TransactionFingerprint;
  ExpiresAt : time;
  Count : Z
}.

Record pendingPassiveFingerprint := mkPending {
  PendEvent : PassiveClassifiedEvent;
  PendFingerprint : TransactionFingerprint;
  InsertedAt : time;
  ReleaseAt : time;
  PendEpoch : Z
}.

Record recoveryState := mkRecovery {
  StartedAt : time;
  PassiveEvidence : Z
}.
Definition zeroRecovery : recoveryState := mkRecovery 0 0.

(** The expvar counters; an expvar is an [int64]. *)
Record metrics := mkMetrics {
  stateVar : string;
  epochVar : Z;
  epochResetTotal : Z;
  pendingFlushTotal : gmap string Z;
  adjudicationsTotal : gmap string Z;
  degradedTransitionsTotal : gmap string Z;
  localParticipantInboundTotal : Z
}.

(** [ActivePassiveDeduplicator], the part guarded by [mu]. *)
Record dedup := mkDedup {
  budgets : dedupTimingBudgets;
  flags : option ObserveFirstFeatureFlagView;
  observer : option (WatchKey -> WatchObservation);
  currentEpoch : Z;
  degraded : bool;
  recovery : recoveryState;
  localAddr : LocalAddressSnapshot;
  active : gmap (list byte) retainedActiveFingerprint;
  pending : list pendingPassiveFingerprint;
  vars : metrics
}.

(** [protocol.BusEvent], of the external package: what the deduplicator
    reads of it. *)
Inductive BusEventKind := BusEventAttemptComplete | BusEventObserverFault | BusEventOtherKind.
Record BusEvent := mkBusEvent {
  BusKind : BusEventKind;
  BusOutcomeSuccess : bool;
  BusFrameType : FrameType;
  BusRequest : Frame;
  BusResponse : Frame;
  BusHasRequest : bool;
  BusHasResponse : bool
}.

(** [protocol.BusRetryEnvelope]. *)
Record RetryPolicy := mkRetry { TimeoutRetries : Z; NACKRetries : Z }.
Record BusRetryEnvelope := mkEnvelope {
  InitiatorTarget : RetryPolicy;
  InitiatorInitiator : RetryPolicy;
  CollisionResyncSYNCount : Z
}.

(** Setters. *)
Definition set_active (m : gmap (list byte) retainedActiveFingerprint) (d : dedup) : dedup :=
  mkDedup (budgets d) (flags d) (observer d) (currentEpoch d) (degraded d) (recovery d)
    (localAddr d) m (pending d) (vars d).
Definition set_pending (l : list pendingPassiveFingerprint) (d : dedup) : dedup :=
  mkDedup (budgets d) (flags d) (observer d) (currentEpoch d) (degraded d) (recovery d)
    (localAddr d) (active d) l (vars d).
Definition set_local (a : LocalAddressSnapshot) (d : dedup) : dedup :=
  mkDedup (budgets d) (flags d) (observer d) (currentEpoch d) (degraded d) (recovery d)
    a (active d) (pending d) (vars d).
Definition set_health (deg : bool) (rec : recoveryState) (d : dedup) : dedup :=
  mkDedup (budgets d) (flags d) (observer d) (currentEpoch d) deg rec
    (localAddr d) (active d) (pending d) (vars d).
Definition set_epoch (e : Z) (d : dedup) : dedup :=
  mkDedup (budgets d) (flags d) (observer d) e (degraded d) (recovery d)
    (localAddr d) (active d) (pending d) (vars d).
Definition set_vars (f : metrics -> metrics) (d : dedup) : dedup :=
  mkDedup (budgets d) (flags d) (observer d) (currentEpoch d) (degraded d) (recovery d)
    (localAddr d) (active d) (pending d) (f (vars d)).

(** [incrementExpvarMap] and [expvar.Int.Add(1)]. *)
Definition incrVar (x : Z) : Z := i64 (x + 1).
Definition incrementExpvarMap (k : string) (m : gmap string Z) : gmap string Z :=
  if String.eqb k "" then m else <[k := incrVar (default 0 (m !! k))]> m.
Definition countAdjudication (x : DedupDisposition) (m : metrics) : metrics :=
  mkMetrics (stateVar m) (epochVar m) (epochResetTotal m) (pendingFlushTotal m)
    (incrementExpvarMap (dispositionString x) (adjudicationsTotal m))
    (degradedTransitionsTotal m) (localParticipantInboundTotal m).
Definition countFlush (reason : string) (m : metrics) : metrics :=
  mkMetrics (stateVar m) (epochVar m) (epochResetTotal m)
    (incrementExpvarMap reason (pendingFlushTotal m)) (adjudicationsTotal m)
    (degradedTransitionsTotal m) (localParticipantInboundTotal m).
Definition countDegraded (reason : string) (m : metrics) : metrics :=
  mkMetrics (stateVar m) (epochVar m) (epochResetTotal m) (pendingFlushTotal m)
    (adjudicationsTotal m) (incrementExpvarMap reason (degradedTransitionsTotal m))
    (localParticipantInboundTotal m).
Definition countLocalInbound (m : metrics) : metrics :=
  mkMetrics (stateVar m) (epochVar m) (epochResetTotal m) (pendingFlushTotal m)
    (adjudicationsTotal m) (degradedTransitionsTotal m) (incrVar (localParticipantInboundTotal m)).
Definition countEpochReset (epoch : Z) (m : metrics) : metrics :=
  mkMetrics (stateVar m) (i64 epoch) (incrVar (epochResetTotal m)) (pendingFlushTotal m)
    (adjudicationsTotal m) (degradedTransitionsTotal m) (localParticipantInboundTotal m).

(** [updateExpvarsLocked]. *)
Definition updateExpvarsLocked (d : dedup) : dedup :=
  set_vars (fun m => mkMetrics (if degraded d then "degraded" else "healthy") (i64 (currentEpoch d))
    (epochResetTotal m) (pendingFlushTotal m) (adjudicationsTotal m) (degradedTransitionsTotal m)
    (localParticipantInboundTotal m)) d.

(** ** Budgets *)

Definition millisecond : Z := 1000000.
Definition dedupAttemptBudgetUnit : Z := 250 * millisecond.
Definition dedupCollisionResyncBudgetUnit : Z := 125 * millisecond.
Definition dedupPublicationSlack : Z := 250 * millisecond.
Definition dedupPendingMatchSlack : Z := 250 * millisecond.
Definition defaultDedupPassiveDeliveryBudget : Z := 500 * millisecond.
Definition defaultDedupPendingCapacity : Z := 256.
Definition dedupRecoveryHealthyWindow : Z := 5000 * millisecond.
Definition dedupRecoveryMinimumEvents : Z := 10.

(** [maxDuration] and [maxInt]. *)
Definition maxDuration (left right : Z) : Z := if right <=? left then left else right.
Definition maxInt (left right : Z) : Z := if right <=? left then left else right.

(** [logicalRequestRetryEnvelope]. *)
Definition logicalRequestRetryEnvelope (envelope : BusRetryEnvelope) : Z :=
  let it := InitiatorTarget envelope in
  let ii := InitiatorInitiator envelope in
  let policy := if i64 (TimeoutRetries it + NACKRetries it) <? i64 (TimeoutRetries ii + NACKRetries ii)
                then ii else it in
  let timeoutRetries := maxInt (TimeoutRetries policy) 0 in
  let nackRetries := maxInt (NACKRetries policy) 0 in
  let collisionResync := maxInt (CollisionResyncSYNCount envelope) 0 in
  i64 (i64 (1 + timeoutRetries + nackRetries) * dedupAttemptBudgetUnit
       + collisionResync * dedupCollisionResyncBudgetUnit).

(** [deriveDedupTimingBudgets]; [None] is the error. *)
Definition deriveDedupTimingBudgets (envelope : BusRetryEnvelope) : option dedupTimingBudgets :=
  let logicalEnvelope := logicalRequestRetryEnvelope envelope in
  if logicalEnvelope <=? 0 then None
  else
    let activePublish := i64 (logicalEnvelope + dedupPublicationSlack) in
    let pendingGrace := i64 (maxDuration activePublish defaultDedupPassiveDeliveryBudget
                             + dedupPendingMatchSlack) in
    Some (mkBudgets logicalEnvelope activePublish defaultDedupPassiveDeliveryBudget pendingGrace
            (i64 (pendingGrace + defaultDedupPassiveDeliveryBudget)) defaultDedupPendingCapacity
            dedupRecoveryHealthyWindow dedupRecoveryMinimumEvents).

(** [defaultPassiveDedupBudgets]. *)
Definition defaultPassiveDedupBudgets (envelope : BusRetryEnvelope) : dedupTimingBudgets :=
  default (mkBudgets 0 0 0 0 0 defaultDedupPendingCapacity dedupRecoveryHealthyWindow
             dedupRecoveryMinimumEvents) (deriveDedupTimingBudgets envelope).

(** The deduplicator fields of [applyDefaults]: a value that is not
    positive is replaced by the default. *)
Definition orDefault (x dflt : Z) : Z := if x <=? 0 then dflt else x.
Definition applyDedupDefaults (envelope : BusRetryEnvelope) (b : dedupTimingBudgets)
    : dedupTimingBudgets :=
  let dflt := defaultPassiveDedupBudgets envelope in
  mkBudgets (LogicalRequestEnvelope b)
    (orDefault (ActivePublishBudget b) (ActivePublishBudget dflt))
    (orDefault (PassiveDeliveryBudget b) (PassiveDeliveryBudget dflt))
    (orDefault (PendingGraceTimeout b) (PendingGraceTimeout dflt))
    (orDefault (ActiveFingerprintRetention b) (ActiveFingerprintRetention dflt))
    (orDefault (PendingCapacity b) (PendingCapacity dflt))
    (orDefault (RecoveryHysteresis b) (RecoveryHysteresis dflt))
    (orDefault (RecoveryEventThreshold b) (RecoveryEventThreshold dflt)).

(** [NewActivePassiveDeduplicator]: [configured] are the PassiveDedup
    fields of the configuration, [snapshot] what the address snapshotter
    says if there is one; [None] is the error. *)
Definition NewActivePassiveDeduplicator (envelope : BusRetryEnvelope)
    (configured : dedupTimingBudgets) (fl : option ObserveFirstFeatureFlagView)
    (obs : option (WatchKey -> WatchObservation)) (snapshot : option LocalAddressSnapshot)
    (globals : metrics) : option dedup :=
  let cfg := applyDedupDefaults envelope configured in
  match deriveDedupTimingBudgets envelope with
  | None => None
  | Some required =>
      let b := mkBudgets (LogicalRequestEnvelope required) (ActivePublishBudget cfg)
                 (PassiveDeliveryBudget cfg) (PendingGraceTimeout cfg)
                 (ActiveFingerprintRetention cfg) (PendingCapacity cfg) (RecoveryHysteresis cfg)
                 (RecoveryEventThreshold cfg) in
      if (ActivePublishBudget b <? ActivePublishBudget required)
         || (PendingGraceTimeout b <? PendingGraceTimeout required)
         || (ActiveFingerprintRetention b <? ActiveFingerprintRetention required)
         || (PendingCapacity b <? PendingCapacity required)
         || (PassiveDeliveryBudget b <? PassiveDeliveryBudget required)
      then None
      else
        Some (updateExpvarsLocked
          (mkDedup b fl obs 1 true zeroRecovery (default (mkLocal 0 false 0) snapshot) ∅ [] globals))
  end.

(** ** Health and epochs *)

(** [enterDegradedLocked]. *)
Definition enterDegradedLocked (reason : string) (d : dedup) : dedup :=
  let d1 := if negb (degraded d) then set_vars (countDegraded reason) d else d in
  updateExpvarsLocked (set_health true zeroRecovery d1).

(** [recordRecoveryEvidenceLocked]. *)
Definition recordRecoveryEvidenceLocked (now : time) (d : dedup) : dedup :=
  if negb (degraded d) then d
  else
    let started := if IsZero (StartedAt (recovery d)) then now else StartedAt (recovery d) in
    let evidence := PassiveEvidence (recovery d) + 1 in
    let d1 := set_health true (mkRecovery started evidence) d in
    if now - started <? RecoveryHysteresis (budgets d) then d1
    else if evidence <? RecoveryEventThreshold (budgets d) then d1
    else updateExpvarsLocked (set_health false (mkRecovery started evidence) d1).

(** [adjudicateMatchedActiveDuplicate] and its siblings. *)
Definition adjudicateMatchedActiveDuplicate (event : PassiveClassifiedEvent)
    (fp : TransactionFingerprint) (epoch : Z) : AdjudicatedPassiveEvent :=
  mkAdjudicated event (Some fp) (FpFamilyPolicy fp) DedupDispositionMatchedActiveCopy
    true true false false false true epoch.

(** [dedupFamilyPolicySuppressesShadow]. *)
Definition dedupFamilyPolicySuppressesShadow (policy : ObserveFirstFamilyPolicy) : bool :=
  if negb (UsesRuntimeExternalWritePolicy policy) then false
  else
    String.eqb (EffectiveExternalWritePolicy policy) ObserveFirstExternalWritePolicyInvalidateOnly
    || String.eqb (EffectiveExternalWritePolicy policy)
         ObserveFirstExternalWritePolicyRecordAndInvalidate.

Definition adjudicateUnmatchedThirdParty (event : PassiveClassifiedEvent)
    (fp : TransactionFingerprint) (epoch : Z) : AdjudicatedPassiveEvent :=
  mkAdjudicated event (Some fp) (FpFamilyPolicy fp) DedupDispositionUnmatchedThirdParty
    (dedupFamilyPolicySuppressesShadow (FpFamilyPolicy fp)) false true false false false epoch.
Definition adjudicateObservabilityOnly (event : PassiveClassifiedEvent)
    (fp : TransactionFingerprint) (epoch : Z) : AdjudicatedPassiveEvent :=
  mkAdjudicated event (Some fp) (FpFamilyPolicy fp) DedupDispositionObservabilityOnly
    false false false true false false epoch.
Definition adjudicateLocalParticipantInbound (event : PassiveClassifiedEvent)
    (fp : TransactionFingerprint) (epoch : Z) : AdjudicatedPassiveEvent :=
  mkAdjudicated event (Some fp) (FpFamilyPolicy fp) DedupDispositionLocalParticipantIn
    false true false true true false epoch.
Definition makeAdjudicatedDiscontinuity (event : PassiveClassifiedEvent) (epoch : Z)
    : AdjudicatedPassiveEvent :=
  mkAdjudicated event None zeroPolicy DedupDispositionDiscontinuity
    false false false true false false epoch.

(** The event [makeDiscontinuityLocked] builds. *)
Definition discontinuityEvent (observedAt : time) (reason : PassiveDiscontinuityReason)
    : PassiveClassifiedEvent :=
  mkEvent PassiveClassifiedEventDiscontinuity FrameTypeUnknown zeroFrame zeroFrame false false
    zeroTiming observedAt PassiveAbandonReasonNone reason noAck (Some RecCanceled) "" 0 false.

(** [makeDiscontinuityLocked]. *)
Definition makeDiscontinuityLocked (observedAt : time) (reason : PassiveDiscontinuityReason)
    (degradeReason : string) (d : dedup) : dedup * list AdjudicatedPassiveEvent :=
  let d1 := fold_left (fun d _ => set_vars (countFlush "epoch_reset") d) (pending d) d in
  let d2 := set_active ∅ (set_pending [] d1) in
  let epoch := incr64 (currentEpoch d2) in
  let d3 := set_vars (countEpochReset epoch) (set_epoch epoch d2) in
  let d4 := enterDegradedLocked degradeReason d3 in
  let d5 := updateExpvarsLocked (set_health (degraded d4) zeroRecovery d4) in
  let d6 := set_vars (countAdjudication DedupDispositionDiscontinuity) d5 in
  (d6, [makeAdjudicatedDiscontinuity (discontinuityEvent observedAt reason) epoch]).

(** [updateLocalAddressLocked]; the flag says the address changed. *)
Definition updateLocalAddressLocked (address : byte) (d : dedup) : dedup * bool :=
  let a := localAddr d in
  if address =? 0 then (d, false)
  else if negb (Known a) then (set_local (mkLocal address true (currentEpoch d)) d, false)
  else if Address a =? address then (d, false)
  else (set_local (mkLocal address (Known a) (incr64 (LocalEpoch a))) d, true).

(** ** The retained active fingerprints *)

(** [pruneActiveLocked]. *)
Definition pruneActiveLocked (now : time) (d : dedup) : dedup :=
  set_active (filter (fun kv => now < ExpiresAt kv.2) (active d)) d.

(** [consumeActiveLocked]. *)
Definition consumeActiveLocked (hash : list byte) (d : dedup) : dedup * bool :=
  match active d !! hash with
  | None => (d, false)
  | Some a =>
      if Count a <=? 0 then (d, false)
      else if Count a =? 1 then (set_active (delete hash (active d)) d, true)
      else
        (set_active (<[hash := mkRetained (RetFingerprint a) (ExpiresAt a) (Count a - 1)]> (active d)) d,
         true)
  end.

(** [dedupFingerprintIsReadIntent] and [dedupFingerprintSupportsStateDefault]. *)
Definition dedupFingerprintIsReadIntent (fp : TransactionFingerprint) : bool :=
  match dedupRequestFrameFromFingerprint (RequestBytes fp) with
  | None => false
  | Some f => bool_decide (observeFirstRequestIntentFromFrame f = ObserveFirstRequestIntentRead)
  end.
Definition dedupFingerprintSupportsStateDefault (fp : TransactionFingerprint) : bool :=
  if negb (bool_decide (OutcomeClass fp = DedupOutcomeSuccess))
     || negb (bool_decide (FpResponseClass fp = DedupResponseValueBearing)) then false
  else if negb (dedupFingerprintIsReadIntent fp) then false
  else if negb (String.eqb (PolCorrelation (FpFamilyPolicy fp)) WatchCorrelationPolicyRequestResponse)
  then false
  else bool_decide (PolDirectApply (FpFamilyPolicy fp) = ObserveFirstDirectApplyPolicyStateDefault).

(** [observeFromActiveLocked], for a non-nil key.  The loop ranges over a
    map, but what it returns depends on the key only, so that the order does
    not matter. *)
Definition observeFromActiveLocked (key : WatchKey) (d : dedup) : WatchObservation :=
  if existsb (fun kv =>
       match SharedWatchKey (RetFingerprint kv.2) with
       | None => false
       | Some shared =>
           String.eqb (Canonical shared) (Canonical key)
           && dedupFingerprintSupportsStateDefault (RetFingerprint kv.2)
       end) (map_to_list (active d))
  then
    mkObservation WatchObservationStateActive
      (mkDescriptor (Some (KeyVal key)) WatchSemanticClassState "" ""
         WatchCorrelationPolicyRequestResponse WatchDirectApplyPolicyStateDefault None) true []
  else catalogMiss.

(** [Observe]. *)
Definition Observe (key : option WatchKey) (d : dedup) : WatchObservation :=
  match key with None => catalogMiss | Some k => observeFromActiveLocked k d end.

(** [observeFirstWatchObservationForKey]. *)
Definition observeFirstWatchObservationForKey (key : option WatchKey)
    (obs : option (WatchKey -> WatchObservation)) : WatchObservation :=
  match key, obs with
  | Some k, Some f => f k
  | _, _ => catalogMiss
  end.

(** ** Fingerprints *)

(** [[]byte(s)]. *)
Definition stringBytes (s : string) : list byte :=
  (fun c => Z.of_N (N_of_ascii c)) <$> list_ascii_of_string s.

(** [appendLengthPrefixed]: a big-endian [uint16] length before the
    payload. *)
Definition appendLengthPrefixed (buf payload : list byte) : list byte :=
  let n := u16 (len payload) in
  buf ++ [Z.shiftr n 8; u8 n] ++ payload.

(** The bytes [hashTransactionIdentity] digests. *)
Definition identityBytes (class : DedupTransactionClass) (source target : byte)
    (responseClass : DedupResponseClass) (outcome : DedupOutcomeClass)
    (requestBytes responseBytes : list byte) : list byte :=
  let tag s := u8 (len (stringBytes s)) :: stringBytes s in
  let buf := tag (transactionClassString class) ++ [source; target]
             ++ tag (responseClassString responseClass) ++ tag (outcomeString outcome) in
  appendLengthPrefixed (appendLengthPrefixed buf requestBytes) responseBytes.

(** [crypto/sha256]. *)
Class Digest := { Sum256 : list byte -> list byte }.

Section Handlers.
Context {P : EbusProtocol} {D : Digest}.

(** [hashTransactionIdentity]. *)
Definition hashTransactionIdentity (class : DedupTransactionClass) (source target : byte)
    (responseClass : DedupResponseClass) (outcome : DedupOutcomeClass)
    (requestBytes responseBytes : list byte) : list byte :=
  Sum256 (identityBytes class source target responseClass outcome requestBytes responseBytes).

(** [passiveOutcomeClass]. *)
Definition passiveOutcomeClass (event : PassiveClassifiedEvent) : DedupOutcomeClass :=
  match EvKind event with
  | PassiveClassifiedEventTransaction
  | PassiveClassifiedEventMasterFrame
  | PassiveClassifiedEventBroadcastFrame => DedupOutcomeSuccess
  | PassiveClassifiedEventAbandonedTransaction =>
      match AbandonReason event with
      | PassiveAbandonReasonNACK => DedupOutcomeNACK
      | PassiveAbandonReasonNoResponse
      | PassiveAbandonReasonNoProgress
      | PassiveAbandonReasonDisconnected
      | PassiveAbandonReasonShutdown => DedupOutcomeTimeout
      | PassiveAbandonReasonTransportReset => DedupOutcomeTransportReset
      | PassiveAbandonReasonDecodeFault => DedupOutcomeDecodeReset
      | PassiveAbandonReasonAmbiguousRetransmit => DedupOutcomeCollision
      | _ => DedupOutcomeAbandoned
      end
  | PassiveClassifiedEventDiscontinuity =>
      match DiscontinuityReason event with
      | PassiveDiscontinuityTransportReset
      | PassiveDiscontinuityDisconnected
      | PassiveDiscontinuityConnected
      | PassiveDiscontinuityShutdown => DedupOutcomeTransportReset
      | _ => DedupOutcomeDecodeReset
      end
  end.

(** [passiveTransactionClassLocked]. *)
Definition passiveTransactionClassLocked (event : PassiveClassifiedEvent) (d : dedup)
    : DedupTransactionClass :=
  let toLocal := Known (localAddr d) && Reconstructor.HasRequest event
                 && (Target (EvRequest event) =? Address (localAddr d)) in
  match EvKind event with
  | PassiveClassifiedEventBroadcastFrame => DedupTransactionClassBroadcast
  | PassiveClassifiedEventMasterFrame =>
      if toLocal then DedupTransactionClassLocalParticipantIn
      else DedupTransactionClassInitiatorInitiator
  | PassiveClassifiedEventTransaction => DedupTransactionClassInitiatorTarget
  | PassiveClassifiedEventAbandonedTransaction =>
      if bool_decide (EvFrameType event = FrameTypeInitiatorInitiator) && toLocal
      then DedupTransactionClassLocalParticipantIn
      else DedupTransactionClassAbandonedPartial
  | PassiveClassifiedEventDiscontinuity => DedupTransactionClassAbandonedPartial
  end.

(** [PassiveWatchKeyFromEvent]. *)
Definition PassiveWatchKeyFromEvent (event : PassiveClassifiedEvent) : option WatchKey :=
  if negb (Reconstructor.HasRequest event) then None
  else PassiveWatchKeyFromFrame (EvRequest event).

(** [buildPassiveFingerprintLocked]: the fingerprint, whether it may match
    an active one, and otherwise the disposition. *)
Definition buildPassiveFingerprintLocked (event : PassiveClassifiedEvent) (observedAt : time)
    (d : dedup) : TransactionFingerprint * bool * DedupDisposition :=
  let transactionClass := passiveTransactionClassLocked event d in
  let outcome := passiveOutcomeClass event in
  let responseClass := observeFirstResponseClass (EvRequest event) (EvFrameType event) outcome
                         (EvResponse event) (Reconstructor.HasResponse event) in
  let hasRequest := Reconstructor.HasRequest event in
  let key := if hasRequest then PassiveWatchKeyFromEvent event else None in
  let observed := observeFirstWatchObservationForKey key (observer d) in
  let observation :=
    match key with
    | Some k => if decide (State observed = WatchObservationStateCatalogMiss)
                then observeFromActiveLocked k d else observed
    | None => observed
    end in
  let source := if hasRequest then Source (EvRequest event) else 0 in
  let target := if hasRequest then Target (EvRequest event) else 0 in
  let requestBytes := if hasRequest then canonicalFrameBytes (EvRequest event) else [] in
  let responseBytes := if Reconstructor.HasResponse event
                       then canonicalFrameBytes (EvResponse event) else [] in
  let policy := if hasRequest
                then observeFirstFamilyPolicy ObserveFirstTrafficScopePassive (EvRequest event)
                       responseClass observation (flags d)
                else zeroPolicy in
  let fp := mkFingerprint (currentEpoch d) transactionClass outcome responseClass policy key source
              target requestBytes responseBytes
              (hashTransactionIdentity transactionClass source target responseClass outcome
                 requestBytes responseBytes) observedAt in
  let last := if negb (bool_decide (outcome = DedupOutcomeSuccess))
              then (fp, false, DedupDispositionObservabilityOnly)
              else (fp, true, DedupDispositionNone) in
  match transactionClass with
  | DedupTransactionClassBroadcast => (fp, false, DedupDispositionObservabilityOnly)
  | DedupTransactionClassLocalParticipantIn => (fp, false, DedupDispositionLocalParticipantIn)
  | DedupTransactionClassInitiatorInitiator =>
      if negb (Known (localAddr d)) then (fp, false, DedupDispositionObservabilityOnly) else last
  | _ => last
  end.

(** [buildActiveFingerprint]. *)
Definition buildActiveFingerprint (epoch : Z) (event : BusEvent) (observedAt : time)
    (fl : option ObserveFirstFeatureFlagView) (obs : option (WatchKey -> WatchObservation))
    : option TransactionFingerprint :=
  if negb (BusHasRequest event) then None
  else
    let class :=
      match BusFrameType event with
      | FrameTypeBroadcast => Some DedupTransactionClassBroadcast
      | FrameTypeInitiatorInitiator => Some DedupTransactionClassInitiatorInitiator
      | FrameTypeInitiatorTarget => Some DedupTransactionClassInitiatorTarget
      | FrameTypeUnknown => None
      end in
    match class with
    | None => None
    | Some transactionClass =>
        let responseClass := observeFirstResponseClass (BusRequest event) (BusFrameType event)
                               DedupOutcomeSuccess (BusResponse event) (BusHasResponse event) in
        let requestBytes := canonicalFrameBytes (BusRequest event) in
        let responseBytes := if BusHasResponse event
                             then canonicalFrameBytes (BusResponse event) else [] in
        let key := PassiveWatchKeyFromFrame (BusRequest event) in
        let observation := observeFirstWatchObservationForKey key obs in
        Some (mkFingerprint epoch transactionClass DedupOutcomeSuccess responseClass
          (observeFirstFamilyPolicy ObserveFirstTrafficScopeActive (BusRequest event) responseClass
             observation fl)
          key (Source (BusRequest event)) (Target (BusRequest event)) requestBytes responseBytes
          (hashTransactionIdentity transactionClass (Source (BusRequest event))
             (Target (BusRequest event)) responseClass DedupOutcomeSuccess requestBytes responseBytes)
          observedAt)
    end.

End Handlers.

(** ** The pending passive fingerprints *)

(** [dedupFamilyPolicyAllowsRuntimeThirdParty]. *)
Definition dedupFamilyPolicyAllowsRuntimeThirdParty (policy : ObserveFirstFamilyPolicy) : bool :=
  if UsesRuntimeExternalWritePolicy policy then
    negb (String.eqb (EffectiveExternalWritePolicy policy) ObserveFirstExternalWritePolicyRecordOnly)
  else if String.eqb (PolCorrelation policy) WatchCorrelationPolicyRecordInvalidate then true
  else
    match PolDirectApply policy with
    | ObserveFirstDirectApplyPolicyStateDefault
    | ObserveFirstDirectApplyPolicyConfigOptIn
    | ObserveFirstDirectApplyPolicyEnergyMergeOnly => true
    | _ => false
    end.

(** [releasePendingAsOutputLocked]. *)
Definition releasePendingAsOutputLocked (p : pendingPassiveFingerprint) (d : dedup)
    : dedup * list AdjudicatedPassiveEvent :=
  if degraded d then
    (set_vars (countAdjudication DedupDispositionObservabilityOnly) d,
     [adjudicateObservabilityOnly (PendEvent p) (PendFingerprint p) (currentEpoch d)])
  else if negb (dedupFamilyPolicyAllowsRuntimeThirdParty (FpFamilyPolicy (PendFingerprint p))) then
    (set_vars (countAdjudication DedupDispositionObservabilityOnly) d,
     [adjudicateObservabilityOnly (PendEvent p) (PendFingerprint p) (currentEpoch d)])
  else
    (set_vars (countAdjudication DedupDispositionUnmatchedThirdParty) d,
     [adjudicateUnmatchedThirdParty (PendEvent p) (PendFingerprint p) (currentEpoch d)]).

(** The loop of [releaseExpiredPendingLocked]: state, [next] and outputs. *)
Fixpoint releaseLoop (now : time) (ps : list pendingPassiveFingerprint) (d : dedup)
    : dedup * list pendingPassiveFingerprint * list AdjudicatedPassiveEvent :=
  match ps with
  | [] => (d, [], [])
  | p :: ps' =>
      if now <? ReleaseAt p then
        let '(d', next, outs) := releaseLoop now ps' d in (d', p :: next, outs)
      else
        let '(d1, o) := releasePendingAsOutputLocked p d in
        let d2 := set_vars (countFlush "grace_expiry") d1 in
        let '(d', next, outs) := releaseLoop now ps' d2 in (d', next, o ++ outs)
  end.

(** [releaseExpiredPendingLocked]. *)
Definition releaseExpiredPendingLocked (now : time) (d : dedup)
    : dedup * list AdjudicatedPassiveEvent :=
  if len (pending d) =? 0 then (d, [])
  else
    let '(d', next, outs) := releaseLoop now (pending d) d in (set_pending next d', outs).

(** [oldestReleasablePendingLocked]: the first index with the least release
    time among the expired ones; [None] is -1. *)
Fixpoint oldestLoop (now : time) (i : nat) (ps : list pendingPassiveFingerprint)
    (best : option (nat * time)) : option (nat * time) :=
  match ps with
  | [] => best
  | p :: ps' =>
      if now <? ReleaseAt p then oldestLoop now (S i) ps' best
      else
        match best with
        | None => oldestLoop now (S i) ps' (Some (i, ReleaseAt p))
        | Some (_, oldest) =>
            oldestLoop now (S i) ps' (if ReleaseAt p <? oldest then Some (i, ReleaseAt p) else best)
        end
  end.
Definition oldestReleasablePendingLocked (now : time) (d : dedup) : option nat :=
  fst <$> oldestLoop now 0 (pending d) None.

(** [releasePendingIndexLocked]. *)
Definition releasePendingIndexLocked (index : nat) (reason : string) (d : dedup)
    : dedup * list AdjudicatedPassiveEvent :=
  match pending d !! index with
  | None => (d, [])
  | Some p =>
      releasePendingAsOutputLocked p
        (set_vars (countFlush reason) (set_pending (delete index (pending d)) d))
  end.

(** The loop of [matchPendingLocked]: state, [next] and
    outputs. *)
Fixpoint matchLoop (hash : list byte) (matched : bool) (ps : list pendingPassiveFingerprint)
    (d : dedup) : dedup * list pendingPassiveFingerprint * list AdjudicatedPassiveEvent :=
  match ps with
  | [] => (d, [], [])
  | p :: ps' =>
      if negb (PendEpoch p =? currentEpoch d)
         || negb (FpEpoch (PendFingerprint p) =? currentEpoch d) then
        let '(d', next, outs) := matchLoop hash matched ps' d in (d', p :: next, outs)
      else if negb matched && bool_decide (Hash (PendFingerprint p) = hash) then
        let o := adjudicateMatchedActiveDuplicate (PendEvent p) (PendFingerprint p) (currentEpoch d) in
        let d1 := set_vars (countAdjudication DedupDispositionMatchedActiveCopy) d in
        let d2 := fst (consumeActiveLocked hash d1) in
        let '(d', next, outs) := matchLoop hash true ps' d2 in (d', next, o :: outs)
      else
        let '(d', next, outs) := matchLoop hash matched ps' d in (d', p :: next, outs)
  end.

(** [matchPendingLocked]. *)
Definition matchPendingLocked (fp : TransactionFingerprint) (now : time) (d : dedup)
    : dedup * list AdjudicatedPassiveEvent :=
  if len (pending d) =? 0 then (d, [])
  else
    let '(d', next, outs) := matchLoop (Hash fp) false (pending d) d in
    (recordRecoveryEvidenceLocked now (set_pending next d'), outs).

(** [publishImmediateLocked]. *)
Definition publishImmediateLocked (event : PassiveClassifiedEvent) (fp : TransactionFingerprint)
    (disposition : DedupDisposition) (d : dedup) : dedup * list AdjudicatedPassiveEvent :=
  let observability :=
    (set_vars (countAdjudication DedupDispositionObservabilityOnly) d,
     [adjudicateObservabilityOnly event fp (currentEpoch d)]) in
  match disposition with
  | DedupDispositionLocalParticipantIn =>
      (set_vars (countAdjudication DedupDispositionLocalParticipantIn)
         (set_vars countLocalInbound d),
       [adjudicateLocalParticipantInbound event fp (currentEpoch d)])
  | DedupDispositionUnmatchedThirdParty =>
      if dedupFamilyPolicyAllowsRuntimeThirdParty (FpFamilyPolicy fp) then
        (set_vars (countAdjudication DedupDispositionUnmatchedThirdParty) d,
         [adjudicateUnmatchedThirdParty event fp (currentEpoch d)])
      else observability
  | _ => observability
  end.

(** The loop of [handlePassiveEvent] that makes room: the state, the
    outputs, and whether there is room.  [None] would be an exhausted bound;
    the handler never meets it (lemma [makeRoom_fresh] of [DedupInv.v]). *)
Fixpoint makeRoom (fuel : nat) (now : time) (d : dedup) (outs : list AdjudicatedPassiveEvent)
    : option (dedup * list AdjudicatedPassiveEvent * bool) :=
  if len (pending d) <? PendingCapacity (budgets d) then Some (d, outs, true)
  else
    match oldestReleasablePendingLocked now d with
    | None => Some (d, outs, false)
    | Some index =>
        match fuel with
        | O => None
        | S fuel' =>
            let '(d1, o) := releasePendingIndexLocked index "grace_expiry" d in
            makeRoom fuel' now d1 (outs ++ o)
        end
    end.

(** ** Handlers *)

Section Events.
Context {P : EbusProtocol} {D : Digest}.

(** The update of the active map in [handleBusEvent]. *)
Definition retainActive (fp : TransactionFingerprint) (now : time) (d : dedup) : dedup :=
  let expires := now + ActiveFingerprintRetention (budgets d) in
  set_active
    (match active d !! Hash fp with
     | Some existing => <[Hash fp := mkRetained fp expires (Count existing + 1)]> (active d)
     | None => <[Hash fp := mkRetained fp expires 1]> (active d)
     end) d.

(** The part of [handleBusEvent] that notes the source of an active
    success as the local address. *)
Definition noteLocalAddress (source : byte) (now : time) (d : dedup)
    (outs : list AdjudicatedPassiveEvent) : dedup * list AdjudicatedPassiveEvent :=
  let '(d1, changed) := updateLocalAddressLocked source d in
  if changed then
    let '(d2, o) := makeDiscontinuityLocked now PassiveDiscontinuityTransportReset
                      "local_address_epoch" d1 in (d2, outs ++ o)
  else (d1, outs).

(** The part of [handleBusEvent] that fingerprints an active success,
    retains it and matches it. *)
Definition recordActive (event : BusEvent) (now : time) (d : dedup)
    (outs : list AdjudicatedPassiveEvent) : dedup * list AdjudicatedPassiveEvent :=
  match buildActiveFingerprint (currentEpoch d) event now (flags d) (observer d) with
  | None => (enterDegradedLocked "active_fingerprint_build" d, outs)
  | Some fp =>
      let '(d1, o) := matchPendingLocked fp now (retainActive fp now d) in
      (recordRecoveryEvidenceLocked now d1, outs ++ o)
  end.

(** [handleBusEvent]. *)
Definition handleBusEvent (event : BusEvent) (now : time) (d0 : dedup)
    : dedup * list AdjudicatedPassiveEvent :=
  let '(d1, outs) := releaseExpiredPendingLocked now d0 in
  let d2 := pruneActiveLocked now d1 in
  match BusKind event with
  | BusEventObserverFault => (enterDegradedLocked "observer_fault" (set_active ∅ d2), outs)
  | BusEventOtherKind => (d2, outs)
  | BusEventAttemptComplete =>
      if negb (BusOutcomeSuccess event) || negb (BusHasRequest event) then (d2, outs)
      else
        let '(d3, outs3) := noteLocalAddress (Source (BusRequest event)) now d2 outs in
        recordActive event now d3 outs3
  end.

(** [handlePassiveEvent] after the release and the pruning, for the three
    kinds that carry a transaction. *)
Definition handleTransactionEvent (event : PassiveClassifiedEvent) (now : time) (d : dedup)
    (outs : list AdjudicatedPassiveEvent) : dedup * list AdjudicatedPassiveEvent :=
  let '(fp, matchEligible, disposition) := buildPassiveFingerprintLocked event now d in
  if negb matchEligible then
    let '(d1, o) := publishImmediateLocked event fp disposition d in (d1, outs ++ o)
  else
    let '(d1, consumed) := consumeActiveLocked (Hash fp) d in
    if consumed then
      (recordRecoveryEvidenceLocked now
         (set_vars (countAdjudication DedupDispositionMatchedActiveCopy) d1),
       outs ++ [adjudicateMatchedActiveDuplicate event fp (currentEpoch d1)])
    else
      match makeRoom (length (pending d1)) now d1 outs with
      | None => (d1, outs)
      | Some (d2, outs2, false) =>
          let d3 := enterDegradedLocked "pending_capacity" d2 in
          (set_vars (countAdjudication DedupDispositionObservabilityOnly) d3,
           outs2 ++ [adjudicateObservabilityOnly event fp (currentEpoch d3)])
      | Some (d2, outs2, true) =>
          (recordRecoveryEvidenceLocked now
             (set_pending (pending d2 ++ [mkPending event fp now
                (now + PendingGraceTimeout (budgets d2)) (currentEpoch d2)]) d2), outs2)
      end.

(** [handlePassiveEvent]. *)
Definition handlePassiveEvent (event : PassiveClassifiedEvent) (now : time) (d0 : dedup)
    : dedup * list AdjudicatedPassiveEvent :=
  let '(d1, outs) := releaseExpiredPendingLocked now d0 in
  let d2 := pruneActiveLocked now d1 in
  match EvKind event with
  | PassiveClassifiedEventDiscontinuity =>
      let '(d3, o) := makeDiscontinuityLocked now (DiscontinuityReason event)
                        "passive_epoch_boundary" d2 in (d3, outs ++ o)
  | PassiveClassifiedEventBroadcastFrame => (recordRecoveryEvidenceLocked now d2, outs)
  | PassiveClassifiedEventTransaction
  | PassiveClassifiedEventMasterFrame
  | PassiveClassifiedEventAbandonedTransaction => handleTransactionEvent event now d2 outs
  end.

(** [event.ObservedAt = observedAt]. *)
Definition set_ObservedAt (t : time) (e : PassiveClassifiedEvent) : PassiveClassifiedEvent :=
  mkEvent (EvKind e) (EvFrameType e) (EvRequest e) (EvResponse e) (Reconstructor.HasRequest e)
    (Reconstructor.HasResponse e) (Timing e) t (AbandonReason e) (DiscontinuityReason e)
    (ACKCorrelation e) (EvErr e) (Subscriber e) (OffendingSymbol e) (OffendingWasEscaped e).

(** [OnPassiveClassifiedEvent], without the publication; [clock] is what
    [now] returns. *)
Definition OnPassiveClassifiedEvent (event : PassiveClassifiedEvent) (clock : time) (d : dedup)
    : dedup * list AdjudicatedPassiveEvent :=
  let observedAt := if IsZero (EvObservedAt event) then clock else EvObservedAt event in
  handlePassiveEvent (set_ObservedAt observedAt event) observedAt d.

(** Everything that changes the state: a bus event, a passive event, a tick
    of the expiry loop, a critical reset, a new watch observer. *)
Inductive op :=
| OpBus (event : BusEvent) (now : time)
| OpPassive (event : PassiveClassifiedEvent) (clock : time)
| OpTick (now : time)
| OpCriticalReset (observedAt : time) (reason : PassiveDiscontinuityReason) (degradeReason : string)
| OpSetWatchObserver (obs : option (WatchKey -> WatchObservation)).

(** [SetWatchObserver]. *)
Definition SetWatchObserver (obs : option (WatchKey -> WatchObservation)) (d : dedup) : dedup :=
  mkDedup (budgets d) (flags d) obs (currentEpoch d) (degraded d) (recovery d) (localAddr d)
    (active d) (pending d) (vars d).

Definition step (o : op) (d : dedup) : dedup * list AdjudicatedPassiveEvent :=
  match o with
  | OpBus event now => handleBusEvent event now d
  | OpPassive event clock => OnPassiveClassifiedEvent event clock d
  | OpTick now => releaseExpiredPendingLocked now d
  | OpCriticalReset observedAt reason degradeReason =>
      makeDiscontinuityLocked observedAt reason degradeReason d
  | OpSetWatchObserver obs => (SetWatchObserver obs d, [])
  end.

(** A sequence of operations, with all the outputs in order. *)
Fixpoint steps (os : list op) (d : dedup) : dedup * list AdjudicatedPassiveEvent :=
  match os with
  | [] => (d, [])
  | o :: os' =>
      let '(d1, out1) := step o d in
      let '(d2, out2) := steps os' d1 in (d2, out1 ++ out2)
  end.

End Events.

End Dedup.
