(* ===== verification/DedupInv.v ===== *)
(** * Correctness of the deduplicator

    What every sequence of bus events, passive events, expiry ticks and
    resets does to [Dedup.dedup]: the invariant of the pending and active
    fingerprints, conservation of passive events, soundness and completeness
    of the matching, the gate on third-party traffic and the recovery from
    the degraded state. *)

From Stdlib Require Import Ascii String.
From S2P Require Import Prelude Ebus Reconstructor WatchCatalog FamilyPolicy Dedup.

Local Open Scope Z_scope.

Module DedupInv.
Import Reconstructor WatchCatalog FamilyPolicy Dedup.

(** ** What the helpers leave alone *)

(** The two states differ in health and counters only. *)
Record same (d d' : dedup) : Prop := mkSame {
  same_budgets : budgets d' = budgets d;
  same_flags : flags d' = flags d;
  same_observer : observer d' = observer d;
  same_epoch : currentEpoch d' = currentEpoch d;
  same_local : localAddr d' = localAddr d;
  same_active : active d' = active d;
  same_pending : pending d' = pending d
}.

#[export] Instance same_preorder : PreOrder same.
Proof.
  split.
  - intros d. by split.
  - intros d1 d2 d3 [] []. split; congruence.
Qed.

Lemma same_vars f d : same d (set_vars f d).
Proof. by split. Qed.

Lemma same_degraded reason d : same d (enterDegradedLocked reason d).
Proof. unfold enterDegradedLocked. by destruct (degraded d). Qed.

Lemma same_record now d : same d (recordRecoveryEvidenceLocked now d).
Proof. unfold recordRecoveryEvidenceLocked. by break. Qed.

#[export] Hint Resolve same_vars same_degraded same_record : gw.

(** ** Releasing expired entries *)

(** The output of one released entry. *)
Definition releasedAs (deg : bool) (epoch : Z) (p : pendingPassiveFingerprint)
    : AdjudicatedPassiveEvent :=
  if deg || negb (dedupFamilyPolicyAllowsRuntimeThirdParty (FpFamilyPolicy (PendFingerprint p)))
  then adjudicateObservabilityOnly (PendEvent p) (PendFingerprint p) epoch
  else adjudicateUnmatchedThirdParty (PendEvent p) (PendFingerprint p) epoch.

Lemma releasePending_spec p d :
  exists d', releasePendingAsOutputLocked p d = (d', [releasedAs (degraded d) (currentEpoch d) p])
    /\ same d d' /\ degraded d' = degraded d /\ recovery d' = recovery d
    /\ pendingFlushTotal (vars d') = pendingFlushTotal (vars d).
Proof.
  unfold releasePendingAsOutputLocked, releasedAs.
  destruct (degraded d) eqn:E; simpl; [eexists; by repeat split|].
  destruct (negb _); eexists; by repeat split.
Qed.

Definition unexpired (now : time) (p : pendingPassiveFingerprint) : bool := now <? ReleaseAt p.
Definition expired (now : time) (p : pendingPassiveFingerprint) : bool := negb (unexpired now p).

(** The counter of entries dropped by epoch resets. *)
Definition flushCount (d : dedup) : Z := default 0 (pendingFlushTotal (vars d) !! "epoch_reset").

Lemma releaseLoop_spec now ps d :
  exists d',
    releaseLoop now ps d = (d', List.filter (unexpired now) ps,
      releasedAs (degraded d) (currentEpoch d) <$> List.filter (expired now) ps)
    /\ same d d' /\ degraded d' = degraded d /\ recovery d' = recovery d
    /\ flushCount d' = flushCount d.
Proof.
  revert d. induction ps as [|p ps IH]; intros d; simpl.
  { exists d. by repeat split. }
  unfold expired, unexpired in *. destruct (now <? ReleaseAt p) eqn:E; simpl.
  - destruct (IH d) as (d' & -> & H). by exists d'.
  - destruct (releasePending_spec p d) as (d1 & -> & S1 & D1 & R1 & F1).
    destruct (IH (set_vars (countFlush "grace_expiry") d1)) as (d' & -> & S2 & D2 & R2 & F2).
    exists d'. simpl. rewrite D1, (same_epoch _ _ S1).
    split; [done|]. simpl in *. split; [|split; [congruence|split; [congruence|]]].
    + etrans; [exact S1|]. etrans; [apply (same_vars (countFlush "grace_expiry"))|done].
    + rewrite F2. unfold flushCount. simpl. rewrite F1. unfold incrementExpvarMap. simpl.
      by rewrite lookup_insert_ne by done.
Qed.

(** [releaseExpiredPendingLocked] takes out exactly the expired entries, in
    order, and gives one output for each. *)
Lemma releaseExpired_spec now d :
  exists d',
    releaseExpiredPendingLocked now d = (d',
      releasedAs (degraded d) (currentEpoch d) <$> List.filter (expired now) (pending d))
    /\ same (set_pending (List.filter (unexpired now) (pending d)) d) d'
    /\ degraded d' = degraded d /\ recovery d' = recovery d /\ flushCount d' = flushCount d.
Proof.
  unfold releaseExpiredPendingLocked. destruct (len (pending d) =? 0) eqn:E.
  - bool_facts. destruct (pending d) eqn:Ep; [|simpl in E; lia]. simpl.
    exists d. split; [done|]. split; [|done]. split; simpl; congruence.
  - destruct (releaseLoop_spec now (pending d) d) as (d' & -> & S & H).
    eexists. split; [done|]. split; [|done]. destruct S. by split.
Qed.

(** ** Matching pending entries *)

Definition inEpoch (epoch : Z) (p : pendingPassiveFingerprint) : Prop :=
  PendEpoch p = epoch /\ FpEpoch (PendFingerprint p) = epoch.

Definition pendHash (p : pendingPassiveFingerprint) : list byte := Hash (PendFingerprint p).

Lemma matchLoop_done hash ps d :
  Forall (inEpoch (currentEpoch d)) ps -> matchLoop hash true ps d = (d, ps, []).
Proof.
  induction ps as [|p ps IH]; intros H; simpl; [done|].
  apply Forall_cons in H as [[H1 H2] H]. rewrite H1, H2, Z.eqb_refl. simpl. by rewrite IH.
Qed.

Lemma matchLoop_none hash ps d :
  Forall (inEpoch (currentEpoch d)) ps -> (forall p, p ∈ ps -> pendHash p <> hash) ->
  matchLoop hash false ps d = (d, ps, []).
Proof.
  induction ps as [|p ps IH]; intros H Hn; simpl; [done|].
  apply Forall_cons in H as [[H1 H2] H]. rewrite H1, H2, Z.eqb_refl. simpl.
  rewrite bool_decide_eq_false_2 by (apply Hn; set_solver). rewrite IH; [done|done|].
  intros q Hq. apply Hn. set_solver.
Qed.

Lemma consume_epoch hash d : currentEpoch (fst (consumeActiveLocked hash d)) = currentEpoch d.
Proof. unfold consumeActiveLocked. by break. Qed.

Lemma matchLoop_first hash l1 p l2 d :
  Forall (inEpoch (currentEpoch d)) (l1 ++ p :: l2) -> (forall q, q ∈ l1 -> pendHash q <> hash) ->
  pendHash p = hash ->
  matchLoop hash false (l1 ++ p :: l2) d =
    (fst (consumeActiveLocked hash (set_vars (countAdjudication DedupDispositionMatchedActiveCopy) d)),
     l1 ++ l2,
     [adjudicateMatchedActiveDuplicate (PendEvent p) (PendFingerprint p) (currentEpoch d)]).
Proof.
  intros H Hn Hp. induction l1 as [|q l1 IH]; simpl.
  - apply Forall_cons in H as [[H1 H2] H]. rewrite H1, H2, Z.eqb_refl. simpl.
    rewrite bool_decide_eq_true_2 by done. rewrite matchLoop_done; [done|].
    by rewrite consume_epoch.
  - apply Forall_cons in H as [[H1 H2] H]. rewrite H1, H2, Z.eqb_refl. simpl.
    rewrite bool_decide_eq_false_2 by (apply Hn; set_solver).
    rewrite IH; [done|done|]. intros r Hr. apply Hn. set_solver.
Qed.

(** Either nothing pending has the hash, or there is a first entry with it. *)
Lemma first_pending hash (ps : list pendingPassiveFingerprint) :
  (forall p, p ∈ ps -> pendHash p <> hash)
  \/ exists l1 p l2, ps = l1 ++ p :: l2 /\ pendHash p = hash
       /\ forall q, q ∈ l1 -> pendHash q <> hash.
Proof.
  induction ps as [|p ps IH]; [left; set_solver|].
  destruct (decide (pendHash p = hash)) as [Hp|Hp].
  - right. exists [], p, ps. split; [done|]. split; [done|]. set_solver.
  - destruct IH as [IH|(l1 & q & l2 & -> & Hq & Hn)].
    + left. intros q [->|Hq]%elem_of_cons; auto.
    + right. exists (p :: l1), q, l2. split; [done|]. split; [done|].
      intros r [->|Hr]%elem_of_cons; auto.
Qed.

(** ** Room in the pending list *)

Lemma oldestLoop_fresh now i ps best :
  Forall (fun p => unexpired now p = true) ps -> oldestLoop now i ps best = best.
Proof.
  revert i. induction ps as [|p ps IH]; intros i H; simpl; [done|].
  apply Forall_cons in H as [Hp H]. unfold unexpired in Hp. rewrite Hp. by apply IH.
Qed.

(** After the expired entries have been released at the same time, there
    is nothing the loop could release. *)
Lemma makeRoom_fresh fuel now d outs :
  Forall (fun p => unexpired now p = true) (pending d) ->
  makeRoom fuel now d outs = Some (d, outs, len (pending d) <? PendingCapacity (budgets d)).
Proof.
  intros H. assert (oldestReleasablePendingLocked now d = None) as E.
  { unfold oldestReleasablePendingLocked. by rewrite oldestLoop_fresh. }
  destruct fuel; simpl; rewrite E; by destruct (_ <? _).
Qed.

(** ** The invariant *)

(** A pending entry: made in this epoch, from a successful transaction
    between an initiator and another participant, and released one grace
    period after it came in. *)
Record pending_ok (d : dedup) (p : pendingPassiveFingerprint) : Prop := mkPendingOk {
  pend_epoch : inEpoch (currentEpoch d) p;
  pend_outcome : OutcomeClass (PendFingerprint p) = DedupOutcomeSuccess;
  pend_class : TransactionClass (PendFingerprint p) = DedupTransactionClassInitiatorTarget
               \/ TransactionClass (PendFingerprint p) = DedupTransactionClassInitiatorInitiator;
  pend_release : ReleaseAt p = InsertedAt p + PendingGraceTimeout (budgets d)
}.

(** A retained fingerprint: stored under its own hash, of this epoch, with
    at least one copy left. *)
Record retained_ok (epoch : Z) (h : list byte) (r : retainedActiveFingerprint) : Prop := mkRetainedOk {
  ret_count : 1 <= Count r;
  ret_hash : Hash (RetFingerprint r) = h;
  ret_epoch : FpEpoch (RetFingerprint r) = epoch
}.

Record wf (d : dedup) : Prop := mkWf {
  wf_pending : Forall (pending_ok d) (pending d);
  wf_capacity : len (pending d) <= Z.max 0 (PendingCapacity (budgets d));
  wf_active : map_Forall (retained_ok (currentEpoch d)) (active d);
  (** Nothing is at once waiting for its active copy and retained as one. *)
  wf_disjoint : forall p, p ∈ pending d -> active d !! pendHash p = None
}.

Lemma wf_inEpoch d : wf d -> Forall (inEpoch (currentEpoch d)) (pending d).
Proof. intros [H _ _ _]. eapply Forall_impl; [done|]. by intros p []. Qed.

(** ** Atomic transitions

    Between the release of the expired entries, with which most handlers
    begin, and its end, a handler is a sequence of the transitions below.
    The label collects the passive events taken in, the hashes of the active
    successes recorded, the outputs, and the events an epoch reset drops. *)

Record label := mkLabel {
  lIn : list PassiveClassifiedEvent;
  lActive : list (list byte);
  lOut : list AdjudicatedPassiveEvent;
  lFlushed : list PassiveClassifiedEvent
}.
Definition silent : label := mkLabel [] [] [] [].
Definition ljoin (a b : label) : label :=
  mkLabel (lIn a ++ lIn b) (lActive a ++ lActive b) (lOut a ++ lOut b) (lFlushed a ++ lFlushed b).

(** The parts the invariant and the counts depend on are the same. *)
Record frame (d d' : dedup) : Prop := mkFrameSame {
  fr_budgets : budgets d' = budgets d;
  fr_epoch : currentEpoch d' = currentEpoch d;
  fr_active : active d' = active d;
  fr_pending : pending d' = pending d;
  fr_flush : flushCount d' = flushCount d
}.

(** The clock reading an operation works with. *)
Definition opTime (o : op) : option time :=
  match o with
  | OpBus _ now | OpTick now => Some now
  | OpPassive e clock => Some (if IsZero (EvObservedAt e) then clock else EvObservedAt e)
  | _ => None
  end.

(** The operation reports a fault of the bus observer. *)
Definition isFault (o : op) : bool :=
  match o with
  | OpBus e _ => match BusKind e with BusEventObserverFault => true | _ => false end
  | _ => false
  end.

(** An output that is neither a match nor third-party traffic. *)
Definition plain (a : AdjudicatedPassiveEvent) : Prop :=
  MatchedActiveDuplicate a = false /\ ThirdPartyEligible a = false.

Inductive micro (o : op) : label -> dedup -> dedup -> Prop :=
| m_frame d d' : frame d d' -> micro o silent d d'
| m_prune now d : opTime o = Some now -> micro o silent d (pruneActiveLocked now d)
| m_fault d : isFault o = true -> micro o silent d (set_active ∅ d)
| m_reset d d' a :
    budgets d' = budgets d -> currentEpoch d' = incr64 (currentEpoch d) ->
    active d' = ∅ -> pending d' = [] ->
    flushCount d' = Nat.iter (length (pending d)) incrVar (flushCount d) ->
    Disposition a = DedupDispositionDiscontinuity -> plain a ->
    micro o (mkLabel [] [] [a] (PendEvent <$> pending d)) d d'
| m_retain fp now d :
    opTime o = Some now -> FpEpoch fp = currentEpoch d -> (forall p, p ∈ pending d -> pendHash p <> Hash fp) ->
    micro o (mkLabel [] [Hash fp] [] []) d (retainActive fp now d)
| m_match fp now l1 p l2 d d' :
    opTime o = Some now -> FpEpoch fp = currentEpoch d -> pending d = l1 ++ p :: l2 -> pendHash p = Hash fp ->
    (forall q, q ∈ l1 -> pendHash q <> Hash fp) ->
    frame (set_pending (l1 ++ l2) (fst (consumeActiveLocked (Hash fp) (retainActive fp now d)))) d' ->
    micro o (mkLabel [] [Hash fp]
      [adjudicateMatchedActiveDuplicate (PendEvent p) (PendFingerprint p) (currentEpoch d)] []) d d'
| m_immediate e a d d' :
    frame d d' -> AdjEvent a = e -> plain a -> Disposition a <> DedupDispositionDiscontinuity ->
    micro o (mkLabel [e] [] [a] []) d d'
| m_consume e fp d d' :
    snd (consumeActiveLocked (Hash fp) d) = true ->
    frame (fst (consumeActiveLocked (Hash fp) d)) d' ->
    micro o (mkLabel [e] [] [adjudicateMatchedActiveDuplicate e fp (currentEpoch d)] []) d d'
| m_pend p d d' :
    pending_ok d p -> snd (consumeActiveLocked (pendHash p) d) = false ->
    len (pending d) < PendingCapacity (budgets d) ->
    frame (set_pending (pending d ++ [p]) d) d' ->
    micro o (mkLabel [PendEvent p] [] [] []) d d'.

Inductive micros (o : op) : label -> dedup -> dedup -> Prop :=
| ms_nil d : micros o silent d d
| ms_cons L M d d' d'' : micro o L d d' -> micros o M d' d'' -> micros o (ljoin L M) d d''.

Lemma ljoin_silent_l L : ljoin silent L = L.
Proof. by destruct L. Qed.
Lemma ljoin_silent_r L : ljoin L silent = L.
Proof. destruct L. unfold ljoin. simpl. by rewrite !app_nil_r. Qed.

Lemma micros_one o L d d' : micro o L d d' -> micros o L d d'.
Proof. intros H. rewrite <- (ljoin_silent_r L). eapply ms_cons; [done|constructor]. Qed.
Lemma micros_silent o L d d' d'' : micro o silent d d' -> micros o L d' d'' -> micros o L d d''.
Proof. intros H1 H2. rewrite <- (ljoin_silent_l L). by eapply ms_cons. Qed.
Lemma micros_last o L d d' d'' : micro o L d d' -> frame d' d'' -> micros o L d d''.
Proof.
  intros H1 H2. rewrite <- (ljoin_silent_r L). eapply ms_cons; [done|].
  by apply micros_one, m_frame.
Qed.

Lemma ljoin_assoc L M N : ljoin L (ljoin M N) = ljoin (ljoin L M) N.
Proof. unfold ljoin. simpl. by rewrite !app_assoc. Qed.
Lemma micros_app o L M d d' d'' : micros o L d d' -> micros o M d' d'' -> micros o (ljoin L M) d d''.
Proof.
  intros H1 H2. induction H1 as [d|L N d d1 d' H1 H IH].
  - by rewrite ljoin_silent_l.
  - rewrite <- ljoin_assoc. eapply ms_cons; eauto.
Qed.

Lemma frame_refl d : frame d d.
Proof. by split. Qed.
Lemma frame_trans d d' d'' : frame d d' -> frame d' d'' -> frame d d''.
Proof. intros [] []. split; congruence. Qed.

(** ** Every transition preserves the invariant *)

Lemma wf_frame d d' : frame d d' -> wf d -> wf d'.
Proof.
  intros [Hb He Ha Hp _] [W1 W2 W3 W4]. split; rewrite ?Hb, ?He, ?Ha, ?Hp; auto.
  eapply Forall_impl; [done|]. intros p []. split; rewrite ?Hb, ?He; auto.
Qed.

(** What [consumeActiveLocked] does, when every count is positive. *)
Lemma consume_spec h d :
  map_Forall (retained_ok (currentEpoch d)) (active d) ->
  (active d !! h = None /\ consumeActiveLocked h d = (d, false))
  \/ exists r, active d !! h = Some r /\ snd (consumeActiveLocked h d) = true
      /\ fst (consumeActiveLocked h d) =
         set_active (if Count r =? 1 then delete h (active d)
                     else <[h := mkRetained (RetFingerprint r) (ExpiresAt r) (Count r - 1)]> (active d)) d.
Proof.
  intros H. unfold consumeActiveLocked. destruct (active d !! h) as [r|] eqn:E; [right|by left].
  exists r. destruct (H h r E) as [Hc _ _].
  rewrite (proj2 (Z.leb_gt _ _)) by lia. by destruct (Count r =? 1).
Qed.

Lemma consume_active_ok h d :
  map_Forall (retained_ok (currentEpoch d)) (active d) ->
  map_Forall (retained_ok (currentEpoch d)) (active (fst (consumeActiveLocked h d))).
Proof.
  intros H. destruct (consume_spec h d H) as [[_ ->]|(r & E & _ & ->)]; [done|]. simpl.
  destruct (H h r E) as [Hc Hh He]. destruct (Count r =? 1) eqn:E1.
  - by apply map_Forall_delete.
  - apply map_Forall_insert_2; [|done]. bool_facts. split; simpl; [lia|done..].
Qed.

Lemma consume_lookup_ne h k d : h <> k -> active (fst (consumeActiveLocked h d)) !! k = active d !! k.
Proof.
  intros Hne. unfold consumeActiveLocked.
  destruct (active d !! h); [|done]. destruct (_ <=? _); [done|]. destruct (_ =? _); simpl.
  - by rewrite lookup_delete_ne.
  - by rewrite lookup_insert_ne.
Qed.

Lemma consume_none h k d :
  active d !! k = None -> active (fst (consumeActiveLocked h d)) !! k = None.
Proof.
  destruct (decide (h = k)) as [->|Hne]; [|by rewrite consume_lookup_ne].
  intros E. unfold consumeActiveLocked. by rewrite E.
Qed.

Lemma consume_rest h d :
  budgets (fst (consumeActiveLocked h d)) = budgets d
  /\ currentEpoch (fst (consumeActiveLocked h d)) = currentEpoch d
  /\ pending (fst (consumeActiveLocked h d)) = pending d
  /\ localAddr (fst (consumeActiveLocked h d)) = localAddr d
  /\ flushCount (fst (consumeActiveLocked h d)) = flushCount d
  /\ degraded (fst (consumeActiveLocked h d)) = degraded d
  /\ recovery (fst (consumeActiveLocked h d)) = recovery d.
Proof. unfold consumeActiveLocked. by break. Qed.

Lemma retain_active_ok fp now d :
  FpEpoch fp = currentEpoch d -> map_Forall (retained_ok (currentEpoch d)) (active d) ->
  map_Forall (retained_ok (currentEpoch d)) (active (retainActive fp now d)).
Proof.
  intros He H. unfold retainActive. simpl.
  destruct (active d !! Hash fp) as [r|] eqn:E; apply map_Forall_insert_2; try done; split; simpl; try done.
  destruct (H _ _ E). lia.
Qed.

Lemma retain_lookup_ne fp now d k :
  Hash fp <> k -> active (retainActive fp now d) !! k = active d !! k.
Proof.
  intros Hne. unfold retainActive. simpl. destruct (active d !! Hash fp); by rewrite lookup_insert_ne.
Qed.

(** Recording an active success and consuming it at once, when none was
    retained, leaves none. *)
Lemma retain_consume_fresh fp now d :
  active d !! Hash fp = None ->
  active (fst (consumeActiveLocked (Hash fp) (retainActive fp now d))) = active d.
Proof.
  intros E. unfold consumeActiveLocked, retainActive. simpl. rewrite E. simpl.
  rewrite lookup_insert_eq. simpl. by rewrite delete_insert_eq, delete_id.
Qed.

Lemma pending_ok_frame d d' p :
  budgets d' = budgets d -> currentEpoch d' = currentEpoch d -> pending_ok d p -> pending_ok d' p.
Proof. intros Hb He []. split; rewrite ?Hb, ?He; auto. Qed.

Lemma pendings_ok_frame d d' l :
  budgets d' = budgets d -> currentEpoch d' = currentEpoch d ->
  Forall (pending_ok d) l -> Forall (pending_ok d') l.
Proof. intros Hb He Hl. eapply Forall_impl; [done|]. intros p. by apply pending_ok_frame. Qed.

Lemma wf_match fp now l1 p l2 d d' :
  FpEpoch fp = currentEpoch d -> pending d = l1 ++ p :: l2 -> pendHash p = Hash fp ->
  frame (set_pending (l1 ++ l2) (fst (consumeActiveLocked (Hash fp) (retainActive fp now d)))) d' ->
  wf d -> wf d'.
Proof.
  intros He Ep Hp Hf W. eapply wf_frame; [exact Hf|].
  pose proof (consume_rest (Hash fp) (retainActive fp now d)) as (Rb & Re & _ & _).
  assert (active d !! Hash fp = None) as Hnone.
  { rewrite <- Hp. apply (wf_disjoint d W). rewrite Ep. set_solver. }
  destruct W as [W1 W2 W3 W4]. split; simpl.
  - rewrite Ep in W1. apply Forall_app in W1 as [Wa Wb]. apply Forall_cons in Wb as [_ Wb].
    apply Forall_app. split; by apply (pendings_ok_frame d).
  - rewrite Rb. simpl. rewrite Ep in W2. rewrite length_app in *. simpl in W2. lia.
  - rewrite Re, retain_consume_fresh by done. done.
  - intros q Hq. rewrite retain_consume_fresh by done. apply W4. rewrite Ep. set_solver.
Qed.

Lemma wf_pend p d d' :
  pending_ok d p -> snd (consumeActiveLocked (pendHash p) d) = false ->
  len (pending d) < PendingCapacity (budgets d) ->
  frame (set_pending (pending d ++ [p]) d) d' -> wf d -> wf d'.
Proof.
  intros Hok Hc Hlen Hf [W1 W2 W3 W4]. eapply wf_frame; [exact Hf|]. split; simpl.
  - apply Forall_app. split; [|apply Forall_singleton].
    + by apply (pendings_ok_frame d).
    + by apply (pending_ok_frame d).
  - rewrite length_app. simpl. lia.
  - done.
  - intros q [Hq|Hq%list_elem_of_singleton]%elem_of_app; [by apply W4|]. subst q.
    destruct (consume_spec (pendHash p) d W3) as [[? _]|(r & _ & Hs & _)]; [done|congruence].
Qed.

Lemma wf_micro o L d d' : micro o L d d' -> wf d -> wf d'.
Proof.
  intros Hm W. destruct Hm as [d d' Hf|now d Ht|d Ht|d d' a Hb He Ha Hp|fp now d Ht He Hn|fp now l1 p l2 d d' Ht He Ep Hp Hn Hf|e a d d' Hf|e fp d d' Hc Hf|p d d' Hok Hc Hlen Hf].
  - by eapply wf_frame.
  - destruct W as [W1 W2 W3 W4]. split; simpl; [by apply (pendings_ok_frame d)|done|..].
    + intros h r [Hr _]%map_lookup_filter_Some. by apply W3.
    + intros p Hp. apply map_lookup_filter_None. left. by apply W4.
  - destruct W as [W1 W2 W3 W4].
    split; simpl; [by apply (pendings_ok_frame d)|done|apply map_Forall_empty|done].
  - split; rewrite ?Hp, ?Ha; [constructor|simpl; lia|apply map_Forall_empty|set_solver].
  - destruct W as [W1 W2 W3 W4]. split; [by apply (pendings_ok_frame d)|done|exact (retain_active_ok fp now d He W3)|].
    intros p Hp. rewrite retain_lookup_ne; [by apply W4|]. intros Eq. by apply (Hn p Hp).
  - by eapply wf_match.
  - by eapply wf_frame.
  - eapply wf_frame; [exact Hf|]. pose proof (consume_rest (Hash fp) d) as (Rb & Re & Rp & _).
    destruct W as [W1 W2 W3 W4]. split; rewrite ?Rp, ?Rb; [by apply (pendings_ok_frame d)|done|..].
    + rewrite Re. by apply consume_active_ok.
    + intros q Hq. by apply consume_none, W4.
  - by eapply wf_pend.
Qed.

Lemma wf_micros o L d d' : micros o L d d' -> wf d -> wf d'.
Proof. induction 1; eauto using wf_micro. Qed.

(** ** Handlers as sequences of transitions *)

Section Run.
Context {P : EbusProtocol} {D : Digest}.

(** The passive event an operation adjudicates now or later. *)
Definition isTransaction (k : PassiveClassifiedEventKind) : bool :=
  match k with
  | PassiveClassifiedEventTransaction
  | PassiveClassifiedEventMasterFrame
  | PassiveClassifiedEventAbandonedTransaction => true
  | _ => false
  end.
Definition opEvents (o : op) : list PassiveClassifiedEvent :=
  match o with
  | OpPassive e clock =>
      if isTransaction (EvKind e)
      then [set_ObservedAt (if IsZero (EvObservedAt e) then clock else EvObservedAt e) e] else []
  | _ => []
  end.

(** The identity hash of an active success; it does not depend on the
    state. *)
Definition busHash (e : BusEvent) : option (list byte) :=
  Hash <$> buildActiveFingerprint 0 e 0 None None.
Definition opActives (o : op) : list (list byte) :=
  match o with
  | OpBus e _ =>
      match BusKind e with
      | BusEventAttemptComplete =>
          if BusOutcomeSuccess e && BusHasRequest e then option_list (busHash e) else []
      | _ => []
      end
  | _ => []
  end.

Lemma buildActive_hash epoch e now fl obs :
  busHash e = Hash <$> buildActiveFingerprint epoch e now fl obs.
Proof. unfold busHash, buildActiveFingerprint. by break. Qed.

Lemma buildActive_epoch epoch e now fl obs fp :
  buildActiveFingerprint epoch e now fl obs = Some fp -> FpEpoch fp = epoch.
Proof. unfold buildActiveFingerprint. intros H. by break_all. Qed.

Lemma buildPassive_spec e now d fp eligible disp :
  buildPassiveFingerprintLocked e now d = (fp, eligible, disp) ->
  isTransaction (EvKind e) = true ->
  FpEpoch fp = currentEpoch d /\ OutcomeClass fp = passiveOutcomeClass e
  /\ TransactionClass fp = passiveTransactionClassLocked e d
  /\ (eligible = true ->
       OutcomeClass fp = DedupOutcomeSuccess
       /\ (TransactionClass fp = DedupTransactionClassInitiatorTarget
           \/ TransactionClass fp = DedupTransactionClassInitiatorInitiator))
  /\ (eligible = false ->
       disp = DedupDispositionLocalParticipantIn \/ disp = DedupDispositionObservabilityOnly).
Proof.
  unfold buildPassiveFingerprintLocked. intros H Hk.
  destruct (passiveTransactionClassLocked e d) eqn:Ec;
    repeat (case_bool_decide || destruct (negb (Known _))); simpl in H; injection H as <- <- <-;
    simpl; repeat split; auto; try done.
  all: unfold passiveTransactionClassLocked in Ec; unfold isTransaction in Hk;
    destruct (EvKind e) eqn:Ek; try done; break_all; try done.
  all: exfalso; match goal with Ho : passiveOutcomeClass _ = _ |- _ => revert Ho end;
    unfold passiveOutcomeClass; rewrite Ek; by destruct (AbandonReason e).
Qed.

Lemma frame_same d d' : same d d' -> flushCount d' = flushCount d -> frame d d'.
Proof. intros [] H. by split. Qed.

Lemma flush_degraded reason d : flushCount (enterDegradedLocked reason d) = flushCount d.
Proof. unfold enterDegradedLocked. by destruct (degraded d). Qed.
Lemma flush_record now d : flushCount (recordRecoveryEvidenceLocked now d) = flushCount d.
Proof. unfold recordRecoveryEvidenceLocked. by break. Qed.

Lemma frame_degraded reason d : frame d (enterDegradedLocked reason d).
Proof. apply frame_same; [apply same_degraded|apply flush_degraded]. Qed.
Lemma frame_record now d : frame d (recordRecoveryEvidenceLocked now d).
Proof. apply frame_same; [apply same_record|apply flush_record]. Qed.
Lemma frame_adjudication x d : frame d (set_vars (countAdjudication x) d).
Proof. by split. Qed.
Lemma frame_local a d : frame d (fst (updateLocalAddressLocked a d)).
Proof. unfold updateLocalAddressLocked. by break. Qed.

Lemma flush_fold (l : list pendingPassiveFingerprint) d :
  let d' := fold_left (fun d _ => set_vars (countFlush "epoch_reset") d) l d in
  same d d' /\ flushCount d' = Nat.iter (length l) incrVar (flushCount d)
  /\ degraded d' = degraded d.
Proof.
  revert d. induction l as [|p l IH]; intros d; cbn [fold_left length]; [done|].
  destruct (IH (set_vars (countFlush "epoch_reset") d)) as (S & F & G).
  split; [|split].
  - etrans; [apply (same_vars (countFlush "epoch_reset"))|exact S].
  - rewrite F, Nat.iter_succ_r. f_equal. unfold flushCount. simpl. unfold incrementExpvarMap. simpl.
    by rewrite lookup_insert_eq.
  - by rewrite G.
Qed.

(** [makeDiscontinuityLocked] is one reset transition. *)
Lemma reset_micro o t reason why d :
  exists a, snd (makeDiscontinuityLocked t reason why d) = [a]
    /\ Disposition a = DedupDispositionDiscontinuity
    /\ AdjEpoch a = incr64 (currentEpoch d)
    /\ micro o (mkLabel [] [] [a] (PendEvent <$> pending d)) d
         (fst (makeDiscontinuityLocked t reason why d))
    /\ degraded (fst (makeDiscontinuityLocked t reason why d)) = true
    /\ recovery (fst (makeDiscontinuityLocked t reason why d)) = zeroRecovery
    /\ localAddr (fst (makeDiscontinuityLocked t reason why d)) = localAddr d.
Proof.
  unfold makeDiscontinuityLocked.
  destruct (flush_fold (pending d) d) as (S & F & G).
  set (d1 := fold_left _ _ _) in *. clearbody d1. destruct S as [Sb Sf So Se Sl Sa Sp].
  set (epoch := incr64 _).
  assert (epoch = incr64 (currentEpoch d)) as He by (unfold epoch; simpl; by rewrite Se).
  clearbody epoch. subst epoch. set (epoch := incr64 (currentEpoch d)).
  set (d3 := set_vars (countEpochReset epoch) (set_epoch epoch (set_active ∅ (Dedup.set_pending [] d1)))).
  pose proof (frame_degraded why d3) as [Fb Fe Fa Fp Ff].
  pose proof (same_degraded why d3) as [_ _ _ _ Fl _ _].
  assert (degraded (enterDegradedLocked why d3) = true) as Hd by done.
  eexists. split; [done|]. split; [done|].
  split; [done|]. split; [|split; [done|split; [done|]]].
  - apply m_reset; try done.
    + etrans; [exact Fb|exact Sb].
    + etrans; [exact Ff|exact F].
  - etrans; [exact Fl|exact Sl].
Qed.

(** Recording an active success and matching it against what is pending
    is one transition. *)
Lemma retain_match_micros o fp now d :
  opTime o = Some now -> wf d -> FpEpoch fp = currentEpoch d ->
  exists outs, snd (matchPendingLocked fp now (retainActive fp now d)) = outs
    /\ micros o (mkLabel [] [Hash fp] outs []) d
         (fst (matchPendingLocked fp now (retainActive fp now d))).
Proof.
  intros Ht W He. pose proof (wf_inEpoch d W) as Hin. unfold matchPendingLocked.
  change (pending (retainActive fp now d)) with (pending d).
  destruct (len (pending d) =? 0) eqn:E.
  { exists []. split; [done|]. apply micros_one, m_retain; [done..|].
    bool_facts. destruct (pending d); [set_solver|simpl in E; lia]. }
  destruct (first_pending (Hash fp) (pending d)) as [Hn|(l1 & p & l2 & Ep & Hp & Hn)].
  - rewrite matchLoop_none by done. exists []. split; [done|].
    eapply micros_last; [by apply m_retain|]. cbn [fst].
    eapply frame_trans; [|apply frame_record]. by split.
  - rewrite Ep in Hin |- *.
    rewrite (matchLoop_first (Hash fp) l1 p l2 (retainActive fp now d) Hin Hn Hp).
    eexists. split; [done|]. cbn [fst].
    apply micros_one, (m_match o fp now l1 p l2 d); [done..|].
    eapply frame_trans; [|apply frame_record].
    unfold consumeActiveLocked. simpl. by break.
Qed.

Lemma transaction_micros o e now d outs :
  wf d -> Forall (fun p => unexpired now p = true) (pending d) -> isTransaction (EvKind e) = true ->
  exists L, micros o L d (fst (handleTransactionEvent e now d outs))
    /\ snd (handleTransactionEvent e now d outs) = outs ++ lOut L
    /\ lIn L = [e] /\ lActive L = [].
Proof.
  intros W Hfresh Hk. unfold handleTransactionEvent.
  destruct (buildPassiveFingerprintLocked e now d) as [[fp eligible] disp] eqn:Eb.
  destruct (buildPassive_spec e now d fp eligible disp Eb Hk) as (He & Ho & Hc & Hel & Hin).
  destruct eligible; simpl.
  2: { exists (mkLabel [e] [] (snd (publishImmediateLocked e fp disp d)) []).
       destruct (Hin eq_refl) as [-> | ->]; simpl; (split; [|done]);
         apply micros_one, m_immediate; done. }
  destruct (Hel eq_refl) as [Hsucc Hclass].
  destruct (consumeActiveLocked (Hash fp) d) as [d1 consumed] eqn:Econs. destruct consumed.
  - pose proof (consume_rest (Hash fp) d) as (_ & Re & _). rewrite Econs in Re. simpl in Re.
    rewrite Re. eexists. split; [|split; [|split]]; cycle 1.
    + cbn [snd]. f_equal.
      instantiate (1 := mkLabel [e] [] [adjudicateMatchedActiveDuplicate e fp (currentEpoch d)] []).
      done.
    + done.
    + done.
    + cbn [fst]. apply micros_one, m_consume; rewrite Econs; [done|].
      eapply frame_trans; [apply frame_adjudication|apply frame_record].
  - assert (d1 = d) as ->.
    { destruct (consume_spec (Hash fp) d (wf_active d W)) as [[_ E]|(r & _ & E & _)];
        rewrite Econs in E; simplify_eq/=; done. }
    rewrite makeRoom_fresh by done. destruct (_ <? _) eqn:Elen.
    + set (p := mkPending e fp now (now + PendingGraceTimeout (budgets d)) (currentEpoch d)).
      exists (mkLabel [PendEvent p] [] [] []). rewrite app_nil_r. split; [|done].
      cbn [fst]. bool_facts. apply micros_one, m_pend; [by split| |done|apply frame_record].
      change (pendHash p) with (Hash fp). by rewrite Econs.
    + eexists (mkLabel [e] [] [_] []). split; [|split; [done|done]].
      cbn [fst]. apply micros_one, m_immediate; [|done..].
      eapply frame_trans; [apply frame_degraded|apply frame_adjudication].
Qed.

(** What an operation releases, and what it leaves waiting. *)
Definition relOut (t : option time) (d : dedup) : list AdjudicatedPassiveEvent :=
  match t with
  | Some now => releasedAs (degraded d) (currentEpoch d) <$> List.filter (expired now) (pending d)
  | None => []
  end.
Definition relPending (t : option time) (d : dedup) : list pendingPassiveFingerprint :=
  match t with
  | Some now => List.filter (unexpired now) (pending d)
  | None => pending d
  end.

Lemma wf_released t d : wf d -> wf (Dedup.set_pending (relPending t d) d).
Proof.
  intros [W1 W2 W3 W4].
  assert (relPending t d `sublist_of` pending d) as Hs
    by (destruct t; [apply filter_sublist|done]).
  split; simpl.
  - apply (pendings_ok_frame d); [done..|]. rewrite Forall_forall in *. intros p Hp. apply W1.
    by eapply elem_of_sublist.
  - apply sublist_length in Hs. lia.
  - done.
  - intros p Hp. apply W4. by eapply elem_of_sublist.
Qed.

Lemma release_frame now d :
  exists d1, releaseExpiredPendingLocked now d = (d1, relOut (Some now) d)
    /\ frame (Dedup.set_pending (relPending (Some now) d) d) d1.
Proof.
  destruct (releaseExpired_spec now d) as (d1 & E & S & _ & _ & F). exists d1. split; [done|].
  by apply frame_same.
Qed.

Lemma released_fresh now d d1 :
  frame (Dedup.set_pending (relPending (Some now) d) d) d1 ->
  Forall (fun p => unexpired now p = true) (pending d1).
Proof.
  intros F. rewrite (fr_pending _ _ F). simpl. apply Forall_forall. intros p Hp.
  by apply elem_of_filterb in Hp as [_ ?].
Qed.

Lemma noteLocalAddress_micros o source now d outs :
  exists M, micros o M d (fst (noteLocalAddress source now d outs))
    /\ snd (noteLocalAddress source now d outs) = outs ++ lOut M /\ lIn M = [] /\ lActive M = [].
Proof.
  unfold noteLocalAddress. pose proof (frame_local source d) as Fl.
  destruct (updateLocalAddressLocked source d) as [d1 changed]. cbn [fst] in Fl. destruct changed.
  - destruct (reset_micro o now PassiveDiscontinuityTransportReset "local_address_epoch" d1)
      as (a & Ea & _ & _ & Hm & _).
    destruct (makeDiscontinuityLocked now PassiveDiscontinuityTransportReset "local_address_epoch" d1)
      as [d2 out]. cbn [fst snd] in *. subst out.
    exists (mkLabel [] [] [a] (PendEvent <$> pending d1)). split; [|done].
    eapply micros_silent; [by apply m_frame|]. by apply micros_one.
  - exists silent. rewrite app_nil_r. split; [|done]. by apply micros_one, m_frame.
Qed.

Lemma recordActive_micros o e now d outs :
  opTime o = Some now -> wf d ->
  exists L, micros o L d (fst (recordActive e now d outs))
    /\ snd (recordActive e now d outs) = outs ++ lOut L
    /\ lIn L = [] /\ lActive L = option_list (busHash e).
Proof.
  intros Ht W. unfold recordActive.
  rewrite (buildActive_hash (currentEpoch d) e now (flags d) (observer d)).
  destruct (buildActiveFingerprint (currentEpoch d) e now (flags d) (observer d)) as [fp|] eqn:Eb; simpl.
  - apply buildActive_epoch in Eb.
    destruct (retain_match_micros o fp now d Ht W Eb) as (out & Eo & Hm).
    destruct (matchPendingLocked fp now (retainActive fp now d)) as [d1 o1]. cbn [fst snd] in *.
    subst o1. exists (mkLabel [] [Hash fp] out []). split; [|done].
    rewrite <- (ljoin_silent_r (mkLabel _ _ _ _)).
    eapply micros_app; [exact Hm|]. apply micros_one, m_frame, frame_record.
  - exists silent. rewrite app_nil_r. split; [|done]. apply micros_one, m_frame, frame_degraded.
Qed.

Lemma passive_shape e clock d :
  wf d ->
  exists d1 L, frame (Dedup.set_pending (relPending (opTime (OpPassive e clock)) d) d) d1
    /\ micros (OpPassive e clock) L d1 (fst (step (OpPassive e clock) d))
    /\ snd (step (OpPassive e clock) d) = relOut (opTime (OpPassive e clock)) d ++ lOut L
    /\ lIn L = opEvents (OpPassive e clock) /\ lActive L = [].
Proof.
  intros W. cbn [step opTime opEvents]. unfold OnPassiveClassifiedEvent, handlePassiveEvent.
  set (now := if IsZero (EvObservedAt e) then clock else EvObservedAt e).
  destruct (release_frame now d) as (d1 & -> & F). exists d1.
  assert (wf d1) as W1 by (eapply wf_frame; [exact F|by apply wf_released]).
  set (d2 := pruneActiveLocked now d1).
  assert (wf d2) as W2 by (by apply (wf_micro (OpTick now) silent d1); [apply m_prune|]).
  change (EvKind (set_ObservedAt now e)) with (EvKind e).
  destruct (isTransaction (EvKind e)) eqn:Hk.
  - destruct (transaction_micros (OpPassive e clock) (set_ObservedAt now e) now d2 (relOut (Some now) d) W2
      (released_fresh now d d1 F) Hk) as (L & HL & EL & IL & AL).
    exists L. split; [done|].
    replace (match EvKind e with
             | PassiveClassifiedEventBroadcastFrame => _ | _ => _ end)
      with (handleTransactionEvent (set_ObservedAt now e) now d2 (relOut (Some now) d))
      by (by destruct (EvKind e)).
    split; [|done]. by eapply micros_silent; [by apply m_prune|].
  - destruct (EvKind e); try done.
    + exists silent. rewrite app_nil_r. split; [done|]. split; [|done].
      eapply micros_silent; [by apply m_prune|]. apply micros_one, m_frame, frame_record.
    + destruct (reset_micro (OpPassive e clock) now (DiscontinuityReason (set_ObservedAt now e))
        "passive_epoch_boundary" d2) as (a & Ea & _ & _ & Hm & _).
      destruct (makeDiscontinuityLocked now _ _ d2) as [d3 out]. cbn [fst snd] in *. subst out.
      exists (mkLabel [] [] [a] (PendEvent <$> pending d2)). split; [done|]. split; [|done].
      eapply micros_silent; [by apply m_prune|]. by apply micros_one.
Qed.

(** Every operation releases what has expired and then makes a sequence of
    transitions, whose label says what came in, which active successes were
    recorded and what else was put out. *)
Lemma step_shape o d :
  wf d ->
  exists d1 L, frame (Dedup.set_pending (relPending (opTime o) d) d) d1
    /\ micros o L d1 (fst (step o d))
    /\ snd (step o d) = relOut (opTime o) d ++ lOut L
    /\ lIn L = opEvents o /\ lActive L = opActives o.
Proof.
  intros W. destruct o as [e now|e clock|now|t reason why|obs]; cbn [step opTime opEvents opActives].
  - unfold handleBusEvent. destruct (release_frame now d) as (d1 & -> & F).
    exists d1. assert (wf d1) as W1 by (eapply wf_frame; [exact F|by apply wf_released]).
    destruct (BusKind e) eqn:Ek.
    + destruct (BusOutcomeSuccess e), (BusHasRequest e) eqn:Er; cbn [negb orb andb];
        try (exists silent; rewrite app_nil_r; split; [done|]; split; [|done]; by apply micros_one, m_prune).
      set (d2 := pruneActiveLocked now d1).
      assert (wf d2) as W2 by (by apply (wf_micro (OpTick now) silent d1); [apply m_prune|]).
      destruct (noteLocalAddress_micros (OpBus e now) (Source (BusRequest e)) now d2 (relOut (Some now) d))
        as (M & HM & EM & I1 & A1).
      destruct (noteLocalAddress _ now d2 _) as [d3 outs3]. cbn [fst snd] in *.
      assert (wf d3) as W3 by (by eapply wf_micros).
      destruct (recordActive_micros (OpBus e now) e now d3 outs3 eq_refl W3) as (L & HL & EL & I2 & A2).
      exists (ljoin M L). split; [done|]. split; [|split; [|split]].
      * eapply micros_silent; [by apply m_prune|]. by eapply micros_app.
      * rewrite EL, EM. simpl. by rewrite <- app_assoc.
      * simpl. by rewrite I1, I2.
      * simpl. by rewrite A1, A2.
    + exists silent. rewrite app_nil_r. split; [done|]. split; [|done].
      eapply micros_silent; [by apply m_prune|]. eapply micros_silent; [apply m_fault; simpl; by rewrite Ek|].
      apply micros_one, m_frame, frame_degraded.
    + exists silent. rewrite app_nil_r. split; [done|]. split; [|done]. by apply micros_one, m_prune.
  - by apply passive_shape.
  - destruct (release_frame now d) as (d1 & -> & F). exists d1, silent.
    rewrite app_nil_r. split; [done|]. split; [constructor|done].
  - destruct (reset_micro (OpCriticalReset t reason why) t reason why d) as (a & -> & _ & _ & Hm & _).
    exists d, (mkLabel [] [] [a] (PendEvent <$> pending d)). split; [by destruct d|].
    split; [by apply micros_one|done].
  - exists d, silent. split; [by destruct d|]. split; [|done]. apply micros_one, m_frame. by split.
Qed.

Lemma wf_step o d : wf d -> wf (fst (step o d)).
Proof.
  intros W. destruct (step_shape o d W) as (d1 & L & F & HM & _).
  eapply wf_micros; [exact HM|]. eapply wf_frame; [exact F|by apply wf_released].
Qed.

Lemma dedup_steps_cons o os d :
  steps (o :: os) d = (fst (steps os (fst (step o d))),
                       snd (step o d) ++ snd (steps os (fst (step o d)))).
Proof. simpl. destruct (step o d) as [d1 o1]. simpl. by destruct (steps os d1). Qed.

Lemma wf_steps os d : wf d -> wf (fst (steps os d)).
Proof.
  revert d. induction os as [|o os IH]; intros d W; [done|].
  rewrite dedup_steps_cons. cbn [fst]. by apply IH, wf_step.
Qed.

Lemma derive_capacity env r :
  deriveDedupTimingBudgets env = Some r -> PendingCapacity r = defaultDedupPendingCapacity.
Proof.
  unfold deriveDedupTimingBudgets. generalize (logicalRequestRetryEnvelope env). intros x.
  destruct (x <=? 0); [done|]. intros H. by apply (inj Some) in H as <-.
Qed.

(** A fresh deduplicator. *)
Lemma new_shape env cfg fl obs snap m d :
  NewActivePassiveDeduplicator env cfg fl obs snap m = Some d ->
  exists b, defaultDedupPendingCapacity <= PendingCapacity b
    /\ d = updateExpvarsLocked
             (mkDedup b fl obs 1 true zeroRecovery (default (mkLocal 0 false 0) snap) ∅ [] m).
Proof.
  unfold NewActivePassiveDeduplicator. intros H.
  destruct (deriveDedupTimingBudgets env) as [r|] eqn:E; [|done].
  apply derive_capacity in E as Hr.
  generalize dependent (applyDedupDefaults env cfg). intros c H. cbv zeta in H.
  destruct (_ || _) eqn:Eb in H; [done|]. apply (inj Some) in H as <-.
  eexists. split; [|reflexivity]. bool_facts. by rewrite <- Hr.
Qed.

Lemma new_state env cfg fl obs snap m d :
  NewActivePassiveDeduplicator env cfg fl obs snap m = Some d ->
  pending d = [] /\ active d = ∅ /\ degraded d = true /\ recovery d = zeroRecovery
  /\ currentEpoch d = 1 /\ defaultDedupPendingCapacity <= PendingCapacity (budgets d).
Proof. by intros (b & Hb & ->)%new_shape. Qed.

Lemma wf_new env cfg fl obs snap m d :
  NewActivePassiveDeduplicator env cfg fl obs snap m = Some d -> wf d.
Proof.
  intros (b & Hb & ->)%new_shape. unfold defaultDedupPendingCapacity in Hb.
  split; simpl; [constructor|lia|apply map_Forall_empty|set_solver].
Qed.

(** ** Conservation of passive events *)

Definition isDiscontinuity (a : AdjudicatedPassiveEvent) : bool :=
  bool_decide (Disposition a = DedupDispositionDiscontinuity).
(** The passive events a list of outputs adjudicates. *)
Definition adjudicated (outs : list AdjudicatedPassiveEvent) : list PassiveClassifiedEvent :=
  AdjEvent <$> List.filter (fun a => negb (isDiscontinuity a)) outs.

Lemma adjudicated_app a b : adjudicated (a ++ b) = adjudicated a ++ adjudicated b.
Proof. unfold adjudicated. by rewrite List.filter_app, fmap_app. Qed.

Lemma adjudicated_one a :
  Disposition a <> DedupDispositionDiscontinuity -> adjudicated [a] = [AdjEvent a].
Proof. intros H. unfold adjudicated, isDiscontinuity. simpl. by rewrite bool_decide_eq_false_2. Qed.

Lemma releasedAs_fields deg epoch p :
  AdjEvent (releasedAs deg epoch p) = PendEvent p
  /\ AdjFingerprint (releasedAs deg epoch p) = Some (PendFingerprint p)
  /\ Disposition (releasedAs deg epoch p) <> DedupDispositionDiscontinuity
  /\ MatchedActiveDuplicate (releasedAs deg epoch p) = false
  /\ ThirdPartyEligible (releasedAs deg epoch p)
     = negb deg && dedupFamilyPolicyAllowsRuntimeThirdParty (FpFamilyPolicy (PendFingerprint p)).
Proof.
  unfold releasedAs. destruct deg; simpl; [done|].
  by destruct (dedupFamilyPolicyAllowsRuntimeThirdParty _).
Qed.

Lemma adjudicated_released deg epoch ps :
  adjudicated (releasedAs deg epoch <$> ps) = PendEvent <$> ps.
Proof.
  induction ps as [|p ps IH]; [done|].
  change (releasedAs deg epoch <$> p :: ps)
    with ([releasedAs deg epoch p] ++ (releasedAs deg epoch <$> ps)).
  destruct (releasedAs_fields deg epoch p) as (H1 & _ & H2 & _).
  by rewrite adjudicated_app, adjudicated_one, IH, H1.
Qed.

Lemma release_conserves t d :
  PendEvent <$> pending d ≡ₚ adjudicated (relOut t d) ++ (PendEvent <$> relPending t d).
Proof.
  destruct t as [now|]; simpl; [|done]. rewrite adjudicated_released, <- fmap_app.
  f_equiv. rewrite Permutation_app_comm. apply filter_perm.
Qed.

Lemma micro_conserves o L d d' :
  micro o L d d' ->
  (PendEvent <$> pending d) ++ lIn L
    ≡ₚ adjudicated (lOut L) ++ (PendEvent <$> pending d') ++ lFlushed L.
Proof.
  intros Hm. destruct Hm as [d d' Hf|now d Ht|d Ht|d d' a Hb He Ha Hp Hc Hd Hpl|fp now d Ht He Hn
    |fp now l1 p l2 d d' Ht He Ep Hp Hn Hf|e a d d' Hf <- Hpl Hd|e fp d d' Hc Hf|p d d' Hok Hc Hlen Hf];
    cbn [lIn lOut lFlushed]; rewrite ?app_nil_r; try done.
  - by rewrite (fr_pending _ _ Hf).
  - unfold adjudicated, isDiscontinuity. simpl. rewrite bool_decide_eq_true_2 by done. simpl.
    by rewrite Hp.
  - rewrite (fr_pending _ _ Hf), Ep, adjudicated_one by done. simpl.
    rewrite !fmap_app. simpl. by rewrite Permutation_middle.
  - rewrite (fr_pending _ _ Hf), adjudicated_one by done. apply Permutation_app_comm.
  - rewrite (fr_pending _ _ Hf), adjudicated_one by done.
    rewrite (proj1 (proj2 (proj2 (consume_rest (Hash fp) d)))). apply Permutation_app_comm.
  - rewrite (fr_pending _ _ Hf). simpl. by rewrite fmap_app.
Qed.

Lemma micros_conserve o L d d' :
  micros o L d d' ->
  (PendEvent <$> pending d) ++ lIn L
    ≡ₚ adjudicated (lOut L) ++ (PendEvent <$> pending d') ++ lFlushed L.
Proof.
  induction 1 as [d|L M d d1 d' Hm H IH]; [simpl; by rewrite !app_nil_r|].
  apply micro_conserves in Hm. simpl. rewrite adjudicated_app, app_assoc, Hm.
  rewrite <- !app_assoc, (Permutation_app_comm (lFlushed L)), (app_assoc (PendEvent <$> pending d1)), IH.
  solve_Permutation.
Qed.

(** Only a reset drops events, and it counts every one. *)
Lemma micros_flush o L d d' :
  micros o L d d' ->
  flushCount d' = Nat.iter (length (lFlushed L)) incrVar (flushCount d)
  /\ (Forall (fun a => isDiscontinuity a = false) (lOut L) -> lFlushed L = []).
Proof.
  induction 1 as [d|L M d d1 d' Hm H [IH1 IH2]]; [done|]. simpl.
  assert (flushCount d1 = Nat.iter (length (lFlushed L)) incrVar (flushCount d)
    /\ (Forall (fun a => isDiscontinuity a = false) (lOut L) -> lFlushed L = [])) as [H1 H2].
  { destruct Hm as [d d1 Hf|now d Ht|d Ht|d d1 a Hb He Ha Hp Hc Hd Hpl|fp now d Ht He Hn
    |fp now l1 p l2 d d1 Ht He Ep Hp Hn Hf|e a d d1 Hf|e fp d d1 Hc Hf|p d d1 Hok Hc Hlen Hf];
    cbn [lFlushed lOut length Nat.iter]; try (split; [|done]); try done.
    - apply (fr_flush _ _ Hf).
    - rewrite length_fmap. split; [done|]. intros Hall. apply Forall_cons in Hall as [Hall _].
      unfold isDiscontinuity in Hall. by rewrite bool_decide_eq_true_2 in Hall.
    - rewrite (fr_flush _ _ Hf).
      pose proof (consume_rest (Hash fp) (retainActive fp now d)) as (_ & _ & _ & _ & R & _). exact R.
    - apply (fr_flush _ _ Hf).
    - rewrite (fr_flush _ _ Hf). by pose proof (consume_rest (Hash fp) d) as (_ & _ & _ & _ & R & _).
    - apply (fr_flush _ _ Hf). }
  split.
  - rewrite IH1, H1, length_app, Nat.add_comm. symmetry. apply Nat.iter_add.
  - intros [Ha Hb]%Forall_app. by rewrite H2, IH2.
Qed.

Lemma released_plain t d : Forall (fun a => isDiscontinuity a = false) (relOut t d).
Proof.
  destruct t; simpl; [|constructor]. apply Forall_fmap, Forall_forall. intros p _. simpl.
  unfold isDiscontinuity. apply bool_decide_eq_false. apply releasedAs_fields.
Qed.

Lemma step_conserves o d :
  wf d ->
  exists flushed,
    (PendEvent <$> pending d) ++ opEvents o
      ≡ₚ adjudicated (snd (step o d)) ++ (PendEvent <$> pending (fst (step o d))) ++ flushed
    /\ flushCount (fst (step o d)) = Nat.iter (length flushed) incrVar (flushCount d)
    /\ (Forall (fun a => isDiscontinuity a = false) (snd (step o d)) -> flushed = []).
Proof.
  intros W. destruct (step_shape o d W) as (d1 & L & F & HM & Eo & Ei & _).
  pose proof (micros_conserve o L d1 _ HM) as Hc. destruct (micros_flush o L d1 _ HM) as [Hf Hn].
  rewrite (fr_pending _ _ F), Ei in Hc. rewrite (fr_flush _ _ F) in Hf.
  change (flushCount (Dedup.set_pending (relPending (opTime o) d) d)) with (flushCount d) in Hf.
  exists (lFlushed L). rewrite Eo. split; [|split; [done|]].
  - rewrite adjudicated_app, (release_conserves (opTime o)). simpl in Hc.
    rewrite <- !app_assoc. by rewrite Hc.
  - intros [_ H]%Forall_app. by apply Hn.
Qed.

(** [int64] counters. *)
Lemma iter_incrVar n x : - 2 ^ 63 <= x < 2 ^ 63 -> Nat.iter n incrVar x = i64 (x + Z.of_nat n).
Proof.
  intros Hx. induction n as [|n IH]; simpl.
  - unfold i64. rewrite Z.add_0_r, Z.mod_small by lia. lia.
  - rewrite IH. unfold incrVar, i64.
    replace ((x + Z.of_nat n + 2 ^ 63) mod 2 ^ 64 - 2 ^ 63 + 1 + 2 ^ 63)
      with ((x + Z.of_nat n + 2 ^ 63) mod 2 ^ 64 + 1) by lia.
    rewrite Zplus_mod_idemp_l. do 2 f_equal. lia.
Qed.

Lemma dedup_steps_conserve os d :
  wf d ->
  exists flushed,
    (PendEvent <$> pending d) ++ concat (opEvents <$> os)
      ≡ₚ adjudicated (snd (steps os d)) ++ (PendEvent <$> pending (fst (steps os d))) ++ flushed
    /\ flushCount (fst (steps os d)) = Nat.iter (length flushed) incrVar (flushCount d)
    /\ (Forall (fun a => isDiscontinuity a = false) (snd (steps os d)) -> flushed = []).
Proof.
  revert d. induction os as [|o os IH]; intros d W; [exists []; simpl; by rewrite !app_nil_r|].
  destruct (step_conserves o d W) as (f1 & H1 & C1 & N1).
  destruct (IH _ (wf_step o d W)) as (f2 & H2 & C2 & N2).
  exists (f1 ++ f2). rewrite dedup_steps_cons. cbn [fst snd fmap list_fmap concat]. split; [|split].
  - rewrite app_assoc, H1, adjudicated_app, <- !app_assoc.
    rewrite (Permutation_app_comm f1), (app_assoc (PendEvent <$> _) (concat _)), H2. solve_Permutation.
  - rewrite C2, C1, length_app, Nat.add_comm. symmetry. apply Nat.iter_add.
  - intros [Ha Hb]%Forall_app. by rewrite N1, N2.
Qed.

(** C4: No passive event is lost or adjudicated twice.  Over any run from a
    fresh deduplicator, the transactions that came in are, as a multiset, the
    ones adjudicated by the outputs, the ones still pending and the ones
    dropped by epoch resets; the counter of resets drops counts exactly the
    latter, and without a discontinuity in the outputs there are none. *)
Theorem passive_events_conserved env cfg fl obs snap m d0 os :
  NewActivePassiveDeduplicator env cfg fl obs snap m = Some d0 ->
  - 2 ^ 63 <= flushCount d0 < 2 ^ 63 ->
  exists flushed,
    concat (opEvents <$> os)
      ≡ₚ adjudicated (snd (steps os d0)) ++ (PendEvent <$> pending (fst (steps os d0))) ++ flushed
    /\ flushCount (fst (steps os d0)) = i64 (flushCount d0 + len flushed)
    /\ (Forall (fun a => isDiscontinuity a = false) (snd (steps os d0)) -> flushed = []).
Proof.
  intros Hnew Hr. pose proof (wf_new _ _ _ _ _ _ _ Hnew) as W.
  destruct (dedup_steps_conserve os d0 W) as (flushed & H1 & H2 & H3). exists flushed.
  rewrite iter_incrVar in H2 by done. split; [|done].
  rewrite <- H1. destruct (new_state _ _ _ _ _ _ _ Hnew) as [-> _]. done.
Qed.

Lemma micro_budgets o L d d' : micro o L d d' -> budgets d' = budgets d.
Proof.
  intros Hm. destruct Hm as [d d' Hf|now d Ht|d Ht|d d' a Hb He Ha Hp Hc Hd Hpl|fp now d Ht He Hn
    |fp now l1 p l2 d d' Ht He Ep Hp Hn Hf|e a d d' Hf|e fp d d' Hc Hf|p d d' Hok Hc Hlen Hf]; try done;
    rewrite (fr_budgets _ _ Hf); try done.
  - apply (consume_rest (Hash fp) (retainActive fp now d)).
  - apply consume_rest.
Qed.

Lemma step_budgets o d : wf d -> budgets (fst (step o d)) = budgets d.
Proof.
  intros W. destruct (step_shape o d W) as (d1 & L & F & HM & _).
  assert (budgets (fst (step o d)) = budgets d1) as ->; [|apply (fr_budgets _ _ F)].
  clear F. induction HM as [|L M d1 d2 d3 Hm HM IH]; [done|].
  by rewrite IH, (micro_budgets _ _ _ _ Hm).
Qed.

Lemma steps_budgets os d : wf d -> budgets (fst (steps os d)) = budgets d.
Proof.
  revert d. induction os as [|o os IH]; intros d W; [done|]. rewrite dedup_steps_cons. cbn [fst].
  by rewrite IH, step_budgets by auto using wf_step.
Qed.

(** The invariant of the deduplicator, after any run from a fresh one:
    never more entries pending than the capacity; every pending entry is a
    successful transaction of the current epoch, released exactly one grace
    period after it came in; every retained active fingerprint is of the
    current epoch, stored under its own hash and with at least one copy
    left; and no hash is both pending and retained. *)
Theorem dedup_invariant env cfg fl obs snap m d0 os :
  NewActivePassiveDeduplicator env cfg fl obs snap m = Some d0 ->
  let d := fst (steps os d0) in
  budgets d = budgets d0 /\ len (pending d) <= PendingCapacity (budgets d0)
  /\ Forall (pending_ok d) (pending d)
  /\ map_Forall (retained_ok (currentEpoch d)) (active d)
  /\ (forall p, p ∈ pending d -> active d !! pendHash p = None).
Proof.
  intros Hnew d. pose proof (wf_new _ _ _ _ _ _ _ Hnew) as W.
  destruct (new_state _ _ _ _ _ _ _ Hnew) as (_ & _ & _ & _ & _ & Hcap).
  pose proof (steps_budgets os d0 W) as Hb. fold d in Hb.
  destruct (wf_steps os d0 W) as [W1 W2 W3 W4]. fold d in W1, W2, W3, W4.
  rewrite Hb in W2. unfold defaultDedupPendingCapacity in Hcap.
  split; [done|]. split; [lia|]. done.
Qed.

End Run.

(** ** A concrete run *)

(** The identity as digest. *)
Definition demo_digest : Digest := {| Sum256 := fun l => l |}.
Definition demo_envelope : BusRetryEnvelope := mkEnvelope (mkRetry 1 1) (mkRetry 0 0) 2.
Definition no_budgets : dedupTimingBudgets := mkBudgets 0 0 0 0 0 0 0 0.
Definition no_metrics : metrics := mkMetrics "" 0 0 ∅ ∅ ∅ 0.
Definition demo_new : option dedup :=
  NewActivePassiveDeduplicator demo_envelope no_budgets None None None no_metrics.
Definition demo_dedup : dedup :=
  default (mkDedup no_budgets None None 0 false zeroRecovery (mkLocal 0 false 0) ∅ [] no_metrics) demo_new.

(** A read of the gateway at 0x71, its copy on the wire, and the copy of a
    read of another initiator. *)
Definition demo_answer (f : Frame) : Frame :=
  mkFrame (Target f) (Source f) (Primary f) (Secondary f) [0x01; 0x03; 0x00; 0x16; 0x2A].
Definition demo_passive (f : Frame) (t : time) : PassiveClassifiedEvent :=
  mkEvent PassiveClassifiedEventTransaction FrameTypeInitiatorTarget f (demo_answer f) true true
    zeroTiming t PassiveAbandonReasonNone PassiveDiscontinuityNone noAck None "" 0 false.
Definition demo_active (f : Frame) : BusEvent :=
  mkBusEvent BusEventAttemptComplete true FrameTypeInitiatorTarget f (demo_answer f) true true.
Definition demo_other : Frame := mkFrame 0x10 0x15 0xB5 0x24 (Data demo_read).

(** The gateway reads, both copies are seen, a tick comes after the grace
    period, and the tap reconnects with one entry pending. *)
Definition demo_ops : list op :=
  [ OpBus (demo_active demo_read) 1000;
    OpPassive (demo_passive demo_read 2000) 0;
    OpPassive (demo_passive demo_other 3000) 0;
    OpTick (10000 * millisecond);
    OpPassive (demo_passive demo_other (11000 * millisecond)) 0;
    OpCriticalReset (12000 * millisecond) PassiveDiscontinuityCriticalSubscriberFault "test" ].

Example demo_run :
  Disposition <$> snd (steps (P := demo_protocol) (D := demo_digest) demo_ops demo_dedup) =
  [DedupDispositionMatchedActiveCopy; DedupDispositionObservabilityOnly; DedupDispositionDiscontinuity].
Proof. vm_compute. reflexivity. Qed.

Lemma demo_new_ok :
  NewActivePassiveDeduplicator demo_envelope no_budgets None None None no_metrics = Some demo_dedup.
Proof. vm_compute. reflexivity. Qed.

Lemma passive_events_conserved_witness :
  let r := steps (P := demo_protocol) (D := demo_digest) demo_ops demo_dedup in
  exists flushed,
    concat (opEvents <$> demo_ops) ≡ₚ adjudicated (snd r) ++ (PendEvent <$> pending (fst r)) ++ flushed
    /\ flushCount (fst r) = i64 (flushCount demo_dedup + len flushed)
    /\ (Forall (fun a => isDiscontinuity a = false) (snd r) -> flushed = []).
Proof.
  assert (- 2 ^ 63 <= flushCount demo_dedup < 2 ^ 63) as Hr
    by (vm_compute; split; [discriminate|reflexivity]).
  exact (passive_events_conserved (P := demo_protocol) (D := demo_digest)
           _ _ _ _ _ _ demo_dedup demo_ops demo_new_ok Hr).
Defined.

Lemma dedup_invariant_witness :
  let d := fst (steps (P := demo_protocol) (D := demo_digest) (take 5 demo_ops) demo_dedup) in
  length (pending d) = 1%nat /\ len (pending d) <= PendingCapacity (budgets demo_dedup).
Proof.
  split; [vm_compute; reflexivity|].
  exact (proj1 (proj2 (dedup_invariant (P := demo_protocol) (D := demo_digest)
           _ _ _ _ _ _ demo_dedup (take 5 demo_ops) demo_new_ok))).
Defined.

End DedupInv.
