(* ===== verification/DedupMatch.v ===== *)
(** * What the deduplicator decides

    Soundness of the matching (never more duplicates than active
    successes), exactness of the third-party outputs, and recognition of
    duplicates whichever copy comes first. *)

From Stdlib Require Import Ascii String.
From S2P Require Import Prelude Ebus Reconstructor WatchCatalog FamilyPolicy Dedup DedupInv.

Local Open Scope Z_scope.

Module DedupMatch.
Import Reconstructor WatchCatalog FamilyPolicy Dedup DedupInv.

(** ** Counting matches *)

(** The output is a match of the identity [h]. *)
Definition isMatchOf (h : list byte) (a : AdjudicatedPassiveEvent) : bool :=
  MatchedActiveDuplicate a && bool_decide (Hash <$> AdjFingerprint a = Some h).
Definition matchedCount (h : list byte) (outs : list AdjudicatedPassiveEvent) : Z :=
  Z.of_nat (countb (isMatchOf h) outs).
Definition successCount (h : list byte) (hs : list (list byte)) : Z :=
  Z.of_nat (countb (fun x => bool_decide (x = h)) hs).
(** The copies of [h] still owed a passive event. *)
Definition retainedCount (h : list byte) (d : dedup) : Z :=
  default 0 (Count <$> active d !! h).

Lemma matchedCount_app h a b : matchedCount h (a ++ b) = matchedCount h a + matchedCount h b.
Proof. unfold matchedCount. rewrite countb_app. lia. Qed.
Lemma successCount_app h a b : successCount h (a ++ b) = successCount h a + successCount h b.
Proof. unfold successCount. rewrite countb_app. lia. Qed.

Lemma matchedCount_plain h a : plain a -> matchedCount h [a] = 0.
Proof. intros [H _]. unfold matchedCount, countb, isMatchOf. simpl. by rewrite H. Qed.

Lemma matchedCount_match h e fp epoch :
  matchedCount h [adjudicateMatchedActiveDuplicate e fp epoch]
  = if bool_decide (Hash fp = h) then 1 else 0.
Proof.
  unfold matchedCount, countb, isMatchOf. simpl.
  destruct (decide (Hash fp = h)) as [->|Hne].
  - by rewrite !bool_decide_eq_true_2.
  - rewrite !bool_decide_eq_false_2; [done|done|]. by intros [= ?].
Qed.

Lemma successCount_one h x : successCount h [x] = if bool_decide (x = h) then 1 else 0.
Proof. unfold successCount, countb. simpl. by case_bool_decide. Qed.

Lemma matchedCount_released h t d : matchedCount h (relOut t d) = 0.
Proof.
  unfold matchedCount, countb. destruct t; simpl; [|done]. rewrite filter_nil; [done|].
  intros a (p & -> & _)%list_elem_of_fmap. unfold isMatchOf.
  by destruct (releasedAs_fields (degraded d) (currentEpoch d) p) as (_ & _ & _ & -> & _).
Qed.

Lemma retainedCount_frame h d d' : frame d d' -> retainedCount h d' = retainedCount h d.
Proof. intros F. unfold retainedCount. by rewrite (fr_active _ _ F). Qed.

Lemma retainedCount_nonneg h d : wf d -> 0 <= retainedCount h d.
Proof.
  intros W. unfold retainedCount. destruct (active d !! h) as [r|] eqn:E; simpl; [|lia].
  destruct (wf_active d W h r E). lia.
Qed.

Lemma retainedCount_consume h k d :
  map_Forall (retained_ok (currentEpoch d)) (active d) ->
  retainedCount h (fst (consumeActiveLocked k d))
  = if snd (consumeActiveLocked k d) && bool_decide (k = h)
    then retainedCount h d - 1 else retainedCount h d.
Proof.
  intros W. unfold retainedCount. destruct (decide (k = h)) as [->|Hne].
  2: { rewrite bool_decide_eq_false_2, andb_false_r by done. by rewrite consume_lookup_ne. }
  rewrite bool_decide_eq_true_2, andb_true_r by done.
  destruct (consume_spec h d W) as [[E ->]|(r & E & -> & ->)]; simpl; [done|]. rewrite E. simpl.
  destruct (Count r =? 1) eqn:E1.
  - bool_facts. rewrite lookup_delete_eq. simpl. lia.
  - by rewrite lookup_insert_eq.
Qed.

Lemma retainedCount_retain h fp now d :
  retainedCount h (retainActive fp now d)
  = retainedCount h d + (if bool_decide (Hash fp = h) then 1 else 0).
Proof.
  unfold retainedCount. destruct (decide (Hash fp = h)) as [<-|Hne].
  - rewrite bool_decide_eq_true_2 by done. unfold retainActive. simpl.
    destruct (active d !! Hash fp); simpl; by rewrite lookup_insert_eq.
  - rewrite bool_decide_eq_false_2, retain_lookup_ne by done. lia.
Qed.

(** Recording a success leaves it to be consumed. *)
Lemma retain_consumable fp now d :
  FpEpoch fp = currentEpoch d -> map_Forall (retained_ok (currentEpoch d)) (active d) ->
  snd (consumeActiveLocked (Hash fp) (retainActive fp now d)) = true.
Proof.
  intros He W. pose proof (retain_active_ok fp now d He W) as W'.
  destruct (consume_spec (Hash fp) (retainActive fp now d) W') as [[E _]|(r & _ & -> & _)]; [|done].
  unfold retainActive in E. simpl in E. destruct (active d !! Hash fp); by rewrite lookup_insert_eq in E.
Qed.

(** Each transition pays for its matches with the copies it had. *)
Lemma micro_matches o L d d' h :
  micro o L d d' -> wf d ->
  matchedCount h (lOut L) + retainedCount h d' <= retainedCount h d + successCount h (lActive L).
Proof.
  intros Hm W. pose proof (retainedCount_nonneg h d W) as H0. pose proof (wf_active d W) as Wa.
  destruct Hm as [d d' Hf|now d Ht|d Ht|d d' a Hb He Ha Hp Hc Hd Hpl|fp now d Ht He Hn
    |fp now l1 p l2 d d' Ht He Ep Hp Hn Hf|e a d d' Hf Hev Hpl Hd|e fp d d' Hc Hf|p d d' Hok Hc Hlen Hf];
    cbn [lOut lActive silent]; rewrite ?matchedCount_match, ?successCount_one;
    change (matchedCount h []) with 0; change (successCount h []) with 0.
  - rewrite (retainedCount_frame h _ _ Hf). lia.
  - assert (retainedCount h (pruneActiveLocked now d) <= retainedCount h d); [|lia].
    unfold retainedCount in *. simpl. rewrite map_lookup_filter.
    destruct (active d !! h); simpl in *; [|lia]. case_guard; simpl; lia.
  - unfold retainedCount at 1. simpl. rewrite lookup_empty. simpl. lia.
  - rewrite (matchedCount_plain h a Hpl). unfold retainedCount at 1. rewrite Ha, lookup_empty. simpl. lia.
  - rewrite retainedCount_retain. lia.
  - rewrite (retainedCount_frame h _ _ Hf).
    change (retainedCount h (Dedup.set_pending (l1 ++ l2) ?x)) with (retainedCount h x).
    rewrite retainedCount_consume by exact (retain_active_ok fp now d He Wa).
    rewrite retain_consumable, retainedCount_retain by done. unfold pendHash in Hp. rewrite Hp.
    case_bool_decide; simpl; lia.
  - rewrite (matchedCount_plain h a Hpl), (retainedCount_frame h _ _ Hf). lia.
  - rewrite (retainedCount_frame h _ _ Hf), retainedCount_consume, Hc by done.
    case_bool_decide; simpl; lia.
  - rewrite (retainedCount_frame h _ _ Hf). change (retainedCount h (Dedup.set_pending ?l d)) with (retainedCount h d). lia.
Qed.

Lemma micros_matches o L d d' h :
  micros o L d d' -> wf d ->
  matchedCount h (lOut L) + retainedCount h d' <= retainedCount h d + successCount h (lActive L).
Proof.
  induction 1 as [d|L M d d1 d' Hm H IH]; intros W; [unfold matchedCount, successCount, countb; simpl; lia|].
  pose proof (micro_matches o L d d1 h Hm W). specialize (IH (wf_micro o L d d1 Hm W)).
  simpl. rewrite matchedCount_app, successCount_app. lia.
Qed.

Section Run.
Context {P : EbusProtocol} {D : Digest}.

Lemma step_matches o d h :
  wf d ->
  matchedCount h (snd (step o d)) + retainedCount h (fst (step o d))
  <= retainedCount h d + successCount h (opActives o).
Proof.
  intros W. destruct (step_shape o d W) as (d1 & L & F & HM & -> & _ & <-).
  assert (wf d1) as W1 by (eapply wf_frame; [exact F|by apply wf_released]).
  pose proof (micros_matches o L d1 _ h HM W1) as H.
  rewrite matchedCount_app, matchedCount_released. rewrite (retainedCount_frame h _ _ F) in H.
  exact H.
Qed.

Lemma steps_matches os d h :
  wf d ->
  matchedCount h (snd (steps os d)) + retainedCount h (fst (steps os d))
  <= retainedCount h d + successCount h (concat (opActives <$> os)).
Proof.
  revert d. induction os as [|o os IH]; intros d W; [unfold matchedCount, successCount, countb; simpl; lia|].
  rewrite dedup_steps_cons. cbn [fst snd fmap list_fmap concat].
  rewrite matchedCount_app, successCount_app.
  pose proof (step_matches o d h W). specialize (IH _ (wf_step o d W)). lia.
Qed.

(** C33: A passive event is called a duplicate only against an active
    success of its own.  In any part of a run of a fresh deduplicator, and
    for every transaction identity, the matches put out plus the copies
    still retained never exceed the copies retained at the start plus the
    active successes recorded; over the whole run, the matches never exceed
    the active successes. *)
Theorem matches_bounded env cfg fl obs snap m d0 os1 os2 h :
  NewActivePassiveDeduplicator env cfg fl obs snap m = Some d0 ->
  let d := fst (steps os1 d0) in
  matchedCount h (snd (steps os2 d)) + retainedCount h (fst (steps os2 d))
    <= retainedCount h d + successCount h (concat (opActives <$> os2))
  /\ matchedCount h (snd (steps os1 d0)) <= successCount h (concat (opActives <$> os1)).
Proof.
  intros Hnew d. pose proof (wf_new _ _ _ _ _ _ _ Hnew) as W. split.
  - apply steps_matches. by apply wf_steps.
  - pose proof (steps_matches os1 d0 h W) as H.
    pose proof (retainedCount_nonneg h _ (wf_steps os1 d0 W)).
    destruct (new_state _ _ _ _ _ _ _ Hnew) as (_ & Ha & _).
    unfold retainedCount at 2 in H. rewrite Ha, lookup_empty in H. simpl in H. lia.
Qed.

(** ** Third-party traffic *)

Lemma micros_third_party o L d d' :
  micros o L d d' -> Forall (fun a => ThirdPartyEligible a = false) (lOut L).
Proof.
  induction 1 as [d|L M d d1 d' Hm H IH]; [constructor|]. simpl. apply Forall_app. split; [|done].
  destruct Hm as [d2 d3 Hf|now d2 Ht|d2 Ht|d2 d3 a Hb He Ha Hp Hc Hd Hpl|fp now d2 Ht He Hn
    |fp now l1 p l2 d2 d3 Ht He Ep Hp Hn Hf|e a d2 d3 Hf Hev Hpl Hd|e fp d2 d3 Hc Hf|p d2 d3 Hok Hc Hlen Hf];
    simpl; repeat constructor; try (by destruct Hpl).
Qed.

(** The entries an operation at [now] surfaces as third-party traffic. *)
Definition surfaced (now : time) (d : dedup) : list pendingPassiveFingerprint :=
  List.filter (fun p => (ReleaseAt p <=? now)
    && dedupFamilyPolicyAllowsRuntimeThirdParty (FpFamilyPolicy (PendFingerprint p))) (pending d).

Lemma filter_released now d :
  List.filter ThirdPartyEligible (relOut (Some now) d)
  = if degraded d then []
    else (fun p => adjudicateUnmatchedThirdParty (PendEvent p) (PendFingerprint p) (currentEpoch d))
         <$> surfaced now d.
Proof.
  unfold relOut, surfaced. induction (pending d) as [|p ps IH]; [simpl; by destruct (degraded d)|].
  cbn [List.filter]. unfold expired at 1, unexpired at 1. rewrite Z.leb_antisym.
  destruct (now <? ReleaseAt p); cbn [negb andb]; [exact IH|].
  cbn [fmap list_fmap List.filter].
  destruct (releasedAs_fields (degraded d) (currentEpoch d) p) as (_ & _ & _ & _ & ->).
  unfold releasedAs in *. destruct (degraded d); cbn [negb andb orb]; [exact IH|].
  destruct (dedupFamilyPolicyAllowsRuntimeThirdParty _); cbn [negb]; [|exact IH].
  cbn [fmap list_fmap]. by f_equal.
Qed.

(** Third-party traffic is surfaced exactly when it should be.  In any
    reachable state, the outputs of an operation that are marked eligible
    are, in order, one for each pending entry whose grace period has passed
    and whose family policy allows it, and none while the deduplicator is
    degraded or when the operation reads no clock; each such entry waited a
    full grace period and had no active copy retained. *)
Theorem third_party_exact env cfg fl obs snap m d0 os o :
  NewActivePassiveDeduplicator env cfg fl obs snap m = Some d0 ->
  let d := fst (steps os d0) in
  List.filter ThirdPartyEligible (snd (step o d))
  = match opTime o with
    | Some now =>
        if degraded d then []
        else (fun p => adjudicateUnmatchedThirdParty (PendEvent p) (PendFingerprint p) (currentEpoch d))
             <$> surfaced now d
    | None => []
    end
  /\ forall now p, p ∈ surfaced now d ->
       InsertedAt p + PendingGraceTimeout (budgets d0) <= now /\ active d !! pendHash p = None
       /\ FpEpoch (PendFingerprint p) = currentEpoch d.
Proof.
  intros Hnew d. pose proof (wf_new _ _ _ _ _ _ _ Hnew) as W0.
  assert (wf d) as W by (by apply wf_steps). split.
  - destruct (step_shape o d W) as (d1 & L & F & HM & -> & _).
    rewrite List.filter_app. rewrite (filter_nil _ (lOut L)), app_nil_r.
    2: { intros a Ha. apply micros_third_party in HM. rewrite Forall_forall in HM. by apply HM. }
    destruct (opTime o) as [now|]; [apply filter_released|done].
  - intros now p [Hp H]%elem_of_filterb. apply andb_true_iff in H as [H _]. bool_facts.
    destruct W as [W1 _ _ W4]. rewrite Forall_forall in W1. destruct (W1 p Hp) as [[_ He] _ _ Hr].
    rewrite <- (steps_budgets os d0 W0). fold d. split; [lia|]. split; [by apply W4|done].
Qed.

(** ** Recognising duplicates *)

Definition noReset (outs : list AdjudicatedPassiveEvent) : Prop :=
  Forall (fun a => isDiscontinuity a = false) outs.

Lemma matchedCount_split h a b :
  matchedCount h (a ++ b) = 0 -> matchedCount h a = 0 /\ matchedCount h b = 0.
Proof. rewrite matchedCount_app. unfold matchedCount. lia. Qed.

Lemma noReset_one a : Disposition a = DedupDispositionDiscontinuity -> ~ noReset [a].
Proof.
  intros Hd H. apply Forall_cons in H as [H _]. unfold isDiscontinuity in H.
  by rewrite bool_decide_eq_true_2 in H.
Qed.

(** A retained fingerprint stays until it expires, is matched or the
    epoch ends. *)
Lemma micro_keeps_active o L d d' h r :
  micro o L d d' -> active d !! h = Some r ->
  (forall t, opTime o = Some t -> t < ExpiresAt r) -> isFault o = false -> h ∉ lActive L ->
  noReset (lOut L) -> matchedCount h (lOut L) = 0 -> active d' !! h = Some r.
Proof.
  intros Hm Hr Ht Hfault Hact Hres Hmatch.
  destruct Hm as [d d' Hf|now d Ht'|d Ht'|d d' a Hb He Ha Hp Hc Hd Hpl|fp now d Ht' He Hn
    |fp now l1 p l2 d d' Ht' He Ep Hp Hn Hf|e a d d' Hf Hev Hpl Hd|e fp d d' Hc Hf|p d d' Hok Hc Hlen Hf];
    cbn [lOut lActive silent] in *.
  - by rewrite (fr_active _ _ Hf).
  - simpl. apply map_lookup_filter_Some. auto.
  - congruence.
  - by apply noReset_one in Hres.
  - rewrite retain_lookup_ne; [done|]. set_solver.
  - rewrite (fr_active _ _ Hf). simpl. rewrite consume_lookup_ne, retain_lookup_ne; [done|set_solver..].
  - by rewrite (fr_active _ _ Hf).
  - rewrite (fr_active _ _ Hf), consume_lookup_ne; [done|]. intros Eq.
    rewrite matchedCount_match, bool_decide_eq_true_2 in Hmatch; done.
  - by rewrite (fr_active _ _ Hf).
Qed.

Lemma micros_keep_active o L d d' h r :
  micros o L d d' -> active d !! h = Some r ->
  (forall t, opTime o = Some t -> t < ExpiresAt r) -> isFault o = false -> h ∉ lActive L ->
  noReset (lOut L) -> matchedCount h (lOut L) = 0 -> active d' !! h = Some r.
Proof.
  induction 1 as [d|L M d d1 d' Hm H IH]; intros Hr Ht Hfault Hact Hres Hmatch; [done|].
  simpl in *. apply Forall_app in Hres as [R1 R2]. apply matchedCount_split in Hmatch as [M1 M2].
  apply not_elem_of_app in Hact as [A1 A2].
  apply IH; try done. by eapply micro_keeps_active.
Qed.

(** A pending entry stays until it expires, is matched or the epoch ends. *)
Lemma micro_keeps_pending o L d d' p :
  micro o L d d' -> p ∈ pending d -> noReset (lOut L) ->
  matchedCount (pendHash p) (lOut L) = 0 -> p ∈ pending d'.
Proof.
  intros Hm Hp Hres Hmatch.
  destruct Hm as [d d' Hf|now d Ht'|d Ht'|d d' a Hb He Ha Hp' Hc Hd Hpl|fp now d Ht' He Hn
    |fp now l1 q l2 d d' Ht' He Ep Hq Hn Hf|e a d d' Hf Hev Hpl Hd|e fp d d' Hc Hf|q d d' Hok Hc Hlen Hf];
    cbn [lOut lActive silent] in *; try done; try rewrite (fr_pending _ _ Hf); try done.
  - by apply noReset_one in Hres.
  - simpl. rewrite Ep in Hp. rewrite matchedCount_match in Hmatch.
    case_bool_decide as Hne; [done|]. apply elem_of_app in Hp as [Hp|Hp]; [set_solver|].
    apply elem_of_cons in Hp as [->|Hp]; [done|set_solver].
  - by rewrite (proj1 (proj2 (proj2 (consume_rest (Hash fp) d)))).
  - simpl. set_solver.
Qed.

Lemma micros_keep_pending o L d d' p :
  micros o L d d' -> p ∈ pending d -> noReset (lOut L) ->
  matchedCount (pendHash p) (lOut L) = 0 -> p ∈ pending d'.
Proof.
  induction 1 as [d|L M d d1 d' Hm H IH]; intros Hp Hres Hmatch; [done|].
  simpl in *. apply Forall_app in Hres as [R1 R2]. apply matchedCount_split in Hmatch as [M1 M2].
  apply IH; try done. by eapply micro_keeps_pending.
Qed.

(** An operation that leaves the identity [h] alone until [limit]. *)
Definition quiet (h : list byte) (limit : time) (o : op) : Prop :=
  (forall t, opTime o = Some t -> t < limit) /\ isFault o = false /\ h ∉ opActives o.

Lemma steps_keep_active os d h r :
  wf d -> active d !! h = Some r -> Forall (quiet h (ExpiresAt r)) os ->
  noReset (snd (steps os d)) -> matchedCount h (snd (steps os d)) = 0 ->
  active (fst (steps os d)) !! h = Some r.
Proof.
  revert d. induction os as [|o os IH]; intros d W Hr Hq Hres Hmatch; [done|].
  apply Forall_cons in Hq as [(Ht & Hf & Ha) Hq]. rewrite dedup_steps_cons in *. cbn [fst snd] in *.
  apply Forall_app in Hres as [R1 R2]. apply matchedCount_split in Hmatch as [M1 M2].
  apply IH; try done; [by apply wf_step|].
  destruct (step_shape o d W) as (d1 & L & F & HM & Eo & _ & EA). rewrite Eo in R1, M1.
  apply Forall_app in R1 as [_ R1]. apply matchedCount_split in M1 as [_ M1].
  rewrite <- EA in Ha. eapply micros_keep_active; try done. by rewrite (fr_active _ _ F).
Qed.

Lemma steps_keep_pending os d p :
  wf d -> p ∈ pending d -> Forall (fun o => forall t, opTime o = Some t -> t < ReleaseAt p) os ->
  noReset (snd (steps os d)) -> matchedCount (pendHash p) (snd (steps os d)) = 0 ->
  p ∈ pending (fst (steps os d)).
Proof.
  revert d. induction os as [|o os IH]; intros d W Hp Hq Hres Hmatch; [done|].
  apply Forall_cons in Hq as [Ht Hq]. rewrite dedup_steps_cons in *. cbn [fst snd] in *.
  apply Forall_app in Hres as [R1 R2]. apply matchedCount_split in Hmatch as [M1 M2].
  apply IH; try done; [by apply wf_step|].
  destruct (step_shape o d W) as (d1 & L & F & HM & Eo & _ & _). rewrite Eo in R1, M1.
  apply Forall_app in R1 as [_ R1]. apply matchedCount_split in M1 as [_ M1].
  eapply micros_keep_pending; try done. rewrite (fr_pending _ _ F). simpl.
  destruct (opTime o) as [now|]; simpl; [|done]. apply elem_of_filterb. split; [done|].
  unfold unexpired. apply Z.ltb_lt. by apply Ht.
Qed.

(** The identity under which a passive event may match, if it may. *)
Definition passiveIdentity (e : PassiveClassifiedEvent) (now : time) (d : dedup) : option (list byte) :=
  let '(fp, eligible, _) := buildPassiveFingerprintLocked e now d in
  if eligible then Some (Hash fp) else None.

Lemma passiveIdentity_local e now d d' :
  localAddr d' = localAddr d -> passiveIdentity e now d' = passiveIdentity e now d.
Proof.
  intros E. unfold passiveIdentity, buildPassiveFingerprintLocked.
  assert (passiveTransactionClassLocked e d' = passiveTransactionClassLocked e d) as ->
    by (unfold passiveTransactionClassLocked; by rewrite E).
  rewrite E. destruct (passiveTransactionClassLocked e d); try done; simpl.
  all: try (destruct (negb (Known _)); [done|]). all: by destruct (negb _).
Qed.

(** The event as the handler sees it, and when. *)
Definition seenAt (e : PassiveClassifiedEvent) (clock : time) : time :=
  if IsZero (EvObservedAt e) then clock else EvObservedAt e.
Definition seen (e : PassiveClassifiedEvent) (clock : time) : PassiveClassifiedEvent :=
  set_ObservedAt (seenAt e clock) e.

Lemma passive_step_matches e clock d h r :
  wf d -> isTransaction (EvKind e) = true ->
  passiveIdentity (seen e clock) (seenAt e clock) d = Some h ->
  active d !! h = Some r -> seenAt e clock < ExpiresAt r ->
  exists a, a ∈ snd (step (OpPassive e clock) d) /\ isMatchOf h a = true
    /\ AdjEvent a = seen e clock /\ SuppressShadow a = true.
Proof.
  intros W Hk Hid Hr Hlt. cbn [step]. unfold OnPassiveClassifiedEvent.
  fold (seenAt e clock). fold (seen e clock). unfold handlePassiveEvent.
  destruct (releaseExpired_spec (seenAt e clock) d) as (d1 & -> & S & _).
  set (d2 := pruneActiveLocked (seenAt e clock) d1).
  rewrite <- (passiveIdentity_local _ _ d d2) in Hid by (apply (same_local _ _ S)).
  set (outs := _ <$> _). clearbody outs.
  change (EvKind (seen e clock)) with (EvKind e).
  replace (match EvKind e with PassiveClassifiedEventBroadcastFrame => _ | _ => _ end)
    with (handleTransactionEvent (seen e clock) (seenAt e clock) d2 outs) by (by destruct (EvKind e)).
  unfold handleTransactionEvent. unfold passiveIdentity in Hid.
  destruct (buildPassiveFingerprintLocked (seen e clock) (seenAt e clock) d2) as [[fp eligible] disp].
  destruct eligible; [|done]. apply (inj Some) in Hid as <-. cbn [negb].
  assert (active d2 !! Hash fp = Some r) as Hr2.
  { simpl. apply map_lookup_filter_Some. split; [|done]. by rewrite (same_active _ _ S). }
  destruct (wf_active d W _ _ Hr) as [Hcount _ _].
  assert (snd (consumeActiveLocked (Hash fp) d2) = true) as Hc.
  { unfold consumeActiveLocked. rewrite Hr2, (proj2 (Z.leb_gt _ _)) by lia. by destruct (Count r =? 1). }
  destruct (consumeActiveLocked (Hash fp) d2) as [d3 c]. simpl in Hc. subst c. cbn [snd].
  eexists. split; [apply elem_of_app; right; by apply list_elem_of_singleton|].
  split; [|done]. unfold isMatchOf. simpl. by rewrite bool_decide_eq_true_2.
Qed.

Lemma noteLocalAddress_quiet source now d outs :
  noReset (snd (noteLocalAddress source now d outs)) ->
  frame d (fst (noteLocalAddress source now d outs))
  /\ snd (noteLocalAddress source now d outs) = outs.
Proof.
  unfold noteLocalAddress. pose proof (frame_local source d) as F.
  destruct (updateLocalAddressLocked source d) as [d1 changed]. cbn [fst] in F.
  destruct changed; [|done].
  destruct (reset_micro (OpTick now) now PassiveDiscontinuityTransportReset "local_address_epoch" d1)
    as (a & Ea & Hd & _).
  destruct (makeDiscontinuityLocked now _ _ d1) as [d2 out]. simpl in *. subst out.
  intros [_ H]%Forall_app. by apply noReset_one in H.
Qed.

(** An active success without a reset: released and pruned, the state is
    the one [recordActive] works on. *)
Lemma active_step_shape b now d h :
  opActives (OpBus b now) = [h] -> noReset (snd (step (OpBus b now) d)) ->
  exists d3 fp, Hash fp = h /\ FpEpoch fp = currentEpoch d3
    /\ budgets d3 = budgets d /\ currentEpoch d3 = currentEpoch d
    /\ pending d3 = relPending (Some now) d
    /\ active d3 = filter (fun kv => now < ExpiresAt kv.2) (active d)
    /\ step (OpBus b now) d
       = (recordRecoveryEvidenceLocked now (fst (matchPendingLocked fp now (retainActive fp now d3))),
          relOut (Some now) d ++ snd (matchPendingLocked fp now (retainActive fp now d3))).
Proof.
  cbn [opActives step]. intros Ho. unfold handleBusEvent.
  destruct (BusKind b); try done.
  destruct (BusOutcomeSuccess b); [|done]. destruct (BusHasRequest b); [|done]. cbn [negb orb andb] in *.
  destruct (release_frame now d) as (d1 & -> & F1). set (d2 := pruneActiveLocked now d1).
  destruct (noteLocalAddress (Source (BusRequest b)) now d2 (relOut (Some now) d)) as [d3 outs3] eqn:En.
  intros Hres.
  assert (noReset outs3) as Hr3.
  { revert Hres. unfold recordActive. destruct (buildActiveFingerprint _ _ _ _ _); simpl; [|done].
    destruct (matchPendingLocked _ _ _). simpl. by intros [? _]%Forall_app. }
  pose proof (noteLocalAddress_quiet (Source (BusRequest b)) now d2 (relOut (Some now) d)) as Hq.
  rewrite En in Hq. cbn [fst snd] in Hq. destruct (Hq Hr3) as [F3 ->].
  rewrite (buildActive_hash (currentEpoch d3) b now (flags d3) (observer d3)) in Ho.
  unfold recordActive in *.
  destruct (buildActiveFingerprint (currentEpoch d3) b now (flags d3) (observer d3)) as [fp|] eqn:Eb;
    [|done]. simpl in Ho. injection Ho as Ho. exists d3, fp. split; [done|].
  split; [by apply buildActive_epoch in Eb|].
  destruct F1 as [B1 E1 A1 P1 _], F3 as [B3 E3 A3 P3 _].
  split; [by rewrite B3|]. split; [by rewrite E3|]. split; [by rewrite P3|].
  split; [by rewrite A3; simpl; rewrite A1|].
  by destruct (matchPendingLocked fp now (retainActive fp now d3)).
Qed.

Lemma active_step_retains b t0 d h :
  wf d -> opActives (OpBus b t0) = [h] -> (forall p, p ∈ pending d -> pendHash p <> h) ->
  noReset (snd (step (OpBus b t0) d)) ->
  exists r, active (fst (step (OpBus b t0) d)) !! h = Some r
    /\ ExpiresAt r = t0 + ActiveFingerprintRetention (budgets d).
Proof.
  intros W Ho Hp Hres. destruct (active_step_shape b t0 d h Ho Hres)
    as (d3 & fp & Hh & He & Hb & Hep & Hpend & Hact & ->). cbn [fst].
  rewrite (same_active _ _ (same_record _ _)).
  assert (forall p, p ∈ pending d3 -> pendHash p <> Hash fp) as Hn.
  { rewrite Hpend, Hh. intros p [Hin _]%elem_of_filterb. by apply Hp. }
  assert (active (fst (matchPendingLocked fp t0 (retainActive fp t0 d3)))
          = active (retainActive fp t0 d3)) as ->.
  { unfold matchPendingLocked. change (pending (retainActive fp t0 d3)) with (pending d3).
    destruct (len (pending d3) =? 0); [done|]. rewrite matchLoop_none; [|..]; cbn [fst].
    - by rewrite (same_active _ _ (same_record _ _)).
    - change (currentEpoch (retainActive fp t0 d3)) with (currentEpoch d3). rewrite Hpend, Hep.
      apply Forall_forall. intros p [Hin _]%elem_of_filterb.
      pose proof (wf_inEpoch d W) as Hi. rewrite Forall_forall in Hi. by apply Hi.
    - done. }
  rewrite <- Hh. unfold retainActive. simpl.
  destruct (active d3 !! Hash fp); rewrite lookup_insert_eq; eexists; (split; [done|]);
    simpl; by rewrite Hb.
Qed.

(** C36: The passive copy of a transaction the gateway ran is recognised,
    active side first.  Take any reachable state in which the identity is
    not pending, an active success with that identity that causes no reset,
    and any operations after it that read the clock before the retention has
    run out, include no reset, no observer fault and no other success or
    match of the identity: a passive event with the identity that comes
    before the retention has run out is put out as a matched duplicate. *)
Theorem active_then_passive_matched env cfg fl obs snap m d0 os0 b t0 h os e clock :
  NewActivePassiveDeduplicator env cfg fl obs snap m = Some d0 ->
  let d := fst (steps os0 d0) in
  let d1 := fst (step (OpBus b t0) d) in
  let dn := fst (steps os d1) in
  let limit := t0 + ActiveFingerprintRetention (budgets d0) in
  opActives (OpBus b t0) = [h] -> (forall p, p ∈ pending d -> pendHash p <> h) ->
  noReset (snd (step (OpBus b t0) d)) ->
  Forall (quiet h limit) os -> noReset (snd (steps os d1)) -> matchedCount h (snd (steps os d1)) = 0 ->
  isTransaction (EvKind e) = true -> seenAt e clock < limit ->
  passiveIdentity (seen e clock) (seenAt e clock) dn = Some h ->
  exists a, a ∈ snd (step (OpPassive e clock) dn) /\ isMatchOf h a = true
    /\ AdjEvent a = seen e clock /\ SuppressShadow a = true.
Proof.
  intros Hnew d d1 dn limit Ho Hp Hres Hq Hres2 Hm Hk Hlt Hid.
  pose proof (wf_new _ _ _ _ _ _ _ Hnew) as W0. assert (wf d) as W by (by apply wf_steps).
  assert (budgets d = budgets d0) as Hb by (by apply steps_budgets).
  destruct (active_step_retains b t0 d h W Ho Hp Hres) as (r & Hr & Hexp).
  assert (ExpiresAt r = limit) as Hl by (unfold limit; by rewrite Hexp, Hb).
  assert (wf d1) as W1 by (by apply wf_step). rewrite <- Hl in Hq, Hlt.
  assert (active dn !! h = Some r) as Hrn by (by apply steps_keep_active).
  exact (passive_step_matches e clock dn h r (wf_steps os d1 W1) Hk Hid Hrn Hlt).
Qed.

Lemma active_step_matches b now d h :
  wf d -> opActives (OpBus b now) = [h] -> noReset (snd (step (OpBus b now) d)) ->
  (exists p, p ∈ pending d /\ pendHash p = h /\ now < ReleaseAt p) ->
  exists q a, q ∈ pending d /\ pendHash q = h /\ a ∈ snd (step (OpBus b now) d)
    /\ isMatchOf h a = true /\ AdjEvent a = PendEvent q /\ SuppressShadow a = true.
Proof.
  intros W Ho Hres (p & Hp & Hph & Hlt). destruct (active_step_shape b now d h Ho Hres)
    as (d3 & fp & Hh & He & Hb & Hep & Hpend & Hact & ->). cbn [snd].
  rewrite <- Hh in Hph |- *.
  assert (p ∈ pending d3) as Hp3.
  { rewrite Hpend. apply elem_of_filterb. split; [done|]. by apply Z.ltb_lt. }
  assert (Forall (inEpoch (currentEpoch d3)) (pending d3)) as Hin.
  { rewrite Hpend, Hep. apply Forall_forall. intros q [Hq _]%elem_of_filterb.
    pose proof (wf_inEpoch d W) as Hi. rewrite Forall_forall in Hi. by apply Hi. }
  unfold matchPendingLocked. change (pending (retainActive fp now d3)) with (pending d3).
  destruct (len (pending d3) =? 0) eqn:E0.
  { bool_facts. destruct (pending d3); [set_solver|simpl in E0; lia]. }
  destruct (first_pending (Hash fp) (pending d3)) as [Hn|(l1 & q & l2 & Ep & Hq & Hn)].
  { by destruct (Hn p Hp3). }
  rewrite Ep in Hin |- *.
  rewrite (matchLoop_first (Hash fp) l1 q l2 (retainActive fp now d3) Hin Hn Hq). cbn [snd].
  assert (q ∈ pending d) as Hqd.
  { assert (q ∈ pending d3) as Hq3 by (rewrite Ep; set_solver). rewrite Hpend in Hq3.
    by apply elem_of_filterb in Hq3 as [? _]. }
  exists q. eexists. split; [done|]. split; [done|].
  split; [apply elem_of_app; right; by apply list_elem_of_singleton|].
  split; [|done]. unfold isMatchOf. simpl. unfold pendHash in Hq. rewrite Hq.
  by rewrite bool_decide_eq_true_2.
Qed.

(** The same, passive side first.  Take any reachable state with an
    entry pending, and any operations that read the clock before its release,
    with no reset and no match of its identity: an active success with the
    identity that comes before the release and causes no reset matches it,
    or an entry with the same identity that came in before it. *)
Theorem passive_then_active_matched env cfg fl obs snap m d0 os0 p os b now :
  NewActivePassiveDeduplicator env cfg fl obs snap m = Some d0 ->
  let d := fst (steps os0 d0) in
  let dn := fst (steps os d) in
  let h := pendHash p in
  p ∈ pending d ->
  Forall (fun o => forall t, opTime o = Some t -> t < ReleaseAt p) os ->
  noReset (snd (steps os d)) -> matchedCount h (snd (steps os d)) = 0 ->
  opActives (OpBus b now) = [h] -> now < ReleaseAt p -> noReset (snd (step (OpBus b now) dn)) ->
  exists q a, q ∈ pending dn /\ pendHash q = h /\ a ∈ snd (step (OpBus b now) dn)
    /\ isMatchOf h a = true /\ AdjEvent a = PendEvent q /\ SuppressShadow a = true.
Proof.
  intros Hnew d dn h Hp Hq Hres Hm Ho Hlt Hres2.
  pose proof (wf_new _ _ _ _ _ _ _ Hnew) as W0. assert (wf d) as W by (by apply wf_steps).
  apply active_step_matches; try done; [by apply wf_steps|].
  exists p. split; [|done]. by apply steps_keep_pending.
Qed.

End Run.

(** ** Concrete runs *)

Definition demo_steps := steps (P := demo_protocol) (D := demo_digest).
Definition demo_hash : list byte :=
  default [] (busHash (P := demo_protocol) (D := demo_digest) (demo_active demo_read)).

Lemma matches_bounded_witness :
  matchedCount demo_hash (snd (demo_steps demo_ops demo_dedup)) = 1
  /\ matchedCount demo_hash (snd (demo_steps demo_ops demo_dedup))
     <= successCount demo_hash (concat (opActives (P := demo_protocol) (D := demo_digest) <$> demo_ops)).
Proof.
  split; [vm_compute; reflexivity|].
  exact (proj2 (matches_bounded (P := demo_protocol) (D := demo_digest)
           _ _ _ _ _ _ demo_dedup demo_ops [] demo_hash demo_new_ok)).
Defined.

(** Ten broadcasts over nine seconds restore the health; then a third
    party reads a B555 schedule. *)
Definition demo_broadcast (t : time) : PassiveClassifiedEvent :=
  mkEvent PassiveClassifiedEventBroadcastFrame FrameTypeBroadcast
    (mkFrame 0x10 0xFE 0xB5 0x16 [0x01]) zeroFrame true false
    zeroTiming t PassiveAbandonReasonNone PassiveDiscontinuityNone noAck None "" 0 false.
Definition demo_b555 : Frame := mkFrame 0x10 0x15 0xB5 0x55 [0xA5; 0x00].
Definition demo_healthy : list op :=
  ((fun i => OpPassive (demo_broadcast (i * 1000 * millisecond)) 0) <$> [1;2;3;4;5;6;7;8;9;10])
  ++ [OpPassive (demo_passive demo_b555 (11000 * millisecond)) 0].

Lemma third_party_exact_witness :
  AdjEvent <$> List.filter ThirdPartyEligible
    (snd (step (P := demo_protocol) (D := demo_digest) (OpTick (20000 * millisecond))
            (fst (demo_steps demo_healthy demo_dedup))))
  = [demo_passive demo_b555 (11000 * millisecond)].
Proof.
  destruct (third_party_exact (P := demo_protocol) (D := demo_digest) _ _ _ _ _ _ demo_dedup
    demo_healthy (OpTick (20000 * millisecond)) demo_new_ok) as [H _].
  unfold demo_steps. rewrite H. vm_compute. reflexivity.
Defined.

Lemma active_then_passive_matched_witness :
  let d := fst (steps (P := demo_protocol) (D := demo_digest) [] demo_dedup) in
  let d1 := fst (step (P := demo_protocol) (D := demo_digest) (OpBus (demo_active demo_read) 1000) d) in
  let dn := fst (steps (P := demo_protocol) (D := demo_digest) [] d1) in
  exists a, a ∈ snd (step (P := demo_protocol) (D := demo_digest) (OpPassive (demo_passive demo_read 2000) 0) dn)
    /\ isMatchOf demo_hash a = true /\ AdjEvent a = seen (demo_passive demo_read 2000) 0
    /\ SuppressShadow a = true.
Proof.
  refine (active_then_passive_matched (P := demo_protocol) (D := demo_digest) _ _ _ _ _ _ demo_dedup []
    (demo_active demo_read) 1000 demo_hash [] (demo_passive demo_read 2000) 0 demo_new_ok
    _ _ _ _ _ _ _ _ _).
  - vm_compute. reflexivity.
  - intros p Hp. apply not_elem_of_nil in Hp. destruct Hp.
  - vm_compute. repeat constructor.
  - constructor.
  - constructor.
  - reflexivity.
  - reflexivity.
  - vm_compute. reflexivity.
  - vm_compute. reflexivity.
Defined.

(** The copy of the gateway's read is seen before the read is reported. *)
Definition demo_early : list op := [OpPassive (demo_passive demo_read 1000) 0].
Definition demo_entry : option pendingPassiveFingerprint :=
  head (pending (fst (demo_steps demo_early demo_dedup))).

Lemma passive_then_active_matched_witness :
  exists p, demo_entry = Some p /\
  let dn := fst (demo_steps demo_early demo_dedup) in
  exists q a, q ∈ pending dn /\ pendHash q = pendHash p
    /\ a ∈ snd (step (P := demo_protocol) (D := demo_digest) (OpBus (demo_active demo_read) 2000) dn)
    /\ isMatchOf (pendHash p) a = true /\ AdjEvent a = PendEvent q /\ SuppressShadow a = true.
Proof.
  destruct demo_entry as [p|] eqn:E; [|vm_compute in E; discriminate E].
  exists p. split; [reflexivity|].
  refine (passive_then_active_matched (P := demo_protocol) (D := demo_digest) _ _ _ _ _ _ demo_dedup
    demo_early p [] (demo_active demo_read) 2000 demo_new_ok _ _ _ _ _ _ _).
  - by apply head_Some_elem_of.
  - constructor.
  - constructor.
  - reflexivity.
  - vm_compute in E. injection E as <-. vm_compute. reflexivity.
  - vm_compute in E. injection E as <-. vm_compute. reflexivity.
  - vm_compute. repeat constructor.
Defined.

End DedupMatch.
