(* ===== verification/DedupIdentity.v ===== *)
(** * Transaction identities, budgets and recovery

    The bytes the deduplicator digests identify a transaction, the budgets
    it derives leave room for the copy to arrive, and it leaves the degraded
    state only on enough evidence. *)

From Stdlib Require Import Ascii String.
From S2P Require Import Prelude Ebus Reconstructor WatchCatalog FamilyPolicy Dedup DedupInv.

Local Open Scope Z_scope.

Module DedupIdentity.
Import Reconstructor WatchCatalog FamilyPolicy Dedup DedupInv.

(** ** The encoding is injective *)

Lemma stringBytes_inj s t : stringBytes s = stringBytes t -> s = t.
Proof.
  unfold stringBytes. intros H.
  rewrite <- (string_of_list_ascii_of_string s), <- (string_of_list_ascii_of_string t). f_equal.
  revert H. generalize (list_ascii_of_string t). induction (list_ascii_of_string s) as [|a l IH];
    intros [|b l'] H; try done. injection H as H1 H2. f_equal; [|by apply IH].
  apply N2Z.inj in H1. rewrite <- (ascii_N_embedding a), <- (ascii_N_embedding b). by f_equal.
Qed.

(** A length byte and the bytes of a string. *)
Definition tag (s : string) : list byte := u8 (len (stringBytes s)) :: stringBytes s.

Lemma tag_inj s t r u :
  len (stringBytes s) < 256 -> len (stringBytes t) < 256 -> tag s ++ r = tag t ++ u -> s = t /\ r = u.
Proof.
  unfold tag. intros Hs Ht [= Hl H].
  rewrite !u8_id in Hl by (unfold is_byte; lia). apply Nat2Z.inj in Hl.
  apply app_inj_1 in H as [H ->]; [|done]. by apply stringBytes_inj in H.
Qed.

(** A big-endian length and the payload. *)
Definition prefixed (payload : list byte) : list byte :=
  [Z.shiftr (u16 (len payload)) 8; u8 (u16 (len payload))] ++ payload.

Lemma prefixed_inj p q r s :
  len p < 2 ^ 16 -> len q < 2 ^ 16 -> prefixed p ++ r = prefixed q ++ s -> p = q /\ r = s.
Proof.
  unfold prefixed, u16. intros Hp Hq. rewrite !(Z.mod_small (len _)) by lia.
  rewrite <- !app_assoc. intros [= Hhi Hlo H].
  rewrite !Z.shiftr_div_pow2 in Hhi by lia. unfold u8 in Hlo.
  assert (len p = len q) as Hl
    by (rewrite (Z.div_mod (len p) (2 ^ 8)), (Z.div_mod (len q) (2 ^ 8)) by lia; lia).
  apply Nat2Z.inj in Hl. by apply app_inj_1 in H.
Qed.

Lemma identityBytes_shape c src tgt rc oc req resp :
  identityBytes c src tgt rc oc req resp
  = tag (transactionClassString c) ++ [src; tgt] ++ tag (responseClassString rc)
    ++ tag (outcomeString oc) ++ prefixed req ++ prefixed resp ++ [].
Proof. unfold identityBytes, appendLengthPrefixed, prefixed, tag. by rewrite app_nil_r, <- !app_assoc. Qed.

Lemma class_len c : len (stringBytes (transactionClassString c)) < 256.
Proof. destruct c; vm_compute; reflexivity. Qed.
Lemma response_len r : len (stringBytes (responseClassString r)) < 256.
Proof. destruct r; vm_compute; reflexivity. Qed.
Lemma outcome_len o : len (stringBytes (outcomeString o)) < 256.
Proof. destruct o; vm_compute; reflexivity. Qed.

Lemma class_string_inj a b : transactionClassString a = transactionClassString b -> a = b.
Proof. by destruct a, b. Qed.
Lemma response_string_inj a b : responseClassString a = responseClassString b -> a = b.
Proof. by destruct a, b. Qed.
Lemma outcome_string_inj a b : outcomeString a = outcomeString b -> a = b.
Proof. by destruct a, b. Qed.

Lemma identityBytes_inj c src tgt rc oc req resp c' src' tgt' rc' oc' req' resp' :
  len req < 2 ^ 16 -> len resp < 2 ^ 16 -> len req' < 2 ^ 16 -> len resp' < 2 ^ 16 ->
  identityBytes c src tgt rc oc req resp = identityBytes c' src' tgt' rc' oc' req' resp' ->
  c = c' /\ src = src' /\ tgt = tgt' /\ rc = rc' /\ oc = oc' /\ req = req' /\ resp = resp'.
Proof.
  intros L1 L2 L3 L4. rewrite !identityBytes_shape. intros H.
  apply tag_inj in H as [Hc H]; [|apply class_len..]. apply class_string_inj in Hc.
  apply app_inj_1 in H as [Hst H]; [|done]. injection Hst as Hs Ht.
  apply tag_inj in H as [Hr H]; [|apply response_len..].
  apply response_string_inj in Hr. apply tag_inj in H as [Ho H]; [|apply outcome_len..].
  apply outcome_string_inj in Ho. apply prefixed_inj in H as [Hq H]; [|done..].
  apply prefixed_inj in H as [Hp _]; [|done..]. done.
Qed.

Section Identity.
Context {P : EbusProtocol} {D : Digest}.

(** The bytes whose digest is the hash of a fingerprint. *)
Definition fpIdentity (fp : TransactionFingerprint) : list byte :=
  identityBytes (TransactionClass fp) (FpSource fp) (FpTarget fp) (FpResponseClass fp)
    (OutcomeClass fp) (RequestBytes fp) (ResponseBytes fp).

(** A frame that fits its length byte. *)
Definition frame_fits (f : Frame) : Prop := (length (Data f) < 256)%nat.

Lemma canonical_inj f g :
  frame_fits f -> frame_fits g -> canonicalFrameBytes f = canonicalFrameBytes g -> f = g.
Proof.
  intros Hf Hg E. apply parseFrame_encode in Hf, Hg. rewrite E in Hf. congruence.
Qed.

Lemma canonical_len f : frame_fits f -> 6 <= len (canonicalFrameBytes f) < 2 ^ 16.
Proof. unfold frame_fits. intros Hf. rewrite length_canonicalFrameBytes. lia. Qed.

Lemma response_bytes_len (b : bool) f :
  frame_fits f -> len (if b then canonicalFrameBytes f else []) < 2 ^ 16.
Proof. intros Hf. destruct b; [by apply canonical_len|done]. Qed.

Lemma response_bytes_inj (b c : bool) f g :
  frame_fits f -> frame_fits g ->
  (if b then canonicalFrameBytes f else []) = (if c then canonicalFrameBytes g else []) ->
  b = c /\ (b = true -> f = g).
Proof.
  intros Hf Hg. destruct b, c; intros Eq; [|exfalso..|done].
  - split; [done|]. intros _. by apply canonical_inj.
  - pose proof (canonical_len f Hf) as Hl. rewrite Eq in Hl. change (len []) with 0 in Hl. lia.
  - pose proof (canonical_len g Hg) as Hl. rewrite <- Eq in Hl. change (len []) with 0 in Hl. lia.
Qed.

(** What the two builders put in a fingerprint. *)
Lemma active_fields epoch b now fl obs fp :
  buildActiveFingerprint epoch b now fl obs = Some fp ->
  Hash fp = Sum256 (fpIdentity fp) /\ OutcomeClass fp = DedupOutcomeSuccess
  /\ FpSource fp = Source (BusRequest b) /\ FpTarget fp = Target (BusRequest b)
  /\ FpResponseClass fp = observeFirstResponseClass (BusRequest b) (BusFrameType b)
       DedupOutcomeSuccess (BusResponse b) (BusHasResponse b)
  /\ RequestBytes fp = canonicalFrameBytes (BusRequest b)
  /\ ResponseBytes fp = (if BusHasResponse b then canonicalFrameBytes (BusResponse b) else []).
Proof.
  unfold buildActiveFingerprint. intros H. destruct (negb _); [done|].
  destruct (BusFrameType b) eqn:Et; try done; injection H as <-; simpl; rewrite ?Et; done.
Qed.

Lemma passive_fields e now d fp disp :
  buildPassiveFingerprintLocked e now d = (fp, true, disp) -> Reconstructor.HasRequest e = true ->
  Hash fp = Sum256 (fpIdentity fp) /\ OutcomeClass fp = DedupOutcomeSuccess
  /\ FpSource fp = Source (EvRequest e) /\ FpTarget fp = Target (EvRequest e)
  /\ FpResponseClass fp = observeFirstResponseClass (EvRequest e) (EvFrameType e)
       DedupOutcomeSuccess (EvResponse e) (Reconstructor.HasResponse e)
  /\ RequestBytes fp = canonicalFrameBytes (EvRequest e)
  /\ ResponseBytes fp
     = (if Reconstructor.HasResponse e then canonicalFrameBytes (EvResponse e) else []).
Proof.
  unfold buildPassiveFingerprintLocked. intros H Hr. rewrite Hr in H.
  destruct (bool_decide (passiveOutcomeClass e = DedupOutcomeSuccess)) eqn:Eo.
  2: { exfalso. destruct (passiveTransactionClassLocked e d); simpl in H;
       try (destruct (negb (Known _))); simplify_eq. }
  apply bool_decide_eq_true in Eo. rewrite Eo in H.
  destruct (passiveTransactionClassLocked e d); simpl in H;
    try (destruct (negb (Known _))); try done; injection H as <- _; done.
Qed.

(** C22: A passive fingerprint that may match and an active one are of the
    same identity exactly when they are of the same transaction: the same
    class, the same request, and the same response or none; and the hash
    the deduplicator compares is the digest of that identity. *)
Theorem identity_exact epoch b tb fl obs fa e tp d fp disp :
  buildActiveFingerprint epoch b tb fl obs = Some fa ->
  buildPassiveFingerprintLocked e tp d = (fp, true, disp) ->
  Reconstructor.HasRequest e = true -> BusFrameType b = EvFrameType e ->
  frame_fits (BusRequest b) -> frame_fits (EvRequest e) ->
  frame_fits (BusResponse b) -> frame_fits (EvResponse e) ->
  Hash fa = Sum256 (fpIdentity fa) /\ Hash fp = Sum256 (fpIdentity fp)
  /\ (fpIdentity fa = fpIdentity fp <->
      TransactionClass fa = TransactionClass fp /\ BusRequest b = EvRequest e
      /\ BusHasResponse b = Reconstructor.HasResponse e
      /\ (BusHasResponse b = true -> BusResponse b = EvResponse e)).
Proof.
  intros Ha Hp Hr Hft F1 F2 F3 F4.
  destruct (active_fields _ _ _ _ _ _ Ha) as (Ha1 & Ha2 & Ha3 & Ha4 & Ha5 & Ha6 & Ha7).
  destruct (passive_fields _ _ _ _ _ Hp Hr) as (Hp1 & Hp2 & Hp3 & Hp4 & Hp5 & Hp6 & Hp7).
  split; [done|]. split; [done|]. unfold fpIdentity.
  rewrite Ha2, Ha3, Ha4, Ha5, Ha6, Ha7, Hp2, Hp3, Hp4, Hp5, Hp6, Hp7.
  split.
  - intros H'. apply identityBytes_inj in H' as (Hc & _ & _ & _ & _ & Hq & Hs);
      [|by apply canonical_len|by apply response_bytes_len|by apply canonical_len|by apply response_bytes_len].
    apply canonical_inj in Hq; [|done..]. apply response_bytes_inj in Hs; [|done..]. done.
  - intros (-> & Hq & Hh & Hs). rewrite Hft, Hq, Hh.
    destruct (Reconstructor.HasResponse e); [by rewrite Hs|].
    unfold observeFirstResponseClass. done.
Qed.

End Identity.

Lemma identity_exact_witness :
  exists fa fp, Hash fa = Hash fp
    /\ buildActiveFingerprint (P := demo_protocol) (D := demo_digest) 1 (demo_active demo_read) 5 None None
       = Some fa
    /\ fpIdentity fa = fpIdentity fp.
Proof.
  destruct (buildActiveFingerprint (P := demo_protocol) (D := demo_digest) 1 (demo_active demo_read) 5 None None)
    as [fa|] eqn:Ea; [|vm_compute in Ea; discriminate Ea].
  destruct (buildPassiveFingerprintLocked (P := demo_protocol) (D := demo_digest)
    (demo_passive demo_read 7) 7 demo_dedup) as [[fp el] disp] eqn:Ep.
  assert (el = true) as -> by (vm_compute in Ep; congruence).
  assert (TransactionClass fa = TransactionClass fp) as Hc.
  { vm_compute in Ea, Ep. injection Ea as <-. injection Ep as <- _. reflexivity. }
  destruct (identity_exact (P := demo_protocol) (D := demo_digest) 1 (demo_active demo_read) 5 None None fa
    (demo_passive demo_read 7) 7 demo_dedup fp disp Ea Ep eq_refl eq_refl) as (Ha & Hp & Hiff);
    [unfold frame_fits; simpl; lia..|].
  assert (fpIdentity fa = fpIdentity fp) as Hid by (by apply Hiff).
  exists fa, fp. split; [by rewrite Ha, Hp, Hid|]. split; [reflexivity|exact Hid].
Defined.

(** ** Budgets *)

(** Retry counts far below what would overflow a duration. *)
Definition modest (n : Z) : Prop := - 2 ^ 20 <= n <= 2 ^ 20.
Definition modest_envelope (env : BusRetryEnvelope) : Prop :=
  modest (TimeoutRetries (InitiatorTarget env)) /\ modest (NACKRetries (InitiatorTarget env))
  /\ modest (TimeoutRetries (InitiatorInitiator env)) /\ modest (NACKRetries (InitiatorInitiator env))
  /\ modest (CollisionResyncSYNCount env).

Lemma i64_id x : - 2 ^ 63 <= x < 2 ^ 63 -> i64 x = x.
Proof. intros H. unfold i64. rewrite Z.mod_small by lia. lia. Qed.

Lemma envelope_range env :
  modest_envelope env -> 250 * millisecond <= logicalRequestRetryEnvelope env <= 2 ^ 62.
Proof.
  unfold modest_envelope, modest. intros (H1 & H2 & H3 & H4 & H5).
  unfold logicalRequestRetryEnvelope, maxInt, dedupAttemptBudgetUnit, dedupCollisionResyncBudgetUnit,
    millisecond.
  set (p := if _ <? _ then _ else _).
  assert (- 2 ^ 20 <= TimeoutRetries p <= 2 ^ 20 /\ - 2 ^ 20 <= NACKRetries p <= 2 ^ 20) as [Ht Hn]
    by (subst p; by destruct (_ <? _)).
  clearbody p. set (a := if 0 <=? TimeoutRetries p then _ else _).
  set (b := if 0 <=? NACKRetries p then _ else _). set (c := if 0 <=? _ then _ else _).
  assert (0 <= a <= 2 ^ 20 /\ 0 <= b <= 2 ^ 20 /\ 0 <= c <= 2 ^ 20) as (Ha & Hb & Hc).
  { subst a b c. repeat split; break_match_goal; bool_facts; lia. }
  clearbody a b c. rewrite (i64_id (1 + a + b)), i64_id by lia. lia.
Qed.

(** What [deriveDedupTimingBudgets] requires. *)
Lemma derive_spec env :
  modest_envelope env ->
  exists r, deriveDedupTimingBudgets env = Some r
    /\ LogicalRequestEnvelope r = logicalRequestRetryEnvelope env
    /\ ActivePublishBudget r = LogicalRequestEnvelope r + 250 * millisecond
    /\ PassiveDeliveryBudget r = 500 * millisecond
    /\ PendingGraceTimeout r = Z.max (ActivePublishBudget r) (500 * millisecond) + 250 * millisecond
    /\ ActiveFingerprintRetention r = PendingGraceTimeout r + 500 * millisecond
    /\ PendingCapacity r = 256 /\ 0 < RecoveryHysteresis r /\ 0 < RecoveryEventThreshold r.
Proof.
  intros Hm. apply envelope_range in Hm. unfold deriveDedupTimingBudgets.
  generalize dependent (logicalRequestRetryEnvelope env). intros x Hx.
  unfold dedupPublicationSlack, dedupPendingMatchSlack, defaultDedupPassiveDeliveryBudget,
    dedupRecoveryHealthyWindow, maxDuration, millisecond in *.
  rewrite (proj2 (Z.leb_gt _ _)) by lia. rewrite (i64_id (x + _)) by lia.
  set (y := if _ <=? _ then _ else _).
  assert (y = Z.max (x + 250 * 1000000) (500 * 1000000)) as Hy
    by (subst y; break_match_goal; bool_facts; lia).
  clearbody y. rewrite (i64_id (y + _)) by lia. rewrite i64_id by lia.
  eexists. split; [reflexivity|]. simpl. rewrite Hy. repeat split; lia.
Qed.

(** The budgets leave room for the other copy.  With modest retry counts
    a configuration that leaves the budgets out is accepted; and in every
    accepted configuration the publish budget covers the longest request
    with all its retries, the grace period of a passive copy covers that
    and the delivery budget with slack, the retention of an active copy
    exceeds the least grace period by the delivery budget, and the pending
    list holds at least 256 entries. *)
Theorem budgets_sound env cfg fl obs snap m :
  modest_envelope env ->
  (exists d, NewActivePassiveDeduplicator env no_budgets fl obs snap m = Some d)
  /\ forall d, NewActivePassiveDeduplicator env cfg fl obs snap m = Some d ->
     let b := budgets d in
     let request := logicalRequestRetryEnvelope env in
     LogicalRequestEnvelope b = request /\ 0 < request
     /\ request + 250 * millisecond <= ActivePublishBudget b
     /\ request + 500 * millisecond <= PendingGraceTimeout b
     /\ 750 * millisecond <= PendingGraceTimeout b
     /\ request + 1000 * millisecond <= ActiveFingerprintRetention b
     /\ 256 <= PendingCapacity b
     /\ 0 < RecoveryHysteresis b /\ 0 < RecoveryEventThreshold b.
Proof.
  intros Hm. pose proof (envelope_range env Hm) as Hrange.
  destruct (derive_spec env Hm) as (r & Hr & R1 & R2 & R3 & R4 & R5 & R6 & R7 & R8).
  rewrite <- R1 in *.
  unfold NewActivePassiveDeduplicator, applyDedupDefaults, defaultPassiveDedupBudgets.
  rewrite Hr. cbn [default from_option id].
  assert (0 < millisecond) by done. split.
  - unfold orDefault. cbn. rewrite !Z.ltb_irrefl. simpl. by eexists.
  - intros d. destruct (_ || _) eqn:E; [done|]. intros H'. apply (inj Some) in H' as <-.
    bool_facts.
    cbn [ActivePublishBudget PendingGraceTimeout ActiveFingerprintRetention PendingCapacity
         PassiveDeliveryBudget LogicalRequestEnvelope budgets updateExpvarsLocked set_vars
         RecoveryHysteresis RecoveryEventThreshold] in *.
    assert (forall x y, 0 < y -> 0 < orDefault x y) as Hpos
      by (intros x y Hy; unfold orDefault; break_match_goal; bool_facts; lia).
    pose proof (Hpos (RecoveryHysteresis cfg) _ R7). pose proof (Hpos (RecoveryEventThreshold cfg) _ R8).
    unfold millisecond in *. repeat split; lia.
Qed.

Lemma budgets_sound_witness :
  modest_envelope demo_envelope
  /\ LogicalRequestEnvelope (budgets demo_dedup) + 500 * millisecond
     <= PendingGraceTimeout (budgets demo_dedup).
Proof.
  assert (modest_envelope demo_envelope) as Hm by (unfold modest_envelope, modest; simpl; lia).
  split; [exact Hm|].
  destruct (proj2 (budgets_sound demo_envelope no_budgets None None None no_metrics Hm) demo_dedup demo_new_ok)
    as (E & _ & _ & H & _).
  rewrite E. exact H.
Defined.

(** ** Leaving the degraded state *)

Definition health (d : dedup) : bool * recoveryState := (degraded d, recovery d).

(** [recordRecoveryEvidenceLocked] on the health alone. *)
Definition recordHealth (b : dedupTimingBudgets) (now : time) (h : bool * recoveryState)
    : bool * recoveryState :=
  let '(deg, rec) := h in
  if negb deg then h
  else
    let started := if IsZero (StartedAt rec) then now else StartedAt rec in
    let evidence := PassiveEvidence rec + 1 in
    (negb ((RecoveryHysteresis b <=? now - started) && (RecoveryEventThreshold b <=? evidence)),
     mkRecovery started evidence).

Lemma health_record now d :
  health (recordRecoveryEvidenceLocked now d) = recordHealth (budgets d) now (health d).
Proof.
  unfold recordRecoveryEvidenceLocked, health, recordHealth.
  destruct (degraded d) eqn:E; cbn [negb]; [|by rewrite E].
  set (started := if IsZero _ then _ else _). cbv zeta. rewrite !Z.leb_antisym.
  destruct (now - started <? _); [done|]. cbn [negb andb].
  by destruct (PassiveEvidence (recovery d) + 1 <? _).
Qed.

Lemma health_degraded reason d : health (enterDegradedLocked reason d) = (true, zeroRecovery).
Proof. unfold enterDegradedLocked. by destruct (degraded d). Qed.

Lemma health_release now d :
  health (fst (releaseExpiredPendingLocked now d)) = health d
  /\ budgets (fst (releaseExpiredPendingLocked now d)) = budgets d.
Proof.
  destruct (releaseExpired_spec now d) as (d1 & -> & S & H1 & H2 & _). unfold health. simpl.
  rewrite H1, H2. split; [done|]. apply (same_budgets _ _ S).
Qed.

Lemma health_reset t reason why d :
  health (fst (makeDiscontinuityLocked t reason why d)) = (true, zeroRecovery)
  /\ budgets (fst (makeDiscontinuityLocked t reason why d)) = budgets d.
Proof.
  destruct (reset_micro (OpTick t) t reason why d) as (a & _ & _ & _ & Hm & H1 & H2 & _).
  unfold health. rewrite H1, H2. split; [done|]. by eapply micro_budgets.
Qed.

Lemma health_local a d :
  health (fst (updateLocalAddressLocked a d)) = health d
  /\ budgets (fst (updateLocalAddressLocked a d)) = budgets d.
Proof. unfold updateLocalAddressLocked. by break. Qed.

Section Recovery.
Context {P : EbusProtocol} {D : Digest}.

Lemma matchLoop_health hash matched ps d :
  health (fst (fst (matchLoop hash matched ps d))) = health d
  /\ budgets (fst (fst (matchLoop hash matched ps d))) = budgets d.
Proof.
  revert matched d. induction ps as [|p ps IH]; intros matched d; simpl; [done|].
  destruct (negb (PendEpoch p =? _) || _).
  { specialize (IH matched d). by destruct (matchLoop hash matched ps d) as [[? ?] ?]. }
  destruct (negb matched && _).
  - set (d2 := fst (consumeActiveLocked _ _)). specialize (IH true d2).
    destruct (matchLoop hash true ps d2) as [[d3 ?] ?]. cbn [fst] in *. destruct IH as [-> ->].
    subst d2. unfold consumeActiveLocked. simpl. by break.
  - specialize (IH matched d). by destruct (matchLoop hash matched ps d) as [[? ?] ?].
Qed.

Lemma match_health fp now d :
  exists k, (k <= 1)%nat
    /\ health (fst (matchPendingLocked fp now d)) = Nat.iter k (recordHealth (budgets d) now) (health d)
    /\ budgets (fst (matchPendingLocked fp now d)) = budgets d.
Proof.
  unfold matchPendingLocked. destruct (_ =? 0); [by exists 0%nat; repeat split; lia|].
  exists 1%nat. split; [lia|]. destruct (matchLoop_health (Hash fp) false (pending d) d) as [H1 H2].
  destruct (matchLoop _ _ _ _) as [[d' next] outs]. cbn [fst] in *.
  rewrite health_record, (same_budgets _ _ (same_record _ _)).
  change (health (Dedup.set_pending next d')) with (health d').
  change (budgets (Dedup.set_pending next d')) with (budgets d'). by rewrite H1, H2.
Qed.

(** What an operation does to the health: at most two pieces of evidence,
    on the health it met or on a fresh degraded one. *)
Definition healthEffect (b : dedupTimingBudgets) (o : op) (h h' : bool * recoveryState) : Prop :=
  exists h0 k, (h0 = h \/ h0 = (true, zeroRecovery)) /\ (k <= 2)%nat
    /\ match opTime o with
       | Some now => h' = Nat.iter k (recordHealth b now) h0
       | None => h' = h0
       end.

Lemma bus_health e now d :
  healthEffect (budgets d) (OpBus e now) (health d) (health (fst (step (OpBus e now) d))).
Proof.
  cbn [step]. unfold handleBusEvent, healthEffect. cbn [opTime].
  destruct (health_release now d) as [Hh Hb].
  destruct (releaseExpiredPendingLocked now d) as [d1 outs]. cbn [fst] in Hh, Hb.
  destruct (BusKind e).
  - destruct (_ || _); [exists (health d), 0%nat; split; [by left|split; [lia|exact Hh]]|].
    set (d2 := pruneActiveLocked now d1).
    assert (exists h0, (h0 = health d \/ h0 = (true, zeroRecovery))
      /\ health (fst (noteLocalAddress (Source (BusRequest e)) now d2 outs)) = h0
      /\ budgets (fst (noteLocalAddress (Source (BusRequest e)) now d2 outs)) = budgets d)
      as (h0 & Hor & H0 & Hb0).
    { unfold noteLocalAddress.
      assert (health (fst (updateLocalAddressLocked (Source (BusRequest e)) d2)) = health d
        /\ budgets (fst (updateLocalAddressLocked (Source (BusRequest e)) d2)) = budgets d) as [Hl Hlb]
        by (destruct (health_local (Source (BusRequest e)) d2) as [-> ->]; split; [exact Hh|exact Hb]).
      destruct (updateLocalAddressLocked _ d2) as [d3 changed]. cbn [fst] in Hl, Hlb.
      destruct changed; [|by exists (health d); auto].
      destruct (health_reset now PassiveDiscontinuityTransportReset "local_address_epoch" d3) as [Hr Hrb].
      destruct (makeDiscontinuityLocked _ _ _ _). cbn [fst] in *. exists (true, zeroRecovery).
      split; [by right|]. split; [done|]. by rewrite Hrb. }
    destruct (noteLocalAddress _ now d2 outs) as [d3 outs3]. cbn [fst] in *.
    unfold recordActive. destruct (buildActiveFingerprint _ _ _ _ _) as [fp|].
    + destruct (match_health fp now (retainActive fp now d3)) as (k & Hk & Hm & Hmb).
      destruct (matchPendingLocked _ _ _) as [d4 o]. cbn [fst] in *.
      exists h0, (S k). split; [done|]. split; [lia|].
      rewrite health_record, Hm, Hmb. change (budgets (retainActive fp now d3)) with (budgets d3).
      change (health (retainActive fp now d3)) with (health d3). by rewrite H0, Hb0.
    + exists (true, zeroRecovery), 0%nat. split; [by right|]. split; [lia|]. apply health_degraded.
  - exists (true, zeroRecovery), 0%nat. split; [by right|]. split; [lia|]. apply health_degraded.
  - exists (health d), 0%nat. split; [by left|]. split; [lia|exact Hh].
Qed.

Lemma transaction_health e now d outs :
  wf d -> Forall (fun p => unexpired now p = true) (pending d) ->
  exists h0 k, (h0 = health d \/ h0 = (true, zeroRecovery)) /\ (k <= 2)%nat
    /\ health (fst (handleTransactionEvent e now d outs))
       = Nat.iter k (recordHealth (budgets d) now) h0.
Proof.
  intros W Hf. unfold handleTransactionEvent.
  destruct (buildPassiveFingerprintLocked e now d) as [[fp el] disp]. destruct el; simpl.
  2: { exists (health d), 0%nat. split; [auto|]. split; [lia|].
       unfold publishImmediateLocked. by destruct disp, (dedupFamilyPolicyAllowsRuntimeThirdParty (FpFamilyPolicy fp)). }
  pose proof (consume_rest (Hash fp) d) as (Rb & _ & Rp & _ & _ & Rd & Rr).
  destruct (consumeActiveLocked (Hash fp) d) as [d1 c]. cbn [fst] in *.
  assert (health d1 = health d) as Hd1 by (unfold health; congruence). destruct c.
  - exists (health d), 1%nat. split; [auto|]. split; [lia|]. cbn [fst]. rewrite health_record.
    change (recordHealth (budgets d1) now (health d1) = recordHealth (budgets d) now (health d)).
    by rewrite Rb, Hd1.
  - rewrite makeRoom_fresh by (by rewrite Rp). destruct (_ <? _).
    + exists (health d), 1%nat. split; [auto|]. split; [lia|]. cbn [fst]. rewrite health_record.
      change (recordHealth (budgets d1) now (health d1) = recordHealth (budgets d) now (health d)).
      by rewrite Rb, Hd1.
    + exists (true, zeroRecovery), 0%nat. split; [by right|]. split; [lia|].
      exact (health_degraded "pending_capacity" d1).
Qed.

Lemma passive_health e clock d :
  wf d ->
  healthEffect (budgets d) (OpPassive e clock) (health d) (health (fst (step (OpPassive e clock) d))).
Proof.
  intros W. cbn [step]. unfold OnPassiveClassifiedEvent, handlePassiveEvent, healthEffect. cbn [opTime].
  set (now := if IsZero _ then _ else _).
  destruct (health_release now d) as [Hh Hb]. destruct (release_frame now d) as (d1' & E & F).
  rewrite E in *. cbn [fst] in Hh, Hb. rename d1' into d1.
  set (d2 := pruneActiveLocked now d1).
  assert (wf d2) as W2.
  { apply (wf_micro (OpTick now) silent d1); [by apply m_prune|].
    eapply wf_frame; [exact F|by apply wf_released]. }
  assert (Forall (fun p => unexpired now p = true) (pending d2)) as Hfresh by exact (released_fresh now d d1 F).
  change (EvKind (set_ObservedAt now e)) with (EvKind e).
  assert (health d2 = health d) as H2 by (rewrite <- Hh; done).
  assert (budgets d2 = budgets d) as Hb2 by (rewrite <- Hb; done).
  pose proof (transaction_health (set_ObservedAt now e) now d2 (relOut (Some now) d) W2 Hfresh) as Ht.
  rewrite H2, Hb2 in Ht.
  destruct (EvKind e); try exact Ht.
  - exists (health d), 1%nat. split; [auto|]. split; [lia|]. cbn [fst]. rewrite health_record.
    by rewrite H2, Hb2.
  - destruct (health_reset now (DiscontinuityReason (set_ObservedAt now e)) "passive_epoch_boundary" d2)
      as [Hr _].
    destruct (makeDiscontinuityLocked _ _ _ _). cbn [fst] in *.
    exists (true, zeroRecovery), 0%nat. split; [by right|]. split; [lia|done].
Qed.

Lemma step_health o d : wf d -> healthEffect (budgets d) o (health d) (health (fst (step o d))).
Proof.
  intros W. destruct o as [e now|e clock|now|t reason why|obs].
  - apply bus_health.
  - by apply passive_health.
  - exists (health d), 0%nat. split; [by left|]. split; [lia|]. exact (proj1 (health_release now d)).
  - exists (true, zeroRecovery), 0%nat. split; [by right|]. split; [lia|].
    exact (proj1 (health_reset t reason why d)).
  - exists (health d), 0%nat. split; [by left|]. split; [lia|done].
Qed.

(** Evidence accumulates by at most one per record, and a healthy result
    says that both thresholds were reached. *)
Lemma iter_record b now k h :
  fst h = true ->
  let h' := Nat.iter k (recordHealth b now) h in
  PassiveEvidence (snd h') <= PassiveEvidence (snd h) + Z.of_nat k
  /\ (fst h' = false ->
       RecoveryEventThreshold b <= PassiveEvidence (snd h')
       /\ RecoveryHysteresis b <= now - StartedAt (snd h')).
Proof.
  intros Hh. induction k as [|k [IH1 IH2]]; cbn [Nat.iter nat_rect]; [rewrite Hh; split; [lia|done]|].
  set (g := nat_rect _ _ _ _) in *. change (Nat.iter k (recordHealth b now) h) with g in *.
  destruct g as [deg rec]. unfold recordHealth. destruct deg; cbn [negb fst snd] in *.
  - simpl. split; [lia|]. intros H'. apply negb_false_iff, andb_true_iff in H' as [E1 E2].
    bool_facts. simpl. lia.
  - split; [lia|]. exact IH2.
Qed.

Lemma iter_healthy b now k h : fst h = false -> Nat.iter k (recordHealth b now) h = h.
Proof.
  intros Hh. induction k as [|k IH]; [done|]. simpl. rewrite IH. destruct h as [deg rec].
  simpl in Hh. by subst deg.
Qed.

(** The evidence on record is bounded by the operations so far, and the
    healthy state keeps the evidence that restored it. *)
Lemma steps_evidence os d n :
  wf d -> 0 <= n -> PassiveEvidence (recovery d) <= n ->
  (degraded d = false -> RecoveryEventThreshold (budgets d) <= PassiveEvidence (recovery d)) ->
  PassiveEvidence (recovery (fst (steps os d))) <= n + 2 * len os
  /\ (degraded (fst (steps os d)) = false ->
      RecoveryEventThreshold (budgets d) <= PassiveEvidence (recovery (fst (steps os d)))).
Proof.
  revert d n. induction os as [|o os IH]; intros d n W Hn Hev Hok; [simpl; split; [lia|done]|].
  rewrite dedup_steps_cons. cbn [fst length].
  destruct (step_health o d W) as (h0 & k & Hor & Hk & He).
  assert (PassiveEvidence (snd h0) <= n) as H0 by (destruct Hor as [-> | ->]; simpl; lia).
  assert (fst h0 = false -> RecoveryEventThreshold (budgets d) <= PassiveEvidence (snd h0)) as H0'
    by (by destruct Hor as [-> | ->]).
  assert (PassiveEvidence (recovery (fst (step o d))) <= n + 2
    /\ (degraded (fst (step o d)) = false ->
        RecoveryEventThreshold (budgets d) <= PassiveEvidence (recovery (fst (step o d))))) as [H1 H2].
  { change (recovery (fst (step o d))) with (snd (health (fst (step o d)))).
    change (degraded (fst (step o d))) with (fst (health (fst (step o d)))).
    destruct (opTime o) as [now|]; rewrite He; [|split; [lia|done]].
    destruct (fst h0) eqn:Ef; [|by rewrite iter_healthy by done; split; [lia|auto]].
    destruct (iter_record (budgets d) now k h0 Ef) as [G1 G2]. split; [lia|]. intros G. by apply G2. }
  rewrite <- (step_budgets o d W) in H2 |- *.
  destruct (IH _ (n + 2) (wf_step o d W)) as [G1 G2]; [lia|done|done|]. split; [lia|done].
Qed.

(** The deduplicator trusts its view of the bus again only on evidence.
    In any run of a fresh deduplicator, an operation that ends the degraded
    state does so with as much evidence as the threshold asks, gathered for
    at least the hysteresis; and since an operation adds at most two pieces
    of evidence, a run that ends healthy has at least half the threshold of
    operations.  An epoch reset always ends degraded. *)
Theorem recovery_gated env cfg fl obs snap m d0 os o :
  NewActivePassiveDeduplicator env cfg fl obs snap m = Some d0 ->
  let d := fst (steps os d0) in
  let d' := fst (step o d) in
  (degraded d = true -> degraded d' = false ->
     exists now, opTime o = Some now
       /\ RecoveryEventThreshold (budgets d0) <= PassiveEvidence (recovery d')
       /\ RecoveryHysteresis (budgets d0) <= now - StartedAt (recovery d'))
  /\ (degraded d = false -> RecoveryEventThreshold (budgets d0) <= 2 * len os)
  /\ (forall t reason why, degraded (fst (makeDiscontinuityLocked t reason why d)) = true).
Proof.
  intros Hnew d d'. pose proof (wf_new _ _ _ _ _ _ _ Hnew) as W0.
  assert (wf d) as W by (by apply wf_steps).
  assert (budgets d = budgets d0) as Hb by (by apply steps_budgets). split; [|split].
  - intros Hd Hd'. destruct (step_health o d W) as (h0 & k & Hor & Hk & He). rewrite Hb in He.
    assert (fst h0 = true) as Hf by (by destruct Hor as [-> | ->]).
    fold d' in He. destruct (opTime o) as [now|].
    + exists now. split; [done|]. destruct (iter_record (budgets d0) now k h0 Hf) as [_ H2].
      rewrite <- He in H2. by apply H2.
    + exfalso. rewrite <- He in Hf. simpl in Hf. congruence.
  - destruct (new_state _ _ _ _ _ _ _ Hnew) as (_ & _ & Hd0 & Hr0 & _). intros Hdeg.
    destruct (steps_evidence os d0 0 W0) as [H1 H2]; [lia|by rewrite Hr0|congruence|].
    specialize (H2 Hdeg). fold d in H1, H2. lia.
  - intros t reason why. destruct (health_reset t reason why d) as [Hr _].
    exact (f_equal fst Hr).
Qed.

End Recovery.

(** Ten broadcasts in nine seconds: the last one restores the health. *)
Definition demo_beacon (t : time) : PassiveClassifiedEvent :=
  mkEvent PassiveClassifiedEventBroadcastFrame FrameTypeBroadcast
    (mkFrame 0x10 0xFE 0xB5 0x16 [0x01]) zeroFrame true false
    zeroTiming t PassiveAbandonReasonNone PassiveDiscontinuityNone noAck None "" 0 false.
Definition demo_beacons : list op :=
  (fun i => OpPassive (demo_beacon (i * 1000 * millisecond)) 0) <$> [1; 2; 3; 4; 5; 6; 7; 8; 9].
Definition demo_last : op := OpPassive (demo_beacon (10000 * millisecond)) 0.

Lemma recovery_gated_witness :
  exists now, opTime demo_last = Some now
    /\ RecoveryEventThreshold (budgets demo_dedup)
       <= PassiveEvidence (recovery (fst (step (P := demo_protocol) (D := demo_digest) demo_last
            (fst (steps (P := demo_protocol) (D := demo_digest) demo_beacons demo_dedup)))))
    /\ RecoveryHysteresis (budgets demo_dedup)
       <= now - StartedAt (recovery (fst (step (P := demo_protocol) (D := demo_digest) demo_last
            (fst (steps (P := demo_protocol) (D := demo_digest) demo_beacons demo_dedup))))).
Proof.
  refine (proj1 (recovery_gated (P := demo_protocol) (D := demo_digest) _ _ _ _ _ _ demo_dedup
    demo_beacons demo_last demo_new_ok) _ _); vm_compute; reflexivity.
Defined.

(** One active success counts as two pieces of passive evidence while an
    entry is pending: [matchPendingLocked] and [handleBusEvent] both record
    it. *)
Lemma active_success_counts_twice :
  let run := steps (P := demo_protocol) (D := demo_digest) in
  let d := fst (run [OpPassive (demo_passive demo_other 1000) 0] demo_dedup) in
  PassiveEvidence (recovery d) = 1
  /\ PassiveEvidence (recovery (fst (run [OpBus (demo_active demo_read) 2000] d))) = 3.
Proof. vm_compute. done. Qed.

End DedupIdentity.
