(* ===== verification/DedupFanout.v ===== *)
(** * Fan-out of adjudicated events

    The subscriber side of [active_passive_deduplicator.go]: [Subscribe],
    [publish], [publishAll], [unsubscribeCore], [closeAllSubscribers] and the
    critical reset an overflow causes.  [publish] calls itself through
    [handleCriticalReset]; every round takes a critical subscriber out, so
    that a bound of one more than the live subscribers is never exhausted.
    The order in which Go ranges over the subscriber map is a function of
    the map. *)

From S2P Require Import Prelude Ebus Reconstructor WatchCatalog FamilyPolicy Dedup DedupInv.

Local Open Scope Z_scope.

Module DedupFanout.
Import Reconstructor Dedup DedupInv.

(** ** Data *)

(** [DedupSubscriberPriority]. *)
Inductive DedupSubscriberPriority := DedupSubscriberCritical | DedupSubscriberNonCritical.
#[export] Instance DedupSubscriberPriority_eq_dec : EqDecision DedupSubscriberPriority.
Proof. solve_decision. Defined.

(** [AdjudicatedPassiveSubscription]; [closed] says that [closeOnce] has
    run and the channel is closed. *)
Record subscription := mkSubscription {
  subName : string;
  subPriority : DedupSubscriberPriority;
  subCapacity : Z;
  subQueue : list AdjudicatedPassiveEvent;
  subClosed : bool
}.

(** The deduplicator with its subscribers; [liveSubs] is the key set of the
    [subscribers] map, [None] the nil map after [Close]. *)
Record service := mkService {
  core : dedup;
  subscriptions : gmap Z subscription;
  liveSubs : option (gset Z);
  nextID : Z
}.

Inductive subscribeError := errSubscriberName | errDeduplicatorClosed.

Definition set_subscription (id : Z) (x : subscription) (s : service) : service :=
  mkService (core s) (<[id := x]> (subscriptions s)) (liveSubs s) (nextID s).
Definition set_core (d : dedup) (s : service) : service :=
  mkService d (subscriptions s) (liveSubs s) (nextID s).

(** ** Operations *)

(** [defaultDedupSubscriberBuffer]. *)
Definition defaultDedupSubscriberBuffer (p : DedupSubscriberPriority) : Z :=
  match p with DedupSubscriberCritical => 128 | DedupSubscriberNonCritical => 32 end.

(** [Subscribe]; [None] for the priority is the zero value. *)
Definition Subscribe (name : string) (priority : option DedupSubscriberPriority) (buffer : Z)
    (s : service) : service * (Z + subscribeError) :=
  if String.eqb name "" then (s, inr errSubscriberName)
  else
    let p := default DedupSubscriberNonCritical priority in
    let b := if buffer <=? 0 then defaultDedupSubscriberBuffer p else buffer in
    let id := incr64 (nextID s) in
    match liveSubs s with
    | None => (mkService (core s) (subscriptions s) None id, inr errDeduplicatorClosed)
    | Some l =>
        (mkService (core s) (<[id := mkSubscription name p b [] false]> (subscriptions s))
           (Some (l ∪ {[id]})) id, inl id)
    end.

(** [trySendAdjudicatedEvent]: a send on a closed channel panics and is
    recovered. *)
Definition trySendAdjudicatedEvent (x : subscription) (event : AdjudicatedPassiveEvent)
    : subscription * bool :=
  if subClosed x then (x, false)
  else if len (subQueue x) <? subCapacity x then
    (mkSubscription (subName x) (subPriority x) (subCapacity x) (subQueue x ++ [event]) false, true)
  else (x, false).

(** [drainAdjudicatedSubscription] and [close]. *)
Definition drainAdjudicatedSubscription (x : subscription) : subscription :=
  mkSubscription (subName x) (subPriority x) (subCapacity x) [] (subClosed x).
Definition closeSubscription (x : subscription) : subscription :=
  mkSubscription (subName x) (subPriority x) (subCapacity x) (subQueue x) true.

(** [unsubscribeCore]. *)
Definition unsubscribeCore (id : Z) (fault : option AdjudicatedPassiveEvent) (s : service) : service :=
  match subscriptions s !! id with
  | None => s
  | Some x =>
      if subClosed x then s
      else
        let x1 := match fault with
                  | Some f => fst (trySendAdjudicatedEvent (drainAdjudicatedSubscription x) f)
                  | None => x
                  end in
        mkService (core s) (<[id := closeSubscription x1]> (subscriptions s))
          ((fun l => l ∖ {[id]}) <$> liveSubs s) (nextID s)
  end.

(** The fault event of [unsubscribeWithFault]. *)
Definition overflowFault (name : string) (observedAt : time) (epoch : Z) : AdjudicatedPassiveEvent :=
  mkAdjudicated
    (mkEvent PassiveClassifiedEventDiscontinuity FrameTypeUnknown zeroFrame zeroFrame false false
       zeroTiming observedAt PassiveAbandonReasonNone PassiveDiscontinuityCriticalSubscriberFault noAck
       None name 0 false)
    None FamilyPolicy.zeroPolicy DedupDispositionDiscontinuity false false false true false false epoch.

(** [unsubscribeWithFault] and [unsubscribe]. *)
Definition unsubscribeWithFault (id : Z) (x : subscription) (observedAt : time) (epoch : Z)
    (s : service) : service :=
  unsubscribeCore id (Some (overflowFault (subName x) observedAt epoch)) s.
Definition unsubscribe (id : Z) (s : service) : service := unsubscribeCore id None s.

(** One iteration of the loop of [publish]; the flag is
    [criticalOverflow]. *)
Definition publishTo (event : AdjudicatedPassiveEvent) (r : service * bool) (id : Z) : service * bool :=
  let '(s, overflow) := r in
  match subscriptions s !! id with
  | None => r
  | Some x =>
      match trySendAdjudicatedEvent x event with
      | (x', true) => (set_subscription id x' s, overflow)
      | (_, false) =>
          match subPriority x with
          | DedupSubscriberNonCritical => r
          | DedupSubscriberCritical =>
              (unsubscribeWithFault id x (EvObservedAt (AdjEvent event)) (AdjEpoch event) s, true)
          end
      end
  end.

Section Publish.
(** How Go ranges over a map with the given keys. *)
Context (order : gset Z -> list Z).

(** [publish]; [handleCriticalReset] publishes the one event of
    [makeDiscontinuityLocked]. *)
Fixpoint publish (fuel : nat) (event : AdjudicatedPassiveEvent) (s : service) : option service :=
  match fuel with
  | O => None
  | S fuel' =>
      let '(s1, overflow) := fold_left (publishTo event) (order (default ∅ (liveSubs s))) (s, false) in
      if overflow then
        let '(d, outs) := makeDiscontinuityLocked (EvObservedAt (AdjEvent event))
                            PassiveDiscontinuityCriticalSubscriberFault "dedup_output_overflow" (core s1) in
        fold_left (fun r e => r ≫= publish fuel' e) outs (Some (set_core d s1))
      else Some s1
  end.

(** The bound used: one more than the live subscribers. *)
Definition publishEvent (event : AdjudicatedPassiveEvent) (s : service) : option service :=
  publish (S (size (default ∅ (liveSubs s)))) event s.

(** [publishAll]. *)
Definition publishAll (events : list AdjudicatedPassiveEvent) (s : service) : option service :=
  fold_left (fun r e => r ≫= publishEvent e) events (Some s).

(** [closeAllSubscribers]. *)
Definition closeAllSubscribers (s : service) : service :=
  fold_left (fun s id => unsubscribe id s) (order (default ∅ (liveSubs s)))
    (mkService (core s) (subscriptions s) None (nextID s)).

(** [OnBusEvent], [OnPassiveClassifiedEvent], a tick of the expiry loop and
    [handleCriticalReset]: the handler and the publication of its outputs. *)
Definition serve `{P : EbusProtocol, D : Digest} (o : op) (s : service) : option service :=
  let '(d, outs) := step o (core s) in publishAll outs (set_core d s).

End Publish.

(** What callers do to the service. *)
Inductive serviceOp :=
| SvcSubscribe (name : string) (priority : option DedupSubscriberPriority) (buffer : Z)
| SvcUnsubscribe (id : Z)
| SvcServe (o : op)
| SvcClose.

Definition serviceStep `{P : EbusProtocol, D : Digest} (order : gset Z -> list Z) (o : serviceOp) (s : service)
    : option service :=
  match o with
  | SvcSubscribe name priority buffer => Some (fst (Subscribe name priority buffer s))
  | SvcUnsubscribe id => Some (unsubscribe id s)
  | SvcServe o => serve order o s
  | SvcClose => Some (closeAllSubscribers order s)
  end.

Definition serviceRun `{P : EbusProtocol, D : Digest} (order : gset Z -> list Z) (os : list serviceOp) (s : service)
    : option service :=
  fold_left (fun r o => r ≫= serviceStep order o) os (Some s).

(** [NewActivePassiveDeduplicator]: no subscriber yet. *)
Definition newService (d : dedup) : service := mkService d ∅ (Some ∅) 0.

(** ** Specification *)

(** Live subscriptions exist and are open, and every buffer has room for a
    fault event. *)
Definition service_ok (s : service) : Prop :=
  forall id, id ∈ default ∅ (liveSubs s) ->
    exists x, subscriptions s !! id = Some x /\ subClosed x = false /\ 0 < subCapacity x.

Definition full (x : subscription) : bool := negb (len (subQueue x) <? subCapacity x).
Definition overflows (x : subscription) : bool :=
  full x && bool_decide (subPriority x = DedupSubscriberCritical).

(** What one round does to a live subscription. *)
Definition delivered (event : AdjudicatedPassiveEvent) (x : subscription) : subscription :=
  if negb (full x) then
    mkSubscription (subName x) (subPriority x) (subCapacity x) (subQueue x ++ [event]) false
  else
    match subPriority x with
    | DedupSubscriberNonCritical => x
    | DedupSubscriberCritical =>
        mkSubscription (subName x) (subPriority x) (subCapacity x)
          [overflowFault (subName x) (EvObservedAt (AdjEvent event)) (AdjEpoch event)] true
    end.

(** A range visits every key once. *)
Definition ranges (order : gset Z -> list Z) : Prop := forall l, order l ≡ₚ elements l.

(** ** One round *)

Lemma publishTo_spec event s b id x :
  subscriptions s !! id = Some x -> subClosed x = false -> 0 < subCapacity x ->
  publishTo event (s, b) id
  = (mkService (core s) (<[id := delivered event x]> (subscriptions s))
       (if overflows x then (fun l => l ∖ {[id]}) <$> liveSubs s else liveSubs s) (nextID s),
     b || overflows x).
Proof.
  intros Hx Hc Hcap. unfold publishTo, trySendAdjudicatedEvent, delivered, overflows, full.
  rewrite Hx, Hc. destruct (len (subQueue x) <? subCapacity x); simpl; [by rewrite orb_false_r|].
  destruct (subPriority x) eqn:Ep; simpl.
  - unfold unsubscribeWithFault, unsubscribeCore. rewrite Hx, Hc.
    unfold trySendAdjudicatedEvent. simpl. rewrite Hc.
    destruct (Z.ltb_spec (Z.of_nat 0) (subCapacity x)); [|lia]. simpl.
    unfold closeSubscription. simpl. by rewrite Ep, orb_true_r.
  - rewrite insert_id by done. rewrite orb_false_r. by destruct s.
Qed.

(** The ids of a list whose subscription overflows. *)
Definition overflowing (s : service) (ids : list Z) : list Z :=
  List.filter (fun id => match subscriptions s !! id with
                         | Some x => overflows x | None => false end) ids.

Lemma overflowing_ext s s' ids :
  (forall id, id ∈ ids -> subscriptions s' !! id = subscriptions s !! id) ->
  overflowing s' ids = overflowing s ids.
Proof.
  intros H. unfold overflowing. apply List.filter_ext_in. intros id Hid.
  by rewrite H by (by apply list_elem_of_In).
Qed.

Lemma round_spec event ids s b :
  NoDup ids ->
  (forall id, id ∈ ids -> exists x, subscriptions s !! id = Some x /\ subClosed x = false /\ 0 < subCapacity x) ->
  exists s1, fold_left (publishTo event) ids (s, b)
    = (s1, b || negb (bool_decide (overflowing s ids = [])))
    /\ core s1 = core s /\ nextID s1 = nextID s
    /\ (forall id, subscriptions s1 !! id
          = if decide (id ∈ ids) then delivered event <$> subscriptions s !! id else subscriptions s !! id)
    /\ liveSubs s1 = (fun l => l ∖ list_to_set (overflowing s ids)) <$> liveSubs s.
Proof.
  revert s b. induction ids as [|x ids IH]; intros s b Hnd Hopen.
  - exists s. simpl. rewrite orb_false_r. do 4 (split; [done|]).
    destruct (liveSubs s); simpl; [|done]. f_equal. set_solver.
  - apply NoDup_cons in Hnd as [Hx Hnd].
    destruct (Hopen x) as (sx & Hsx & Hc & Hcap); [set_solver|]. cbn [fold_left].
    rewrite (publishTo_spec event s b x sx) by done.
    set (s0 := mkService _ _ _ _).
    assert (forall id, id <> x -> subscriptions s0 !! id = subscriptions s !! id) as Hne
      by (intros id Hid; simpl; by rewrite lookup_insert_ne).
    destruct (IH s0 (b || overflows sx) Hnd) as (s1 & -> & H1 & H2 & H3 & H4).
    { intros id Hid. rewrite Hne by set_solver. apply Hopen. set_solver. }
    assert (overflowing s0 ids = overflowing s ids) as Hov
      by (apply overflowing_ext; intros id Hid; apply Hne; set_solver).
    assert (overflowing s (x :: ids)
      = if overflows sx then x :: overflowing s ids else overflowing s ids) as Hcons
      by (unfold overflowing; simpl; by rewrite Hsx).
    exists s1. rewrite Hcons, Hov in *. split; [|split; [done|split; [done|split]]].
    + f_equal. destruct (overflows sx); simpl; [by rewrite orb_true_r|by rewrite orb_false_r].
    + intros id. rewrite H3. destruct (decide (id = x)) as [->|Hid].
      * rewrite decide_False by done. rewrite decide_True by set_solver. simpl.
        by rewrite lookup_insert_eq, Hsx.
      * rewrite Hne by done. do 2 case_decide; set_solver.
    + rewrite H4. simpl. destruct (overflows sx), (liveSubs s); simpl; try done. f_equal. set_solver.
Qed.

(** ** The whole cascade *)

Definition live (s : service) : gset Z := default ∅ (liveSubs s).

(** What publishing [event] did, when [more] are the discontinuities that
    the overflows on the way caused: subscriptions that are not live are
    untouched; one that stays live gained a subsequence of what was
    published, all of it when it is critical; one that was removed is
    critical, closed, and holds its fault event and nothing else. *)
Record published (event : AdjudicatedPassiveEvent) (more : list AdjudicatedPassiveEvent)
    (s s' : service) : Prop := mkPublished {
  pub_live : live s' ⊆ live s;
  pub_id : nextID s' = nextID s;
  pub_other id : id ∉ live s -> subscriptions s' !! id = subscriptions s !! id;
  pub_stays id x : id ∈ live s' -> subscriptions s !! id = Some x ->
    exists got, sublist got (event :: more)
      /\ (subPriority x = DedupSubscriberCritical -> got = event :: more)
      /\ subscriptions s' !! id = Some (mkSubscription (subName x) (subPriority x) (subCapacity x)
                                          (subQueue x ++ got) false);
  pub_removed id x : id ∈ live s -> id ∉ live s' -> subscriptions s !! id = Some x ->
    subPriority x = DedupSubscriberCritical
    /\ exists e, e ∈ event :: more
      /\ subscriptions s' !! id = Some (mkSubscription (subName x) (subPriority x) (subCapacity x)
                  [overflowFault (subName x) (EvObservedAt (AdjEvent e)) (AdjEpoch e)] true);
  pub_discontinuities : Forall (fun a => Disposition a = DedupDispositionDiscontinuity) more;
  pub_count : (length more + size (live s') <= size (live s))%nat;
  pub_quiet : more = [] -> live s' = live s /\ core s' = core s;
  pub_reset : more <> [] -> degraded (core s') = true /\ pending (core s') = [] /\ active (core s') = ∅;
  pub_epoch : currentEpoch (core s') = Nat.iter (length more) incr64 (currentEpoch (core s))
}.

(** What the reset after an overflow leaves of the deduplicator. *)
Lemma reset_core t reason why d :
  exists a, snd (makeDiscontinuityLocked t reason why d) = [a]
    /\ Disposition a = DedupDispositionDiscontinuity
    /\ degraded (fst (makeDiscontinuityLocked t reason why d)) = true
    /\ pending (fst (makeDiscontinuityLocked t reason why d)) = []
    /\ active (fst (makeDiscontinuityLocked t reason why d)) = ∅
    /\ currentEpoch (fst (makeDiscontinuityLocked t reason why d)) = incr64 (currentEpoch d).
Proof.
  destruct (reset_micro (OpTick 0) t reason why d) as (a & Ea & Hd & _ & Hm & Hdeg & _).
  exists a. do 3 (split; [done|]). inversion Hm; subst; try done.
Qed.

Lemma delivered_open event x :
  overflows x = false -> subClosed x = false ->
  exists got, sublist got [event] /\ (subPriority x = DedupSubscriberCritical -> got = [event])
    /\ delivered event x
       = mkSubscription (subName x) (subPriority x) (subCapacity x) (subQueue x ++ got) false.
Proof.
  unfold overflows, delivered. intros Ho Hc. destruct (full x); simpl in *.
  - exists []. destruct (subPriority x) eqn:Ep; [done|]. rewrite app_nil_r. split; [apply sublist_nil_l|].
    split; [done|]. destruct x; simpl in *; congruence.
  - by exists [event].
Qed.

Lemma delivered_overflow event x :
  overflows x = true ->
  subPriority x = DedupSubscriberCritical
  /\ delivered event x = mkSubscription (subName x) (subPriority x) (subCapacity x)
       [overflowFault (subName x) (EvObservedAt (AdjEvent event)) (AdjEpoch event)] true.
Proof.
  unfold overflows, delivered. intros [Hf Hp]%andb_prop. apply bool_decide_eq_true in Hp.
  rewrite Hf, Hp. done.
Qed.

(** One round over the live subscriptions, before the reset. *)
Lemma round_live order event s :
  ranges order -> service_ok s ->
  exists s1 gone, fold_left (publishTo event) (order (live s)) (s, false)
      = (s1, negb (bool_decide (gone = [])))
    /\ core s1 = core s /\ nextID s1 = nextID s
    /\ live s1 = live s ∖ list_to_set gone /\ (forall id, id ∈ gone -> id ∈ live s)
    /\ (forall id, id ∉ live s -> subscriptions s1 !! id = subscriptions s !! id)
    /\ (forall id x, id ∈ live s -> subscriptions s !! id = Some x ->
          subscriptions s1 !! id = Some (delivered event x) /\ (id ∈ gone <-> overflows x = true)).
Proof.
  intros Hr Hok. assert (forall id, id ∈ order (live s) <-> id ∈ live s) as Hin.
  { intros id. rewrite (Hr (live s)). apply elem_of_elements. }
  destruct (round_spec event (order (live s)) s false) as (s1 & E & H1 & H2 & H3 & H4).
  { rewrite (Hr (live s)). apply NoDup_elements. }
  { intros id Hid. by apply Hok, Hin. }
  assert (forall id, id ∈ overflowing s (order (live s)) <->
    id ∈ live s /\ (match subscriptions s !! id with Some x => overflows x | None => false end) = true) as Hg.
  { intros id. unfold overflowing. rewrite list_elem_of_In, List.filter_In, <- list_elem_of_In. by rewrite Hin. }
  exists s1, (overflowing s (order (live s))). do 3 (split; [done|]). split; [|split; [|split]].
  - unfold live at 1. rewrite H4. unfold live. destruct (liveSubs s); simpl; [done|]. set_solver.
  - intros id [? _]%Hg. done.
  - intros id Hid. rewrite H3, decide_False; [done|]. by rewrite Hin.
  - intros id x Hid Hx. rewrite H3, decide_True by (by apply Hin). rewrite Hg, Hx. simpl. naive_solver.
Qed.

Lemma round_ok event s s1 gone :
  service_ok s -> live s1 = live s ∖ list_to_set gone ->
  (forall id x, id ∈ live s -> subscriptions s !! id = Some x ->
     subscriptions s1 !! id = Some (delivered event x) /\ (id ∈ gone <-> overflows x = true)) ->
  service_ok s1.
Proof.
  intros Hok Hl Hs id Hid. fold (live s1) in Hid. rewrite Hl in Hid.
  assert (id ∈ live s /\ id ∉ gone) as [Hin Hng] by set_solver.
  destruct (Hok id Hin) as (x & Hx & Hc & Hcap). destruct (Hs id x Hin Hx) as [Hd Hg].
  destruct (delivered_open event x) as (got & _ & _ & Ed); [|done|].
  { apply not_true_is_false. naive_solver. }
  exists (delivered event x). rewrite Ed in *. naive_solver.
Qed.

(** A round without an overflow is the whole publication. *)
Lemma published_quiet event s s1 :
  service_ok s -> core s1 = core s -> nextID s1 = nextID s -> live s1 = live s ->
  (forall id, id ∉ live s -> subscriptions s1 !! id = subscriptions s !! id) ->
  (forall id x, id ∈ live s -> subscriptions s !! id = Some x ->
     subscriptions s1 !! id = Some (delivered event x) /\ overflows x = false) ->
  published event [] s s1.
Proof.
  intros Hok Hc Hn Hl Ho Hs. split; rewrite ?Hl, ?Hc; try done.
  - intros id x Hid Hx. destruct (Hs id x Hid Hx) as [Hd Hov].
    destruct (Hok id Hid) as (y & Hy & Hcl & _). assert (y = x) as -> by congruence.
    destruct (delivered_open event x Hov Hcl) as (got & H1 & H2 & H3). exists got.
    by rewrite Hd, H3.
Qed.

(** A round with an overflow, the reset, and the publication of the
    discontinuity the reset yields. *)
Lemma published_cascade event a more gone s s1 d s' :
  service_ok s -> gone <> [] -> (forall id, id ∈ gone -> id ∈ live s) ->
  nextID s1 = nextID s -> live s1 = live s ∖ list_to_set gone ->
  (forall id, id ∉ live s -> subscriptions s1 !! id = subscriptions s !! id) ->
  (forall id x, id ∈ live s -> subscriptions s !! id = Some x ->
     subscriptions s1 !! id = Some (delivered event x) /\ (id ∈ gone <-> overflows x = true)) ->
  Disposition a = DedupDispositionDiscontinuity ->
  degraded d = true -> pending d = [] -> active d = ∅ -> currentEpoch d = incr64 (currentEpoch (core s)) ->
  published a more (set_core d s1) s' -> published event (a :: more) s s'.
Proof.
  intros Hok Hgone Hsub Hn Hl Ho Hs Ha Hd Hp Hact He [Pl Pi Po Ps Pr Pd Pc Pq Pt Pe].
  change (live (set_core d s1)) with (live s1) in *. rewrite Hl in *.
  assert (live s1 ⊂ live s) as Hlt.
  { destruct gone as [|g gone']; [done|]. rewrite Hl. pose proof (Hsub g). set_solver. }
  apply subset_size in Hlt. rewrite Hl in Hlt. split; simpl.
  - etrans; [exact Pl|]. clear. set_solver.
  - by rewrite Pi.
  - intros id Hid. rewrite Po by (rewrite elem_of_difference; tauto). by apply Ho.
  - intros id x Hid Hx. pose proof (Pl id Hid) as [Hin Hng]%elem_of_difference.
    rewrite elem_of_list_to_set in Hng. destruct (Hok id Hin) as (y & Hy & Hc & _).
    assert (y = x) as -> by congruence. destruct (Hs id x Hin Hx) as [Hdx Hg].
    destruct (delivered_open event x) as (g1 & G1 & G2 & G3); [|done|].
    { apply not_true_is_false. by rewrite <- Hg. }
    destruct (Ps id (delivered event x) Hid Hdx) as (g2 & F1 & F2 & F3). rewrite G3 in F2, F3.
    exists (g1 ++ g2). simpl in *. rewrite app_assoc. split; [|split; [|done]].
    + by apply (sublist_app g1 [event] g2).
    + intros Hcrit. by rewrite G2, F2.
  - intros id x Hid Hnot Hx. destruct (Hs id x Hid Hx) as [Hdx Hg].
    destruct (decide (id ∈ gone)) as [Hin|Hin].
    + change (subscriptions s1) with (subscriptions (set_core d s1)) in Hdx.
      rewrite <- (Po id) in Hdx by (rewrite elem_of_difference, elem_of_list_to_set; tauto).
      apply Hg, (delivered_overflow event) in Hin as [Hcrit E]. split; [done|]. exists event.
      split; [by left|]. by rewrite Hdx, E.
    + destruct (Hok id Hid) as (y & Hy & Hc & _). assert (y = x) as -> by congruence.
      destruct (delivered_open event x) as (g1 & G1 & G2 & G3); [|done|].
      { apply not_true_is_false. by rewrite <- Hg. }
      destruct (Pr id (delivered event x)) as [Hcrit (e & E1 & E2)]; [|done|done|].
      { by rewrite elem_of_difference, elem_of_list_to_set. }
      rewrite G3 in *. simpl in *. split; [done|]. exists e. split; [by right|done].
  - by constructor.
  - lia.
  - done.
  - intros _. destruct more as [|b more].
    + destruct Pq as [_ Hcore]; [done|]. by rewrite Hcore.
    + by apply Pt.
  - rewrite Pe. simpl. rewrite He. symmetry.
    exact (Nat.iter_succ_r (length more) _ incr64 (currentEpoch (core s))).
Qed.

Lemma publish_published order : ranges order -> forall fuel event s,
  service_ok s -> (size (live s) < fuel)%nat ->
  exists s' more, publish order fuel event s = Some s' /\ service_ok s' /\ published event more s s'.
Proof.
  intros Hr fuel. induction fuel as [|fuel IH]; intros event s Hok Hfuel; [lia|]. cbn [publish].
  destruct (round_live order event s Hr Hok) as (s1 & gone & E & H1 & H2 & H3 & H4 & H5 & H6).
  fold (live s). rewrite E. pose proof (round_ok event s s1 gone Hok H3 H6) as Hok1.
  destruct (decide (gone = [])) as [->|Hgone].
  - exists s1, []. simpl. split; [done|]. split; [done|]. apply published_quiet; try done.
    + rewrite H3. set_solver.
    + intros id x Hid Hx. destruct (H6 id x Hid Hx) as [? Hg]. split; [done|].
      apply not_true_is_false. rewrite <- Hg. set_solver.
  - rewrite bool_decide_false by done. cbn [negb].
    destruct (reset_core (EvObservedAt (AdjEvent event)) PassiveDiscontinuityCriticalSubscriberFault
      "dedup_output_overflow" (core s1)) as (a & Ea & Ra & Rd & Rp & Rc & Re).
    destruct (makeDiscontinuityLocked _ _ _ (core s1)) as [d outs]. cbn [fst snd] in *. subst outs.
    cbn [fold_left mbind option_bind]. change (Some (set_core d s1) ≫= publish order fuel a)
      with (publish order fuel a (set_core d s1)).
    destruct (IH a (set_core d s1)) as (s' & more & P1 & P2 & P3); [done|..].
    { change (live (set_core d s1)) with (live s1). rewrite H3.
      assert (live s ∖ list_to_set gone ⊂ live s) as Hlt%subset_size; [|lia].
      destruct gone as [|g gone']; [done|]. pose proof (H4 g). set_solver. }
    exists s', (a :: more). split; [done|]. split; [done|].
    eapply (published_cascade event a more gone s s1 d s'); try done. by rewrite Re, H1.
Qed.

(** ** The service *)

Lemma publishEvent_published order event s :
  ranges order -> service_ok s ->
  exists s' more, publishEvent order event s = Some s' /\ service_ok s' /\ published event more s s'.
Proof. intros Hr Hok. apply publish_published; [done..|]. fold (live s). lia. Qed.

Lemma publishAll_ok order events : ranges order -> forall s,
  service_ok s -> exists s', publishAll order events s = Some s' /\ service_ok s'.
Proof.
  intros Hr. unfold publishAll. induction events as [|e events IH]; intros s Hok; [by exists s|].
  destruct (publishEvent_published order e s Hr Hok) as (s' & more & E & Hok' & _).
  cbn [fold_left]. change (Some s ≫= publishEvent order e) with (publishEvent order e s). rewrite E.
  by apply IH.
Qed.

Lemma Subscribe_ok name priority buffer s : service_ok s -> service_ok (fst (Subscribe name priority buffer s)).
Proof.
  intros Hok. unfold Subscribe. destruct (String.eqb name ""); [done|].
  destruct (liveSubs s) as [l|] eqn:El; simpl; intros id Hid; simpl in *; [|set_solver].
  set (id' := incr64 _) in *. destruct (decide (id = id')) as [->|Hne].
  - rewrite lookup_insert_eq. eexists. split; [done|]. simpl. split; [done|].
    destruct (Z.leb_spec buffer 0); [destruct priority as [[]|]; simpl; lia|done].
  - rewrite lookup_insert_ne by done. apply Hok. rewrite El. simpl. set_solver.
Qed.

(** Removing a subscription keeps the rest of the service well-formed. *)
Lemma unsubscribe_ok id s : service_ok s -> service_ok (unsubscribe id s).
Proof.
  intros Hok. unfold unsubscribe, unsubscribeCore. destruct (subscriptions s !! id) as [x|] eqn:Ex; [|done].
  destruct (subClosed x) eqn:Ec; [done|]. intros id' Hid. simpl in *.
  destruct (liveSubs s) as [l|] eqn:El; simpl in *; [|set_solver].
  destruct (decide (id' = id)) as [->|Hne]; [set_solver|]. rewrite lookup_insert_ne by done.
  apply Hok. rewrite El. simpl. set_solver.
Qed.

Lemma closeAll_fold l : forall s,
  liveSubs s = None -> liveSubs (fold_left (fun s id => unsubscribe id s) l s) = None.
Proof.
  induction l as [|id l IH]; intros s Hs; [done|]. apply IH. unfold unsubscribe, unsubscribeCore.
  destruct (subscriptions s !! id) as [x|]; [|done]. destruct (subClosed x); simpl; by rewrite ?Hs.
Qed.

Lemma closeAll_ok order s : service_ok (closeAllSubscribers order s).
Proof. intros id Hid. unfold closeAllSubscribers in Hid. rewrite closeAll_fold in Hid by done. set_solver. Qed.

(** Every call of the service returns, in whatever order Go ranges over
    the subscribers: after any sequence of subscriptions, cancellations,
    active and passive events, ticks and resets a publication ends, however
    many resets its overflows cause, and does exactly what [published]
    says. *)
Theorem publication_terminates `{P : EbusProtocol, D : Digest} (order : gset Z -> list Z) (d : dedup)
    (os : list serviceOp) :
  ranges order ->
  exists s, serviceRun order os (newService d) = Some s
    /\ forall event, exists s' more,
         publishEvent order event s = Some s' /\ published event more s s'.
Proof.
  intros Hr.
  assert (forall s, service_ok s -> exists s', serviceRun order os s = Some s' /\ service_ok s') as Hrun.
  { unfold serviceRun. induction os as [|o os IH]; intros s Hok; [by exists s|]. cbn [fold_left].
    change (Some s ≫= serviceStep order o) with (serviceStep order o s).
    assert (exists s', serviceStep order o s = Some s' /\ service_ok s') as (s' & -> & Hok').
    { destruct o as [name priority buffer|id|o|]; simpl.
      - eexists. split; [done|]. by apply Subscribe_ok.
      - eexists. split; [done|]. by apply unsubscribe_ok.
      - unfold serve. destruct (step o (core s)) as [d' outs]. by apply publishAll_ok.
      - eexists. split; [done|]. apply closeAll_ok. }
    by apply IH. }
  destruct (Hrun (newService d)) as (s & E & Hok).
  { intros id Hid. simpl in Hid. set_solver. }
  exists s. split; [done|]. intros event.
  destruct (publishEvent_published order event s Hr Hok) as (s' & more & ? & _ & ?). by exists s', more.
Qed.

(** Two subscribers, one of them critical with room for one event: the
    second event resets the epoch. *)
Definition demo_svc : list serviceOp :=
  [ SvcSubscribe "shadow" (Some DedupSubscriberCritical) 1;
    SvcSubscribe "log" None 4;
    SvcServe (OpPassive (demo_passive demo_other 3000) 0);
    SvcServe (OpTick (10000 * millisecond)) ].

Example demo_svc_run :
  (fun s => (fun p => Disposition <$> subQueue (snd p)) <$> map_to_list (subscriptions s))
    <$> (serviceRun (P := demo_protocol) (D := demo_digest) elements demo_svc (newService demo_dedup)
           ≫= publishEvent elements (overflowFault "x" 0 0))
  = Some [[DedupDispositionObservabilityOnly; DedupDispositionDiscontinuity; DedupDispositionDiscontinuity];
          [DedupDispositionDiscontinuity]].
Proof. vm_compute. reflexivity. Qed.

Lemma publication_terminates_witness :
  exists s, serviceRun (P := demo_protocol) (D := demo_digest) elements demo_svc (newService demo_dedup) = Some s
    /\ forall event, exists s' more, publishEvent elements event s = Some s' /\ published event more s s'.
Proof.
  apply (publication_terminates (P := demo_protocol) (D := demo_digest) elements demo_dedup demo_svc).
  intros l. reflexivity.
Defined.

End DedupFanout.
