(* ===== verification/ShadowCache.v ===== *)
(** * The shadow cache

    [shadow_cache.go]: the values the gateway last read or overheard, keyed
    by the canonical string of a watch key.  Entries live in a map under a
    lock; generations, precedence and a lock-free snapshot are kept per key
    and survive the eviction of the entry; unpinned entries form an LRU
    list, and a compactor walks all of them with a cursor.

    A pointer into a [container/list] is the canonical key of its element:
    an entry has at most one element in each list, which is part of the
    invariant of [ShadowInv.v].  The order in which Go ranges over the entry
    map is a function of its keys, and a reading of the clock is an argument.
    [None] as result of an operation would be a loop that does not end;
    [ShadowInv.v] shows that no operation on a reachable cache gives it. *)

From S2P Require Import Prelude Ebus WatchCatalog FamilyPolicy.

Local Open Scope Z_scope.

Module ShadowCache.
Import WatchCatalog FamilyPolicy.

(** ** Constants and data *)

Definition minute : Z := 60 * second.

Definition DefaultShadowCacheCapacity : Z := 4096.
Definition DefaultShadowCachePinnedCapacity : Z := 2048.
Definition DefaultShadowCacheWriteConfirmPinnedCap : Z := 256.
Definition DefaultShadowCacheTombstoneRetainWindow : Z := 15 * minute.
Definition DefaultShadowCacheTombstoneHardLifespan : Z := 24 * 60 * minute.
Definition DefaultShadowCacheCompactorCadence : Z := minute.
Definition DefaultShadowCacheCompactorBatchSize : Z := 64.
Definition DefaultShadowCacheShutdownCompactorTimeout : Z := second.
Definition runtimeDescriptorDecoderPassiveFallback : string := "semantic.read.passive_fallback".

Definition ShadowWriteSourcePassive : string := "passive".
Definition ShadowWriteSourceActiveConfirmed : string := "active_confirmed".
Definition ShadowConfidenceNone : string := "no_confidence".
Definition ShadowInvalidationReasonManual : string := "manual".
Definition ShadowInvalidationSourceSystem : string := "system".

(** [ShadowEntryState]; the first constructor is the empty string. *)
Inductive ShadowEntryState :=
| ShadowEntryStateZero
| ShadowEntryStatePresent
| ShadowEntryStateInvalidated
| ShadowEntryStateTombstone.
#[export] Instance ShadowEntryState_eq_dec : EqDecision ShadowEntryState.
Proof. solve_decision. Defined.

(** [ShadowWriteRejectionReason]; the first constructor is the empty
    string. *)
Inductive ShadowWriteRejectionReason :=
| NotRejected
| ShadowWriteRejectionReasonStaleTimestamp
| ShadowWriteRejectionReasonSameTimestampConflict
| ShadowWriteRejectionReasonGenerationAdvanced
| ShadowWriteRejectionReasonPolicyReject
| ShadowWriteRejectionReasonCapacity.
#[export] Instance ShadowWriteRejectionReason_eq_dec : EqDecision ShadowWriteRejectionReason.
Proof. solve_decision. Defined.

(** [shadowPinClass]. *)
Inductive shadowPinClass := shadowPinClassNone | shadowPinClassWriteConfirm | shadowPinClassStatic.
#[export] Instance shadowPinClass_eq_dec : EqDecision shadowPinClass.
Proof. solve_decision. Defined.

(** The numbers of [ShadowCacheOptions]. *)
Record ShadowCacheOptions := mkOptions {
  Capacity : Z;
  PinnedCapacity : Z;
  WriteConfirmPinnedCap : Z;
  TombstoneRetainWindow : Z;
  TombstoneHardLifespan : Z;
  CompactorCadence : Z;
  CompactorBatchSize : Z;
  ShutdownCompactorTimeout : Z
}.

(** [shadowEligibilitySnapshotRecord]. *)
Record shadowEligibilitySnapshotRecord := mkSnapshot {
  snPresent : bool;
  snState : ShadowEntryState;
  snGeneration : Z;
  snObservedAt : time;
  snExpiresAt : time
}.
Definition zeroSnapshot : shadowEligibilitySnapshotRecord := mkSnapshot false ShadowEntryStateZero 0 0 0.

(** [shadowKeyState]. *)
Record shadowKeyState := mkKeyState {
  ksGeneration : Z;
  ksLastWriteGeneration : Z;
  ksInvalidatedAt : time;
  ksPrecedenceHighWater : time;
  ksSnapshot : shadowEligibilitySnapshotRecord
}.
Definition zeroKeyState : shadowKeyState := mkKeyState 0 0 0 0 zeroSnapshot.

(** [shadowEntry]; [enEvictable] says that [evictableElem] is not nil. *)
Record shadowEntry := mkEntry {
  enCanonicalKey : string;
  enDescriptor : WatchDescriptor;
  enSource : string;
  enConfidence : string;
  enState : ShadowEntryState;
  enValue : list byte;
  enObservedAt : time;
  enExpiresAt : time;
  enGeneration : Z;
  enLastWriteGeneration : Z;
  enInvalidationGeneration : Z;
  enInvalidationReason : string;
  enInvalidationSource : string;
  enInvalidatedAt : time;
  enPinClass : shadowPinClass;
  enEvictable : bool
}.

(** The entry [Write] and [Invalidate] start from. *)
Definition newEntry (canonical : string) (d : WatchDescriptor) : shadowEntry :=
  mkEntry canonical d "" "" ShadowEntryStateZero [] 0 0 0 0 0 "" "" 0 shadowPinClassNone false.

(** [ShadowCache]; the compactor goroutine and its channels are left out. *)
Record cache := mkCache {
  options : ShadowCacheOptions;
  featureFlags : ObserveFirstFeatureFlags;
  catalog : WatchCatalog.WatchCatalog;
  activations : WatchActivationSet;
  lastUpdatedAt : time;
  entries : gmap string shadowEntry;
  keyState : gmap string shadowKeyState;
  evictableLRU : list string;
  compactorList : list string;
  compactorCursor : option string;
  pinnedBudgetDegraded : bool
}.

Definition set_graph (k : WatchCatalog.WatchCatalog) (a : WatchActivationSet) (c : cache) : cache :=
  mkCache (options c) (featureFlags c) k a (lastUpdatedAt c) (entries c) (keyState c)
    (evictableLRU c) (compactorList c) (compactorCursor c) (pinnedBudgetDegraded c).
Definition set_lastUpdatedAt (t : time) (c : cache) : cache :=
  mkCache (options c) (featureFlags c) (catalog c) (activations c) t (entries c) (keyState c)
    (evictableLRU c) (compactorList c) (compactorCursor c) (pinnedBudgetDegraded c).
Definition set_entries (m : gmap string shadowEntry) (c : cache) : cache :=
  mkCache (options c) (featureFlags c) (catalog c) (activations c) (lastUpdatedAt c) m (keyState c)
    (evictableLRU c) (compactorList c) (compactorCursor c) (pinnedBudgetDegraded c).
Definition set_keyState (m : gmap string shadowKeyState) (c : cache) : cache :=
  mkCache (options c) (featureFlags c) (catalog c) (activations c) (lastUpdatedAt c) (entries c) m
    (evictableLRU c) (compactorList c) (compactorCursor c) (pinnedBudgetDegraded c).
Definition set_lru (l : list string) (c : cache) : cache :=
  mkCache (options c) (featureFlags c) (catalog c) (activations c) (lastUpdatedAt c) (entries c)
    (keyState c) l (compactorList c) (compactorCursor c) (pinnedBudgetDegraded c).
Definition set_compactor (l : list string) (cursor : option string) (c : cache) : cache :=
  mkCache (options c) (featureFlags c) (catalog c) (activations c) (lastUpdatedAt c) (entries c)
    (keyState c) (evictableLRU c) l cursor (pinnedBudgetDegraded c).
Definition set_budget (b : bool) (c : cache) : cache :=
  mkCache (options c) (featureFlags c) (catalog c) (activations c) (lastUpdatedAt c) (entries c)
    (keyState c) (evictableLRU c) (compactorList c) (compactorCursor c) b.

Definition set_descriptor (d : WatchDescriptor) (e : shadowEntry) : shadowEntry :=
  mkEntry (enCanonicalKey e) d (enSource e) (enConfidence e) (enState e) (enValue e) (enObservedAt e)
    (enExpiresAt e) (enGeneration e) (enLastWriteGeneration e) (enInvalidationGeneration e)
    (enInvalidationReason e) (enInvalidationSource e) (enInvalidatedAt e) (enPinClass e) (enEvictable e).
Definition set_generation (g : Z) (e : shadowEntry) : shadowEntry :=
  mkEntry (enCanonicalKey e) (enDescriptor e) (enSource e) (enConfidence e) (enState e) (enValue e)
    (enObservedAt e) (enExpiresAt e) g (enLastWriteGeneration e) (enInvalidationGeneration e)
    (enInvalidationReason e) (enInvalidationSource e) (enInvalidatedAt e) (enPinClass e) (enEvictable e).
Definition set_lastWriteGeneration (g : Z) (e : shadowEntry) : shadowEntry :=
  mkEntry (enCanonicalKey e) (enDescriptor e) (enSource e) (enConfidence e) (enState e) (enValue e)
    (enObservedAt e) (enExpiresAt e) (enGeneration e) g (enInvalidationGeneration e)
    (enInvalidationReason e) (enInvalidationSource e) (enInvalidatedAt e) (enPinClass e) (enEvictable e).
Definition set_pin (p : shadowPinClass) (evictable : bool) (e : shadowEntry) : shadowEntry :=
  mkEntry (enCanonicalKey e) (enDescriptor e) (enSource e) (enConfidence e) (enState e) (enValue e)
    (enObservedAt e) (enExpiresAt e) (enGeneration e) (enLastWriteGeneration e)
    (enInvalidationGeneration e) (enInvalidationReason e) (enInvalidationSource e)
    (enInvalidatedAt e) p evictable.
(** [entry.state = ShadowEntryStateTombstone; entry.value = nil]. *)
Definition set_tombstone (e : shadowEntry) : shadowEntry :=
  mkEntry (enCanonicalKey e) (enDescriptor e) (enSource e) (enConfidence e) ShadowEntryStateTombstone []
    (enObservedAt e) (enExpiresAt e) (enGeneration e) (enLastWriteGeneration e)
    (enInvalidationGeneration e) (enInvalidationReason e) (enInvalidationSource e)
    (enInvalidatedAt e) (enPinClass e) (enEvictable e).

(** An assignment through the entry pointer, and through the key state
    pointer. *)
Definition modEntry (canonical : string) (f : shadowEntry -> shadowEntry) (c : cache) : cache :=
  set_entries (alter f canonical (entries c)) c.
Definition modState (canonical : string) (f : shadowKeyState -> shadowKeyState) (c : cache) : cache :=
  set_keyState (alter f canonical (keyState c)) c.

(** ** Options and construction *)

(** [normalizeShadowCacheOptions], for the numbers. *)
Definition normalizeShadowCacheOptions (o : ShadowCacheOptions) : ShadowCacheOptions :=
  let capacity := if Capacity o <=? 0 then DefaultShadowCacheCapacity else Capacity o in
  let pinned :=
    if (PinnedCapacity o <=? 0) || (capacity <? PinnedCapacity o)
    then if capacity <? DefaultShadowCachePinnedCapacity then capacity else DefaultShadowCachePinnedCapacity
    else PinnedCapacity o in
  let confirm :=
    if (WriteConfirmPinnedCap o <? 0) || (pinned <? WriteConfirmPinnedCap o)
    then if pinned <? DefaultShadowCacheWriteConfirmPinnedCap then pinned
         else DefaultShadowCacheWriteConfirmPinnedCap
    else WriteConfirmPinnedCap o in
  let retain := if TombstoneRetainWindow o <=? 0 then DefaultShadowCacheTombstoneRetainWindow
                else TombstoneRetainWindow o in
  let hard0 := if TombstoneHardLifespan o <=? 0 then DefaultShadowCacheTombstoneHardLifespan
               else TombstoneHardLifespan o in
  let hard := if hard0 <? retain then retain else hard0 in
  let cadence := if CompactorCadence o <=? 0 then DefaultShadowCacheCompactorCadence
                 else CompactorCadence o in
  let batch := if CompactorBatchSize o <=? 0 then DefaultShadowCacheCompactorBatchSize
               else CompactorBatchSize o in
  let shutdown := if ShutdownCompactorTimeout o <=? 0 then DefaultShadowCacheShutdownCompactorTimeout
                  else ShutdownCompactorTimeout o in
  mkOptions capacity pinned confirm retain hard cadence batch shutdown.

(** [touchLocked]. *)
Definition touchLocked (at_ : time) (c : cache) : cache :=
  if IsZero at_ then c
  else if IsZero (lastUpdatedAt c) || (lastUpdatedAt c <? at_) then set_lastUpdatedAt at_ c else c.

(** [shadowingEnabled]. *)
Definition shadowingEnabled (c : cache) : bool := negb (pinnedBudgetDegraded c).

(** ** Pins *)

(** [staticPinnedBudget]. *)
Definition staticPinnedBudget (c : cache) : Z :=
  let budget := PinnedCapacity (options c) - WriteConfirmPinnedCap (options c) in
  if budget <? 0 then 0 else budget.

(** [ActiveSources] on the key of a descriptor. *)
Definition descriptorSources (a : WatchActivationSet) (k : KeyArg) : list string :=
  sortedWatchActivationSources (default ∅ (WatchCatalog.active a !! argCanonical k)).

(** [watchActivationSourcesContain]. *)
Definition watchActivationSourcesContain (sources : list string) (target : string) : bool :=
  existsb (fun s => String.eqb s target) sources.

(** [staticPinnedFootprint]. *)
Definition staticPinnedFootprint (c : cache) : Z :=
  len (List.filter
    (fun d => match Key d with
              | None => false
              | Some k =>
                  negb (String.eqb (FreshnessProfile d) WatchFreshnessProfileDebug)
                  && watchActivationSourcesContain (descriptorSources (activations c) k)
                       WatchActivationSourcePoller
              end) (Descriptors (catalog c))).

(** [desiredPinClass], for a key that is not nil. *)
Definition desiredPinClass (d : WatchDescriptor) (sources : list string) : shadowPinClass :=
  if String.eqb (FreshnessProfile d) WatchFreshnessProfileDebug then shadowPinClassNone
  else if watchActivationSourcesContain sources WatchActivationSourcePoller then shadowPinClassStatic
  else if watchActivationSourcesContain sources WatchActivationSourceWriteConfirm
       then shadowPinClassWriteConfirm
  else shadowPinClassNone.

(** [writeConfirmPinnedCountLocked]. *)
Definition isWriteConfirm (e : shadowEntry) : bool :=
  bool_decide (enPinClass e = shadowPinClassWriteConfirm).
Definition writeConfirmPinnedCountLocked (c : cache) : Z :=
  Z.of_nat (size (filter (fun ke => ke.1 <> "" /\ isWriteConfirm ke.2 = true) (entries c))).

(** [canAdmitWriteConfirmPinLocked]. *)
Definition canAdmitWriteConfirmPinLocked (e : option shadowEntry) (c : cache) : bool :=
  match e with
  | Some e =>
      if bool_decide (enPinClass e = shadowPinClassStatic)
         || bool_decide (enPinClass e = shadowPinClassWriteConfirm) then true
      else writeConfirmPinnedCountLocked c <? WriteConfirmPinnedCap (options c)
  | None => writeConfirmPinnedCountLocked c <? WriteConfirmPinnedCap (options c)
  end.

(** [evictableLRU.Remove(entry.evictableElem)] and [PushBack], with the
    assignment to [evictableElem]. *)
Definition removeKey (canonical : string) (l : list string) : list string :=
  List.filter (fun k => negb (String.eqb k canonical)) l.
Definition unlinkLRU (canonical : string) (c : cache) : cache :=
  set_lru (removeKey canonical (evictableLRU c))
    (modEntry canonical (fun e => set_pin (enPinClass e) false e) c).
Definition linkLRU (canonical : string) (c : cache) : cache :=
  set_lru (evictableLRU c ++ [canonical])
    (modEntry canonical (fun e => set_pin (enPinClass e) true e) c).

(** [applyPinClassLocked], on the entry of a key. *)
Definition applyPinClassLocked (canonical : string) (desired : shadowPinClass) (c : cache) : cache :=
  match entries c !! canonical with
  | None => c
  | Some e =>
      if bool_decide (enPinClass e = desired) then
        if bool_decide (desired = shadowPinClassNone) && negb (enEvictable e) then linkLRU canonical c
        else if negb (bool_decide (desired = shadowPinClassNone)) && enEvictable e
             then unlinkLRU canonical c
        else c
      else
        let c1 := if enEvictable e then unlinkLRU canonical c else c in
        let c2 := modEntry canonical (fun e => set_pin desired (enEvictable e) e) c1 in
        if bool_decide (desired = shadowPinClassNone) then linkLRU canonical c2 else c2
  end.

(** [touchEvictableLocked]. *)
Definition touchEvictableLocked (canonical : string) (c : cache) : cache :=
  match entries c !! canonical with
  | None => c
  | Some e =>
      if negb (bool_decide (enPinClass e = shadowPinClassNone)) then c
      else if negb (enEvictable e) then linkLRU canonical c
      else set_lru (removeKey canonical (evictableLRU c) ++ [canonical]) c
  end.

(** [syncEntryPinLocked], on the entry of a key. *)
Definition syncEntryPinLocked (canonical : string) (c : cache) : cache :=
  match entries c !! canonical with
  | None => c
  | Some e =>
      match Key (enDescriptor e) with
      | None => c
      | Some k =>
          let d0 := desiredPinClass (enDescriptor e) (descriptorSources (activations c) k) in
          let d1 := if bool_decide (d0 = shadowPinClassStatic) && pinnedBudgetDegraded c
                    then shadowPinClassNone else d0 in
          let d2 := if bool_decide (d1 = shadowPinClassWriteConfirm)
                       && negb (canAdmitWriteConfirmPinLocked (Some e) c)
                    then shadowPinClassNone else d1 in
          applyPinClassLocked canonical d2 c
      end
  end.

(** ** Generations, snapshots and removal *)

(** [ensureKeyStateLocked], and the state it returns. *)
Definition ensureKeyStateLocked (canonical : string) (c : cache) : cache :=
  match keyState c !! canonical with
  | Some _ => c
  | None => set_keyState (<[canonical := zeroKeyState]> (keyState c)) c
  end.
Definition stateOf (c : cache) (canonical : string) : shadowKeyState :=
  default zeroKeyState (keyState c !! canonical).

(** [advanceGenerationLocked] and [bumpLastWriteGenerationLocked]. *)
Definition advanceGenerationLocked (canonical : string) (c : cache) : cache :=
  let g := incr64 (ksGeneration (stateOf c canonical)) in
  modEntry canonical (set_generation g)
    (modState canonical (fun s => mkKeyState g (ksLastWriteGeneration s) (ksInvalidatedAt s)
                                    (ksPrecedenceHighWater s) (ksSnapshot s)) c).
Definition bumpLastWriteGenerationLocked (canonical : string) (c : cache) : cache :=
  let g := incr64 (ksLastWriteGeneration (stateOf c canonical)) in
  modEntry canonical (set_lastWriteGeneration g)
    (modState canonical (fun s => mkKeyState (ksGeneration s) g (ksInvalidatedAt s)
                                    (ksPrecedenceHighWater s) (ksSnapshot s)) c).

(** [advanceAbsentGenerationLocked]. *)
Definition advanceAbsentGenerationLocked (canonical : string) (c : cache) : cache :=
  modState canonical (fun s => mkKeyState (incr64 (ksGeneration s)) (incr64 (ksLastWriteGeneration s))
                                 (ksInvalidatedAt s) (ksPrecedenceHighWater s) (ksSnapshot s)) c.

(** [storeSnapshotLocked] and [storeAbsentSnapshotLocked]. *)
Definition set_snapshot (r : shadowEligibilitySnapshotRecord) (s : shadowKeyState) : shadowKeyState :=
  mkKeyState (ksGeneration s) (ksLastWriteGeneration s) (ksInvalidatedAt s) (ksPrecedenceHighWater s) r.
Definition entrySnapshot (e : shadowEntry) : shadowEligibilitySnapshotRecord :=
  mkSnapshot true (enState e) (enGeneration e) (enObservedAt e) (enExpiresAt e).
Definition absentSnapshot (s : shadowKeyState) : shadowEligibilitySnapshotRecord :=
  mkSnapshot false ShadowEntryStateZero (ksGeneration s) 0 0.
Definition storeSnapshotLocked (canonical : string) (c : cache) : cache :=
  match entries c !! canonical with
  | None => c
  | Some e => modState canonical (set_snapshot (entrySnapshot e)) c
  end.
Definition storeAbsentSnapshotLocked (canonical : string) (c : cache) : cache :=
  modState canonical (fun s => set_snapshot (absentSnapshot s) s) c.

(** [elem.Next()]: the key after a key. *)
Fixpoint nextOf (canonical : string) (l : list string) : option string :=
  match l with
  | [] => None
  | k :: rest => if String.eqb k canonical then head rest else nextOf canonical rest
  end.

(** [removeEntryLocked]. *)
Definition removeEntryLocked (canonical : string) (c : cache) : cache :=
  match entries c !! canonical with
  | None => c
  | Some e =>
      let c1 := if enEvictable e then set_lru (removeKey canonical (evictableLRU c)) c else c in
      let next := nextOf canonical (compactorList c1) in
      let cursor := if bool_decide (compactorCursor c1 = Some canonical) then next
                    else compactorCursor c1 in
      let c2 := set_compactor (removeKey canonical (compactorList c1)) cursor c1 in
      storeAbsentSnapshotLocked canonical (set_entries (delete canonical (entries c2)) c2)
  end.

(** The loop of [ensureCapacityLocked]. *)
Fixpoint evictLoop (fuel : nat) (c : cache) : option (cache * bool) :=
  if Z.of_nat (size (entries c)) <? Capacity (options c) then Some (c, true)
  else
    match evictableLRU c with
    | [] => Some (c, false)
    | front :: _ =>
        match fuel with
        | O => None
        | S fuel' => evictLoop fuel' (removeEntryLocked front c)
        end
    end.

(** [ensureCapacityLocked]. *)
Definition ensureCapacityLocked (desired : shadowPinClass) (c : cache) : option (cache * bool) :=
  if Z.of_nat (size (entries c)) <? Capacity (options c) then Some (c, true)
  else
    match evictLoop (size (entries c)) c with
    | None => None
    | Some (c1, false) => Some (c1, false)
    | Some (c1, true) =>
        Some (c1, negb (bool_decide (desired = shadowPinClassWriteConfirm)
                        && (WriteConfirmPinnedCap (options c1) <=? writeConfirmPinnedCountLocked c1)))
    end.

(** [cache.entries[canonical] = &shadowEntry{...}] with the element of the
    compactor list. *)
Definition insertEntry (canonical : string) (d : WatchDescriptor) (c : cache) : cache :=
  set_entries (<[canonical := newEntry canonical d]> (entries c))
    (set_compactor (compactorList c ++ [canonical]) (compactorCursor c) c).

(** ** Writing *)

Record ShadowWrite := mkWrite {
  wKey : option WatchKey;
  wSource : string;
  wConfidence : string;
  wValue : list byte;
  wObservedAt : time;
  wStartGeneration : Z
}.

Record ShadowWriteResult := mkWriteResult {
  Accepted : bool;
  wrGeneration : Z;
  wrLastWriteGeneration : Z;
  Reason : ShadowWriteRejectionReason
}.
Definition rejected (g : Z) (r : ShadowWriteRejectionReason) : ShadowWriteResult :=
  mkWriteResult false g 0 r.

(** [shadowSourcePrecedence]. *)
Definition shadowSourcePrecedence (source : string) : Z :=
  if String.eqb source ShadowWriteSourceActiveConfirmed then 1 else 0.

(** [rejectWriteByPrecedence]: the part on the key state, [None] when it
    does not decide, and the part on the entry. *)
Definition generationQualifiedActive (s : shadowKeyState) (w : ShadowWrite) : bool :=
  String.eqb (wSource w) ShadowWriteSourceActiveConfirmed && (wStartGeneration w =? ksGeneration s).
Definition rejectByEntry (e : shadowEntry) (w : ShadowWrite) : ShadowWriteRejectionReason :=
  if wObservedAt w <? enObservedAt e then ShadowWriteRejectionReasonStaleTimestamp
  else if enObservedAt e <? wObservedAt w then NotRejected
  else if (len (enValue e) =? 0) || bool_decide (enValue e = wValue w) then
    if String.eqb (wSource w) (enSource e)
       || (shadowSourcePrecedence (enSource e) <=? shadowSourcePrecedence (wSource w))
    then NotRejected else ShadowWriteRejectionReasonSameTimestampConflict
  else if String.eqb (wSource w) (enSource e) then ShadowWriteRejectionReasonSameTimestampConflict
  else if shadowSourcePrecedence (enSource e) <? shadowSourcePrecedence (wSource w) then NotRejected
  else ShadowWriteRejectionReasonSameTimestampConflict.
Definition rejectWriteByPrecedence (s : shadowKeyState) (e : option shadowEntry) (w : ShadowWrite)
    : ShadowWriteRejectionReason :=
  let qualified := generationQualifiedActive s w in
  if negb (IsZero (ksInvalidatedAt s)) && (wObservedAt w <? ksInvalidatedAt s)
  then ShadowWriteRejectionReasonStaleTimestamp
  else if negb (IsZero (ksInvalidatedAt s)) && (wObservedAt w =? ksInvalidatedAt s)
  then if qualified then NotRejected else ShadowWriteRejectionReasonStaleTimestamp
  else
    match e with
    | None =>
        if negb (IsZero (ksPrecedenceHighWater s)) then
          if wObservedAt w <? ksPrecedenceHighWater s then ShadowWriteRejectionReasonStaleTimestamp
          else if (wObservedAt w =? ksPrecedenceHighWater s) && negb qualified
               then ShadowWriteRejectionReasonStaleTimestamp
          else NotRejected
        else NotRejected
    | Some e => rejectByEntry e w
    end.

(** The assignments of [Write] to the entry and to the key state. *)
Definition writeEntry (w : ShadowWrite) (d : WatchDescriptor) (ttl : Z) (desired : shadowPinClass)
    (e : shadowEntry) : shadowEntry :=
  mkEntry (enCanonicalKey e) d (wSource w) (wConfidence w) ShadowEntryStatePresent (wValue w)
    (wObservedAt w) (wObservedAt w + ttl) (enGeneration e) (enLastWriteGeneration e)
    (enInvalidationGeneration e) "" "" 0 desired (enEvictable e).
Definition writeState (w : ShadowWrite) (s : shadowKeyState) : shadowKeyState :=
  mkKeyState (ksGeneration s) (ksLastWriteGeneration s) 0
    (if IsZero (ksPrecedenceHighWater s) || (ksPrecedenceHighWater s <? wObservedAt w)
     then wObservedAt w else ksPrecedenceHighWater s) (ksSnapshot s).

(** The end of [Write], from the accepted value on. *)
Definition commitWrite (canonical : string) (w : ShadowWrite) (d : WatchDescriptor) (ttl : Z)
    (desired : shadowPinClass) (c : cache) : cache * ShadowWriteResult :=
  let c1 := modState canonical (writeState w) (modEntry canonical (writeEntry w d ttl desired) c) in
  let c2 := match entries c1 !! canonical with
            | Some e => if enGeneration e =? 0 then advanceGenerationLocked canonical c1 else c1
            | None => c1
            end in
  let c3 := bumpLastWriteGenerationLocked canonical c2 in
  let c4 := applyPinClassLocked canonical desired c3 in
  let c5 := touchLocked (wObservedAt w) (storeSnapshotLocked canonical c4) in
  (c5, match entries c5 !! canonical with
       | Some e => mkWriteResult true (enGeneration e) (enLastWriteGeneration e) NotRejected
       | None => rejected 0 NotRejected
       end).

(** [Write]. *)
Definition Write (w : ShadowWrite) (c : cache) : option (cache * ShadowWriteResult) :=
  match wKey w with
  | None => Some (c, rejected 0 ShadowWriteRejectionReasonPolicyReject)
  | Some key =>
      if IsZero (wObservedAt w) || String.eqb (wSource w) "" || String.eqb (wConfidence w) ""
      then Some (c, rejected 0 ShadowWriteRejectionReasonPolicyReject)
      else
        let canonical := Canonical key in
        match DescriptorByCanonical (catalog c) canonical with
        | None => Some (c, rejected 0 ShadowWriteRejectionReasonPolicyReject)
        | Some d =>
            let sources := ActiveSources (activations c) (Some key) in
            if String.eqb (FreshnessProfile d) WatchFreshnessProfileDebug
               || String.eqb (wConfidence w) ShadowConfidenceNone || negb (shadowingEnabled c)
               || (len sources =? 0)
            then Some (c, rejected 0 ShadowWriteRejectionReasonPolicyReject)
            else
              let c0 := ensureKeyStateLocked canonical c in
              let entry := entries c0 !! canonical in
              let desired := desiredPinClass d sources in
              if bool_decide (desired = shadowPinClassStatic) && pinnedBudgetDegraded c0
              then Some (c0, rejected 0 ShadowWriteRejectionReasonPolicyReject)
              else if bool_decide (desired = shadowPinClassWriteConfirm)
                      && negb (canAdmitWriteConfirmPinLocked entry c0)
              then Some (c0, rejected 0 ShadowWriteRejectionReasonCapacity)
              else
                let c1 := syncEntryPinLocked canonical c0 in
                let s := stateOf c1 canonical in
                if String.eqb (wSource w) ShadowWriteSourceActiveConfirmed
                   && negb (ksGeneration s =? wStartGeneration w)
                then Some (c1, rejected (ksGeneration s) ShadowWriteRejectionReasonGenerationAdvanced)
                else
                  match rejectWriteByPrecedence s (entries c1 !! canonical) w with
                  | NotRejected =>
                      match EffectiveFreshnessTTL d with
                      | inl _ => Some (c1, rejected 0 ShadowWriteRejectionReasonPolicyReject)
                      | inr ttl =>
                          if ttl <=? 0
                          then Some (c1, rejected 0 ShadowWriteRejectionReasonPolicyReject)
                          else
                            match entries c1 !! canonical with
                            | Some _ => Some (commitWrite canonical w d ttl desired c1)
                            | None =>
                                match ensureCapacityLocked desired c1 with
                                | None => None
                                | Some (c2, false) =>
                                    Some (c2, rejected 0 ShadowWriteRejectionReasonCapacity)
                                | Some (c2, true) =>
                                    Some (commitWrite canonical w d ttl desired
                                      (advanceGenerationLocked canonical (insertEntry canonical d c2)))
                                end
                            end
                      end
                  | r => Some (c1, rejected (ksGeneration s) r)
                  end
        end
  end.

(** ** Invalidating *)

Record ShadowInvalidation := mkInvalidation {
  iKey : option WatchKey;
  iReason : string;
  iSource : string;
  iInvalidatedAt : time
}.

(** [ShadowInvalidationResult]. *)
Record ShadowInvalidationResult := mkInvalidationResult {
  irGeneration : Z;
  irState : ShadowEntryState
}.

(** The assignments of [Invalidate] to the key state and to the entry. *)
Definition invalidateState (at_ : time) (s : shadowKeyState) : shadowKeyState :=
  mkKeyState (ksGeneration s) (ksLastWriteGeneration s)
    (if IsZero (ksInvalidatedAt s) || (ksInvalidatedAt s <? at_) then at_ else ksInvalidatedAt s)
    (if IsZero (ksPrecedenceHighWater s) || (ksPrecedenceHighWater s <? at_) then at_
     else ksPrecedenceHighWater s) (ksSnapshot s).
Definition invalidateEntry (reason source : string) (at_ : time) (d : WatchDescriptor)
    (desired : shadowPinClass) (e : shadowEntry) : shadowEntry :=
  mkEntry (enCanonicalKey e) d (enSource e) (enConfidence e)
    (if 0 <? len (enValue e) then ShadowEntryStateInvalidated else ShadowEntryStateTombstone)
    (enValue e) (enObservedAt e) (enExpiresAt e) (enGeneration e) (enLastWriteGeneration e)
    (enGeneration e) reason source at_ desired (enEvictable e).

(** The end of [Invalidate], when there is an entry. *)
Definition commitInvalidate (canonical reason source : string) (at_ : time) (d : WatchDescriptor)
    (desired0 : shadowPinClass) (c : cache) : cache * ShadowInvalidationResult :=
  let desired := if bool_decide (desired0 = shadowPinClassWriteConfirm)
                    && negb (canAdmitWriteConfirmPinLocked (entries c !! canonical) c)
                 then shadowPinClassNone else desired0 in
  let c1 := advanceGenerationLocked canonical c in
  let c2 := modEntry canonical
              (invalidateEntry reason source (ksInvalidatedAt (stateOf c1 canonical)) d desired) c1 in
  let c3 := applyPinClassLocked canonical desired (bumpLastWriteGenerationLocked canonical c2) in
  let c4 := touchLocked at_ (storeSnapshotLocked canonical c3) in
  (c4, match entries c4 !! canonical with
       | Some e => mkInvalidationResult (enGeneration e) (enState e)
       | None => mkInvalidationResult 0 ShadowEntryStateZero
       end).

(** The branch of [Invalidate] that finds no room: only the generation
    advances. *)
Definition invalidateAbsent (canonical : string) (c : cache) : cache * ShadowInvalidationResult :=
  let c1 := storeAbsentSnapshotLocked canonical (advanceAbsentGenerationLocked canonical c) in
  (c1, mkInvalidationResult (ksGeneration (stateOf c1 canonical)) ShadowEntryStateTombstone).

(** [Invalidate]; [now] is the clock, read when the request has no time. *)
Definition Invalidate (i : ShadowInvalidation) (now : time) (c : cache)
    : option (cache * ShadowInvalidationResult) :=
  match iKey i with
  | None => Some (c, mkInvalidationResult 0 ShadowEntryStateZero)
  | Some key =>
      let reason := if String.eqb (iReason i) "" then ShadowInvalidationReasonManual else iReason i in
      let source := if String.eqb (iSource i) "" then ShadowInvalidationSourceSystem else iSource i in
      let at_ := if IsZero (iInvalidatedAt i) then now else iInvalidatedAt i in
      let canonical := Canonical key in
      let d := default zeroDescriptor (DescriptorByCanonical (catalog c) canonical) in
      let c1 := modState canonical (invalidateState at_) (ensureKeyStateLocked canonical c) in
      let desired := desiredPinClass d (ActiveSources (activations c) (Some key)) in
      match entries c1 !! canonical with
      | Some _ => Some (commitInvalidate canonical reason source at_ d desired c1)
      | None =>
          if bool_decide (desired = shadowPinClassWriteConfirm)
             && negb (canAdmitWriteConfirmPinLocked None c1)
          then Some (invalidateAbsent canonical c1)
          else
            match ensureCapacityLocked desired c1 with
            | None => None
            | Some (c2, false) => Some (invalidateAbsent canonical c2)
            | Some (c2, true) =>
                Some (commitInvalidate canonical reason source at_ d desired (insertEntry canonical d c2))
            end
      end
  end.

(** ** Reading *)

(** [lookupEligibleLocked]. *)
Definition lookupEligibleLocked (e : shadowEntry) (maxAge : Z) (now : time) (c : cache) : bool :=
  if negb (shadowingEnabled c) || negb (bool_decide (enState e = ShadowEntryStatePresent)) then false
  else
    let limit :=
      match EffectiveFreshnessTTL (enDescriptor e) with
      | inl _ => maxAge
      | inr ttl => if (maxAge <=? 0) || ((0 <? ttl) && (ttl <? maxAge)) then ttl else maxAge
      end in
    if limit <=? 0 then false
    else
      let age := now - enObservedAt e in
      (0 <=? age) && (age <=? limit).

(** [ShadowLookupResult]; [None] for the entry is a result that was not
    found, and [ShadowEntryView] is a copy of the entry. *)
Record ShadowLookupResult := mkLookup {
  lrEntry : option shadowEntry;
  Eligible : bool;
  lrDescriptor : option WatchDescriptor
}.

(** [Lookup]. *)
Definition Lookup (key : option WatchKey) (maxAge : Z) (now : time) (c : cache)
    : cache * ShadowLookupResult :=
  match key with
  | None => (c, mkLookup None false None)
  | Some key =>
      let canonical := Canonical key in
      let c1 := syncEntryPinLocked canonical c in
      match entries c1 !! canonical with
      | None => (c1, mkLookup None false None)
      | Some e =>
          let eligible := lookupEligibleLocked e maxAge now c1 in
          let c2 := if eligible && bool_decide (enPinClass e = shadowPinClassNone)
                    then touchEvictableLocked canonical c1 else c1 in
          (c2, mkLookup (Some e) eligible (DescriptorByCanonical (catalog c) canonical))
      end
  end.

(** [Entry]. *)
Definition Entry (key : option WatchKey) (c : cache) : cache * option shadowEntry :=
  match key with
  | None => (c, None)
  | Some key =>
      let c1 := syncEntryPinLocked (Canonical key) c in (c1, entries c1 !! Canonical key)
  end.

(** [loadSnapshotRecord]. *)
Definition loadSnapshotRecord (canonical : string) (c : cache) : shadowEligibilitySnapshotRecord :=
  match keyState c !! canonical with
  | None => zeroSnapshot
  | Some s => ksSnapshot s
  end.

(** [CaptureGeneration]. *)
Definition CaptureGeneration (key : option WatchKey) (c : cache) : Z :=
  match key with
  | None => 0
  | Some key => snGeneration (loadSnapshotRecord (Canonical key) c)
  end.

(** [ShadowEligibilitySnapshot]. *)
Record ShadowEligibilitySnapshot := mkEligibility {
  esPresent : bool;
  esEligible : bool;
  esGeneration : Z;
  esState : ShadowEntryState;
  esObservedAt : time;
  esExpiresAt : time
}.

(** [SnapshotEligibility], which takes no lock. *)
Definition SnapshotEligibility (key : option WatchKey) (now : time) (c : cache)
    : ShadowEligibilitySnapshot :=
  match key with
  | None => mkEligibility false false 0 ShadowEntryStateZero 0 0
  | Some key =>
      let r := loadSnapshotRecord (Canonical key) c in
      if negb (snPresent r) then mkEligibility false false (snGeneration r) ShadowEntryStateZero 0 0
      else
        let eligible :=
          if shadowingEnabled c && bool_decide (snState r = ShadowEntryStatePresent)
          then negb (IsZero (snExpiresAt r) || (snExpiresAt r <? now))
          else false in
        mkEligibility (snPresent r) eligible (snGeneration r) (snState r) (snObservedAt r) (snExpiresAt r)
  end.

(** [Observe]. *)
Definition Observe (key : option WatchKey) (c : cache) : cache * WatchObservation :=
  let '(a, o) := WatchCatalog.Observe key (activations c) in (set_graph (catalog c) a c, o).

(** ** Compaction *)

(** One iteration of [compactBatch]: the cache and [mutated]. *)
Definition compactOne (now : time) (r : cache * bool) (canonical : string) : cache * bool :=
  let '(c, mutated) := r in
  match entries c !! canonical with
  | None => r
  | Some _ =>
      let c1 := ensureKeyStateLocked canonical (syncEntryPinLocked canonical c) in
      match entries c1 !! canonical with
      | None => (c1, mutated)
      | Some e =>
          match enState e with
          | ShadowEntryStateInvalidated =>
              if IsZero (enInvalidatedAt e)
                 || (now - enInvalidatedAt e <? TombstoneRetainWindow (options c)) then (c1, mutated)
              else
                (storeSnapshotLocked canonical
                   (bumpLastWriteGenerationLocked canonical
                      (modEntry canonical set_tombstone (advanceGenerationLocked canonical c1))), true)
          | ShadowEntryStateTombstone =>
              if IsZero (enInvalidatedAt e)
                 || (now - enInvalidatedAt e <? TombstoneHardLifespan (options c)) then (c1, mutated)
              else
                (removeEntryLocked canonical
                   (storeAbsentSnapshotLocked canonical (advanceGenerationLocked canonical c1)), true)
          | _ => (c1, mutated)
          end
      end
  end.

(** [compactBatch]. *)
Definition compactBatch (batch : list string) (now : time) (c : cache) : cache :=
  let '(c1, mutated) := fold_left (compactOne now) batch (c, false) in
  if (mutated : bool) then touchLocked now c1 else c1.

(** The loop of [nextCompactorBatch]: the keys from the cursor on, at most
    [n] of them, and the cursor it stops at. *)
Fixpoint takeFrom (n : nat) (cursor : string) (l : list string) : list string * option string :=
  match n with
  | O => ([], Some cursor)
  | S n' =>
      match nextOf cursor l with
      | None => ([cursor], None)
      | Some k => let '(batch, stop) := takeFrom n' k l in (cursor :: batch, stop)
      end
  end.

(** [nextCompactorBatch]. *)
Definition nextCompactorBatch (c : cache) : cache * list string :=
  match compactorList c with
  | [] => (set_compactor [] None c, [])
  | first :: _ =>
      let cursor := default first (compactorCursor c) in
      let '(batch, stop) := takeFrom (Z.to_nat (CompactorBatchSize (options c))) cursor (compactorList c) in
      (set_compactor (compactorList c) stop c, batch)
  end.

(** The loop of [CompactOnce]; [clock] gives the time of each batch. *)
Fixpoint compactLoop (fuel : nat) (clock : nat -> time) (remaining : Z) (c : cache) : option cache :=
  if remaining <=? 0 then Some c
  else
    let '(c1, batch) := nextCompactorBatch c in
    match batch with
    | [] => Some c1
    | _ :: _ =>
        match fuel with
        | O => None
        | S fuel' => compactLoop fuel' clock (remaining - len batch) (compactBatch batch (clock fuel) c1)
        end
    end.

(** [CompactOnce]; the duration it reports is left out. *)
Definition CompactOnce (clock : nat -> time) (c : cache) : option cache :=
  compactLoop (length (compactorList c)) clock (len (compactorList c)) c.

(** ** The descriptors known at run time *)

Inductive bootstrapError := BootstrapDescriptor (e : watchError) | BootstrapMissingKey.

(** [shouldUpgradeRuntimeDescriptor]. *)
Definition shouldUpgradeRuntimeDescriptor (existing incoming : WatchDescriptor) : bool :=
  String.eqb (DecoderID existing) runtimeDescriptorDecoderPassiveFallback
  && negb (String.eqb (DecoderID incoming) runtimeDescriptorDecoderPassiveFallback).

(** [dedupeWatchActivationSources]. *)
Definition dedupeWatchActivationSources (sources : list string) : list string :=
  fold_left (fun out s => if String.eqb s "" || existsb (String.eqb s) out then out else out ++ [s])
    sources [].

(** The key of a catalogue descriptor, which [cloneWatchKey] has made a
    plain value. *)
Definition keyOf (d : WatchDescriptor) : option WatchKey :=
  match Key d with
  | Some (KeyVal k) | Some (KeyPtr k) => Some k
  | _ => None
  end.

(** Activating a list of sources in turn, up to the first error. *)
Fixpoint activateAll (key : option WatchKey) (sources : list string) (a : WatchActivationSet)
    : WatchActivationSet * option watchError :=
  match sources with
  | [] => (a, None)
  | s :: rest =>
      match Activate s [key] a with
      | (a1, Some e) => (a1, Some e)
      | (a1, None) => activateAll key rest a1
      end
  end.

(** [bootstrapRuntimeActivationSet]. *)
Fixpoint bootstrapLoop (ds : list WatchDescriptor) (current : WatchActivationSet) (canonical : string)
    (sources : list string) (a : WatchActivationSet) : watchError + WatchActivationSet :=
  match ds with
  | [] => inr a
  | d :: rest =>
      let mine := match Key d with Some k => descriptorSources current k | None => [] end in
      let merged := if String.eqb (CanonicalKey d) canonical then mine ++ sources else mine in
      match activateAll (keyOf d) (dedupeWatchActivationSources merged) a with
      | (_, Some e) => inl e
      | (a1, None) => bootstrapLoop rest current canonical sources a1
      end
  end.
Definition bootstrapRuntimeActivationSet (k : WatchCatalog.WatchCatalog) (current : WatchActivationSet)
    (canonical : string) (sources : list string) : watchError + WatchActivationSet :=
  bootstrapLoop (Descriptors k) current canonical sources (NewWatchActivationSet (Some k)).

(** [descriptors[i] = normalized] at the first descriptor of the key. *)
Fixpoint replaceDescriptor (canonical : string) (d : WatchDescriptor) (l : list WatchDescriptor)
    : list WatchDescriptor :=
  match l with
  | [] => []
  | x :: rest => if String.eqb (CanonicalKey x) canonical then d :: rest
                 else x :: replaceDescriptor canonical d rest
  end.

Section Ranged.
(** How Go ranges over a map with the given keys. *)
Context (order : gset string -> list string).

(** [syncAllPinsLocked]. *)
Definition syncAllPinsLocked (c : cache) : cache :=
  fold_left (fun c k => syncEntryPinLocked k c) (order (dom (entries c))) c.

(** The common end of [RevalidatePinnedBudget] and
    [BootstrapRuntimeDescriptor]. *)
Definition revalidate (now : time) (c : cache) : cache :=
  touchLocked now
    (syncAllPinsLocked (set_budget (staticPinnedBudget c <? staticPinnedFootprint c) c)).

(** [ShadowCacheSummary]. *)
Record ShadowCacheSummary := mkCacheSummary {
  Enabled : bool;
  PinnedBudgetDegraded : bool;
  TotalEntries : Z;
  PinnedEntries : Z;
  EvictableEntries : Z;
  StaticPinnedFootprint : Z;
  WriteConfirmPinnedActive : Z
}.

(** One iteration of [Summary]: an entry is counted after its pin was
    brought up to date. *)
Definition summaryOne (r : cache * (Z * Z * Z)) (k : string) : cache * (Z * Z * Z) :=
  let '(c, (pinned, evictable, confirm)) := r in
  let c1 := syncEntryPinLocked k c in
  (c1, match enPinClass <$> entries c1 !! k with
       | None => (pinned, evictable, confirm)
       | Some shadowPinClassNone => (pinned, evictable + 1, confirm)
       | Some shadowPinClassWriteConfirm => (pinned + 1, evictable, confirm + 1)
       | Some shadowPinClassStatic => (pinned + 1, evictable, confirm)
       end).

(** [Summary]. *)
Definition Summary (c : cache) : cache * ShadowCacheSummary :=
  let '(c1, (pinned, evictable, confirm)) :=
    fold_left summaryOne (order (dom (entries c))) (c, (0, 0, 0)) in
  (c1, mkCacheSummary (shadowingEnabled c1) (pinnedBudgetDegraded c1)
         (Z.of_nat (size (entries c1))) pinned evictable (staticPinnedFootprint c1) confirm).

(** [RevalidatePinnedBudget]. *)
Definition RevalidatePinnedBudget (now : time) (c : cache) : cache * ShadowCacheSummary :=
  Summary (revalidate now c).

(** [RefreshActivations]. *)
Definition RefreshActivations (now : time) (c : cache) : cache :=
  touchLocked now (syncAllPinsLocked c).

(** [NewShadowCache]; [None] is a nil catalogue or activation set. *)
Definition NewShadowCache (o : ShadowCacheOptions) (view : option ObserveFirstFeatureFlagView)
    (k : option WatchCatalog.WatchCatalog) (a : option WatchActivationSet) (now : time) : cache :=
  let k' := default emptyCatalog k in
  let a' := default (NewWatchActivationSet (Some k')) a in
  let flags := NormalizeObserveFirstFeatureFlagsFromView
                 (Some (flagsView (NormalizeObserveFirstFeatureFlagsFromView view))) in
  fst (RevalidatePinnedBudget now
    (mkCache (normalizeShadowCacheOptions o) flags k' a' now ∅ ∅ [] [] None false)).

(** The loop of [BootstrapRuntimeDescriptor] over a descriptor that is
    known: the set, whether a source was added, and the error. *)
Fixpoint addSources (key : option WatchKey) (sources existing : list string) (added : bool)
    (a : WatchActivationSet) : WatchActivationSet * bool * option watchError :=
  match sources with
  | [] => (a, added, None)
  | s :: rest =>
      let known := watchActivationSourcesContain existing s in
      let existing' := if known then existing else existing ++ [s] in
      match Activate s [key] a with
      | (a1, Some e) => (a1, added || negb known, Some e)
      | (a1, None) => addSources key rest existing' (added || negb known) a1
      end
  end.

(** The two branches of [BootstrapRuntimeDescriptor] that build a new
    catalogue from a list of descriptors; the one that replaces a descriptor
    also updates the entry. *)
Definition rebuild (replace : bool) (ds : list WatchDescriptor) (d : WatchDescriptor)
    (sources : list string) (now : time) (c : cache) : cache * option bootstrapError :=
  let canonical := CanonicalKey d in
  match NewWatchCatalog ds with
  | inl e => (c, Some (BootstrapDescriptor e))
  | inr k =>
      match bootstrapRuntimeActivationSet k (activations c) canonical sources with
      | inl e => (c, Some (BootstrapDescriptor e))
      | inr a =>
          let c1 := set_graph k a c in
          (revalidate now (if replace then modEntry canonical (set_descriptor d) c1 else c1), None)
      end
  end.

(** [BootstrapRuntimeDescriptor]. *)
Definition BootstrapRuntimeDescriptor (descriptor : WatchDescriptor) (sources : list string) (now : time)
    (c : cache) : cache * option bootstrapError :=
  match normalizeWatchDescriptor descriptor with
  | inl e => (c, Some (BootstrapDescriptor e))
  | inr d =>
      match Key d with
      | None => (c, Some BootstrapMissingKey)
      | Some k =>
          let sources1 := dedupeWatchActivationSources sources in
          let sources2 := match sources1 with [] => [WatchActivationSourcePoller] | _ => sources1 end in
          let canonical := CanonicalKey d in
          match DescriptorByCanonical (catalog c) canonical with
          | Some existing =>
              if shouldUpgradeRuntimeDescriptor existing d then
                rebuild true (replaceDescriptor canonical d (Descriptors (catalog c))) d sources2 now c
              else
                match addSources (keyOf d) sources2 (descriptorSources (activations c) k) false
                        (activations c) with
                | (a, _, Some e) => (set_graph (catalog c) a c, Some (BootstrapDescriptor e))
                | (a, false, None) => (set_graph (catalog c) a c, None)
                | (a, true, None) => (revalidate now (set_graph (catalog c) a c), None)
                end
          | None => rebuild false (Descriptors (catalog c) ++ [d]) d sources2 now c
          end
      end
  end.

(** ** Runs

    The operations under the lock, and the activations other holders of the
    activation set make.  [CompactOnce] takes the lock once per step: it is
    a sequence of [OpNextBatch] and [OpCompactBatch] that others may
    interleave with. *)
Inductive op :=
| OpWrite (w : ShadowWrite)
| OpInvalidate (i : ShadowInvalidation) (now : time)
| OpLookup (key : option WatchKey) (maxAge : Z) (now : time)
| OpEntry (key : option WatchKey)
| OpObserve (key : option WatchKey)
| OpNextBatch
| OpCompactBatch (batch : list string) (now : time)
| OpRevalidate (now : time)
| OpRefresh (now : time)
| OpSummary
| OpBootstrap (d : WatchDescriptor) (sources : list string) (now : time)
| OpActivate (source : string) (keys : list (option WatchKey))
| OpDeactivate (source : string) (keys : list (option WatchKey)).

Definition step (o : op) (c : cache) : option cache :=
  match o with
  | OpWrite w => fst <$> Write w c
  | OpInvalidate i now => fst <$> Invalidate i now c
  | OpLookup key maxAge now => Some (fst (Lookup key maxAge now c))
  | OpEntry key => Some (fst (Entry key c))
  | OpObserve key => Some (fst (Observe key c))
  | OpNextBatch => Some (fst (nextCompactorBatch c))
  | OpCompactBatch batch now => Some (compactBatch batch now c)
  | OpRevalidate now => Some (fst (RevalidatePinnedBudget now c))
  | OpRefresh now => Some (RefreshActivations now c)
  | OpSummary => Some (fst (Summary c))
  | OpBootstrap d sources now => Some (fst (BootstrapRuntimeDescriptor d sources now c))
  | OpActivate source keys => Some (set_graph (catalog c) (fst (Activate source keys (activations c))) c)
  | OpDeactivate source keys => Some (set_graph (catalog c) (Deactivate source keys (activations c)) c)
  end.

Fixpoint run (os : list op) (c : cache) : option cache :=
  match os with
  | [] => Some c
  | o :: os' => step o c ≫= run os'
  end.

End Ranged.

End ShadowCache.
