(* ===== verification/ShadowInv.v ===== *)
(** * The shadow cache: its invariant

    The lists and the maps of the cache agree ([links_ok]), the record of
    each key agrees with its entry ([key_ok]), and every operation acts on
    each key by a sequence of the transitions [keyStep] names.  From this:
    no operation runs forever, the capacity is kept, only unpinned entries
    are evicted, and the snapshot readers load without the lock is the entry
    under the lock. *)

From S2P Require Import Prelude Ebus WatchCatalog FamilyPolicy ShadowCache.

Local Open Scope Z_scope.

Module ShadowInv.
Import WatchCatalog FamilyPolicy ShadowCache.

(** ** The invariant *)

(** The lists name the right entries, each once. *)
Record links_ok (c : cache) : Prop := mkLinks {
  lk_capacity : 0 < Capacity (options c);
  lk_batch : 0 < CompactorBatchSize (options c);
  lk_size : Z.of_nat (size (entries c)) <= Capacity (options c);
  lk_lru_nodup : NoDup (evictableLRU c);
  lk_lru k : k ∈ evictableLRU c <-> exists e, entries c !! k = Some e /\ enEvictable e = true;
  lk_list_nodup : NoDup (compactorList c);
  lk_list k : k ∈ compactorList c <-> is_Some (entries c !! k);
  lk_cursor k : compactorCursor c = Some k -> k ∈ compactorList c
}.

(** What the cache holds for a key. *)
Abbreviation keyView := (option shadowEntry * option shadowKeyState)%type.
Definition view (c : cache) (k : string) : keyView := (entries c !! k, keyState c !! k).

(** The record of a key agrees with its entry, and an entry is in the LRU
    list exactly when it is not pinned. *)
Definition key_ok (v : keyView) : Prop :=
  match v with
  | (Some e, Some s) =>
      ksGeneration s = enGeneration e /\ ksLastWriteGeneration s = enLastWriteGeneration e
      /\ ksSnapshot s = entrySnapshot e
      /\ enEvictable e = bool_decide (enPinClass e = shadowPinClassNone)
  | (Some _, None) => False
  | (None, Some s) => ksSnapshot s = absentSnapshot s
  | (None, None) => True
  end.

Definition cache_ok (c : cache) : Prop := links_ok c /\ forall k, key_ok (view c k).

(** ** What one key sees *)

(** The accepted writes, the invalidations and the compactions of a key. *)
Inductive keyLabel := LWrite (w : ShadowWrite) | LInvalidate (at_ : time) | LCompact.

(** The entry and the key state after an accepted write. *)
Definition writtenGeneration (x : option shadowEntry) (s : shadowKeyState) : Z :=
  let g := match x with None => incr64 (ksGeneration s) | Some e => enGeneration e end in
  if g =? 0 then incr64 g else g.
Definition writtenEntry (canonical : string) (w : ShadowWrite) (d : WatchDescriptor) (ttl : Z)
    (p : shadowPinClass) (x : option shadowEntry) (s : shadowKeyState) : shadowEntry :=
  set_pin p (bool_decide (p = shadowPinClassNone))
    (set_lastWriteGeneration (incr64 (ksLastWriteGeneration s))
       (set_generation (writtenGeneration x s)
          (writeEntry w d ttl p (default (newEntry canonical d) x)))).
Definition writtenState (canonical : string) (w : ShadowWrite) (d : WatchDescriptor) (ttl : Z)
    (p : shadowPinClass) (x : option shadowEntry) (s : shadowKeyState) : shadowKeyState :=
  mkKeyState (writtenGeneration x s) (incr64 (ksLastWriteGeneration s)) 0
    (ksPrecedenceHighWater (writeState w s)) (entrySnapshot (writtenEntry canonical w d ttl p x s)).

(** The entry and the key state after an invalidation. *)
Definition invalidatedEntry (canonical reason source : string) (at_ : time) (d : WatchDescriptor)
    (p : shadowPinClass) (x : option shadowEntry) (s : shadowKeyState) : shadowEntry :=
  set_pin p (bool_decide (p = shadowPinClassNone))
    (set_lastWriteGeneration (incr64 (ksLastWriteGeneration s))
       (invalidateEntry reason source (ksInvalidatedAt (invalidateState at_ s)) d p
          (set_generation (incr64 (ksGeneration s)) (default (newEntry canonical d) x)))).
Definition invalidatedState (at_ : time) (snapshot : shadowEligibilitySnapshotRecord) (s : shadowKeyState)
    : shadowKeyState :=
  mkKeyState (incr64 (ksGeneration s)) (incr64 (ksLastWriteGeneration s))
    (ksInvalidatedAt (invalidateState at_ s)) (ksPrecedenceHighWater (invalidateState at_ s)) snapshot.

(** The key state after compaction has touched the entry. *)
Definition compactedState (snapshot : shadowEligibilitySnapshotRecord) (lastWrite : Z) (s : shadowKeyState)
    : shadowKeyState :=
  mkKeyState (incr64 (ksGeneration s)) lastWrite (ksInvalidatedAt s) (ksPrecedenceHighWater s) snapshot.
Definition compactedEntry (e : shadowEntry) (s : shadowKeyState) : shadowEntry :=
  set_lastWriteGeneration (incr64 (ksLastWriteGeneration s))
    (set_tombstone (set_generation (incr64 (ksGeneration s)) e)).

(** Why a write may be accepted. *)
Record admissible (w : ShadowWrite) (d : WatchDescriptor) (ttl : Z) (x : option shadowEntry)
    (s : shadowKeyState) : Prop := mkAdmissible {
  adm_time : IsZero (wObservedAt w) = false;
  adm_ttl : EffectiveFreshnessTTL d = inr ttl /\ 0 < ttl;
  adm_generation : wSource w = ShadowWriteSourceActiveConfirmed -> wStartGeneration w = ksGeneration s;
  adm_precedence : rejectWriteByPrecedence s x w = NotRejected
}.

Inductive keyStep (k : string) : list keyLabel -> keyView -> keyView -> Prop :=
| ks_pin e s p :
    keyStep k [] (Some e, s) (Some (set_pin p (bool_decide (p = shadowPinClassNone)) e), s)
| ks_descriptor e s d : keyStep k [] (Some e, s) (Some (set_descriptor d e), s)
| ks_init : keyStep k [] (None, None) (None, Some zeroKeyState)
| ks_evict e s :
    enPinClass e = shadowPinClassNone ->
    keyStep k [] (Some e, Some s) (None, Some (set_snapshot (absentSnapshot s) s))
| ks_write w d ttl p x s :
    (Canonical <$> wKey w) = Some k -> admissible w d ttl x s ->
    keyStep k [LWrite w] (x, Some s)
      (Some (writtenEntry k w d ttl p x s), Some (writtenState k w d ttl p x s))
| ks_invalidate reason source at_ d p x s :
    keyStep k [LInvalidate at_] (x, Some s)
      (let e := invalidatedEntry k reason source at_ d p x s in
       (Some e, Some (invalidatedState at_ (entrySnapshot e) s)))
| ks_invalidate_absent at_ s :
    keyStep k [LInvalidate at_] (None, Some s)
      (None, Some (let s' := invalidatedState at_ zeroSnapshot s in set_snapshot (absentSnapshot s') s'))
| ks_tombstone e s :
    enState e = ShadowEntryStateInvalidated ->
    keyStep k [LCompact] (Some e, Some s)
      (let e' := compactedEntry e s in
       (Some e', Some (compactedState (entrySnapshot e') (incr64 (ksLastWriteGeneration s)) s)))
| ks_purge e s :
    enState e = ShadowEntryStateTombstone ->
    keyStep k [LCompact] (Some e, Some s)
      (None, Some (let s' := compactedState zeroSnapshot (ksLastWriteGeneration s) s in
                   set_snapshot (absentSnapshot s') s')).

Inductive keySteps (k : string) : list keyLabel -> keyView -> keyView -> Prop :=
| kss_nil v : keySteps k [] v v
| kss_cons L M v v' v'' : keyStep k L v v' -> keySteps k M v' v'' -> keySteps k (L ++ M) v v''.

Lemma keySteps_one k L v v' : keyStep k L v v' -> keySteps k L v v'.
Proof. intros H. rewrite <- (app_nil_r L). by eapply kss_cons; [|constructor]. Qed.
Lemma keySteps_app k L M v v' v'' : keySteps k L v v' -> keySteps k M v' v'' -> keySteps k (L ++ M) v v''.
Proof.
  induction 1 as [|L1 L2 v v1 v' H1 H IH]; intros H2; [done|].
  rewrite <- app_assoc. by eapply kss_cons; [|apply IH].
Qed.

Lemma key_ok_step k L v v' : keyStep k L v v' -> key_ok v -> key_ok v'.
Proof. destruct 1; try (destruct s); simpl; try naive_solver; by destruct x. Qed.
Lemma key_ok_steps k L v v' : keySteps k L v v' -> key_ok v -> key_ok v'.
Proof. induction 1; eauto using key_ok_step. Qed.

(** ** Operations on one key *)

(** Only the key [k] is affected, and the lists stay right. *)
Record evolves (k : string) (c c' : cache) : Prop := mkEvolves {
  ev_options : options c' = options c;
  ev_catalog : catalog c' = catalog c;
  ev_activations : activations c' = activations c;
  ev_budget : pinnedBudgetDegraded c' = pinnedBudgetDegraded c;
  ev_other j : j <> k -> view c' j = view c j;
  ev_links : links_ok c -> links_ok c'
}.

#[export] Instance evolves_preorder k : PreOrder (evolves k).
Proof.
  split.
  - intros c. by split.
  - intros c1 c2 c3 [A1 A2 A3 A4 A5 A6] [B1 B2 B3 B4 B5 B6]. split; try congruence; [|auto].
    intros j Hj. rewrite B5 by done. auto.
Qed.

Lemma elem_of_removeKey k j l : j ∈ removeKey k l <-> j ∈ l /\ j <> k.
Proof.
  unfold removeKey. rewrite elem_of_filterb, negb_true_iff, String.eqb_neq. tauto.
Qed.
Lemma NoDup_removeKey k l : NoDup l -> NoDup (removeKey k l).
Proof. intros H. eapply sublist_NoDup; [exact H|apply filter_sublist]. Qed.

(** Changing an entry in place. *)
Lemma view_modEntry k f c : view (modEntry k f c) k = (f <$> (view c k).1, (view c k).2).
Proof. unfold view, modEntry. simpl. by rewrite lookup_alter_eq. Qed.
Lemma view_modState k f c : view (modState k f c) k = ((view c k).1, f <$> (view c k).2).
Proof. unfold view, modState. simpl. by rewrite lookup_alter_eq. Qed.

Lemma size_alter {A} (f : A -> A) (k : string) (m : gmap string A) : size (alter f k m) = size m.
Proof. by rewrite <- !size_dom, dom_alter_L. Qed.

Lemma evolves_modEntry k f c :
  (forall e, entries c !! k = Some e -> enEvictable (f e) = enEvictable e) -> evolves k c (modEntry k f c).
Proof.
  intros Hf. split; try done.
  - intros j Hj. unfold view, modEntry. simpl. by rewrite lookup_alter_ne.
  - intros [L1 L2 L3 L4 L5 L6 L7 L8]. split; simpl; try done.
    + by rewrite size_alter.
    + intros j. rewrite L5. destruct (decide (j = k)) as [->|Hj].
      * rewrite lookup_alter_eq. destruct (entries c !! k) as [e|] eqn:E; simpl; [|done].
        split; intros (x & [= <-] & Hx); eexists; (split; [done|]); [by rewrite Hf|by rewrite <- Hf].
      * by rewrite lookup_alter_ne.
    + intros j. rewrite L7. destruct (decide (j = k)) as [->|Hj].
      * rewrite lookup_alter_eq. by rewrite fmap_is_Some.
      * by rewrite lookup_alter_ne.
Qed.
Lemma evolves_modState k f c : evolves k c (modState k f c).
Proof.
  split; try done.
  - intros j Hj. unfold view, modState. simpl. by rewrite lookup_alter_ne.
  - intros [L1 L2 L3 L4 L5 L6 L7 L8]. by split.
Qed.

(** Moving an entry into the LRU list and out of it. *)
Lemma view_link k c e s :
  view c k = (Some e, s) -> view (linkLRU k c) k = (Some (set_pin (enPinClass e) true e), s).
Proof. intros H. change (view (linkLRU k c) k) with (view (modEntry k (fun e => set_pin (enPinClass e) true e) c) k).
  by rewrite view_modEntry, H. Qed.
Lemma view_unlink k c e s :
  view c k = (Some e, s) -> view (unlinkLRU k c) k = (Some (set_pin (enPinClass e) false e), s).
Proof. intros H. change (view (unlinkLRU k c) k) with (view (modEntry k (fun e => set_pin (enPinClass e) false e) c) k).
  by rewrite view_modEntry, H. Qed.

Lemma evolves_link k c e s : view c k = (Some e, s) -> enEvictable e = false -> evolves k c (linkLRU k c).
Proof.
  intros [= He _] Hv. split; try done.
  - intros j Hj. unfold view. simpl. by rewrite lookup_alter_ne.
  - intros [L1 L2 L3 L4 L5 L6 L7 L8]. split; simpl; try done.
    + by rewrite size_alter.
    + apply NoDup_app. split; [done|]. split; [|apply NoDup_singleton].
      intros j Hj ->%list_elem_of_singleton. apply L5 in Hj as (x & Hx & Hx'). congruence.
    + intros j. rewrite elem_of_app, list_elem_of_singleton, L5. destruct (decide (j = k)) as [->|Hj].
      * rewrite lookup_alter_eq, He. simpl. split; [eauto|]. auto.
      * rewrite lookup_alter_ne by done. naive_solver.
    + intros j. rewrite L7. destruct (decide (j = k)) as [->|Hj].
      * rewrite lookup_alter_eq. by rewrite fmap_is_Some.
      * by rewrite lookup_alter_ne.
Qed.
Lemma evolves_unlink k c e s : view c k = (Some e, s) -> evolves k c (unlinkLRU k c).
Proof.
  intros [= He _]. split; try done.
  - intros j Hj. unfold view. simpl. by rewrite lookup_alter_ne.
  - intros [L1 L2 L3 L4 L5 L6 L7 L8]. split; simpl; try done.
    + by rewrite size_alter.
    + by apply NoDup_removeKey.
    + intros j. rewrite elem_of_removeKey, L5. destruct (decide (j = k)) as [->|Hj].
      * rewrite lookup_alter_eq, He. simpl. naive_solver.
      * rewrite lookup_alter_ne by done. naive_solver.
    + intros j. rewrite L7. destruct (decide (j = k)) as [->|Hj].
      * rewrite lookup_alter_eq. by rewrite fmap_is_Some.
      * by rewrite lookup_alter_ne.
Qed.

Lemma set_pin_pin p b q b' e : set_pin p b (set_pin q b' e) = set_pin p b e.
Proof. done. Qed.
Lemma set_pin_id e p b : enPinClass e = p -> enEvictable e = b -> set_pin p b e = e.
Proof. intros <- <-. by destruct e. Qed.

(** [applyPinClassLocked]: the entry has the pin asked for and is in the LRU
    list exactly when it is not pinned. *)
Lemma apply_spec k p c e s :
  view c k = (Some e, s) ->
  evolves k c (applyPinClassLocked k p c)
  /\ view (applyPinClassLocked k p c) k = (Some (set_pin p (bool_decide (p = shadowPinClassNone)) e), s).
Proof.
  intros Hv. pose proof Hv as [= He Hs]. unfold applyPinClassLocked. rewrite He.
  case_bool_decide as Ep.
  - case_bool_decide as En; destruct (enEvictable e) eqn:Eb; simpl.
    + split; [done|]. by rewrite set_pin_id.
    + split; [by eapply evolves_link|]. rewrite (view_link _ _ _ _ Hv). by rewrite Ep.
    + split; [by eapply evolves_unlink|]. rewrite (view_unlink _ _ _ _ Hv). by rewrite Ep.
    + split; [done|]. by rewrite set_pin_id.
  - set (c1 := if enEvictable e then unlinkLRU k c else c).
    assert (evolves k c c1 /\ view c1 k = (Some (set_pin (enPinClass e) false e), s)) as [H1 V1].
    { subst c1. destruct (enEvictable e) eqn:Eb.
      - split; [by eapply evolves_unlink|by apply view_unlink].
      - split; [done|]. by rewrite set_pin_id. }
    set (c2 := modEntry k _ c1).
    assert (evolves k c1 c2) as H2 by (by apply evolves_modEntry).
    assert (view c2 k = (Some (set_pin p false e), s)) as V2 by (subst c2; by rewrite view_modEntry, V1).
    case_bool_decide as En.
    + split; [|by rewrite (view_link _ _ _ _ V2)]. etrans; [exact H1|]. etrans; [exact H2|].
      by eapply evolves_link.
    + split; [by etrans|done].
Qed.

Lemma touchEvictable_spec k c e s :
  view c k = (Some e, s) -> key_ok (view c k) ->
  evolves k c (touchEvictableLocked k c) /\ view (touchEvictableLocked k c) k = view c k.
Proof.
  intros Hv Hok. rewrite Hv in Hok. pose proof Hv as [= He Hs]. unfold touchEvictableLocked. rewrite He.
  destruct s as [s|]; [|done]. destruct Hok as (_ & _ & _ & Hev).
  case_bool_decide as Ep; simpl; [|done]. rewrite Hev. simpl. split; [|done]. split; try done.
  intros [L1 L2 L3 L4 L5 L6 L7 L8]. split; simpl; try done.
  - apply NoDup_app. split; [by apply NoDup_removeKey|]. split; [|apply NoDup_singleton].
    intros j [_ Hj]%elem_of_removeKey. by rewrite list_elem_of_singleton.
  - intros j. rewrite elem_of_app, elem_of_removeKey, list_elem_of_singleton, L5.
    destruct (decide (j = k)) as [->|Hj]; naive_solver.
Qed.

(** [syncEntryPinLocked] only moves a pin. *)
Lemma sync_spec k c :
  key_ok (view c k) ->
  evolves k c (syncEntryPinLocked k c) /\ keySteps k [] (view c k) (view (syncEntryPinLocked k c) k)
  /\ keyState (syncEntryPinLocked k c) !! k = keyState c !! k
  /\ (exists p b, entries (syncEntryPinLocked k c) !! k = set_pin p b <$> (entries c !! k)).
Proof.
  intros Hok. unfold syncEntryPinLocked. destruct (entries c !! k) as [e|] eqn:He.
  2: { split; [done|]. split; [constructor|]. split; [done|]. exists shadowPinClassNone, false. by rewrite He. }
  destruct (Key (enDescriptor e)) as [a|].
  2: { split; [done|]. split; [constructor|]. split; [done|]. exists (enPinClass e), (enEvictable e).
       rewrite He. simpl. by rewrite set_pin_id. }
  set (p := if bool_decide (_ = shadowPinClassWriteConfirm) && _ then _ else _). clearbody p.
  assert (view c k = (Some e, keyState c !! k)) as Hv by (unfold view; by rewrite He).
  destruct (apply_spec k p c e _ Hv) as [H1 H2]. split; [done|]. rewrite H2, Hv.
  split; [apply keySteps_one; constructor|]. injection H2 as -> ->. split; [done|]. simpl. eauto.
Qed.

(** The rest only touches the key state, the entry, or the time stamp. *)
Lemma evolves_touch k t c : evolves k c (touchLocked t c).
Proof. unfold touchLocked. break; try done. split; try done. by intros []. Qed.
Lemma view_touch k t c : view (touchLocked t c) k = view c k.
Proof. unfold touchLocked. by break. Qed.

Lemma evolves_ensure k c : evolves k c (ensureKeyStateLocked k c).
Proof.
  unfold ensureKeyStateLocked. destruct (keyState c !! k); [done|]. split; try done.
  - intros j Hj. unfold view. simpl. by rewrite lookup_insert_ne.
  - by intros [].
Qed.
Lemma view_ensure k c :
  view (ensureKeyStateLocked k c) k = ((view c k).1, Some (stateOf c k)).
Proof.
  unfold ensureKeyStateLocked, view, stateOf. destruct (keyState c !! k) eqn:E; simpl; [by rewrite E|].
  by rewrite lookup_insert_eq.
Qed.
Lemma view_entry c k x s : view c k = (x, s) -> entries c !! k = x.
Proof. by intros [= -> _]. Qed.
Lemma view_state c k x s : view c k = (x, s) -> keyState c !! k = s.
Proof. by intros [= _ ->]. Qed.
Lemma stateOf_view c k s : (view c k).2 = Some s -> stateOf c k = s.
Proof. unfold view, stateOf. simpl. by intros ->. Qed.

Lemma ensure_steps k c :
  key_ok (view c k) -> keySteps k [] (view c k) (view (ensureKeyStateLocked k c) k).
Proof.
  intros Hok. rewrite view_ensure. unfold stateOf. unfold view in *. simpl.
  destruct (keyState c !! k) as [s|], (entries c !! k) as [e|]; simpl; try constructor; try done.
  apply keySteps_one. constructor.
Qed.

Lemma evolves_advance k c : evolves k c (advanceGenerationLocked k c).
Proof. unfold advanceGenerationLocked. etrans; [apply evolves_modState|by apply evolves_modEntry]. Qed.
Lemma view_advance k c e s :
  view c k = (Some e, Some s) ->
  view (advanceGenerationLocked k c) k
  = (Some (set_generation (incr64 (ksGeneration s)) e),
     Some (mkKeyState (incr64 (ksGeneration s)) (ksLastWriteGeneration s) (ksInvalidatedAt s)
             (ksPrecedenceHighWater s) (ksSnapshot s))).
Proof.
  intros Hv. unfold advanceGenerationLocked. rewrite view_modEntry, view_modState, Hv. simpl.
  by rewrite (stateOf_view c k s) by (by rewrite Hv).
Qed.
Lemma evolves_bump k c : evolves k c (bumpLastWriteGenerationLocked k c).
Proof. unfold bumpLastWriteGenerationLocked. etrans; [apply evolves_modState|by apply evolves_modEntry]. Qed.
Lemma view_bump k c e s :
  view c k = (Some e, Some s) ->
  view (bumpLastWriteGenerationLocked k c) k
  = (Some (set_lastWriteGeneration (incr64 (ksLastWriteGeneration s)) e),
     Some (mkKeyState (ksGeneration s) (incr64 (ksLastWriteGeneration s)) (ksInvalidatedAt s)
             (ksPrecedenceHighWater s) (ksSnapshot s))).
Proof.
  intros Hv. unfold bumpLastWriteGenerationLocked. rewrite view_modEntry, view_modState, Hv. simpl.
  by rewrite (stateOf_view c k s) by (by rewrite Hv).
Qed.
Lemma evolves_store k c : evolves k c (storeSnapshotLocked k c).
Proof. unfold storeSnapshotLocked. destruct (entries c !! k); [apply evolves_modState|done]. Qed.
Lemma view_store k c e s :
  view c k = (Some e, Some s) ->
  view (storeSnapshotLocked k c) k = (Some e, Some (set_snapshot (entrySnapshot e) s)).
Proof.
  intros Hv. pose proof Hv as [= He Hs]. unfold storeSnapshotLocked. rewrite He, view_modState, Hv. done.
Qed.
Lemma view_storeAbsent k c :
  view (storeAbsentSnapshotLocked k c) k
  = ((view c k).1, (fun s => set_snapshot (absentSnapshot s) s) <$> (view c k).2).
Proof. apply view_modState. Qed.

(** ** Adding and removing entries *)

Lemma nextOf_elem k l j : nextOf k l = Some j -> j ∈ l.
Proof.
  induction l as [|x l IH]; simpl; [done|]. destruct (String.eqb x k).
  - destruct l; simpl; [done|]. intros [= ->]. set_solver.
  - intros H. right. auto.
Qed.
Lemma nextOf_ne k l : NoDup l -> nextOf k l <> Some k.
Proof.
  induction 1 as [|x l Hx Hl IH]; simpl; [done|]. destruct (String.eqb_spec x k) as [->|]; [|done].
  destruct l as [|y l]; simpl; [done|]. intros [= ->]. set_solver.
Qed.

Lemma remove_spec k c e :
  entries c !! k = Some e ->
  view (removeEntryLocked k c) k = (None, (fun s => set_snapshot (absentSnapshot s) s) <$> keyState c !! k)
  /\ entries (removeEntryLocked k c) = delete k (entries c)
  /\ (links_ok c -> evolves k c (removeEntryLocked k c)).
Proof.
  intros He. unfold removeEntryLocked. rewrite He. set (c1 := if enEvictable e then _ else c).
  assert (entries c1 = entries c /\ keyState c1 = keyState c /\ options c1 = options c
    /\ compactorList c1 = compactorList c /\ compactorCursor c1 = compactorCursor c) as (E1 & E2 & E3 & E4 & E5)
    by (subst c1; by destruct (enEvictable e)).
  split; [|split].
  - rewrite view_storeAbsent. unfold view. simpl. by rewrite lookup_delete_eq, E2.
  - simpl. by rewrite E1.
  - intros [L1 L2 L3 L4 L5 L6 L7 L8]. etrans; [|apply evolves_modState]. split; simpl; try done.
    1-3: subst c1; by destruct (enEvictable e).
    + intros j Hj. unfold view. simpl. by rewrite lookup_delete_ne, E1, E2.
    + assert (forall j, j ∈ evictableLRU c1 <-> j ∈ evictableLRU c /\ j <> k) as Hlru.
      { intros j. subst c1. destruct (enEvictable e) eqn:Ev; simpl; [by apply elem_of_removeKey|].
        rewrite L5. split; [|tauto]. intros (x & Hx & Hx'). split; [eauto|]. intros ->. congruence. }
      intros _. split; simpl; rewrite ?E1, ?E3, ?E4, ?E5; try done.
      * rewrite map_size_delete_Some by eauto. lia.
      * subst c1. destruct (enEvictable e); simpl; [by apply NoDup_removeKey|done].
      * intros j. rewrite Hlru, L5. destruct (decide (j = k)) as [->|Hj].
        -- rewrite lookup_delete_eq. naive_solver.
        -- rewrite lookup_delete_ne by done. naive_solver.
      * by apply NoDup_removeKey.
      * intros j. rewrite elem_of_removeKey, L7. destruct (decide (j = k)) as [->|Hj].
        -- rewrite lookup_delete_eq. split; [tauto|]. by intros [? ?].
        -- rewrite lookup_delete_ne by done. tauto.
      * intros j. rewrite elem_of_removeKey. case_bool_decide as Ec.
        -- intros Hn. split; [by eapply nextOf_elem|]. intros ->. by apply (nextOf_ne k (compactorList c)).
        -- intros Hc. split; [by apply L8|]. congruence.
Qed.

Lemma insert_spec k d c :
  entries c !! k = None -> Z.of_nat (size (entries c)) < Capacity (options c) ->
  evolves k c (insertEntry k d c) /\ view (insertEntry k d c) k = (Some (newEntry k d), keyState c !! k).
Proof.
  intros He Hsz. split; [|unfold view; simpl; by rewrite lookup_insert_eq]. split; try done.
  - intros j Hj. unfold view. simpl. by rewrite lookup_insert_ne.
  - intros [L1 L2 L3 L4 L5 L6 L7 L8]. split; simpl; try done.
    + rewrite map_size_insert_None by done. lia.
    + intros j. rewrite L5. destruct (decide (j = k)) as [->|Hj].
      * rewrite lookup_insert_eq, He. naive_solver.
      * by rewrite lookup_insert_ne.
    + apply NoDup_app. split; [done|]. split; [|apply NoDup_singleton].
      intros j Hj ->%list_elem_of_singleton. apply L7 in Hj as [? ?]. congruence.
    + intros j. rewrite elem_of_app, list_elem_of_singleton, L7. destruct (decide (j = k)) as [->|Hj].
      * rewrite lookup_insert_eq. naive_solver.
      * rewrite lookup_insert_ne by done. naive_solver.
    + intros j Hj. apply elem_of_app. left. by apply L8.
Qed.

(** ** Operations on the whole cache *)

(** The cache stays in order and every key makes a sequence of transitions
    with the given labels. *)
Record moves (L : string -> list keyLabel) (c c' : cache) : Prop := mkMoves {
  mv_options : options c' = options c;
  mv_links : links_ok c';
  mv_keys k : keySteps k (L k) (view c k) (view c' k)
}.

Definition quiet : string -> list keyLabel := fun _ => [].

Lemma moves_ok L c c' : moves L c c' -> cache_ok c -> cache_ok c'.
Proof. intros [_ Hl Hk] [_ Hok]. split; [done|]. intros k. by eapply key_ok_steps. Qed.
Lemma moves_refl c : links_ok c -> moves quiet c c.
Proof. intros H. split; [done..|]. constructor. Qed.
Lemma moves_trans L M c c' c'' :
  moves L c c' -> moves M c' c'' -> moves (fun k => L k ++ M k) c c''.
Proof.
  intros [A1 A2 A3] [B1 B2 B3]. split; [congruence|done|]. intros k. by eapply keySteps_app.
Qed.
Lemma moves_ext L M c c' : (forall k, L k = M k) -> moves L c c' -> moves M c c'.
Proof. intros H [A1 A2 A3]. split; [done..|]. intros k. by rewrite <- H. Qed.
Lemma moves_then c c' c'' L : moves quiet c c' -> moves L c' c'' -> moves L c c''.
Proof. intros H1 H2. by apply (moves_trans _ _ _ _ _ H1 H2). Qed.

(** A label at one key. *)
Definition onlyAt (k : string) (L : list keyLabel) : string -> list keyLabel :=
  fun j => if String.eqb j k then L else [].

Lemma moves_at k L c c' :
  links_ok c -> evolves k c c' -> keySteps k L (view c k) (view c' k) -> moves (onlyAt k L) c c'.
Proof.
  intros Hl [E1 E2 E3 E4 E5 E6] Hk. split; [done|auto|]. intros j. unfold onlyAt.
  destruct (String.eqb_spec j k) as [->|Hj]; [done|]. rewrite E5 by done. constructor.
Qed.
Lemma moves_quiet_at k c c' :
  links_ok c -> evolves k c c' -> keySteps k [] (view c k) (view c' k) -> moves quiet c c'.
Proof.
  intros Hl He Hk. eapply moves_ext; [|by apply (moves_at k [])]. intros j. unfold onlyAt, quiet. by destruct (String.eqb j k).
Qed.

Lemma links_of c : cache_ok c -> links_ok c.
Proof. by intros []. Qed.
#[local] Hint Resolve links_of : core.

(** Eviction ends, makes room or finds every entry pinned, and leaves alone
    the keys that have no entry. *)
Record evicted (c c' : cache) : Prop := mkEvicted {
  evd_moves : moves quiet c c';
  evd_catalog : catalog c' = catalog c;
  evd_activations : activations c' = activations c;
  evd_budget : pinnedBudgetDegraded c' = pinnedBudgetDegraded c;
  evd_absent k : entries c !! k = None -> view c' k = view c k;
  evd_pinned k e : entries c !! k = Some e -> enPinClass e <> shadowPinClassNone -> view c' k = view c k
}.

Lemma evict_one c k l :
  cache_ok c -> evictableLRU c = k :: l ->
  evicted c (removeEntryLocked k c) /\ S (size (entries (removeEntryLocked k c))) = size (entries c).
Proof.
  intros [Hl Hok] El. destruct (proj1 (lk_lru c Hl k)) as (e & He & Hev); [rewrite El; set_solver|].
  pose proof (Hok k) as Hk. unfold key_ok, view in Hk. rewrite He in Hk.
  destruct (keyState c !! k) as [s|] eqn:Es; [|done]. destruct Hk as (_ & _ & _ & Hp).
  rewrite Hev in Hp. symmetry in Hp. apply bool_decide_eq_true in Hp.
  destruct (remove_spec k c e He) as (Hv & Hd & Hev'). specialize (Hev' Hl). split.
  - split; try apply Hev'.
    + apply (moves_quiet_at k); [done..|]. rewrite Hv, Es. unfold view. rewrite He, Es. simpl.
      by apply keySteps_one, ks_evict.
    + intros j Hj. apply Hev'. congruence.
    + intros j e' Hj Hp'. apply Hev'. intros ->. congruence.
  - rewrite Hd, map_size_delete_Some by eauto. assert (size (entries c) <> 0%nat); [|lia].
    apply map_size_ne_0_lookup. eauto.
Qed.

Lemma evicted_refl c : cache_ok c -> evicted c c.
Proof. intros [Hl _]. split; try done. by apply moves_refl. Qed.
Lemma evicted_trans c c' c'' : evicted c c' -> evicted c' c'' -> evicted c c''.
Proof.
  intros [A1 A2 A3 A4 A5 A6] [B1 B2 B3 B4 B5 B6]. split; [by eapply moves_then|congruence..| |].
  - intros k Hk. rewrite B5, A5; [done..|]. specialize (A5 k Hk). injection A5 as -> _. done.
  - intros k e Hk Hp. rewrite (B6 k e), (A6 k e); [done..| |done].
    specialize (A6 k e Hk Hp). injection A6 as -> _. done.
Qed.

Lemma evictLoop_spec fuel : forall c,
  cache_ok c -> (size (entries c) <= fuel)%nat ->
  exists c' ok, evictLoop fuel c = Some (c', ok) /\ evicted c c'
    /\ (ok = true -> Z.of_nat (size (entries c')) < Capacity (options c')).
Proof.
  induction fuel as [|fuel IH]; intros c Hok Hsz; cbn [evictLoop];
    destruct (Z.ltb_spec (Z.of_nat (size (entries c))) (Capacity (options c))) as [Hlt|Hge].
  1, 3: by exists c, true; (split; [done|]); (split; [by apply evicted_refl|]).
  - pose proof (lk_capacity c (links_of c Hok)). lia.
  - destruct (evictableLRU c) as [|k l] eqn:El.
    + exists c, false. split; [done|]. split; [by apply evicted_refl|done].
    + destruct (evict_one c k l Hok El) as [H1 H2].
      destruct (IH (removeEntryLocked k c)) as (c' & ok & E & H3 & H4);
        [by eapply moves_ok; [apply H1|]|lia|].
      exists c', ok. split; [done|]. split; [by eapply evicted_trans|done].
Qed.

Lemma capacity_spec p c :
  cache_ok c ->
  exists c' ok, ensureCapacityLocked p c = Some (c', ok) /\ evicted c c'
    /\ (ok = true -> Z.of_nat (size (entries c')) < Capacity (options c')).
Proof.
  intros Hok. unfold ensureCapacityLocked.
  destruct (Z.ltb_spec (Z.of_nat (size (entries c))) (Capacity (options c))) as [Hlt|Hge].
  - exists c, true. split; [done|]. split; [by apply evicted_refl|done].
  - destruct (evictLoop_spec (size (entries c)) c Hok) as (c' & ok & -> & H1 & H2); [done|].
    destruct ok; eexists c', _; (split; [done|]); (split; [done|]); auto.
Qed.

(** ** The operations *)

(** The end of a write, on an entry whose generation is that of its key. *)
Lemma commitWrite_spec k w d ttl p c e s :
  view c k = (Some e, Some s) -> enGeneration e = ksGeneration s ->
  let g := if enGeneration e =? 0 then incr64 (enGeneration e) else enGeneration e in
  let e' := set_pin p (bool_decide (p = shadowPinClassNone))
              (set_lastWriteGeneration (incr64 (ksLastWriteGeneration s))
                 (set_generation g (writeEntry w d ttl p e))) in
  evolves k c (fst (commitWrite k w d ttl p c))
  /\ view (fst (commitWrite k w d ttl p c)) k
     = (Some e', Some (mkKeyState g (incr64 (ksLastWriteGeneration s)) 0
                         (ksPrecedenceHighWater (writeState w s)) (entrySnapshot e')))
  /\ snd (commitWrite k w d ttl p c)
     = mkWriteResult true g (incr64 (ksLastWriteGeneration s)) NotRejected.
Proof.
  intros Hv Hg g e'. unfold commitWrite.
  set (c1 := modState _ _ _).
  assert (evolves k c c1) as H1.
  { subst c1. etrans; [by apply (evolves_modEntry k (writeEntry w d ttl p))|apply evolves_modState]. }
  assert (view c1 k = (Some (writeEntry w d ttl p e), Some (writeState w s))) as V1.
  { subst c1. by rewrite view_modState, view_modEntry, Hv. }
  set (c2 := match entries c1 !! k with
    | Some e0 => if enGeneration e0 =? 0 then advanceGenerationLocked k c1 else c1 | None => c1 end).
  assert (evolves k c1 c2 /\ view c2 k = (Some (set_generation g (writeEntry w d ttl p e)),
    Some (mkKeyState g (ksLastWriteGeneration s) 0 (ksPrecedenceHighWater (writeState w s)) (ksSnapshot s))))
    as [H2 V2].
  { subst c2. rewrite (view_entry _ _ _ _ V1). cbn [enGeneration writeEntry]. subst g.
    destruct (enGeneration e =? 0).
    - split; [apply evolves_advance|]. rewrite (view_advance _ _ _ _ V1). simpl. by rewrite Hg.
    - split; [done|]. rewrite V1. unfold writeState. by rewrite <- Hg. }
  set (c3 := bumpLastWriteGenerationLocked k c2). pose proof (view_bump _ _ _ _ V2) as V3. fold c3 in V3.
  destruct (apply_spec k p c3 _ _ V3) as [H4 V4]. set (c4 := applyPinClassLocked k p c3) in *.
  pose proof (view_store _ _ _ _ V4) as V5. set (c5 := storeSnapshotLocked k c4) in *.
  cbn [fst snd]. split; [|split].
  - etrans; [exact H1|]. etrans; [exact H2|]. etrans; [apply evolves_bump|]. etrans; [exact H4|].
    etrans; [apply evolves_store|apply evolves_touch].
  - rewrite view_touch, V5. done.
  - pose proof (view_touch k (wObservedAt w) c5) as Vt. rewrite V5 in Vt. by rewrite (view_entry _ _ _ _ Vt).
Qed.

(** The end of an invalidation. *)
Lemma commitInvalidate_spec k reason source at_ d p0 c e s :
  view c k = (Some e, Some s) ->
  exists p,
  let e' := set_pin p (bool_decide (p = shadowPinClassNone))
              (set_lastWriteGeneration (incr64 (ksLastWriteGeneration s))
                 (invalidateEntry reason source (ksInvalidatedAt s) d p
                    (set_generation (incr64 (ksGeneration s)) e))) in
  evolves k c (fst (commitInvalidate k reason source at_ d p0 c))
  /\ view (fst (commitInvalidate k reason source at_ d p0 c)) k
     = (Some e', Some (mkKeyState (incr64 (ksGeneration s)) (incr64 (ksLastWriteGeneration s))
                         (ksInvalidatedAt s) (ksPrecedenceHighWater s) (entrySnapshot e')))
  /\ snd (commitInvalidate k reason source at_ d p0 c)
     = mkInvalidationResult (incr64 (ksGeneration s)) (enState e').
Proof.
  intros Hv. unfold commitInvalidate. set (p := if _ && _ then _ else p0). clearbody p. exists p.
  set (c1 := advanceGenerationLocked k c). pose proof (view_advance _ _ _ _ Hv) as V1. fold c1 in V1.
  rewrite (stateOf_view c1 k _ (f_equal snd V1)). cbn [ksInvalidatedAt].
  set (c2 := modEntry k _ c1).
  assert (view c2 k = (Some (invalidateEntry reason source (ksInvalidatedAt s) d p
    (set_generation (incr64 (ksGeneration s)) e)),
    Some (mkKeyState (incr64 (ksGeneration s)) (ksLastWriteGeneration s) (ksInvalidatedAt s)
            (ksPrecedenceHighWater s) (ksSnapshot s)))) as V2
    by (subst c2; by rewrite view_modEntry, V1).
  set (c3 := bumpLastWriteGenerationLocked k c2). pose proof (view_bump _ _ _ _ V2) as V3. fold c3 in V3.
  destruct (apply_spec k p c3 _ _ V3) as [H4 V4]. set (c4 := applyPinClassLocked k p c3) in *.
  pose proof (view_store _ _ _ _ V4) as V5. set (c5 := storeSnapshotLocked k c4) in *.
  cbn [fst snd]. split; [|split].
  - etrans; [apply evolves_advance|]. fold c1.
    etrans; [by apply (evolves_modEntry k (invalidateEntry reason source (ksInvalidatedAt s) d p))|].
    fold c2.
    etrans; [apply evolves_bump|]. etrans; [exact H4|]. etrans; [apply evolves_store|apply evolves_touch].
  - rewrite view_touch, V5. done.
  - pose proof (view_touch k at_ c5) as Vt. rewrite V5 in Vt. by rewrite (view_entry _ _ _ _ Vt).
Qed.

(** What an operation does before it decides: the key state exists and the
    pin of the entry is up to date. *)
Lemma prepared_spec k c :
  cache_ok c ->
  let c1 := syncEntryPinLocked k (ensureKeyStateLocked k c) in
  moves quiet c c1 /\ exists x s, view c1 k = (x, Some s).
Proof.
  intros [Hl Hok] c1. pose proof (Hok k) as Hk.
  assert (moves quiet c (ensureKeyStateLocked k c)) as M0
    by (apply (moves_quiet_at k); [done|apply evolves_ensure|by apply ensure_steps]).
  assert (cache_ok (ensureKeyStateLocked k c)) as [Hl0 Hok0] by (by eapply moves_ok).
  destruct (sync_spec k (ensureKeyStateLocked k c) (Hok0 k)) as (H1 & H2 & H3 & _). split.
  - eapply moves_then; [exact M0|]. by apply (moves_quiet_at k).
  - exists (entries c1 !! k), (stateOf c k). unfold view. fold c1 in H3. rewrite H3.
    by rewrite (view_state _ _ _ _ (view_ensure k c)).
Qed.

Definition writeLabels (w : ShadowWrite) (r : ShadowWriteResult) : string -> list keyLabel :=
  match wKey w with
  | Some key => if Accepted r then onlyAt (Canonical key) [LWrite w] else quiet
  | None => quiet
  end.

Lemma writeLabels_rejected w g r : writeLabels w (rejected g r) = quiet.
Proof. unfold writeLabels. by destruct (wKey w). Qed.

(** A branch that rejects the write. *)
Ltac reject := eexists _, _; split; [done|]; by rewrite writeLabels_rejected.

(** A write into an existing entry, and into a fresh one. *)
Lemma write_existing key w d ttl p c y s :
  wKey w = Some key -> links_ok c -> view c (Canonical key) = (Some y, Some s) -> enGeneration y = ksGeneration s ->
  admissible w d ttl (Some y) s ->
  let r := commitWrite (Canonical key) w d ttl p c in moves (writeLabels w (snd r)) c (fst r).
Proof.
  intros Hkey Hl Hv Hg Hadm r. destruct (commitWrite_spec (Canonical key) w d ttl p c y s Hv Hg) as (H1 & H2 & H3).
  unfold writeLabels. rewrite Hkey. fold r in H1, H2, H3. rewrite H3. cbn [Accepted].
  apply moves_at; [done..|]. rewrite H2, Hv. apply keySteps_one.
  apply (ks_write _ w d ttl p (Some y) s); [by rewrite Hkey|done].
Qed.
Lemma write_fresh key w d ttl p c s :
  wKey w = Some key -> links_ok c -> view c (Canonical key) = (None, Some s) ->
  Z.of_nat (size (entries c)) < Capacity (options c) -> admissible w d ttl None s ->
  let r := commitWrite (Canonical key) w d ttl p
             (advanceGenerationLocked (Canonical key) (insertEntry (Canonical key) d c)) in
  moves (writeLabels w (snd r)) c (fst r).
Proof.
  intros Hkey Hl Hv Hsz Hadm r. set (k := Canonical key) in *.
  destruct (insert_spec k d c (view_entry _ _ _ _ Hv) Hsz) as [E1 V1].
  rewrite (view_state _ _ _ _ Hv) in V1. pose proof (view_advance _ _ _ _ V1) as V2.
  destruct (commitWrite_spec k w d ttl p _ _ _ V2) as (H1 & H2 & H3); [done|].
  unfold writeLabels. rewrite Hkey. fold r in H1, H2, H3. rewrite H3. cbn [Accepted]. fold k.
  apply moves_at; [done|..].
  - etrans; [exact E1|]. etrans; [apply evolves_advance|done].
  - rewrite H2, Hv. apply keySteps_one. apply (ks_write k w d ttl p None s); [by rewrite Hkey|done].
Qed.

Lemma Write_spec w c :
  cache_ok c -> exists c' r, Write w c = Some (c', r) /\ moves (writeLabels w r) c c'.
Proof.
  intros Hok. pose proof (moves_refl c (links_of c Hok)) as M0. unfold Write.
  destruct (wKey w) as [key|] eqn:Hkey; [|reject].
  destruct (IsZero (wObservedAt w) || _ || _) eqn:Ebad;
    [reject|].
  destruct (DescriptorByCanonical (catalog c) (Canonical key)) as [d|];
    [|reject].
  destruct (String.eqb (FreshnessProfile d) _ || _ || _ || _);
    [reject|].
  set (k := Canonical key) in *. set (p := desiredPinClass d _). clearbody p.
  assert (moves quiet c (ensureKeyStateLocked k c)) as M1.
  { apply (moves_quiet_at k); [auto|apply evolves_ensure|]. apply ensure_steps, Hok. }
  destruct (bool_decide _ && pinnedBudgetDegraded _);
    [reject|].
  destruct (bool_decide _ && negb _); [reject|].
  destruct (prepared_spec k c Hok) as [M2 (x & s & Hv)].
  set (c1 := syncEntryPinLocked k (ensureKeyStateLocked k c)) in *.
  assert (cache_ok c1) as Hok1 by (by eapply moves_ok).
  rewrite (stateOf_view c1 k s) by (by rewrite Hv). rewrite (view_entry _ _ _ _ Hv).
  destruct (String.eqb (wSource w) _ && _) eqn:Egen;
    [reject|].
  destruct (rejectWriteByPrecedence s x w) eqn:Eprec;
    try (reject).
  destruct (EffectiveFreshnessTTL d) as [|ttl] eqn:Ettl;
    [reject|].
  destruct (Z.leb_spec ttl 0); [reject|].
  assert (admissible w d ttl x s) as Hadm.
  { apply orb_false_elim in Ebad as [[Ht _]%orb_false_elim _]. split; [done..| |done].
    intros Hs. rewrite Hs, String.eqb_refl in Egen. bool_facts. simpl in Egen. bool_facts. lia. }
  destruct x as [y|].
  - eexists _, _. split; [by rewrite <- surjective_pairing|].
    eapply moves_then; [exact M2|]. apply write_existing with (y := y) (s := s); auto.
    destruct Hok1 as [_ Hk]. specialize (Hk k). rewrite Hv in Hk. symmetry. apply Hk.
  - destruct (capacity_spec p c1 Hok1) as (c2 & ok & -> & Hev & Hsz). destruct ok.
    + eexists _, _. split; [by rewrite <- surjective_pairing|].
      eapply moves_then; [exact M2|]. eapply moves_then; [apply Hev|].
      apply write_fresh with (s := s); auto; [apply Hev|]. fold k. rewrite (evd_absent _ _ Hev k); [done|].
      by rewrite (view_entry _ _ _ _ Hv).
    + eexists _, _. split; [done|]. rewrite writeLabels_rejected.
      eapply moves_then; [exact M2|apply Hev].
Qed.

Definition invalidationTime (i : ShadowInvalidation) (now : time) : time :=
  if IsZero (iInvalidatedAt i) then now else iInvalidatedAt i.
Definition invalidateLabels (i : ShadowInvalidation) (now : time) : string -> list keyLabel :=
  match iKey i with
  | Some key => onlyAt (Canonical key) [LInvalidate (invalidationTime i now)]
  | None => quiet
  end.

(** An invalidation is taken in three ways: on an entry, on a fresh entry,
    and without an entry. *)
Lemma invalidate_existing k reason source at_ d p0 c x s :
  links_ok c -> view c k = (Some x, Some s) ->
  let c1 := modState k (invalidateState at_) c in
  moves (onlyAt k [LInvalidate at_]) c (fst (commitInvalidate k reason source at_ d p0 c1)).
Proof.
  intros Hl Hv c1.
  assert (view c1 k = (Some x, Some (invalidateState at_ s))) as V1 by (subst c1; by rewrite view_modState, Hv).
  destruct (commitInvalidate_spec k reason source at_ d p0 c1 _ _ V1) as (p & H1 & H2 & _).
  apply moves_at; [done| |].
  - etrans; [|exact H1]. apply evolves_modState.
  - rewrite H2, Hv. apply keySteps_one, (ks_invalidate k reason source at_ d p (Some x) s).
Qed.
Lemma invalidate_fresh k reason source at_ d p0 c c2 s :
  links_ok c2 -> view c k = (None, Some s) ->
  view c2 k = (None, Some (invalidateState at_ s)) ->
  Z.of_nat (size (entries c2)) < Capacity (options c2) ->
  let c3 := fst (commitInvalidate k reason source at_ d p0 (insertEntry k d c2)) in
  evolves k c2 c3 /\ keySteps k [LInvalidate at_] (view c k) (view c3 k).
Proof.
  intros Hl Hv V1 Hsz c3. destruct (insert_spec k d c2 (view_entry _ _ _ _ V1) Hsz) as [E1 V2].
  rewrite (view_state _ _ _ _ V1) in V2.
  destruct (commitInvalidate_spec k reason source at_ d p0 _ _ _ V2) as (p & H1 & H2 & _).
  split; [by etrans|]. subst c3. rewrite H2, Hv.
  apply keySteps_one, (ks_invalidate k reason source at_ d p None s).
Qed.
Lemma invalidate_absent k at_ c c2 s :
  view c k = (None, Some s) -> view c2 k = (None, Some (invalidateState at_ s)) ->
  evolves k c2 (fst (invalidateAbsent k c2))
  /\ keySteps k [LInvalidate at_] (view c k) (view (fst (invalidateAbsent k c2)) k).
Proof.
  intros Hv V1. unfold invalidateAbsent. cbn [fst]. split.
  - etrans; [apply evolves_modState|]. apply evolves_modState.
  - rewrite view_storeAbsent. unfold advanceAbsentGenerationLocked. rewrite view_modState, V1, Hv.
    apply keySteps_one, (ks_invalidate_absent k at_ s).
Qed.

(** Evicting other keys in between changes nothing. *)
Lemma moves_at_evicted k L c c1 c2 c3 :
  links_ok c1 -> evicted c1 c2 -> evolves k c c1 -> entries c1 !! k = None -> evolves k c2 c3 ->
  keySteps k L (view c k) (view c3 k) -> moves (onlyAt k L) c c3.
Proof.
  intros Hl [[M1 M2 M3] _ _ _ Ha _] [E1 _ _ _ E5 E6] Hn [F1 _ _ _ F5 F6] Hk.
  split; [congruence|auto|]. intros j. unfold onlyAt.
  destruct (String.eqb_spec j k) as [->|Hj]; [done|]. rewrite F5, <- E5 by done. apply M3.
Qed.

Lemma Invalidate_spec i now c :
  cache_ok c -> exists c' r, Invalidate i now c = Some (c', r) /\ moves (invalidateLabels i now) c c'.
Proof.
  intros Hok. unfold Invalidate, invalidateLabels, invalidationTime.
  destruct (iKey i) as [key|]; [|eexists _, _; split; [done|]; by apply moves_refl, links_of].
  set (at_ := if IsZero _ then now else _). set (k := Canonical key).
  set (d := default zeroDescriptor _). set (p := desiredPinClass d _). clearbody p.
  set (reason := if String.eqb (iReason i) "" then _ else _).
  set (source := if String.eqb (iSource i) "" then _ else _). clearbody reason source.
  set (c0 := ensureKeyStateLocked k c).
  assert (moves quiet c c0) as M0.
  { apply (moves_quiet_at k); [auto|apply evolves_ensure|]. apply ensure_steps, Hok. }
  assert (cache_ok c0) as Hok0 by (by eapply moves_ok).
  assert (exists x s, view c0 k = (x, Some s)) as (x & s & Hv) by (eexists _, _; apply view_ensure).
  set (c1 := modState k (invalidateState at_) c0). change (entries c1) with (entries c0).
  assert (view c1 k = (x, Some (invalidateState at_ s))) as V1 by (subst c1; by rewrite view_modState, Hv).
  assert (evolves k c0 c1) as E1 by apply evolves_modState.
  rewrite (view_entry _ _ _ _ Hv). destruct x as [y|].
  - eexists _, _. split; [by rewrite <- surjective_pairing|].
    eapply moves_then; [exact M0|]. by eapply invalidate_existing; [auto|].
  - destruct (bool_decide _ && negb _).
    + eexists _, _. split; [by rewrite <- surjective_pairing|]. eapply moves_then; [exact M0|].
      destruct (invalidate_absent k at_ c0 c1 s Hv V1) as [F1 F2]. apply moves_at; [auto| |done].
      by etrans.
    + assert (cache_ok c1) as Hok1.
      { split; [by apply E1, links_of|]. intros j. destruct (decide (j = k)) as [->|Hj].
        - rewrite V1. pose proof (proj2 Hok0 k) as Hk. by rewrite Hv in Hk.
        - rewrite (ev_other _ _ _ E1 j Hj). apply Hok0. }
      destruct (capacity_spec p c1 Hok1) as (c2 & ok & -> & Hev & Hsz).
      pose proof (evd_absent _ _ Hev k (view_entry _ _ _ _ V1)) as V2. rewrite V1 in V2.
      destruct ok; eexists _, _; (split; [by rewrite <- surjective_pairing|]);
        (eapply moves_then; [exact M0|]);
        (eapply (moves_at_evicted k _ c0 c1 c2); [auto|done|done|exact (view_entry _ _ _ _ V1)|..]).
      1-2: eapply (invalidate_fresh k reason source at_ d p c0 c2 s); [apply Hev|done|done|auto].
      all: apply (invalidate_absent k at_ c0 c2 s Hv V2).
Qed.

(** Operations that change no key. *)
Lemma moves_same c c' :
  links_ok c -> options c' = options c -> entries c' = entries c -> keyState c' = keyState c ->
  evictableLRU c' = evictableLRU c -> compactorList c' = compactorList c ->
  (forall k, compactorCursor c' = Some k -> k ∈ compactorList c) -> moves quiet c c'.
Proof.
  intros [L1 L2 L3 L4 L5 L6 L7 L8] E1 E2 E3 E4 E5 E6. split; [done| |].
  - split; rewrite ?E1, ?E2, ?E4, ?E5; done.
  - intros k. unfold view. rewrite E2, E3. constructor.
Qed.
Lemma moves_touch t c : links_ok c -> moves quiet c (touchLocked t c).
Proof. intros Hl. unfold touchLocked. break; try by apply moves_refl. apply moves_same; try done. apply Hl. Qed.
Lemma moves_graph k a c : links_ok c -> moves quiet c (set_graph k a c).
Proof. intros Hl. apply moves_same; try done. apply Hl. Qed.
Lemma moves_sync k c : cache_ok c -> moves quiet c (syncEntryPinLocked k c).
Proof.
  intros [Hl Hok]. destruct (sync_spec k c (Hok k)) as (H1 & H2 & _). by apply (moves_quiet_at k).
Qed.

(** Folding an operation over the keys of a map. *)
Lemma moves_fold {A} (f : cache -> A -> cache) (l : list A) :
  (forall c x, cache_ok c -> moves quiet c (f c x)) ->
  forall c, cache_ok c -> moves quiet c (fold_left f l c).
Proof.
  intros Hf. induction l as [|x l IH]; intros c Hok; [by apply moves_refl, links_of|].
  simpl. eapply moves_then; [by apply Hf|]. apply IH. by eapply moves_ok; [apply Hf|].
Qed.

Lemma Lookup_spec key maxAge now c : cache_ok c -> moves quiet c (fst (Lookup key maxAge now c)).
Proof.
  intros Hok. unfold Lookup. destruct key as [key|]; [|by apply moves_refl, links_of].
  set (k := Canonical key). pose proof (moves_sync k c Hok) as M1.
  assert (cache_ok (syncEntryPinLocked k c)) as Hok1 by (by eapply moves_ok).
  destruct (entries (syncEntryPinLocked k c) !! k) as [e|] eqn:He; [|done]. cbn [fst].
  destruct (lookupEligibleLocked _ _ _ _ && _); [|done]. eapply moves_then; [exact M1|].
  destruct (touchEvictable_spec k (syncEntryPinLocked k c) e (keyState (syncEntryPinLocked k c) !! k))
    as [H1 H2]; [unfold view; by rewrite He|apply Hok1|].
  apply (moves_quiet_at k); [auto|done|]. rewrite H2. constructor.
Qed.

(** One step of the compactor: the key visited is compacted or not. *)
Definition compactions (L : list keyLabel) : Prop := Forall (fun l => l = LCompact) L.

Lemma moves_compact k c0 c c' :
  moves quiet c0 c -> evolves k c c' -> keySteps k [LCompact] (view c k) (view c' k) ->
  exists L, moves L c0 c' /\ forall j, compactions (L j) /\ (length (L j) <= 1)%nat.
Proof.
  intros M E H. exists (onlyAt k [LCompact]). split.
  - eapply moves_then; [exact M|]. by apply moves_at; [apply M|..].
  - intros j. unfold onlyAt, compactions. destruct (String.eqb j k); split; try lia; repeat constructor.
Qed.
Lemma moves_quiet c c' :
  moves quiet c c' -> exists L, moves L c c' /\ forall j, compactions (L j) /\ (length (L j) <= 1)%nat.
Proof. intros M. exists quiet. split; [done|]. intros j. split; [constructor|simpl; lia]. Qed.

Lemma compactOne_spec now k c m :
  cache_ok c ->
  exists L, moves L c (fst (compactOne now (c, m) k)) /\ forall j, compactions (L j) /\ (length (L j) <= 1)%nat.
Proof.
  intros Hok. unfold compactOne.
  destruct (entries c !! k) as [e0|]; [|by apply moves_quiet, moves_refl, links_of].
  pose proof (moves_sync k c Hok) as M1. set (c0 := syncEntryPinLocked k c) in *.
  assert (cache_ok c0) as Hok0 by (by eapply moves_ok).
  assert (moves quiet c0 (ensureKeyStateLocked k c0)) as M2.
  { apply (moves_quiet_at k); [auto|apply evolves_ensure|]. apply ensure_steps, Hok0. }
  assert (exists x s, view (ensureKeyStateLocked k c0) k = (x, Some s)) as (x & s & Hv)
    by (eexists _, _; apply view_ensure).
  set (c1 := ensureKeyStateLocked k c0) in *. assert (moves quiet c c1) as M by (by eapply moves_then).
  assert (cache_ok c1) as [Hl1 Hok1] by (by eapply moves_ok).
  rewrite (view_entry _ _ _ _ Hv). destruct x as [e|]; [|by apply moves_quiet].
  destruct (enState e) eqn:Est; try by apply moves_quiet.
  - destruct (_ || _); [by apply moves_quiet|]. cbn [fst].
    pose proof (view_advance _ _ _ _ Hv) as V1. set (c2 := advanceGenerationLocked k c1) in *.
    assert (view (modEntry k set_tombstone c2) k = (Some (set_tombstone (set_generation (incr64 (ksGeneration s)) e)),
      snd (view c2 k))) as V2 by (by rewrite view_modEntry, V1). rewrite V1 in V2. cbn [snd] in V2.
    pose proof (view_bump _ _ _ _ V2) as V3. pose proof (view_store _ _ _ _ V3) as V4.
    apply (moves_compact k c c1); [done| |].
    + etrans; [apply evolves_advance|]. etrans; [by apply (evolves_modEntry k set_tombstone)|].
      etrans; [apply evolves_bump|apply evolves_store].
    + rewrite V4, Hv. by apply keySteps_one, (ks_tombstone k e s).
  - destruct (_ || _); [by apply moves_quiet|]. cbn [fst].
    pose proof (view_advance _ _ _ _ Hv) as V1. set (c2 := advanceGenerationLocked k c1) in *.
    pose proof (view_storeAbsent k c2) as V2. rewrite V1 in V2. cbn [fst snd fmap option_fmap option_map] in V2.
    assert (evolves k c1 (storeAbsentSnapshotLocked k c2)) as E2
      by (etrans; [apply evolves_advance|apply evolves_modState]).
    destruct (remove_spec k _ _ (view_entry _ _ _ _ V2)) as (V3 & _ & E3).
    apply (moves_compact k c c1); [done| |].
    + etrans; [exact E2|]. by apply E3, E2.
    + rewrite V3, Hv, (view_state _ _ _ _ V2). by apply keySteps_one, (ks_purge k e s).
Qed.

(** A visit affects only the key visited. *)
Lemma evolves_compactOne now k c m : cache_ok c -> evolves k c (fst (compactOne now (c, m) k)).
Proof.
  intros [Hl Hok]. unfold compactOne. destruct (entries c !! k) as [e0|]; [|done].
  destruct (sync_spec k c (Hok k)) as (E1 & _). set (c0 := syncEntryPinLocked k c) in *.
  assert (evolves k c (ensureKeyStateLocked k c0)) as E2 by (etrans; [exact E1|apply evolves_ensure]).
  set (c1 := ensureKeyStateLocked k c0) in *. destruct (entries c1 !! k) as [e|]; [|done].
  destruct (enState e); try done; (destruct (_ || _); [done|]); cbn [fst]; (etrans; [exact E2|]);
    (etrans; [apply evolves_advance|]).
  - etrans; [by apply (evolves_modEntry k set_tombstone)|]. etrans; [apply evolves_bump|apply evolves_store].
  - set (c2 := advanceGenerationLocked k c1). etrans; [apply evolves_modState|].
    fold (storeAbsentSnapshotLocked k c2). set (c3 := storeAbsentSnapshotLocked k c2).
    destruct (entries c3 !! k) as [e3|] eqn:E3; [|by unfold removeEntryLocked; rewrite E3].
    apply (remove_spec k c3 e3 E3). by apply evolves_modState, evolves_advance, E2.
Qed.

Lemma compactBatch_spec batch now c :
  cache_ok c ->
  exists L, moves L c (compactBatch batch now c)
    /\ forall j, compactions (L j) /\ (length (L j) <= length batch)%nat.
Proof.
  intros Hok. unfold compactBatch.
  assert (forall m, exists L, moves L c (fst (fold_left (compactOne now) batch (c, m)))
    /\ forall j, compactions (L j) /\ (length (L j) <= length batch)%nat) as H.
  { revert c Hok. induction batch as [|k batch IH]; intros c Hok m.
    { exists quiet. split; [by apply moves_refl, links_of|]. intros j. split; [constructor|done]. }
    cbn [fold_left]. destruct (compactOne_spec now k c m Hok) as (L1 & M1 & H1).
    destruct (compactOne now (c, m) k) as [c1 m1]. cbn [fst] in M1.
    destruct (IH c1 (moves_ok _ _ _ M1 Hok) m1) as (L2 & M2 & H2).
    exists (fun j => L1 j ++ L2 j). split; [by eapply moves_trans|]. intros j.
    destruct (H1 j), (H2 j). split; [by apply Forall_app|]. rewrite length_app. simpl. lia. }
  destruct (H false) as (L & M & HL). destruct (fold_left _ batch (c, false)) as [c1 m1]. cbn [fst] in M.
  exists L. split; [|done]. destruct m1; [|done]. eapply moves_ext; [|eapply moves_trans; [exact M|]].
  2: { apply moves_touch, M. } intros j. apply app_nil_r.
Qed.

Lemma takeFrom_elem n : forall k l, k ∈ l -> Forall (fun j => j ∈ l) (fst (takeFrom n k l))
  /\ forall j, snd (takeFrom n k l) = Some j -> j ∈ l.
Proof.
  induction n as [|n IH]; intros k l Hk; simpl; [split; [constructor|]; by intros j [= <-]|].
  destruct (nextOf k l) as [j|] eqn:En; [|split; [by apply Forall_singleton|done]].
  apply nextOf_elem in En. destruct (IH j l En) as [H1 H2].
  destruct (takeFrom n j l) as [batch stop]. simpl in *. split; [by constructor|done].
Qed.

Lemma nextBatch_spec c : links_ok c -> moves quiet c (fst (nextCompactorBatch c)).
Proof.
  intros Hl. unfold nextCompactorBatch. destruct (compactorList c) as [|first l] eqn:El.
  - apply moves_same; try done.
  - rewrite <- El. set (cursor := default first _).
    assert (cursor ∈ compactorList c) as Hc.
    { subst cursor. destruct (compactorCursor c) as [k|] eqn:Ec; [by apply (lk_cursor c Hl)|]. rewrite El. left. }
    destruct (takeFrom_elem (Z.to_nat (CompactorBatchSize (options c))) cursor (compactorList c) Hc) as [_ H].
    destruct (takeFrom _ _ _) as [batch stop]. cbn [fst snd] in *. apply moves_same; done.
Qed.

Section Ranged.
Context (order : gset string -> list string).

Lemma syncAll_spec c : cache_ok c -> moves quiet c (syncAllPinsLocked order c).
Proof. apply moves_fold. intros. by apply moves_sync. Qed.

Lemma moves_budget b c : links_ok c -> moves quiet c (set_budget b c).
Proof. intros Hl. apply moves_same; try done. apply Hl. Qed.

Lemma revalidate_spec now c : cache_ok c -> moves quiet c (revalidate order now c).
Proof.
  intros Hok. unfold revalidate.
  pose proof (moves_budget (staticPinnedBudget c <? staticPinnedFootprint c) c (links_of c Hok)) as M1.
  assert (cache_ok (set_budget (staticPinnedBudget c <? staticPinnedFootprint c) c)) as Hok1
    by (by eapply moves_ok).
  pose proof (syncAll_spec _ Hok1) as M2. eapply moves_then; [exact M1|]. eapply moves_then; [exact M2|].
  apply moves_touch, M2.
Qed.

Lemma Summary_spec c : cache_ok c -> moves quiet c (fst (Summary order c)).
Proof.
  intros Hok. unfold Summary.
  assert (forall l r c, cache_ok c -> moves quiet c (fst (fold_left summaryOne l (c, r)))) as H.
  { intros l. induction l as [|k l IH]; intros r c0 Hok0; [by apply moves_refl, links_of|].
    cbn [fold_left]. destruct r as [[a b] d]. unfold summaryOne at 2.
    pose proof (moves_sync k c0 Hok0) as M. eapply moves_then; [exact M|]. apply IH. by eapply moves_ok. }
  specialize (H (order (dom (entries c))) (0, 0, 0) c Hok).
  destruct (fold_left _ _ _) as [c1 [[a b] d]]. exact H.
Qed.

Lemma moves_descriptor k d c : cache_ok c -> moves quiet c (modEntry k (set_descriptor d) c).
Proof.
  intros [Hl _]. apply (moves_quiet_at k); [done|by apply (evolves_modEntry k (set_descriptor d))|].
  rewrite view_modEntry. destruct (view c k) as [[e|] s]; simpl; [|constructor].
  apply keySteps_one. constructor.
Qed.

Lemma rebuild_spec replace ds d sources now c :
  cache_ok c -> moves quiet c (fst (rebuild order replace ds d sources now c)).
Proof.
  intros Hok. unfold rebuild. destruct (NewWatchCatalog ds) as [|k]; [by apply moves_refl, links_of|].
  destruct (bootstrapRuntimeActivationSet _ _ _ _) as [|a]; [by apply moves_refl, links_of|]. cbn [fst].
  pose proof (moves_graph k a c (links_of c Hok)) as M1.
  assert (cache_ok (set_graph k a c)) as Hok1 by (by eapply moves_ok).
  eapply moves_then; [exact M1|]. destruct replace; [|by apply revalidate_spec].
  pose proof (moves_descriptor (CanonicalKey d) d _ Hok1) as M2. eapply moves_then; [exact M2|].
  apply revalidate_spec. by eapply moves_ok.
Qed.

Lemma Bootstrap_spec d sources now c :
  cache_ok c -> moves quiet c (fst (BootstrapRuntimeDescriptor order d sources now c)).
Proof.
  intros Hok. pose proof (moves_refl c (links_of c Hok)) as M0. unfold BootstrapRuntimeDescriptor.
  destruct (normalizeWatchDescriptor d) as [|d1]; [done|]. destruct (Key d1) as [a|]; [|done].
  destruct (DescriptorByCanonical _ _); [|by apply rebuild_spec].
  destruct (shouldUpgradeRuntimeDescriptor _ _); [by apply rebuild_spec|].
  destruct (addSources _ _ _ _ _) as [[a1 added] [e|]];
    [destruct added; by apply moves_graph, links_of|].
  pose proof (moves_graph (catalog c) a1 c (links_of c Hok)) as M1.
  destruct added; [|done]. eapply moves_then; [exact M1|]. apply revalidate_spec. by eapply moves_ok.
Qed.

(** ** Every operation *)

(** What an operation does to the keys. *)
Definition opLabels (o : op) (c : cache) : string -> list keyLabel :=
  match o with
  | OpWrite w => match Write w c with Some (_, r) => writeLabels w r | None => quiet end
  | OpInvalidate i now => invalidateLabels i now
  | _ => quiet
  end.

(** The labels a caller sees, and how many compactions an operation can
    make of one key. *)
Definition isCompact (l : keyLabel) : bool := match l with LCompact => true | _ => false end.
Definition visible (L : list keyLabel) : list keyLabel := List.filter (fun l => negb (isCompact l)) L.
Definition opWeight (o : op) : nat :=
  match o with OpCompactBatch batch _ => length batch | _ => 1 end.

Lemma visible_app L M : visible (L ++ M) = visible L ++ visible M.
Proof. apply List.filter_app. Qed.
Lemma visible_compactions L : compactions L -> visible L = [].
Proof. intros H. apply filter_nil. intros l Hl. unfold compactions in H. rewrite Forall_forall in H. by rewrite (H l Hl). Qed.

Lemma labels_visible o c k : visible (opLabels o c k) = opLabels o c k /\ (length (opLabels o c k) <= 1)%nat.
Proof.
  destruct o; simpl; try (split; [done|lia]).
  - destruct (Write w c) as [[c' r]|]; [|split; [done|simpl; lia]]. unfold writeLabels.
    destruct (wKey w); [|split; [done|simpl; lia]]. destruct (Accepted r); [|split; [done|simpl; lia]].
    unfold onlyAt. destruct (String.eqb k _); split; try done; simpl; lia.
  - unfold invalidateLabels. destruct (iKey i); [|split; [done|simpl; lia]].
    unfold onlyAt. destruct (String.eqb k _); split; try done; simpl; lia.
Qed.

Lemma shadow_step_moves o c :
  cache_ok c -> (forall batch now, o <> OpCompactBatch batch now) ->
  exists c', step order o c = Some c' /\ moves (opLabels o c) c c'.
Proof.
  intros Hok Hne. pose proof (links_of c Hok) as Hl. destruct o; simpl.
  - destruct (Write_spec w c Hok) as (c' & r & -> & M). by exists c'.
  - destruct (Invalidate_spec i now c Hok) as (c' & r & -> & M). by exists c'.
  - eexists. split; [done|]. by apply Lookup_spec.
  - eexists. split; [done|]. unfold Entry. destruct key; [by apply moves_sync|by apply moves_refl].
  - eexists. split; [done|]. unfold Observe. destruct (WatchCatalog.Observe _ _). by apply moves_graph.
  - eexists. split; [done|]. by apply nextBatch_spec.
  - by destruct (Hne batch now).
  - eexists. split; [done|]. unfold RevalidatePinnedBudget. pose proof (revalidate_spec now c Hok) as M.
    eapply moves_then; [exact M|]. apply Summary_spec. by eapply moves_ok.
  - eexists. split; [done|]. unfold RefreshActivations. pose proof (syncAll_spec c Hok) as M.
    eapply moves_then; [exact M|]. apply moves_touch, M.
  - eexists. split; [done|]. by apply Summary_spec.
  - eexists. split; [done|]. by apply Bootstrap_spec.
  - eexists. split; [done|]. by apply moves_graph.
  - eexists. split; [done|]. by apply moves_graph.
Qed.

Lemma step_spec o c :
  cache_ok c -> exists c' L, step order o c = Some c' /\ moves L c c'
    /\ forall k, visible (L k) = opLabels o c k /\ (length (L k) <= opWeight o)%nat.
Proof.
  intros Hok.
  assert ((exists batch now, o = OpCompactBatch batch now) \/ forall batch now, o <> OpCompactBatch batch now)
    as [(batch & now & ->)|Hne] by (destruct o; (by right) || (left; eauto)).
  - destruct (compactBatch_spec batch now c Hok) as (L & M & HL). eexists _, L. split; [done|].
    split; [done|]. intros k. destruct (HL k). split; [by apply visible_compactions|done].
  - destruct (shadow_step_moves o c Hok Hne) as (c' & E & M).
    exists c', (opLabels o c). split; [done|]. split; [done|]. intros k.
    destruct (labels_visible o c k). split; [done|]. destruct o; simpl in *; try lia.
Qed.

(** The labels of a run, and its weight. *)
Fixpoint runLabels (os : list op) (c : cache) (k : string) : list keyLabel :=
  match os with
  | [] => []
  | o :: os' =>
      opLabels o c k ++ match step order o c with Some c' => runLabels os' c' k | None => [] end
  end.
Definition runWeight (os : list op) : nat := sum_list (opWeight <$> os).

Lemma run_spec os : forall c,
  cache_ok c -> exists c' L, run order os c = Some c' /\ moves L c c'
    /\ forall k, visible (L k) = runLabels os c k /\ (length (L k) <= runWeight os)%nat.
Proof.
  induction os as [|o os IH]; intros c Hok; cbn [run runLabels].
  - exists c, quiet. split; [done|]. split; [by apply moves_refl, links_of|]. done.
  - destruct (step_spec o c Hok) as (c1 & L1 & E1 & M1 & H1). rewrite E1.
    destruct (IH c1) as (c2 & L2 & E2 & M2 & H2); [by eapply moves_ok|].
    exists c2, (fun k => L1 k ++ L2 k). split; [done|]. split; [by eapply moves_trans|].
    intros k. destruct (H1 k) as [V1 W1], (H2 k) as [V2 W2]. rewrite visible_app, V1, V2. split; [done|].
    rewrite length_app. change (runWeight (o :: os)) with (opWeight o + runWeight os)%nat. lia.
Qed.

Lemma new_ok o view_ k a now : cache_ok (NewShadowCache order o view_ k a now).
Proof.
  unfold NewShadowCache, RevalidatePinnedBudget. set (c0 := mkCache _ _ _ _ _ _ _ _ _ _ _).
  assert (cache_ok c0) as Hok.
  { split; [|intros j; unfold view; simpl; by rewrite !lookup_empty].
    assert (0 < Capacity (options c0)) as Hc.
    { subst c0. simpl. destruct (Z.leb_spec (Capacity o) 0); [done|lia]. }
    split; simpl; try done.
    - destruct (Z.leb_spec (CompactorBatchSize o) 0); [done|lia].
    - rewrite map_size_empty. simpl in Hc. lia.
    - constructor.
    - intros j. rewrite lookup_empty. set_solver.
    - constructor.
    - intros j. rewrite lookup_empty, is_Some_alt. set_solver. }
  eapply moves_ok; [|exact Hok]. pose proof (revalidate_spec now c0 Hok) as M.
  eapply moves_then; [exact M|]. apply Summary_spec. by eapply moves_ok.
Qed.

End Ranged.

End ShadowInv.
