(* ===== verification/ShadowSpec.v ===== *)
(** * The shadow cache: what it promises

    Over any run of a new cache: the invariant in plain terms, the
    refinement of the lock-free snapshot, the generation fence that keeps a
    read that began before an invalidation from being cached, the
    provenance of every value a lookup returns, and the order of time among
    the values accepted for a key. *)

From stdpp Require Import sorting.
From S2P Require Import Prelude Ebus WatchCatalog FamilyPolicy ShadowCache ShadowInv.

Local Open Scope Z_scope.

Module ShadowSpec.
Import WatchCatalog FamilyPolicy ShadowCache ShadowInv.

(** ** Histories of one key *)

(** A property of the history and the state of a key that every transition
    keeps. *)
Lemma history_induction k (I : list keyLabel -> keyView -> Prop) :
  (forall H L v v', keyStep k L v v' -> key_ok v -> I H v -> I (H ++ L) v') ->
  forall L v v' H, keySteps k L v v' -> key_ok v -> I H v -> I (H ++ L) v'.
Proof.
  intros Hstep L v v' H Hs. revert H. induction Hs as [v|L M v v1 v' H1 Hs IH]; intros H Hok Hi.
  - by rewrite app_nil_r.
  - rewrite app_assoc. apply IH; [by eapply key_ok_step|]. by eapply Hstep.
Qed.

(** The same over a run. *)
Lemma run_induction order k (I : list keyLabel -> keyView -> Prop) os c c' H :
  (forall H L v v', keyStep k L v v' -> key_ok v -> I H v -> I (H ++ L) v') ->
  cache_ok c -> run order os c = Some c' -> I H (view c k) ->
  exists L, I (H ++ L) (view c' k) /\ visible L = runLabels order os c k
    /\ (length L <= runWeight os)%nat /\ cache_ok c'.
Proof.
  intros Hstep Hok Hrun Hi. destruct (run_spec order os c Hok) as (c1 & L & E & M & HL).
  assert (c1 = c') as -> by congruence. destruct (HL k) as [V W]. exists (L k).
  split; [|split; [done|split; [done|by eapply moves_ok]]].
  eapply history_induction; [exact Hstep|apply M|apply Hok|exact Hi].
Qed.

Lemma view_new order o view_ k a now j :
  view (NewShadowCache order o view_ k a now) j = (None, None).
Proof.
  unfold NewShadowCache, RevalidatePinnedBudget. set (c0 := mkCache _ _ _ _ _ _ _ _ _ _ _).
  assert (forall c, entries c = ∅ -> keyState c = ∅ ->
    entries (fst (Summary order (revalidate order now c))) = ∅
    /\ keyState (fst (Summary order (revalidate order now c))) = ∅) as H.
  { intros c He Hk.
    assert (forall k c, entries c = ∅ -> syncEntryPinLocked k c = c) as Hsync
      by (intros k' c' He'; unfold syncEntryPinLocked; by rewrite He', lookup_empty).
    assert (forall l c, entries c = ∅ -> fold_left (fun c k => syncEntryPinLocked k c) l c = c) as Hall.
    { intros l. induction l as [|x l IH]; intros c' He'; [done|]. cbn [fold_left].
      rewrite Hsync by done. auto. }
    assert (forall l c r, entries c = ∅ -> fst (fold_left summaryOne l (c, r)) = c) as Hsum.
    { intros l. induction l as [|x l IH]; intros c' r He'; [done|]. cbn [fold_left].
      destruct r as [[q b] d]. unfold summaryOne at 2. rewrite Hsync by done. auto. }
    set (c1 := revalidate order now c).
    assert (entries c1 = ∅ /\ keyState c1 = ∅) as [E1 K1].
    { subst c1. unfold revalidate, syncAllPinsLocked. rewrite Hall by done. unfold touchLocked. by break. }
    unfold Summary. pose proof (Hsum (order (dom (entries c1))) c1 (0, 0, 0) E1) as Hs.
    destruct (fold_left summaryOne _ _) as [c2 [[q b] d]]. simpl in *. by subst c2. }
  destruct (H c0) as [He Hk]; [done|done|]. unfold view. rewrite He, Hk. by rewrite !lookup_empty.
Qed.

(** ** The generation of a key *)

Definition genOf (v : keyView) : Z := match snd v with Some s => ksGeneration s | None => 0 end.
Definition isInvalidate (l : keyLabel) : bool := match l with LInvalidate _ => true | _ => false end.

Lemma u64_incr x : u64 (incr64 x) = u64 (x + 1).
Proof. unfold incr64, u64. by rewrite Z.mod_mod. Qed.

(** Modulo 2^64 the generation counts, and it counts every invalidation. *)
Definition counted (g : Z) (H : list keyLabel) (v : keyView) : Prop :=
  exists n, Z.of_nat (countb isInvalidate H) <= n <= 2 * len H /\ u64 (genOf v) = u64 (g + n).

Lemma u64_add_l x y : u64 (u64 x + y) = u64 (x + y).
Proof. unfold u64. by rewrite Zplus_mod_idemp_l. Qed.

Lemma counted_more g H L v v' m :
  counted g H v -> Z.of_nat (countb isInvalidate L) <= m <= 2 * len L ->
  u64 (genOf v') = u64 (genOf v + m) -> counted g (H ++ L) v'.
Proof.
  intros (n & Hn & E) Hm E'. exists (n + m). rewrite countb_app, length_app. split; [lia|].
  rewrite E', <- u64_add_l, E, u64_add_l. f_equal. lia.
Qed.

Lemma writtenGeneration_count x s :
  (forall e, x = Some e -> enGeneration e = ksGeneration s) ->
  exists m, 0 <= m <= 2 /\ u64 (writtenGeneration x s) = u64 (ksGeneration s + m).
Proof.
  intros Hx. unfold writtenGeneration. destruct x as [e|].
  - rewrite (Hx e) by done. destruct (_ =? 0).
    + exists 1. split; [lia|apply u64_incr].
    + exists 0. split; [lia|]. f_equal. lia.
  - destruct (_ =? 0).
    + exists 2. split; [lia|]. rewrite u64_incr, <- u64_add_l, u64_incr, u64_add_l. f_equal. lia.
    + exists 1. split; [lia|]. apply u64_incr.
Qed.

Lemma counted_step g k H L v v' :
  keyStep k L v v' -> key_ok v -> counted g H v -> counted g (H ++ L) v'.
Proof.
  intros Hs Hok Hc. destruct Hs as [e s p|e s d| |e s Hp|w d ttl p x s Hk Ha|reason source at_ d p x s
    |at_ s|e s He|e s He].
  1-4: apply (counted_more g H [] _ _ 0 Hc); [unfold countb; simpl; lia|]; unfold genOf; simpl; f_equal; lia.
  - destruct (writtenGeneration_count x s) as (m & Hm & E); [intros e ->; symmetry; apply Hok|].
    apply (counted_more g H _ _ _ m Hc); [unfold countb; simpl; lia|done].
  - apply (counted_more g H _ _ _ 1 Hc); [unfold countb; simpl; lia|]. apply u64_incr.
  - apply (counted_more g H _ _ _ 1 Hc); [unfold countb; simpl; lia|]. apply u64_incr.
  - apply (counted_more g H _ _ _ 1 Hc); [unfold countb; simpl; lia|]. apply u64_incr.
  - apply (counted_more g H _ _ _ 1 Hc); [unfold countb; simpl; lia|]. apply u64_incr.
Qed.

(** What [CaptureGeneration] reads without the lock is the generation of the
    key. *)
Lemma capture_generation key c :
  cache_ok c -> CaptureGeneration (Some key) c = genOf (view c (Canonical key)).
Proof.
  intros [_ Hok]. specialize (Hok (Canonical key)). unfold CaptureGeneration, loadSnapshotRecord, genOf.
  unfold view in *. simpl. destruct (keyState c !! Canonical key) as [s|]; [|done].
  destruct (entries c !! Canonical key) as [e|]; simpl in Hok.
  - destruct Hok as (Hg & _ & -> & _). by rewrite Hg.
  - by rewrite Hok.
Qed.

Lemma silent_generation k v v' : keyStep k [] v v' -> genOf v' = genOf v.
Proof. intros H. by inversion H. Qed.

Lemma write_generation k L w v v' :
  keySteps k L v v' -> L = [LWrite w] -> wSource w = ShadowWriteSourceActiveConfirmed ->
  wStartGeneration w = genOf v.
Proof.
  induction 1 as [v|L M v v1 v' H1 Hs IH]; intros HL Hsrc; [done|].
  destruct L as [|l L].
  - rewrite <- (silent_generation _ _ _ H1). by apply IH.
  - injection HL as -> _. inversion H1 as [| | | |? ? ? ? ? ? _ Hadm| | | |]; subst.
    by apply (adm_generation _ _ _ _ _ Hadm).
Qed.

(** An accepted active write carries the generation of its key. *)
Lemma accepted_generation w key c c' r :
  cache_ok c -> wKey w = Some key -> wSource w = ShadowWriteSourceActiveConfirmed ->
  Write w c = Some (c', r) -> Accepted r = true -> wStartGeneration w = genOf (view c (Canonical key)).
Proof.
  intros Hok Hkey Hsrc HW Hacc. destruct (Write_spec w c Hok) as (c1 & r1 & E & M).
  assert (c1 = c' /\ r1 = r) as [-> ->] by (split; congruence).
  unfold writeLabels in M. rewrite Hkey, Hacc in M. pose proof (mv_keys _ _ _ M (Canonical key)) as Hs.
  unfold onlyAt in Hs. rewrite String.eqb_refl in Hs. by eapply write_generation.
Qed.

(** Fewer than 2^64 steps do not bring the counter back. *)
Lemma u64_no_return g n : 0 < n < 2 ^ 64 -> u64 g = u64 (g + n) -> False.
Proof.
  unfold u64. intros Hn H. assert ((g + n - g) mod 2 ^ 64 = 0) as Hz.
  { rewrite Zminus_mod, H, Z.sub_diag. done. }
  replace (g + n - g) with n in Hz by lia. rewrite Z.mod_small in Hz; lia.
Qed.

(** An invalidation in a run is in the history of its key. *)
Lemma invalidation_label order os : forall c c' k i now,
  run order os c = Some c' -> OpInvalidate i now ∈ os -> Canonical <$> iKey i = Some k ->
  LInvalidate (invalidationTime i now) ∈ runLabels order os c k.
Proof.
  induction os as [|o os IH]; intros c c' k i now Hrun Hin Hk; [by apply not_elem_of_nil in Hin|].
  cbn [run runLabels] in *. destruct (step order o c) as [c1|] eqn:E; [|done].
  apply elem_of_app. apply elem_of_cons in Hin as [<-|Hin]; [left|right; by eapply IH].
  simpl. unfold invalidateLabels. destruct (iKey i) as [key|]; simplify_eq/=.
  unfold onlyAt. rewrite String.eqb_refl. by apply list_elem_of_singleton.
Qed.

(** ** Provenance of values *)

(** The last write or invalidation of a key. *)
Definition lastEvent (H : list keyLabel) : option keyLabel := last (visible H).

(** A present entry holds what the last write put there. *)
Definition holds_write (e : shadowEntry) (w : ShadowWrite) : Prop :=
  enValue e = wValue w /\ enObservedAt e = wObservedAt w /\ enSource e = wSource w
  /\ enConfidence e = wConfidence w.
Definition provenance (H : list keyLabel) (v : keyView) : Prop :=
  forall e, fst v = Some e -> enState e = ShadowEntryStatePresent ->
  exists w, lastEvent H = Some (LWrite w) /\ holds_write e w.

Lemma lastEvent_snoc H l : isCompact l = false -> lastEvent (H ++ [l]) = Some l.
Proof. intros Hl. unfold lastEvent. rewrite visible_app. simpl. rewrite Hl. simpl. apply last_snoc. Qed.

Lemma provenance_step k H L v v' :
  keyStep k L v v' -> key_ok v -> provenance H v -> provenance (H ++ L) v'.
Proof.
  intros Hs _ Hp. destruct Hs as [e s p|e s d| |e s Hpin|w d ttl p x s Hk Ha|reason source at_ d p x s
    |at_ s|e s He|e s He]; intros e1 [= <-] Hst; rewrite ?app_nil_r.
  - by apply (Hp e).
  - by apply (Hp e).
  - exists w. split; [by apply lastEvent_snoc|done].
  - simpl in Hst. by destruct (0 <? _).
  - done.
Qed.

(** ** The order of time *)

Definition labelTime (l : keyLabel) : option time :=
  match l with LWrite w => Some (wObservedAt w) | LInvalidate t => Some t | LCompact => None end.
Definition times (H : list keyLabel) : list time := omap labelTime H.

(** Time stamps are positive and no invalidation is older than what came
    before it. *)
Fixpoint invalidationsForward (sofar : time) (H : list keyLabel) : Prop :=
  match H with
  | [] => True
  | LWrite w :: H' => 0 < wObservedAt w /\ invalidationsForward (Z.max sofar (wObservedAt w)) H'
  | LInvalidate t :: H' => 0 < t /\ sofar <= t /\ invalidationsForward t H'
  | LCompact :: H' => invalidationsForward sofar H'
  end.

(** The high-water mark of a key is its latest time stamp, an invalidation
    that is in force is the latest, and an entry that is not invalidated
    holds the latest write. *)
Definition chronological (v : keyView) : Prop :=
  match v with
  | (x, Some s) =>
      0 <= ksPrecedenceHighWater s
      /\ (ksInvalidatedAt s = 0 \/ ksInvalidatedAt s = ksPrecedenceHighWater s)
      /\ forall e, x = Some e -> ksInvalidatedAt s = 0 -> enObservedAt e = ksPrecedenceHighWater s
  | (x, None) => x = None
  end.
Definition highWater (v : keyView) : time :=
  match snd v with Some s => ksPrecedenceHighWater s | None => 0 end.

(** An admissible write is not older than the high-water mark. *)
Lemma admissible_forward w d ttl x s :
  admissible w d ttl x s -> chronological (x, Some s) -> 0 < wObservedAt w ->
  ksPrecedenceHighWater s <= wObservedAt w.
Proof.
  intros [_ _ _ Hp] (Hz & Hinv & He) Hpos. unfold rejectWriteByPrecedence in Hp. unfold IsZero in *.
  destruct Hinv as [Hi|Hi].
  - rewrite Hi in Hp. simpl in Hp. destruct x as [e|].
    + specialize (He e eq_refl Hi). unfold rejectByEntry in Hp.
      destruct (Z.ltb_spec (wObservedAt w) (enObservedAt e)); [done|lia].
    + destruct (Z.eqb_spec (ksPrecedenceHighWater s) 0); [lia|]. simpl in Hp.
      destruct (Z.ltb_spec (wObservedAt w) (ksPrecedenceHighWater s)); [done|lia].
  - rewrite Hi in Hp. destruct (Z.eqb_spec (ksPrecedenceHighWater s) 0); [lia|]. simpl in Hp.
    destruct (Z.ltb_spec (wObservedAt w) (ksPrecedenceHighWater s)); [done|lia].
Qed.

(** Both times of the key after an invalidation that goes forward. *)
Lemma forward_state s at_ :
  0 < at_ -> ksPrecedenceHighWater s <= at_ -> 0 <= ksPrecedenceHighWater s ->
  ksInvalidatedAt s = 0 \/ ksInvalidatedAt s = ksPrecedenceHighWater s ->
  ksInvalidatedAt (invalidateState at_ s) = at_ /\ ksPrecedenceHighWater (invalidateState at_ s) = at_.
Proof.
  intros Hpos Hle Hz Hinv. unfold IsZero, invalidateState. simpl. unfold IsZero. split.
  - destruct (Z.eqb_spec (ksInvalidatedAt s) 0); [done|]. simpl.
    destruct (Z.ltb_spec (ksInvalidatedAt s) at_); [done|lia].
  - destruct (Z.eqb_spec (ksPrecedenceHighWater s) 0); [done|]. simpl.
    destruct (Z.ltb_spec (ksPrecedenceHighWater s) at_); [done|lia].
Qed.

(** What the time stamps of one transition do to the mark. *)
Definition markAfter (mark : time) (L : list keyLabel) : time := default mark (last (times L)).

Lemma chronological_step k L v v' :
  keyStep k L v v' -> chronological v -> invalidationsForward (highWater v) L ->
  chronological v' /\ highWater v' = markAfter (highWater v) L /\ highWater v <= highWater v'.
Proof.
  intros Hs Hc Hf. destruct Hs as [e s p|e s d| |e s Hpin|w d ttl p x s Hk Ha|reason source at_ d p x s
    |at_ s|e s He|e s He]; unfold highWater, markAfter in *; simpl in *.
  - split; [|split; [done|lia]]. destruct s as [s|]; [|done]. destruct Hc as (H1 & H2 & H3).
    split; [done|]. split; [done|]. intros e' [= <-] Hi. by apply (H3 e).
  - split; [|split; [done|lia]]. destruct s as [s|]; [|done]. destruct Hc as (H1 & H2 & H3).
    split; [done|]. split; [done|]. intros e' [= <-] Hi. by apply (H3 e).
  - split; [|done]. split; [done|]. split; [by left|done].
  - split; [|split; [done|lia]]. destruct Hc as (H1 & H2 & H3). done.
  - pose proof (admissible_forward w d ttl x s Ha Hc (proj1 Hf)) as Hle.
    assert (ksPrecedenceHighWater (writeState w s) = wObservedAt w) as E.
    { simpl. unfold IsZero. destruct (Z.eqb_spec (ksPrecedenceHighWater s) 0); [done|]. simpl.
      destruct (Z.ltb_spec (ksPrecedenceHighWater s) (wObservedAt w)); [done|lia]. }
    simpl in E. rewrite E. split; [|split; [done|done]]. split; [lia|]. split; [by left|].
    intros e [= <-] _. done.
  - destruct Hf as (Hpos & Hle & _). destruct Hc as (H1 & H2 & H3).
    destruct (forward_state s at_) as [Ei Eh]; [done..|]. simpl in Ei, Eh. rewrite ?Ei, ?Eh. split; [|split; [done|lia]].
    split; [lia|]. split; [by right|]. intros e _ Hz. simpl in Hz. lia.
  - destruct Hf as (Hpos & Hle & _). destruct Hc as (H1 & H2 & H3).
    destruct (forward_state s at_) as [Ei Eh]; [done..|]. simpl in Ei, Eh. rewrite ?Ei, ?Eh. split; [|split; [done|lia]].
    split; [lia|]. split; [by right|done].
  - destruct Hc as (H1 & H2 & H3). split; [|split; [done|lia]]. split; [done|]. split; [done|].
    intros e' [= <-] Hi. by apply (H3 e).
  - destruct Hc as (H1 & H2 & H3). split; [|split; [done|lia]]. done.
Qed.

Lemma chronological_steps k L v v' :
  keySteps k L v v' -> chronological v -> invalidationsForward (highWater v) L ->
  chronological v' /\ StronglySorted Z.le (highWater v :: times L) /\ highWater v <= highWater v'.
Proof.
  induction 1 as [v|L M v v1 v' H1 Hs IH]; intros Hc Hf.
  { split; [done|]. split; [|lia]. by repeat constructor. }
  assert (L = [] \/ exists l, L = [l]) as HL by (inversion H1; eauto).
  assert (invalidationsForward (highWater v) L) as Hf1.
  { destruct HL as [->|[l ->]]; [done|]. destruct l; simpl in *; naive_solver. }
  destruct (chronological_step k L v v1 H1 Hc Hf1) as (Hc1 & Hm & Hle).
  assert (invalidationsForward (highWater v1) M) as Hf2.
  { rewrite Hm in Hle |- *. unfold markAfter in *. destruct HL as [->|[l ->]]; [done|].
    destruct l as [w|at_|]; simpl in *; [|naive_solver|done].
    destruct Hf as [_ Hf]. by rewrite Z.max_r in Hf. }
  destruct (IH Hc1 Hf2) as (Hc' & Hsort & Hle'). split; [done|]. split; [|lia].
  apply StronglySorted_inv in Hsort as [Hsort Hall].
  assert (Forall (Z.le (highWater v)) (times M)) as Hall'
    by (eapply Forall_impl; [done|]; simpl; intros; lia).
  rewrite Hm in Hall, Hle. unfold markAfter in *. unfold times in *. rewrite omap_app.
  destruct HL as [->|[l ->]]; [by constructor|].
  destruct (labelTime l) as [t|] eqn:El; simpl in *; rewrite El in *; simpl in *; [|by constructor].
  constructor; [by constructor|]. by constructor.
Qed.

Lemma times_visible H : times (visible H) = times H.
Proof. induction H as [|[w|t|] H IH]; simpl; [done|..]; unfold times in *; simpl; by rewrite IH. Qed.
Lemma forward_visible H : forall mark, invalidationsForward mark (visible H) = invalidationsForward mark H.
Proof. induction H as [|[w|t|] H IH]; intros mark; simpl; [done|..]; by rewrite ?IH. Qed.

(** What a reader under the lock would report of a key. *)
Definition lockedEligibility (key : WatchKey) (now : time) (c : cache) : ShadowEligibilitySnapshot :=
  let g := ksGeneration (stateOf c (Canonical key)) in
  match entries c !! Canonical key with
  | None => mkEligibility false false g ShadowEntryStateZero 0 0
  | Some e =>
      mkEligibility true
        (shadowingEnabled c && bool_decide (enState e = ShadowEntryStatePresent)
         && negb (IsZero (enExpiresAt e)) && (now <=? enExpiresAt e))
        g (enState e) (enObservedAt e) (enExpiresAt e)
  end.

Lemma snapshot_locked key now c :
  cache_ok c -> SnapshotEligibility (Some key) now c = lockedEligibility key now c.
Proof.
  intros [_ Hok]. specialize (Hok (Canonical key)).
  unfold SnapshotEligibility, lockedEligibility, loadSnapshotRecord, stateOf, view in *.
  destruct (entries c !! Canonical key) as [e|], (keyState c !! Canonical key) as [s|]; simpl in Hok.
  - destruct Hok as (Hg & _ & -> & _). simpl. rewrite Hg. f_equal.
    destruct (shadowingEnabled c && _); [|done]. simpl. rewrite negb_orb. f_equal.
    destruct (Z.ltb_spec (enExpiresAt e) now), (Z.leb_spec now (enExpiresAt e)); simpl; lia || done.
  - done.
  - by rewrite Hok.
  - done.
Qed.

Lemma snapshot_generation key now c :
  cache_ok c -> esGeneration (SnapshotEligibility (Some key) now c) = genOf (view c (Canonical key)).
Proof.
  intros Hok. rewrite snapshot_locked by done. unfold lockedEligibility, genOf, stateOf, view. simpl.
  by destruct (entries c !! _), (keyState c !! _).
Qed.

(** ** The theorems *)

Section Runs.
Context (order : gset string -> list string) (o : ShadowCacheOptions)
  (flags : option ObserveFirstFeatureFlagView) (k0 : option WatchCatalog.WatchCatalog)
  (a0 : option WatchActivationSet) (t0 : time).

Notation fresh := (NewShadowCache order o flags k0 a0 t0).

Lemma reach os : exists c, run order os fresh = Some c /\ cache_ok c.
Proof.
  destruct (run_spec order os fresh (new_ok order o flags k0 a0 t0)) as (c & L & E & M & _).
  exists c. split; [done|]. eapply moves_ok; [exact M|apply new_ok].
Qed.
Lemma reach_ok os c : run order os fresh = Some c -> cache_ok c.
Proof. intros H. destruct (reach os) as (c' & E & Hok). congruence. Qed.

(** Whatever is done to a new cache, and in whatever order Go ranges
    over its maps, every operation returns.  The cache never exceeds its
    capacity; the LRU list holds exactly the entries that are not pinned,
    and the compactor list all entries, each once, with its cursor on one of
    them; and making room never touches a pinned entry. *)
Theorem shadow_invariant (os : list op) :
  exists c, run order os fresh = Some c
    /\ Z.of_nat (size (entries c)) <= Capacity (options c)
    /\ NoDup (evictableLRU c)
    /\ (forall k, k ∈ evictableLRU c <->
          exists e, entries c !! k = Some e /\ enPinClass e = shadowPinClassNone)
    /\ NoDup (compactorList c) /\ (forall k, k ∈ compactorList c <-> is_Some (entries c !! k))
    /\ (forall k, compactorCursor c = Some k -> is_Some (entries c !! k))
    /\ forall desired, exists c' ok, ensureCapacityLocked desired c = Some (c', ok)
         /\ forall k e, entries c !! k = Some e -> enPinClass e <> shadowPinClassNone ->
              entries c' !! k = Some e.
Proof.
  destruct (reach os) as (c & E & Hl & Hok). exists c. split; [done|].
  assert (forall k e, entries c !! k = Some e ->
    enEvictable e = bool_decide (enPinClass e = shadowPinClassNone)) as Hev.
  { intros k e He. specialize (Hok k). unfold view in Hok. rewrite He in Hok.
    destruct (keyState c !! k); [apply Hok|done]. }
  split; [apply Hl|]. split; [apply Hl|]. split; [|split; [apply Hl|split; [apply Hl|split]]].
  - intros k. rewrite (lk_lru c Hl). split; intros (e & He & Hp); exists e; (split; [done|]).
    + rewrite (Hev k e He) in Hp. by apply bool_decide_eq_true in Hp.
    + rewrite (Hev k e He). by apply bool_decide_eq_true.
  - intros k Hk. by apply (lk_list c Hl), (lk_cursor c Hl).
  - intros desired. destruct (capacity_spec desired c (conj Hl Hok)) as (c' & ok & -> & Hevd & _).
    exists c', ok. split; [done|]. intros k e He Hp.
    pose proof (evd_pinned _ _ Hevd k e He Hp) as Hv. injection Hv as -> _. done.
Qed.

(** C35: The snapshot a reader loads without the lock is the state under the
    lock: after any run [SnapshotEligibility] reports exactly what a reader
    holding the lock would compute from the entry and the generation of the
    key, and [CaptureGeneration] is that generation. *)
Theorem snapshot_refines (os : list op) (c : cache) (key : WatchKey) (now : time) :
  run order os fresh = Some c ->
  SnapshotEligibility (Some key) now c = lockedEligibility key now c
  /\ CaptureGeneration (Some key) c = ksGeneration (stateOf c (Canonical key)).
Proof.
  intros Hrun. pose proof (reach_ok os c Hrun) as Hok. split; [by apply snapshot_locked|].
  rewrite capture_generation by done. unfold genOf, stateOf, view. simpl. by destruct (keyState c !! _).
Qed.

(** C23: The generation fences reads.  When a reader took the generation of
    a key, and the key was invalidated since, by whichever holder of
    the cache and with whatever else happening in between, then the write
    that confirms the value the reader got is refused: a value read before
    the invalidation is never cached after it (as long as fewer than 2^63
    steps come in between, so that the counter cannot come round). *)
Theorem invalidation_fences (os0 os : list op) (c0 c c' : cache) (key : WatchKey) (w : ShadowWrite)
    (r : ShadowWriteResult) (i : ShadowInvalidation) (now : time) :
  run order os0 fresh = Some c0 -> run order os c0 = Some c ->
  OpInvalidate i now ∈ os -> Canonical <$> iKey i = Some (Canonical key) ->
  2 * Z.of_nat (runWeight os) < 2 ^ 64 ->
  wKey w = Some key -> wSource w = ShadowWriteSourceActiveConfirmed ->
  wStartGeneration w = CaptureGeneration (Some key) c0 ->
  Write w c = Some (c', r) -> Accepted r = false.
Proof.
  intros Hrun0 Hrun Hin Hkey Hw Hwk Hsrc Hstart HW. apply not_true_is_false. intros Hacc.
  pose proof (reach_ok os0 c0 Hrun0) as Hok0. rewrite capture_generation in Hstart by done.
  set (k := Canonical key) in *.
  destruct (run_induction order k (counted (genOf (view c0 k))) os c0 c []) as (L & Hc & Hv & Hlen & Hok);
    [intros H L v v'; apply counted_step|done|done| |].
  { exists 0. simpl. split; [unfold countb; simpl; lia|]. f_equal. lia. }
  destruct Hc as (n & Hn & Hg). simpl in Hn.
  rewrite (accepted_generation w key c c' r Hok Hwk Hsrc HW Hacc) in Hstart. fold k in Hstart.
  rewrite Hstart in Hg.
  assert (0 < countb isInvalidate L)%nat; [|apply (u64_no_return (genOf (view c0 k)) n); [lia|done]].
  pose proof (invalidation_label order os c0 c k i now Hrun Hin Hkey) as Hl. rewrite <- Hv in Hl.
  apply elem_of_filterb in Hl as [Hl _]. unfold countb.
  destruct (List.filter isInvalidate L) eqn:Ef; simpl; [|lia].
  exfalso. assert (LInvalidate (invalidationTime i now) ∈ List.filter isInvalidate L) as Hx
    by (by apply elem_of_filterb). rewrite Ef in Hx. set_solver.
Qed.

(** What an eligible lookup finds. *)
Lemma lookup_written (os : list op) (c c' : cache) (key : WatchKey) (maxAge : Z) (now : time)
    (res : ShadowLookupResult) :
  run order os fresh = Some c -> Lookup (Some key) maxAge now c = (c', res) -> Eligible res = true ->
  exists e w, lrEntry res = Some e
    /\ last (runLabels order os fresh (Canonical key)) = Some (LWrite w) /\ holds_write e w
    /\ enGeneration e = genOf (view c (Canonical key))
    /\ exists c1, lookupEligibleLocked e maxAge now c1 = true.
Proof.
  intros Hrun HL Hel. set (k := Canonical key).
  destruct (run_induction order k provenance os fresh c []) as (L & Hp & Hv & _ & Hok);
    [intros H L v v'; apply provenance_step|apply new_ok|done| |].
  { intros e. by rewrite view_new. }
  unfold Lookup in HL. fold k in HL.
  destruct (sync_spec k c (proj2 Hok k)) as (_ & _ & _ & (p & b & Hs)). rewrite Hs in HL.
  destruct (entries c !! k) as [e0|] eqn:He; simpl in HL; [|by injection HL as _ <-].
  injection HL as _ <-. simpl in Hel |- *. set (e := set_pin p b e0) in *.
  assert (enState e0 = ShadowEntryStatePresent) as Est.
  { unfold lookupEligibleLocked in Hel. destruct (_ || _) eqn:Est; [done|].
    apply orb_false_elim in Est as [_ Est]. by apply negb_false_iff, bool_decide_eq_true in Est. }
  destruct (Hp e0) as (w & Hlast & Hw); [unfold view; simpl; by rewrite He|exact Est|].
  unfold lastEvent in Hlast. rewrite app_nil_l, Hv in Hlast.
  exists e, w. split; [done|]. split; [done|]. split; [exact Hw|]. split; [|by eexists].
  pose proof (proj2 Hok k) as Hk. unfold view in *. rewrite He in Hk. unfold genOf. simpl in *.
  destruct (keyState c !! k); [|done]. symmetry. apply Hk.
Qed.

(** A lookup never makes a value up.  An eligible result is an entry
    that holds the value, time, source and confidence of the last write the
    cache accepted for the key, which no invalidation has followed; and the
    value is no older than the caller allows, nor than the freshness of its
    descriptor, and not from the future. *)
Theorem lookup_truth (os : list op) (c c' : cache) (key : WatchKey) (maxAge : Z) (now : time)
    (res : ShadowLookupResult) :
  run order os fresh = Some c -> Lookup (Some key) maxAge now c = (c', res) -> Eligible res = true ->
  exists e w, lrEntry res = Some e
    /\ last (runLabels order os fresh (Canonical key)) = Some (LWrite w) /\ holds_write e w
    /\ 0 <= now - wObservedAt w /\ (0 < maxAge -> now - wObservedAt w <= maxAge)
    /\ (forall ttl, EffectiveFreshnessTTL (enDescriptor e) = inr ttl -> 0 < ttl ->
          now - wObservedAt w <= ttl).
Proof.
  intros Hrun HL Hel.
  destruct (lookup_written os c c' key maxAge now res Hrun HL Hel) as (e & w & He & Hlast & Hw & _ & c1 & Hl).
  exists e, w. split; [done|]. split; [done|]. split; [exact Hw|]. clear Hel. rename Hl into Hel.
  unfold lookupEligibleLocked in Hel. destruct (_ || _); [done|].
  assert (enObservedAt e = wObservedAt w) as Ho by apply Hw. rewrite Ho in Hel.
  set (limit := match EffectiveFreshnessTTL (enDescriptor e) with inl _ => maxAge | inr ttl => _ end) in Hel.
  destruct (Z.leb_spec limit 0); [done|]. apply andb_prop in Hel as [H1 H2]. bool_facts.
  split; [lia|]. subst limit. destruct (EffectiveFreshnessTTL (enDescriptor e)) as [|ttl].
  - split; [lia|done].
  - destruct (Z.leb_spec maxAge 0), (Z.ltb_spec 0 ttl), (Z.ltb_spec ttl maxAge); simpl in *;
      (split; [lia|]); intros ttl' [= <-]; lia.
Qed.

(** Values of a key move forward in time.  In any run in which time
    stamps are positive and no invalidation of the key is older than what
    the key has already seen, the writes the cache accepts and the
    invalidations of the key come in the order of their time stamps: an
    older observation never replaces a newer one, also when entries were
    evicted, compacted or pinned in between. *)
Theorem values_chronological (os : list op) (c : cache) (k : string) :
  run order os fresh = Some c ->
  invalidationsForward 0 (runLabels order os fresh k) ->
  StronglySorted Z.le (times (runLabels order os fresh k)).
Proof.
  intros Hrun Hf. destruct (run_spec order os fresh (new_ok order o flags k0 a0 t0)) as (c1 & L & E & M & HL).
  destruct (HL k) as [Hv _]. rewrite <- Hv in Hf |- *. rewrite forward_visible in Hf.
  rewrite times_visible. pose proof (mv_keys _ _ _ M k) as Hs. rewrite view_new in Hs.
  destruct (chronological_steps k (L k) (None, None) _ Hs) as (_ & Hsort & _); [done|done|].
  by apply StronglySorted_inv in Hsort as [Hsort _].
Qed.

End Runs.

(** ** Concrete runs *)

Definition demo_key : WatchKey := KeyB509 (NewB509WatchKey 0x15 0x2900).
Definition demo_key2 : WatchKey := KeyB509 (NewB509WatchKey 0x15 0x2A00).
Definition demo_descriptor (k : WatchKey) : WatchDescriptor :=
  mkDescriptor (Some (KeyVal k)) WatchSemanticClassState WatchFreshnessProfileStateFast "demo"
    WatchCorrelationPolicyRequestResponse WatchDirectApplyPolicyStateDefault None.
Definition demo_options (capacity : Z) : ShadowCacheOptions := mkOptions capacity 0 (-1) 0 0 0 0 0.
Definition demo_fresh (capacity : Z) : cache :=
  NewShadowCache elements (demo_options capacity) None None None 1.
Definition demo_write (k : WatchKey) (source : string) (value : list byte) (t g : Z) : ShadowWrite :=
  mkWrite (Some k) source "high_confidence" value t g.
Definition demo_state (capacity : Z) (os : list op) : cache :=
  default (demo_fresh capacity) (run elements os (demo_fresh capacity)).

(** The poller learns of a register and overhears its value. *)
Definition demo_os0 : list op :=
  [ OpBootstrap (demo_descriptor demo_key) [] 10;
    OpWrite (demo_write demo_key ShadowWriteSourcePassive [0x15; 0x01] (10 * second) 0) ].
(** It begins to read the register; somebody else writes it. *)
Definition demo_invalidation : ShadowInvalidation :=
  mkInvalidation (Some demo_key) "external_write" "passive" (11 * second).
Definition demo_os1 : list op := [OpInvalidate demo_invalidation 0].

Definition demo_c0 : cache := Eval vm_compute in demo_state 0 demo_os0.
Definition demo_c1 : cache := Eval vm_compute in demo_state 0 (demo_os0 ++ demo_os1).

Lemma demo_run0 : run elements demo_os0 (demo_fresh 0) = Some demo_c0.
Proof. vm_compute. reflexivity. Qed.
Lemma demo_run1 : run elements demo_os1 demo_c0 = Some demo_c1.
Proof. vm_compute. reflexivity. Qed.

Lemma snapshot_refines_witness :
  SnapshotEligibility (Some demo_key) (12 * second) demo_c0
  = mkEligibility true true 1 ShadowEntryStatePresent (10 * second) (40 * second).
Proof.
  rewrite (proj1 (snapshot_refines elements (demo_options 0) None None None 1 demo_os0 demo_c0 demo_key
    (12 * second) demo_run0)). vm_compute. reflexivity.
Defined.

(** The read confirms what it found before the invalidation: refused. *)
Definition demo_confirm : ShadowWrite :=
  demo_write demo_key ShadowWriteSourceActiveConfirmed [0x15; 0x01] (12 * second)
    (CaptureGeneration (Some demo_key) demo_c0).
Definition demo_refused : cache * ShadowWriteResult :=
  Eval vm_compute in default (demo_c1, rejected 0 NotRejected) (Write demo_confirm demo_c1).

Lemma invalidation_fences_witness : Accepted (snd demo_refused) = false.
Proof.
  apply (invalidation_fences elements (demo_options 0) None None None 1 demo_os0 demo_os1 demo_c0 demo_c1
    (fst demo_refused) demo_key demo_confirm (snd demo_refused) demo_invalidation 0).
  - exact demo_run0.
  - exact demo_run1.
  - apply list_elem_of_singleton. reflexivity.
  - reflexivity.
  - vm_compute. reflexivity.
  - reflexivity.
  - reflexivity.
  - reflexivity.
  - vm_compute. reflexivity.
Defined.

Lemma lookup_truth_witness :
  exists e w, lrEntry (snd (Lookup (Some demo_key) (5 * second) (12 * second) demo_c0)) = Some e
    /\ last (runLabels elements demo_os0 (demo_fresh 0) (Canonical demo_key)) = Some (LWrite w)
    /\ holds_write e w /\ 12 * second - wObservedAt w <= 5 * second.
Proof.
  destruct (lookup_truth elements (demo_options 0) None None None 1 demo_os0 demo_c0
    (fst (Lookup (Some demo_key) (5 * second) (12 * second) demo_c0)) demo_key (5 * second) (12 * second)
    (snd (Lookup (Some demo_key) (5 * second) (12 * second) demo_c0)) demo_run0)
    as (e & w & H1 & H2 & H3 & _ & H4 & _).
  - apply surjective_pairing.
  - vm_compute. reflexivity.
  - exists e, w. split; [exact H1|]. split; [exact H2|]. split; [exact H3|]. apply H4. reflexivity.
Defined.

(** A value, an invalidation, a newer value. *)
Definition demo_os2 : list op :=
  demo_os0 ++ demo_os1 ++ [OpWrite (demo_write demo_key ShadowWriteSourcePassive [0x16] (12 * second) 0)].

Lemma values_chronological_witness :
  times (runLabels elements demo_os2 (demo_fresh 0) (Canonical demo_key)) = [10 * second; 11 * second; 12 * second]
  /\ StronglySorted Z.le (times (runLabels elements demo_os2 (demo_fresh 0) (Canonical demo_key))).
Proof.
  split; [vm_compute; reflexivity|].
  apply (values_chronological elements (demo_options 0) None None None 1 demo_os2 (demo_state 0 demo_os2)
    (Canonical demo_key)); vm_compute; [reflexivity|].
  repeat split; discriminate.
Defined.

(** Without that assumption it fails: the high-water mark that survives an
    eviction is not consulted once an old invalidation has made a new
    entry, and a value of 7 s is cached although one of 10 s was seen. *)
Example stale_write_after_old_invalidation :
  times (runLabels elements
    [ OpBootstrap (demo_descriptor demo_key) [WatchActivationSourceTooling] 10;
      OpBootstrap (demo_descriptor demo_key2) [WatchActivationSourceTooling] 10;
      OpWrite (demo_write demo_key ShadowWriteSourcePassive [0x15] (10 * second) 0);
      OpWrite (demo_write demo_key2 ShadowWriteSourcePassive [0x16] (11 * second) 0);
      OpInvalidate (mkInvalidation (Some demo_key) "" "" (5 * second)) 0;
      OpWrite (demo_write demo_key ShadowWriteSourcePassive [0x17] (7 * second) 0) ]
    (demo_fresh 1) (Canonical demo_key)) = [10 * second; 5 * second; 7 * second].
Proof. vm_compute. reflexivity. Qed.

(** The cap on write-confirm pins is one here, and two entries come to hold
    such a pin: an entry that was statically pinned is let through. *)
Example write_confirm_cap_exceeded :
  writeConfirmPinnedCountLocked <$> run elements
    [ OpBootstrap (demo_descriptor demo_key) [WatchActivationSourcePoller; WatchActivationSourceWriteConfirm] 10;
      OpBootstrap (demo_descriptor demo_key2) [WatchActivationSourcePoller; WatchActivationSourceWriteConfirm] 10;
      OpWrite (demo_write demo_key ShadowWriteSourcePassive [0x15] (10 * second) 0);
      OpWrite (demo_write demo_key2 ShadowWriteSourcePassive [0x16] (11 * second) 0);
      OpDeactivate WatchActivationSourcePoller [Some demo_key; Some demo_key2];
      OpRefresh (12 * second) ]
    (NewShadowCache elements (mkOptions 4 4 1 0 0 0 0 0) None None None 1) = Some 2.
Proof. vm_compute. reflexivity. Qed.

End ShadowSpec.
