(* ===== verification/ShadowCompact.v ===== *)
(** * The shadow cache: compaction

    [CompactOnce] walks the compactor list in batches from wherever its
    cursor stands, around the end and up to where it began, while entries it
    removes leave the list.  It always returns, and one pass has visited
    every entry there was. *)

From S2P Require Import Prelude Ebus WatchCatalog FamilyPolicy ShadowCache ShadowInv ShadowSpec.

Local Open Scope Z_scope.

Module ShadowCompact.
Import WatchCatalog FamilyPolicy ShadowCache ShadowInv ShadowSpec.

(** ** The walk *)

Lemma nextOf_middle A x R : NoDup (A ++ x :: R) -> nextOf x (A ++ x :: R) = head R.
Proof.
  induction A as [|a A IH]; simpl; intros H.
  - by rewrite String.eqb_refl.
  - apply NoDup_cons in H as [Ha H]. destruct (String.eqb_spec a x) as [->|]; [set_solver|auto].
Qed.

(** The batch is the next piece of the list, and the cursor stops after
    it. *)
Lemma takeFrom_middle n : forall A x R, NoDup (A ++ x :: R) ->
  takeFrom n x (A ++ x :: R) = (take n (x :: R), head (drop n (x :: R))).
Proof.
  induction n as [|n IH]; intros A x R H; [done|]. cbn [takeFrom]. rewrite nextOf_middle by done.
  destruct R as [|y R]; simpl; [by rewrite !take_nil, !drop_nil|].
  replace (A ++ x :: y :: R) with ((A ++ [x]) ++ y :: R) in * by (by rewrite <- app_assoc).
  rewrite IH by done. done.
Qed.

(** The cursor stands before [B]. *)
Definition at_cursor (c : cache) (A B : list string) : Prop :=
  compactorList c = A ++ B /\ compactorCursor c = head B.

Lemma nextBatch_middle c A x R :
  NoDup (compactorList c) -> compactorList c = A ++ x :: R ->
  compactorCursor c = Some x \/ (compactorCursor c = None /\ A = []) ->
  let n := Z.to_nat (CompactorBatchSize (options c)) in
  nextCompactorBatch c
  = (set_compactor (compactorList c) (head (drop n (x :: R))) c, take n (x :: R)).
Proof.
  intros Hnd El Hc n. unfold nextCompactorBatch.
  assert (exists first l, compactorList c = first :: l /\ default first (compactorCursor c) = x)
    as (first & l & E & Ed).
  { destruct Hc as [Hc|[Hc ->]]; rewrite Hc, El.
    - destruct A as [|a A]; simpl; eauto.
    - simpl. eauto. }
  rewrite E, Ed, <- E. rewrite El in *. by rewrite takeFrom_middle.
Qed.

(** ** What a visit does to the lists *)

Definition lists (c : cache) : list string * option string := (compactorList c, compactorCursor c).

Lemma lists_apply k p c : lists (applyPinClassLocked k p c) = lists c.
Proof. unfold applyPinClassLocked. by break. Qed.
Lemma lists_sync k c : lists (syncEntryPinLocked k c) = lists c.
Proof.
  unfold syncEntryPinLocked. destruct (entries c !! k); [|done]. destruct (Key _); [|done].
  apply lists_apply.
Qed.
Lemma lists_ensure k c : lists (ensureKeyStateLocked k c) = lists c.
Proof. unfold ensureKeyStateLocked. by destruct (keyState c !! k). Qed.

Lemma lists_remove k c :
  compactorCursor c <> Some k ->
  exists b : bool, lists (removeEntryLocked k c)
    = (if b then removeKey k (compactorList c) else compactorList c, compactorCursor c).
Proof.
  intros Hc. unfold removeEntryLocked. destruct (entries c !! k) as [e|]; [|by exists false].
  exists true. unfold lists. destruct (enEvictable e); simpl; by rewrite bool_decide_false.
Qed.

Lemma lists_compactOne now k c m :
  compactorCursor c <> Some k ->
  exists b : bool, lists (fst (compactOne now (c, m) k))
    = (if b then removeKey k (compactorList c) else compactorList c, compactorCursor c).
Proof.
  intros Hc. unfold compactOne. destruct (entries c !! k); [|by exists false].
  set (c1 := ensureKeyStateLocked k (syncEntryPinLocked k c)).
  assert (lists c1 = lists c) as E by (subst c1; by rewrite lists_ensure, lists_sync).
  pose proof E as [= El Ec].
  destruct (entries c1 !! k) as [e|]; [|exists false; exact E].
  destruct (enState e); try (exists false; exact E).
  - destruct (_ || _); [exists false; exact E|]. exists false. cbn [fst].
    unfold storeSnapshotLocked. destruct (entries _ !! k); exact E.
  - destruct (_ || _); [exists false; exact E|]. cbn [fst]. rewrite <- El, <- Ec.
    set (c2 := storeAbsentSnapshotLocked k (advanceGenerationLocked k c1)).
    change (compactorList c1) with (compactorList c2). change (compactorCursor c1) with (compactorCursor c2).
    apply lists_remove. simpl. congruence.
Qed.

(** Visiting a piece of the list removes some of its keys and nothing
    else. *)
Lemma removeKey_other k l : k ∉ l -> removeKey k l = l.
Proof.
  intros H. apply filter_all. intros x Hx. apply negb_true_iff, String.eqb_neq. by intros ->.
Qed.
Lemma lists_batch now V : forall c m A X R,
  lists c = (A ++ X ++ R, head R) -> NoDup (A ++ X ++ R) -> (forall k, k ∈ V -> k ∉ A /\ k ∉ R) ->
  exists X', lists (fst (fold_left (compactOne now) V (c, m))) = (A ++ X' ++ R, head R)
    /\ X' `sublist_of` X.
Proof.
  induction V as [|k V IH]; intros c m A X R E Hnd HV; [by exists X|]. cbn [fold_left].
  pose proof E as [= El Ec]. destruct (HV k) as [HA HR]; [set_solver|].
  destruct (lists_compactOne now k c m) as (b & Eb).
  { rewrite Ec. destruct R; simpl; [done|]. intros [= ->]. set_solver. }
  destruct (compactOne now (c, m) k) as [c1 m1]. cbn [fst] in Eb. rewrite El, Ec in Eb.
  assert (exists X1, lists c1 = (A ++ X1 ++ R, head R) /\ X1 `sublist_of` X) as (X1 & E1 & S1).
  { destruct b; [|by exists X]. exists (removeKey k X). rewrite Eb. split; [|apply filter_sublist].
    unfold removeKey at 1. rewrite !List.filter_app. fold (removeKey k A) (removeKey k X) (removeKey k R).
    by rewrite (removeKey_other k A), (removeKey_other k R). }
  destruct (IH c1 m1 A X1 R E1) as (X' & E' & S'); [|set_solver|].
  - eapply sublist_NoDup; [exact Hnd|]. apply sublist_app; [done|]. by apply sublist_app.
  - exists X'. split; [done|]. by etrans.
Qed.

(** ** What a visit does to the entries *)

(** An entry whose time as invalidated value, or as tombstone, is over. *)
Definition retired (c : cache) (now : time) (e : shadowEntry) : bool :=
  bool_decide (enState e = ShadowEntryStateInvalidated)
  && negb (IsZero (enInvalidatedAt e) || (now - enInvalidatedAt e <? TombstoneRetainWindow (options c))).
Definition expired (c : cache) (now : time) (e : shadowEntry) : bool :=
  bool_decide (enState e = ShadowEntryStateTombstone)
  && negb (IsZero (enInvalidatedAt e) || (now - enInvalidatedAt e <? TombstoneHardLifespan (options c))).

(** The outcome of a visit, up to the pin. *)
Definition outcome (c : cache) (now : time) (e : shadowEntry) (x : option shadowEntry) : Prop :=
  if retired c now e then exists e', x = Some e' /\ enState e' = ShadowEntryStateTombstone /\ enValue e' = []
  else if expired c now e then x = None
  else exists p b, x = Some (set_pin p b e).

Lemma outcome_pin c now e p b x : outcome c now (set_pin p b e) x -> outcome c now e x.
Proof.
  unfold outcome, retired, expired. simpl. destruct (_ && _); [done|]. destruct (_ && _); [done|].
  intros (q & b' & ->). by exists q, b'.
Qed.

Lemma compactOne_entry now k c m e :
  cache_ok c -> entries c !! k = Some e ->
  outcome c now e (entries (fst (compactOne now (c, m) k)) !! k)
  /\ forall j, j <> k -> entries (fst (compactOne now (c, m) k)) !! j = entries c !! j.
Proof.
  intros [Hl Hok] He. split.
  2: { intros j Hj. pose proof (evolves_compactOne now k c m (conj Hl Hok)) as Ev.
       pose proof (ev_other _ _ _ Ev j Hj) as E. by injection E. }
  destruct (sync_spec k c (Hok k)) as (_ & _ & _ & (p & b & Hs)). rewrite He in Hs. simpl in Hs.
  unfold compactOne. rewrite He. set (c1 := ensureKeyStateLocked k (syncEntryPinLocked k c)).
  assert (entries c1 !! k = Some (set_pin p b e)) as H1.
  { rewrite <- Hs. subst c1. unfold ensureKeyStateLocked. by destruct (keyState _ !! k). }
  rewrite H1. set (e1 := set_pin p b e) in *. apply (outcome_pin c now e p b). fold e1.
  unfold outcome, retired, expired.
  destruct (enState e1) eqn:Est; simpl.
  - rewrite H1. exists (enPinClass e1), (enEvictable e1). by rewrite set_pin_id.
  - rewrite H1. exists (enPinClass e1), (enEvictable e1). by rewrite set_pin_id.
  - destruct (_ || _); simpl; [rewrite H1; exists (enPinClass e1), (enEvictable e1); by rewrite set_pin_id|].
    assert (forall c, entries (storeSnapshotLocked k c) = entries c) as Hst
      by (intros c'; unfold storeSnapshotLocked; by destruct (entries c' !! k)).
    rewrite Hst. simpl. rewrite !lookup_alter_eq, H1. simpl. eauto.
  - destruct (_ || _); simpl; [rewrite H1; exists (enPinClass e1), (enEvictable e1); by rewrite set_pin_id|].
    set (c2 := storeAbsentSnapshotLocked k (advanceGenerationLocked k c1)).
    destruct (entries c2 !! k) as [e2|] eqn:E2.
    + destruct (remove_spec k c2 e2 E2) as (V & _). by injection V.
    + unfold removeEntryLocked. by rewrite E2.
Qed.

(** ** The pass *)

(** What can be said of the entry of a key, before and after it was
    visited. *)
Record progress (opts : ShadowCacheOptions) (now : time) (P : bool -> option shadowEntry -> Prop) : Prop :=
  mkProgress {
    pr_visit c b e x : options c = opts -> P b (Some e) -> outcome c now e x -> P true x;
    pr_absent b : P b None -> P true None
  }.

Lemma compactOne_ok now k c m : cache_ok c -> cache_ok (fst (compactOne now (c, m) k)).
Proof. intros Hok. destruct (compactOne_spec now k c m Hok) as (L & M & _). by eapply moves_ok. Qed.

Lemma visit_one now k j c m P b :
  cache_ok c -> progress (options c) now P -> P b (entries c !! k) ->
  P (b || String.eqb j k) (entries (fst (compactOne now (c, m) j)) !! k).
Proof.
  intros Hok [Hv Hn] Hp. destruct (String.eqb_spec j k) as [->|Hne].
  - rewrite orb_true_r. destruct (entries c !! k) as [e|] eqn:He.
    + destruct (compactOne_entry now k c m e Hok He) as [Ho _]. by eapply Hv.
    + unfold compactOne. rewrite He. simpl. rewrite He. by eapply Hn.
  - rewrite orb_false_r. assert (k <> j) as Hkj by (by intros ->).
    pose proof (ev_other _ _ _ (evolves_compactOne now j c m Hok) k Hkj) as E.
    change (entries (fst (compactOne now (c, m) j)) !! k) with (fst (view (fst (compactOne now (c, m) j)) k)).
    by rewrite E.
Qed.

Definition visitedIn (k : string) (V : list string) : bool := existsb (fun j => String.eqb j k) V.

Lemma visit_batch now k V P : forall c m b,
  cache_ok c -> progress (options c) now P -> P b (entries c !! k) ->
  let c' := fst (fold_left (compactOne now) V (c, m)) in
  P (b || visitedIn k V) (entries c' !! k) /\ cache_ok c' /\ options c' = options c.
Proof.
  induction V as [|j V IH]; intros c m b Hok HP Hb; cbn [fold_left].
  - simpl. rewrite orb_false_r. done.
  - pose proof (visit_one now k j c m P b Hok HP Hb) as H1. pose proof (compactOne_ok now j c m Hok) as H2.
    pose proof (ev_options _ _ _ (evolves_compactOne now j c m Hok)) as H3.
    destruct (compactOne now (c, m) j) as [c1 m1]. cbn [fst] in *. rewrite <- H3 in HP.
    destruct (IH c1 m1 _ H2 HP H1) as (G1 & G2 & G3).
    change (visitedIn k (j :: V)) with (String.eqb j k || visitedIn k V). rewrite orb_assoc.
    split; [done|]. split; [done|].
    by rewrite G3.
Qed.

Lemma visitedIn_app k V W : visitedIn k (V ++ W) = visitedIn k V || visitedIn k W.
Proof. apply existsb_app. Qed.

Lemma touch_same t c : options (touchLocked t c) = options c /\ entries (touchLocked t c) = entries c
  /\ lists (touchLocked t c) = lists c.
Proof. unfold touchLocked. by break. Qed.

(** One round of the loop, from a cursor before [B]. *)
Lemma compactRound_spec now k c A x R P b :
  cache_ok c -> progress (options c) now P -> P b (entries c !! k) ->
  compactorList c = A ++ x :: R ->
  compactorCursor c = Some x \/ (compactorCursor c = None /\ A = []) ->
  let n := Z.to_nat (CompactorBatchSize (options c)) in
  exists c1 X', nextCompactorBatch c = (c1, take n (x :: R))
    /\ let c2 := compactBatch (take n (x :: R)) now c1 in
       cache_ok c2 /\ options c2 = options c
       /\ P (b || visitedIn k (take n (x :: R))) (entries c2 !! k)
       /\ at_cursor c2 (A ++ X') (drop n (x :: R)).
Proof.
  intros Hok HP Hb El Hc n. pose proof (links_of c Hok) as Hl. pose proof (lk_list_nodup c Hl) as Hnd.
  pose proof (nextBatch_middle c A x R Hnd El Hc) as En. fold n in En.
  pose proof (moves_ok _ _ _ (nextBatch_spec c Hl) Hok) as Hok1. rewrite En in Hok1 |- *. cbn [fst] in Hok1.
  set (c1 := set_compactor _ _ c) in *. set (V := take n (x :: R)) in *. set (D := drop n (x :: R)) in *.
  assert (compactorList c = A ++ V ++ D) as El' by (rewrite El; subst V D; by rewrite take_drop).
  rewrite El' in Hnd. pose proof Hnd as (_ & HA & HVD)%NoDup_app.
  destruct (lists_batch now V c1 false A V D) as (X' & E' & _).
  { subst c1. unfold lists. simpl. by rewrite El'. }
  { done. }
  { intros j Hj. apply NoDup_app in HVD as (_ & HVD & _). split; [|by apply HVD].
    intros Hj'. apply (HA j Hj'). apply elem_of_app. by left. }
  destruct (visit_batch now k V P c1 false b Hok1 HP Hb) as (G1 & G2 & G3).
  exists c1, X'. split; [done|]. unfold compactBatch.
  destruct (fold_left (compactOne now) V (c1, false)) as [c2 m2]. cbn [fst] in *.
  assert (at_cursor c2 (A ++ X') D) as Hat.
  { injection E' as E1 E2. split; [by rewrite <- app_assoc|done]. }
  destruct m2; [|done]. destruct (touch_same now c2) as (T1 & T2 & T3). injection T3 as T3 T4.
  split; [by eapply moves_ok; [apply moves_touch, links_of|]|]. rewrite T1, T2. split; [done|].
  split; [done|]. unfold at_cursor. by rewrite T3, T4.
Qed.

Lemma visitedIn_elem k V : visitedIn k V = true <-> k ∈ V.
Proof.
  unfold visitedIn. rewrite existsb_exists. setoid_rewrite String.eqb_eq. rewrite list_elem_of_In. naive_solver.
Qed.

Lemma take_step {A} (x : A) r (V D R X : list A) :
  x ∈ take r (V ++ D ++ R) -> x ∈ V \/ x ∈ take (r - length V) (D ++ R ++ X).
Proof.
  rewrite take_app, elem_of_app. intros [H|H].
  - left. eapply elem_of_sublist; [exact H|apply sublist_take].
  - right. rewrite app_assoc, take_app. apply elem_of_app. by left.
Qed.

(** The loop returns, and visits as many keys as were left, from the
    cursor on. *)
Lemma compactLoop_spec fuel now k P : forall remaining c A B b,
  cache_ok c -> progress (options c) now P -> P b (entries c !! k) -> at_cursor c A B ->
  remaining <= len A + len B -> remaining <= Z.of_nat fuel ->
  exists c' flag, compactLoop fuel (fun _ => now) remaining c = Some c' /\ cache_ok c'
    /\ P flag (entries c' !! k)
    /\ (b = true \/ k ∈ take (Z.to_nat remaining) (B ++ A) -> flag = true).
Proof.
  induction fuel as [|fuel IH]; intros remaining c A B b Hok HP Hb [El Ec] Hrem Hfuel; cbn [compactLoop].
  all: destruct (Z.leb_spec remaining 0) as [Hz|Hpos].
  1, 3: exists c, b; do 3 (split; [done|]); intros [H|H]; [done|];
    replace (Z.to_nat remaining) with 0%nat in H by lia; simpl in H; set_solver.
  1: lia.
  assert (exists A1 x R, compactorList c = A1 ++ x :: R /\ B ++ A = (x :: R) ++ A1
    /\ (compactorCursor c = Some x \/ (compactorCursor c = None /\ A1 = []))) as (A1 & x & R & El1 & EB & Hc).
  { destruct B as [|x R]; simpl in Ec.
    - rewrite app_nil_r in El. destruct A as [|x R]; [simpl in Hrem; lia|].
      exists [], x, R. rewrite app_nil_r. auto.
    - exists A, x, R. auto. }
  destruct (compactRound_spec now k c A1 x R P b Hok HP Hb El1 Hc) as (c1 & X' & En & Hr).
  set (n := Z.to_nat (CompactorBatchSize (options c))) in *. rewrite En.
  assert (exists m, n = S m) as [m Em].
  { pose proof (lk_batch c (links_of c Hok)). exists (pred n). subst n. lia. }
  set (V := take n (x :: R)) in *. set (D := drop n (x :: R)) in *.
  assert (x :: R = V ++ D) as EV by (subst V D; by rewrite take_drop).
  assert (exists v V', V = v :: V') as (v & V' & EV') by (subst V; rewrite Em; simpl; eauto).
  destruct Hr as (Hok2 & Ho2 & Hp2 & Hat). rewrite EV' in *. rewrite <- EV' in *.
  set (c2 := compactBatch V now c1) in *.
  assert (len A + len B = len V + len D + len A1) as Elen.
  { assert (length (B ++ A) = length ((x :: R) ++ A1)) as E by (by rewrite EB).
    rewrite EV, !length_app in E. lia. }
  assert (0 < len V) by (rewrite EV'; simpl; lia). rewrite <- Ho2 in HP.
  destruct (IH (remaining - len V) c2 (A1 ++ X') D _ Hok2 HP Hp2 Hat) as (c' & flag & E & G1 & G2 & G3);
    [rewrite length_app; lia|lia|].
  exists c', flag. split; [done|]. split; [done|]. split; [done|]. intros [->|Hin]; apply G3; [by left|].
  rewrite EB, EV, <- app_assoc in Hin. apply (take_step k _ V D A1 X') in Hin as [Hin|Hin].
  - left. apply visitedIn_elem in Hin. by rewrite Hin, orb_true_r.
  - right. by replace (Z.to_nat (remaining - len V)) with (Z.to_nat remaining - length V)%nat by lia.
Qed.

Lemma CompactOnce_visits now k P c :
  cache_ok c -> progress (options c) now P -> P false (entries c !! k) ->
  exists c' flag, CompactOnce (fun _ => now) c = Some c' /\ cache_ok c' /\ P flag (entries c' !! k)
    /\ (is_Some (entries c !! k) -> flag = true).
Proof.
  intros Hok HP Hb. pose proof (links_of c Hok) as Hl. unfold CompactOnce.
  assert (exists A B, at_cursor c A B) as (A & B & Hat).
  { unfold at_cursor. destruct (compactorCursor c) as [x|] eqn:Ec.
    - apply (lk_cursor c Hl), list_elem_of_split in Ec as (A & B & ->). by exists A, (x :: B).
    - exists (compactorList c), []. by rewrite app_nil_r. }
  pose proof Hat as [El _].
  destruct (compactLoop_spec (length (compactorList c)) now k P (len (compactorList c)) c A B false Hok HP Hb Hat)
    as (c' & flag & E & H1 & H2 & H3); [rewrite El, length_app; lia|done|].
  exists c', flag. split; [done|]. split; [done|]. split; [done|]. intros Hk. apply H3. right.
  apply (lk_list c Hl) in Hk. rewrite El in Hk |- *. rewrite Nat2Z.id, take_ge; [set_solver|].
  rewrite !length_app. lia.
Qed.

(** What is known of a key that held [e] when the pass began. *)
Definition passed (c : cache) (now : time) (e : shadowEntry) (visited : bool) (x : option shadowEntry) : Prop :=
  if visited then
    if retired c now e then
      x = None \/ exists e', x = Some e' /\ enState e' = ShadowEntryStateTombstone /\ enValue e' = []
    else if expired c now e then x = None
    else exists p b, x = Some (set_pin p b e)
  else exists p b, x = Some (set_pin p b e).

Lemma progress_passed c now e : progress (options c) now (passed c now e).
Proof.
  split.
  - intros c' b e1 x Ho Hb Hout.
    assert (forall y, retired c' now y = retired c now y /\ expired c' now y = expired c now y) as Hsame
      by (intros y; unfold retired, expired; by rewrite Ho).
    unfold outcome in Hout. destruct (Hsame e1) as [S1 S2]. rewrite S1, S2 in Hout.
    assert (forall p q, retired c now (set_pin p q e) = retired c now e
      /\ expired c now (set_pin p q e) = expired c now e) as Hpin by done.
    unfold passed in *. destruct b.
    + destruct (retired c now e) eqn:Er.
      * destruct Hb as [?|(e' & [= <-] & Hs & Hv)]; [done|]. unfold retired, expired in Hout. rewrite Hs in Hout.
        simpl in Hout. destruct (negb _); [by left|]. right.
        destruct Hout as (p & q & ->). by exists (set_pin p q e1).
      * destruct (expired c now e) eqn:Ex; [done|]. destruct Hb as (p & q & [= ->]).
        destruct (Hpin p q) as [E1 E2]. rewrite E1, E2 in Hout. naive_solver.
    + destruct Hb as (p & q & [= ->]). destruct (Hpin p q) as [E1 E2]. rewrite E1, E2 in Hout.
      destruct (retired c now e); [by right|]. destruct (expired c now e); [done|]. naive_solver.
  - intros b Hb. unfold passed in *. destruct b; [done|]. naive_solver.
Qed.

(** One pass of the compactor does all that is due.  For every
    reachable cache, wherever the cursor of the compactor stands, the pass
    returns; every tombstone past its hard lifespan is gone; every
    invalidated value past the retain window has been dropped; every other
    entry is there unchanged but for its pin, and nothing has appeared. *)
Theorem compaction_complete (order : gset string -> list string) (o : ShadowCacheOptions)
    (flags : option ObserveFirstFeatureFlagView) (k0 : option WatchCatalog.WatchCatalog)
    (a0 : option WatchActivationSet) (t0 : time) (os : list op) (c : cache) (now : time) :
  run order os (NewShadowCache order o flags k0 a0 t0) = Some c ->
  exists c', CompactOnce (fun _ => now) c = Some c' /\ forall k,
    match entries c !! k with
    | None => entries c' !! k = None
    | Some e =>
        if retired c now e then
          forall e', entries c' !! k = Some e' -> enState e' = ShadowEntryStateTombstone /\ enValue e' = []
        else if expired c now e then entries c' !! k = None
        else exists p b, entries c' !! k = Some (set_pin p b e)
    end.
Proof.
  intros Hrun.
  assert (cache_ok c) as Hok.
  { destruct (run_spec order os _ (new_ok order o flags k0 a0 t0)) as (c1 & L & E & M & _).
    assert (c1 = c) as -> by congruence. eapply moves_ok; [exact M|apply new_ok]. }
  destruct (CompactOnce_visits now "" (fun _ _ => True) c Hok) as (c' & flag & E & _); [by split|done|].
  exists c'. split; [done|]. intros k. destruct (entries c !! k) as [e|] eqn:He.
  2: { destruct (CompactOnce_visits now k (fun _ x => x = None) c Hok) as (c1 & f & E1 & _ & H & _);
         [by split|done|]. congruence. }
  destruct (CompactOnce_visits now k (passed c now e) c Hok (progress_passed c now e)) as (c1 & f & E1 & _ & H & Hf).
  { rewrite He. exists (enPinClass e), (enEvictable e). by rewrite set_pin_id. }
  rewrite Hf in H by (by rewrite He). assert (c1 = c') as -> by congruence.
  unfold passed in H. destruct (retired c now e).
  - intros e' He'. rewrite He' in H. destruct H as [?|(e1 & [= <-] & ?)]; done.
  - by destruct (expired c now e).
Qed.

(** A quarter of an hour after the invalidation the value is gone. *)
Lemma compaction_complete_witness :
  exists c', CompactOnce (fun _ => 20 * minute) demo_c1 = Some c'
    /\ forall e', entries c' !! Canonical demo_key = Some e' ->
         enState e' = ShadowEntryStateTombstone /\ enValue e' = [].
Proof.
  destruct (compaction_complete elements (demo_options 0) None None None 1 (demo_os0 ++ demo_os1) demo_c1
    (20 * minute)) as (c' & H1 & H2).
  - vm_compute. reflexivity.
  - exists c'. split; [exact H1|]. exact (H2 (Canonical demo_key)).
Defined.

End ShadowCompact.
