(* ===== verification/Scheduler.v ===== *)
(** * The semantic read scheduler

    [semantic_read_scheduler.go]: readers of a register share one fetch, one
    cached value and one circuit breaker per key, and the value is tied to
    the generation the shadow cache had for the key.

    Callers of [getWithWatchKey] are threads.  A step of a thread is what it
    does between two points where others can intervene: a call on the shadow
    cache, a critical section under [s.mu], the fetch.  The critical sections
    are functions on the record of the key; a section that looks at the
    shadow cache twice is given the cache of each look.  The operations of
    the other users of the shadow cache are steps of their own.  A scheduler
    without a shadow cache behaves as one whose callers give no watch key. *)

From S2P Require Import Prelude Ebus WatchCatalog FamilyPolicy ShadowCache.

Local Open Scope Z_scope.

Module Scheduler.
Import WatchCatalog ShadowCache.

(** ** Constants and data *)

Definition DefaultSemanticReadFailureBudget : Z := 2.
Definition DefaultSemanticReadOpenCooldown : Z := 15 * second.
Definition DefaultSemanticReadHalfOpenProbeLimit : Z := 1.
Definition semanticReadShadowMaxPreActivePasses : nat := 2.
Definition semanticReadShadowMaxRecomputeCycles : nat := 1.

(** [SemanticReadCircuitState]; entries are created closed, so that the
    empty state never occurs. *)
Inductive SemanticReadCircuitState :=
| SemanticReadCircuitStateClosed
| SemanticReadCircuitStateOpen
| SemanticReadCircuitStateHalfOpen.
#[export] Instance SemanticReadCircuitState_eq_dec : EqDecision SemanticReadCircuitState.
Proof. solve_decision. Defined.

(** Errors; the error of a fetch is opaque but for [errors.Is] with
    [ErrSemanticReadSupersededInFlight]. *)
Inductive readError :=
| FetchError (code : Z) (superseded : bool)
| ErrSemanticReadSupersededInFlight
| ErrSemanticReadCircuitOpen (retryAfter : Z)
| ErrSemanticReadRevalidationExhausted
| ErrContextDone.

Definition isSuperseded (e : readError) : bool :=
  match e with
  | FetchError _ b => b
  | ErrSemanticReadSupersededInFlight => true
  | _ => false
  end.

(** [SemanticReadCircuitBreakerTransition] and [-Suppression]; the key is
    left to the caller. *)
Record transition := mkTransition {
  trFrom : SemanticReadCircuitState;
  trTo : SemanticReadCircuitState;
  trConsecutiveFailures : Z
}.
Record suppression := mkSuppression {
  suState : SemanticReadCircuitState;
  suSuppressedTotal : Z;
  suRetryAfter : Z
}.

(** [semanticReadCircuitBreakerConfig], without the callbacks. *)
Record breakerConfig := mkBreaker {
  enabled : bool;
  failureBudget : Z;
  openCooldown : Z;
  halfOpenProbeLimit : Z
}.

(** [semanticReadEntry]; [done] is the number of the flight whose channel
    the field holds. *)
Record entry := mkRead {
  running : bool;
  done : nat;
  lastOKAt : time;
  lastOK : list byte;
  lastErr : option readError;
  lastOKShadowGeneration : Z;
  lastOKHasGeneration : bool;
  lastOKFromShadow : bool;
  lastOKFromPassive : bool;
  breakerState : SemanticReadCircuitState;
  consecutiveFailures : Z;
  openedAt : time;
  halfOpenProbesRemaining : Z;
  suppressedTotal : Z
}.

Definition newRead : entry :=
  mkRead false 0 0 [] None 0 false false false SemanticReadCircuitStateClosed 0 0 0 0.

(** [semanticReadShadowCandidate]. *)
Record candidate := mkCandidate {
  candValue : list byte;
  candGeneration : Z;
  candSource : string
}.

Definition set_flight (r : bool) (d : nat) (e : entry) : entry :=
  mkRead r d (lastOKAt e) (lastOK e) (lastErr e) (lastOKShadowGeneration e) (lastOKHasGeneration e)
    (lastOKFromShadow e) (lastOKFromPassive e) (breakerState e) (consecutiveFailures e) (openedAt e)
    (halfOpenProbesRemaining e) (suppressedTotal e).
Definition set_value (at_ : time) (v : list byte) (err : option readError) (g : Z) (has fromShadow fromPassive : bool)
    (e : entry) : entry :=
  mkRead (running e) (done e) at_ v err g has fromShadow fromPassive (breakerState e)
    (consecutiveFailures e) (openedAt e) (halfOpenProbesRemaining e) (suppressedTotal e).
Definition set_err (err : option readError) (e : entry) : entry :=
  set_value (lastOKAt e) (lastOK e) err (lastOKShadowGeneration e) (lastOKHasGeneration e)
    (lastOKFromShadow e) (lastOKFromPassive e) e.
Definition set_breaker (s : SemanticReadCircuitState) (failures : Z) (opened : time) (probes suppressed : Z)
    (e : entry) : entry :=
  mkRead (running e) (done e) (lastOKAt e) (lastOK e) (lastErr e) (lastOKShadowGeneration e)
    (lastOKHasGeneration e) (lastOKFromShadow e) (lastOKFromPassive e) s failures opened probes suppressed.
Definition set_failures (n : Z) (e : entry) : entry :=
  set_breaker (breakerState e) n (openedAt e) (halfOpenProbesRemaining e) (suppressedTotal e) e.
Definition set_openedAt (t : time) (e : entry) : entry :=
  set_breaker (breakerState e) (consecutiveFailures e) t (halfOpenProbesRemaining e) (suppressedTotal e) e.
Definition set_probes (n : Z) (e : entry) : entry :=
  set_breaker (breakerState e) (consecutiveFailures e) (openedAt e) n (suppressedTotal e) e.
Definition set_suppressed (n : Z) (e : entry) : entry :=
  set_breaker (breakerState e) (consecutiveFailures e) (openedAt e) (halfOpenProbesRemaining e) n e.

(** ** The circuit breaker *)

(** [normalizeSemanticReadCircuitBreakerOptions]. *)
Definition normalizeSemanticReadCircuitBreakerOptions (budget cooldown limit : Z) : breakerConfig :=
  let c0 := if cooldown =? 0 then DefaultSemanticReadOpenCooldown else cooldown in
  let l0 := if limit =? 0 then DefaultSemanticReadHalfOpenProbeLimit else limit in
  let l1 := if l0 <? 1 then 1 else l0 in
  let c1 := if c0 <? 0 then 0 else c0 in
  mkBreaker (0 <? budget) budget c1 l1.

(** [transitionBreakerLocked]. *)
Definition transitionBreakerLocked (b : breakerConfig) (to : SemanticReadCircuitState) (e : entry)
    : entry * option transition :=
  if negb (enabled b) then (e, None)
  else
    let from := breakerState e in
    if bool_decide (from = to) then (e, None)
    else
      let e1 :=
        match to with
        | SemanticReadCircuitStateClosed =>
            set_breaker to 0 0 (halfOpenProbeLimit b) (suppressedTotal e) e
        | SemanticReadCircuitStateHalfOpen =>
            set_breaker to (consecutiveFailures e) (openedAt e) (halfOpenProbeLimit b) (suppressedTotal e) e
        | SemanticReadCircuitStateOpen =>
            set_breaker to (consecutiveFailures e) (openedAt e) 0 (suppressedTotal e) e
        end in
      (e1, Some (mkTransition from to (consecutiveFailures e1))).

(** [guardBreakerLocked]; the last component is the error. *)
Definition guardBreakerLocked (b : breakerConfig) (now : time) (e : entry)
    : entry * option transition * option suppression * option readError :=
  if negb (enabled b) then (e, None, None, None)
  else
    match breakerState e with
    | SemanticReadCircuitStateOpen =>
        if (openCooldown b <=? 0) || (openCooldown b <=? now - openedAt e) then
          let '(e1, t) := transitionBreakerLocked b SemanticReadCircuitStateHalfOpen e in
          (set_probes (halfOpenProbeLimit b) e1, t, None, None)
        else
          let retry0 := openCooldown b - (now - openedAt e) in
          let retry := if retry0 <? 0 then 0 else retry0 in
          let e1 := set_suppressed (incr64 (suppressedTotal e)) e in
          (e1, None, Some (mkSuppression SemanticReadCircuitStateOpen (suppressedTotal e1) retry),
           Some (ErrSemanticReadCircuitOpen retry))
    | SemanticReadCircuitStateHalfOpen =>
        if 0 <? halfOpenProbesRemaining e then (e, None, None, None)
        else
          let '(e1, t) := transitionBreakerLocked b SemanticReadCircuitStateOpen e in
          let e2 := set_suppressed (incr64 (suppressedTotal e1)) (set_openedAt now e1) in
          let retry := if openCooldown b <? 0 then 0 else openCooldown b in
          (e2, t, Some (mkSuppression SemanticReadCircuitStateOpen (suppressedTotal e2) retry),
           Some (ErrSemanticReadCircuitOpen retry))
    | SemanticReadCircuitStateClosed => (e, None, None, None)
    end.

(** [recordFailureLocked]. *)
Definition recordFailureLocked (b : breakerConfig) (now : time) (e : entry) : entry * option transition :=
  if negb (enabled b) then (e, None)
  else
    let e1 := set_failures (consecutiveFailures e + 1) e in
    match breakerState e1 with
    | SemanticReadCircuitStateHalfOpen =>
        if 0 <? halfOpenProbesRemaining e1 then (e1, None)
        else
          let '(e2, t) := transitionBreakerLocked b SemanticReadCircuitStateOpen e1 in
          (set_openedAt now e2, t)
    | SemanticReadCircuitStateClosed =>
        if failureBudget b <=? consecutiveFailures e1 then
          let '(e2, t) := transitionBreakerLocked b SemanticReadCircuitStateOpen e1 in
          (set_openedAt now e2, t)
        else (e1, None)
    | SemanticReadCircuitStateOpen => (e1, None)
    end.

(** What [SetCircuitBreaker] does to an entry. *)
Definition resetBreaker (b : breakerConfig) (e : entry) : entry :=
  let e1 := set_err None e in
  if enabled b then e1
  else set_breaker SemanticReadCircuitStateClosed 0 0 0 (suppressedTotal e1) e1.

(** ** The shadow cache *)

(** [consultSemanticReadShadow]. *)
Definition consultSemanticReadShadow (key : WatchKey) (maxAge : Z) (now : time) (c : cache)
    : cache * option candidate :=
  if maxAge <=? 0 then (c, None)
  else
    let '(c1, r) := Lookup (Some key) maxAge now c in
    (c1,
     match lrEntry r with
     | None => None
     | Some e =>
         if negb (Eligible r) || negb (bool_decide (enState e = ShadowEntryStatePresent)) then None
         else Some (mkCandidate (enValue e) (enGeneration e) (enSource e))
     end).

(** [shadowSnapshotEligibleForMaxAge]. *)
Definition shadowSnapshotEligibleForMaxAge (s : ShadowEligibilitySnapshot) (maxAge : Z) (now : time) : bool :=
  if negb (esPresent s) || negb (esEligible s) || negb (bool_decide (esState s = ShadowEntryStatePresent))
  then false
  else if maxAge <=? 0 then false
  else if negb (IsZero (esExpiresAt s)) && (esExpiresAt s <? now) then false
  else
    let age := now - esObservedAt s in (0 <=? age) && (age <=? maxAge).

(** [revalidateSemanticReadShadowCandidate]: the generation when the
    candidate still stands; [cnow] is the clock of the cache. *)
Definition revalidateSemanticReadShadowCandidate (key : WatchKey) (cand : candidate) (maxAge : Z)
    (now cnow : time) (c : cache) : option Z :=
  let s := SnapshotEligibility (Some key) cnow c in
  if negb (esGeneration s =? candGeneration cand) then None
  else if negb (shadowSnapshotEligibleForMaxAge s maxAge now) then None
  else Some (esGeneration s).

(** [clearSemanticReadCacheLocked]. *)
Definition clearSemanticReadCacheLocked (e : entry) : entry :=
  set_value 0 [] (lastErr e) 0 false false false e.

(** ** The critical sections of [getWithWatchKey] *)

(** The callbacks a section asks for, run after it has left the lock. *)
Inductive emit := EmitTransition (t : transition) | EmitSuppression (s : suppression).
Definition emits (t : option transition) (s : option suppression) : list emit :=
  option_list (EmitTransition <$> t) ++ option_list (EmitSuppression <$> s).

(** How the first section ends: wait for the running flight, serve a value
    (with the two flags of the statistics), go round again, refuse, or
    fetch. *)
Inductive verdict :=
| Wait (flight : nat)
| Serve (value : list byte) (fromShadow fromPassive : bool)
| Again
| Refuse (err : readError)
| Fetch.

(** The readings of the clock in the section: [s.now()] in
    [revalidateSemanticReadShadowCandidate], for [lastOKAt], for the age, for
    the eligibility and in the guard, and [cache.now()] in the two
    snapshots. *)
Record clock := mkClock {
  ckRevalidate : time;
  ckServed : time;
  ckAge : time;
  ckEligible : time;
  ckGuard : time;
  ckCache1 : time;
  ckCache2 : time
}.

(** The end of the section: the guard, and the start of flight [fresh]. *)
Definition guardAndStart (b : breakerConfig) (fresh : nat) (now : time) (e : entry)
    : entry * list emit * verdict :=
  let '(e1, t, s, err) := guardBreakerLocked b now e in
  match err with
  | Some err => (e1, emits t s, Refuse err)
  | None =>
      let e2 := if bool_decide (breakerState e1 = SemanticReadCircuitStateHalfOpen)
                then set_probes (halfOpenProbesRemaining e1 - 1) e1 else e1 in
      (set_flight true fresh e2, emits t None, Fetch)
  end.

(** The part of the section on the value the scheduler itself has cached;
    [None] says that it is not served. *)
Definition cachedValue (w : option WatchKey) (maxAge : Z) (ck : clock) (c : cache) (e : entry)
    : entry * option verdict :=
  if (0 <? len (lastOK e)) && (0 <? maxAge) then
    let age := ckAge ck - lastOKAt e in
    if (0 <=? age) && (age <=? maxAge) then
      let serve := (e, Some (Serve (lastOK e) (lastOKFromShadow e) (lastOKFromPassive e))) in
      match w with
      | None => serve
      | Some key =>
          if negb (lastOKHasGeneration e) then serve
          else
            let s := SnapshotEligibility (Some key) (ckCache2 ck) c in
            if negb (esGeneration s =? lastOKShadowGeneration e)
            then (clearSemanticReadCacheLocked e, None)
            else if lastOKFromShadow e && negb (shadowSnapshotEligibleForMaxAge s maxAge (ckEligible ck))
            then (clearSemanticReadCacheLocked e, None)
            else serve
      end
    else (e, None)
  else (e, None).

(** The section that decides; [passes] are the shadow passes left, [c1] and
    [c2] the cache at the two looks. *)
Definition checkSection (b : breakerConfig) (w : option WatchKey) (maxAge : Z) (passes : nat)
    (cand : option candidate) (fresh : nat) (ck : clock) (c1 c2 : cache) (e : entry)
    : entry * list emit * verdict :=
  if running e then (e, [], Wait (done e))
  else
    let later :=
      let '(e1, v) := cachedValue w maxAge ck c2 e in
      match v with
      | Some v => (e1, [], v)
      | None => guardAndStart b fresh (ckGuard ck) e1
      end in
    match cand, w with
    | Some cd, Some key =>
        match revalidateSemanticReadShadowCandidate key cd maxAge (ckRevalidate ck) (ckCache1 ck) c1 with
        | Some g =>
            let passive := String.eqb (candSource cd) ShadowWriteSourcePassive in
            (set_value (ckServed ck) (candValue cd) None g true true passive e, [],
             Serve (candValue cd) true passive)
        | None => if (0 <? passes)%nat then (e, [], Again) else later
        end
    | _, _ => later
    end.

(** The result of a fetch: the value or the error. *)
Abbreviation fetchResult := (list byte + readError)%type.

(** The result after the shadow write: three ways to refuse it mean that the
    read was superseded. *)
Definition afterWrite (v : list byte) (r : ShadowWriteResult) : fetchResult :=
  if Accepted r then inl v
  else
    match Reason r with
    | ShadowWriteRejectionReasonGenerationAdvanced
    | ShadowWriteRejectionReasonStaleTimestamp
    | ShadowWriteRejectionReasonSameTimestampConflict => inr ErrSemanticReadSupersededInFlight
    | _ => inl v
    end.

(** The generation the value is expected to have. *)
Definition expectedGeneration (start : Z) (write : option ShadowWriteResult) : Z :=
  match write with
  | Some r => if Accepted r then wrGeneration r else start
  | None => start
  end.

(** How a flight ends for its caller. *)
Inductive landing := Landed (v : list byte) | Superseded | Failed (e : readError).

(** The section that ends a flight; [now] is read for [lastOKAt] or
    [openedAt]. *)
Definition finishSection (b : breakerConfig) (w : option WatchKey) (start : Z) (result : fetchResult)
    (write : option ShadowWriteResult) (now cnow : time) (c : cache) (e : entry)
    : entry * list emit * landing :=
  let e1 := set_flight false (done e) e in
  let result1 :=
    match result, w with
    | inl v, Some key =>
        if negb (esGeneration (SnapshotEligibility (Some key) cnow c) =? expectedGeneration start write)
        then inr ErrSemanticReadSupersededInFlight else inl v
    | r, _ => r
    end in
  match result1 with
  | inl v =>
      let '(g, has) := match w with Some _ => (expectedGeneration start write, true) | None => (0, false) end in
      let e2 := set_failures 0 (set_value now v None g has false false e1) in
      let '(e3, t) := transitionBreakerLocked b SemanticReadCircuitStateClosed e2 in
      (e3, emits t None, Landed v)
  | inr err =>
      let e2 := set_err (Some err) e1 in
      if isSuperseded err then
        let e3 := clearSemanticReadCacheLocked e2 in
        let e4 := if enabled b && bool_decide (breakerState e3 = SemanticReadCircuitStateHalfOpen)
                     && (halfOpenProbesRemaining e3 <? halfOpenProbeLimit b)
                  then set_probes (halfOpenProbesRemaining e3 + 1) e3 else e3 in
        (e4, [], Superseded)
      else
        let '(e3, t) := recordFailureLocked b now e2 in (e3, emits t None, Failed err)
  end.

(** ** Callers *)

(** Where a caller is. *)
Inductive phase :=
| Looping                                           (* at the top of the loop *)
| Checking (cand : option candidate)                (* before the first section *)
| Waiting (flight : nat)                            (* on the channel of a flight *)
| Starting (flight : nat)                           (* has started a flight *)
| Fetching (flight : nat) (start : Z) (since : nat) (* in the fetch *)
| Writing (flight : nat) (start : Z) (v : list byte)
| Finishing (flight : nat) (start : Z) (result : fetchResult) (write : option ShadowWriteResult)
| Direct                                            (* a fetch without a key *)
| Returned (result : fetchResult).

Record caller := mkCaller {
  cKey : string;
  cWatch : option WatchKey;
  cMaxAge : Z;
  cPasses : nat;
  cRecompute : nat;
  cFetches : nat;
  cPhase : phase
}.

(** The system: the entries of the scheduler, its breaker, the callers, the
    flights started and the flights whose channel is closed, the operations
    the shadow cache has seen, and a log of the values fetched (key, number
    of shadow operations when the fetch began, value). *)
Record system := mkSystem {
  reads : gmap string entry;
  breaker : breakerConfig;
  callers : gmap nat caller;
  flights : nat;
  closed : gset nat;
  trace : list op;
  fetchLog : list (string * nat * list byte)
}.

Definition set_phase (p : phase) (x : caller) : caller :=
  mkCaller (cKey x) (cWatch x) (cMaxAge x) (cPasses x) (cRecompute x) (cFetches x) p.
Definition set_passes (n : nat) (x : caller) : caller :=
  mkCaller (cKey x) (cWatch x) (cMaxAge x) n (cRecompute x) (cFetches x) (cPhase x).
Definition count_fetch (x : caller) : caller :=
  mkCaller (cKey x) (cWatch x) (cMaxAge x) (cPasses x) (cRecompute x) (S (cFetches x)) (cPhase x).
Definition put_caller (id : nat) (x : caller) (s : system) : system :=
  mkSystem (reads s) (breaker s) (<[id := x]> (callers s)) (flights s) (closed s) (trace s) (fetchLog s).
Definition put_read (k : string) (e : entry) (s : system) : system :=
  mkSystem (<[k := e]> (reads s)) (breaker s) (callers s) (flights s) (closed s) (trace s) (fetchLog s).
Definition add_trace (os : list op) (s : system) : system :=
  mkSystem (reads s) (breaker s) (callers s) (flights s) (closed s) (trace s ++ os) (fetchLog s).
Definition add_flight (s : system) : system :=
  mkSystem (reads s) (breaker s) (callers s) (S (flights s)) (closed s) (trace s) (fetchLog s).
Definition close_flight (f : nat) (s : system) : system :=
  mkSystem (reads s) (breaker s) (callers s) (flights s) (closed s ∪ {[f]}) (trace s) (fetchLog s).
Definition log_fetch (r : string * nat * list byte) (s : system) : system :=
  mkSystem (reads s) (breaker s) (callers s) (flights s) (closed s) (trace s) (fetchLog s ++ [r]).

Section Run.
(** The range order of the shadow cache, and the cache the scheduler was
    given. *)
Context (order : gset string -> list string) (base : cache).

Definition cacheAt (tr : list op) : cache := default base (run order tr base).

(** What happens next. *)
Inductive action :=
| AGet (id : nat) (key : string) (watch : option WatchKey) (maxAge : Z)
| AConsult (id : nat) (now : time)
| ACheck (id : nat) (between : list op) (ck : clock)
| AWake (id : nat)
| ACancel (id : nat)
| ACapture (id : nat) (cnow : time)
| AFetched (id : nat) (result : list byte + Z * bool)
| AWrite (id : nat) (now : time)
| AFinish (id : nat) (now cnow : time)
| AShadow (o : op)
| ASetBreaker (budget cooldown limit : Z).

(** The result of a fetch as the code sees it. *)
Definition fetched (r : list byte + Z * bool) : fetchResult :=
  match r with inl v => inl v | inr (code, sup) => inr (FetchError code sup) end.

(** A step; [None] when it is not possible. *)
Definition exec (a : action) (s : system) : option system :=
  match a with
  | AGet id key watch maxAge =>
      match callers s !! id with
      | Some _ => None
      | None =>
          Some (put_caller id
            (mkCaller key watch maxAge semanticReadShadowMaxPreActivePasses
               semanticReadShadowMaxRecomputeCycles 0 (if String.eqb key "" then Direct else Looping)) s)
      end
  | AConsult id now =>
      x ← callers s !! id;
      match cPhase x with
      | Looping =>
          match cWatch x with
          | Some key =>
              if (0 <? cMaxAge x) && (0 <? cPasses x)%nat then
                let cand := snd (consultSemanticReadShadow key (cMaxAge x) now (cacheAt (trace s))) in
                Some (put_caller id (set_phase (Checking cand) (set_passes (pred (cPasses x)) x))
                        (add_trace [OpLookup (Some key) (cMaxAge x) now] s))
              else Some (put_caller id (set_phase (Checking None) x) s)
          | None => Some (put_caller id (set_phase (Checking None) x) s)
          end
      | _ => None
      end
  | ACheck id between ck =>
      x ← callers s !! id;
      match cPhase x with
      | Checking cand =>
          let e := default newRead (reads s !! cKey x) in
          let s1 := add_trace between s in
          let '(e1, _, v) := checkSection (breaker s) (cWatch x) (cMaxAge x) (cPasses x) cand (flights s) ck
                               (cacheAt (trace s)) (cacheAt (trace s1)) e in
          let s2 := put_read (cKey x) e1 s1 in
          Some (match v with
                | Wait f => put_caller id (set_phase (Waiting f) x) s2
                | Serve value _ _ => put_caller id (set_phase (Returned (inl value)) x) s2
                | Again => put_caller id (set_phase Looping x) s2
                | Refuse err => put_caller id (set_phase (Returned (inr err)) x) s2
                | Fetch => put_caller id (set_phase (Starting (flights s)) x) (add_flight s2)
                end)
      | _ => None
      end
  | AWake id =>
      x ← callers s !! id;
      match cPhase x with
      | Waiting f => if bool_decide (f ∈ closed s) then Some (put_caller id (set_phase Looping x) s) else None
      | _ => None
      end
  | ACancel id =>
      x ← callers s !! id;
      match cPhase x with
      | Waiting _ => Some (put_caller id (set_phase (Returned (inr ErrContextDone)) x) s)
      | _ => None
      end
  | ACapture id cnow =>
      x ← callers s !! id;
      match cPhase x with
      | Starting f =>
          let start := match cWatch x with
                       | Some key => esGeneration (SnapshotEligibility (Some key) cnow (cacheAt (trace s)))
                       | None => 0
                       end in
          Some (put_caller id (set_phase (Fetching f start (length (trace s))) x) s)
      | _ => None
      end
  | AFetched id result =>
      x ← callers s !! id;
      match cPhase x with
      | Fetching f start since =>
          match result, cWatch x with
          | inl v, Some _ =>
              Some (log_fetch (cKey x, since, v)
                      (put_caller id (set_phase (Writing f start v) (count_fetch x)) s))
          | inl v, None =>
              Some (log_fetch (cKey x, since, v)
                      (put_caller id (set_phase (Finishing f start (inl v) None) (count_fetch x)) s))
          | inr _, _ =>
              Some (put_caller id (set_phase (Finishing f start (fetched result) None) (count_fetch x)) s)
          end
      | Direct => Some (put_caller id (set_phase (Returned (fetched result)) (count_fetch x)) s)
      | _ => None
      end
  | AWrite id now =>
      x ← callers s !! id;
      match cPhase x, cWatch x with
      | Writing f start v, Some key =>
          let w := mkWrite (Some key) ShadowWriteSourceActiveConfirmed "high_confidence" v now start in
          '(_, r) ← Write w (cacheAt (trace s));
          Some (put_caller id (set_phase (Finishing f start (afterWrite v r) (Some r)) x)
                  (add_trace [OpWrite w] s))
      | _, _ => None
      end
  | AFinish id now cnow =>
      x ← callers s !! id;
      match cPhase x with
      | Finishing f start result write =>
          let e := default newRead (reads s !! cKey x) in
          let '(e1, _, l) := finishSection (breaker s) (cWatch x) start result write now cnow
                               (cacheAt (trace s)) e in
          let s1 := close_flight f (put_read (cKey x) e1 s) in
          Some (match l with
                | Landed v => put_caller id (set_phase (Returned (inl v)) x) s1
                | Superseded =>
                    match cRecompute x with
                    | S n =>
                        put_caller id (mkCaller (cKey x) (cWatch x) (cMaxAge x)
                          semanticReadShadowMaxPreActivePasses n (cFetches x) Looping) s1
                    | O => put_caller id (set_phase (Returned (inr ErrSemanticReadRevalidationExhausted)) x) s1
                    end
                | Failed err => put_caller id (set_phase (Returned (inr err)) x) s1
                end)
      | _ => None
      end
  | AShadow o => Some (add_trace [o] s)
  | ASetBreaker budget cooldown limit =>
      let b := normalizeSemanticReadCircuitBreakerOptions budget cooldown limit in
      Some (mkSystem (resetBreaker b <$> reads s) b (callers s) (flights s) (closed s) (trace s) (fetchLog s))
  end.

Fixpoint execAll (l : list action) (s : system) : option system :=
  match l with
  | [] => Some s
  | a :: rest => exec a s ≫= execAll rest
  end.

(** [NewSemanticReadScheduler]. *)
Definition newSystem : system := mkSystem ∅ (mkBreaker false 0 0 0) ∅ 0 ∅ [] [].

End Run.

End Scheduler.
