(* ===== verification/SchedulerInv.v ===== *)
(** * The semantic read scheduler: one flight per key

    Over every interleaving of callers: at most one of them is fetching a
    key, whoever waits waits for a flight that is under way or has ended, no
    call fetches more than twice, and the breaker gates every fetch. *)

From S2P Require Import Prelude Ebus WatchCatalog FamilyPolicy ShadowCache ShadowInv ShadowSpec Scheduler.

Local Open Scope Z_scope.

Module SchedulerInv.
Import WatchCatalog ShadowCache ShadowInv ShadowSpec Scheduler.

(** The flight a caller is in charge of. *)
Definition inFlight (p : phase) : option nat :=
  match p with
  | Starting f | Fetching f _ _ | Writing f _ _ | Finishing f _ _ _ => Some f
  | _ => None
  end.

(** The fetches a caller has made, and may still make. *)
Definition budget_ok (x : caller) : Prop :=
  match cPhase x with
  | Looping | Checking _ | Waiting _ | Starting _ | Fetching _ _ _ => (cFetches x + cRecompute x <= 1)%nat
  | Writing _ _ _ | Finishing _ _ _ _ => (cFetches x + cRecompute x <= 2)%nat
  | Direct => cFetches x = 0%nat
  | Returned _ => (cFetches x <= 2)%nat
  end.

Record flights_ok (s : system) : Prop := mkFlightsOk {
  fl_owner id x f : callers s !! id = Some x -> inFlight (cPhase x) = Some f ->
    exists e, reads s !! cKey x = Some e /\ running e = true /\ done e = f;
  fl_running k e : reads s !! k = Some e -> running e = true ->
    exists id x, callers s !! id = Some x /\ cKey x = k /\ inFlight (cPhase x) = Some (done e);
  fl_unique id1 id2 x1 x2 f : callers s !! id1 = Some x1 -> callers s !! id2 = Some x2 ->
    inFlight (cPhase x1) = Some f -> inFlight (cPhase x2) = Some f -> id1 = id2;
  fl_bound id x f : callers s !! id = Some x -> inFlight (cPhase x) = Some f ->
    (f < flights s)%nat /\ f ∉ closed s;
  fl_waiting id x f : callers s !! id = Some x -> cPhase x = Waiting f ->
    f ∈ closed s \/ exists e, reads s !! cKey x = Some e /\ running e = true /\ done e = f;
  fl_budget id x : callers s !! id = Some x -> budget_ok x;
  fl_closed f : f ∈ closed s -> (f < flights s)%nat
}.

(** ** What the sections do to the flight *)

Lemma transition_flight b to e :
  let e' := fst (transitionBreakerLocked b to e) in running e' = running e /\ done e' = done e.
Proof. unfold transitionBreakerLocked. destruct (negb _); [done|]. destruct (bool_decide _); [done|]. by destruct to. Qed.

Lemma guard_flight b now e :
  let e' := fst (fst (fst (guardBreakerLocked b now e))) in running e' = running e /\ done e' = done e.
Proof.
  unfold guardBreakerLocked. destruct (negb _); [done|]. destruct (breakerState e); [done| |].
  - destruct (_ || _); [|done].
    pose proof (transition_flight b SemanticReadCircuitStateHalfOpen e) as H.
    destruct (transitionBreakerLocked _ _ _) as [e1 t]. simpl in *. tauto.
  - destruct (0 <? _); [done|].
    pose proof (transition_flight b SemanticReadCircuitStateOpen e) as H.
    destruct (transitionBreakerLocked _ _ _) as [e1 t]. simpl in *. tauto.
Qed.

Lemma failure_flight b now e :
  let e' := fst (recordFailureLocked b now e) in running e' = running e /\ done e' = done e.
Proof.
  unfold recordFailureLocked. destruct (negb _); [done|]. set (e1 := set_failures _ e).
  pose proof (transition_flight b SemanticReadCircuitStateOpen e1) as H.
  destruct (transitionBreakerLocked b SemanticReadCircuitStateOpen e1) as [e2 t]. simpl in H.
  destruct (breakerState e1); [destruct (_ <=? _)|done|destruct (0 <? _)]; simpl; tauto.
Qed.

(** The first section starts a flight exactly when it says so, and it waits
    exactly for the running one. *)
Lemma check_flight b w maxAge passes cand fresh ck c1 c2 e :
  let '(e', _, v) := checkSection b w maxAge passes cand fresh ck c1 c2 e in
  match v with
  | Fetch => running e = false /\ running e' = true /\ done e' = fresh
  | Wait f => e' = e /\ running e = true /\ done e = f
  | _ => running e = false /\ running e' = false
  end.
Proof.
  unfold checkSection. destruct (running e) eqn:Er; [done|].
  assert (running (fst (cachedValue w maxAge ck c2 e)) = false
    /\ forall v, snd (cachedValue w maxAge ck c2 e) = Some v -> exists a p q, v = Serve a p q) as [Hc Hv].
  { unfold cachedValue. destruct (_ && _); [|done]. destruct (_ && _); [|done].
    destruct w as [key|]; [|simpl; naive_solver]. destruct (negb _); [simpl; naive_solver|].
    destruct (negb _); [simpl; naive_solver|]. destruct (_ && _); simpl; naive_solver. }
  assert (let '(e', _, v) :=
      (let '(e1, v) := cachedValue w maxAge ck c2 e in
       match v with Some v => (e1, [], v) | None => guardAndStart b fresh (ckGuard ck) e1 end) in
    match v with
    | Fetch => false = false /\ running e' = true /\ done e' = fresh
    | Wait f => e' = e /\ false = true /\ done e = f
    | _ => false = false /\ running e' = false
    end) as Hlater.
  { destruct (cachedValue w maxAge ck c2 e) as [e1 [v|]]; simpl in *.
    - destruct (Hv v eq_refl) as (a & p & q & ->). done.
    - unfold guardAndStart. pose proof (guard_flight b (ckGuard ck) e1) as Hg.
      destruct (guardBreakerLocked b (ckGuard ck) e1) as [[[e2 t] sp] [err|]]; simpl in *; [|done].
      split; [done|]. by rewrite (proj1 Hg). }
  destruct cand as [cd|], w as [key|]; try exact Hlater.
  destruct (revalidateSemanticReadShadowCandidate _ _ _ _ _ _); [done|].
  destruct (0 <? passes)%nat; [done|exact Hlater].
Qed.

(** The last section ends the flight. *)
Lemma finish_flight b w start result write now cnow c e :
  running (fst (fst (finishSection b w start result write now cnow c e))) = false.
Proof.
  unfold finishSection. set (r1 := match result with inl v => _ | inr _ => _ end). destruct r1 as [v|err].
  - set (q := match w with Some _ => _ | None => _ end). destruct q as [g has].
    set (e2 := set_failures 0 _). pose proof (transition_flight b SemanticReadCircuitStateClosed e2) as H.
    destruct (transitionBreakerLocked _ _ _) as [e3 t]. simpl in *. tauto.
  - destruct (isSuperseded err).
    + simpl. by destruct (_ && _).
    + set (e2 := set_err _ _). pose proof (failure_flight b now e2) as H.
      destruct (recordFailureLocked _ _ _) as [e3 t]. simpl in *. tauto.
Qed.

(** ** The invariant is kept *)

(** It only speaks of the entries, the callers and the flights. *)
Lemma flights_ext s s' :
  reads s' = reads s -> callers s' = callers s -> flights s' = flights s -> closed s' = closed s ->
  flights_ok s -> flights_ok s'.
Proof.
  intros E1 E2 E3 E4 [F1 F2 F3 F4 F5 F6 F7].
  split; rewrite ?E1, ?E2, ?E3, ?E4; try done; intros; rewrite ?E1, ?E2 in *; eauto.
Qed.

(** A caller moves on without a flight before or after. *)
Lemma flights_move id x s :
  flights_ok s -> (forall y, callers s !! id = Some y -> inFlight (cPhase y) = None) ->
  inFlight (cPhase x) = None -> budget_ok x ->
  (forall f, cPhase x = Waiting f ->
     f ∈ closed s \/ exists e, reads s !! cKey x = Some e /\ running e = true /\ done e = f) ->
  flights_ok (put_caller id x s).
Proof.
  intros [F1 F2 F3 F4 F5 F6 F7] Hold Hnew Hb Hw.
  assert (forall j y f, callers (put_caller id x s) !! j = Some y -> inFlight (cPhase y) = Some f ->
    j <> id /\ callers s !! j = Some y) as Hc.
  { intros j y f. simpl. destruct (decide (j = id)) as [->|Hj].
    - rewrite lookup_insert_eq. intros [= <-]. congruence.
    - by rewrite lookup_insert_ne. }
  split; simpl.
  - intros j y f Hy Hf. destruct (Hc j y f Hy Hf) as [_ Hy']. eauto.
  - intros k e Hk Hr. destruct (F2 k e Hk Hr) as (j & y & Hy & Hyk & Hf). exists j, y.
    split; [|done]. rewrite lookup_insert_ne; [done|]. intros ->. rewrite (Hold y Hy) in Hf. done.
  - intros i j y z f Hy Hz Hf Hg. destruct (Hc i y f Hy Hf), (Hc j z f Hz Hg). eauto.
  - intros j y f Hy Hf. destruct (Hc j y f Hy Hf). eauto.
  - intros j y f. destruct (decide (j = id)) as [->|Hj].
    + rewrite lookup_insert_eq. intros [= <-]. apply Hw.
    + rewrite lookup_insert_ne by done. apply F5.
  - intros j y. destruct (decide (j = id)) as [->|Hj].
    + rewrite lookup_insert_eq. by intros [= <-].
    + rewrite lookup_insert_ne by done. apply F6.
  - done.
Qed.

(** A caller moves on within its flight. *)
Lemma flights_within id x x' f s :
  flights_ok s -> callers s !! id = Some x -> inFlight (cPhase x) = Some f ->
  inFlight (cPhase x') = Some f -> cKey x' = cKey x -> budget_ok x' -> flights_ok (put_caller id x' s).
Proof.
  intros [F1 F2 F3 F4 F5 F6 F7] Hx Hf Hf' Hk Hb.
  assert (forall j y g, callers (put_caller id x' s) !! j = Some y -> inFlight (cPhase y) = Some g ->
    exists z, callers s !! j = Some z /\ inFlight (cPhase z) = Some g /\ cKey z = cKey y) as Hc.
  { intros j y g. simpl. destruct (decide (j = id)) as [->|Hj].
    - rewrite lookup_insert_eq. intros [= <-] Hg. exists x. split; [done|]. split; [congruence|done].
    - rewrite lookup_insert_ne by done. eauto. }
  split; simpl.
  - intros j y g Hy Hg. destruct (Hc j y g Hy Hg) as (z & Hz & Hzg & <-). eauto.
  - intros k e He Hr. destruct (F2 k e He Hr) as (j & y & Hy & Hyk & Hg).
    destruct (decide (j = id)) as [->|Hj].
    + exists id, x'. rewrite lookup_insert_eq. split; [done|]. simplify_eq. split; [done|]. congruence.
    + exists j, y. by rewrite lookup_insert_ne.
  - intros i j y z g Hy Hz Hg Hg'. destruct (Hc i y g Hy Hg) as (y1 & ? & ? & _).
    destruct (Hc j z g Hz Hg') as (z1 & ? & ? & _). eauto.
  - intros j y g Hy Hg. destruct (Hc j y g Hy Hg) as (z & ? & ? & _). eauto.
  - intros j y g. destruct (decide (j = id)) as [->|Hj].
    + rewrite lookup_insert_eq. intros [= <-] Hp. by rewrite Hp in Hf'.
    + rewrite lookup_insert_ne by done. apply F5.
  - intros j y. destruct (decide (j = id)) as [->|Hj].
    + rewrite lookup_insert_eq. by intros [= <-].
    + rewrite lookup_insert_ne by done. apply F6.
  - done.
Qed.

(** The record of a key that no flight is under way for changes. *)
Lemma flights_read k e s :
  flights_ok s -> (forall e0, reads s !! k = Some e0 -> running e0 = false) -> running e = false ->
  flights_ok (put_read k e s).
Proof.
  intros [F1 F2 F3 F4 F5 F6 F7] Hold Hnew. split; simpl; try done.
  - intros id x f Hx Hf. destruct (F1 id x f Hx Hf) as (e0 & He & Hr & Hd).
    exists e0. rewrite lookup_insert_ne; [done|]. intros ->. rewrite (Hold e0 He) in Hr. done.
  - intros j e0. destruct (decide (j = k)) as [->|Hj].
    + rewrite lookup_insert_eq. intros [= <-]. congruence.
    + rewrite lookup_insert_ne by done. apply F2.
  - intros id x f Hx Hp. destruct (F5 id x f Hx Hp) as [?|(e0 & He & Hr & Hd)]; [by left|right].
    exists e0. rewrite lookup_insert_ne; [done|]. intros ->. rewrite (Hold e0 He) in Hr. done.
Qed.

(** A flight starts. *)
Lemma flights_start id x e s :
  flights_ok s -> callers s !! id = Some x -> inFlight (cPhase x) = None ->
  (forall e0, reads s !! cKey x = Some e0 -> running e0 = false) ->
  running e = true -> done e = flights s -> budget_ok (set_phase (Starting (flights s)) x) ->
  flights_ok (put_caller id (set_phase (Starting (flights s)) x) (add_flight (put_read (cKey x) e s))).
Proof.
  intros [F1 F2 F3 F4 F5 F6 F7] Hx Hf Hold Hr Hd Hb.
  assert (forall j y f, j <> id -> callers s !! j = Some y -> inFlight (cPhase y) = Some f -> cKey y <> cKey x) as Hne.
  { intros j y f _ Hy Hyf Hk. destruct (F1 j y f Hy Hyf) as (e0 & He & Hr0 & _). rewrite Hk in He.
    rewrite (Hold e0 He) in Hr0. done. }
  split; simpl.
  - intros j y f. destruct (decide (j = id)) as [->|Hj].
    + rewrite lookup_insert_eq. intros [= <-] [= <-]. simpl. exists e. by rewrite lookup_insert_eq.
    + rewrite lookup_insert_ne by done. intros Hy Hyf. destruct (F1 j y f Hy Hyf) as (e0 & He & ?).
      exists e0. rewrite lookup_insert_ne; [done|]. intros E. by apply (Hne j y f Hj Hy Hyf).
  - intros k e0. destruct (decide (k = cKey x)) as [->|Hk].
    + rewrite lookup_insert_eq. intros [= <-] _. exists id, (set_phase (Starting (flights s)) x).
      rewrite lookup_insert_eq. by rewrite Hd.
    + rewrite lookup_insert_ne by done. intros He Hr0. destruct (F2 k e0 He Hr0) as (j & y & Hy & Hyk & Hyf).
      exists j, y. rewrite lookup_insert_ne; [done|]. intros ->. simplify_eq.
  - intros i j y z f. destruct (decide (i = id)) as [->|Hi], (decide (j = id)) as [->|Hj]; [done|..];
      rewrite ?lookup_insert_eq, ?lookup_insert_ne by done.
    + intros [= <-] Hz [= <-] Hzf. destruct (F4 j z _ Hz Hzf). lia.
    + intros Hy [= <-] Hyf [= <-]. destruct (F4 i y _ Hy Hyf). lia.
    + eauto.
  - intros j y f. destruct (decide (j = id)) as [->|Hj].
    + rewrite lookup_insert_eq. intros [= <-] [= <-]. split; [lia|]. intros Hcl%F7. lia.
    + rewrite lookup_insert_ne by done. intros Hy Hyf. destruct (F4 j y f Hy Hyf). split; [lia|done].
  - intros j y f. destruct (decide (j = id)) as [->|Hj]; [by rewrite lookup_insert_eq; intros [= <-]|].
    rewrite lookup_insert_ne by done. intros Hy Hp.
    destruct (F5 j y f Hy Hp) as [?|(e0 & He & Hr0 & Hd0)]; [by left|right]. exists e0.
    rewrite lookup_insert_ne; [done|]. intros E. rewrite <- E in He. rewrite (Hold e0 He) in Hr0. done.
  - intros j y. destruct (decide (j = id)) as [->|Hj].
    + rewrite lookup_insert_eq. by intros [= <-].
    + rewrite lookup_insert_ne by done. apply F6.
  - intros f Hcl%F7. lia.
Qed.

(** A flight ends. *)
Lemma flights_finish id x x' f e s :
  flights_ok s -> callers s !! id = Some x -> inFlight (cPhase x) = Some f -> running e = false ->
  inFlight (cPhase x') = None -> (forall g, cPhase x' <> Waiting g) -> budget_ok x' ->
  flights_ok (put_caller id x' (close_flight f (put_read (cKey x) e s))).
Proof.
  intros [F1 F2 F3 F4 F5 F6 F7] Hx Hf He Hf' Hw Hb.
  destruct (F1 id x f Hx Hf) as (e0 & He0 & Hr0 & Hd0).
  assert (forall j y g, j <> id -> callers s !! j = Some y -> inFlight (cPhase y) = Some g ->
    cKey y <> cKey x /\ g <> f) as Hne.
  { intros j y g Hj Hy Hg. assert (g <> f) by (intros ->; by apply Hj, (F3 j id y x f)).
    split; [|done]. intros Hk. destruct (F1 j y g Hy Hg) as (e1 & He1 & _ & Hd1). rewrite Hk in He1. congruence. }
  split; simpl.
  - intros j y g. destruct (decide (j = id)) as [->|Hj]; [rewrite lookup_insert_eq; intros [= <-]; congruence|].
    rewrite lookup_insert_ne by done. intros Hy Hg. destruct (Hne j y g Hj Hy Hg), (F1 j y g Hy Hg) as (e1 & ? & ?).
    exists e1. by rewrite lookup_insert_ne.
  - intros k e1. destruct (decide (k = cKey x)) as [->|Hk].
    + rewrite lookup_insert_eq. intros [= <-]. congruence.
    + rewrite lookup_insert_ne by done. intros He1 Hr1. destruct (F2 k e1 He1 Hr1) as (j & y & Hy & Hyk & Hg).
      exists j, y. rewrite lookup_insert_ne; [done|]. intros ->. congruence.
  - intros i j y z g. destruct (decide (i = id)) as [->|Hi]; [rewrite lookup_insert_eq; intros [= <-]; congruence|].
    destruct (decide (j = id)) as [->|Hj]; [rewrite lookup_insert_eq; intros ? [= <-]; congruence|].
    rewrite !lookup_insert_ne by done. eauto.
  - intros j y g. destruct (decide (j = id)) as [->|Hj]; [rewrite lookup_insert_eq; intros [= <-]; congruence|].
    rewrite lookup_insert_ne by done. intros Hy Hg. destruct (F4 j y g Hy Hg), (Hne j y g Hj Hy Hg).
    split; [done|]. set_solver.
  - intros j y g. destruct (decide (j = id)) as [->|Hj].
    + rewrite lookup_insert_eq. intros [= <-] Hp. by destruct (Hw g).
    + rewrite lookup_insert_ne by done. intros Hy Hp. destruct (decide (g = f)) as [->|Hg]; [left; set_solver|].
      destruct (F5 j y g Hy Hp) as [?|(e1 & He1 & Hr1 & Hd1)]; [left; set_solver|right].
      exists e1. rewrite lookup_insert_ne; [done|]. intros E. rewrite <- E in He1. congruence.
  - intros j y. destruct (decide (j = id)) as [->|Hj].
    + rewrite lookup_insert_eq. by intros [= <-].
    + rewrite lookup_insert_ne by done. apply F6.
  - intros g [Hg|Hg]%elem_of_union; [by apply F7|]. apply elem_of_singleton in Hg as ->.
    by destruct (F4 id x f Hx Hf).
Qed.

Lemma default_not_running s k e0 :
  running (default newRead (reads s !! k)) = false -> reads s !! k = Some e0 -> running e0 = false.
Proof. intros H He. by rewrite He in H. Qed.

Section Run.
Context (order : gset string -> list string) (base : cache).

Lemma exec_check_flights id between ck s s' :
  flights_ok s -> exec order base (ACheck id between ck) s = Some s' -> flights_ok s'.
Proof.
  intros Hok H. simpl in H. destruct (callers s !! id) as [x|] eqn:Hx; [|done]. simpl in H.
  destruct (cPhase x) as [|cand| | | | | | |] eqn:Hp; try done.
  pose proof (fl_budget s Hok id x Hx) as Hb. unfold budget_ok in Hb. rewrite Hp in Hb.
  set (e := default newRead (reads s !! cKey x)) in *. set (s1 := add_trace between s) in *.
  pose proof (check_flight (breaker s) (cWatch x) (cMaxAge x) (cPasses x) cand (flights s) ck
    (cacheAt order base (trace s)) (cacheAt order base (trace s1)) e) as Hc.
  destruct (checkSection _ _ _ _ _ _ _ _ _ e) as [[e1 em] v].
  assert (flights_ok s1) as Hok1 by (by apply (flights_ext s)).
  assert (forall y, callers s1 !! id = Some y -> inFlight (cPhase y) = None) as Hold.
  { simpl. intros y Hy. simplify_eq. by rewrite Hp. }
  apply (inj Some) in H as <-. destruct v as [f|value p q| |err|].
  - destruct Hc as (-> & Hr & Hd). assert (reads s !! cKey x = Some e) as He.
    { subst e. by destruct (reads s !! cKey x). }
    assert (put_read (cKey x) e s1 = s1) as ->.
    { unfold put_read. simpl. rewrite insert_id by done. by destruct s. }
    apply flights_move; try done. intros g [= <-]. right. exists e. done.
  - destruct Hc as [Hr Hr']. apply flights_move; [|done|done|unfold budget_ok; simpl; lia|done].
    apply flights_read; [done| |done]. intros e0 He0. by eapply default_not_running.
  - destruct Hc as [Hr Hr']. apply flights_move; [|done|done|done|done].
    apply flights_read; [done| |done]. intros e0 He0. by eapply default_not_running.
  - destruct Hc as [Hr Hr']. apply flights_move; [|done|done|unfold budget_ok; simpl; lia|done].
    apply flights_read; [done| |done]. intros e0 He0. by eapply default_not_running.
  - destruct Hc as (Hr & Hr' & Hd). apply (flights_start id x e1 s1); try done.
    + by rewrite Hp.
    + intros e0 He0. by eapply default_not_running.
Qed.

Lemma exec_finish_flights id now cnow s s' :
  flights_ok s -> exec order base (AFinish id now cnow) s = Some s' -> flights_ok s'.
Proof.
  intros Hok H. simpl in H. destruct (callers s !! id) as [x|] eqn:Hx; [|done]. simpl in H.
  destruct (cPhase x) as [| | | | | |f start result write| |] eqn:Hp; try done.
  pose proof (fl_budget s Hok id x Hx) as Hb. unfold budget_ok in Hb. rewrite Hp in Hb.
  set (e := default newRead (reads s !! cKey x)) in *.
  pose proof (finish_flight (breaker s) (cWatch x) start result write now cnow (cacheAt order base (trace s)) e) as Hr.
  destruct (finishSection _ _ _ _ _ _ _ _ e) as [[e1 em] l]. simpl in Hr.
  apply (inj Some) in H as <-. destruct l as [v| |err]; [|destruct (cRecompute x) as [|n] eqn:Hrec|];
    (apply (flights_finish id x _ f); [done|done|by rewrite Hp|done|done|done|]);
    unfold budget_ok; simpl; lia.
Qed.

(** The caller a step is of, and its phase. *)
Ltac take_caller H :=
  simpl in H;
  match type of H with
  | context [callers ?s !! ?id] =>
      let x := fresh "x" in let Hx := fresh "Hx" in let Hp := fresh "Hp" in
      destruct (callers s !! id) as [x|] eqn:Hx; [|done];
      simpl in H; destruct (cPhase x) eqn:Hp; try done
  end.

(** Every step keeps the invariant. *)
Lemma exec_flights a s s' : flights_ok s -> exec order base a s = Some s' -> flights_ok s'.
Proof.
  intros Hok H.
  assert (forall id x, callers s !! id = Some x -> budget_ok x) as Hb by apply Hok. unfold budget_ok in Hb.
  assert (forall id x y, callers s !! id = Some x -> inFlight (cPhase x) = None ->
    callers s !! id = Some y -> inFlight (cPhase y) = None) as Hold by (intros; congruence).
  destruct a; [|..|exact (exec_finish_flights _ _ _ _ _ Hok H)| |].
  - simpl in H. destruct (callers s !! id) eqn:Hx; [done|]. apply (inj Some) in H as <-.
    apply flights_move; try done; [by rewrite Hx|..]; destruct (String.eqb key ""); try done.
    unfold budget_ok, semanticReadShadowMaxRecomputeCycles. simpl. lia.
  - take_caller H. specialize (Hb id x Hx). rewrite Hp in Hb.
    destruct (cWatch x); [destruct (_ && _)|]; apply (inj Some) in H as <-; apply flights_move; try done;
      try (intros y; apply (Hold id x y Hx); by rewrite Hp). by apply (flights_ext s).
  - exact (exec_check_flights _ _ _ _ _ Hok H).
  - take_caller H. specialize (Hb id x Hx). rewrite Hp in Hb. case_bool_decide; [|done].
    apply (inj Some) in H as <-. apply flights_move; try done. intros y. apply (Hold id x y Hx). by rewrite Hp.
  - take_caller H. specialize (Hb id x Hx). rewrite Hp in Hb. apply (inj Some) in H as <-.
    apply flights_move; try done; [intros y; apply (Hold id x y Hx); by rewrite Hp|].
    unfold budget_ok. simpl. lia.
  - take_caller H. specialize (Hb id x Hx). rewrite Hp in Hb. apply (inj Some) in H as <-.
    eapply (flights_within id x _ flight); try done. by rewrite Hp.
  - take_caller H; specialize (Hb id x Hx); rewrite Hp in Hb.
    + destruct result as [v|[code sup]], (cWatch x); apply (inj Some) in H as <-;
        try (eapply (flights_ext (put_caller id _ s)); [done..|]);
        (eapply (flights_within id x _ flight); [done|done|by rewrite Hp|done|done|]);
        unfold budget_ok; simpl; lia.
    + apply (inj Some) in H as <-. apply flights_move; try done.
      * intros y. apply (Hold id x y Hx). by rewrite Hp.
      * unfold budget_ok. simpl. lia.
  - take_caller H. specialize (Hb id x Hx). rewrite Hp in Hb. destruct (cWatch x) as [key|]; [|done].
    destruct (Write _ _) as [[c' r]|]; [|done]. simpl in H. apply (inj Some) in H as <-.
    eapply (flights_within id x _ flight); try done; [by apply (flights_ext s)|by rewrite Hp].
  - apply (inj Some) in H as <-. by apply (flights_ext s).
  - apply (inj Some) in H as <-. destruct Hok as [F1 F2 F3 F4 F5 F6 F7].
    set (b := normalizeSemanticReadCircuitBreakerOptions _ _ _).
    assert (forall e, running (resetBreaker b e) = running e /\ done (resetBreaker b e) = done e) as Hreset
      by (intros e; unfold resetBreaker; by destruct (enabled b)).
    split; simpl; try done.
    + intros id x f Hx Hf. destruct (F1 id x f Hx Hf) as (e & He & Hr & Hd). exists (resetBreaker b e).
      rewrite lookup_fmap, He. destruct (Hreset e) as [-> ->]. done.
    + intros k e0. rewrite lookup_fmap. destruct (reads s !! k) as [e|] eqn:He; [|done]. intros [= <-].
      destruct (Hreset e) as [-> ->]. by apply F2.
    + intros id x f Hx Hp. destruct (F5 id x f Hx Hp) as [?|(e & He & Hr & Hd)]; [by left|right].
      exists (resetBreaker b e). rewrite lookup_fmap, He. destruct (Hreset e) as [-> ->]. done.
Qed.

Lemma new_flights : flights_ok newSystem.
Proof. split; simpl; intros *; rewrite ?lookup_empty; done || set_solver. Qed.

Lemma execAll_flights acts : forall s s', flights_ok s -> execAll order base acts s = Some s' -> flights_ok s'.
Proof.
  induction acts as [|a acts IH]; intros s s' Hok H; simpl in H; [by simplify_eq|].
  destruct (exec order base a s) as [s1|] eqn:E; [|done]. eapply IH; [|exact H]. by eapply exec_flights.
Qed.

(** ** Progress *)

Lemma cacheAt_ok tr : cache_ok base -> cache_ok (cacheAt order base tr).
Proof.
  intros Hok. unfold cacheAt. destruct (run_spec order tr base Hok) as (c & L & -> & M & _).
  by eapply moves_ok.
Qed.

(** The steps of callers that are not cancelled. *)
Definition moving (a : action) : bool :=
  match a with
  | AConsult _ _ | ACheck _ _ _ | AWake _ | ACapture _ _ | AFetched _ _ | AWrite _ _ | AFinish _ _ _ => true
  | _ => false
  end.

(** The caller in [Writing] has a watch key. *)
Definition writing_ok (s : system) : Prop :=
  forall id x f start v, callers s !! id = Some x -> cPhase x = Writing f start v -> is_Some (cWatch x).

Lemma exec_writing a s s' : writing_ok s -> exec order base a s = Some s' -> writing_ok s'.
Proof.
  intros Hok H.
  assert (forall id x s1, callers s1 = callers s -> (forall f start v, cPhase x <> Writing f start v) ->
    writing_ok (put_caller id x s1)) as Hput.
  { intros id x s1 E Hn j y f start v. simpl. rewrite E. destruct (decide (j = id)) as [->|Hj].
    - rewrite lookup_insert_eq. intros [= <-] Hy. by destruct (Hn f start v).
    - rewrite lookup_insert_ne by done. apply Hok. }
  destruct a; try take_caller H; try (apply (inj Some) in H as <-; by apply Hput).
  - simpl in H. destruct (callers s !! id); [done|]. apply (inj Some) in H as <-. apply Hput; [done|].
    intros f start v. simpl. by destruct (String.eqb key "").
  - destruct (cWatch x); [destruct (_ && _)|]; apply (inj Some) in H as <-; by apply Hput.
  - destruct (checkSection _ _ _ _ _ _ _ _ _ _) as [[e1 em] v]. apply (inj Some) in H as <-.
    destruct v; by apply Hput.
  - case_bool_decide; [|done]. apply (inj Some) in H as <-. by apply Hput.
  - destruct result as [v|[code sup]], (cWatch x) as [key|] eqn:Hw; apply (inj Some) in H as <-; try by apply Hput.
    intros j y f st v'. simpl. destruct (decide (j = id)) as [->|Hj].
    + rewrite lookup_insert_eq. intros [= <-] _. simpl. by rewrite Hw.
    + rewrite lookup_insert_ne by done. apply Hok.
  - destruct (cWatch x); [|done]. destruct (Write _ _) as [[c' r]|]; [|done]. simpl in H.
    apply (inj Some) in H as <-. by apply Hput.
  - destruct (finishSection _ _ _ _ _ _ _ _ _) as [[e1 em] l]. apply (inj Some) in H as <-.
    destruct l; [|destruct (cRecompute x)|]; by apply Hput.
  - apply (inj Some) in H as <-. done.
  - apply (inj Some) in H as <-. done.
Qed.

Lemma execAll_writing acts : forall s s', writing_ok s -> execAll order base acts s = Some s' -> writing_ok s'.
Proof.
  induction acts as [|a acts IH]; intros s s' Hok H; simpl in H; [by simplify_eq|].
  destruct (exec order base a s) as [s1|] eqn:E; [|done]. eapply IH; [|exact H]. by eapply exec_writing.
Qed.

(** A caller that is neither back nor waiting can move. *)
Lemma caller_moves id x s :
  cache_ok base -> writing_ok s -> callers s !! id = Some x ->
  (forall r, cPhase x <> Returned r) -> (forall f, cPhase x <> Waiting f) ->
  exists a s', moving a = true /\ exec order base a s = Some s'.
Proof.
  intros Hbase Hw Hx Hr Hn. destruct (cPhase x) as [|cand|f|f|f start since|f start v|f start result write| |r] eqn:Hp.
  - exists (AConsult id 0). simpl. rewrite Hx. simpl. rewrite Hp.
    destruct (cWatch x); [destruct (_ && _)|]; eauto.
  - exists (ACheck id [] (mkClock 0 0 0 0 0 0 0)). simpl. rewrite Hx. simpl. rewrite Hp.
    destruct (checkSection _ _ _ _ _ _ _ _ _ _) as [[e1 em] v]. eauto.
  - by destruct (Hn f).
  - exists (ACapture id 0). simpl. rewrite Hx. simpl. rewrite Hp. eauto.
  - exists (AFetched id (inr (0, false))). simpl. rewrite Hx. simpl. rewrite Hp. destruct (cWatch x); eauto.
  - destruct (Hw id x f start v Hx Hp) as [key Hkey].
    destruct (Write_spec (mkWrite (Some key) ShadowWriteSourceActiveConfirmed "high_confidence" v 0 start)
      (cacheAt order base (trace s))) as (c' & r & HW & _); [by apply cacheAt_ok|].
    exists (AWrite id 0). unfold exec. rewrite Hx. cbn [mbind option_bind]. rewrite Hp, Hkey. cbv zeta.
    rewrite HW. cbn [mbind option_bind]. eauto.
  - exists (AFinish id 0 0). simpl. rewrite Hx. simpl. rewrite Hp.
    destruct (finishSection _ _ _ _ _ _ _ _ _) as [[e1 em] l]. eauto.
  - exists (AFetched id (inr (0, false))). simpl. rewrite Hx. simpl. rewrite Hp. eauto.
  - by destruct (Hr r).
Qed.

(** C26: Readers share one flight.  In every system that any interleaving of
    callers, other users of the shadow cache and reconfigurations can reach:
    two callers that are fetching the same key are one caller; a caller that
    waits waits for a channel that is closed or for a flight that another
    caller of the key is in; no call has fetched more than twice; and as long
    as some caller has not returned, some caller can move, without anything
    being cancelled. *)
Theorem single_flight (acts : list action) (s : system) :
  cache_ok base -> execAll order base acts newSystem = Some s ->
  (forall id1 id2 x1 x2, callers s !! id1 = Some x1 -> callers s !! id2 = Some x2 ->
     is_Some (inFlight (cPhase x1)) -> is_Some (inFlight (cPhase x2)) -> cKey x1 = cKey x2 -> id1 = id2)
  /\ (forall id x f, callers s !! id = Some x -> cPhase x = Waiting f ->
        f ∈ closed s \/ exists id' x', callers s !! id' = Some x' /\ cKey x' = cKey x
                          /\ inFlight (cPhase x') = Some f)
  /\ (forall id x, callers s !! id = Some x -> (cFetches x <= 2)%nat)
  /\ ((exists id x, callers s !! id = Some x /\ forall r, cPhase x <> Returned r) ->
      exists a s', moving a = true /\ exec order base a s = Some s').
Proof.
  intros Hbase Hrun. pose proof (execAll_flights acts newSystem s new_flights Hrun) as Hok.
  assert (writing_ok s) as Hw.
  { eapply execAll_writing; [|exact Hrun]. intros id x f start v. simpl. by rewrite lookup_empty. }
  assert (forall id x f, callers s !! id = Some x -> cPhase x = Waiting f ->
        f ∈ closed s \/ exists id' x', callers s !! id' = Some x' /\ cKey x' = cKey x
                          /\ inFlight (cPhase x') = Some f) as Hwait.
  { intros id x f Hx Hp. destruct (fl_waiting s Hok id x f Hx Hp) as [?|(e & He & Hr & <-)]; [by left|right].
    destruct (fl_running s Hok _ e He Hr) as (id' & x' & ? & ? & ?). by exists id', x'. }
  split; [|split; [done|split]].
  - intros id1 id2 x1 x2 H1 H2 [f1 Hf1] [f2 Hf2] Hk.
    destruct (fl_owner s Hok id1 x1 f1 H1 Hf1) as (e1 & He1 & _ & <-).
    destruct (fl_owner s Hok id2 x2 f2 H2 Hf2) as (e2 & He2 & _ & <-).
    rewrite Hk in He1. assert (e1 = e2) as -> by congruence. by apply (fl_unique s Hok id1 id2 x1 x2 (done e2)).
  - intros id x Hx. pose proof (fl_budget s Hok id x Hx) as Hb. unfold budget_ok in Hb.
    destruct (cPhase x); lia.
  - intros (id & x & Hx & Hnr). destruct (cPhase x) as [| |f| | | | | |] eqn:Hp;
      try (apply (caller_moves id x s Hbase Hw Hx); rewrite Hp; done).
    destruct (Hwait id x f Hx Hp) as [Hc|(id' & x' & Hx' & _ & Hf)].
    + exists (AWake id). simpl. rewrite Hx. simpl. rewrite Hp, bool_decide_true by done. eauto.
    + apply (caller_moves id' x' s Hbase Hw Hx'); intros r Hr; by rewrite Hr in Hf.
Qed.

End Run.

(** Two readers of one register: the second waits for the fetch of the
    first. *)
Definition demo_ck : clock := mkClock 12 12 12 12 12 12 12.
Definition demo_acts : list action :=
  [ AGet 0 "r" (Some demo_key) (5 * second); AGet 1 "r" (Some demo_key) (5 * second);
    AConsult 0 12; AConsult 1 12; ACheck 0 [] demo_ck; ACheck 1 [] demo_ck;
    ACapture 0 12; AFetched 0 (inl [0x15]) ].
Definition demo_sys : system :=
  Eval vm_compute in default newSystem (execAll elements (demo_fresh 0) demo_acts newSystem).

Lemma single_flight_witness :
  (cPhase <$> callers demo_sys !! 1%nat) = Some (Waiting 0)
  /\ exists a s', moving a = true /\ exec elements (demo_fresh 0) a demo_sys = Some s'.
Proof.
  split; [vm_compute; reflexivity|].
  apply (single_flight elements (demo_fresh 0) demo_acts demo_sys).
  - apply new_ok.
  - vm_compute. reflexivity.
  - exists 1%nat. eexists. split; [vm_compute; reflexivity|]. intros r. discriminate.
Defined.

End SchedulerInv.
