(* ===== verification/SchedulerFresh.v ===== *)
(** * The semantic read scheduler: what it serves

    The composition of the scheduler with the shadow cache.  Values of a
    watched register are tied to the generation the register had in the
    shadow cache when they were obtained, so that no invalidation is missed:
    over every interleaving, what a caller is given was obtained after the
    last invalidation that the check of the caller can see. *)

From S2P Require Import Prelude Ebus WatchCatalog FamilyPolicy ShadowCache ShadowInv ShadowSpec Scheduler SchedulerInv.

Local Open Scope Z_scope.

Module SchedulerFresh.
Import WatchCatalog FamilyPolicy ShadowCache ShadowInv ShadowSpec Scheduler SchedulerInv.

(** ** What the sections do to the value *)

Definition sameValue (e e' : entry) : Prop :=
  lastOK e' = lastOK e /\ lastOKHasGeneration e' = lastOKHasGeneration e
  /\ lastOKShadowGeneration e' = lastOKShadowGeneration e.

Lemma sameValue_refl e : sameValue e e.
Proof. done. Qed.
Lemma sameValue_trans e1 e2 e3 : sameValue e1 e2 -> sameValue e2 e3 -> sameValue e1 e3.
Proof. unfold sameValue. intros (-> & -> & ->). done. Qed.

Lemma transition_value b to e : sameValue e (fst (transitionBreakerLocked b to e)).
Proof. unfold transitionBreakerLocked. destruct (negb _); [done|]. destruct (bool_decide _); [done|]. by destruct to. Qed.

Lemma guard_value b now e : sameValue e (fst (fst (fst (guardBreakerLocked b now e)))).
Proof.
  unfold guardBreakerLocked. destruct (negb _); [done|]. destruct (breakerState e); [done| |].
  - destruct (_ || _); [|done].
    pose proof (transition_value b SemanticReadCircuitStateHalfOpen e) as H.
    by destruct (transitionBreakerLocked _ _ _) as [e1 t].
  - destruct (0 <? _); [done|].
    pose proof (transition_value b SemanticReadCircuitStateOpen e) as H.
    by destruct (transitionBreakerLocked _ _ _) as [e1 t].
Qed.

Lemma failure_value b now e : sameValue e (fst (recordFailureLocked b now e)).
Proof.
  unfold recordFailureLocked. destruct (negb _); [done|]. set (e1 := set_failures _ e).
  pose proof (transition_value b SemanticReadCircuitStateOpen e1) as H.
  destruct (transitionBreakerLocked b SemanticReadCircuitStateOpen e1) as [e2 t]. simpl in H.
  by destruct (breakerState e1); [destruct (_ <=? _)|done|destruct (0 <? _)].
Qed.

Lemma start_value b fresh now e :
  sameValue e (fst (fst (guardAndStart b fresh now e)))
  /\ forall v p q, snd (guardAndStart b fresh now e) <> Serve v p q.
Proof.
  unfold guardAndStart. pose proof (guard_value b now e) as Hg.
  destruct (guardBreakerLocked b now e) as [[[e2 t] sp] [err|]]; simpl in *; [done|].
  split; [|done]. by destruct (bool_decide _).
Qed.

(** The first section keeps the value of the entry, drops it, or takes the
    candidate; and what it serves carries the generation of the key. *)
Definition checkedEntry (cand : option candidate) (e e' : entry) : Prop :=
  sameValue e e' \/ lastOK e' = []
  \/ exists cd, cand = Some cd /\ lastOK e' = candValue cd /\ lastOKHasGeneration e' = true
       /\ lastOKShadowGeneration e' = candGeneration cd.
Definition servedNow (key : WatchKey) (cand : option candidate) (ck : clock) (c1 c2 : cache) (e : entry)
    (value : list byte) : Prop :=
  (exists cd, cand = Some cd /\ value = candValue cd
     /\ esGeneration (SnapshotEligibility (Some key) (ckCache1 ck) c1) = candGeneration cd)
  \/ (value = lastOK e /\ value <> []
      /\ (lastOKHasGeneration e = true ->
          esGeneration (SnapshotEligibility (Some key) (ckCache2 ck) c2) = lastOKShadowGeneration e)).

Lemma cached_value key maxAge ck c e :
  let '(e', v) := cachedValue (Some key) maxAge ck c e in
  (sameValue e e' \/ lastOK e' = [])
  /\ forall v', v = Some v' -> exists p q, v' = Serve (lastOK e) p q /\ lastOK e <> []
       /\ (lastOKHasGeneration e = true ->
           esGeneration (SnapshotEligibility (Some key) (ckCache2 ck) c) = lastOKShadowGeneration e).
Proof.
  unfold cachedValue. destruct (_ && _) eqn:Hlen; [|split; [by left|done]].
  assert (lastOK e <> []) as Hne.
  { intros E. rewrite E in Hlen. by apply andb_prop in Hlen as [Hlen _]. }
  cbv zeta. destruct ((0 <=? ckAge ck - lastOKAt e) && (ckAge ck - lastOKAt e <=? maxAge)); [|by split; [left|]].
  destruct (lastOKHasGeneration e) eqn:Hh; cbn [negb]; [|split; [by left|intros v' [= <-]; by do 2 eexists]].
  destruct (Z.eqb_spec (esGeneration (SnapshotEligibility (Some key) (ckCache2 ck) c)) (lastOKShadowGeneration e))
    as [Eg|Eg]; cbn [negb]; [|by split; [right|]].
  destruct (lastOKFromShadow e && _); [by split; [right|]|]. split; [by left|]. intros v' [= <-]. by do 2 eexists.
Qed.

Lemma check_value b key maxAge passes cand fresh ck c1 c2 e :
  let '(e', _, v) := checkSection b (Some key) maxAge passes cand fresh ck c1 c2 e in
  checkedEntry cand e e'
  /\ forall value p q, v = Serve value p q -> servedNow key cand ck c1 c2 e value.
Proof.
  unfold checkSection. destruct (running e); [split; [by left|done]|].
  assert (let '(e', _, v) :=
      (let '(e1, v) := cachedValue (Some key) maxAge ck c2 e in
       match v with Some v => (e1, [], v) | None => guardAndStart b fresh (ckGuard ck) e1 end) in
    checkedEntry cand e e' /\ forall value p q, v = Serve value p q -> servedNow key cand ck c1 c2 e value) as Hlater.
  { pose proof (cached_value key maxAge ck c2 e) as Hc.
    destruct (cachedValue _ _ _ _ e) as [e1 [v|]]; destruct Hc as [He Hv].
    - split; [unfold checkedEntry; tauto|]. intros value p q ->.
      destruct (Hv _ eq_refl) as (p' & q' & [= -> -> ->] & Hne & Hg). right. done.
    - destruct (start_value b fresh (ckGuard ck) e1) as [Hs Hn].
      destruct (guardAndStart b fresh (ckGuard ck) e1) as [[e2 em] v]. simpl in *.
      split; [|intros value p q ->; by destruct (Hn value p q)].
      destruct He as [He|He]; [left; by eapply sameValue_trans|right; left; by rewrite (proj1 Hs)]. }
  destruct cand as [cd|]; [|exact Hlater].
  destruct (revalidateSemanticReadShadowCandidate _ _ _ _ _ _) as [g|] eqn:Hr.
  - unfold revalidateSemanticReadShadowCandidate in Hr.
    destruct (Z.eqb_spec (esGeneration (SnapshotEligibility (Some key) (ckCache1 ck) c1)) (candGeneration cd)) as [Eg|];
      [|done]. simpl in Hr. destruct (negb _); [done|]. injection Hr as <-. split.
    + right. right. exists cd. split; [done|]. split; [done|]. split; [done|exact Eg].
    + intros value p q [= <- <- <-]. left. by exists cd.
  - destruct (0 <? passes)%nat; [split; [by left|done]|exact Hlater].
Qed.

(** The last section stores a value only with its generation in force. *)
Lemma finish_value b key start result write now cnow c e :
  let '(e', _, l) := finishSection b (Some key) start result write now cnow c e in
  match l with
  | Landed v =>
      result = inl v
      /\ esGeneration (SnapshotEligibility (Some key) cnow c) = expectedGeneration start write
      /\ lastOK e' = v /\ lastOKHasGeneration e' = true
      /\ lastOKShadowGeneration e' = expectedGeneration start write
  | Superseded => lastOK e' = []
  | Failed _ => sameValue e e'
  end.
Proof.
  assert (forall err, let '(e', _, l) :=
    (let e2 := set_err (Some err) (set_flight false (done e) e) in
      if isSuperseded err then
        let e3 := clearSemanticReadCacheLocked e2 in
        let e4 := if enabled b && bool_decide (breakerState e3 = SemanticReadCircuitStateHalfOpen)
                     && (halfOpenProbesRemaining e3 <? halfOpenProbeLimit b)
                  then set_probes (halfOpenProbesRemaining e3 + 1) e3 else e3 in
        (e4, [], Superseded)
      else
        let '(e3, t) := recordFailureLocked b now e2 in (e3, emits t None, Failed err)) in
    match l with Landed v => False | Superseded => lastOK e' = [] | Failed _ => sameValue e e' end) as Herr.
  { intros err. cbv zeta. destruct (isSuperseded err); [by destruct (_ && _)|].
    set (e2 := set_err _ _). pose proof (failure_value b now e2) as H.
    by destruct (recordFailureLocked _ _ _) as [e3 t]. }
  unfold finishSection. destruct result as [v|err].
  - destruct (Z.eqb_spec (esGeneration (SnapshotEligibility (Some key) cnow c)) (expectedGeneration start write))
      as [Eg|]; simpl.
    + set (e2 := set_failures 0 _). pose proof (transition_value b SemanticReadCircuitStateClosed e2) as H.
      destruct (transitionBreakerLocked _ _ _) as [e3 t]. simpl in H. destruct H as (H1 & H2 & H3).
      split; [done|]. split; [done|]. by rewrite H1, H2, H3.
    + specialize (Herr ErrSemanticReadSupersededInFlight). simpl in Herr. exact Herr.
  - specialize (Herr err). cbv zeta in Herr. destruct (isSuperseded err); [exact Herr|].
    destruct (recordFailureLocked _ _ _) as [e3 t]. exact Herr.
Qed.

(** ** Generations along the trace *)

(** An accepted write reports the generation its key has afterwards. *)
Lemma written_generation w key c c' r :
  cache_ok c -> wKey w = Some key -> Write w c = Some (c', r) -> Accepted r = true ->
  wrGeneration r = genOf (view c' (Canonical key)).
Proof.
  intros Hok Hkey HW Hacc. destruct (Write_spec w c Hok) as (c1 & r1 & E & M).
  assert (c1 = c') as -> by congruence. pose proof (moves_ok _ _ _ M Hok) as [_ Hk]. clear E M.
  specialize (Hk (Canonical key)).
  assert (exists e, entries c' !! Canonical key = Some e /\ wrGeneration r = enGeneration e) as (e & He & ->).
  { assert (forall d ttl p c0, commitWrite (Canonical key) w d ttl p c0 = (c', r) ->
      exists e, entries c' !! Canonical key = Some e /\ wrGeneration r = enGeneration e) as Hcommit.
    { intros d ttl p c0 H. unfold commitWrite in H. injection H as <- <-.
      destruct (entries _ !! Canonical key) as [e|]; [|done]. by exists e. }
    unfold Write in HW. rewrite Hkey in HW. cbv zeta in HW.
    repeat match type of HW with
    | Some (commitWrite _ _ _ _ _ _) = _ => fail 1
    | context [match ?x with _ => _ end] => destruct x
    end; try done; apply (inj Some) in HW; try (by eapply Hcommit); injection HW as _ <-; done. }
  unfold view in *. rewrite He in Hk. unfold genOf. simpl in *.
  destruct (keyState c' !! Canonical key); [|done]. symmetry. apply Hk.
Qed.

Section Runs.
Context (order : gset string -> list string) (o : ShadowCacheOptions)
  (flags : option ObserveFirstFeatureFlagView) (k0 : option WatchCatalog.WatchCatalog)
  (a0 : option WatchActivationSet) (t0 : time).

Notation fresh := (NewShadowCache order o flags k0 a0 t0).
Notation at_ := (cacheAt order fresh).

Lemma cacheAt_run tr : run order tr fresh = Some (at_ tr).
Proof. destruct (reach order o flags k0 a0 t0 tr) as (c & E & _). unfold cacheAt. by rewrite E. Qed.
Lemma fresh_ok tr : cache_ok (at_ tr).
Proof. apply cacheAt_ok, new_ok. Qed.

Lemma shadowRun_app os1 os2 c : run order (os1 ++ os2) c = run order os1 c ≫= run order os2.
Proof.
  revert c. induction os1 as [|x os1 IH]; intros c; [done|]. cbn [run app].
  destruct (step order x c); [|done]. apply IH.
Qed.
Lemma cacheAt_app tr os : run order os (at_ tr) = Some (at_ (tr ++ os)).
Proof. pose proof (cacheAt_run (tr ++ os)) as H. rewrite shadowRun_app, cacheAt_run in H. exact H. Qed.

Lemma runWeight_app os1 os2 : runWeight (os1 ++ os2) = (runWeight os1 + runWeight os2)%nat.
Proof. unfold runWeight. rewrite fmap_app. apply sum_list_with_app. Qed.

(** The register under consideration: the key of the scheduler and the
    watch key of the shadow cache. *)
Context (register : string) (key : WatchKey).

Definition genAt (tr : list op) : Z := genOf (view (at_ tr) (Canonical key)).

(** No invalidation of the register between two positions. *)
Definition untouched (n m : nat) (tr : list op) : Prop :=
  forall i now, OpInvalidate i now ∈ drop n (take m tr) -> Canonical <$> iKey i <> Some (Canonical key).

(** Few enough operations that generations do not come round. *)
Definition light (tr : list op) : Prop := 2 * Z.of_nat (runWeight tr) < 2 ^ 64.

Lemma light_take n tr : light tr -> light (take n tr).
Proof. unfold light. rewrite <- (take_drop n tr) at 1. rewrite runWeight_app. lia. Qed.

Lemma same_generation_untouched tr1 os :
  light os -> genAt (tr1 ++ os) = genAt tr1 ->
  forall i now, OpInvalidate i now ∈ os -> Canonical <$> iKey i <> Some (Canonical key).
Proof.
  intros Hl Hg i now Hin Hk. unfold genAt in Hg. set (k := Canonical key) in *.
  pose proof (cacheAt_app tr1 os) as Hrun.
  destruct (run_induction order k (counted (genOf (view (at_ tr1) k))) os (at_ tr1) (at_ (tr1 ++ os)) [])
    as (L & (n & Hn & E) & Hv & Hlen & _); [intros H L v v'; apply counted_step|apply fresh_ok|done| |].
  { exists 0. simpl. split; [unfold countb; simpl; lia|]. f_equal. lia. }
  simpl in Hn. rewrite Hg in E. unfold light in Hl.
  pose proof (invalidation_label order os _ _ k i now Hrun Hin Hk) as Hlb. rewrite <- Hv in Hlb.
  apply elem_of_filterb in Hlb as [Hlb _].
  assert (0 < countb isInvalidate L)%nat.
  { unfold countb. assert (LInvalidate (invalidationTime i now) ∈ List.filter isInvalidate L) as Hx
      by (by apply elem_of_filterb). destruct (List.filter isInvalidate L); simpl; [set_solver|lia]. }
  apply (u64_no_return (genOf (view (at_ tr1) k)) n); [lia|done].
Qed.

(** Equal generations at two positions: nothing in between. *)
Lemma untouched_generation n m tr :
  light tr -> (n <= m)%nat -> genAt (take m tr) = genAt (take n tr) -> untouched n m tr.
Proof.
  intros Hl Hnm Hg. unfold untouched.
  assert (take m tr = take n tr ++ drop n (take m tr)) as E.
  { rewrite <- (take_drop n (take m tr)) at 1. by rewrite take_take, Nat.min_l. }
  rewrite E in Hg. eapply same_generation_untouched; [|exact Hg].
  apply (light_take m) in Hl. unfold light in *. rewrite <- (take_drop n (take m tr)), runWeight_app in Hl. lia.
Qed.

Lemma untouched_trans n m l tr :
  (n <= m)%nat -> (m <= l)%nat -> untouched n m tr -> untouched m l tr -> untouched n l tr.
Proof.
  intros H1 H2 Hn Hm i now Hin. assert (drop n (take l tr) = drop n (take m tr) ++ drop m (take l tr)) as E.
  { rewrite <- (take_drop m (take l tr)) at 1. rewrite take_take, Nat.min_l by done.
    destruct (decide (m <= length tr)%nat) as [Hlen|Hlen].
    - rewrite drop_app_le; [done|]. rewrite length_take. lia.
    - rewrite (drop_ge (take l tr) m) by (rewrite length_take; lia). by rewrite !app_nil_r. }
  rewrite E in Hin. apply elem_of_app in Hin as [Hin|Hin]; [by eapply Hn|by eapply Hm].
Qed.

Lemma untouched_grow n m tr os : (m <= length tr)%nat -> untouched n m tr -> untouched n m (tr ++ os).
Proof. intros Hm. unfold untouched. by rewrite take_app_le. Qed.

(** ** Where values come from *)

(** A value of the register obtained at a position: a fetch that began
    there, or the value the last write left in the shadow cache. *)
Definition obtained (tr : list op) (log : list (string * nat * list byte)) (v : list byte) (n : nat) : Prop :=
  (register, n, v) ∈ log
  \/ exists w, last (runLabels order (take n tr) fresh (Canonical key)) = Some (LWrite w) /\ wValue w = v.

(** A value with its generation: obtained, and not invalidated up to a
    position that has the generation. *)
Definition tracked (tr : list op) (log : list (string * nat * list byte)) (v : list byte) (g : Z) : Prop :=
  exists n m, (n <= m)%nat /\ (m <= length tr)%nat /\ obtained tr log v n /\ untouched n m tr
    /\ genAt (take m tr) = g.

Lemma tracked_grow tr log os more v g : tracked tr log v g -> tracked (tr ++ os) (log ++ more) v g.
Proof.
  intros (n & m & Hnm & Hm & Ho & Hu & Hg). exists n, m. split; [done|]. rewrite length_app. split; [lia|].
  split; [|split; [by apply untouched_grow|by rewrite take_app_le]].
  destruct Ho as [Ho|Ho]; [left; set_solver|right]. by rewrite take_app_le by lia.
Qed.

(** A generation that is still in force: nothing since. *)
Lemma tracked_current tr os log v g look :
  light (tr ++ os) -> tracked tr log v g -> (length tr <= look)%nat -> (look <= length (tr ++ os))%nat ->
  genAt (take look (tr ++ os)) = g ->
  exists n, (n <= look)%nat /\ obtained (tr ++ os) log v n /\ untouched n look (tr ++ os).
Proof.
  intros Hl Ht Hlen Hlook Hg. destruct Ht as (n & m & Hnm & Hm & Ho & Hu & Hg'). exists n. split; [lia|]. split.
  - destruct Ho as [Ho|Ho]; [by left|right]. by rewrite take_app_le by lia.
  - apply (untouched_trans n m look); [done|lia|by apply untouched_grow|].
    apply untouched_generation; [done|lia|]. by rewrite Hg, (take_app_le tr) by done.
Qed.

(** ** The invariant *)

Definition value_ok (tr : list op) (log : list (string * nat * list byte)) (e : entry) : Prop :=
  lastOK e = [] \/ (lastOKHasGeneration e = true /\ tracked tr log (lastOK e) (lastOKShadowGeneration e)).

Definition phase_ok (tr : list op) (log : list (string * nat * list byte)) (p : phase) : Prop :=
  match p with
  | Checking (Some cd) => tracked tr log (candValue cd) (candGeneration cd)
  | Fetching _ start since => (since <= length tr)%nat /\ genAt (take since tr) = start
  | Writing _ start v =>
      exists since, (since <= length tr)%nat /\ genAt (take since tr) = start /\ (register, since, v) ∈ log
  | Finishing _ start (inl v) write => tracked tr log v (expectedGeneration start write)
  | _ => True
  end.

Record current (s : system) : Prop := mkCurrent {
  cu_watch id x : callers s !! id = Some x -> cKey x = register ->
    cWatch x = Some key /\ cPhase x <> Direct /\ phase_ok (trace s) (fetchLog s) (cPhase x);
  cu_read e : reads s !! register = Some e -> value_ok (trace s) (fetchLog s) e
}.

Lemma value_ok_grow tr log os more e : value_ok tr log e -> value_ok (tr ++ os) (log ++ more) e.
Proof. intros [H|[H1 H2]]; [by left|right]. split; [done|by apply tracked_grow]. Qed.

Lemma phase_ok_grow tr log os more p : phase_ok tr log p -> phase_ok (tr ++ os) (log ++ more) p.
Proof.
  destruct p as [|[cd|]| | |f start since|f start v|f start [v|] write| |]; simpl; try done.
  - apply tracked_grow.
  - rewrite length_app. intros [H1 H2]. split; [lia|]. by rewrite take_app_le.
  - rewrite length_app. intros (since & H1 & H2 & H3). exists since. rewrite take_app_le by done.
    split; [lia|]. split; [done|set_solver].
  - apply tracked_grow.
Qed.

Lemma value_ok_same tr log e e' : sameValue e e' -> value_ok tr log e -> value_ok tr log e'.
Proof. unfold value_ok. by intros (-> & -> & ->). Qed.

(** It only speaks of the entries, the callers, the trace and the log, and
    the last two may grow. *)
Lemma current_grow os more s s' :
  reads s' = reads s -> callers s' = callers s -> trace s' = trace s ++ os ->
  fetchLog s' = fetchLog s ++ more -> current s -> current s'.
Proof.
  intros E1 E2 E3 E4 [C1 C2]. split; rewrite ?E3, ?E4.
  - intros id x Hx Hk. rewrite E2 in Hx. destruct (C1 id x Hx Hk) as (H1 & H2 & H3).
    split; [done|]. split; [done|]. by apply phase_ok_grow.
  - intros e He. rewrite E1 in He. by apply value_ok_grow, C2.
Qed.
Lemma current_same s s' :
  reads s' = reads s -> callers s' = callers s -> trace s' = trace s -> fetchLog s' = fetchLog s ->
  current s -> current s'.
Proof. intros. eapply (current_grow [] []); rewrite ?app_nil_r; eauto. Qed.

Lemma current_put id x s :
  current s ->
  (cKey x = register -> cWatch x = Some key /\ cPhase x <> Direct /\ phase_ok (trace s) (fetchLog s) (cPhase x)) ->
  current (put_caller id x s).
Proof.
  intros [C1 C2] Hx. split; simpl; [|done]. intros j y. destruct (decide (j = id)) as [->|Hj].
  - rewrite lookup_insert_eq. intros [= <-]. exact Hx.
  - rewrite lookup_insert_ne by done. apply C1.
Qed.
Lemma current_read k e s :
  current s -> (k = register -> value_ok (trace s) (fetchLog s) e) -> current (put_read k e s).
Proof.
  intros [C1 C2] He. split; simpl; [done|]. intros e0. destruct (decide (register = k)) as [<-|Hj].
  - rewrite lookup_insert_eq. intros [= <-]. by apply He.
  - rewrite lookup_insert_ne by done. apply C2.
Qed.

Lemma entry_value s : current s -> value_ok (trace s) (fetchLog s) (default newRead (reads s !! register)).
Proof. intros [_ C2]. destruct (reads s !! register) as [e|] eqn:He; [by apply C2|by left]. Qed.

(** The register is read with its watch key. *)
Definition watched (a : action) : Prop :=
  match a with AGet _ k w _ => k = register -> w = Some key | _ => True end.

(** A caller of the register moves to a phase that holds. *)
Lemma current_move id x p s s1 :
  current s -> current s1 -> callers s !! id = Some x -> p <> Direct ->
  (cKey x = register -> phase_ok (trace s1) (fetchLog s1) p) -> current (put_caller id (set_phase p x) s1).
Proof.
  intros Hc Hc1 Hx Hd Hp. apply current_put; [done|]. intros Hk. destruct (cu_watch s Hc id x Hx Hk) as (Hw & _ & _).
  split; [done|]. split; [done|]. by apply Hp.
Qed.

(** A candidate is the value of the last write, with the generation of the
    key. *)
Lemma consult_tracked tr log maxAge now cd :
  snd (consultSemanticReadShadow key maxAge now (at_ tr)) = Some cd ->
  tracked tr log (candValue cd) (candGeneration cd).
Proof.
  unfold consultSemanticReadShadow. destruct (maxAge <=? 0); [done|].
  destruct (Lookup (Some key) maxAge now (at_ tr)) as [c1 r] eqn:HL. cbn [snd].
  destruct (lrEntry r) as [e|] eqn:He; [|done]. destruct (Eligible r) eqn:Hel; [|done]. simpl.
  case_bool_decide; [|done]. simpl. intros [= <-]. simpl.
  destruct (lookup_written order o flags k0 a0 t0 tr (at_ tr) c1 key maxAge now r (cacheAt_run tr) HL Hel)
    as (e' & w & He' & Hlast & (Hv & _) & Hg & _).
  assert (e' = e) as -> by congruence. exists (length tr), (length tr).
  split; [done|]. split; [done|]. split; [right; exists w; by rewrite take_ge|].
  split; [|unfold genAt; by rewrite take_ge].
  intros i now' Hin. rewrite drop_ge in Hin by (rewrite length_take; lia). by apply not_elem_of_nil in Hin.
Qed.

(** The value that was fetched and offered to the shadow cache. *)
Lemma write_tracked tr log since start v now c' r w :
  light (tr ++ [OpWrite w]) -> (since <= length tr)%nat -> genAt (take since tr) = start ->
  (register, since, v) ∈ log ->
  w = mkWrite (Some key) ShadowWriteSourceActiveConfirmed "high_confidence" v now start ->
  Write w (at_ tr) = Some (c', r) ->
  tracked (tr ++ [OpWrite w]) log v (expectedGeneration start (Some r)).
Proof.
  intros Hl Hs Hg Hlog Hw HW. set (tr' := tr ++ [OpWrite w]) in *. unfold expectedGeneration.
  destruct (Accepted r) eqn:Hacc.
  - assert (genAt tr = start) as Hnow.
    { pose proof (accepted_generation w key (at_ tr) c' r (fresh_ok tr)) as Ha. unfold genAt.
      rewrite <- Ha; subst w; done. }
    assert (c' = at_ tr') as ->.
    { pose proof (cacheAt_app tr [OpWrite w]) as E. simpl in E. rewrite HW in E. simpl in E. by injection E. }
    exists since, (length tr'). split; [subst tr'; rewrite length_app; lia|]. split; [done|]. split; [by left|]. split.
    + apply (untouched_trans since (length tr) (length tr')); [done|subst tr'; rewrite length_app; lia|..].
      * apply untouched_grow; [done|]. apply untouched_generation; [|done|rewrite take_ge by done; congruence].
        apply (light_take (length tr)) in Hl. subst tr'. by rewrite take_app_length in Hl.
      * intros i n Hin. subst tr'. rewrite take_ge, drop_app_length in Hin by done.
        by apply list_elem_of_singleton in Hin.
    + rewrite take_ge by done. symmetry. unfold genAt. eapply (written_generation w); [apply fresh_ok|by subst w|exact HW|done].
  - exists since, since. split; [done|]. split; [subst tr'; rewrite length_app; lia|]. split; [by left|]. split.
    + intros i n Hin. rewrite drop_ge in Hin by (rewrite length_take; lia). by apply not_elem_of_nil in Hin.
    + subst tr'. by rewrite take_app_le.
Qed.

Lemma exec_check_current id between ck s s' :
  current s -> exec order fresh (ACheck id between ck) s = Some s' -> current s'.
Proof.
  intros Hc H. unfold exec in H. destruct (callers s !! id) as [x|] eqn:Hx; [|done].
  cbn [mbind option_bind] in H. destruct (cPhase x) as [|cand| | | | | | |] eqn:Hp; try done. cbv zeta in H.
  set (e := default newRead (reads s !! cKey x)) in *. set (s1 := add_trace between s) in *.
  assert (current s1) as Hc1 by (apply (current_grow between [] s); rewrite ?app_nil_r; done).
  assert (cKey x = register -> let '(e', _, _) := checkSection (breaker s) (cWatch x) (cMaxAge x) (cPasses x) cand
    (flights s) ck (at_ (trace s)) (at_ (trace s1)) e in value_ok (trace s1) (fetchLog s1) e') as Hv.
  { intros Hk. destruct (cu_watch s1 Hc1 id x Hx Hk) as (Hw & _ & Hph). clear H. rewrite Hw.
    pose proof (check_value (breaker s) key (cMaxAge x) (cPasses x) cand (flights s) ck (at_ (trace s))
      (at_ (trace s1)) e) as Hcv.
    destruct (checkSection _ _ _ _ _ _ _ _ _ e) as [[e1 em] v]. destruct Hcv as [[He|[He|He]] _].
    - eapply value_ok_same; [exact He|]. subst e. rewrite Hk. by apply (entry_value s1).
    - by left.
    - destruct He as (cd & -> & E1 & E2 & E3). right. rewrite E1, E3. rewrite Hp in Hph. done. }
  destruct (checkSection _ _ _ _ _ _ _ _ _ e) as [[e1 em] v].
  assert (current (put_read (cKey x) e1 s1)) as Hc2 by (by apply current_read).
  apply (inj Some) in H as <-. destruct v; (eapply (current_move id x _ s); [done| |done|done|done]); try done.
  by apply (current_same (put_read (cKey x) e1 s1)).
Qed.

Lemma exec_finish_current id now cnow s s' :
  light (trace s) -> current s -> exec order fresh (AFinish id now cnow) s = Some s' -> current s'.
Proof.
  intros Hl Hc H. unfold exec in H. destruct (callers s !! id) as [x|] eqn:Hx; [|done].
  cbn [mbind option_bind] in H. destruct (cPhase x) as [| | | | | |f start result write| |] eqn:Hp; try done. cbv zeta in H.
  set (e := default newRead (reads s !! cKey x)) in *.
  assert (cKey x = register -> let '(e', _, _) := finishSection (breaker s) (cWatch x) start result write now cnow
    (at_ (trace s)) e in value_ok (trace s) (fetchLog s) e') as Hv.
  { intros Hk. destruct (cu_watch s Hc id x Hx Hk) as (Hw & _ & Hph). clear H. rewrite Hw. rewrite Hp in Hph.
    pose proof (finish_value (breaker s) key start result write now cnow (at_ (trace s)) e) as Hf.
    destruct (finishSection _ _ _ _ _ _ _ _ e) as [[e1 em] [v| |err]].
    - destruct Hf as (-> & _ & E1 & E2 & E3). right. by rewrite E1, E3.
    - by left.
    - eapply value_ok_same; [exact Hf|]. subst e. rewrite Hk. by apply entry_value. }
  destruct (finishSection _ _ _ _ _ _ _ _ e) as [[e1 em] l].
  set (s1 := close_flight f (put_read (cKey x) e1 s)) in *.
  assert (current s1) as Hc1.
  { apply (current_same (put_read (cKey x) e1 s)); try done. by apply current_read. }
  apply (inj Some) in H as <-. destruct l as [v| |err]; [|destruct (cRecompute x)|];
    try (by eapply (current_move id x _ s)).
  apply current_put; [done|]. intros Hk. destruct (cu_watch s Hc id x Hx Hk) as (Hw & _). done.
Qed.

Context (register_set : register <> "").

Lemma exec_fetched_current id result s s' :
  current s -> exec order fresh (AFetched id result) s = Some s' -> current s'.
Proof.
  intros Hc H.
  unfold exec in H. destruct (callers s !! id) as [x|] eqn:Hx; [|done]. cbn [mbind option_bind] in H.
  destruct (cPhase x) as [| | | |f start since| | | |] eqn:Hp; try done.
  + assert (forall y s1, current s1 -> cKey y = cKey x -> cWatch y = cWatch x -> cPhase y <> Direct ->
      (cKey x = register -> phase_ok (trace s1) (fetchLog s1) (cPhase y)) -> current (put_caller id y s1)) as Hput.
    { intros y s1 Hc1 Ek Ew Hd Hph. apply current_put; [done|]. rewrite Ek, Ew. intros Hk.
      destruct (cu_watch s Hc id x Hx Hk) as (Hw & _). auto. }
    destruct result as [v|[code sup]].
    * set (r := (cKey x, since, v)) in *.
      assert (current (log_fetch r s)) as Hc1 by (apply (current_grow [] [r] s); rewrite ?app_nil_r; done).
      destruct (cWatch x) as [key'|] eqn:Hw; apply (inj Some) in H as <-.
      -- apply (current_same (put_caller id (set_phase (Writing f start v) (count_fetch x)) (log_fetch r s))); try done.
         apply Hput; [done|done|by rewrite <- Hw|done|]. intros Hk. destruct (cu_watch s Hc id x Hx Hk) as (_ & _ & Hph).
         rewrite Hp in Hph. simpl in *. exists since. split; [apply Hph|]. split; [apply Hph|].
         subst r. rewrite Hk. set_solver.
      -- apply (current_same (put_caller id (set_phase (Finishing f start (inl v) None) (count_fetch x)) (log_fetch r s)));
           try done.
         apply Hput; [done|done|by rewrite <- Hw|done|]. intros Hk. destruct (cu_watch s Hc id x Hx Hk) as (Hw' & _).
         congruence.
    * apply (inj Some) in H as <-. by apply Hput.
  + apply (inj Some) in H as <-. apply current_put; [done|]. simpl. intros Hk.
    destruct (cu_watch s Hc id x Hx Hk) as (? & Hd & _). done.
Qed.

Lemma exec_write_current id now s s' :
  light (trace s') -> current s -> exec order fresh (AWrite id now) s = Some s' -> current s'.
Proof.
  intros Hl Hc H.
  unfold exec in H. destruct (callers s !! id) as [x|] eqn:Hx; [|done]. cbn [mbind option_bind] in H.
  destruct (cPhase x) as [| | | | |f start v| | |] eqn:Hp; try done.
  destruct (cWatch x) as [key'|] eqn:Hw; [|done]. cbv zeta in H. set (w := mkWrite _ _ _ _ _ _) in *.
  destruct (Write w (at_ (trace s))) as [[c' r]|] eqn:HW; [|done]. cbn [mbind option_bind] in H.
  apply (inj Some) in H as <-. set (s1 := add_trace [OpWrite w] s) in *.
  assert (current s1) as Hc1 by (apply (current_grow [OpWrite w] [] s); rewrite ?app_nil_r; done).
  eapply (current_move id x _ s); try done. intros Hk. destruct (cu_watch s Hc id x Hx Hk) as (Hw' & _ & Hph).
  rewrite Hp in Hph. destruct Hph as (since & Hs & Hg & Hlog). assert (key' = key) as -> by congruence.
  assert (tracked (trace s1) (fetchLog s1) v (expectedGeneration start (Some r))) as Ht
    by (by eapply (write_tracked (trace s))).
  cbn [phase_ok]. destruct (afterWrite v r) as [v'|] eqn:Ea; [|done].
  assert (v' = v) as -> by (unfold afterWrite in Ea; destruct (Accepted r); [congruence|]; destruct (Reason r); congruence).
  done.
Qed.

Lemma exec_current a s s' :
  watched a -> light (trace s') -> current s -> exec order fresh a s = Some s' -> current s'.
Proof.
  intros Hwa Hl Hc H. destruct a as [id k w maxAge|id now|id between ck|id|id|id cnow|id result|id now|id now cnow|op|b c l].
  - unfold exec in H. destruct (callers s !! id); [done|]. apply (inj Some) in H as <-. apply current_put; [done|].
    simpl. intros ->. split; [by apply Hwa|]. destruct (String.eqb_spec register ""); done.
  - unfold exec in H. destruct (callers s !! id) as [x|] eqn:Hx; [|done]. cbn [mbind option_bind] in H.
    destruct (cPhase x) eqn:Hp; try done.
    destruct (cWatch x) as [key'|] eqn:Hw; [destruct (_ && _)|]; apply (inj Some) in H as <-;
      try (by eapply (current_move id x _ s)).
    set (s1 := add_trace _ s). assert (current s1) as Hc1
      by (eapply (current_grow [OpLookup (Some key') (cMaxAge x) now] [] s); rewrite ?app_nil_r; done).
    apply current_put; [done|]. simpl. intros Hk. destruct (cu_watch s Hc id x Hx Hk) as (Hw' & _).
    split; [done|]. split; [done|]. assert (key' = key) as -> by congruence.
    destruct (snd (consultSemanticReadShadow key (cMaxAge x) now (at_ (trace s)))) as [cd|] eqn:Hcd; [|done].
    rewrite <- (app_nil_r (fetchLog s)). by eapply tracked_grow, consult_tracked.
  - by eapply exec_check_current.
  - unfold exec in H. destruct (callers s !! id) as [x|] eqn:Hx; [|done]. cbn [mbind option_bind] in H.
    destruct (cPhase x) eqn:Hp; try done. case_bool_decide; [|done]. apply (inj Some) in H as <-.
    by eapply (current_move id x _ s).
  - unfold exec in H. destruct (callers s !! id) as [x|] eqn:Hx; [|done]. cbn [mbind option_bind] in H.
    destruct (cPhase x) eqn:Hp; try done. apply (inj Some) in H as <-. by eapply (current_move id x _ s).
  - unfold exec in H. destruct (callers s !! id) as [x|] eqn:Hx; [|done]. cbn [mbind option_bind] in H.
    destruct (cPhase x) eqn:Hp; try done. apply (inj Some) in H as <-. eapply (current_move id x _ s); try done.
    intros Hk. destruct (cu_watch s Hc id x Hx Hk) as (-> & _). cbn [phase_ok]. split; [done|].
    rewrite snapshot_generation by apply fresh_ok. cbn [trace]. unfold genAt. by rewrite take_ge.
  - by eapply exec_fetched_current.
  - by eapply exec_write_current.
  - eapply exec_finish_current; [|exact Hc|exact H]. unfold exec in H.
    destruct (callers s !! id) as [x|] eqn:Hx; [|done]. cbn [mbind option_bind] in H.
    destruct (cPhase x); try done. destruct (finishSection _ _ _ _ _ _ _ _ _) as [[e1 em] l].
    apply (inj Some) in H as <-. by destruct l; [|destruct (cRecompute x)|].
  - apply (inj Some) in H as <-. apply (current_grow [op] [] s); rewrite ?app_nil_r; done.
  - apply (inj Some) in H as <-. destruct Hc as [C1 C2]. split; simpl; [done|]. intros e0. rewrite lookup_fmap.
    destruct (reads s !! register) as [e|] eqn:He; [|done]. intros [= <-].
    eapply value_ok_same; [|by apply C2]. unfold resetBreaker. by destruct (enabled _).
Qed.

Lemma exec_trace a s s' : exec order fresh a s = Some s' -> exists os, trace s' = trace s ++ os.
Proof.
  assert (forall s1 : system, trace s1 = trace s -> exists os, trace s1 = trace s ++ os) as Hsame
    by (intros s1 ->; exists []; by rewrite app_nil_r).
  intros H. destruct a as [id k w maxAge|id now|id between ck|id|id|id cnow|id result|id now|id now cnow|op|b c l];
    unfold exec in H;
    try (destruct (callers s !! id) as [x|] eqn:Hx; [|done || (apply (inj Some) in H as <-; by apply Hsame)];
         cbn [mbind option_bind] in H; try destruct (cPhase x); try done).
  - destruct (cWatch x); [destruct (_ && _)|]; apply (inj Some) in H as <-; first [by apply Hsame | by eexists].
  - destruct (checkSection _ _ _ _ _ _ _ _ _ _) as [[e1 em] v]. apply (inj Some) in H as <-.
    destruct v; by eexists.
  - case_bool_decide; [|done]. apply (inj Some) in H as <-. by apply Hsame.
  - apply (inj Some) in H as <-. by apply Hsame.
  - apply (inj Some) in H as <-. by apply Hsame.
  - destruct result as [v|[code sup]], (cWatch x); apply (inj Some) in H as <-; by apply Hsame.
  - apply (inj Some) in H as <-. by apply Hsame.
  - destruct (cWatch x); [|done]. cbv zeta in H. destruct (Write _ _) as [[c' r]|]; [|done].
    apply (inj Some) in H as <-. by eexists.
  - destruct (finishSection _ _ _ _ _ _ _ _ _) as [[e1 em] l]. apply (inj Some) in H as <-.
    destruct l; [|destruct (cRecompute x)|]; by apply Hsame.
  - apply (inj Some) in H as <-. by eexists.
  - apply (inj Some) in H as <-. by apply Hsame.
Qed.

(** The steps that return a value to a caller. *)
Lemma exec_returned a s s' id x x' v :
  exec order fresh a s = Some s' -> callers s !! id = Some x -> (forall r, cPhase x <> Returned r) ->
  callers s' !! id = Some x' -> cPhase x' = Returned (inl v) ->
  (cPhase x = Direct /\ cKey x' = cKey x)
  \/ (exists between ck cand e1 em p q, cPhase x = Checking cand /\ cKey x' = cKey x
       /\ checkSection (breaker s) (cWatch x) (cMaxAge x) (cPasses x) cand (flights s) ck
            (at_ (trace s)) (at_ (trace s ++ between)) (default newRead (reads s !! cKey x))
          = (e1, em, Serve v p q)
       /\ trace s' = trace s ++ between /\ fetchLog s' = fetchLog s)
  \/ (exists f start result write now cnow e1 em, cPhase x = Finishing f start result write /\ cKey x' = cKey x
       /\ finishSection (breaker s) (cWatch x) start result write now cnow (at_ (trace s))
            (default newRead (reads s !! cKey x)) = (e1, em, Landed v)
       /\ trace s' = trace s /\ fetchLog s' = fetchLog s).
Proof.
  intros H Hx Hn Hx' Hv.
  assert (forall j y s1, put_caller j y s1 = s' -> callers s1 = callers s -> j = id /\ x' = y) as Hput.
  { intros j y s1 <- E. simpl in Hx'. rewrite E in Hx'. destruct (decide (j = id)) as [->|Hj].
    - rewrite lookup_insert_eq in Hx'. by injection Hx'.
    - rewrite lookup_insert_ne in Hx' by done. exfalso. apply (Hn (inl v)). congruence. }
  assert (forall j y s1, callers s1 = callers s -> (forall r, cPhase y <> Returned (inl r)) ->
    Some (put_caller j y s1) = Some s' -> False) as Hnot.
  { intros j y s1 E Hy [= <-]. destruct (Hput j y s1 eq_refl E) as [-> ->]. by apply (Hy v). }
  assert (callers s' = callers s -> False) as Hnone by (intros E; rewrite E in Hx'; apply (Hn (inl v)); congruence).
  destruct a as [j k w maxAge|j now|j between ck|j|j|j cnow|j result|j now|j now cnow|op|b c l]; unfold exec in H;
    try (destruct (callers s !! j) as [y|] eqn:Hy; [|done || (exfalso; eapply Hnot; [..|exact H]; [done|];
           simpl; by destruct (String.eqb _ _))];
         cbn [mbind option_bind] in H; try destruct (cPhase y) as [|cand|f|f|f start since|f start u|f start result' write| |r] eqn:Hp; try done).
  - exfalso. destruct (cWatch y); [destruct (_ && _)|]; (eapply Hnot; [..|exact H]; done).
  - right. left. cbv zeta in H.
    destruct (checkSection _ _ _ _ _ _ _ _ _ _) as [[e1 em] vd] eqn:Hc.
    destruct vd as [f|value p q| |err|]; try (exfalso; eapply Hnot; [..|exact H]; done).
    apply (inj Some) in H. destruct (Hput j _ _ H eq_refl) as [-> ->].
    assert (y = x) as -> by congruence. injection Hv as ->. subst s'.
    exists between, ck, cand, e1, em, p, q. done.
  - exfalso. case_bool_decide; [|done]. eapply Hnot; [..|exact H]; done.
  - exfalso. eapply Hnot; [..|exact H]; done.
  - exfalso. eapply Hnot; [..|exact H]; done.
  - exfalso. destruct result as [u|[code sup]]; [destruct (cWatch y)|].
    + apply (inj Some) in H. destruct (Hput j (set_phase (Writing f start u) (count_fetch y))
        (log_fetch (cKey y, since, u) s) H eq_refl) as [_ ->]. done.
    + apply (inj Some) in H. destruct (Hput j (set_phase (Finishing f start (inl u) None) (count_fetch y))
        (log_fetch (cKey y, since, u) s) H eq_refl) as [_ ->]. done.
    + eapply Hnot; [..|exact H]; done.
  - left. apply (inj Some) in H. destruct (Hput j _ _ H eq_refl) as [-> ->].
    assert (y = x) as -> by congruence. done.
  - exfalso. destruct (cWatch y); [|done]. cbv zeta in H. destruct (Write _ _) as [[c' r]|]; [|done].
    cbn [mbind option_bind] in H. eapply Hnot; [..|exact H]; done.
  - right. right. cbv zeta in H. destruct (finishSection _ _ _ _ _ _ _ _ _) as [[e1 em] ld] eqn:Hf.
    destruct ld as [u| |err]; [|exfalso; destruct (cRecompute y); (eapply Hnot; [..|exact H]; done)|
      exfalso; eapply Hnot; [..|exact H]; done].
    apply (inj Some) in H. destruct (Hput j _ _ H eq_refl) as [-> ->].
    assert (y = x) as -> by congruence. injection Hv as ->. subst s'.
    exists f, start, result', write, now, cnow, e1, em. done.
  - exfalso. apply Hnone. by apply (inj Some) in H as <-.
  - exfalso. apply Hnone. by apply (inj Some) in H as <-.
Qed.

Lemma execAll_trace acts : forall s s',
  execAll order fresh acts s = Some s' -> exists os, trace s' = trace s ++ os.
Proof.
  induction acts as [|a acts IH]; intros s s' H; simpl in H.
  - exists []. simplify_eq. by rewrite app_nil_r.
  - destruct (exec order fresh a s) as [s1|] eqn:E; [|done]. destruct (IH s1 s' H) as [os ->].
    destruct (exec_trace a s s1 E) as [os' ->]. exists (os' ++ os). by rewrite app_assoc.
Qed.

Lemma light_before tr os : light (tr ++ os) -> light tr.
Proof. unfold light. rewrite runWeight_app. lia. Qed.

Lemma execAll_current acts : forall s s',
  Forall watched acts -> light (trace s') -> current s -> execAll order fresh acts s = Some s' -> current s'.
Proof.
  induction acts as [|a acts IH]; intros s s' Hw Hl Hc H; simpl in H; [by simplify_eq|].
  apply Forall_cons in Hw as [Ha Hw].
  destruct (exec order fresh a s) as [s1|] eqn:E; [|done]. simpl in H. eapply IH; [done|done| |exact H].
  eapply exec_current; [done| |done|exact E].
  destruct (execAll_trace acts s1 s' H) as [os Eo]. rewrite Eo in Hl. by eapply light_before.
Qed.

(** C11: No stale value is served.  Take a register whose readers all give
    its watch key.  Whenever a call returns a value of it, by whichever path
    and after any interleaving of readers, other users of the shadow cache
    and reconfigurations, then at the look at the shadow cache on which the
    call decided, the value had been obtained, by a fetch that began or from
    the last write the shadow cache accepted, at a point after which nobody
    had invalidated the register (as long as fewer than 2^63 operations were
    done on the cache). *)
Theorem served_values_current (acts : list action) (s s' : system) (a : action) (id : nat) (x x' : caller)
    (v : list byte) :
  Forall watched acts -> light (trace s') ->
  execAll order fresh acts newSystem = Some s -> exec order fresh a s = Some s' ->
  callers s !! id = Some x -> (forall r, cPhase x <> Returned r) ->
  callers s' !! id = Some x' -> cPhase x' = Returned (inl v) -> cKey x' = register ->
  exists n look, (n <= look)%nat /\ (length (trace s) <= look <= length (trace s'))%nat
    /\ obtained (trace s') (fetchLog s') v n /\ untouched n look (trace s').
Proof.
  intros Hw Hl Hrun Hex Hx Hn Hx' Hv Hk.
  assert (current s) as Hc.
  { eapply (execAll_current acts newSystem); [done| | |exact Hrun].
    - destruct (exec_trace a s s' Hex) as [os E]. rewrite E in Hl. by eapply light_before.
    - split; simpl; [intros j y|intros e]; by rewrite lookup_empty. }
  destruct (exec_returned a s s' id x x' v Hex Hx Hn Hx' Hv)
    as [[Hd E]|[(between & ck & cand & e1 & em & p & q & Hp & E & Hs & Et & El)
       |(f & start & result & write & now & cnow & e1 & em & Hp & E & Hs & Et & El)]];
    rewrite Hk in E; destruct (cu_watch s Hc id x Hx (eq_sym E)) as (Hwx & Hnd & Hph); [done|..].
  - rewrite Et, El in *. rewrite Hwx, <- E in Hs. rewrite Hp in Hph.
    pose proof (check_value (breaker s) key (cMaxAge x) (cPasses x) cand (flights s) ck (at_ (trace s))
      (at_ (trace s ++ between)) (default newRead (reads s !! register))) as Hcv. rewrite Hs in Hcv.
    destruct Hcv as [_ Hsv]. destruct (Hsv v p q eq_refl) as [(cd & -> & -> & Hg)|(-> & Hne & Hg)].
    + destruct (tracked_current (trace s) between (fetchLog s) (candValue cd) (candGeneration cd) (length (trace s)))
        as (n & Hnl & Ho & Hu); try done; [rewrite length_app; lia| |].
      * rewrite take_app_length. unfold genAt. rewrite <- Hg. by rewrite snapshot_generation by apply fresh_ok.
      * exists n, (length (trace s)). split; [done|]. split; [rewrite length_app; lia|done].
    + destruct (entry_value s Hc) as [He|[Hh Ht]]; [done|].
      destruct (tracked_current (trace s) between (fetchLog s) _ _ (length (trace s ++ between)) Hl Ht)
        as (n & Hnl & Ho & Hu); [rewrite length_app; lia|done| |].
      * rewrite take_ge by done. unfold genAt. rewrite <- (Hg Hh). by rewrite snapshot_generation by apply fresh_ok.
      * exists n, (length (trace s ++ between)). split; [done|]. split; [rewrite length_app; lia|done].
  - rewrite Et, El in *. rewrite Hwx, <- E in Hs. rewrite Hp in Hph.
    pose proof (finish_value (breaker s) key start result write now cnow (at_ (trace s))
      (default newRead (reads s !! register))) as Hf. rewrite Hs in Hf. destruct Hf as (-> & Hg & _).
    destruct (tracked_current (trace s) [] (fetchLog s) v (expectedGeneration start write) (length (trace s)))
      as (n & Hnl & Ho & Hu); rewrite ?app_nil_r in *; try done.
    + rewrite take_ge by done. unfold genAt. rewrite <- Hg. by rewrite snapshot_generation by apply fresh_ok.
    + exists n, (length (trace s)). done.
Qed.

End Runs.

(** A read of which the register is invalidated under way: the fetch is
    thrown away, the second one is served. *)
Definition demo_fenced : list action :=
  [ AShadow (OpBootstrap (demo_descriptor demo_key) [] 10);
    AGet 0 "r" (Some demo_key) (5 * second); AConsult 0 12; ACheck 0 [] demo_ck; ACapture 0 12;
    AShadow (OpInvalidate demo_invalidation 0); AFetched 0 (inl [0x15]);
    AWrite 0 (12 * second); AFinish 0 (12 * second) (12 * second);
    AConsult 0 (12 * second); ACheck 0 [] demo_ck; ACapture 0 (12 * second); AFetched 0 (inl [0x16]);
    AWrite 0 (13 * second) ].
Definition demo_before : system :=
  Eval vm_compute in default newSystem (execAll elements (demo_fresh 0) demo_fenced newSystem).
Definition demo_after : system :=
  Eval vm_compute in default newSystem (exec elements (demo_fresh 0) (AFinish 0 (13 * second) (13 * second)) demo_before).
Definition demo_caller (s : system) : caller :=
  default (mkCaller "" None 0 0 0 0 Looping) (callers s !! 0%nat).

Lemma served_values_current_witness :
  cPhase (demo_caller demo_after) = Returned (inl [0x16])
  /\ exists n look, (n <= look)%nat
    /\ (length (trace demo_before) <= look <= length (trace demo_after))%nat
    /\ obtained elements (demo_options 0) None None None 1 "r" demo_key (trace demo_after) (fetchLog demo_after)
         [0x16] n
    /\ untouched demo_key n look (trace demo_after).
Proof.
  split; [vm_compute; reflexivity|].
  apply (served_values_current elements (demo_options 0) None None None 1 "r" demo_key ltac:(discriminate)
    demo_fenced demo_before demo_after (AFinish 0 (13 * second) (13 * second)) 0
    (demo_caller demo_before) (demo_caller demo_after) [0x16]).
  - repeat constructor; simpl; try exact I; intros; reflexivity.
  - vm_compute. reflexivity.
  - vm_compute. reflexivity.
  - vm_compute. reflexivity.
  - vm_compute. reflexivity.
  - vm_compute. discriminate.
  - vm_compute. reflexivity.
  - vm_compute. reflexivity.
  - vm_compute. reflexivity.
Defined.

End SchedulerFresh.
