(* ===== verification/Discovery.v ===== *)
(** * Passive discovery of devices

    [internal/ebus/evidence/discovery/buffer.go]: a bounded store of what was
    overheard about each address, with the threshold at which an address
    becomes a candidate.  [bus_observability_store.go] feeds it from the
    events of the reconstructor ([recordEvidenceFromEventLocked]), and
    [passive_discovery_promoter.go] probes the candidates at every tick,
    backs off ([admission_escalation.go]), gives up or registers them.

    The device registry is another package: the class [Registry] has the two
    calls the promoter makes.  The order of a range over a map is a
    function [order]. *)

From stdpp Require Import sorting.
From S2P Require Import Prelude Ebus PassiveTap Reconstructor.

Local Open Scope Z_scope.

Module Discovery.
Import Reconstructor.

(** ** The evidence buffer *)

Inductive EvidenceStrength := EvidencePresenceOnly | EvidenceWeak | EvidenceStrong.
#[export] Instance EvidenceStrength_eq_dec : EqDecision EvidenceStrength.
Proof. solve_decision. Defined.
(** The numbers behind the constants, which the code compares. *)
Definition strengthRank (s : EvidenceStrength) : Z :=
  match s with EvidencePresenceOnly => 1 | EvidenceWeak => 2 | EvidenceStrong => 3 end.

Record EvidenceRecord := mkRecord {
  erAddress : byte;
  erStrength : EvidenceStrength;
  erObserved : time;
  erKind : string
}.

(** [addressState]; the address is the key it is stored under. *)
Record addressState := mkAddress {
  observations : Z;
  strongObs : Z;
  lastObserved : time;
  touchedAt : Z;
  promoted : bool
}.
Definition newAddress : addressState := mkAddress 0 0 0 0 false.

Record EvidenceBuffer := mkBuffer {
  maxEntries : Z;
  baseline : gset Z;
  entries : gmap Z addressState;
  tick : Z
}.
Definition set_entries (m : gmap Z addressState) (b : EvidenceBuffer) : EvidenceBuffer :=
  mkBuffer (maxEntries b) (baseline b) m (tick b).

Inductive evidenceError :=
| SeedOutOfRange (addr : byte)
| SeedIsSyn
| MaxEntriesOutOfRange (n : Z).

(** [ValidateBaselineTopologySeed]. *)
Fixpoint ValidateBaselineTopologySeed (seed : list byte) : option evidenceError :=
  match seed with
  | [] => None
  | addr :: rest =>
      if (addr <? 0x03) || (0xFE <=? addr) then Some (SeedOutOfRange addr)
      else if addr =? 0xAA then Some SeedIsSyn
      else ValidateBaselineTopologySeed rest
  end.

(** [NewEvidenceBuffer]. *)
Definition NewEvidenceBuffer (max : Z) (seed : list byte) : evidenceError + EvidenceBuffer :=
  match ValidateBaselineTopologySeed seed with
  | Some err => inl err
  | None =>
      if (max <? 32) || (1024 <? max) then inl (MaxEntriesOutOfRange max)
      else inr (mkBuffer max (list_to_set seed) ∅ 0)
  end.

Section Ranged.
Context (order : gset Z -> list Z).

(** One round of the range in [evictOldestNonBaselineLocked]; the victim so
    far is the address and its tick. *)
Definition considerVictim (b : EvidenceBuffer) (victim : option (Z * Z)) (addr : Z) : option (Z * Z) :=
  match entries b !! addr with
  | None => victim
  | Some st =>
      if bool_decide (addr ∈ baseline b) then victim
      else
        let victimTick := match victim with Some (_, t) => t | None => 2 ^ 64 - 1 end in
        if touchedAt st <? victimTick then Some (addr, touchedAt st) else victim
  end.

(** [evictOldestNonBaselineLocked]. *)
Definition evictOldestNonBaselineLocked (b : EvidenceBuffer) : EvidenceBuffer :=
  match fold_left (considerVictim b) (order (dom (entries b))) None with
  | Some (addr, _) => set_entries (delete addr (entries b)) b
  | None => b
  end.

(** What [Record] does to the state of the address, and what it returns. *)
Definition observe (r : EvidenceRecord) (now : Z) (st : addressState) : addressState * bool :=
  match erStrength r with
  | EvidencePresenceOnly =>
      (mkAddress (observations st) (strongObs st) (erObserved r) now (promoted st), false)
  | s =>
      let obs := observations st + 1 in
      let strong := if bool_decide (s = EvidenceStrong) then strongObs st + 1 else strongObs st in
      if negb (promoted st) && ((2 <=? obs) || (1 <=? strong))
      then (mkAddress obs strong (erObserved r) now true, true)
      else (mkAddress obs strong (erObserved r) now (promoted st), false)
  end.

(** [Record]. *)
Definition Record_ (r : EvidenceRecord) (b0 : EvidenceBuffer) : EvidenceBuffer * bool :=
  let b := mkBuffer (maxEntries b0) (baseline b0) (entries b0) (incr64 (tick b0)) in
  match entries b !! erAddress r with
  | Some st =>
      let '(st', p) := observe r (tick b) st in
      (set_entries (<[erAddress r := st']> (entries b)) b, p)
  | None =>
      let b1 := if maxEntries b <=? Z.of_nat (size (entries b)) then evictOldestNonBaselineLocked b else b in
      if (maxEntries b1 <=? Z.of_nat (size (entries b1))) && negb (bool_decide (erAddress r ∈ baseline b1))
      then (b1, false)
      else
        let '(st', p) := observe r (tick b1) newAddress in
        (set_entries (<[erAddress r := st']> (entries b1)) b1, p)
  end.

(** [Demote]. *)
Definition Demote (addr : Z) (b : EvidenceBuffer) : EvidenceBuffer * bool :=
  match entries b !! addr with
  | Some st =>
      if promoted st
      then (set_entries (<[addr := mkAddress 0 0 (lastObserved st) (touchedAt st) false]> (entries b)) b, true)
      else (b, false)
  | None => (b, false)
  end.

(** [PromotedAddresses]: the range, then the sort. *)
Definition isPromoted (b : EvidenceBuffer) (addr : Z) : bool :=
  match entries b !! addr with Some st => promoted st | None => false end.
Definition PromotedAddresses (b : EvidenceBuffer) : list Z :=
  merge_sort Z.le (List.filter (isPromoted b) (order (dom (entries b)))).

(** [Len] and [Contains]. *)
Definition Len (b : EvidenceBuffer) : Z := Z.of_nat (size (entries b)).
Definition Contains (b : EvidenceBuffer) (addr : Z) : bool := bool_decide (is_Some (entries b !! addr)).

(** ** Evidence of an event *)

Section Evidence.
Context `{P : EbusProtocol}.

(** [isPassiveEvidenceCandidate]. *)
Definition isPassiveEvidenceCandidate (addr admittedSource : byte) : bool :=
  if (addr =? 0x00) || (addr =? 0xAA) || (addr =? 0xFE) || (addr =? 0xFF) then false
  else if addr <? 0x03 then false
  else if negb (admittedSource =? 0) && (addr =? admittedSource) then false
  else negb (IsInitiatorCapableAddress addr).

(** [IsB524ResponseCoherent]. *)
Definition IsB524ResponseCoherent (responseData : list byte) (group : byte) (addr : Z) : bool :=
  if len responseData <? 4 then false
  else if (5 <=? len responseData) && (at_ responseData 2 =? group)
          && (Z.lor (at_ responseData 3) (Z.shiftl (at_ responseData 4) 8) =? addr) then true
  else (at_ responseData 1 =? group)
       && (Z.lor (at_ responseData 2) (Z.shiftl (at_ responseData 3) 8) =? addr).

(** [b524RequestParameters]. *)
Definition b524RequestParameters (requestData : list byte) : option (byte * Z) :=
  if len requestData <? 6 then None
  else Some (at_ requestData 2, Z.lor (at_ requestData 4) (Z.shiftl (at_ requestData 5) 8)).

(** [passiveResponseIsCoherentVaillantEvidence]. *)
Definition passiveResponseIsCoherentVaillantEvidence (request response : Frame) : bool :=
  if (Primary request =? 0xB5) && (Secondary request =? 0x24) then
    match b524RequestParameters (Data request) with
    | None => false
    | Some (group, addr) => IsB524ResponseCoherent (Data response) group addr
    end
  else
    (Primary request =? 0xB5) && (Secondary request =? 0x09)
    && (0 <? len (Data request)) && (at_ (Data request) 0 =? 0x29) && (4 <=? len (Data response)).

(** The two maps [perEvent] and [candidateKind] of one event. *)
Definition upgradeCandidate (admitted : byte) (addr : byte) (s : EvidenceStrength)
    (m : gmap Z EvidenceStrength) : gmap Z EvidenceStrength :=
  if negb (isPassiveEvidenceCandidate addr admitted) then m
  else
    match m !! addr with
    | Some old => if strengthRank old <? strengthRank s then <[addr := s]> m else m
    | None => <[addr := s]> m
    end.
Definition upgradeKind (admitted : byte) (addr : byte) (kind : string)
    (m : gmap Z string) : gmap Z string :=
  if negb (isPassiveEvidenceCandidate addr admitted) then m
  else match m !! addr with Some _ => m | None => <[addr := kind]> m end.

(** The calls of the switch, in order. *)
Definition evidenceCalls (e : PassiveClassifiedEvent) : list (byte * EvidenceStrength * string) :=
  match EvKind e with
  | PassiveClassifiedEventBroadcastFrame =>
      [(Source (EvRequest e), EvidencePresenceOnly, "broadcast_source")]
  | PassiveClassifiedEventMasterFrame =>
      [(Source (EvRequest e), EvidenceWeak, "master_source"); (Target (EvRequest e), EvidenceWeak, "master_target")]
  | PassiveClassifiedEventTransaction =>
      let strong := HasResponse e && passiveResponseIsCoherentVaillantEvidence (EvRequest e) (EvResponse e) in
      let responder := if strong then EvidenceStrong else EvidenceWeak in
      [(Source (EvRequest e), EvidenceWeak, "tx_request_source"); (Target (EvRequest e), responder, "tx_responder")]
      ++ (if HasResponse e then [(Source (EvResponse e), responder, "tx_responder")] else [])
  | _ => []
  end.
Definition perEvent (admitted : byte) (calls : list (byte * EvidenceStrength * string))
    : gmap Z EvidenceStrength :=
  fold_left (fun m c => upgradeCandidate admitted c.1.1 c.1.2 m) calls ∅.
Definition candidateKind (admitted : byte) (calls : list (byte * EvidenceStrength * string)) : gmap Z string :=
  fold_left (fun m c => upgradeKind admitted c.1.1 c.2 m) calls ∅.

(** The records an event makes, in the order of the range. *)
Definition eventRecords (admitted : byte) (now : time) (e : PassiveClassifiedEvent) : list EvidenceRecord :=
  let calls := evidenceCalls e in
  let m := perEvent admitted calls in
  let at0 := if IsZero (EvObservedAt e) then now else EvObservedAt e in
  omap (fun addr => s ← m !! addr;
          Some (mkRecord addr s at0 (default "" (candidateKind admitted calls !! addr))))
    (order (dom m)).

(** [recordEvidenceFromEventLocked], and its call in
    [OnPassiveClassifiedEvent] for the three kinds of frames only. *)
Definition recordEvidenceFromEventLocked (admitted : byte) (now : time) (e : PassiveClassifiedEvent)
    (b : EvidenceBuffer) : EvidenceBuffer :=
  fold_left (fun b r => fst (Record_ r b)) (eventRecords admitted now e) b.
Definition OnPassiveClassifiedEvent (admitted : byte) (now : time) (e : PassiveClassifiedEvent)
    (b : EvidenceBuffer) : EvidenceBuffer :=
  match EvKind e with
  | PassiveClassifiedEventBroadcastFrame | PassiveClassifiedEventMasterFrame
  | PassiveClassifiedEventTransaction => recordEvidenceFromEventLocked admitted now e b
  | _ => b
  end.

End Evidence.
End Ranged.

(** ** Back-off *)

Definition StartupAdmissionRejoinBackoffBaseSeconds : Z := 5.
Definition StartupAdmissionRejoinBackoffMaxSeconds : Z := 60.
Definition maxConfirmationAttempts : Z := 5.
Definition perCandidateConfirmationBudget : Z := 45 * second.

(** The loop of [RejoinBackoffSchedule], [rounds] to go. *)
Fixpoint backoffLoop (rounds : nat) (secs maxSeconds : Z) : Z :=
  match rounds with
  | O => secs * second
  | S n =>
      let secs2 := secs * 2 in
      if maxSeconds <=? secs2 then maxSeconds * second else backoffLoop n secs2 maxSeconds
  end.
Definition RejoinBackoffSchedule (attempt baseSeconds maxSeconds : Z) : Z :=
  let attempt1 := if attempt <? 1 then 1 else attempt in
  backoffLoop (Z.to_nat (attempt1 - 1)) baseSeconds maxSeconds.

(** ** The promoter *)

(** The calls of the device registry the promoter makes: the addresses of
    each entry [IterateSnapshots] visits, and [Register] of a minimal
    Vaillant entry for an address. *)
Class Registry (R : Type) := {
  snapshotAddresses : R -> list (list byte);
  Register_ : byte -> R -> R
}.
(** What the promoter relies on: a registered address is found, and
    registering does not lose addresses. *)
Class RegistryLaws (R : Type) `{!Registry R} : Prop := {
  register_found addr (r : R) : exists l, l ∈ snapshotAddresses (Register_ addr r) /\ addr ∈ l;
  register_keeps addr a (r : R) :
    (exists l, l ∈ snapshotAddresses r /\ a ∈ l) ->
    exists l, l ∈ snapshotAddresses (Register_ addr r) /\ a ∈ l
}.

(** [SnapshotContainsAddress]. *)
Definition SnapshotContainsAddress (addresses : list byte) (addr : byte) : bool :=
  existsb (fun a => a =? addr) addresses.

(** [promoterAttemptState]. *)
Record promoterAttemptState := mkAttempt {
  attempts : Z;
  nextAttemptAt : time
}.

(** [PassiveDiscoveryPromoter], with the two objects it shares with the rest
    of the gateway: the registry and the evidence buffer. *)
Record PassiveDiscoveryPromoter (R : Type) := mkPromoter {
  registry : R;
  evidenceBuf : EvidenceBuffer;
  attemptsByAddr : gmap Z promoterAttemptState;
  confirmedTotal : Z;
  rejectedTotal : Z;
  skippedTotal : Z
}.
Arguments mkPromoter {R}.
Arguments registry {R}.
Arguments evidenceBuf {R}.
Arguments attemptsByAddr {R}.
Arguments confirmedTotal {R}.
Arguments rejectedTotal {R}.
Arguments skippedTotal {R}.

(** What happens, in order: a record handed to the evidence buffer, a call
    of [confirmFn] (its number for the address, the admitted source and the
    time of the tick; a [DeadProbe] when its context was done before it
    began), the demotion of a candidate (with the result of [Demote]), the
    registration of one, and the refreshes. *)
Inductive effect :=
| Heard (r : EvidenceRecord)
| Probe (addr : byte) (number : Z) (admitted : byte) (now : time)
| DeadProbe (addr : byte)
| GaveUp (addr : byte) (taken : bool)
| Registered (addr : byte)
| RouterRefresh
| SemanticRefresh.

Section Promoter.
Context `{P : EbusProtocol} (order : gset Z -> list Z) {R : Type} `{!Registry R}.

Definition set_attempts (m : gmap Z promoterAttemptState) (p : PassiveDiscoveryPromoter R)
    : PassiveDiscoveryPromoter R :=
  mkPromoter (registry p) (evidenceBuf p) m (confirmedTotal p) (rejectedTotal p) (skippedTotal p).
Definition set_evidence (b : EvidenceBuffer) (p : PassiveDiscoveryPromoter R) : PassiveDiscoveryPromoter R :=
  mkPromoter (registry p) b (attemptsByAddr p) (confirmedTotal p) (rejectedTotal p) (skippedTotal p).
Definition set_registry (r : R) (p : PassiveDiscoveryPromoter R) : PassiveDiscoveryPromoter R :=
  mkPromoter r (evidenceBuf p) (attemptsByAddr p) (confirmedTotal p) (rejectedTotal p) (skippedTotal p).

(** [registryContains]. *)
Definition registryContains (addr : byte) (p : PassiveDiscoveryPromoter R) : bool :=
  existsb (fun addresses => SnapshotContainsAddress addresses addr) (snapshotAddresses (registry p)).

(** [incSkipped]. *)
Definition incSkipped (p : PassiveDiscoveryPromoter R) : PassiveDiscoveryPromoter R :=
  mkPromoter (registry p) (evidenceBuf p) (attemptsByAddr p) (confirmedTotal p) (rejectedTotal p)
    (incr64 (skippedTotal p)).

(** [shouldAttempt]. *)
Definition shouldAttempt (addr admittedSource : byte) (now : time) (p : PassiveDiscoveryPromoter R)
    : PassiveDiscoveryPromoter R * bool :=
  if negb (isPassiveEvidenceCandidate addr admittedSource) then (incSkipped p, false)
  else if registryContains addr p then (incSkipped p, false)
  else
    match attemptsByAddr p !! addr with
    | None => (p, true)
    | Some st =>
        if negb (IsZero (nextAttemptAt st)) && (now <? nextAttemptAt st) then (incSkipped p, false)
        else (p, true)
    end.

(** [recordAttemptStart]. *)
Definition recordAttemptStart (addr : byte) (p : PassiveDiscoveryPromoter R) : PassiveDiscoveryPromoter R :=
  let st := default (mkAttempt 0 0) (attemptsByAddr p !! addr) in
  set_attempts (<[addr := mkAttempt (attempts st + 1) (nextAttemptAt st)]> (attemptsByAddr p)) p.

(** [recordAttemptFailure]; the result says whether to demote. *)
Definition recordAttemptFailure (addr : byte) (now : time) (p : PassiveDiscoveryPromoter R)
    : PassiveDiscoveryPromoter R * bool :=
  match attemptsByAddr p !! addr with
  | None => (p, false)
  | Some st =>
      let backoff := RejoinBackoffSchedule (attempts st) StartupAdmissionRejoinBackoffBaseSeconds
                       StartupAdmissionRejoinBackoffMaxSeconds in
      let m := <[addr := mkAttempt (attempts st) (now + backoff)]> (attemptsByAddr p) in
      let p1 := mkPromoter (registry p) (evidenceBuf p) m (confirmedTotal p) (incr64 (rejectedTotal p))
                  (skippedTotal p) in
      if maxConfirmationAttempts <=? attempts st then (set_attempts (delete addr m) p1, true) else (p1, false)
  end.

(** [recordAttemptSuccess]. *)
Definition recordAttemptSuccess (addr : byte) (p : PassiveDiscoveryPromoter R) : PassiveDiscoveryPromoter R :=
  mkPromoter (registry p) (evidenceBuf p) (delete addr (attemptsByAddr p)) (incr64 (confirmedTotal p))
    (rejectedTotal p) (skippedTotal p).

(** [commitConfirmedRegistration]. *)
Definition commitConfirmedRegistration (addr : byte) (p : PassiveDiscoveryPromoter R)
    : PassiveDiscoveryPromoter R * list effect :=
  (set_registry (Register_ addr (registry p)) p, [Registered addr; RouterRefresh]).

(** What the rest of the gateway does to the shared objects. *)
Inductive otherOp :=
| OtherRecord (r : EvidenceRecord)
| OtherEvent (admitted : byte) (now : time) (e : PassiveClassifiedEvent)
| OtherRegister (addr : byte).
Definition other (o : otherOp) (p : PassiveDiscoveryPromoter R) : PassiveDiscoveryPromoter R :=
  match o with
  | OtherRecord r => set_evidence (fst (Record_ order r (evidenceBuf p))) p
  | OtherEvent admitted now e => set_evidence (OnPassiveClassifiedEvent order admitted now e (evidenceBuf p)) p
  | OtherRegister addr => set_registry (Register_ addr (registry p)) p
  end.
Definition otherEffects (o : otherOp) : list effect :=
  match o with
  | OtherRecord r => [Heard r]
  | OtherEvent admitted now e =>
      match EvKind e with
      | PassiveClassifiedEventBroadcastFrame | PassiveClassifiedEventMasterFrame
      | PassiveClassifiedEventTransaction => Heard <$> eventRecords order admitted now e
      | _ => []
      end
  | OtherRegister _ => []
  end.
Definition others (os : list otherOp) (p : PassiveDiscoveryPromoter R) : PassiveDiscoveryPromoter R :=
  fold_left (fun p o => other o p) os p.

(** How a probe ends: the verdict of [confirmFn], whether the context of
    [Run] is done by then, and what others did meanwhile. *)
Record answer := mkAnswer {
  confirmed : bool;
  cancelled : bool;
  meanwhile : list otherOp
}.

(** One candidate of [processOnce]; [ctxDone] says that the context of [Run]
    is done already. *)
Definition processCandidate (ctxDone : bool) (admittedSource : byte) (now : time) (ans : answer) (addr : byte)
    (p : PassiveDiscoveryPromoter R) : PassiveDiscoveryPromoter R * list effect * bool :=
  let p1 := recordAttemptStart addr p in
  let probe := if ctxDone then DeadProbe addr
               else Probe addr (default 0 (attempts <$> attemptsByAddr p1 !! addr)) admittedSource now in
  let during := probe :: (meanwhile ans ≫= otherEffects) in
  let p2 := others (meanwhile ans) p1 in
  if ctxDone || cancelled ans then (p2, during, false)
  else if negb (confirmed ans) then
    let '(p3, demote) := recordAttemptFailure addr now p2 in
    if demote then
      let '(b, taken) := Demote addr (evidenceBuf p3) in (set_evidence b p3, during ++ [GaveUp addr taken], false)
    else (p3, during, false)
  else
    let '(p3, eff) := commitConfirmedRegistration addr (recordAttemptSuccess addr p2) in
    (p3, during ++ eff, true).

(** The loop of [processOnce] over the candidates; the last component is
    [None] when the context ended it, and otherwise counts the confirmed
    candidates.  [answers] are the ends of the probes to come. *)
Fixpoint processLoop (ctxDone : bool) (admittedSource : byte) (now : time) (answers : nat -> answer) (candidates : list byte)
    (p : PassiveDiscoveryPromoter R) : PassiveDiscoveryPromoter R * list effect * option Z :=
  match candidates with
  | [] => (p, [], Some 0)
  | addr :: rest =>
      let '(p1, attempt) := shouldAttempt addr admittedSource now p in
      if negb attempt then processLoop ctxDone admittedSource now answers rest p1
      else
        let '(p2, eff, ok) := processCandidate ctxDone admittedSource now (answers 0%nat) addr p1 in
        if ctxDone || cancelled (answers 0%nat) then (p2, eff, None)
        else
          let '(p3, eff', n) := processLoop ctxDone admittedSource now (fun i => answers (S i)) rest p2 in
          (p3, eff ++ eff', Z.add (if ok then 1 else 0) <$> n)
  end.

(** [processOnce]; the result says whether it saw the context done. *)
Definition processOnce (ctxDone : bool) (admittedSource : byte) (now : time) (answers : nat -> answer)
    (p : PassiveDiscoveryPromoter R) : PassiveDiscoveryPromoter R * list effect * bool :=
  if admittedSource =? 0 then (p, [], ctxDone)
  else
    let '(p1, eff, n) :=
      processLoop ctxDone admittedSource now answers (PromotedAddresses order (evidenceBuf p)) p in
    match n with
    | None => (p1, eff, true)
    | Some n => (p1, eff ++ (if 0 <? n then [SemanticRefresh] else []), ctxDone)
    end.

(** The life of the promoter: the ticks [Run] takes, and what others do
    between them.  [Run] ends with its context, but its select may take a
    tick that is due before it sees that. *)
Inductive promoterStep :=
| PTick (admittedSource : byte) (now : time) (answers : nat -> answer)
| POther (o : otherOp).
Fixpoint runPromoter (steps : list promoterStep) (ctxDone : bool) (p : PassiveDiscoveryPromoter R)
    : PassiveDiscoveryPromoter R * list effect :=
  match steps with
  | [] => (p, [])
  | POther o :: rest =>
      let '(p', eff) := runPromoter rest ctxDone (other o p) in (p', otherEffects o ++ eff)
  | PTick admittedSource now answers :: rest =>
      let '(p1, eff, stop) := processOnce ctxDone admittedSource now answers p in
      let '(p', eff') := runPromoter rest stop p1 in (p', eff ++ eff')
  end.

(** [NewPassiveDiscoveryPromoter], with its required options. *)
Definition NewPassiveDiscoveryPromoter (r : R) (b : EvidenceBuffer) : PassiveDiscoveryPromoter R :=
  mkPromoter r b ∅ 0 0 0.

(** [Snapshot]. *)
Definition Snapshot (p : PassiveDiscoveryPromoter R) : Z * Z * Z * gmap Z Z :=
  (confirmedTotal p, rejectedTotal p, skippedTotal p, attempts <$> attemptsByAddr p).

End Promoter.

End Discovery.
