(* ===== verification/DiscoverySpec.v ===== *)
(** * Passive discovery: what it promises

    The evidence buffer refines a list in the order of last use; no address
    is probed without fresh evidence, more than five times for it, or
    earlier than its back-off allows; and a candidate that answers is
    registered. *)

From stdpp Require Import sorting.
From S2P Require Import Prelude Ebus PassiveTap Reconstructor ReconstructorInv Discovery.

Local Open Scope Z_scope.

Module DiscoverySpec.
Import Reconstructor Discovery.

(** ** The abstract buffer *)

(** What counts of an address. *)
Record standing := mkStanding {
  sObs : Z;
  sStrong : Z;
  sPromoted : bool
}.
Definition standingOf (st : addressState) : standing :=
  mkStanding (observations st) (strongObs st) (promoted st).

(** Addresses with their standing, the one longest unheard of first. *)
Abbreviation lru := (list (Z * standing)).

Definition hear (s : EvidenceStrength) (st : standing) : standing * bool :=
  match s with
  | EvidencePresenceOnly => (st, false)
  | _ =>
      let obs := sObs st + 1 in
      let strong := if bool_decide (s = EvidenceStrong) then sStrong st + 1 else sStrong st in
      if sPromoted st then (mkStanding obs strong true, false)
      else
        let p := (2 <=? obs) || (1 <=? strong) in (mkStanding obs strong p, p)
  end.

Definition standingIn (l : lru) (a : Z) : option standing := (list_to_map l : gmap Z standing) !! a.
Definition drop_ (a : Z) (l : lru) : lru := List.filter (fun x => negb (x.1 =? a)) l.
Definition evictable (base : gset Z) (x : Z * standing) : bool := negb (bool_decide (x.1 ∈ base)).
Definition oldest (base : gset Z) (l : lru) : option Z := fst <$> head (List.filter (evictable base) l).

Definition lruRecord (max : Z) (base : gset Z) (r : EvidenceRecord) (l : lru) : lru * bool :=
  match standingIn l (erAddress r) with
  | Some st =>
      let '(st', p) := hear (erStrength r) st in (drop_ (erAddress r) l ++ [(erAddress r, st')], p)
  | None =>
      let l1 := if max <=? len l then match oldest base l with Some a => drop_ a l | None => l end else l in
      if (max <=? len l1) && negb (bool_decide (erAddress r ∈ base)) then (l1, false)
      else
        let '(st', p) := hear (erStrength r) (mkStanding 0 0 false) in (l1 ++ [(erAddress r, st')], p)
  end.

Definition lruDemote (a : Z) (l : lru) : lru * bool :=
  match standingIn l a with
  | Some st =>
      if sPromoted st
      then (map (fun x => if x.1 =? a then (a, mkStanding 0 0 false) else x) l, true)
      else (l, false)
  | None => (l, false)
  end.

Inductive bufferOp := BRecord (r : EvidenceRecord) | BDemote (addr : Z).
Definition lruStep (max : Z) (base : gset Z) (o : bufferOp) (l : lru) : lru * bool :=
  match o with BRecord r => lruRecord max base r l | BDemote a => lruDemote a l end.
Fixpoint lruRun (max : Z) (base : gset Z) (os : list bufferOp) (l : lru) : lru * list bool :=
  match os with
  | [] => (l, [])
  | o :: rest =>
      let '(l1, p) := lruStep max base o l in
      let '(l2, ps) := lruRun max base rest l1 in (l2, p :: ps)
  end.

(** ** Facts on association lists *)

Lemma elem_of_keys {A} (l : list (Z * A)) a : a ∈ l.*1 <-> is_Some ((list_to_map l : gmap Z A) !! a).
Proof.
  rewrite <- not_eq_None_Some, <- not_elem_of_list_to_map. split; [tauto|].
  intros H. destruct (decide (a ∈ l.*1)); [done|tauto].
Qed.

Lemma drop_keys a l : (drop_ a l).*1 = List.filter (fun x => negb (x =? a)) l.*1.
Proof.
  unfold drop_. induction l as [|[x st] l IH]; simpl; [done|]. destruct (x =? a); simpl; [done|]. by f_equal.
Qed.

Lemma drop_map a l : (list_to_map (drop_ a l) : gmap Z standing) = delete a (list_to_map l).
Proof.
  unfold drop_. induction l as [|[x st] l IH]; simpl; [by rewrite delete_empty|].
  destruct (Z.eqb_spec x a) as [->|Hne]; simpl.
  - rewrite IH. symmetry. by rewrite delete_insert_eq.
  - rewrite IH. by rewrite delete_insert_ne by done.
Qed.

Lemma drop_notin a l : a ∉ (drop_ a l).*1.
Proof. rewrite drop_keys, elem_of_filterb. intros [_ H]. by rewrite Z.eqb_refl in H. Qed.

Lemma drop_nodup a l : NoDup l.*1 -> NoDup (drop_ a l).*1.
Proof. rewrite drop_keys. intros H. by eapply sublist_NoDup, filter_sublist. Qed.

Lemma drop_id a l : a ∉ l.*1 -> drop_ a l = l.
Proof.
  intros H. apply filter_all. intros [x st] Hx. simpl. apply negb_true_iff, Z.eqb_neq. intros ->.
  apply H. apply list_elem_of_fmap. by exists (a, st).
Qed.

(** Replacing the standing of an address. *)
Lemma replace_id (a : Z) (st : standing) (l : lru) :
  a ∉ l.*1 -> map (fun x => if x.1 =? a then (a, st) else x) l = l.
Proof.
  induction l as [|[y sy] l IH]; intros Ha; simpl in *; [done|].
  destruct (Z.eqb_spec y a) as [->|]; [set_solver|]. f_equal. apply IH. set_solver.
Qed.
Lemma replace_map (a : Z) (st : standing) (l : lru) :
  NoDup l.*1 -> a ∈ l.*1 ->
  <[a := st]> (list_to_map l : gmap Z standing) = list_to_map (map (fun x => if x.1 =? a then (a, st) else x) l).
Proof.
  induction l as [|[y sy] l IH]; intros Hnd Hin; [by apply not_elem_of_nil in Hin|].
  simpl in *. apply NoDup_cons in Hnd as [Hy Hnd]. destruct (Z.eqb_spec y a) as [->|Hne]; simpl.
  - by rewrite insert_insert_eq, replace_id.
  - rewrite insert_insert_ne by done. f_equal. apply IH; [done|]. set_solver.
Qed.

Lemma size_keys {A} (l : list (Z * A)) : NoDup l.*1 -> size (list_to_map l : gmap Z A) = length l.
Proof. intros H. rewrite <- length_map_to_list. by rewrite map_to_list_to_map. Qed.

(** ** The representation *)

Definition touched (b : EvidenceBuffer) (a : Z) : Z := default 0 (touchedAt <$> entries b !! a).
Definition before (b : EvidenceBuffer) (x y : Z * standing) : Prop := touched b x.1 < touched b y.1.

Record represents (b : EvidenceBuffer) (l : lru) : Prop := mkRepresents {
  rp_nodup : NoDup l.*1;
  rp_map : standingOf <$> entries b = list_to_map l;
  rp_sorted : StronglySorted (before b) l;
  rp_ticks a st : entries b !! a = Some st -> 0 <= touchedAt st <= tick b;
  rp_now : 0 <= tick b
}.

Lemma rp_lookup b l a : represents b l -> standingIn l a = standingOf <$> entries b !! a.
Proof. intros H. unfold standingIn. by rewrite <- (rp_map _ _ H), lookup_fmap. Qed.

Lemma rp_size b l : represents b l -> size (entries b) = length l.
Proof. intros H. rewrite <- (size_keys l) by apply H. rewrite <- (rp_map _ _ H). by rewrite map_size_fmap. Qed.

Lemma rp_dom b l a : represents b l -> a ∈ l.*1 <-> a ∈ dom (entries b).
Proof.
  intros H. rewrite elem_of_keys, elem_of_dom. fold (standingIn l a). rewrite (rp_lookup b l a H).
  apply fmap_is_Some.
Qed.

(** Sorting survives what keeps the order of the ticks. *)
Lemma sorted_filter {A} (R : A -> A -> Prop) (p : A -> bool) l :
  StronglySorted R l -> StronglySorted R (List.filter p l).
Proof.
  induction 1 as [|x l Hs IH Hall]; simpl; [constructor|]. destruct (p x); [|done].
  constructor; [done|]. rewrite Forall_forall in *. intros y [Hy _]%elem_of_filterb. auto.
Qed.
Lemma sorted_snoc {A} (R : A -> A -> Prop) l x :
  StronglySorted R l -> Forall (fun y => R y x) l -> StronglySorted R (l ++ [x]).
Proof.
  induction 1 as [|y l Hs IH Hall]; intros Hx; simpl; [by repeat constructor|].
  apply Forall_cons in Hx as [Hy Hx]. constructor; [by apply IH|]. apply Forall_app. split; [done|]. by constructor.
Qed.
Lemma sorted_impl {A} (R R' : A -> A -> Prop) l :
  StronglySorted R l -> (forall x y, x ∈ l -> y ∈ l -> R x y -> R' x y) -> StronglySorted R' l.
Proof.
  induction 1 as [|x l Hs IH Hall]; intros H; constructor.
  - apply IH. intros y z Hy Hz. apply H; by right.
  - rewrite Forall_forall in *. intros y Hy. apply H; [by left|by right|auto].
Qed.

Lemma strictly_sorted (q : list Z) : NoDup q -> StronglySorted Z.le q -> StronglySorted Z.lt q.
Proof.
  intros Hnd Hs. induction Hs as [|x q Hs IH Hall]; [constructor|]. apply NoDup_cons in Hnd as [Hx Hnd].
  constructor; [by apply IH|]. rewrite Forall_forall in *. intros y Hy. specialize (Hall y Hy).
  assert (x <> y) by (by intros ->). lia.
Qed.

Lemma touched_same b b' a : entries b' !! a = entries b !! a -> touched b' a = touched b a.
Proof. unfold touched. by intros ->. Qed.

(** Time passes. *)
Lemma represents_tick b l t : represents b l -> tick b <= t ->
  represents (mkBuffer (maxEntries b) (baseline b) (entries b) t) l.
Proof. intros [R1 R2 R3 R4 R5] Ht. split; try done; [|simpl; lia]. intros a st Ha. simpl in *. specialize (R4 a st Ha). lia. Qed.

(** An address leaves. *)
Lemma represents_drop b l a : represents b l -> represents (set_entries (delete a (entries b)) b) (drop_ a l).
Proof.
  intros [R1 R2 R3 R4 R5]. split; simpl.
  - by apply drop_nodup.
  - by rewrite fmap_delete, R2, drop_map.
  - eapply sorted_impl; [by apply sorted_filter|]. intros [x sx] [y sy] Hx Hy H. unfold before in *. simpl in *.
    apply elem_of_filterb in Hx as [_ Hx], Hy as [_ Hy]. simpl in *. bool_facts.
    rewrite (touched_same b _ x), (touched_same b _ y) by (simpl; rewrite lookup_delete_ne; [done|lia]). done.
  - intros a' st Ha'. apply lookup_delete_Some in Ha' as [_ Ha']. by eapply R4.
  - done.
Qed.

(** An address is touched now, and comes last. *)
Lemma represents_touch b l a st now :
  represents b l -> a ∉ l.*1 -> tick b < now -> touchedAt st = now ->
  represents (mkBuffer (maxEntries b) (baseline b) (<[a := st]> (entries b)) now) (l ++ [(a, standingOf st)]).
Proof.
  intros [R1 R2 R3 R4 R5] Ha Ht Hst. set (b' := mkBuffer _ _ _ _).
  assert (forall x sx, (x, sx) ∈ l -> x <> a) as Hne.
  { intros x sx Hx ->. apply Ha, list_elem_of_fmap. by exists (a, sx). }
  assert (forall x sx, (x, sx) ∈ l -> touched b' x = touched b x) as Hsame.
  { intros x sx Hx. apply touched_same. simpl. rewrite lookup_insert_ne; [done|]. symmetry. by eapply Hne. }
  split.
  - rewrite fmap_app. simpl. apply NoDup_app. split; [done|]. split; [|by repeat constructor; set_solver].
    intros x Hx Hx'. apply list_elem_of_singleton in Hx' as ->. done.
  - simpl. rewrite fmap_insert, R2. symmetry. rewrite list_to_map_snoc; done.
  - apply sorted_snoc.
    + eapply sorted_impl; [exact R3|]. intros [x sx] [y sy] Hx Hy H. unfold before in *. simpl in *.
      by rewrite (Hsame x sx), (Hsame y sy).
    + rewrite Forall_forall. intros [x sx] Hx. unfold before. simpl. rewrite (Hsame x sx) by done.
      unfold touched at 2. simpl. rewrite lookup_insert_eq. simpl. rewrite Hst.
      assert (x ∈ dom (entries b)) as Hd.
      { apply elem_of_dom. rewrite <- (fmap_is_Some standingOf), <- lookup_fmap, R2. apply elem_of_keys, list_elem_of_fmap.
        by exists (x, sx). }
      apply elem_of_dom in Hd as [st' Hst']. unfold touched. rewrite Hst'. simpl. specialize (R4 x st' Hst'). lia.
  - intros x sx. simpl. destruct (decide (x = a)) as [->|Hx].
    + rewrite lookup_insert_eq. intros [= <-]. lia.
    + rewrite lookup_insert_ne by done. intros Hx'. specialize (R4 x sx Hx'). lia.
  - simpl. lia.
Qed.

Lemma observe_hear r now st :
  let '(st', p) := observe r now st in
  (standingOf st', p) = hear (erStrength r) (standingOf st) /\ touchedAt st' = now.
Proof.
  unfold observe, hear. destruct st as [obs strong seen t pr]. simpl.
  destruct (erStrength r); simpl; [done|..]; destruct pr; simpl; try done; by destruct (_ || _).
Qed.

(** ** The buffer refines the list *)

Section Refinement.
Context (order : gset Z -> list Z) (order_perm : forall X, order X ≡ₚ elements X).

(** The range finds an address that may leave and was touched least
    recently, if any may. *)
Lemma victim_spec b xs : forall v,
  (forall a st, entries b !! a = Some st -> touchedAt st < 2 ^ 64 - 1) ->
  let ok a := a ∈ dom (entries b) /\ a ∉ baseline b in
  (forall a t, v = Some (a, t) -> ok a /\ t = touched b a) ->
  match fold_left (considerVictim b) xs v with
  | Some (a, t) => (ok a /\ t = touched b a) /\ (v = Some (a, t) \/ a ∈ xs)
      /\ (forall a' t', v = Some (a', t') -> t <= t')
      /\ forall a', a' ∈ xs -> ok a' -> t <= touched b a'
  | None => v = None /\ forall a', a' ∈ xs -> ~ ok a'
  end.
Proof.
  intros v Hlt ok. revert v. induction xs as [|x xs IH]; intros v Hv; simpl.
  { destruct v as [[a t]|]; [|split; [done|set_solver]]. split; [auto|]. split; [by left|].
    split; [intros a' t' [= -> ->]; lia|set_solver]. }
  assert (forall a t, considerVictim b v x = Some (a, t) -> ok a /\ t = touched b a) as Hv'.
  { intros a t. unfold considerVictim. destruct (entries b !! x) as [st|] eqn:Hx; [|apply Hv].
    case_bool_decide as Hb; [apply Hv|]. destruct (touchedAt st <? _); [|apply Hv].
    intros [= <- <-]. unfold ok, touched. rewrite elem_of_dom, Hx. done. }
  specialize (IH (considerVictim b v x) Hv').
  destruct (fold_left _ xs _) as [[a t]|].
  - destruct IH as (Ha & Hin & Hle & Hmin). split; [done|]. unfold considerVictim in *. cbv zeta in *.
    destruct (entries b !! x) as [st|] eqn:Hx.
    2: { split; [destruct Hin; [by left|right; set_solver]|]. split; [done|].
         intros a' [->|Ha']%elem_of_cons Hok; [|auto]. destruct Hok as [Hd _].
         apply elem_of_dom in Hd as [? Hd]. congruence. }
    case_bool_decide as Hb.
    { split; [destruct Hin; [by left|right; set_solver]|]. split; [done|].
      intros a' [->|Ha']%elem_of_cons Hok; [by destruct Hok|auto]. }
    assert (touched b x = touchedAt st) as Et by (unfold touched; by rewrite Hx).
    destruct (touchedAt st <? match v with Some (_, t) => t | None => 2 ^ 64 - 1 end) eqn:Hcmp; bool_facts.
    + assert (t <= touchedAt st) by (by eapply Hle).
      split; [right; destruct Hin as [Heq|]; [injection Heq as -> _|]; set_solver|]. split.
      * intros a' t' ->. lia.
      * intros a' [->|Ha']%elem_of_cons Hok; [lia|auto].
    + split; [destruct Hin; [by left|right; set_solver]|]. split; [done|].
      intros a' [->|Ha']%elem_of_cons Hok; [|auto]. destruct v as [[a0 t0]|].
      * specialize (Hle a0 t0 eq_refl). lia.
      * specialize (Hlt x st Hx). lia.
  - destruct IH as (Hn & Hno). unfold considerVictim in Hn. cbv zeta in Hn.
    destruct (entries b !! x) as [st|] eqn:Hx.
    2: { split; [done|]. intros a' [->|Ha']%elem_of_cons Hok; [|by apply (Hno a')].
         destruct Hok as [Hd _]. apply elem_of_dom in Hd as [? Hd]. congruence. }
    case_bool_decide as Hb.
    { split; [done|]. intros a' [->|Ha']%elem_of_cons Hok; [by destruct Hok|by apply (Hno a')]. }
    destruct (touchedAt st <? match v with Some (_, t) => t | None => 2 ^ 64 - 1 end) eqn:Hcmp; [done|]. bool_facts.
    subst v. specialize (Hlt x st Hx). lia.
Qed.

(** It is the first of the list that may leave. *)
Lemma evict_oldest b l :
  represents b l -> tick b < 2 ^ 64 - 1 ->
  evictOldestNonBaselineLocked order b
  = match oldest (baseline b) l with Some a => set_entries (delete a (entries b)) b | None => b end.
Proof.
  intros Hr Ht. unfold evictOldestNonBaselineLocked.
  pose proof (victim_spec b (order (dom (entries b))) None) as Hv. cbv zeta in Hv.
  assert (forall a, a ∈ order (dom (entries b)) <-> a ∈ dom (entries b)) as Hin
    by (intros a; by rewrite order_perm, elem_of_elements).
  assert (forall a, a ∈ dom (entries b) -> a ∉ baseline b -> exists st, (a, st) ∈ List.filter (evictable (baseline b)) l) as Hall.
  { intros a Ha Hb. apply (rp_dom b l a Hr), list_elem_of_fmap in Ha as ([a' st] & -> & Ha). exists st.
    apply elem_of_filterb. split; [done|]. unfold evictable. simpl. by rewrite bool_decide_eq_false_2. }
  unfold oldest. destruct (fold_left _ _ None) as [[a t]|].
  - destruct Hv as (((Hd & Hb) & ->) & _ & _ & Hmin); [|done|].
    { intros a' st Ha'. destruct (rp_ticks b l Hr a' st Ha'). lia. }
    destruct (Hall a Hd Hb) as [st Hst].
    pose proof (sorted_filter _ (evictable (baseline b)) l (rp_sorted b l Hr)) as Hs.
    destruct (List.filter (evictable (baseline b)) l) as [|[x sx] f] eqn:Ef; [set_solver|]. simpl.
    apply StronglySorted_inv in Hs as [_ Hs]. rewrite Forall_forall in Hs.
    apply elem_of_cons in Hst as [[= -> ->]|Hst]; [done|]. specialize (Hs _ Hst). unfold before in Hs. simpl in Hs.
    assert ((x, sx) ∈ List.filter (evictable (baseline b)) l) as Hx by (rewrite Ef; by left).
    apply elem_of_filterb in Hx as [Hx Hxe]. assert (x ∈ dom (entries b)) as Hxd.
    { apply (rp_dom b l x Hr), list_elem_of_fmap. by exists (x, sx). }
    unfold evictable in Hxe. simpl in Hxe. apply negb_true_iff, bool_decide_eq_false in Hxe.
    specialize (Hmin x (proj2 (Hin x) Hxd) (conj Hxd Hxe)). lia.
  - destruct Hv as [_ Hno]; [|done|].
    { intros a' st Ha'. destruct (rp_ticks b l Hr a' st Ha'). lia. }
    destruct (List.filter (evictable (baseline b)) l) as [|[x sx] f] eqn:Ef; [done|]. simpl. exfalso.
    assert ((x, sx) ∈ List.filter (evictable (baseline b)) l) as Hx by (rewrite Ef; by left).
    apply elem_of_filterb in Hx as [Hx Hxe]. assert (x ∈ dom (entries b)) as Hxd.
    { apply (rp_dom b l x Hr), list_elem_of_fmap. by exists (x, sx). }
    unfold evictable in Hxe. simpl in Hxe. apply negb_true_iff, bool_decide_eq_false in Hxe.
    apply (Hno x); [by apply Hin|done].
Qed.

Lemma record_refines r b l :
  represents b l -> tick b + 1 < 2 ^ 64 - 1 ->
  let '(b', p) := Record_ order r b in
  let '(l', p') := lruRecord (maxEntries b) (baseline b) r l in
  represents b' l' /\ p = p' /\ tick b' = tick b + 1 /\ maxEntries b' = maxEntries b /\ baseline b' = baseline b.
Proof.
  intros Hr Ht. pose proof (rp_now b l Hr) as H0. unfold Record_, lruRecord. rewrite (rp_lookup b l (erAddress r) Hr).
  assert (incr64 (tick b) = tick b + 1) as Ei by (unfold incr64; apply u64_id; lia). rewrite Ei. cbv zeta.
  set (b1 := mkBuffer (maxEntries b) (baseline b) (entries b) (tick b + 1)).
  assert (represents b1 l) as Hr1 by (apply represents_tick; [done|lia]).
  change (entries b1) with (entries b). change (tick b1) with (tick b + 1). change (maxEntries b1) with (maxEntries b).
  destruct (entries b !! erAddress r) as [st|] eqn:Ha; cbn [fmap option_fmap option_map].
  - pose proof (observe_hear r (tick b + 1) st) as Ho.
    destruct (observe r (tick b + 1) st) as [st' p], (hear (erStrength r) (standingOf st)) as [ss p'].
    destruct Ho as [[= <- <-] Htick]. split; [|done].
    pose proof (represents_touch (set_entries (delete (erAddress r) (entries b)) b) (drop_ (erAddress r) l)
      (erAddress r) st' (tick b + 1) (represents_drop _ _ _ Hr) (drop_notin _ _)) as H. simpl in H.
    rewrite insert_delete_eq in H. apply H; [lia|done].
  - rewrite (rp_size b l Hr). set (l1 := if maxEntries b <=? len l then _ else l).
    set (b2 := if maxEntries b <=? len l then _ else b1).
    assert (exists m, b2 = set_entries m b1 /\ represents (set_entries m b) l1 /\ erAddress r ∉ l1.*1) as (m & -> & Hr2 & Hn).
    { assert (erAddress r ∉ l.*1) as Hnl by (rewrite (rp_dom b l _ Hr), elem_of_dom, Ha; by intros [? ?]).
      subst b2 l1. destruct (maxEntries b <=? len l); [|exists (entries b); destruct b; done].
      rewrite (evict_oldest b1 l Hr1) by (simpl; lia). simpl.
      destruct (oldest (baseline b) l) as [a|]; [|exists (entries b); destruct b; done].
      exists (delete a (entries b)). split; [done|]. split; [by apply represents_drop|].
      rewrite drop_keys, elem_of_filterb. tauto. }
    clearbody l1. simpl. rewrite (rp_size _ _ Hr2 : size m = _).
    destruct (_ && _).
    + split; [|done]. apply (represents_tick _ _ (tick b + 1)) in Hr2; [done|simpl; lia].
    + pose proof (observe_hear r (tick b + 1) newAddress) as Ho.
      change (mkStanding 0 0 false) with (standingOf newAddress).
      destruct (observe r (tick b + 1) newAddress) as [st' p], (hear (erStrength r) (standingOf newAddress)) as [ss p'].
      destruct Ho as [[= <- <-] Htick]. split; [|done].
      apply (represents_touch (set_entries m b)); [done|done|simpl; lia|done].
Qed.

Lemma demote_refines a b l :
  represents b l ->
  let '(b', p) := Demote a b in
  let '(l', p') := lruDemote a l in
  represents b' l' /\ p = p' /\ tick b' = tick b /\ maxEntries b' = maxEntries b /\ baseline b' = baseline b.
Proof.
  intros Hr. unfold Demote, lruDemote. rewrite (rp_lookup b l a Hr).
  destruct (entries b !! a) as [st|] eqn:Ha; simpl; [|done]. destruct (promoted st); [|done].
  split; [|done]. destruct Hr as [R1 R2 R3 R4 R5]. set (f := fun x : Z * standing => _).
  assert (forall x, (f x).1 = x.1) as Hf by (intros [x sx]; unfold f; simpl; by destruct (Z.eqb_spec x a)).
  assert ((map f l).*1 = l.*1) as Hk by (clear -Hf; induction l as [|x l IH]; simpl; [done|]; f_equal; [apply Hf|exact IH]).
  set (b' := set_entries _ b).
  assert (forall x, touched b' x = touched b x) as Htouch.
  { intros x. unfold touched. simpl. destruct (decide (x = a)) as [->|Hx]; [by rewrite lookup_insert_eq, Ha|].
    by rewrite lookup_insert_ne. }
  split.
  - by rewrite Hk.
  - simpl. rewrite fmap_insert, R2. apply replace_map; [done|].
    apply elem_of_keys. rewrite <- R2, lookup_fmap, Ha. eauto.
  - clear -R3 Hf Htouch. induction R3 as [|x l Hs IH Hall]; simpl; constructor; [done|].
    rewrite Forall_forall in *. intros y Hy. apply list_elem_of_fmap in Hy as (z & -> & Hz).
    unfold before in *. rewrite !Hf, !Htouch. auto.
  - intros x sx. simpl. destruct (decide (x = a)) as [->|Hx].
    + rewrite lookup_insert_eq. intros [= <-]. simpl. by apply (R4 a).
    + rewrite lookup_insert_ne by done. apply R4.
  - done.
Qed.

Definition bufferStep (o : bufferOp) (b : EvidenceBuffer) : EvidenceBuffer * bool :=
  match o with BRecord r => Record_ order r b | BDemote a => Demote a b end.
Fixpoint bufferRun (os : list bufferOp) (b : EvidenceBuffer) : EvidenceBuffer * list bool :=
  match os with
  | [] => (b, [])
  | o :: rest =>
      let '(b1, p) := bufferStep o b in
      let '(b2, ps) := bufferRun rest b1 in (b2, p :: ps)
  end.

Lemma run_refines os : forall b l,
  represents b l -> tick b + len os < 2 ^ 64 - 1 ->
  let '(b', ps) := bufferRun os b in
  let '(l', ps') := lruRun (maxEntries b) (baseline b) os l in
  represents b' l' /\ ps = ps'.
Proof.
  induction os as [|o os IH]; intros b l Hr Ht; cbn [bufferRun lruRun]; [done|].
  assert (let '(b', p) := bufferStep o b in let '(l', p') := lruStep (maxEntries b) (baseline b) o l in
    represents b' l' /\ p = p' /\ tick b' <= tick b + 1 /\ maxEntries b' = maxEntries b /\ baseline b' = baseline b) as H.
  { destruct o as [r|a]; simpl.
    - pose proof (record_refines r b l Hr) as H. simpl in Ht.
      destruct (Record_ order r b) as [b' p], (lruRecord _ _ r l) as [l' p'].
      destruct H as (H1 & H2 & H3 & H4 & H5); [lia|]. split; [done|]. split; [done|]. split; [lia|done].
    - pose proof (demote_refines a b l Hr) as H.
      destruct (Demote a b) as [b' p], (lruDemote a l) as [l' p'].
      destruct H as (H1 & H2 & H3 & H4 & H5). split; [done|]. split; [done|]. split; [lia|done]. }
  destruct (bufferStep o b) as [b1 p], (lruStep _ _ o l) as [l1 p']. destruct H as (H1 & -> & H3 & H4 & H5).
  specialize (IH b1 l1 H1). rewrite H4, H5 in IH. simpl in Ht.
  destruct (bufferRun os b1) as [b2 ps], (lruRun _ _ os l1) as [l2 ps']. destruct IH as [IH1 ->]; [lia|]. done.
Qed.

(** The list stays within the bound, or holds protected addresses only; and
    a protected address that is in stays in. *)
Definition within (max : Z) (base : gset Z) (l : lru) : Prop :=
  NoDup l.*1 /\ (len l <= max \/ forall a, a ∈ l.*1 -> a ∈ base).

Lemma length_drop a l : a ∈ l.*1 -> NoDup l.*1 -> length (drop_ a l) = pred (length l).
Proof.
  intros Ha Hnd. rewrite <- (length_fmap fst (drop_ a l)), <- (length_fmap fst l), drop_keys.
  rewrite (filter_out_perm a (l.*1)) at 2 by done. simpl. f_equal. apply List.filter_ext.
  intros x. by destruct (Z.eqb_spec x a), (bool_decide_reflect (x = a)).
Qed.

Lemma oldest_some base l a : oldest base l = Some a -> a ∈ l.*1 /\ a ∉ base.
Proof.
  unfold oldest. destruct (List.filter (evictable base) l) as [|[x sx] f] eqn:Ef; [done|]. intros [= <-].
  assert ((x, sx) ∈ List.filter (evictable base) l) as Hx by (rewrite Ef; by left).
  apply elem_of_filterb in Hx as [Hx He]. split; [apply list_elem_of_fmap; by exists (x, sx)|].
  unfold evictable in He. simpl in He. by apply negb_true_iff, bool_decide_eq_false in He.
Qed.
Lemma oldest_none base l a : oldest base l = None -> a ∈ l.*1 -> a ∈ base.
Proof.
  unfold oldest. destruct (List.filter (evictable base) l) as [|[x sx] f] eqn:Ef; [|done]. intros _ Ha.
  apply list_elem_of_fmap in Ha as ([y sy] & -> & Hy). simpl. destruct (decide (y ∈ base)) as [|Hn]; [done|].
  assert ((y, sy) ∈ List.filter (evictable base) l) as H; [|rewrite Ef in H; by apply not_elem_of_nil in H].
  apply elem_of_filterb. split; [done|]. unfold evictable. simpl. by rewrite bool_decide_eq_false_2.
Qed.

Lemma snoc_keys (l : lru) a st x : x ∈ (l ++ [(a, st)]).*1 <-> x ∈ l.*1 \/ x = a.
Proof. rewrite fmap_app. simpl. set_solver. Qed.
Lemma snoc_nodup (l : lru) a st : NoDup l.*1 -> a ∉ l.*1 -> NoDup (l ++ [(a, st)]).*1.
Proof.
  intros Hnd Ha. rewrite fmap_app. simpl. apply NoDup_app. split; [done|]. split; [|by repeat constructor; set_solver].
  intros x Hx Hx'. apply list_elem_of_singleton in Hx' as ->. done.
Qed.

(** Room is made without touching protected addresses. *)
Lemma room_within max base l :
  within max base l ->
  let l1 := if max <=? len l then match oldest base l with Some a => drop_ a l | None => l end else l in
  NoDup l1.*1 /\ (forall a, a ∈ l1.*1 -> a ∈ l.*1) /\ (forall a, a ∈ base -> a ∈ l.*1 -> a ∈ l1.*1)
  /\ (len l1 < max \/ forall a, a ∈ l1.*1 -> a ∈ base).
Proof.
  intros [Hnd Hw]. simpl. destruct (Z.leb_spec max (len l)) as [Hle|Hlt].
  2: { split; [done|]. split; [done|]. split; [done|]. by left. }
  destruct (oldest base l) as [a|] eqn:Ho.
  - destruct (oldest_some base l a Ho) as [Ha Hb]. split; [by apply drop_nodup|].
    rewrite length_drop by done. repeat setoid_rewrite drop_keys.
    split; [intros x Hx; apply elem_of_filterb in Hx; tauto|]. split.
    + intros x Hx Hxl. apply elem_of_filterb. split; [done|]. apply negb_true_iff, Z.eqb_neq. by intros ->.
    + left. assert (0 < length l)%nat by (destruct l; [by apply not_elem_of_nil in Ha|simpl; lia]).
      destruct Hw as [Hw|Hw]; [lia|]. by apply Hw in Ha.
  - split; [done|]. split; [done|]. split; [done|]. right. intros a Ha. by eapply oldest_none.
Qed.

Lemma step_within max base o l :
  within max base l ->
  let l' := fst (lruStep max base o l) in
  within max base l'
  /\ (forall a, a ∈ base -> a ∈ l.*1 -> a ∈ l'.*1)
  /\ (forall r, o = BRecord r -> erAddress r ∈ base -> erAddress r ∈ l'.*1).
Proof.
  intros Hwi. pose proof Hwi as [Hnd Hw]. destruct o as [r|a]; cbn [lruStep].
  - unfold lruRecord. destruct (standingIn l (erAddress r)) as [st|] eqn:Hst.
    + assert (erAddress r ∈ l.*1) as Hin by (apply elem_of_keys; unfold standingIn in Hst; by rewrite Hst).
      assert (forall st' x, x ∈ (drop_ (erAddress r) l ++ [(erAddress r, st')]).*1 <-> x ∈ l.*1) as Hk.
      { intros st' x. rewrite snoc_keys, drop_keys, elem_of_filterb, negb_true_iff, Z.eqb_neq.
        split; [intros [[? _]| ->]; done|]. intros Hx. destruct (decide (x = erAddress r)); [by right|by left]. }
      destruct (hear _ st) as [st' p]. cbn [fst]. split; [split|split].
      * apply snoc_nodup; [by apply drop_nodup|apply drop_notin].
      * destruct Hw as [Hw|Hw]; [left|right; intros x Hx; by apply Hw, (Hk st')].
        rewrite length_app, length_drop by done. simpl.
        assert (0 < length l)%nat by (destruct l; [by apply not_elem_of_nil in Hin|simpl; lia]). lia.
      * intros x _ Hx. by apply Hk.
      * intros r' [= <-] _. by apply Hk.
    + assert (erAddress r ∉ l.*1) as Hnin by (rewrite elem_of_keys; unfold standingIn in Hst; rewrite Hst; by intros [? ?]).
      destruct (room_within max base l Hwi) as (Hnd1 & Hsub & Hkeep & Hroom). cbv zeta.
      set (l1 := if max <=? len l then _ else l) in *. clearbody l1.
      destruct (_ && _) eqn:Hfull.
      * cbn [fst]. apply andb_prop in Hfull as [Hf Hb]. apply negb_true_iff, bool_decide_eq_false in Hb.
        split; [split; [done|]|split; [done|]]; [|by intros r' [= <-]].
        destruct Hroom as [Hr|Hr]; [left; lia|by right].
      * destruct (hear _ _) as [st' p]. cbn [fst]. split; [split|split].
        -- apply snoc_nodup; [done|]. intros Hx. by apply Hnin, Hsub.
        -- destruct Hroom as [Hr|Hr]; [left; rewrite length_app; simpl; lia|].
           apply andb_false_iff in Hfull as [Hf|Hb]; [left; bool_facts; rewrite length_app; simpl; lia|right].
           apply negb_false_iff, bool_decide_eq_true in Hb. intros x Hx. apply snoc_keys in Hx as [Hx| ->]; auto.
        -- intros x Hxb Hx. apply snoc_keys. left. by apply Hkeep.
        -- intros r' [= <-] _. apply snoc_keys. by right.
  - unfold lruDemote. destruct (standingIn l a) as [st|] eqn:Hst; [|by split_and!].
    destruct (sPromoted st); [|by split_and!]. cbn [fst]. set (f := fun x : Z * standing => _).
    assert ((map f l).*1 = l.*1) as Hk.
    { clear. induction l as [|[x sx] l IH]; [done|]. simpl. f_equal; [|exact IH]. unfold f. simpl.
      by destruct (Z.eqb_spec x a). }
    unfold within. rewrite Hk, length_map. by split_and!.
Qed.

Lemma run_within max base os : forall l,
  within max base l ->
  let l' := fst (lruRun max base os l) in
  within max base l'
  /\ forall a, a ∈ base -> a ∈ l.*1 \/ (exists r, BRecord r ∈ os /\ erAddress r = a) -> a ∈ l'.*1.
Proof.
  induction os as [|o os IH]; intros l Hw; cbn [lruRun].
  - split; [done|]. intros a _ [Ha|(r & Hr & _)]; [done|by apply not_elem_of_nil in Hr].
  - pose proof (step_within max base o l Hw) as (Hw1 & Hk & Hn).
    destruct (lruStep max base o l) as [l1 p]. cbn [fst] in *. destruct (IH l1 Hw1) as [Hw2 Hk2].
    destruct (lruRun max base os l1) as [l2 ps]. cbn [fst] in *. split; [done|].
    intros a Hb [Ha|(r & Hr & <-)]; apply Hk2; try done; [left; auto|].
    apply elem_of_cons in Hr as [<-|Hr]; [left; by apply Hn|right; eauto].
Qed.

(** The promoted addresses are those of the list, in ascending order. *)
Lemma promoted_refines b l :
  represents b l ->
  PromotedAddresses order b ≡ₚ (List.filter (fun x => sPromoted x.2) l).*1
  /\ StronglySorted Z.lt (PromotedAddresses order b).
Proof.
  intros Hr. pose proof (rp_nodup b l Hr) as Hnd.
  assert (PromotedAddresses order b ≡ₚ (List.filter (fun x => sPromoted x.2) l).*1) as Hp.
  { unfold PromotedAddresses. rewrite merge_sort_Permutation. apply NoDup_Permutation.
    - eapply sublist_NoDup, filter_sublist. rewrite order_perm. apply NoDup_elements.
    - eapply sublist_NoDup; [exact Hnd|]. apply fmap_sublist, filter_sublist.
    - intros a. rewrite elem_of_filterb, order_perm, elem_of_elements, list_elem_of_fmap. unfold isPromoted. split.
      + intros [Hd Hpa]. apply elem_of_dom in Hd as [st Hst]. rewrite Hst in Hpa.
        exists (a, standingOf st). split; [done|]. apply elem_of_filterb. split; [|done].
        apply elem_of_list_to_map; [done|]. fold (standingIn l a). by rewrite (rp_lookup b l a Hr), Hst.
      + intros ([x sx] & -> & Hx). apply elem_of_filterb in Hx as [Hx Hpx]. simpl in *.
        apply elem_of_list_to_map in Hx; [|done]. fold (standingIn l x) in Hx. rewrite (rp_lookup b l x Hr) in Hx.
        destruct (entries b !! x) as [st|] eqn:Hst; [|done]. injection Hx as <-. split; [|exact Hpx].
        apply elem_of_dom. by rewrite Hst. }
  split; [done|]. apply strictly_sorted.
  - rewrite Hp. eapply sublist_NoDup; [exact Hnd|]. apply fmap_sublist, filter_sublist.
  - exact (StronglySorted_merge_sort Z.le _).
Qed.

(** C34: The evidence buffer is a list in the order of last use.  For every
    sequence of records and demotions (fewer than 2^64 - 2) on a new buffer,
    whatever order Go ranges over the map in, it returns what the list
    returns, holds the addresses of the list, and reports its promoted ones
    in ascending order: when full it forgets the address that was heard
    longest ago and is not protected.  It holds at most the configured
    number of addresses, or protected ones only; and a protected address
    that was recorded is never forgotten. *)
Theorem evidence_buffer_refines (max : Z) (seed : list byte) (b0 : EvidenceBuffer) (os : list bufferOp) :
  NewEvidenceBuffer max seed = inr b0 -> len os < 2 ^ 64 - 2 ->
  let '(b, ps) := bufferRun os b0 in
  let '(l, ps') := lruRun max (list_to_set seed) os [] in
  ps = ps' /\ Len b = len l /\ (forall a, Contains b a = bool_decide (a ∈ l.*1))
  /\ PromotedAddresses order b ≡ₚ (List.filter (fun x => sPromoted x.2) l).*1
  /\ StronglySorted Z.lt (PromotedAddresses order b)
  /\ (Len b <= max \/ forall a, Contains b a = true -> a ∈ seed)
  /\ (forall r, BRecord r ∈ os -> erAddress r ∈ seed -> Contains b (erAddress r) = true).
Proof.
  intros Hnew Hlen. unfold NewEvidenceBuffer in Hnew. destruct (ValidateBaselineTopologySeed seed); [done|].
  destruct (_ || _); [done|]. injection Hnew as <-. set (b0 := mkBuffer _ _ _ _).
  assert (represents b0 []) as Hr0 by (split; simpl; [constructor|done|constructor|done|lia]).
  pose proof (run_refines os b0 [] Hr0) as Hrun. simpl in Hrun.
  pose proof (run_within max (list_to_set seed) os []) as Hwi.
  destruct (bufferRun os b0) as [b ps], (lruRun max (list_to_set seed) os []) as [l ps']. cbn [fst] in Hwi.
  destruct Hrun as [Hr ->]; [lia|]. destruct Hwi as [[Hnd Hw] Hkeep]; [split; [constructor|by right; set_solver]|].
  assert (forall a, Contains b a = bool_decide (a ∈ l.*1)) as Hc.
  { intros a. unfold Contains. apply bool_decide_ext. by rewrite (rp_dom b l a Hr), elem_of_dom. }
  destruct (promoted_refines b l Hr) as [Hp Hs].
  split; [done|]. split; [unfold Len; by rewrite (rp_size b l Hr)|]. split; [done|]. split; [done|]. split; [done|]. split.
  - unfold Len. rewrite (rp_size b l Hr). destruct Hw as [Hw|Hw]; [by left|right]. intros a Ha.
    rewrite Hc in Ha. apply bool_decide_eq_true in Ha. specialize (Hw a Ha). by apply elem_of_list_to_set in Hw.
  - intros r Hin Hse. rewrite Hc. apply bool_decide_eq_true, Hkeep; [by apply elem_of_list_to_set|right; eauto].
Qed.

End Refinement.

(** ** What one event counts for *)

(** A little-endian register number determines its two bytes. *)
Lemma le16_bytes lo hi lo' hi' :
  is_byte lo -> is_byte hi -> is_byte lo' -> is_byte hi' ->
  Z.lor lo (Z.shiftl hi 8) = Z.lor lo' (Z.shiftl hi' 8) <-> lo = lo' /\ hi = hi'.
Proof.
  unfold is_byte. intros H1 H2 H3 H4.
  assert (E : forall x y, 0 <= x < 256 -> 0 <= y -> Z.lor x (Z.shiftl y 8) = x + y * 256).
  { intros x y Hx Hy. pose proof (Z.add_lor_land x (Z.shiftl y 8)) as Hl. rewrite (Z.shiftl_mul_pow2 y 8) in * by lia.
    assert (Z.land x (y * 2 ^ 8) = 0) as Hz; [|lia]. clear Hl. apply Z.bits_inj'. intros n Hn.
    rewrite Z.land_spec, Z.bits_0, Z.mul_pow2_bits by lia.
    destruct (Z.ltb_spec n 8); [rewrite (Z.testbit_neg_r y) by lia; by rewrite andb_false_r|].
    rewrite (Z.bits_above_log2 x); [done|lia|]. destruct (decide (x = 0)) as [->|]; [cbn; lia|].
    assert (Z.log2 x < 8) by (apply Z.log2_lt_pow2; lia). lia. }
  rewrite !E by lia. lia.
Qed.

Section Event.
Context `{P : EbusProtocol} (order : gset Z -> list Z).

(** The addresses evidence is about: bytes that a device can respond at,
    other than the gateway's own. *)
Definition possibleResponder (adm a : Z) : Prop :=
  0x03 <= a /\ a <> 0xAA /\ a <> 0xFE /\ a <> 0xFF /\ (adm <> 0 -> a <> adm) /\ IsInitiatorCapableAddress a = false.

(** A reply to a B524 register access that repeats the group and the
    register it asked for, after one byte or after two, and an identity of at
    least four bytes in reply to a B509 scan. *)
Definition echoesRegister (request response : list byte) : Prop :=
  exists op rw group instance lo hi more rest,
    request = op :: rw :: group :: instance :: lo :: hi :: more /\
    ((exists s, response = s :: group :: lo :: hi :: rest) \/ (exists s1 s2, response = s1 :: s2 :: group :: lo :: hi :: rest)).
Definition identifies (request response : list byte) : Prop :=
  (exists more, request = 0x29 :: more) /\ (4 <= length response)%nat.
Definition coherentReply (request response : Frame) : Prop :=
  Primary request = 0xB5 /\
  (Secondary request = 0x24 /\ echoesRegister (Data request) (Data response) \/
   Secondary request = 0x09 /\ identifies (Data request) (Data response)).

(** The part an address has in an event, and what it counts for. *)
Definition answers (e : PassiveClassifiedEvent) (a : Z) : Prop :=
  Target (EvRequest e) = a \/ HasResponse e = true /\ Source (EvResponse e) = a.
Definition answeredCoherently (e : PassiveClassifiedEvent) : Prop :=
  HasResponse e = true /\ coherentReply (EvRequest e) (EvResponse e).
Inductive part (e : PassiveClassifiedEvent) (a : Z) : EvidenceStrength -> Prop :=
| part_broadcaster : EvKind e = PassiveClassifiedEventBroadcastFrame -> Source (EvRequest e) = a -> part e a EvidencePresenceOnly
| part_master : EvKind e = PassiveClassifiedEventMasterFrame -> Source (EvRequest e) = a \/ Target (EvRequest e) = a ->
    part e a EvidenceWeak
| part_coherent : EvKind e = PassiveClassifiedEventTransaction -> answers e a -> answeredCoherently e -> part e a EvidenceStrong
| part_responder : EvKind e = PassiveClassifiedEventTransaction -> answers e a -> ~ answeredCoherently e -> part e a EvidenceWeak
| part_requester : EvKind e = PassiveClassifiedEventTransaction -> Source (EvRequest e) = a -> ~ answers e a ->
    part e a EvidenceWeak.

(** The frames of an event carry bytes. *)
Definition event_bytes (e : PassiveClassifiedEvent) : Prop :=
  all_bytes (Data (EvRequest e)) /\ all_bytes (Data (EvResponse e)).

Lemma candidate_iff adm a : 0 <= a -> isPassiveEvidenceCandidate a adm = true <-> possibleResponder adm a.
Proof.
  intros Ha. unfold isPassiveEvidenceCandidate, possibleResponder.
  destruct (Z.eqb_spec a 0x00), (Z.eqb_spec a 0xAA), (Z.eqb_spec a 0xFE), (Z.eqb_spec a 0xFF), (Z.ltb_spec a 0x03); cbn [orb];
    try (split; [done|lia]).
  destruct (Z.eqb_spec adm 0), (Z.eqb_spec a adm); cbn [negb andb]; try (split; [done|lia]);
    rewrite negb_true_iff; (split; [intros ?; split_and!; [lia..|done]|tauto]).
Qed.

Lemma echoes_iff request response :
  all_bytes request -> all_bytes response ->
  match b524RequestParameters request with
  | None => false
  | Some (group, addr) => IsB524ResponseCoherent response group addr
  end = true <-> echoesRegister request response.
Proof.
  intros Hq Hr. unfold b524RequestParameters.
  destruct request as [|op [|rw [|group [|inst [|lo [|hi more]]]]]]; cbn [length len]; 
    try (split; [cbn; done|intros (? & ? & ? & ? & ? & ? & ? & ? & ? & _); discriminate]).
  rewrite (proj2 (Z.ltb_ge _ _)) by lia. cbn [at_ nth]. unfold all_bytes in Hq. rewrite !Forall_cons in Hq.
  destruct Hq as (_ & _ & _ & _ & Hlo & Hhi & _). unfold IsB524ResponseCoherent.
  assert (Hs : forall g b c, is_byte b -> is_byte c ->
    (g =? group) && (Z.lor b (Z.shiftl c 8) =? Z.lor lo (Z.shiftl hi 8)) = true <-> g = group /\ b = lo /\ c = hi).
  { intros g b c Hb Hc. by rewrite andb_true_iff, !Z.eqb_eq, le16_bytes. }
  destruct response as [|r0 [|r1 [|r2 [|r3 rest]]]];
    try (split; [cbn; done|intros (? & ? & ? & ? & ? & ? & ? & ? & _ & [(? & ?)|(? & ? & ?)]); discriminate]).
  unfold all_bytes in Hr. rewrite !Forall_cons in Hr. destruct Hr as (_ & H1 & H2 & H3 & Hrest).
  rewrite (proj2 (Z.ltb_ge _ _)) by (cbn; lia). destruct rest as [|r4 rest].
  - change (5 <=? len [r0; r1; r2; r3]) with false. cbn [andb at_ nth]. rewrite Hs by done. split.
    + intros (-> & -> & ->). eexists _, _, _, _, _, _, _, []. split; [done|]. left. by exists r0.
    + intros (? & ? & ? & ? & ? & ? & ? & ? & [= <- <- <- <- <- <- <-] & [(? & [= -> -> -> ->])|(? & ? & ?)]); done.
  - apply Forall_cons in Hrest as [H4 _]. rewrite (proj2 (Z.leb_le _ _)) by (cbn; lia). cbn [andb at_ nth].
    destruct ((r2 =? group) && _) eqn:E.
    + apply Hs in E as (-> & -> & ->); [|done..]. split; [|done]. intros _. eexists _, _, _, _, _, _, _, rest. split; [done|].
      right. by exists r0, r1.
    + apply not_true_iff_false in E. rewrite Hs in E by done. rewrite Hs by done. split.
      * intros (-> & -> & ->). eexists _, _, _, _, _, _, _, (r4 :: rest). split; [done|]. left. by exists r0.
      * intros (? & ? & ? & ? & ? & ? & ? & ? & [= <- <- <- <- <- <- <-] & [(? & [= -> -> -> -> _])|(? & ? & [= -> -> -> -> -> ->])]); [done|tauto].
Qed.

Lemma coherent_iff request response :
  all_bytes (Data request) -> all_bytes (Data response) ->
  passiveResponseIsCoherentVaillantEvidence request response = true <-> coherentReply request response.
Proof.
  intros Hq Hr. unfold passiveResponseIsCoherentVaillantEvidence, coherentReply.
  destruct (Z.eqb_spec (Primary request) 0xB5) as [Hp|]; cbn [andb]; [|split; [done|tauto]].
  destruct (Z.eqb_spec (Secondary request) 0x24) as [Hs|Hs]; cbn [andb].
  - rewrite echoes_iff by done. split; [tauto|]. intros [_ [[_ ?]|[? _]]]; [done|lia].
  - destruct (Z.eqb_spec (Secondary request) 0x09) as [Hs9|]; cbn [andb]; [|split; [done|tauto]].
    unfold identifies. destruct (Data request) as [|b more]; cbn [length at_ nth].
    + split; [done|]. intros [_ [[? _]|[_ [[? ?] _]]]]; done.
    + rewrite (proj2 (Z.ltb_lt _ _)) by lia. cbn [andb]. rewrite andb_true_iff, Z.eqb_eq, Z.leb_le. split.
      * intros [-> Hl]. split; [done|]. right. split; [done|]. split; [by exists more|lia].
      * intros [_ [[? _]|[_ [[? [= -> _]] ?]]]]; [done|]. split; [done|lia].
Qed.

(** The part an address has in an event, computed. *)
Definition roleStrength (e : PassiveClassifiedEvent) (a : Z) : option EvidenceStrength :=
  let src := Source (EvRequest e) =? a in
  let tgt := Target (EvRequest e) =? a in
  match EvKind e with
  | PassiveClassifiedEventBroadcastFrame => if src then Some EvidencePresenceOnly else None
  | PassiveClassifiedEventMasterFrame => if src || tgt then Some EvidenceWeak else None
  | PassiveClassifiedEventTransaction =>
      let responder := tgt || (HasResponse e && (Source (EvResponse e) =? a)) in
      let coherent := HasResponse e && passiveResponseIsCoherentVaillantEvidence (EvRequest e) (EvResponse e) in
      if responder then Some (if coherent then EvidenceStrong else EvidenceWeak)
      else if src then Some EvidenceWeak else None
  | _ => None
  end.

Definition stronger (a : Z) (o : option EvidenceStrength) (c : byte * EvidenceStrength * string)
    : option EvidenceStrength :=
  if c.1.1 =? a then
    match o with
    | Some old => if strengthRank old <? strengthRank c.1.2 then Some c.1.2 else o
    | None => Some c.1.2
    end
  else o.

Lemma perEvent_lookup adm calls a :
  perEvent adm calls !! a = if isPassiveEvidenceCandidate a adm then fold_left (stronger a) calls None else None.
Proof.
  unfold perEvent. induction calls as [|[[x s] kind] calls IH] using rev_ind; simpl.
  { rewrite lookup_empty. by destruct (isPassiveEvidenceCandidate a adm). }
  rewrite !fold_left_app. simpl. set (m := fold_left _ calls ∅) in *. unfold upgradeCandidate, stronger at 1. simpl.
  destruct (Z.eqb_spec x a) as [->|Hne].
  - destruct (isPassiveEvidenceCandidate a adm); simpl; [|done]. rewrite <- IH. fold m.
    destruct (m !! a) as [old|] eqn:Hold; [|by rewrite lookup_insert_eq].
    destruct (_ <? _); [by rewrite lookup_insert_eq|done].
  - rewrite <- IH. destruct (negb _); [done|].
    destruct (m !! x); [destruct (_ <? _)|]; by rewrite ?lookup_insert_ne by done.
Qed.

Lemma strongest_role e a : fold_left (stronger a) (evidenceCalls e) None = roleStrength e a.
Proof.
  unfold evidenceCalls, roleStrength, stronger. destruct (EvKind e); try done; simpl.
  - by destruct (_ =? a), (_ =? a).
  - destruct (HasResponse e); simpl;
      [destruct (passiveResponseIsCoherentVaillantEvidence _ _)|];
      destruct (Source (EvRequest e) =? a), (Target (EvRequest e) =? a); simpl; try done;
      by destruct (Source (EvResponse e) =? a).
Qed.

Lemma role_part e a s : event_bytes e -> roleStrength e a = Some s <-> part e a s.
Proof.
  intros [Hq Hr]. assert (Ha : forall b, (Target (EvRequest e) =? a) || (HasResponse e && (Source (EvResponse e) =? a)) = b ->
    if b then answers e a else ~ answers e a).
  { intros b <-. unfold answers. destruct (Z.eqb_spec (Target (EvRequest e)) a); cbn [orb]; [by left|].
    destruct (HasResponse e), (Z.eqb_spec (Source (EvResponse e)) a); cbn [andb]; first [by right | by intros [?|[? ?]]]. }
  assert (Hc : forall b, HasResponse e && passiveResponseIsCoherentVaillantEvidence (EvRequest e) (EvResponse e) = b ->
    if b then answeredCoherently e else ~ answeredCoherently e).
  { intros b <-. unfold answeredCoherently. pose proof (coherent_iff (EvRequest e) (EvResponse e) Hq Hr) as Hi.
    destruct (HasResponse e), (passiveResponseIsCoherentVaillantEvidence _ _); cbn [andb];
      [split; [done|by apply Hi]|intros [_ ?]; by apply Hi in H|by intros [? _]..]. }
  unfold roleStrength. destruct (EvKind e) eqn:Hk; try (split; [done|intros Hp; inversion Hp; congruence]).
  - destruct (Z.eqb_spec (Source (EvRequest e)) a); (split; [intros [= <-]; by constructor|intros Hp; inversion Hp; congruence]).
  - destruct (Z.eqb_spec (Source (EvRequest e)) a), (Z.eqb_spec (Target (EvRequest e)) a); cbn [orb];
      (split; [intros [= <-]; apply part_master; tauto|intros Hp; inversion Hp; try congruence; tauto]).
  - specialize (Ha _ eq_refl). specialize (Hc _ eq_refl).
    destruct (_ || _); [destruct (_ && _)|destruct (Z.eqb_spec (Source (EvRequest e)) a)];
      (split; [intros [= <-]; by constructor|intros Hp; inversion Hp; try congruence; tauto]).
Qed.

(** C37: An event counts once for an address, and for what it shows.  For
    every event whose frames carry bytes, every admitted source and every
    range order: no address gets two records, and an address gets a record of
    a strength exactly when it is a possible responder (not a reserved
    address, not one an initiator can have, not the gateway's own) and that
    is its part in the event: presence only for the source of a broadcast;
    strong for the responder of a transaction whose
    reply repeats, in one of the two layouts of B524, the group and the
    register the request names, or identifies the device in reply to a B509
    scan; weak for the requester and for any other responder, and for both
    ends of a frame between masters.  Abandoned transactions and
    discontinuities count for nothing. *)
Theorem event_evidence_exact (adm : byte) (now : time) (e : PassiveClassifiedEvent) :
  (forall X, order X ≡ₚ elements X) -> event_bytes e ->
  NoDup (erAddress <$> eventRecords order adm now e)
  /\ forall a s, 0 <= a ->
       (exists r, r ∈ eventRecords order adm now e /\ erAddress r = a /\ erStrength r = s)
       <-> possibleResponder adm a /\ part e a s.
Proof.
  intros Hperm Hbytes. unfold eventRecords. cbv zeta. set (m := perEvent adm (evidenceCalls e)).
  set (at0 := if IsZero (EvObservedAt e) then now else EvObservedAt e).
  set (f := fun addr => s ← m !! addr; Some (mkRecord addr s at0 _)).
  assert (forall x r, f x = Some r <-> exists s, m !! x = Some s
    /\ r = mkRecord x s at0 (default "" (candidateKind adm (evidenceCalls e) !! x))) as Hf.
  { intros x r. unfold f. destruct (m !! x) as [s|]; simpl; split; [intros [= <-]; eauto|intros (? & [= <-] & ->); done|done|].
    by intros (? & ? & _). }
  split.
  - assert (NoDup (order (dom m))) as Hnd by (rewrite Hperm; apply NoDup_elements).
    revert Hnd. generalize (order (dom m)). intros l Hnd. induction Hnd as [|x l Hx Hnd IH]; simpl; [constructor|].
    destruct (f x) as [r|] eqn:Hr; [|done]. simpl. constructor; [|done]. apply Hf in Hr as (s & Hs & ->). simpl.
    intros Hin. apply list_elem_of_fmap in Hin as (r' & -> & Hr'). apply list_elem_of_omap in Hr' as (y & Hy & Hfy).
    apply Hf in Hfy as (s' & _ & ->). done.
  - intros a s Ha. rewrite <- candidate_iff, <- (role_part e a s Hbytes), <- strongest_role by done. pose proof (perEvent_lookup adm (evidenceCalls e) a) as Hl. fold m in Hl.
    split.
    + intros (r & Hr & <- & <-). apply list_elem_of_omap in Hr as (x & Hx & Hfx). apply Hf in Hfx as (s' & Hs' & ->).
      simpl in *. rewrite Hs' in Hl. destruct (isPassiveEvidenceCandidate x adm); [|done]. done.
    + intros [Hc Hs]. rewrite Hc, Hs in Hl.
      exists (mkRecord a s at0 (default "" (candidateKind adm (evidenceCalls e) !! a))). split; [|done].
      apply list_elem_of_omap. exists a. split; [rewrite Hperm, elem_of_elements; by eapply elem_of_dom_2|].
      apply Hf. eauto.
Qed.

End Event.

(** A protected address, two others, and what the buffer says of them. *)
Definition demo_ops : list bufferOp :=
  [ BRecord (mkRecord 0x15 EvidenceWeak 1 ""); BRecord (mkRecord 0x26 EvidenceStrong 2 "");
    BRecord (mkRecord 0xEC EvidencePresenceOnly 3 ""); BRecord (mkRecord 0x15 EvidenceWeak 4 ""); BDemote 0x26 ].

Lemma evidence_buffer_refines_witness :
  match NewEvidenceBuffer 32 [0x15] with
  | inl _ => False
  | inr b0 =>
      snd (bufferRun elements demo_ops b0) = [false; true; false; true; true]
      /\ snd (bufferRun elements demo_ops b0) = snd (lruRun 32 (list_to_set [0x15]) demo_ops [])
  end.
Proof.
  destruct (NewEvidenceBuffer 32 [0x15]) as [err|b0] eqn:E; [vm_compute in E; discriminate|].
  pose proof (evidence_buffer_refines elements (fun X => reflexivity _) 32 [0x15] b0 demo_ops E) as H.
  assert (snd (lruRun 32 (list_to_set [0x15]) demo_ops []) = [false; true; false; true; true]) as El
    by (vm_compute; reflexivity).
  destruct (bufferRun elements demo_ops b0) as [b ps], (lruRun 32 (list_to_set [0x15]) demo_ops []) as [l ps'].
  cbn [snd] in *. destruct H as [-> _]; [reflexivity|]. split; [exact El|reflexivity].
Defined.

(** A transaction the reconstructor hands out, with the frames of a register
    read and of its reply: a strong observation of the responder. *)
Definition demo_overheard : PassiveClassifiedEvent :=
  Eval vm_compute in
  let e := @ReconstructorInv.ReconstructorInv.demo_event in
  mkEvent (EvKind e) (EvFrameType e) (mkFrame 0x10 0x15 0xB5 0x24 [0x02; 0x00; 0x03; 0x01; 0x0F; 0x01])
    (mkFrame 0x15 0x10 0xB5 0x24 [0x00; 0x03; 0x0F; 0x01; 0x2A]) (HasRequest e) (HasResponse e) (Timing e) (EvObservedAt e)
    (AbandonReason e) (DiscontinuityReason e) (ACKCorrelation e) (EvErr e) (Subscriber e) (OffendingSymbol e) (OffendingWasEscaped e).

Lemma event_evidence_exact_witness :
  exists r, r ∈ @eventRecords elements demo_protocol 0x71 1 demo_overheard
    /\ erAddress r = 0x15 /\ erStrength r = EvidenceStrong.
Proof.
  apply (@event_evidence_exact demo_protocol elements 0x71 1 demo_overheard (fun X => reflexivity _)).
  - split; repeat constructor; discriminate.
  - discriminate.
  - split; [repeat split; discriminate|]. apply part_coherent; [reflexivity|left; reflexivity|].
    split; [reflexivity|]. split; [reflexivity|]. left. split; [reflexivity|].
    exists 0x02, 0x00, 0x03, 0x01, 0x0F, 0x01, [], [0x2A]. split; [reflexivity|]. left. exists 0x00. reflexivity.
Defined.

End DiscoverySpec.
