(* ===== verification/DiscoveryPromoter.v ===== *)
(** * The passive discovery promoter: what it probes

    Every probe the promoter sends is justified by what happened before it:
    the evidence heard since the address was last given up, the back-off
    since its last probe, the registry and the admitted source.  A candidate
    that answers is registered. *)

From stdpp Require Import sorting.
From S2P Require Import Prelude Ebus PassiveTap Reconstructor Discovery DiscoverySpec.

Local Open Scope Z_scope.

Module DiscoveryPromoter.
Import Reconstructor Discovery DiscoverySpec.

(** ** Reading a trace *)

(** The last probe of an address that neither gave it up nor registered it. *)
Definition onOpen (a : Z) (o : option (Z * time)) (e : effect) : option (Z * time) :=
  match e with
  | Probe a' k _ now => if a' =? a then Some (k, now) else o
  | GaveUp a' _ | Registered a' => if a' =? a then None else o
  | _ => o
  end.
Definition openProbe (a : Z) (t : list effect) : option (Z * time) := fold_left (onOpen a) t None.

(** The observations, and the strong ones among them, heard of an address
    since its promotion was last taken back. *)
Definition onHeard (a : Z) (n : Z * Z) (e : effect) : Z * Z :=
  match e with
  | Heard r =>
      if erAddress r =? a then
        match erStrength r with
        | EvidencePresenceOnly => n
        | EvidenceWeak => (n.1 + 1, n.2)
        | EvidenceStrong => (n.1 + 1, n.2 + 1)
        end
      else n
  | GaveUp a' true => if a' =? a then (0, 0) else n
  | _ => n
  end.
Definition heardSince (a : Z) (t : list effect) : Z * Z := fold_left (onHeard a) t (0, 0).
Definition enough (n : Z * Z) : Prop := 2 <= n.1 \/ 1 <= n.2.

Definition isProbe (a : Z) (e : effect) : bool :=
  match e with Probe a' _ _ _ => a' =? a | _ => false end.
Definition isEvidence (a : Z) (e : effect) : bool :=
  match e with
  | Heard r => (erAddress r =? a) && negb (bool_decide (erStrength r = EvidencePresenceOnly))
  | _ => false
  end.

Definition backoffAfter (k : Z) : Z :=
  RejoinBackoffSchedule k StartupAdmissionRejoinBackoffBaseSeconds StartupAdmissionRejoinBackoffMaxSeconds.

Lemma openProbe_snoc a t e : openProbe a (t ++ [e]) = onOpen a (openProbe a t) e.
Proof. unfold openProbe. by rewrite fold_left_app. Qed.
Lemma heardSince_snoc a t e : heardSince a (t ++ [e]) = onHeard a (heardSince a t) e.
Proof. unfold heardSince. by rewrite fold_left_app. Qed.
Lemma countb_snoc {A} (p : A -> bool) l x : countb p (l ++ [x]) = (countb p l + if p x then 1 else 0)%nat.
Proof. rewrite countb_app. unfold countb at 2. simpl. by destruct (p x). Qed.

(** ** What a record does to the buffer *)

Section Promoter.
Context `{P : EbusProtocol} (order : gset Z -> list Z) {R : Type} `{!Registry R}.

Lemma evict_lookup b a st :
  entries (evictOldestNonBaselineLocked order b) !! a = Some st -> entries b !! a = Some st.
Proof.
  unfold evictOldestNonBaselineLocked. destruct (fold_left _ _ _) as [[x t]|]; [|done].
  simpl. intros H. by apply lookup_delete_Some in H as [_ ?].
Qed.

Lemma record_lookup r b a st' :
  entries (fst (Record_ order r b)) !! a = Some st' ->
  entries b !! a = Some st'
  \/ (a = erAddress r /\ exists st now, (entries b !! a = Some st \/ st = newAddress)
        /\ st' = fst (observe r now st)).
Proof.
  unfold Record_. cbv zeta. set (b1 := mkBuffer _ _ (entries b) _). change (entries b1) with (entries b).
  destruct (entries b !! erAddress r) as [st|] eqn:Ha.
  - pose proof (surjective_pairing (observe r (tick b1) st)) as E. rewrite E. simpl.
    destruct (decide (a = erAddress r)) as [->|Hne].
    + rewrite lookup_insert_eq. intros [= <-]. right. split; [done|]. exists st, (tick b1). split; [by left|done].
    + rewrite lookup_insert_ne by done. by left.
  - set (b2 := if maxEntries b1 <=? _ then _ else b1).
    assert (forall x sx, entries b2 !! x = Some sx -> entries b !! x = Some sx) as Hsub.
    { intros x sx. subst b2. destruct (_ <=? _); [|done]. apply (evict_lookup b1). }
    destruct (_ && _); [left; by apply Hsub|].
    pose proof (surjective_pairing (observe r (tick b2) newAddress)) as E. rewrite E. simpl.
    destruct (decide (a = erAddress r)) as [->|Hne].
    + rewrite lookup_insert_eq. intros [= <-]. right. split; [done|]. exists newAddress, (tick b2). split; [by right|done].
    + rewrite lookup_insert_ne by done. intros H. left. by apply Hsub.
Qed.

(** ** The invariant *)

Definition contains (a : Z) (r : R) : bool :=
  existsb (fun addresses => SnapshotContainsAddress addresses a) (snapshotAddresses r).

(** The evidence behind an entry of the buffer. *)
Definition backed (t : list effect) (b : EvidenceBuffer) : Prop :=
  forall a st, entries b !! a = Some st ->
    0 <= observations st <= (heardSince a t).1 /\ 0 <= strongObs st <= (heardSince a t).2
    /\ (promoted st = true -> 2 <= observations st \/ 1 <= strongObs st).

(** The attempts of an address are those of its open probe, and its next
    probe is due after the back-off; [fly] is the address being probed and
    the time of the tick. *)
Definition attemptOf (a : Z) (p : PassiveDiscoveryPromoter R) : Z :=
  default 0 (attempts <$> attemptsByAddr p !! a).
Definition attempts_ok (fly : option (Z * time)) (t : list effect) (p : PassiveDiscoveryPromoter R) : Prop :=
  forall a,
  match attemptsByAddr p !! a with
  | None => openProbe a t = None
  | Some st => exists now, openProbe a t = Some (attempts st, now) /\ 1 <= attempts st <= 5 /\ 0 < now
      /\ (forall now1, fly = Some (a, now1) -> now = now1)
      /\ ((forall now1, fly <> Some (a, now1)) ->
          attempts st <= 4 /\ nextAttemptAt st = now + backoffAfter (attempts st))
  end.

(** The probes of an address are paid for by its evidence. *)
Definition paid (t : list effect) (p : PassiveDiscoveryPromoter R) (a : Z) : Prop :=
  Z.of_nat (countb (isProbe a) t) <= 5 * (Z.of_nat (countb (isEvidence a) t) - 1) + attemptOf a p.
Definition budget_ok (t : list effect) (p : PassiveDiscoveryPromoter R) : Prop :=
  forall a, Z.of_nat (countb (isProbe a) t) <= 5 * Z.of_nat (countb (isEvidence a) t)
    /\ (isPromoted (evidenceBuf p) a = true -> registryContains a p = false -> paid t p a).

(** What a probe needs. *)
Definition probe_ok (r0 : R) (t : list effect) (a k adm : Z) (now : time) : Prop :=
  adm <> 0 /\ isPassiveEvidenceCandidate a adm = true /\ 1 <= k <= 5
  /\ contains a r0 = false /\ Registered a ∉ t /\ enough (heardSince a t)
  /\ match openProbe a t with
     | None => k = 1
     | Some (k', now') => k = k' + 1 /\ now' + backoffAfter k' <= now
     end.
(** What an address given up needs: its fifth probe in a row. *)
Definition effect_ok (r0 : R) (t : list effect) (e : effect) : Prop :=
  match e with
  | Probe a k adm now => probe_ok r0 t a k adm now
  | GaveUp a _ => exists now, openProbe a t = Some (5, now)
  | _ => True
  end.
Definition justified (r0 : R) (t : list effect) : Prop := forall t1 e t2, t = t1 ++ e :: t2 -> effect_ok r0 t1 e.

Record promoter_ok (r0 : R) (fly : option (Z * time)) (t : list effect) (p : PassiveDiscoveryPromoter R) : Prop := mkPromoterOk {
  pr_backed : backed t (evidenceBuf p);
  pr_attempts : attempts_ok fly t p;
  pr_budget : budget_ok t p;
  pr_registry a : contains a r0 = true \/ Registered a ∈ t -> registryContains a p = true;
  pr_justified : justified r0 t
}.

Lemma justified_snoc r0 t e : justified r0 t -> effect_ok r0 t e -> justified r0 (t ++ [e]).
Proof.
  intros Hj He t1 x t2 E. destruct t2 as [|y t2 _] using rev_ind.
  - apply app_inj_tail in E as [-> ->]. exact He.
  - rewrite app_comm_cons, app_assoc in E. apply app_inj_tail in E as [-> _]. by apply (Hj t1 x t2).
Qed.

(** The candidates of a tick keep their standing while others act. *)
Definition standing_ok (t : list effect) (p : PassiveDiscoveryPromoter R) (a : Z) : Prop :=
  enough (heardSince a t) /\ (registryContains a p = false -> paid t p a).

(** ** Others act *)

Lemma heard_nonneg a t : 0 <= (heardSince a t).1 /\ 0 <= (heardSince a t).2.
Proof.
  induction t as [|e t IH] using rev_ind; [done|]. rewrite heardSince_snoc. unfold onHeard.
  destruct e as [r| | |a' [|]| | |]; try done; destruct (_ =? a); try (simpl; lia).
  destruct (erStrength r); simpl; lia.
Qed.

Lemma backed_record t r b : backed t b -> backed (t ++ [Heard r]) (fst (Record_ order r b)).
Proof.
  intros Hb a st' Hst. rewrite heardSince_snoc. pose proof (heard_nonneg a t) as [Hn1 Hn2].
  apply record_lookup in Hst as [Hst|(-> & st & now & Hst & ->)].
  - destruct (Hb a st' Hst) as (H1 & H2 & H3). unfold onHeard. destruct (_ =? a); [|done].
    destruct (erStrength r); simpl; split_and!; done || lia.
  - assert (0 <= observations st <= (heardSince (erAddress r) t).1 /\ 0 <= strongObs st <= (heardSince (erAddress r) t).2
      /\ (promoted st = true -> 2 <= observations st \/ 1 <= strongObs st)) as (H1 & H2 & H3).
    { destruct Hst as [Hst| ->]; [by apply Hb|]. simpl. split; [lia|]. split; [lia|done]. }
    unfold onHeard, observe. rewrite Z.eqb_refl.
    destruct (erStrength r); simpl; [done|..]; destruct (promoted st); simpl;
      try destruct (_ || _) eqn:E; simpl; split_and!; try lia; intros ?; try done;
      apply orb_true_iff in E as [E|E]; bool_facts; lia.
Qed.

Lemma record_promoted r b a :
  isPromoted (fst (Record_ order r b)) a = true ->
  isPromoted b a = true \/ isEvidence a (Heard r) = true.
Proof.
  unfold isPromoted at 1. destruct (entries (fst (Record_ order r b)) !! a) as [st'|] eqn:Hst; [|done]. intros Hp.
  apply record_lookup in Hst as [Hst|(-> & st & now & Hst & ->)].
  - left. unfold isPromoted. by rewrite Hst.
  - simpl. rewrite Z.eqb_refl. unfold observe in Hp. destruct (erStrength r); [|by right..].
    left. simpl in Hp. destruct Hst as [Hst| ->]; [|done]. unfold isPromoted. by rewrite Hst.
Qed.

(** An address that was not heard of keeps its counts. *)
Lemma heard_counts a r t :
  countb (isProbe a) (t ++ [Heard r]) = countb (isProbe a) t
  /\ countb (isEvidence a) (t ++ [Heard r]) = (countb (isEvidence a) t + if isEvidence a (Heard r) then 1 else 0)%nat.
Proof. rewrite !countb_snoc. simpl. split; [lia|done]. Qed.

Definition hears (r : EvidenceRecord) (p : PassiveDiscoveryPromoter R) : PassiveDiscoveryPromoter R :=
  set_evidence (fst (Record_ order r (evidenceBuf p))) p.

Lemma hears_ok r0 fly t p r : promoter_ok r0 fly t p -> promoter_ok r0 fly (t ++ [Heard r]) (hears r p).
Proof.
  intros [B1 B2 B3 B4 B5]. split.
  - by apply backed_record.
  - intros a. specialize (B2 a). rewrite openProbe_snoc. exact B2.
  - intros a. specialize (B3 a) as [C1 C2]. unfold paid. destruct (heard_counts a r t) as [-> ->].
    split; [destruct (isEvidence a (Heard r)); lia|]. intros Hp Hr.
    unfold attemptOf, hears, set_evidence in *. cbn [attemptsByAddr evidenceBuf] in *.
    apply record_promoted in Hp as [Hp|Hp].
    + specialize (C2 Hp Hr). unfold paid, attemptOf in C2. destruct (isEvidence a (Heard r)); lia.
    + rewrite Hp. specialize (B2 a). destruct (attemptsByAddr p !! a) as [st|]; simpl; [|lia].
      destruct B2 as (now & _ & H & _). lia.
  - intros a H. apply B4. destruct H as [H|H]; [by left|right]. apply elem_of_app in H as [H|H]; [done|].
    by apply list_elem_of_singleton in H.
  - by apply justified_snoc.
Qed.

Lemma hears_standing t p r a : standing_ok t p a -> standing_ok (t ++ [Heard r]) (hears r p) a.
Proof.
  intros [He Hp]. split.
  - rewrite heardSince_snoc. unfold onHeard, enough in *. destruct (_ =? a); [|done]. destruct (erStrength r); simpl; lia || done.
  - intros Hr. specialize (Hp Hr). unfold paid in *. destruct (heard_counts a r t) as [-> ->].
    unfold attemptOf in *. simpl. destruct (_ && _); lia.
Qed.

Lemma contains_iff a (r : R) : contains a r = true <-> exists l, l ∈ snapshotAddresses r /\ a ∈ l.
Proof.
  unfold contains, SnapshotContainsAddress. rewrite existsb_exists. setoid_rewrite existsb_exists.
  setoid_rewrite <- list_elem_of_In. split.
  - intros (l & Hl & x & Hx & E). apply Z.eqb_eq in E as ->. by exists l.
  - intros (l & Hl & Hx). exists l. split; [done|]. exists a. by rewrite Z.eqb_refl.
Qed.

Context `{!RegistryLaws R}.

Lemma contains_keeps a x (r : R) : contains x r = true -> contains x (Register_ a r) = true.
Proof. intros H. apply contains_iff, register_keeps, contains_iff, H. Qed.
Lemma contains_found a (r : R) : contains a (Register_ a r) = true.
Proof. apply contains_iff, register_found. Qed.
Lemma contains_before a x (r : R) : contains x (Register_ a r) = false -> contains x r = false.
Proof. intros H. apply not_true_is_false. intros Hx. by rewrite (contains_keeps a x r Hx) in H. Qed.

Lemma registers_ok r0 fly t p a :
  promoter_ok r0 fly t p -> promoter_ok r0 fly t (set_registry (Register_ a (registry p)) p).
Proof.
  intros [B1 B2 B3 B4 B5]. split; try done.
  - intros x. destruct (B3 x) as [C1 C2]. split; [done|]. intros Hp Hr. apply (C2 Hp). by apply (contains_before a).
  - intros x Hx. apply contains_keeps, (B4 x Hx).
Qed.

(** What others do, as a step of the trace. *)
Lemma hearing_ok r0 fly rs : forall t p,
  promoter_ok r0 fly t p ->
  let p' := fold_left (fun p r => hears r p) rs p in
  promoter_ok r0 fly (t ++ (Heard <$> rs)) p' /\ attemptsByAddr p' = attemptsByAddr p
  /\ forall a, standing_ok t p a -> standing_ok (t ++ (Heard <$> rs)) p' a.
Proof.
  induction rs as [|r rs IH]; intros t p Hok; cbn [fold_left].
  - cbn [fmap list_fmap]. rewrite app_nil_r. done.
  - destruct (IH (t ++ [Heard r]) (hears r p) (hears_ok r0 fly t p r Hok)) as (H1 & H2 & H3).
    rewrite <- app_assoc in H1, H3. split; [exact H1|]. split; [by rewrite H2|].
    intros a Ha. apply H3. by apply hears_standing.
Qed.

Lemma hears_fold rs : forall p,
  fold_left (fun p r => hears r p) rs p
  = set_evidence (fold_left (fun b r => fst (Record_ order r b)) rs (evidenceBuf p)) p.
Proof.
  induction rs as [|r rs IH]; intros p; cbn [fold_left]; [by destruct p|]. by rewrite IH.
Qed.

Lemma other_ok r0 fly t p o :
  promoter_ok r0 fly t p ->
  promoter_ok r0 fly (t ++ otherEffects order o) (other order o p)
  /\ attemptsByAddr (other order o p) = attemptsByAddr p
  /\ forall a, standing_ok t p a -> standing_ok (t ++ otherEffects order o) (other order o p) a.
Proof.
  intros Hok. destruct o as [r|adm now e|a]; cbn [other otherEffects].
  - exact (hearing_ok r0 fly [r] t p Hok).
  - unfold OnPassiveClassifiedEvent, recordEvidenceFromEventLocked.
    destruct (EvKind e); try (rewrite <- hears_fold; exact (hearing_ok r0 fly _ t p Hok));
      rewrite app_nil_r; by destruct p.
  - rewrite app_nil_r. split; [by apply registers_ok|]. split; [done|]. intros x [H1 H2]. split; [done|].
    intros Hr. apply H2. by apply (contains_before a).
Qed.

Lemma others_ok r0 fly os : forall t p,
  promoter_ok r0 fly t p ->
  promoter_ok r0 fly (t ++ (os ≫= otherEffects order)) (others order os p)
  /\ attemptsByAddr (others order os p) = attemptsByAddr p
  /\ forall a, standing_ok t p a -> standing_ok (t ++ (os ≫= otherEffects order)) (others order os p) a.
Proof.
  induction os as [|o os IH]; intros t p Hok.
  - cbn. rewrite app_nil_r. done.
  - destruct (other_ok r0 fly t p o Hok) as (H1 & H2 & H3).
    destruct (IH _ _ H1) as (K1 & K2 & K3). rewrite <- app_assoc in K1, K3.
    split; [exact K1|]. split; [etrans; [exact K2|exact H2]|]. intros a Ha. apply K3, H3, Ha.
Qed.

(** ** A probe *)

Lemma attempt_range r0 fly t p a : promoter_ok r0 fly t p -> 0 <= attemptOf a p <= 5.
Proof.
  intros [_ B2 _ _ _]. specialize (B2 a). unfold attemptOf. destruct (attemptsByAddr p !! a); simpl; [|lia].
  destruct B2 as (now & _ & H & _). lia.
Qed.

Lemma probe_start r0 t p addr adm now :
  promoter_ok r0 None t p -> standing_ok t p addr -> adm <> 0 -> isPassiveEvidenceCandidate addr adm = true ->
  registryContains addr p = false -> 0 < now ->
  (forall st, attemptsByAddr p !! addr = Some st -> nextAttemptAt st <= now) ->
  let p1 := recordAttemptStart addr p in
  let t1 := t ++ [Probe addr (attemptOf addr p1) adm now] in
  promoter_ok r0 (Some (addr, now)) t1 p1
  /\ forall a, a <> addr -> standing_ok t p a -> standing_ok t1 p1 a.
Proof.
  intros Hok [He Hpaid] Hadm Hcand Hreg Hnow Hdue p1 t1. specialize (Hpaid Hreg).
  assert (attemptOf addr p1 = attemptOf addr p + 1) as Ea.
  { unfold attemptOf, p1, recordAttemptStart. simpl. rewrite lookup_insert_eq. simpl.
    by destruct (attemptsByAddr p !! addr). }
  assert (forall a, a <> addr -> attemptsByAddr p1 !! a = attemptsByAddr p !! a) as Hne.
  { intros a Ha. unfold p1, recordAttemptStart. simpl. by rewrite lookup_insert_ne. }
  assert (0 <= attemptOf addr p <= 4) as Hrange.
  { pose proof (pr_attempts _ _ _ _ Hok addr) as B2. unfold attemptOf.
    destruct (attemptsByAddr p !! addr); simpl; [|lia]. destruct B2 as (n & _ & H1 & _ & _ & H2).
    destruct H2 as [H2 _]; [done|]. lia. }
  assert (forall a, countb (isProbe a) t1 = (countb (isProbe a) t + if (a =? addr)%Z then 1 else 0)%nat
    /\ countb (isEvidence a) t1 = countb (isEvidence a) t) as Hcount.
  { intros a. unfold t1. rewrite !countb_snoc. simpl. rewrite (Z.eqb_sym addr a). split; [done|lia]. }
  assert (forall a, paid t p a -> paid t1 p1 a) as Hp1.
  { intros a. unfold paid. destruct (Hcount a) as [-> ->]. destruct (Z.eqb_spec a addr) as [->|Ha]; [rewrite Ea; lia|].
    unfold attemptOf. rewrite Hne by done. lia. }
  destruct Hok as [B1 B2 B3 B4 B5]. split; [split|].
  - intros a st Hst. unfold t1. rewrite heardSince_snoc. by apply (B1 a st).
  - intros a. unfold t1. rewrite openProbe_snoc. unfold onOpen. destruct (Z.eqb_spec addr a) as [<-|Ha].
    + unfold p1 at 1, recordAttemptStart. cbn [set_attempts attemptsByAddr]. rewrite lookup_insert_eq. exists now.
      assert (attempts (default (mkAttempt 0 0) (attemptsByAddr p !! addr)) = attemptOf addr p) as E
        by (unfold attemptOf; by destruct (attemptsByAddr p !! addr)). cbn [attempts]. rewrite E, Ea.
      split; [done|]. split; [lia|]. split; [done|]. split; [by intros n [= ->]|].
      intros Hf. by destruct (Hf now).
    + rewrite Hne by done. specialize (B2 a). destruct (attemptsByAddr p !! a) as [st|]; [|done].
      destruct B2 as (n & H1 & H2 & H3 & _ & H5). exists n. split; [done|]. split; [done|]. split; [done|].
      split; [by intros n1 [= ? _]|]. intros _. by apply H5.
  - intros a. destruct (B3 a) as [C1 C2]. split.
    + destruct (Hcount a) as [-> ->]. destruct (Z.eqb_spec a addr) as [->|]; [unfold paid in Hpaid; lia|lia].
    + intros Hpr Hr. by apply Hp1, C2.
  - intros a Ha. apply (B4 a). destruct Ha as [Ha|Ha]; [by left|right]. unfold t1 in Ha.
    apply elem_of_app in Ha as [Ha|Ha]; [done|]. by apply list_elem_of_singleton in Ha.
  - apply justified_snoc; [done|]. split; [done|]. split; [done|]. split; [lia|].
    assert (forall P : Prop, (P -> registryContains addr p = true) -> ~ P) as Hno by (intros Q HQ HP; rewrite HQ in Hreg; done).
    split; [apply not_true_is_false, Hno; intros H; apply B4; by left|].
    split; [apply Hno; intros H; apply B4; by right|]. split; [done|].
    specialize (B2 addr). rewrite Ea. unfold attemptOf. destruct (attemptsByAddr p !! addr) as [st|] eqn:Hst; simpl.
    + destruct B2 as (n & -> & _ & _ & _ & H5). destruct H5 as [_ H5]; [done|]. split; [done|].
      rewrite <- H5. by apply Hdue.
    + by rewrite B2.
  - intros a Ha [H1 H2]. split; [unfold t1; by rewrite heardSince_snoc|]. intros Hr. by apply Hp1, H2.
Qed.

(** Standing of the others when an address is dealt with. *)
Lemma standing_frame t p p' a e :
  standing_ok t p a -> attemptsByAddr p' !! a = attemptsByAddr p !! a ->
  (registryContains a p' = false -> registryContains a p = false) ->
  match e with GaveUp a' _ | Registered a' => a' <> a | RouterRefresh | SemanticRefresh => True | _ => False end ->
  standing_ok (t ++ [e]) p' a.
Proof.
  intros [H1 H2] Ha Hr He. split.
  - rewrite heardSince_snoc. destruct e as [| | |a' [|]| | |]; try done. simpl. destruct (Z.eqb_spec a' a); [done|exact H1].
  - intros Hc. specialize (H2 (Hr Hc)). unfold paid, attemptOf in *. rewrite Ha, !countb_snoc.
    destruct e as [| | |a' [|]| | |]; try done; simpl; lia.
Qed.

Lemma snoc_quiet r0 fly t p e :
  promoter_ok r0 fly t p -> match e with RouterRefresh | SemanticRefresh => True | _ => False end ->
  promoter_ok r0 fly (t ++ [e]) p.
Proof.
  intros [B1 B2 B3 B4 B5] He. destruct e; try done; split;
    try (intros a st Hst; rewrite heardSince_snoc; by apply (B1 a st));
    try (intros a; specialize (B2 a); rewrite openProbe_snoc; exact B2);
    try (intros a; specialize (B3 a); unfold paid in *; rewrite !countb_snoc, !Nat.add_0_r; exact B3);
    try (intros a Ha; apply B4; destruct Ha as [Ha|Ha]; [by left|right];
         apply elem_of_app in Ha as [Ha|Ha]; [done|by apply list_elem_of_singleton in Ha]);
    by apply justified_snoc.
Qed.

(** The probe failed, and the address is due again later. *)
Lemma probe_retry r0 t p addr now st :
  promoter_ok r0 (Some (addr, now)) t p -> attemptsByAddr p !! addr = Some st -> attempts st <= 4 ->
  promoter_ok r0 None t
    (mkPromoter (registry p) (evidenceBuf p)
       (<[addr := mkAttempt (attempts st) (now + backoffAfter (attempts st))]> (attemptsByAddr p))
       (confirmedTotal p) (incr64 (rejectedTotal p)) (skippedTotal p)).
Proof.
  intros [B1 B2 B3 B4 B5] Hst Hle. split; try done.
  - intros a. specialize (B2 a). simpl. destruct (decide (a = addr)) as [->|Ha].
    + rewrite lookup_insert_eq. rewrite Hst in B2. destruct B2 as (n & H1 & H2 & H3 & H4 & _).
      rewrite (H4 now eq_refl) in *. exists now. simpl. split; [done|]. split; [done|]. split; [done|].
      split; [done|]. intros _. done.
    + rewrite lookup_insert_ne by done. destruct (attemptsByAddr p !! a) as [sa|]; [|done].
      destruct B2 as (n & H1 & H2 & H3 & _ & H5). exists n. split; [done|]. split; [done|]. split; [done|].
      split; [done|]. intros _. apply H5. intros n1 [= ? _]. done.
  - intros a. destruct (B3 a) as [C1 C2]. split; [done|]. intros Hp Hr. specialize (C2 Hp Hr).
    unfold paid, attemptOf in *. simpl. destruct (decide (a = addr)) as [->|Ha].
    + rewrite lookup_insert_eq. rewrite Hst in C2. exact C2.
    + by rewrite lookup_insert_ne.
Qed.

Lemma demote_lookup a b a' st :
  entries (fst (Demote a b)) !! a' = Some st ->
  (a' <> a /\ entries b !! a' = Some st)
  \/ (a' = a /\ promoted st = false
      /\ if snd (Demote a b) then observations st = 0 /\ strongObs st = 0 else entries b !! a' = Some st).
Proof.
  unfold Demote. destruct (entries b !! a) as [sa|] eqn:Ha.
  - destruct (promoted sa) eqn:Hp; simpl.
    + destruct (decide (a' = a)) as [->|Hne]; [|rewrite lookup_insert_ne by done; by left].
      rewrite lookup_insert_eq. intros [= <-]. by right.
    + intros Hst. destruct (decide (a' = a)) as [->|]; [right|by left]. assert (st = sa) as -> by congruence. done.
  - simpl. intros Hst. left. split; [|done]. intros ->. congruence.
Qed.

(** The attempts of an address are dropped. *)
Lemma attempts_drop addr now t e p m :
  attempts_ok (Some (addr, now)) t p -> attemptsByAddr m = delete addr (attemptsByAddr p) ->
  match e with GaveUp a _ | Registered a => a = addr | _ => False end ->
  attempts_ok None (t ++ [e]) m.
Proof.
  intros B2 Hm He a. rewrite Hm, openProbe_snoc. specialize (B2 a). destruct (decide (a = addr)) as [->|Ha].
  - rewrite lookup_delete_eq. destruct e; try done; subst; simpl; by rewrite Z.eqb_refl.
  - rewrite lookup_delete_ne by done.
    assert (onOpen a (openProbe a t) e = openProbe a t) as ->.
    { destruct e; try done; subst; simpl; destruct (Z.eqb_spec addr a); congruence. }
    destruct (attemptsByAddr p !! a) as [sa|]; [|done].
    destruct B2 as (n & H1 & H2 & H3 & _ & H5). exists n. split; [done|]. split; [done|]. split; [done|].
    split; [done|]. intros _. apply H5. by intros n1 [= ? _].
Qed.

(** The address is given up. *)
Lemma probe_abandon r0 t p p' addr now :
  promoter_ok r0 (Some (addr, now)) t p -> (exists n, openProbe addr t = Some (5, n)) ->
  registry p' = registry p -> evidenceBuf p' = evidenceBuf p ->
  attemptsByAddr p' = delete addr (attemptsByAddr p) ->
  promoter_ok r0 None (t ++ [GaveUp addr (snd (Demote addr (evidenceBuf p)))])
    (set_evidence (fst (Demote addr (evidenceBuf p))) p').
Proof.
  intros [B1 B2 B3 B4 B5] H5 Er Eb Ea. set (taken := snd (Demote addr (evidenceBuf p))). split.
  - intros a st Hst. rewrite heardSince_snoc. simpl in Hst.
    apply demote_lookup in Hst as [[Hne Hst]|(-> & Hp & Hst)].
    + assert (onHeard a (heardSince a t) (GaveUp addr taken) = heardSince a t) as ->
        by (simpl; destruct taken, (Z.eqb_spec addr a); congruence). by apply B1.
    + fold taken in Hst. simpl. destruct taken.
      * rewrite Z.eqb_refl. simpl. destruct Hst as [-> ->]. rewrite Hp. split; [lia|]. split; [lia|done].
      * by apply B1.
  - eapply attempts_drop; [exact B2| |done]. exact Ea.
  - intros a. destruct (B3 a) as [C1 C2]. unfold paid. rewrite !countb_snoc. simpl. rewrite !Nat.add_0_r.
    split; [done|]. intros Hp Hr. unfold isPromoted in Hp. simpl in Hp.
    destruct (entries (fst (Demote addr (evidenceBuf p))) !! a) as [st|] eqn:Hst; [|done].
    apply demote_lookup in Hst as [[Hne Hst]|(-> & Hp' & _)]; [|congruence].
    unfold registryContains in Hr. simpl in Hr. rewrite Er in Hr.
    assert (paid t p a) as Hpaid by (apply C2; [unfold isPromoted; by rewrite Hst|exact Hr]).
    unfold paid, attemptOf in *. simpl. rewrite Ea, lookup_delete_ne by done. exact Hpaid.
  - intros a Ha. unfold registryContains. simpl. rewrite Er. apply (B4 a). destruct Ha as [Ha|Ha]; [by left|right].
    apply elem_of_app in Ha as [Ha|Ha]; [done|]. by apply list_elem_of_singleton in Ha.
  - by apply justified_snoc.
Qed.

(** The address answered. *)
Lemma probe_confirmed r0 t p addr now :
  promoter_ok r0 (Some (addr, now)) t p ->
  let p' := fst (commitConfirmedRegistration addr (recordAttemptSuccess addr p)) in
  promoter_ok r0 None (t ++ [Registered addr]) p'.
Proof.
  intros [B1 B2 B3 B4 B5] p'.
  assert (forall x, registryContains x p' = contains x (Register_ addr (registry p))) as Hreg by done. split.
  - intros a st Hst. rewrite heardSince_snoc. by apply B1.
  - eapply attempts_drop; [exact B2| |done]. done.
  - intros a. destruct (B3 a) as [C1 C2]. unfold paid. rewrite !countb_snoc. simpl. rewrite !Nat.add_0_r.
    split; [done|]. intros Hp Hr. rewrite Hreg in Hr. destruct (decide (a = addr)) as [->|Ha].
    { by rewrite contains_found in Hr. }
    specialize (C2 Hp (contains_before _ _ _ Hr)). unfold paid, attemptOf in *. simpl. by rewrite lookup_delete_ne.
  - intros a Ha. rewrite Hreg. destruct Ha as [Ha|Ha]; [apply contains_keeps, (B4 a); by left|].
    apply elem_of_app in Ha as [Ha|Ha]; [apply contains_keeps, (B4 a); by right|].
    apply list_elem_of_singleton in Ha as [= ->]. apply contains_found.
  - by apply justified_snoc.
Qed.

(** ** Ticks and runs *)

(** What stays when the context is done. *)
Definition done_ok (r0 : R) (t : list effect) : Prop :=
  justified r0 t /\ forall a, Z.of_nat (countb (isProbe a) t) <= 5 * Z.of_nat (countb (isEvidence a) t).
Definition notProbe (e : effect) : Prop := match e with Probe _ _ _ _ | GaveUp _ _ => False | _ => True end.

Lemma promoter_done r0 fly t p : promoter_ok r0 fly t p -> done_ok r0 t.
Proof. intros [_ _ B3 _ B5]. split; [done|]. intros a. apply B3. Qed.

Lemma done_app r0 eff : forall t, done_ok r0 t -> Forall notProbe eff -> done_ok r0 (t ++ eff).
Proof.
  induction eff as [|e eff IH]; intros t Hd He; [by rewrite app_nil_r|].
  apply Forall_cons in He as [He Heff]. change (e :: eff) with ([e] ++ eff). rewrite app_assoc. apply IH; [|done].
  destruct Hd as [H1 H2]. split; [apply justified_snoc; [done|by destruct e]|].
  intros a. rewrite !countb_snoc. specialize (H2 a). destruct e; try done; simpl; try destruct (_ && _); lia.
Qed.

Lemma other_notProbe os : Forall notProbe (os ≫= otherEffects order).
Proof.
  apply Forall_bind, Forall_forall. intros o _. destruct o as [r|adm now e|a]; simpl; [by repeat constructor| |constructor].
  destruct (EvKind e); try constructor; apply Forall_fmap, Forall_forall; done.
Qed.

Lemma candidate_ok r0 t p addr adm now ans :
  promoter_ok r0 None t p -> standing_ok t p addr -> adm <> 0 -> isPassiveEvidenceCandidate addr adm = true ->
  registryContains addr p = false -> 0 < now ->
  (forall st, attemptsByAddr p !! addr = Some st -> nextAttemptAt st <= now) ->
  let '(p', eff, _) := processCandidate order false adm now ans addr p in
  if cancelled ans then done_ok r0 (t ++ eff)
  else promoter_ok r0 None (t ++ eff) p'
       /\ forall a, a <> addr -> standing_ok t p a -> standing_ok (t ++ eff) p' a.
Proof.
  intros Hok Hst Hadm Hcand Hreg Hnow Hdue. unfold processCandidate. cbn [orb]. cbv zeta.
  set (p1 := recordAttemptStart addr p). fold (attemptOf addr p1).
  destruct (probe_start r0 t p addr adm now Hok Hst Hadm Hcand Hreg Hnow Hdue) as [Hok1 Hst1]. fold p1 in Hok1, Hst1.
  set (pr := Probe addr (attemptOf addr p1) adm now) in *.
  destruct (others_ok r0 (Some (addr, now)) (meanwhile ans) _ _ Hok1) as (Hok2 & Ha2 & Hst2).
  rewrite <- app_assoc in Hok2, Hst2. cbn [app] in Hok2, Hst2.
  set (during := pr :: (meanwhile ans ≫= otherEffects order)) in *. set (p2 := others order (meanwhile ans) p1) in *.
  assert (forall a, a <> addr -> standing_ok t p a -> standing_ok (t ++ during) p2 a) as Hst3
    by (intros a Ha H; by apply Hst2, Hst1).
  assert (exists st, attemptsByAddr p2 !! addr = Some st) as [st Hat].
  { rewrite Ha2. unfold p1, recordAttemptStart. simpl. rewrite lookup_insert_eq. eauto. }
  clearbody p2 during pr. clear Hok1 Hst1 Hst2 Ha2 p1.
  destruct (cancelled ans); [by eapply promoter_done|]. destruct (confirmed ans); cbn [negb].
  - pose proof (probe_confirmed r0 _ p2 addr now Hok2) as Hc. unfold commitConfirmedRegistration in *. cbn [fst] in Hc.
    change [Registered addr; RouterRefresh] with ([Registered addr] ++ [RouterRefresh]). rewrite !app_assoc.
    split; [by apply snoc_quiet|]. intros a Ha H. apply (standing_frame _ (fst (commitConfirmedRegistration addr (recordAttemptSuccess addr p2)))); try done.
    apply (standing_frame _ p2); [by apply Hst3| |exact (contains_before addr a (registry p2))|simpl; congruence].
    simpl. by rewrite lookup_delete_ne.
  - unfold recordAttemptFailure. rewrite Hat. fold (backoffAfter (attempts st)).
    destruct (Z.leb_spec maxConfirmationAttempts (attempts st)) as [Hge|Hlt]; unfold maxConfirmationAttempts in *.
    + set (p3 := set_attempts _ _). change (evidenceBuf p3) with (evidenceBuf p2).
      assert (Hfive : exists n, openProbe addr (t ++ during) = Some (5, n)).
      { pose proof (pr_attempts _ _ _ _ Hok2 addr) as Hx. rewrite Hat in Hx. destruct Hx as (n & Hx & Hr & _).
        exists n. rewrite Hx. do 2 f_equal. lia. }
      pose proof (probe_abandon r0 _ p2 p3 addr now Hok2 Hfive eq_refl eq_refl) as Hb.
      rewrite (surjective_pairing (Demote addr (evidenceBuf p2))), app_assoc. split.
      * apply Hb. simpl. by rewrite delete_insert_eq.
      * intros a Ha H. apply (standing_frame _ p2); [by apply Hst3| |done|congruence].
        simpl. by rewrite lookup_delete_ne, lookup_insert_ne.
    + split; [apply probe_retry; [done|done|lia]|]. intros a Ha H.
      destruct (Hst3 a Ha H) as [H1 H2]. split; [done|]. intros Hr. specialize (H2 Hr).
      unfold paid, attemptOf in *. simpl. by rewrite lookup_insert_ne.
Qed.

Lemma skip_ok r0 t p : promoter_ok r0 None t p -> promoter_ok r0 None t (incSkipped p).
Proof. intros [B1 B2 B3 B4 B5]. by split. Qed.

Lemma should_spec addr adm now p :
  (snd (shouldAttempt addr adm now p) = false /\ fst (shouldAttempt addr adm now p) = incSkipped p)
  \/ (shouldAttempt addr adm now p = (p, true) /\ isPassiveEvidenceCandidate addr adm = true
      /\ registryContains addr p = false
      /\ forall st, attemptsByAddr p !! addr = Some st -> nextAttemptAt st = 0 \/ nextAttemptAt st <= now).
Proof.
  unfold shouldAttempt. destruct (isPassiveEvidenceCandidate addr adm); [|by left]. simpl.
  destruct (registryContains addr p); [by left|]. destruct (attemptsByAddr p !! addr) as [st|]; [|right; by split_and!].
  unfold IsZero. destruct (Z.eqb_spec (nextAttemptAt st) 0), (Z.ltb_spec now (nextAttemptAt st)); simpl;
    (by left) || (right; split_and!; try done; intros s [= <-]; lia).
Qed.

Lemma backoffLoop_nonneg n : forall secs m, 0 <= secs -> 0 <= m -> 0 <= backoffLoop n secs m.
Proof.
  induction n as [|n IH]; intros secs m H1 H2; simpl; unfold second; [lia|].
  destruct (_ <=? _); [lia|]. apply IH; lia.
Qed.
Lemma backoff_nonneg k : 0 <= backoffAfter k.
Proof. apply backoffLoop_nonneg; done. Qed.

Lemma due_now r0 t p addr now st :
  promoter_ok r0 None t p -> attemptsByAddr p !! addr = Some st -> nextAttemptAt st = 0 \/ nextAttemptAt st <= now ->
  nextAttemptAt st <= now.
Proof.
  intros [_ B2 _ _ _] Hst [H|H]; [|done]. specialize (B2 addr). rewrite Hst in B2.
  destruct B2 as (n & _ & _ & Hn & _ & H5). destruct H5 as [_ H5]; [done|].
  pose proof (backoff_nonneg (attempts st)). lia.
Qed.

Lemma loop_ok r0 adm now cands : forall answers t p,
  adm <> 0 -> 0 < now -> NoDup cands -> promoter_ok r0 None t p ->
  (forall a, a ∈ cands -> standing_ok t p a) ->
  let '(p', eff, n) := processLoop order false adm now answers cands p in
  match n with Some _ => promoter_ok r0 None (t ++ eff) p' | None => done_ok r0 (t ++ eff) end.
Proof.
  induction cands as [|addr cands IH]; intros answers t p Hadm Hnow Hnd Hok Hst; cbn [processLoop].
  { by rewrite app_nil_r. }
  apply NoDup_cons in Hnd as [Hni Hnd].
  destruct (should_spec addr adm now p) as [[E1 E2]|(E & Hcand & Hreg & Hdue)].
  - destruct (shouldAttempt addr adm now p) as [q b]. simpl in E1, E2. subst. cbn [negb].
    apply IH; [done|done|done|by apply skip_ok|]. intros a Ha. apply (Hst a). by right.
  - rewrite E. cbn [negb]. pose proof (candidate_ok r0 t p addr adm now (answers 0%nat) Hok (Hst addr ltac:(by left))
      Hadm Hcand Hreg Hnow) as Hc. cbn [orb].
    destruct (processCandidate order false adm now (answers 0%nat) addr p) as [[p2 eff] ok].
    destruct (cancelled (answers 0%nat)).
    + apply Hc. intros st Hst'. eapply due_now; eauto.
    + destruct Hc as [Hok2 Hst2]; [intros st Hst'; eapply due_now; eauto|].
      specialize (IH (fun i => answers (S i)) (t ++ eff) p2 Hadm Hnow Hnd Hok2).
      destruct (processLoop order false adm now _ cands p2) as [[p3 eff'] n]. rewrite app_assoc.
      assert (forall a, a ∈ cands -> standing_ok (t ++ eff) p2 a) as Hst3.
      { intros a Ha. apply Hst2; [by intros ->|]. apply Hst. by right. }
      specialize (IH Hst3). by destruct n.
Qed.

(** With the context done, nothing is probed any more. *)
Lemma dead_loop adm now cands : forall answers p,
  Forall notProbe (snd (fst (processLoop order true adm now answers cands p))).
Proof.
  induction cands as [|addr cands IH]; intros answers p; cbn [processLoop]; [constructor|].
  destruct (shouldAttempt addr adm now p) as [q [|]]; cbn [negb]; [|apply IH].
  unfold processCandidate. cbn [orb fst snd]. constructor; [done|apply other_notProbe].
Qed.
Lemma dead_once adm now answers p :
  let '(_, eff, stop) := processOnce order true adm now answers p in Forall notProbe eff /\ stop = true.
Proof.
  unfold processOnce. destruct (adm =? 0); [by split; [constructor|]|].
  pose proof (dead_loop adm now (PromotedAddresses order (evidenceBuf p)) answers p) as H.
  destruct (processLoop _ _ _ _ _ _ _) as [[p1 eff] [n|]]; cbn [fst snd] in H; [|done].
  split; [|done]. apply Forall_app. split; [done|]. destruct (0 <? n); by repeat constructor.
Qed.
Lemma dead_run r0 steps : forall t p, done_ok r0 t -> done_ok r0 (t ++ snd (runPromoter order steps true p)).
Proof.
  induction steps as [|[adm now answers|o] steps IH]; intros t p Hd; cbn [runPromoter].
  - simpl. by rewrite app_nil_r.
  - pose proof (dead_once adm now answers p) as H.
    destruct (processOnce order true adm now answers p) as [[p1 eff] stop]. destruct H as [He ->].
    specialize (IH (t ++ eff) p1 (done_app r0 eff t Hd He)).
    destruct (runPromoter order steps true p1) as [p2 eff']. simpl in *. by rewrite app_assoc.
  - specialize (IH (t ++ otherEffects order o) (other order o p)).
    destruct (runPromoter order steps true (other order o p)) as [p2 eff']. simpl in *. rewrite app_assoc.
    apply IH, done_app; [done|]. pose proof (other_notProbe [o]) as H. cbn in H. by rewrite app_nil_r in H.
Qed.

Context (order_perm : forall X, order X ≡ₚ elements X).

Lemma promoted_candidates b :
  NoDup (PromotedAddresses order b) /\ forall a, a ∈ PromotedAddresses order b <-> isPromoted b a = true.
Proof.
  unfold PromotedAddresses. split.
  - rewrite merge_sort_Permutation. eapply sublist_NoDup, filter_sublist. rewrite order_perm. apply NoDup_elements.
  - intros a. rewrite merge_sort_Permutation, elem_of_filterb, order_perm, elem_of_elements, elem_of_dom.
    unfold isPromoted. split; [tauto|]. intros H. split; [|done]. destruct (entries b !! a); [eauto|done].
Qed.

Lemma promoted_standing r0 t p a :
  promoter_ok r0 None t p -> a ∈ PromotedAddresses order (evidenceBuf p) -> standing_ok t p a.
Proof.
  intros Hok Ha. apply promoted_candidates in Ha. destruct (pr_budget _ _ _ _ Hok a) as [_ Hb].
  split; [|by apply Hb]. unfold isPromoted in Ha. destruct (entries (evidenceBuf p) !! a) as [st|] eqn:Hst; [|done].
  destruct (pr_backed _ _ _ _ Hok a st Hst) as (H1 & H2 & H3). unfold enough. specialize (H3 Ha). lia.
Qed.

Lemma once_ok r0 t p adm now answers :
  0 < now -> promoter_ok r0 None t p ->
  let '(p', eff, stop) := processOnce order false adm now answers p in
  if stop then done_ok r0 (t ++ eff) else promoter_ok r0 None (t ++ eff) p'.
Proof.
  intros Hnow Hok. unfold processOnce. destruct (Z.eqb_spec adm 0) as [|Hadm]; [by rewrite app_nil_r|].
  pose proof (loop_ok r0 adm now _ answers t p Hadm Hnow (proj1 (promoted_candidates (evidenceBuf p))) Hok
    (fun a => promoted_standing r0 t p a Hok)) as Hl.
  destruct (processLoop _ _ _ _ _ _ _) as [[p1 eff] [n|]]; [|done].
  rewrite app_assoc. destruct (0 <? n); [by apply snoc_quiet|by rewrite app_nil_r].
Qed.

Definition positiveTick (s : promoterStep) : Prop := match s with PTick _ now _ => 0 < now | POther _ => True end.

Lemma promoterRun_ok r0 steps : forall t p,
  Forall positiveTick steps -> promoter_ok r0 None t p ->
  done_ok r0 (t ++ snd (runPromoter order steps false p)).
Proof.
  induction steps as [|[adm now answers|o] steps IH]; intros t p Hpos Hok; cbn [runPromoter].
  - simpl. rewrite app_nil_r. by eapply promoter_done.
  - apply Forall_cons in Hpos as [Hnow Hpos]. pose proof (once_ok r0 t p adm now answers Hnow Hok) as H.
    destruct (processOnce order false adm now answers p) as [[p1 eff] stop]. destruct stop.
    + pose proof (dead_run r0 steps (t ++ eff) p1 H) as Hd.
      destruct (runPromoter order steps true p1) as [p2 eff']. simpl in *. by rewrite app_assoc.
    + specialize (IH (t ++ eff) p1 Hpos H).
      destruct (runPromoter order steps false p1) as [p2 eff']. simpl in *. by rewrite app_assoc.
  - apply Forall_cons in Hpos as [_ Hpos]. destruct (other_ok r0 None t p o Hok) as (H & _ & _).
    specialize (IH _ _ Hpos H). destruct (runPromoter order steps false (other order o p)) as [p2 eff'].
    simpl in *. by rewrite app_assoc.
Qed.

Lemma promoter_new r0 max seed b0 :
  NewEvidenceBuffer max seed = inr b0 -> promoter_ok r0 None [] (NewPassiveDiscoveryPromoter r0 b0).
Proof.
  intros H. unfold NewEvidenceBuffer in H. destruct (ValidateBaselineTopologySeed seed); [done|].
  destruct (_ || _); [done|]. injection H as <-. split.
  - intros a st Hst. simpl in Hst. by rewrite lookup_empty in Hst.
  - intros a. simpl. by rewrite lookup_empty.
  - intros a. split; [done|]. unfold isPromoted. simpl. by rewrite lookup_empty.
  - intros a [Ha|Ha]; [exact Ha|by apply not_elem_of_nil in Ha].
  - intros t1 e t2 E. by destruct t1.
Qed.

(** C29: No probe without cause.  Over any life of the promoter, with anybody
    recording evidence and registering devices at any time, every probe it
    sends comes after an admitted source, goes to a possible responder that
    is not the gateway itself and that neither was in the registry at the
    start nor was registered by the promoter, and is backed by two
    observations or a strong one of the address since its promotion was last
    taken back.  Probes are numbered since the promoter last gave up on the
    address: it is the first, or follows the one before, no earlier than the
    back-off after that one, and is at most the fifth; and the promoter gives
    up on an address only when the fifth of them has failed.  (Times are
    those of the ticks in which the probes were sent.  Giving up forgets the
    back-off: an address that is promoted anew by later evidence may be probed
    at the next tick.) *)
Theorem probe_justified (max : Z) (seed : list byte) (b0 : EvidenceBuffer) (r0 : R) (steps : list promoterStep) :
  NewEvidenceBuffer max seed = inr b0 -> Forall positiveTick steps ->
  let t := snd (runPromoter order steps false (NewPassiveDiscoveryPromoter r0 b0)) in
  (forall t1 a k adm now t2, t = t1 ++ Probe a k adm now :: t2 ->
     adm <> 0 /\ isPassiveEvidenceCandidate a adm = true /\ 1 <= k <= 5
     /\ contains a r0 = false /\ Registered a ∉ t1 /\ enough (heardSince a t1)
     /\ match openProbe a t1 with
        | None => k = 1
        | Some (k', now') => k = k' + 1 /\ now' + backoffAfter k' <= now
        end) /\
  (forall t1 a taken t2, t = t1 ++ GaveUp a taken :: t2 -> exists now, openProbe a t1 = Some (5, now)).
Proof.
  intros Hb Hpos t. destruct (promoterRun_ok r0 steps [] _ Hpos (promoter_new r0 max seed b0 Hb)) as [Hj _]. split.
  - intros t1 a k adm now t2 E. apply (Hj t1 _ t2 E).
  - intros t1 a taken t2 E. apply (Hj t1 _ t2 E).
Qed.

(** Probes are paid for by evidence.  Over any life of the promoter the
    number of probes sent to an address is at most five times the number of
    observations of the address that count: a device that is overheard
    finitely often is probed finitely often, however long the gateway runs
    and whatever the probes say. *)
Theorem probes_bounded (max : Z) (seed : list byte) (b0 : EvidenceBuffer) (r0 : R) (steps : list promoterStep)
    (a : Z) :
  NewEvidenceBuffer max seed = inr b0 -> Forall positiveTick steps ->
  let t := snd (runPromoter order steps false (NewPassiveDiscoveryPromoter r0 b0)) in
  Z.of_nat (countb (isProbe a) t) <= 5 * Z.of_nat (countb (isEvidence a) t).
Proof.
  intros Hb Hpos. destruct (promoterRun_ok r0 steps [] _ Hpos (promoter_new r0 max seed b0 Hb)) as [_ H]. apply H.
Qed.

(** ** Candidates that answer *)

Lemma others_keep os : forall p,
  attemptsByAddr (others order os p) = attemptsByAddr p
  /\ forall a, registryContains a p = true -> registryContains a (others order os p) = true.
Proof.
  induction os as [|o os IH]; intros p; [done|]. destruct (IH (other order o p)) as [H1 H2].
  split; [etrans; [exact H1|]; by destruct o|]. intros a Ha. apply H2. destruct o as [r|adm now e|x]; try done.
  exact (contains_keeps x a (registry p) Ha).
Qed.

Lemma confirmed_registers adm now ans addr p :
  cancelled ans = false -> confirmed ans = true ->
  let '(p', eff, ok) := processCandidate order false adm now ans addr p in
  ok = true /\ registryContains addr p' = true
  /\ (forall a, registryContains a p = true -> registryContains a p' = true)
  /\ (forall a, a <> addr -> attemptsByAddr p' !! a = attemptsByAddr p !! a).
Proof.
  intros Hc Hk. unfold processCandidate. rewrite Hc, Hk. cbn [orb negb]. cbv zeta.
  set (p1 := recordAttemptStart addr p). destruct (others_keep (meanwhile ans) p1) as [H1 H2].
  set (p2 := others order (meanwhile ans) p1) in *. unfold commitConfirmedRegistration.
  split; [done|]. split; [apply (contains_found addr (registry p2))|]. split.
  - intros a Ha. exact (contains_keeps addr a (registry p2) (H2 a Ha)).
  - intros a Ha. simpl. rewrite lookup_delete_ne by done. rewrite H1. unfold p1, recordAttemptStart. simpl.
    by rewrite lookup_insert_ne.
Qed.

Lemma loop_registers adm now cands : forall answers p,
  (forall i, cancelled (answers i) = false /\ confirmed (answers i) = true) ->
  let '(p', eff, n) := processLoop order false adm now answers cands p in
  (forall a, registryContains a p = true -> registryContains a p' = true)
  /\ (forall a, a ∈ cands -> isPassiveEvidenceCandidate a adm = true ->
        (forall st, attemptsByAddr p !! a = Some st -> nextAttemptAt st <= now) -> registryContains a p' = true)
  /\ exists m, n = Some m /\ 0 <= m /\ ((exists b, Registered b ∈ eff) -> 0 < m).
Proof.
  induction cands as [|addr cands IH]; intros answers p Hans; cbn [processLoop].
  { split; [done|]. split; [set_solver|]. exists 0. split; [done|]. split; [done|]. intros [b Hb]. set_solver. }
  destruct (shouldAttempt addr adm now p) as [q att] eqn:Es. destruct att; cbn [negb].
  - assert (q = p) as ->.
    { destruct (should_spec addr adm now p) as [[E _]|(E & _)]; rewrite Es in E; simpl in E; congruence. }
    destruct (Hans 0%nat) as [Hc Hk]. pose proof (confirmed_registers adm now (answers 0%nat) addr p Hc Hk) as H.
    rewrite Hc. cbn [orb]. destruct (processCandidate _ _ _ _ _ _ _) as [[p2 eff] ok]. destruct H as (-> & H2 & H3 & H4).
    specialize (IH (fun i => answers (S i)) p2 (fun i => Hans (S i))).
    destruct (processLoop _ _ _ _ _ cands p2) as [[p3 eff'] n]. destruct IH as (K1 & K2 & m & -> & Hm & _).
    split; [auto|]. split; [|exists (1 + m); split; [done|]; split; [lia|intros _; lia]].
    intros a Ha Hcand Hdue. destruct (decide (a = addr)) as [->|Hne]; [by apply K1|].
    apply K2; [set_solver|done|]. intros st Hst. rewrite H4 in Hst by done. by apply Hdue.
  - assert (q = incSkipped p) as ->.
    { destruct (should_spec addr adm now p) as [[_ E]|(E & _)]; rewrite Es in E; simpl in E; congruence. }
    specialize (IH answers (incSkipped p) Hans).
    destruct (processLoop _ _ _ _ _ cands (incSkipped p)) as [[p3 eff'] n]. destruct IH as (K1 & K2 & K3).
    split; [exact K1|]. split; [|exact K3]. intros a Ha Hcand Hdue.
    apply elem_of_cons in Ha as [->|Ha]; [|by apply K2]. apply K1. change (registryContains addr p = true).
    unfold shouldAttempt in Es. rewrite Hcand in Es. simpl in Es. destruct (registryContains addr p); [done|].
    destruct (attemptsByAddr p !! addr) as [st|]; [|done]. specialize (Hdue st eq_refl).
    destruct (Z.ltb_spec now (nextAttemptAt st)); [lia|]. by rewrite andb_false_r in Es.
Qed.

(** A device that answers is found.  At every tick with an admitted
    source whose probes are all answered, every promoted address that can be
    a responder and whose back-off is over is in the registry when the tick
    ends, whatever others do meanwhile; and when the tick registered any
    device, it ends by asking for one discovery refresh, after the last
    registration. *)
Theorem candidates_registered (p : PassiveDiscoveryPromoter R) (adm : Z) (now : time) (answers : nat -> answer) :
  adm <> 0 -> (forall i, cancelled (answers i) = false /\ confirmed (answers i) = true) ->
  let '(p', eff, stop) := processOnce order false adm now answers p in
  stop = false
  /\ (forall a, isPromoted (evidenceBuf p) a = true -> isPassiveEvidenceCandidate a adm = true ->
        (forall st, attemptsByAddr p !! a = Some st -> nextAttemptAt st <= now) -> registryContains a p' = true)
  /\ ((exists b, Registered b ∈ eff) -> last eff = Some SemanticRefresh).
Proof.
  intros Hadm Hans. unfold processOnce. destruct (Z.eqb_spec adm 0) as [|_]; [done|].
  pose proof (loop_registers adm now (PromotedAddresses order (evidenceBuf p)) answers p Hans) as H.
  destruct (processLoop _ _ _ _ _ _ _) as [[p1 eff] n]. destruct H as (_ & H2 & m & -> & Hm & Hr).
  split; [done|]. split; [intros a Ha; apply H2; by apply promoted_candidates|].
  intros [b Hb]. apply elem_of_app in Hb as [Hb|Hb].
  - destruct (Z.ltb_spec 0 m); [by rewrite last_snoc|]. assert (0 < m) by eauto. lia.
  - destruct (0 <? m); [by rewrite last_snoc|by apply not_elem_of_nil in Hb].
Qed.

End Promoter.

(** The back-off doubles from five seconds. *)
Lemma backoff_values : map backoffAfter [1; 2; 3; 4; 5] = [5 * second; 10 * second; 20 * second; 40 * second; 60 * second].
Proof. reflexivity. Qed.

(** ** Concrete runs *)

(** A registry that is a list of entries. *)
#[export] Instance demo_registry : Registry (list (list Z)) :=
  {| snapshotAddresses := fun r => r; Register_ := fun a r => [a] :: r |}.
#[export] Instance demo_registry_laws : RegistryLaws (list (list Z)).
Proof. split; simpl; [intros addr r; exists [addr]; set_solver|intros addr a r (l & ? & ?); exists l; set_solver]. Qed.
#[local] Existing Instance demo_protocol.

Definition demo_buffer : EvidenceBuffer :=
  Eval vm_compute in match NewEvidenceBuffer 128 [0x08; 0x15] with inr b => b | inl _ => mkBuffer 0 ∅ ∅ 0 end.
Definition demo_heard (a : Z) (s : EvidenceStrength) : otherOp := OtherRecord (mkRecord a s 1 "").
Definition demo_no : nat -> answer := fun _ => mkAnswer false false [].
Definition demo_yes : nat -> answer := fun _ => mkAnswer true false [].

(** A regulator is heard twice; the first probe fails, the second one,
    eight seconds later, is answered. *)
Definition demo_steps : list promoterStep :=
  [ POther (demo_heard 0x15 EvidenceWeak); PTick 0x71 (1 * second) demo_yes; POther (demo_heard 0x15 EvidenceWeak);
    PTick 0x71 (2 * second) demo_no; PTick 0x71 (6 * second) demo_yes; PTick 0x71 (10 * second) demo_yes ].
Definition demo_trace : list effect :=
  Eval vm_compute in snd (runPromoter elements demo_steps false (NewPassiveDiscoveryPromoter [[0x26]] demo_buffer)).

(** The demonstration trace, and a device that never answers: its five
    probes and the end of its promotion. *)
Definition demo_mute : list promoterStep :=
  POther (demo_heard 0x15 EvidenceStrong) :: ((fun n => PTick 0x71 (n * 60 * second) demo_no) <$> [1; 2; 3; 4; 5; 6]).
Definition mute_trace : list effect :=
  Eval vm_compute in snd (runPromoter elements demo_mute false (NewPassiveDiscoveryPromoter [[0x26]] demo_buffer)).

Lemma probe_justified_witness :
  demo_trace = [ Heard (mkRecord 0x15 EvidenceWeak 1 ""); Heard (mkRecord 0x15 EvidenceWeak 1 "");
                 Probe 0x15 1 0x71 (2 * second); Probe 0x15 2 0x71 (10 * second);
                 Registered 0x15; RouterRefresh; SemanticRefresh ]
  /\ enough (heardSince 0x15 (take 3 demo_trace)) /\ 2 * second + backoffAfter 1 <= 10 * second
  /\ last mute_trace = Some (GaveUp 0x15 true) /\ exists now, openProbe 0x15 (take 6 mute_trace) = Some (5, now).
Proof.
  split; [vm_compute; reflexivity|].
  destruct (probe_justified elements (fun X => reflexivity _) 128 [0x08; 0x15] demo_buffer [[0x26]] demo_steps) as [H _];
    [vm_compute; reflexivity|repeat constructor|].
  destruct (H (take 3 demo_trace) 0x15 2 0x71 (10 * second) (drop 4 demo_trace)) as (_ & _ & _ & _ & _ & H1 & H2);
    [vm_compute; reflexivity|].
  split; [exact H1|]. split; [vm_compute in H2; destruct H2 as [_ H2]; vm_compute; exact H2|].
  split; [vm_compute; reflexivity|].
  destruct (probe_justified elements (fun X => reflexivity _) 128 [0x08; 0x15] demo_buffer [[0x26]] demo_mute) as [_ G];
    [vm_compute; reflexivity|repeat constructor|].
  apply (G (take 6 mute_trace) 0x15 true []). vm_compute. reflexivity.
Defined.

Lemma probes_bounded_witness :
  countb (isProbe 0x15) demo_trace = 2%nat /\ countb (isEvidence 0x15) demo_trace = 2%nat
  /\ Z.of_nat (countb (isProbe 0x15) demo_trace) <= 5 * Z.of_nat (countb (isEvidence 0x15) demo_trace).
Proof.
  split; [vm_compute; reflexivity|]. split; [vm_compute; reflexivity|].
  assert (demo_trace = snd (runPromoter elements demo_steps false (NewPassiveDiscoveryPromoter [[0x26]] demo_buffer)))
    as -> by (vm_compute; reflexivity).
  apply (probes_bounded elements (fun X => reflexivity _) 128 [0x08; 0x15] demo_buffer [[0x26]] demo_steps 0x15).
  - vm_compute. reflexivity.
  - repeat constructor.
Defined.

Definition demo_ready : PassiveDiscoveryPromoter (list (list Z)) :=
  Eval vm_compute in fst (runPromoter elements (take 5 demo_steps) false (NewPassiveDiscoveryPromoter [[0x26]] demo_buffer)).
Definition demo_tick := processOnce elements false 0x71 (10 * second) demo_yes demo_ready.

Lemma candidates_registered_witness : registryContains 0x15 (fst (fst demo_tick)) = true.
Proof.
  pose proof (candidates_registered elements (fun X => reflexivity _) demo_ready 0x71 (10 * second) demo_yes) as H.
  unfold demo_tick. destruct (processOnce elements false 0x71 (10 * second) demo_yes demo_ready) as [[p' eff] stop].
  cbn [fst]. destruct H as (_ & H & _); [discriminate|intros i; split; reflexivity|]. apply H.
  - vm_compute. reflexivity.
  - vm_compute. reflexivity.
  - intros st Hst. vm_compute in Hst. injection Hst as <-. vm_compute. discriminate.
Defined.

End DiscoveryPromoter.
