(* ===== verification/B503Session.v ===== *)
(** * The B503 live-monitor session manager

    [internal/vaillant/b503session]: one owner at a time may hold the
    live-monitor session of the heating device.  Requests of the owner run
    outside the locks (a refresh of the transport, a native dispatch), the
    transport can disconnect or move to a new epoch at any point, an idle
    timer expires, the process restarts; the manager has to come out of
    every interleaving with one owner at most and with a cleanup obligation
    for every operation that may have reached the device.

    A call is a thread.  A step is one critical section under [stateMu]; the
    calls made between two sections (the refresh function, the dispatcher)
    end with the result the label of the step gives, so that every result
    and every interleaving is covered.  [mu], the ownership gate, is a lock
    that outlives the section that takes it: taking it when it is held is a
    deadlock and releasing it when it is free a fatal error, and both are the
    result [None] of a section, as is a field of a nil [m.cleanup].  Pending
    operations are objects in a store, named by their index, because calls
    keep pointers to operations the manager has dropped. *)

From S2P Require Import Prelude.

Local Open Scope Z_scope.

Module B503.

(** ** Data *)

(** [TransportKey]. *)
Record TransportKey := mkTransport {
  AdapterInstanceID : string;
  TransportEpoch : Z
}.
#[export] Instance TransportKey_eq_dec : EqDecision TransportKey.
Proof. solve_decision. Defined.

(** The identities [newIssuerToken] and [newCleanupAttemptID] return: the
    empty string, 16 bytes in hexadecimal, or [fallback-<n>].  The three
    forms are different strings. *)
Inductive TokenID :=
| NoToken
| HexToken (b : list byte)
| FallbackToken (n : Z).
#[export] Instance TokenID_eq_dec : EqDecision TokenID.
Proof. solve_decision. Defined.

(** [SessionKey]. *)
Record SessionKey := mkKey {
  KTransport : TransportKey;
  IssuerToken : TokenID
}.

(** [State]. *)
Inductive State := Idle | Enabling | Active | Refreshing | Disabled.
#[export] Instance State_eq_dec : EqDecision State.
Proof. solve_decision. Defined.

(** The sentinel errors, the error of the random source, and the errors of
    dispatchers and refresh functions, opaque but for
    [errors.Is(err, ErrTransportDown)]. *)
Inductive Err :=
| ErrSessionBusy
| ErrTransportDown
| ErrNotActive
| ErrWrongToken
| ErrTargetMismatch
| ErrCleanupPending
| ErrEntropy
| ErrOther (code : Z) (transportDown : bool).
#[export] Instance Err_eq_dec : EqDecision Err.
Proof. solve_decision. Defined.

Definition isTransportDown (e : Err) : bool :=
  match e with
  | ErrTransportDown => true
  | ErrOther _ b => b
  | _ => false
  end.

(** [NativeResult] and [OperationKind]. *)
Inductive NativeResult := NativeAmbiguous | NativeACK | NativeNAK.
#[export] Instance NativeResult_eq_dec : EqDecision NativeResult.
Proof. solve_decision. Defined.
Inductive OperationKind := OperationEnable | OperationRead | OperationDisable.
#[export] Instance OperationKind_eq_dec : EqDecision OperationKind.
Proof. solve_decision. Defined.

(** [DispatchOutcome]. *)
Record DispatchOutcome := mkOutcome {
  Response : list byte;
  Emitted : bool;
  Native : NativeResult;
  OTransport : TransportKey;
  OErr : option Err
}.

(** [pendingOperation], with its embedded snapshot.  [cancel] says that the
    field holds a cancel function, [ctxDown] that the context of the
    operation was cancelled with [ErrTransportDown]. *)
Record pendingOp := mkPending {
  OperationID : TokenID;
  Kind : OperationKind;
  Target : byte;
  Transport : TransportKey;
  PEmitted : bool;
  token : TokenID;
  cancel : bool;
  ctxDown : bool;
  invalidated : bool;
  pcleanup : bool
}.
Definition set_OperationID (v : TokenID) (q : pendingOp) : pendingOp :=
  mkPending v (Kind q) (Target q) (Transport q) (PEmitted q) (token q) (cancel q) (ctxDown q) (invalidated q)
    (pcleanup q).
Definition set_Kind (v : OperationKind) (q : pendingOp) : pendingOp :=
  mkPending (OperationID q) v (Target q) (Transport q) (PEmitted q) (token q) (cancel q) (ctxDown q)
    (invalidated q) (pcleanup q).
Definition set_Target (v : byte) (q : pendingOp) : pendingOp :=
  mkPending (OperationID q) (Kind q) v (Transport q) (PEmitted q) (token q) (cancel q) (ctxDown q)
    (invalidated q) (pcleanup q).
Definition set_Transport (v : TransportKey) (q : pendingOp) : pendingOp :=
  mkPending (OperationID q) (Kind q) (Target q) v (PEmitted q) (token q) (cancel q) (ctxDown q) (invalidated
    q) (pcleanup q).
Definition set_PEmitted (v : bool) (q : pendingOp) : pendingOp :=
  mkPending (OperationID q) (Kind q) (Target q) (Transport q) v (token q) (cancel q) (ctxDown q) (invalidated
    q) (pcleanup q).
Definition set_token (v : TokenID) (q : pendingOp) : pendingOp :=
  mkPending (OperationID q) (Kind q) (Target q) (Transport q) (PEmitted q) v (cancel q) (ctxDown q)
    (invalidated q) (pcleanup q).
Definition set_cancel (v : bool) (q : pendingOp) : pendingOp :=
  mkPending (OperationID q) (Kind q) (Target q) (Transport q) (PEmitted q) (token q) v (ctxDown q)
    (invalidated q) (pcleanup q).
Definition set_ctxDown (v : bool) (q : pendingOp) : pendingOp :=
  mkPending (OperationID q) (Kind q) (Target q) (Transport q) (PEmitted q) (token q) (cancel q) v (invalidated
    q) (pcleanup q).
Definition set_invalidated (v : bool) (q : pendingOp) : pendingOp :=
  mkPending (OperationID q) (Kind q) (Target q) (Transport q) (PEmitted q) (token q) (cancel q) (ctxDown q) v
    (pcleanup q).
Definition set_pcleanup (v : bool) (q : pendingOp) : pendingOp :=
  mkPending (OperationID q) (Kind q) (Target q) (Transport q) (PEmitted q) (token q) (cancel q) (ctxDown q)
    (invalidated q) v.

(** [cleanupObligation], with its embedded snapshot. *)
Record cleanupObligation := mkCleanup {
  CTarget : byte;
  GatewayCleanupAttemptID : TokenID;
  CEpoch : Z;
  OriginEmitted : bool;
  OriginNative : NativeResult;
  OriginErr : option Err;
  LastAttempted : bool;
  LastAttemptEpoch : Z;
  LastEmitted : bool;
  LastNative : NativeResult;
  LastErr : option Err;
  sourceOperationID : TokenID
}.
Definition set_CTarget (v : byte) (c : cleanupObligation) : cleanupObligation :=
  mkCleanup v (GatewayCleanupAttemptID c) (CEpoch c) (OriginEmitted c) (OriginNative c) (OriginErr c)
    (LastAttempted c) (LastAttemptEpoch c) (LastEmitted c) (LastNative c) (LastErr c) (sourceOperationID c).
Definition set_GatewayCleanupAttemptID (v : TokenID) (c : cleanupObligation) : cleanupObligation :=
  mkCleanup (CTarget c) v (CEpoch c) (OriginEmitted c) (OriginNative c) (OriginErr c) (LastAttempted c)
    (LastAttemptEpoch c) (LastEmitted c) (LastNative c) (LastErr c) (sourceOperationID c).
Definition set_CEpoch (v : Z) (c : cleanupObligation) : cleanupObligation :=
  mkCleanup (CTarget c) (GatewayCleanupAttemptID c) v (OriginEmitted c) (OriginNative c) (OriginErr c)
    (LastAttempted c) (LastAttemptEpoch c) (LastEmitted c) (LastNative c) (LastErr c) (sourceOperationID c).
Definition set_OriginEmitted (v : bool) (c : cleanupObligation) : cleanupObligation :=
  mkCleanup (CTarget c) (GatewayCleanupAttemptID c) (CEpoch c) v (OriginNative c) (OriginErr c) (LastAttempted
    c) (LastAttemptEpoch c) (LastEmitted c) (LastNative c) (LastErr c) (sourceOperationID c).
Definition set_OriginNative (v : NativeResult) (c : cleanupObligation) : cleanupObligation :=
  mkCleanup (CTarget c) (GatewayCleanupAttemptID c) (CEpoch c) (OriginEmitted c) v (OriginErr c)
    (LastAttempted c) (LastAttemptEpoch c) (LastEmitted c) (LastNative c) (LastErr c) (sourceOperationID c).
Definition set_OriginErr (v : option Err) (c : cleanupObligation) : cleanupObligation :=
  mkCleanup (CTarget c) (GatewayCleanupAttemptID c) (CEpoch c) (OriginEmitted c) (OriginNative c) v
    (LastAttempted c) (LastAttemptEpoch c) (LastEmitted c) (LastNative c) (LastErr c) (sourceOperationID c).
Definition set_LastAttempted (v : bool) (c : cleanupObligation) : cleanupObligation :=
  mkCleanup (CTarget c) (GatewayCleanupAttemptID c) (CEpoch c) (OriginEmitted c) (OriginNative c) (OriginErr
    c) v (LastAttemptEpoch c) (LastEmitted c) (LastNative c) (LastErr c) (sourceOperationID c).
Definition set_LastAttemptEpoch (v : Z) (c : cleanupObligation) : cleanupObligation :=
  mkCleanup (CTarget c) (GatewayCleanupAttemptID c) (CEpoch c) (OriginEmitted c) (OriginNative c) (OriginErr
    c) (LastAttempted c) v (LastEmitted c) (LastNative c) (LastErr c) (sourceOperationID c).
Definition set_LastEmitted (v : bool) (c : cleanupObligation) : cleanupObligation :=
  mkCleanup (CTarget c) (GatewayCleanupAttemptID c) (CEpoch c) (OriginEmitted c) (OriginNative c) (OriginErr
    c) (LastAttempted c) (LastAttemptEpoch c) v (LastNative c) (LastErr c) (sourceOperationID c).
Definition set_LastNative (v : NativeResult) (c : cleanupObligation) : cleanupObligation :=
  mkCleanup (CTarget c) (GatewayCleanupAttemptID c) (CEpoch c) (OriginEmitted c) (OriginNative c) (OriginErr
    c) (LastAttempted c) (LastAttemptEpoch c) (LastEmitted c) v (LastErr c) (sourceOperationID c).
Definition set_LastErr (v : option Err) (c : cleanupObligation) : cleanupObligation :=
  mkCleanup (CTarget c) (GatewayCleanupAttemptID c) (CEpoch c) (OriginEmitted c) (OriginNative c) (OriginErr
    c) (LastAttempted c) (LastAttemptEpoch c) (LastEmitted c) (LastNative c) v (sourceOperationID c).
Definition set_sourceOperationID (v : TokenID) (c : cleanupObligation) : cleanupObligation :=
  mkCleanup (CTarget c) (GatewayCleanupAttemptID c) (CEpoch c) (OriginEmitted c) (OriginNative c) (OriginErr
    c) (LastAttempted c) (LastAttemptEpoch c) (LastEmitted c) (LastNative c) (LastErr c) v.

(** [Manager].  The refresh function is given by the steps; [heap] is the
    store of pending operations, [callbacks] the generations of the timer
    callbacks that may still run ([Stop] does not recall a callback that has
    started), [entropy] the number of reads of the random source and
    [fallbackAttemptID] the package variable. *)
Record Manager := mkManager {
  mu : bool;
  emissionMu : bool;
  state : State;
  transport : TransportKey;
  activeToken : TokenID;
  idleTimeout : Z;
  idleTimer : option Z;
  idleTimerGen : Z;
  idleExpiryPending : bool;
  mutexHeld : bool;
  refreshFailed : bool;
  lastRefreshTransportDown : bool;
  activeTarget : byte;
  pendingOperation : option nat;
  cleanup : option cleanupObligation;
  cleanupDispatch : bool;
  observedEpoch : Z;
  pendingEpoch : Z;
  qualified : gset Z;
  restarted : bool;
  restartFences : gset Z;
  heap : list pendingOp;
  callbacks : gset Z;
  entropy : nat;
  fallbackAttemptID : Z
}.
Definition set_mu (v : bool) (m : Manager) : Manager :=
  mkManager v (emissionMu m) (state m) (transport m) (activeToken m) (idleTimeout m) (idleTimer m)
    (idleTimerGen m) (idleExpiryPending m) (mutexHeld m) (refreshFailed m) (lastRefreshTransportDown m)
    (activeTarget m) (pendingOperation m) (cleanup m) (cleanupDispatch m) (observedEpoch m) (pendingEpoch m)
    (qualified m) (restarted m) (restartFences m) (heap m) (callbacks m) (entropy m) (fallbackAttemptID m).
Definition set_emissionMu (v : bool) (m : Manager) : Manager :=
  mkManager (mu m) v (state m) (transport m) (activeToken m) (idleTimeout m) (idleTimer m) (idleTimerGen m)
    (idleExpiryPending m) (mutexHeld m) (refreshFailed m) (lastRefreshTransportDown m) (activeTarget m)
    (pendingOperation m) (cleanup m) (cleanupDispatch m) (observedEpoch m) (pendingEpoch m) (qualified m)
    (restarted m) (restartFences m) (heap m) (callbacks m) (entropy m) (fallbackAttemptID m).
Definition set_state (v : State) (m : Manager) : Manager :=
  mkManager (mu m) (emissionMu m) v (transport m) (activeToken m) (idleTimeout m) (idleTimer m) (idleTimerGen
    m) (idleExpiryPending m) (mutexHeld m) (refreshFailed m) (lastRefreshTransportDown m) (activeTarget m)
    (pendingOperation m) (cleanup m) (cleanupDispatch m) (observedEpoch m) (pendingEpoch m) (qualified m)
    (restarted m) (restartFences m) (heap m) (callbacks m) (entropy m) (fallbackAttemptID m).
Definition set_transport (v : TransportKey) (m : Manager) : Manager :=
  mkManager (mu m) (emissionMu m) (state m) v (activeToken m) (idleTimeout m) (idleTimer m) (idleTimerGen m)
    (idleExpiryPending m) (mutexHeld m) (refreshFailed m) (lastRefreshTransportDown m) (activeTarget m)
    (pendingOperation m) (cleanup m) (cleanupDispatch m) (observedEpoch m) (pendingEpoch m) (qualified m)
    (restarted m) (restartFences m) (heap m) (callbacks m) (entropy m) (fallbackAttemptID m).
Definition set_activeToken (v : TokenID) (m : Manager) : Manager :=
  mkManager (mu m) (emissionMu m) (state m) (transport m) v (idleTimeout m) (idleTimer m) (idleTimerGen m)
    (idleExpiryPending m) (mutexHeld m) (refreshFailed m) (lastRefreshTransportDown m) (activeTarget m)
    (pendingOperation m) (cleanup m) (cleanupDispatch m) (observedEpoch m) (pendingEpoch m) (qualified m)
    (restarted m) (restartFences m) (heap m) (callbacks m) (entropy m) (fallbackAttemptID m).
Definition set_idleTimeout (v : Z) (m : Manager) : Manager :=
  mkManager (mu m) (emissionMu m) (state m) (transport m) (activeToken m) v (idleTimer m) (idleTimerGen m)
    (idleExpiryPending m) (mutexHeld m) (refreshFailed m) (lastRefreshTransportDown m) (activeTarget m)
    (pendingOperation m) (cleanup m) (cleanupDispatch m) (observedEpoch m) (pendingEpoch m) (qualified m)
    (restarted m) (restartFences m) (heap m) (callbacks m) (entropy m) (fallbackAttemptID m).
Definition set_idleTimer (v : option Z) (m : Manager) : Manager :=
  mkManager (mu m) (emissionMu m) (state m) (transport m) (activeToken m) (idleTimeout m) v (idleTimerGen m)
    (idleExpiryPending m) (mutexHeld m) (refreshFailed m) (lastRefreshTransportDown m) (activeTarget m)
    (pendingOperation m) (cleanup m) (cleanupDispatch m) (observedEpoch m) (pendingEpoch m) (qualified m)
    (restarted m) (restartFences m) (heap m) (callbacks m) (entropy m) (fallbackAttemptID m).
Definition set_idleTimerGen (v : Z) (m : Manager) : Manager :=
  mkManager (mu m) (emissionMu m) (state m) (transport m) (activeToken m) (idleTimeout m) (idleTimer m) v
    (idleExpiryPending m) (mutexHeld m) (refreshFailed m) (lastRefreshTransportDown m) (activeTarget m)
    (pendingOperation m) (cleanup m) (cleanupDispatch m) (observedEpoch m) (pendingEpoch m) (qualified m)
    (restarted m) (restartFences m) (heap m) (callbacks m) (entropy m) (fallbackAttemptID m).
Definition set_idleExpiryPending (v : bool) (m : Manager) : Manager :=
  mkManager (mu m) (emissionMu m) (state m) (transport m) (activeToken m) (idleTimeout m) (idleTimer m)
    (idleTimerGen m) v (mutexHeld m) (refreshFailed m) (lastRefreshTransportDown m) (activeTarget m)
    (pendingOperation m) (cleanup m) (cleanupDispatch m) (observedEpoch m) (pendingEpoch m) (qualified m)
    (restarted m) (restartFences m) (heap m) (callbacks m) (entropy m) (fallbackAttemptID m).
Definition set_mutexHeld (v : bool) (m : Manager) : Manager :=
  mkManager (mu m) (emissionMu m) (state m) (transport m) (activeToken m) (idleTimeout m) (idleTimer m)
    (idleTimerGen m) (idleExpiryPending m) v (refreshFailed m) (lastRefreshTransportDown m) (activeTarget m)
    (pendingOperation m) (cleanup m) (cleanupDispatch m) (observedEpoch m) (pendingEpoch m) (qualified m)
    (restarted m) (restartFences m) (heap m) (callbacks m) (entropy m) (fallbackAttemptID m).
Definition set_refreshFailed (v : bool) (m : Manager) : Manager :=
  mkManager (mu m) (emissionMu m) (state m) (transport m) (activeToken m) (idleTimeout m) (idleTimer m)
    (idleTimerGen m) (idleExpiryPending m) (mutexHeld m) v (lastRefreshTransportDown m) (activeTarget m)
    (pendingOperation m) (cleanup m) (cleanupDispatch m) (observedEpoch m) (pendingEpoch m) (qualified m)
    (restarted m) (restartFences m) (heap m) (callbacks m) (entropy m) (fallbackAttemptID m).
Definition set_lastRefreshTransportDown (v : bool) (m : Manager) : Manager :=
  mkManager (mu m) (emissionMu m) (state m) (transport m) (activeToken m) (idleTimeout m) (idleTimer m)
    (idleTimerGen m) (idleExpiryPending m) (mutexHeld m) (refreshFailed m) v (activeTarget m)
    (pendingOperation m) (cleanup m) (cleanupDispatch m) (observedEpoch m) (pendingEpoch m) (qualified m)
    (restarted m) (restartFences m) (heap m) (callbacks m) (entropy m) (fallbackAttemptID m).
Definition set_activeTarget (v : byte) (m : Manager) : Manager :=
  mkManager (mu m) (emissionMu m) (state m) (transport m) (activeToken m) (idleTimeout m) (idleTimer m)
    (idleTimerGen m) (idleExpiryPending m) (mutexHeld m) (refreshFailed m) (lastRefreshTransportDown m) v
    (pendingOperation m) (cleanup m) (cleanupDispatch m) (observedEpoch m) (pendingEpoch m) (qualified m)
    (restarted m) (restartFences m) (heap m) (callbacks m) (entropy m) (fallbackAttemptID m).
Definition set_pendingOperation (v : option nat) (m : Manager) : Manager :=
  mkManager (mu m) (emissionMu m) (state m) (transport m) (activeToken m) (idleTimeout m) (idleTimer m)
    (idleTimerGen m) (idleExpiryPending m) (mutexHeld m) (refreshFailed m) (lastRefreshTransportDown m)
    (activeTarget m) v (cleanup m) (cleanupDispatch m) (observedEpoch m) (pendingEpoch m) (qualified m)
    (restarted m) (restartFences m) (heap m) (callbacks m) (entropy m) (fallbackAttemptID m).
Definition set_cleanup (v : option cleanupObligation) (m : Manager) : Manager :=
  mkManager (mu m) (emissionMu m) (state m) (transport m) (activeToken m) (idleTimeout m) (idleTimer m)
    (idleTimerGen m) (idleExpiryPending m) (mutexHeld m) (refreshFailed m) (lastRefreshTransportDown m)
    (activeTarget m) (pendingOperation m) v (cleanupDispatch m) (observedEpoch m) (pendingEpoch m) (qualified
    m) (restarted m) (restartFences m) (heap m) (callbacks m) (entropy m) (fallbackAttemptID m).
Definition set_cleanupDispatch (v : bool) (m : Manager) : Manager :=
  mkManager (mu m) (emissionMu m) (state m) (transport m) (activeToken m) (idleTimeout m) (idleTimer m)
    (idleTimerGen m) (idleExpiryPending m) (mutexHeld m) (refreshFailed m) (lastRefreshTransportDown m)
    (activeTarget m) (pendingOperation m) (cleanup m) v (observedEpoch m) (pendingEpoch m) (qualified m)
    (restarted m) (restartFences m) (heap m) (callbacks m) (entropy m) (fallbackAttemptID m).
Definition set_observedEpoch (v : Z) (m : Manager) : Manager :=
  mkManager (mu m) (emissionMu m) (state m) (transport m) (activeToken m) (idleTimeout m) (idleTimer m)
    (idleTimerGen m) (idleExpiryPending m) (mutexHeld m) (refreshFailed m) (lastRefreshTransportDown m)
    (activeTarget m) (pendingOperation m) (cleanup m) (cleanupDispatch m) v (pendingEpoch m) (qualified m)
    (restarted m) (restartFences m) (heap m) (callbacks m) (entropy m) (fallbackAttemptID m).
Definition set_pendingEpoch (v : Z) (m : Manager) : Manager :=
  mkManager (mu m) (emissionMu m) (state m) (transport m) (activeToken m) (idleTimeout m) (idleTimer m)
    (idleTimerGen m) (idleExpiryPending m) (mutexHeld m) (refreshFailed m) (lastRefreshTransportDown m)
    (activeTarget m) (pendingOperation m) (cleanup m) (cleanupDispatch m) (observedEpoch m) v (qualified m)
    (restarted m) (restartFences m) (heap m) (callbacks m) (entropy m) (fallbackAttemptID m).
Definition set_qualified (v : gset Z) (m : Manager) : Manager :=
  mkManager (mu m) (emissionMu m) (state m) (transport m) (activeToken m) (idleTimeout m) (idleTimer m)
    (idleTimerGen m) (idleExpiryPending m) (mutexHeld m) (refreshFailed m) (lastRefreshTransportDown m)
    (activeTarget m) (pendingOperation m) (cleanup m) (cleanupDispatch m) (observedEpoch m) (pendingEpoch m) v
    (restarted m) (restartFences m) (heap m) (callbacks m) (entropy m) (fallbackAttemptID m).
Definition set_restarted (v : bool) (m : Manager) : Manager :=
  mkManager (mu m) (emissionMu m) (state m) (transport m) (activeToken m) (idleTimeout m) (idleTimer m)
    (idleTimerGen m) (idleExpiryPending m) (mutexHeld m) (refreshFailed m) (lastRefreshTransportDown m)
    (activeTarget m) (pendingOperation m) (cleanup m) (cleanupDispatch m) (observedEpoch m) (pendingEpoch m)
    (qualified m) v (restartFences m) (heap m) (callbacks m) (entropy m) (fallbackAttemptID m).
Definition set_restartFences (v : gset Z) (m : Manager) : Manager :=
  mkManager (mu m) (emissionMu m) (state m) (transport m) (activeToken m) (idleTimeout m) (idleTimer m)
    (idleTimerGen m) (idleExpiryPending m) (mutexHeld m) (refreshFailed m) (lastRefreshTransportDown m)
    (activeTarget m) (pendingOperation m) (cleanup m) (cleanupDispatch m) (observedEpoch m) (pendingEpoch m)
    (qualified m) (restarted m) v (heap m) (callbacks m) (entropy m) (fallbackAttemptID m).
Definition set_heap (v : list pendingOp) (m : Manager) : Manager :=
  mkManager (mu m) (emissionMu m) (state m) (transport m) (activeToken m) (idleTimeout m) (idleTimer m)
    (idleTimerGen m) (idleExpiryPending m) (mutexHeld m) (refreshFailed m) (lastRefreshTransportDown m)
    (activeTarget m) (pendingOperation m) (cleanup m) (cleanupDispatch m) (observedEpoch m) (pendingEpoch m)
    (qualified m) (restarted m) (restartFences m) v (callbacks m) (entropy m) (fallbackAttemptID m).
Definition set_callbacks (v : gset Z) (m : Manager) : Manager :=
  mkManager (mu m) (emissionMu m) (state m) (transport m) (activeToken m) (idleTimeout m) (idleTimer m)
    (idleTimerGen m) (idleExpiryPending m) (mutexHeld m) (refreshFailed m) (lastRefreshTransportDown m)
    (activeTarget m) (pendingOperation m) (cleanup m) (cleanupDispatch m) (observedEpoch m) (pendingEpoch m)
    (qualified m) (restarted m) (restartFences m) (heap m) v (entropy m) (fallbackAttemptID m).
Definition set_entropy (v : nat) (m : Manager) : Manager :=
  mkManager (mu m) (emissionMu m) (state m) (transport m) (activeToken m) (idleTimeout m) (idleTimer m)
    (idleTimerGen m) (idleExpiryPending m) (mutexHeld m) (refreshFailed m) (lastRefreshTransportDown m)
    (activeTarget m) (pendingOperation m) (cleanup m) (cleanupDispatch m) (observedEpoch m) (pendingEpoch m)
    (qualified m) (restarted m) (restartFences m) (heap m) (callbacks m) v (fallbackAttemptID m).
Definition set_fallbackAttemptID (v : Z) (m : Manager) : Manager :=
  mkManager (mu m) (emissionMu m) (state m) (transport m) (activeToken m) (idleTimeout m) (idleTimer m)
    (idleTimerGen m) (idleExpiryPending m) (mutexHeld m) (refreshFailed m) (lastRefreshTransportDown m)
    (activeTarget m) (pendingOperation m) (cleanup m) (cleanupDispatch m) (observedEpoch m) (pendingEpoch m)
    (qualified m) (restarted m) (restartFences m) (heap m) (callbacks m) (entropy m) v.

(** The comparisons [m.state == s], [pending.Kind == k] and [x != nil]. *)
Definition isState (s s' : State) : bool :=
  match s, s' with
  | Idle, Idle | Enabling, Enabling | Active, Active | Refreshing, Refreshing | Disabled, Disabled => true
  | _, _ => false
  end.
Definition isKind (k k' : OperationKind) : bool :=
  match k, k' with
  | OperationEnable, OperationEnable | OperationRead, OperationRead | OperationDisable, OperationDisable => true
  | _, _ => false
  end.
Definition notNil {A} (o : option A) : bool := match o with Some _ => true | None => false end.

(** [State.String]. *)
Definition String_ (s : State) : string :=
  match s with
  | Idle => "Idle"
  | Enabling => "Enabling"
  | Active => "Active"
  | Refreshing => "Refreshing"
  | Disabled => "Disabled"
  end.

(** [New]. *)
Definition New (t : TransportKey) (timeout : Z) : Manager :=
  mkManager false false Idle t NoToken timeout None 0 false false false false 0 None None false
    (TransportEpoch t) 0 ∅ false ∅ [] ∅ 0 0.

(** ** Locks, objects and identities *)

(** [m.mu.Lock()] with [stateMu] held: nobody could release the gate. *)
Definition lockMu (m : Manager) : option Manager :=
  if mu m then None else Some (set_mu true m).
(** [m.mu.Unlock()]: fatal when the gate is not locked. *)
Definition unlockMu (m : Manager) : option Manager :=
  if mu m then Some (set_mu false m) else None.
(** [m.cleanup.f = v] on a pointer that may be nil. *)
Definition updCleanup (f : cleanupObligation -> cleanupObligation) (m : Manager) : option Manager :=
  match cleanup m with
  | Some c => Some (set_cleanup (Some (f c)) m)
  | None => None
  end.
Definition alloc (q : pendingOp) (m : Manager) : Manager := set_heap (heap m ++ [q]) m.
Definition updPending (p : nat) (f : pendingOp -> pendingOp) (m : Manager) : Manager :=
  set_heap (alter f p (heap m)) m.
Definition isPending (p : nat) (m : Manager) : bool := bool_decide (pendingOperation m = Some p).

(** The reads of [crypto/rand]: [rand n] is what the n-th read of 16 bytes
    gives, [None] an error. *)
Section Ops.
Context (rand : nat -> option (list byte)).

(** [newIssuerToken]. *)
Definition newIssuerToken (m : Manager) : Manager * option TokenID :=
  (set_entropy (S (entropy m)) m, HexToken <$> rand (entropy m)).

(** [newCleanupAttemptID]. *)
Definition newCleanupAttemptID (m : Manager) : Manager * TokenID :=
  let '(m, t) := newIssuerToken m in
  match t with
  | Some id => (m, id)
  | None => let n := incr64 (fallbackAttemptID m) in (set_fallbackAttemptID n m, FallbackToken n)
  end.

(** ** Internal helpers *)

(** [armIdleTimerLocked]. *)
Definition armIdleTimerLocked (m : Manager) : Manager :=
  if idleTimeout m <=? 0 then m
  else
    let gen := incr64 (idleTimerGen m) in
    set_callbacks ({[gen]} ∪ callbacks m) (set_idleTimer (Some gen) (set_idleTimerGen gen m)).

(** The stop of the idle timer the helpers share: [Stop], the nil timer and
    the next generation. *)
Definition stopIdleTimerLocked (m : Manager) : Manager :=
  set_idleTimerGen (incr64 (idleTimerGen m)) (set_idleTimer None m).

(** [if m.mutexHeld { m.mu.Unlock(); m.mutexHeld = false }]. *)
Definition releaseGate (m : Manager) : option Manager :=
  if mutexHeld m then set_mutexHeld false <$> unlockMu m else Some m.

(** [toDisabledLocked]. *)
Definition toDisabledLocked (m : Manager) : option Manager :=
  m ← releaseGate (set_state Disabled (set_idleExpiryPending false (stopIdleTimerLocked m)));
  Some (set_activeTarget 0 (set_activeToken NoToken m)).

(** [toIdleLocked]. *)
Definition toIdleLocked (m : Manager) : Manager :=
  match cleanup m with
  | None => set_state Idle m
  | Some _ => m
  end.

(** [releaseOwnerLocked]. *)
Definition releaseOwnerLocked (m : Manager) : option Manager :=
  m ← releaseGate (stopIdleTimerLocked m);
  Some (set_activeTarget 0 (set_activeToken NoToken m)).

(** [createCleanupLocked]. *)
Definition createCleanupLocked (target : byte) (epoch : Z) (source : TokenID) (m : Manager) : Manager :=
  match cleanup m with
  | Some _ => m
  | None =>
      let '(m, id) := newCleanupAttemptID m in
      set_state Disabled
        (set_cleanup (Some (mkCleanup target id epoch false NativeAmbiguous None false 0 false
                              NativeAmbiguous None source)) m)
  end.

(** [clearCleanupForOperationLocked]. *)
Definition clearCleanupForOperationLocked (op : TokenID) (m : Manager) : Manager :=
  match cleanup m with
  | Some c => if bool_decide (sourceOperationID c = op) then set_cleanup None m else m
  | None => m
  end.

(** [pending.invalidated = true] and the cancellation of its context. *)
Definition invalidate (q : pendingOp) : pendingOp :=
  set_ctxDown (ctxDown q || cancel q) (set_invalidated true q).
Definition invalidatePending (m : Manager) : Manager :=
  match pendingOperation m with
  | Some p => updPending p invalidate m
  | None => m
  end.

(** [consumeIdleExpiryAfterReadLocked]. *)
Definition consumeIdleExpiryAfterReadLocked (target : byte) (source : TokenID) (m : Manager)
    : option (Manager * option Z) :=
  if negb (idleExpiryPending m) then Some (m, None)
  else
    let m := set_idleExpiryPending false m in
    if negb (isState Active (state m)) || negb (mutexHeld m) || negb (activeTarget m =? target)
    then Some (m, None)
    else
      let epoch := TransportEpoch (transport m) in
      m ← toDisabledLocked m;
      Some (createCleanupLocked target epoch source m, Some epoch).

(** [recordCleanupOutcome]. *)
Definition recordCleanupOutcome (attemptID : TokenID) (epoch : Z) (o : DispatchOutcome) (m : Manager)
    : Manager :=
  match cleanup m with
  | Some c =>
      if negb (bool_decide (GatewayCleanupAttemptID c = attemptID)) || negb (LastAttempted c)
         || negb (LastAttemptEpoch c =? epoch)
      then m
      else set_cleanup (Some (set_LastErr (OErr o) (set_LastNative (Native o) (set_LastEmitted (Emitted o) c)))) m
  | None => m
  end.

(** [dispatchOnce]: a nil dispatcher reports the transport down. *)
Definition dispatchOnce (dispatch : option DispatchOutcome) : DispatchOutcome :=
  default (mkOutcome [] false NativeAmbiguous (mkTransport "" 0) (Some ErrTransportDown)) dispatch.

(** [if outcome.Err != nil { return outcome.Err }; return ErrTransportDown]. *)
Definition errOrDown (o : DispatchOutcome) : Err := default ErrTransportDown (OErr o).

(** ** Configuration and observations *)

(** [SetCleanupDispatcher]; the argument says whether the hook is not nil. *)
Definition SetCleanupDispatcher (installed : bool) (m : Manager) : Manager := set_cleanupDispatch installed m.

(** [MarkQualifiedTarget]. *)
Definition MarkQualifiedTarget (target : byte) (m : Manager) : Manager :=
  let m := set_qualified ({[target]} ∪ qualified m) m in
  if restarted m then set_restartFences ({[target]} ∪ restartFences m) m else m.

(** [TargetBlocked]. *)
Definition TargetBlocked (target : byte) (m : Manager) : bool :=
  bool_decide (target ∈ restartFences m) || notNil (cleanup m).

(** [CleanupObligation] and [PendingOperation]. *)
Definition CleanupObligation (m : Manager) : option cleanupObligation := cleanup m.
Definition PendingOperation (m : Manager) : option pendingOp := p ← pendingOperation m; heap m !! p.

(** [DispatchEpoch], [LifecycleTransportKey], [TransportKey], [IsOwned] and
    [LastRefreshTransportDown]. *)
Definition DispatchEpoch (m : Manager) : Z := observedEpoch m.
Definition LifecycleTransportKey (m : Manager) : TransportKey :=
  mkTransport (AdapterInstanceID (transport m)) (observedEpoch m).
Definition TransportKey_ (m : Manager) : TransportKey := transport m.
Definition IsOwned (m : Manager) : bool := mutexHeld m.
Definition LastRefreshTransportDown (m : Manager) : bool := lastRefreshTransportDown m.

(** [Manager.State]. *)
Definition State_ (m : Manager) : State :=
  if isState Disabled (state m) && (notNil (cleanup m) || restarted m) then Idle
  else state m.
(** [Manager.StatusSnapshot]. *)
Definition StatusSnapshot (m : Manager) : State * bool := (State_ m, mutexHeld m).

(** ** Admission of an emission *)

(** [admitPendingEmissionLocked]. *)
Definition admissible (q : pendingOp) (m : Manager) : bool :=
  match Kind q with
  | OperationEnable => isState Enabling (state m)
  | OperationRead => isState Active (state m)
  | OperationDisable =>
      if pcleanup q then isState Disabled (state m) && negb (mutexHeld m)
      else isState Active (state m) && mutexHeld m
  end.
Definition admitPendingEmissionLocked (op : TokenID) (target : byte) (m : Manager) : Manager * bool :=
  match pendingOperation m with
  | Some p =>
      match heap m !! p with
      | Some q =>
          if invalidated q || negb (bool_decide (OperationID q = op)) || negb (Target q =? target)
             || negb (admissible q m)
          then (m, false)
          else (updPending p (set_PEmitted true) m, true)
      | None => (m, false)
      end
  | None => (m, false)
  end.

(** [AdmitPendingEmission]. *)
Definition AdmitPendingEmission (op : TokenID) (target : byte) (m : Manager) : Manager * bool :=
  admitPendingEmissionLocked op target m.

(** [BeginPendingEmission]; [None] while another holds [emissionMu].  On
    admission the fence stays locked until the release. *)
Definition BeginPendingEmission (op : TokenID) (target : byte) (m : Manager) : option (Manager * bool) :=
  if emissionMu m then None
  else
    let '(m, ok) := admitPendingEmissionLocked op target m in
    Some (set_emissionMu ok m, ok).
(** The release function [BeginPendingEmission] returns. *)
Definition releaseEmission (m : Manager) : Manager := set_emissionMu false m.

(** ** Results and control points *)

Definition noKey : SessionKey := mkKey (mkTransport "" 0) NoToken.

(** What a call returns to its caller. *)
Inductive ret :=
| REnable (k : SessionKey) (e : option Err)
| RRead (d : list byte) (e : option Err)
| RDisable (e : option Err).

(** What follows a section that ends the dispatch of an operation: the
    return, [attemptCleanup] or [recordCleanupOutcome], then the return.
    The idle timer has no caller. *)
Inductive after :=
| Return (r : option ret)
| ThenCleanup (epoch : Z) (r : option ret)
| ThenRecord (attemptID : TokenID) (epoch : Z) (o : DispatchOutcome) (r : option ret).

(** The errors of an owner operation, as its callers return them. *)
Definition opErr (kind : OperationKind) (e : Err) : ret :=
  match kind with
  | OperationEnable => REnable noKey (Some e)
  | OperationRead => RRead [] (Some e)
  | OperationDisable => RDisable (Some e)
  end.

(** ** Low-level transitions: [Enable], [Disable] and [Read] *)

Definition Enable (m : Manager) : option (Manager * (Err + SessionKey)) :=
  if negb (isState Idle (state m)) then Some (m, inl ErrSessionBusy)
  else
    m ← lockMu (set_state Enabling m);
    let '(m, tok) := newIssuerToken (set_mutexHeld true m) in
    match tok with
    | None =>
        m ← unlockMu m;
        Some (set_state Idle (set_mutexHeld false m), inl ErrEntropy)
    | Some t =>
        let m := set_state Active (set_activeTarget 0 (set_activeToken t m)) in
        let m := armIdleTimerLocked (set_lastRefreshTransportDown false (set_refreshFailed false m)) in
        Some (m, inr (mkKey (transport m) t))
    end.

Definition Disable (k : SessionKey) (m : Manager) : option (Manager * option Err) :=
  if isState Refreshing (state m) then Some (m, Some ErrSessionBusy)
  else if negb (isState Active (state m)) then Some (m, Some ErrNotActive)
  else if negb (bool_decide (KTransport k = transport m)) then Some (m, Some ErrWrongToken)
  else if negb (bool_decide (IssuerToken k = activeToken m)) then Some (m, Some ErrWrongToken)
  else
    m ← toDisabledLocked m;
    Some (toIdleLocked m, None).

Definition Read (t : TransportKey) (m : Manager) : Manager * option Err :=
  if refreshFailed m || isState Refreshing (state m) then (m, Some ErrSessionBusy)
  else if negb (isState Active (state m)) then (m, Some ErrNotActive)
  else if negb (bool_decide (t = transport m)) then (m, Some ErrNotActive)
  else (armIdleTimerLocked m, None).

(** ** Begin of an operation *)

(** [EnableOperation], up to the dispatch. *)
Definition enableBegin (target : byte) (m : Manager) : option (Manager * (Err + nat * TokenID)) :=
  if bool_decide (target ∈ restartFences m) then Some (m, inl ErrCleanupPending)
  else if notNil (cleanup m) then Some (m, inl ErrCleanupPending)
  else if negb (isState Idle (state m)) then Some (m, inl ErrSessionBusy)
  else
    m ← lockMu (set_state Enabling m);
    let '(m, tok) := newIssuerToken (set_mutexHeld true m) in
    match tok with
    | None =>
        m ← releaseOwnerLocked m;
        Some (set_state Idle m, inl ErrEntropy)
    | Some t =>
        let '(m, op) := newCleanupAttemptID m in
        let p := length (heap m) in
        let m := alloc (mkPending op OperationEnable target (transport m) false t true false false false) m in
        let m := set_activeTarget target (set_activeToken t (set_pendingOperation (Some p) m)) in
        Some (set_lastRefreshTransportDown false (set_refreshFailed false m), inr (p, t))
    end.

(** [beginOwnerOperation], up to the refresh: an error, or the operation
    with the epoch of the refresh it must make first. *)
Definition ownerBegin (target : byte) (key : option SessionKey) (kind : OperationKind) (m : Manager)
    : Manager * (Err + nat * option Z) :=
  if isState Refreshing (state m) then (m, inl ErrSessionBusy)
  else if negb (mutexHeld m) || negb (isState Active (state m)) then (m, inl ErrNotActive)
  else if notNil (pendingOperation m) then (m, inl ErrSessionBusy)
  else if negb (activeTarget m =? target) then (m, inl ErrTargetMismatch)
  else if match key with
          | Some k => negb (bool_decide (KTransport k = transport m))
                      || negb (bool_decide (IssuerToken k = activeToken m))
          | None => false
          end
  then (m, inl ErrWrongToken)
  else
    let '(m, op) := newCleanupAttemptID m in
    let p := length (heap m) in
    let m := alloc (mkPending op kind target (transport m) false NoToken false false false false) m in
    let m := set_pendingOperation (Some p) m in
    if pendingEpoch m <=? TransportEpoch (transport m) then (m, inr (p, None))
    else (set_state Refreshing m, inr (p, Some (pendingEpoch m))).

(** The calls of the refresh function: a nil function reports the transport
    down. *)
Definition refreshResult (r : option (Err + TransportKey)) : Err + TransportKey :=
  default (inl ErrTransportDown) r.

(** Whether the operation the call refreshed for is still the one the
    manager waits for. *)
Definition refreshCurrent (p : nat) (m : Manager) : bool :=
  isPending p m && mutexHeld m && isState Refreshing (state m).

(** [m.transport.TransportEpoch = epoch; m.pendingEpoch = 0]. *)
Definition bindEpoch (epoch : Z) (m : Manager) : Manager :=
  set_pendingEpoch 0 (set_transport (mkTransport (AdapterInstanceID (transport m)) epoch) m).

(** [beginOwnerOperation], after the refresh: an error, or [None] when the
    operation goes on. *)
Definition ownerRefreshed (p : nat) (q : pendingOp) (target : byte) (attempted : Z) (r : Err + TransportKey)
    (m : Manager) : option (Manager * option Err) :=
  if negb (refreshCurrent p m) then
    Some (m, Some (match r with inl e => e | inr _ => ErrTransportDown end))
  else if invalidated q || (attempted <? observedEpoch m)
          || match r with inr t => TransportEpoch t <? observedEpoch m | inl _ => false end
  then
    m ← toDisabledLocked (bindEpoch (observedEpoch m) (set_pendingOperation None m));
    Some (createCleanupLocked target (observedEpoch m) (OperationID q) m, Some ErrTransportDown)
  else
    match r with
    | inr t =>
        if attempted <=? TransportEpoch t then
          let m := set_pendingEpoch 0 (set_observedEpoch (TransportEpoch t) (set_transport t m)) in
          let m := updPending p (set_Transport t) (set_state Active m) in
          let m := match cleanup m with
                   | Some c => set_cleanup (Some (set_CEpoch (TransportEpoch t) c)) m
                   | None => m
                   end in
          Some (armIdleTimerLocked m, None)
        else
          m ← toDisabledLocked (bindEpoch attempted (set_lastRefreshTransportDown true m));
          Some (set_pendingOperation None (createCleanupLocked target attempted NoToken m), Some ErrTransportDown)
    | inl e =>
        let m := if isTransportDown e then set_lastRefreshTransportDown true m else set_refreshFailed true m in
        m ← toDisabledLocked (bindEpoch attempted m);
        Some (set_pendingOperation None (createCleanupLocked target attempted NoToken m), Some e)
    end.

(** [bindPendingContext]. *)
Definition bindPendingContext (p : nat) (q : pendingOp) (m : Manager) : Manager :=
  if negb (isPending p m) || invalidated q then updPending p (set_ctxDown true) m
  else updPending p (set_cancel true) m.

(** [DisableOperation], the section that stops the idle timer. *)
Definition quietIdle (p : nat) (m : Manager) : Manager :=
  if isPending p m && mutexHeld m then stopIdleTimerLocked m else m.

(** ** End of an operation *)

(** The origin evidence of a cleanup. *)
Definition setOrigin (o : DispatchOutcome) (c : cleanupObligation) : cleanupObligation :=
  set_OriginErr (OErr o) (set_OriginNative (Native o) (set_OriginEmitted (Emitted o) c)).

(** [EnableOperation], after the dispatch. *)
Definition enableFinish (p : nat) (q : pendingOp) (target : byte) (tok : TokenID) (o : DispatchOutcome)
    (m : Manager) : option (Manager * after) :=
  let failed := REnable noKey (Some (errOrDown o)) in
  if negb (isPending p m) then Some (m, Return (Some failed))
  else
    let m := set_pendingOperation None (updPending p (set_PEmitted (Emitted o)) m) in
    let advanced := TransportEpoch (Transport q) <? pendingEpoch m in
    let m := if advanced
             then set_transport (mkTransport (AdapterInstanceID (transport m)) (pendingEpoch m)) m else m in
    if negb (isState Enabling (state m)) then
      let m := if negb (Emitted o) then
                 let m := clearCleanupForOperationLocked (OperationID q) m in
                 match cleanup m with None => set_state Idle m | Some _ => m end
               else
                 match cleanup m with
                 | Some c => if bool_decide (sourceOperationID c = OperationID q)
                             then set_cleanup (Some (setOrigin o c)) m else m
                 | None => m
                 end in
      Some (m, Return (Some failed))
    else if negb (Emitted o) then
      m ← releaseOwnerLocked m;
      Some (set_state Idle m, Return (Some (REnable noKey (OErr o))))
    else
      let m := createCleanupLocked target (TransportEpoch (transport m)) (OperationID q) m in
      m ← updCleanup (setOrigin o) m;
      if bool_decide (Native o = NativeACK) && bool_decide (OErr o = None) && negb advanced then
        let m := armIdleTimerLocked (set_state Active m) in
        Some (m, Return (Some (REnable (mkKey (transport m) tok) None)))
      else
        m ← releaseOwnerLocked m;
        let m := set_state Disabled m in
        Some (m, ThenCleanup (TransportEpoch (transport m)) (Some failed)).

(** The failure of a read that may have to resolve an idle expiry. *)
Definition readFailed (target : byte) (q : pendingOp) (e : Err) (m : Manager) : option (Manager * after) :=
  '(m, c) ← consumeIdleExpiryAfterReadLocked target (OperationID q) m;
  Some (m, match c with
           | Some epoch => ThenCleanup epoch (Some (RRead [] (Some e)))
           | None => Return (Some (RRead [] (Some e)))
           end).

(** [ReadOperation], after the dispatch. *)
Definition readFinish (p : nat) (q : pendingOp) (target : byte) (o : DispatchOutcome) (m : Manager)
    : option (Manager * after) :=
  if negb (isPending p m) then Some (m, Return (Some (RRead [] (Some (errOrDown o)))))
  else
    let m := set_pendingOperation None (updPending p (set_PEmitted (Emitted o)) m) in
    match OErr o with
    | Some e =>
        if isTransportDown e then
          let epoch := TransportEpoch (transport m) in
          m ← toDisabledLocked m;
          let m := createCleanupLocked target epoch (OperationID q) m in
          Some (set_lastRefreshTransportDown true m, Return (Some (RRead [] (Some e))))
        else readFailed target q e m
    | None =>
        if negb (bool_decide (Native o = NativeACK)) then readFailed target q ErrTransportDown m
        else if negb (isState Active (state m)) || negb (bool_decide (transport m = Transport q))
                || negb (activeTarget m =? target)
        then readFailed target q ErrTransportDown m
        else Some (armIdleTimerLocked (set_idleExpiryPending false m), Return (Some (RRead (Response o) None)))
    end.

(** [DisableOperation], after the dispatch. *)
Definition disableFinish (p : nat) (q : pendingOp) (target : byte) (o : DispatchOutcome) (m : Manager)
    : option (Manager * after) :=
  if negb (isPending p m) then Some (m, Return (Some (RDisable (Some (errOrDown o)))))
  else
    let emitted := PEmitted q || Emitted o in
    let m := set_pendingOperation None (updPending p (set_PEmitted emitted) m) in
    if negb emitted && isState Active (state m) && mutexHeld m && (activeTarget m =? target) then
      Some (armIdleTimerLocked (set_idleExpiryPending false m), Return (Some (RDisable (Some (errOrDown o)))))
    else
      let epoch := TransportEpoch (transport m) in
      m ← (if mutexHeld m then releaseOwnerLocked m else Some m);
      let m := createCleanupLocked target epoch (OperationID q) (set_state Disabled m) in
      m ← updCleanup (fun c => set_LastAttempted true (set_LastAttemptEpoch epoch c)) m;
      match cleanup m with
      | Some c => Some (m, ThenRecord (GatewayCleanupAttemptID c) epoch o (Some (RDisable (OErr o))))
      | None => None
      end.

(** ** Idle expiry *)

(** [idleTimerFired]: what the callback goes on with. *)
Inductive fired :=
| FiredNothing
| FiredRefresh (p : nat) (target : byte) (attempted : Z) (t : TransportKey)
| FiredCleanup (epoch : Z).

Definition idleTimerFired (gen : Z) (m : Manager) : option (Manager * fired) :=
  if negb (gen =? idleTimerGen m) then Some (m, FiredNothing)
  else if negb (isState Active (state m)) then Some (m, FiredNothing)
  else
    match pendingOperation m with
    | Some p =>
        match Kind <$> heap m !! p with
        | Some OperationRead => Some (set_idleExpiryPending true m, FiredNothing)
        | _ => Some (m, FiredNothing)
        end
    | None =>
        let target := activeTarget m in
        if TransportEpoch (transport m) <? pendingEpoch m then
          let attempted := pendingEpoch m in
          let '(m, op) := newCleanupAttemptID m in
          let p := length (heap m) in
          let m := alloc (mkPending op OperationDisable target (transport m) false NoToken false false false false) m in
          Some (set_state Refreshing (set_pendingOperation (Some p) m),
                FiredRefresh p target attempted (transport m))
        else
          let epoch := TransportEpoch (transport m) in
          let '(m, op) := newCleanupAttemptID m in
          m ← toDisabledLocked m;
          Some (createCleanupLocked target epoch op m, FiredCleanup epoch)
    end.

(** [idleRefreshAndDisable], after the refresh: [None] when it ends there,
    otherwise the transport and whether there is a cleanup dispatcher. *)
Definition idleRefreshed (p : nat) (q : pendingOp) (attempted : Z) (r : Err + TransportKey) (m : Manager)
    : option (Manager * option (TransportKey * bool)) :=
  if negb (refreshCurrent p m) then Some (m, None)
  else
    let fail :=
      let latest := observedEpoch m in
      m ← toDisabledLocked (bindEpoch latest (set_pendingOperation None m));
      Some (createCleanupLocked (Target q) latest (OperationID q) m, None) in
    match r with
    | inl _ => fail
    | inr t =>
        if invalidated q || (TransportEpoch t <? attempted) || (TransportEpoch t <? observedEpoch m) then fail
        else
          let m := set_pendingEpoch 0 (set_observedEpoch (TransportEpoch t) (set_transport t m)) in
          let m := updPending p (set_Transport t) (set_state Active m) in
          Some (m, Some (t, cleanupDispatch m))
    end.

(** [idleRefreshAndDisable] without a cleanup dispatcher. *)
Definition idleNoDispatch (p : nat) (q : pendingOp) (t : TransportKey) (m : Manager) : option Manager :=
  if negb (isPending p m) then Some m
  else
    m ← toDisabledLocked (set_pendingOperation None m);
    Some (createCleanupLocked (Target q) (TransportEpoch t) (OperationID q) m).

(** [idleRefreshAndDisable], after the dispatch. *)
Definition idleFinish (p : nat) (q : pendingOp) (t : TransportKey) (o : DispatchOutcome) (m : Manager)
    : option (Manager * after) :=
  if negb (isPending p m) then Some (m, Return None)
  else if invalidated q || (TransportEpoch t <? observedEpoch m) then
    m ← toDisabledLocked (bindEpoch (observedEpoch m) (set_pendingOperation None m));
    let m := createCleanupLocked (Target q) (observedEpoch m) (OperationID q) m in
    let m := match cleanup m with
             | Some c => set_cleanup (Some (set_CEpoch (observedEpoch m) c)) m
             | None => m
             end in
    Some (m, Return None)
  else
    m ← releaseOwnerLocked (set_pendingOperation None m);
    let m := createCleanupLocked (Target q) (TransportEpoch t) (OperationID q) (set_state Disabled m) in
    m ← updCleanup (fun c =>
          set_LastErr (OErr o) (set_LastNative (Native o) (set_LastEmitted (Emitted o)
            (set_LastAttemptEpoch (TransportEpoch t) (set_LastAttempted true c))))) m;
    Some (m, Return None).

(** ** Cleanup attempts *)

(** [attemptCleanup], up to the dispatch: [None] when there is nothing to
    attempt, otherwise the operation, its target and the attempt. *)
Definition cleanupBegin (epoch : Z) (m : Manager) : Manager * option (nat * byte * TokenID) :=
  match cleanup m with
  | None => (m, None)
  | Some c =>
      if restarted m || (LastAttempted c && (LastAttemptEpoch c =? epoch)) || negb (cleanupDispatch m)
      then (m, None)
      else
        let c' := set_CEpoch epoch (set_LastAttempted true (set_LastAttemptEpoch epoch c)) in
        let '(m, op) := newCleanupAttemptID (set_cleanup (Some c') m) in
        let p := length (heap m) in
        let m := alloc (mkPending op OperationDisable (CTarget c) (transport m) false NoToken false false false true) m in
        (set_pendingOperation (Some p) m, Some (p, CTarget c, GatewayCleanupAttemptID c))
  end.

(** [attemptCleanup], after the dispatch. *)
Definition cleanupFinish (p : nat) (attemptID : TokenID) (epoch : Z) (o : DispatchOutcome) (r : option ret)
    (m : Manager) : Manager * after :=
  (if isPending p m then set_pendingOperation None m else m, ThenRecord attemptID epoch o r).

(** ** Lifecycle events *)

(** [OnTransportDisconnect]. *)
Definition OnTransportDisconnect (m : Manager) : option Manager :=
  if negb (mutexHeld m) then Some m
  else
    let m := invalidatePending m in
    let pend := PendingOperation m in
    let enable := match pend with
                  | Some q => isKind OperationEnable (Kind q)
                  | None => false
                  end in
    match pend with
    | Some q =>
        if enable && negb (PEmitted q) then
          m ← releaseOwnerLocked (set_pendingEpoch 0 (set_pendingOperation None m));
          Some (set_state Idle (clearCleanupForOperationLocked (OperationID q) m))
        else
          let target := if enable then Target q else activeTarget m in
          let source := if enable then OperationID q else NoToken in
          let epoch := TransportEpoch (transport m) in
          m ← toDisabledLocked m;
          Some (createCleanupLocked target epoch source m)
    | None =>
        let target := activeTarget m in
        let epoch := TransportEpoch (transport m) in
        m ← toDisabledLocked m;
        Some (createCleanupLocked target epoch NoToken m)
    end.

(** [OnEpochAdvance], under [emissionMu]. *)
Definition OnEpochAdvance (newEpoch : Z) (m : Manager) : option Manager :=
  if newEpoch <=? observedEpoch m then Some m
  else
    let m := invalidatePending (set_lastRefreshTransportDown false (set_observedEpoch newEpoch m)) in
    let early := match PendingOperation m with
                 | Some q => isState Enabling (state m) && isKind OperationEnable (Kind q)
                             && negb (PEmitted q)
                 | None => false
                 end in
    match PendingOperation m, early with
    | Some q, true =>
        m ← releaseOwnerLocked (set_pendingOperation None (bindEpoch newEpoch m));
        Some (set_state Idle (clearCleanupForOperationLocked (OperationID q) m))
    | _, _ =>
        if mutexHeld m then Some (set_pendingEpoch newEpoch m)
        else Some (bindEpoch newEpoch m)
    end.

(** [ResetForRestart]. *)
Definition ResetForRestart (targets : list byte) (m : Manager) : option Manager :=
  m ← releaseGate (stopIdleTimerLocked m);
  let m := set_activeTarget 0 (set_activeToken NoToken m) in
  let m := set_cleanup None (set_pendingOperation None (invalidatePending m)) in
  let m := set_lastRefreshTransportDown false (set_refreshFailed false m) in
  let m := set_idleExpiryPending false (set_pendingEpoch 0 m) in
  let m := set_restarted true (set_state Disabled m) in
  let ts : gset Z := list_to_set targets in
  Some (set_restartFences (qualified m ∪ ts ∪ restartFences m) (set_qualified (ts ∪ qualified m) m)).

(** ** Threads and steps *)

(** The public operations and the callers of a dispatch: the three
    operations, the idle refresh with the transport it bound, and an
    attempt of cleanup with the result of the call that made it. *)
Inductive request := ReqEnable | ReqRead | ReqDisable (k : SessionKey).
Inductive caller :=
| CallEnable (tok : TokenID)
| CallRead
| CallDisable
| CallIdle (t : TransportKey)
| CallCleanup (attemptID : TokenID) (epoch : Z) (r : option ret).

(** Where an operation is: in its refresh, before one of its sections, in
    its dispatch before or after the admission of the emission ([fence]:
    with [emissionMu] held). *)
Inductive phase :=
| PRefresh (attempted : Z)
| PNoDispatch
| PBind
| PQuiet
| PDispatch
| PAdmitted (fence : bool).

Inductive thread :=
| TEnter (rq : request) (target : byte)
| TOp (c : caller) (p : nat) (target : byte) (ph : phase)
| TCleanup (epoch : Z) (r : option ret)
| TRecord (attemptID : TokenID) (epoch : Z) (o : DispatchOutcome) (r : option ret).

Definition kindOf (rq : request) : OperationKind :=
  match rq with
  | ReqEnable => OperationEnable
  | ReqRead => OperationRead
  | ReqDisable _ => OperationDisable
  end.

(** An admitted emission: what was admitted, bound to which epoch, and the
    epoch the manager had observed. *)
Record emission := mkEmission {
  emKind : OperationKind;
  emCleanup : bool;
  emTarget : byte;
  emBound : Z;
  emObserved : Z
}.

(** The manager, the calls in progress and the emissions admitted so far.  An
    emission is recorded when the manager admits it; the dispatcher hands the
    frame to the bus after that, while its thread is in [PAdmitted true]. *)
Record World := mkWorld {
  mgr : Manager;
  threads : gmap nat thread;
  emissions : list emission
}.

Definition start (t : TransportKey) (timeout : Z) : World := mkWorld (New t timeout) ∅ [].

(** The steps.  [LCall] is the entry of a public operation (with
    [MarkQualifiedTarget]), [LEnter] its first section; [LRefreshed] and
    [LFinish] give the result of the refresh function and of the dispatch
    and run the section after it; [LAdmit] and [LBegin] are the two forms of
    admission the dispatcher of the thread can ask for. *)
Inductive label :=
| LSetDispatcher (installed : bool)
| LMark (target : byte)
| LEnable
| LDisable (k : SessionKey)
| LRead (t : TransportKey)
| LCall (tid : nat) (rq : request) (target : byte)
| LEnter (tid : nat)
| LRefreshed (tid : nat) (r : option (Err + TransportKey))
| LNoDispatch (tid : nat)
| LBind (tid : nat)
| LQuiet (tid : nat)
| LAdmit (tid : nat)
| LBegin (tid : nat)
| LRelease (tid : nat)
| LFinish (tid : nat) (dispatch : option DispatchOutcome)
| LCleanup (tid : nat)
| LRecord (tid : nat)
| LFire (tid : nat) (gen : Z)
| LDisconnect
| LEpoch (newEpoch : Z)
| LReset (targets : list byte).

(** The result of a step: not possible now, a deadlock or crash, or a new
    world with what a call returned. *)
Inductive outcome :=
| Blocked
| Fault
| Next (w : World) (r : option ret).

Definition with_mgr (m : Manager) (w : World) : World := mkWorld m (threads w) (emissions w).
Definition spawn (tid : nat) (t : thread) (w : World) : World :=
  mkWorld (mgr w) (<[tid := t]> (threads w)) (emissions w).
Definition finish (tid : nat) (w : World) : World :=
  mkWorld (mgr w) (delete tid (threads w)) (emissions w).
Definition emit (e : emission) (w : World) : World :=
  mkWorld (mgr w) (threads w) (emissions w ++ [e]).

(** A section of the manager and what follows it. *)
Definition section {A} (s : option (Manager * A)) (k : Manager -> A -> outcome) : outcome :=
  match s with
  | Some (m, a) => k m a
  | None => Fault
  end.
Definition only (s : option Manager) (w : World) : outcome :=
  match s with
  | Some m => Next (with_mgr m w) None
  | None => Fault
  end.
Definition goOn (tid : nat) (w : World) (m : Manager) (a : after) : outcome :=
  match a with
  | Return r => Next (finish tid (with_mgr m w)) r
  | ThenCleanup epoch r => Next (spawn tid (TCleanup epoch r) (with_mgr m w)) None
  | ThenRecord id epoch o r => Next (spawn tid (TRecord id epoch o r) (with_mgr m w)) None
  end.

(** Where an admitted owner operation goes on: [DisableOperation] stops the
    idle timer after it has bound its context. *)
Definition boundPhase (c : caller) : phase :=
  match c with
  | CallDisable => PQuiet
  | _ => PDispatch
  end.
Definition callerOf (rq : request) : caller :=
  match rq with
  | ReqDisable _ => CallDisable
  | _ => CallRead
  end.

(** The dispatcher of a thread asks for admission with the identity of its
    operation, which its context carries. *)
Definition doAdmit (tid : nat) (fence : bool) (w : World) (c : caller) (p : nat) (target : byte)
    (q : pendingOp) : outcome :=
  match (if fence then BeginPendingEmission (OperationID q) target (mgr w)
         else Some (AdmitPendingEmission (OperationID q) target (mgr w))) with
  | None => Blocked
  | Some (m, false) => Next (with_mgr m w) None
  | Some (m, true) =>
      let e := mkEmission (Kind q) (pcleanup q) target (TransportEpoch (Transport q)) (observedEpoch m) in
      Next (spawn tid (TOp c p target (PAdmitted fence)) (emit e (with_mgr m w))) None
  end.

(** The section after the dispatch of an operation. *)
Definition doFinish (c : caller) (p : nat) (q : pendingOp) (target : byte) (o : DispatchOutcome) (m : Manager)
    : option (Manager * after) :=
  match c with
  | CallEnable tok => enableFinish p q target tok o m
  | CallRead => readFinish p q target o m
  | CallDisable => disableFinish p q target o m
  | CallIdle t => idleFinish p q t o m
  | CallCleanup id epoch r => Some (cleanupFinish p id epoch o r m)
  end.

(** The section after a refresh. *)
Definition doRefreshed (tid : nat) (w : World) (c : caller) (p : nat) (q : pendingOp) (target : byte)
    (attempted : Z) (r : Err + TransportKey) : outcome :=
  match c with
  | CallIdle _ =>
      section (idleRefreshed p q attempted r (mgr w)) (fun m next =>
        match next with
        | None => Next (finish tid (with_mgr m w)) None
        | Some (t, true) => Next (spawn tid (TOp (CallIdle t) p target PBind) (with_mgr m w)) None
        | Some (t, false) => Next (spawn tid (TOp (CallIdle t) p target PNoDispatch) (with_mgr m w)) None
        end)
  | _ =>
      section (ownerRefreshed p q target attempted r (mgr w)) (fun m err =>
        match err with
        | Some e => Next (finish tid (with_mgr m w)) (Some (opErr (Kind q) e))
        | None => Next (spawn tid (TOp c p target PBind) (with_mgr m w)) None
        end)
  end.

(** The first section of an operation. *)
Definition doEnter (tid : nat) (w : World) (rq : request) (target : byte) : outcome :=
  match rq with
  | ReqEnable =>
      section (enableBegin target (mgr w)) (fun m res =>
        match res with
        | inl e => Next (finish tid (with_mgr m w)) (Some (REnable noKey (Some e)))
        | inr (p, tok) => Next (spawn tid (TOp (CallEnable tok) p target PDispatch) (with_mgr m w)) None
        end)
  | _ =>
      let key := match rq with ReqDisable k => Some k | _ => None end in
      let '(m, res) := ownerBegin target key (kindOf rq) (mgr w) in
      match res with
      | inl e => Next (finish tid (with_mgr m w)) (Some (opErr (kindOf rq) e))
      | inr (p, None) => Next (spawn tid (TOp (callerOf rq) p target PBind) (with_mgr m w)) None
      | inr (p, Some a) => Next (spawn tid (TOp (callerOf rq) p target (PRefresh a)) (with_mgr m w)) None
      end
  end.

(** The idle timer callback [gen], in a new thread. *)
Definition doFire (tid : nat) (gen : Z) (w : World) : outcome :=
  let m := set_callbacks (callbacks (mgr w) ∖ {[gen]}) (mgr w) in
  section (idleTimerFired gen m) (fun m f =>
    match f with
    | FiredNothing => Next (with_mgr m w) None
    | FiredRefresh p target a t =>
        Next (spawn tid (TOp (CallIdle t) p target (PRefresh a)) (with_mgr m w)) None
    | FiredCleanup epoch => Next (spawn tid (TCleanup epoch None) (with_mgr m w)) None
    end).

Definition doCleanup (tid : nat) (w : World) (epoch : Z) (r : option ret) : outcome :=
  let '(m, next) := cleanupBegin epoch (mgr w) in
  match next with
  | None => Next (finish tid (with_mgr m w)) r
  | Some (p, target, id) => Next (spawn tid (TOp (CallCleanup id epoch r) p target PBind) (with_mgr m w)) None
  end.

(** A step on a thread that runs an operation, with the operation. *)
Definition onOp (tid : nat) (w : World) (k : caller -> nat -> byte -> phase -> pendingOp -> outcome) : outcome :=
  match threads w !! tid with
  | Some (TOp c p target ph) =>
      match heap (mgr w) !! p with
      | Some q => k c p target ph q
      | None => Blocked
      end
  | _ => Blocked
  end.

Definition step (l : label) (w : World) : outcome :=
  match l with
  | LSetDispatcher b => only (Some (SetCleanupDispatcher b (mgr w))) w
  | LMark t => only (Some (MarkQualifiedTarget t (mgr w))) w
  | LEnable =>
      section (Enable (mgr w)) (fun m res =>
        Next (with_mgr m w) (Some (match res with inl e => REnable noKey (Some e) | inr k => REnable k None end)))
  | LDisable k => section (Disable k (mgr w)) (fun m e => Next (with_mgr m w) (Some (RDisable e)))
  | LRead t => section (Some (Read t (mgr w))) (fun m e => Next (with_mgr m w) (Some (RRead [] e)))
  | LCall tid rq target =>
      match threads w !! tid with
      | Some _ => Blocked
      | None => Next (spawn tid (TEnter rq target) (with_mgr (MarkQualifiedTarget target (mgr w)) w)) None
      end
  | LEnter tid =>
      match threads w !! tid with
      | Some (TEnter rq target) => doEnter tid w rq target
      | _ => Blocked
      end
  | LRefreshed tid r =>
      onOp tid w (fun c p target ph q =>
        match ph with
        | PRefresh a => doRefreshed tid w c p q target a (refreshResult r)
        | _ => Blocked
        end)
  | LNoDispatch tid =>
      onOp tid w (fun c p target ph q =>
        match c, ph with
        | CallIdle t, PNoDispatch => section (m ← idleNoDispatch p q t (mgr w); Some (m, tt)) (fun m _ =>
            Next (finish tid (with_mgr m w)) None)
        | _, _ => Blocked
        end)
  | LBind tid =>
      onOp tid w (fun c p target ph q =>
        match ph with
        | PBind => Next (spawn tid (TOp c p target (boundPhase c)) (with_mgr (bindPendingContext p q (mgr w)) w)) None
        | _ => Blocked
        end)
  | LQuiet tid =>
      onOp tid w (fun c p target ph q =>
        match ph with
        | PQuiet => Next (spawn tid (TOp c p target PDispatch) (with_mgr (quietIdle p (mgr w)) w)) None
        | _ => Blocked
        end)
  | LAdmit tid =>
      onOp tid w (fun c p target ph q =>
        match ph with
        | PDispatch => doAdmit tid false w c p target q
        | _ => Blocked
        end)
  | LBegin tid =>
      onOp tid w (fun c p target ph q =>
        match ph with
        | PDispatch => doAdmit tid true w c p target q
        | _ => Blocked
        end)
  | LRelease tid =>
      onOp tid w (fun c p target ph q =>
        match ph with
        | PAdmitted true =>
            Next (spawn tid (TOp c p target (PAdmitted false)) (with_mgr (releaseEmission (mgr w)) w)) None
        | _ => Blocked
        end)
  | LFinish tid d =>
      onOp tid w (fun c p target ph q =>
        match ph with
        | PDispatch | PAdmitted false =>
            section (doFinish c p q target (dispatchOnce d) (mgr w)) (fun m a => goOn tid w m a)
        | _ => Blocked
        end)
  | LCleanup tid =>
      match threads w !! tid with
      | Some (TCleanup epoch r) => doCleanup tid w epoch r
      | _ => Blocked
      end
  | LRecord tid =>
      match threads w !! tid with
      | Some (TRecord id epoch o r) =>
          Next (finish tid (with_mgr (recordCleanupOutcome id epoch o (mgr w)) w)) r
      | _ => Blocked
      end
  | LFire tid gen =>
      match threads w !! tid with
      | Some _ => Blocked
      | None => if bool_decide (gen ∈ callbacks (mgr w)) then doFire tid gen w else Blocked
      end
  | LDisconnect => only (OnTransportDisconnect (mgr w)) w
  | LEpoch e => if emissionMu (mgr w) then Blocked else only (OnEpochAdvance e (mgr w)) w
  | LReset ts => only (ResetForRestart ts (mgr w)) w
  end.

(** A run: labels and what each returned, every step possible. *)
Fixpoint run (ls : list label) (w : World) : outcome :=
  match ls with
  | [] => Next w None
  | l :: ls =>
      match step l w with
      | Next w' _ => run ls w'
      | o => o
      end
  end.
End Ops.

(** The worlds a run over the labels a predicate allows can reach. *)
Inductive reachable (rand : nat -> option (list byte)) (allowed : World -> label -> Prop) (w0 : World)
    : World -> Prop :=
| reach_refl : reachable rand allowed w0 w0
| reach_step w l w' r : reachable rand allowed w0 w -> allowed w l -> step rand l w = Next w' r ->
    reachable rand allowed w0 w'.

(** A run all of whose labels a decidable predicate allows. *)
Fixpoint runWhile (rand : nat -> option (list byte)) (allowed : World -> label -> Prop)
    `{forall w l, Decision (allowed w l)} (ls : list label) (w : World) : option World :=
  match ls with
  | [] => Some w
  | l :: ls =>
      if decide (allowed w l) then
        match step rand l w with
        | Next w' _ => runWhile rand allowed ls w'
        | _ => None
        end
      else None
  end.

Lemma runWhile_reachable rand allowed `{forall w l, Decision (allowed w l)} ls w0 w1 w :
  reachable rand allowed w0 w1 -> runWhile rand allowed ls w1 = Some w -> reachable rand allowed w0 w.
Proof.
  revert w1. induction ls as [|l ls IH]; intros w1 Hr; cbn; [by intros [= <-]|].
  destruct (decide _) as [Ha|]; [|done]. destruct (step rand l w1) as [| |w2 r] eqn:Hs; try done.
  intros Hw. apply (IH w2); [|done]. by eapply reach_step.
Qed.

(** A random source whose outputs differ, and the outcome of a dispatch
    that was sent and acknowledged. *)
Definition counting (n : nat) : option (list byte) := Some [Z.of_nat n].
Definition acked (t : TransportKey) : DispatchOutcome := mkOutcome [] true NativeACK t None.

End B503.
