(* ===== verification/B503Inv.v ===== *)
(** * The ownership gate of the B503 session manager

    The invariant of the manager and of the calls in progress, over every
    interleaving of sections, timers, refreshes, dispatches and lifecycle
    events: the gate is locked exactly in the states that have an owner, no
    section deadlocks on it or releases it twice, and a pending operation
    always has the call that will end it. *)

From S2P Require Import Prelude B503Session.

Local Open Scope Z_scope.

Module B503Inv.
Import B503.

(** ** The invariant of the manager *)

(** The states with an owner. *)
Definition held (s : State) : bool :=
  match s with
  | Enabling | Active | Refreshing => true
  | Idle | Disabled => false
  end.

(** The states a pending operation of a kind can be in: its own, or
    [Disabled] once a disconnect took the owner away. *)
Definition fits (s : State) (q : pendingOp) : bool :=
  match Kind q, pcleanup q, s with
  | OperationEnable, false, (Enabling | Disabled) => true
  | (OperationRead | OperationDisable), false, (Active | Refreshing | Disabled) => true
  | OperationDisable, true, Disabled => true
  | _, _, _ => false
  end.

Record MInv (m : Manager) : Prop := {
  mi_gate : mu m = mutexHeld m;
  mi_held : mutexHeld m = held (state m);
  mi_clean : state m = Idle \/ state m = Enabling -> cleanup m = None;
  mi_disabled : state m = Disabled -> cleanup m = None -> restarted m = true;
  mi_restarted : restarted m = true -> state m = Disabled /\ pendingOperation m = None /\ cleanup m = None;
  mi_idle : pendingOperation m = None -> state m <> Enabling /\ state m <> Refreshing;
  mi_pending p : pendingOperation m = Some p -> exists q, heap m !! p = Some q /\ fits (state m) q = true
}.

(** ** Sections do not fault *)

Lemma releaseGate_eq (m : Manager) :
  mu m = mutexHeld m -> releaseGate m = Some (set_mutexHeld false (set_mu false m)).
Proof. unfold releaseGate, unlockMu. destruct m as [? ? ? ? ? ? ? ? ? [] ? ? ? ? ? ? ? ? ? ? ? ? ? ? ?]; cbn; by intros ->. Qed.

Lemma lockMu_eq (m : Manager) : mu m = false -> lockMu m = Some (set_mu true m).
Proof. unfold lockMu. by intros ->. Qed.

(** Pending operations keep their identity, kind and target. *)
Definition sameOp (q q' : pendingOp) : Prop :=
  OperationID q' = OperationID q /\ Kind q' = Kind q /\ Target q' = Target q /\ pcleanup q' = pcleanup q.
Definition heapExt (h h' : list pendingOp) : Prop :=
  forall p q, h !! p = Some q -> exists q', h' !! p = Some q' /\ sameOp q q'.

Lemma heapExt_refl h : heapExt h h.
Proof. intros p q Hq. exists q. by repeat split. Qed.
Lemma heapExt_alter h p f : (forall q, sameOp q (f q)) -> heapExt h (alter f p h).
Proof.
  intros Hf i q Hq. destruct (decide (i = p)) as [->|Hne].
  - exists (f q). split; [|apply Hf]. by rewrite list_lookup_alter_eq, Hq.
  - exists q. rewrite list_lookup_alter_ne by done. split; [done|]. by repeat split.
Qed.
Lemma heapExt_app h k : heapExt h (h ++ k).
Proof. intros p q Hq. exists q. split; [by apply lookup_app_l_Some|]. by repeat split. Qed.
Lemma fits_same s q q' : sameOp q q' -> fits s q' = fits s q.
Proof. intros (_ & Hk & _ & Hc). unfold fits. by rewrite Hk, Hc. Qed.

(** ** Symbolic execution of sections

    Every helper is a chain of field assignments. *)

Section Helpers.
Context (rand : nat -> option (list byte)).

Lemma toDisabled_eq (m : Manager) :
  mu m = mutexHeld m ->
  toDisabledLocked m =
    Some (set_activeTarget 0 (set_activeToken NoToken (set_mutexHeld false (set_mu false
      (set_state Disabled (set_idleExpiryPending false (stopIdleTimerLocked m))))))).
Proof. intros Hg. unfold toDisabledLocked. by rewrite releaseGate_eq. Qed.

Lemma releaseOwner_eq (m : Manager) :
  mu m = mutexHeld m ->
  releaseOwnerLocked m =
    Some (set_activeTarget 0 (set_activeToken NoToken (set_mutexHeld false (set_mu false
      (stopIdleTimerLocked m))))).
Proof. intros Hg. unfold releaseOwnerLocked. by rewrite releaseGate_eq. Qed.

Lemma arm_eq (m : Manager) :
  exists c t g, armIdleTimerLocked m = set_callbacks c (set_idleTimer t (set_idleTimerGen g m)).
Proof.
  unfold armIdleTimerLocked. case_match; [|by eexists _, _, _].
  exists (callbacks m), (idleTimer m), (idleTimerGen m). by destruct m.
Qed.

Lemma newID_eq (m : Manager) :
  exists e f id, newCleanupAttemptID rand m = (set_fallbackAttemptID f (set_entropy e m), id).
Proof.
  unfold newCleanupAttemptID, newIssuerToken. destruct (rand (entropy m)); cbn; [|by eexists _, _, _].
  exists (S (entropy m)), (fallbackAttemptID m), (HexToken l). by destruct m.
Qed.

Lemma create_eq target epoch source (m : Manager) :
  cleanup m = None ->
  exists e f c, createCleanupLocked rand target epoch source m =
    set_state Disabled (set_cleanup (Some c) (set_fallbackAttemptID f (set_entropy e m))) /\
    sourceOperationID c = source /\ CTarget c = target /\ CEpoch c = epoch.
Proof.
  intros Hc. unfold createCleanupLocked. rewrite Hc.
  destruct (newID_eq m) as (e & f & id & ->). by eexists e, f, _.
Qed.

Lemma create_id target epoch source (m : Manager) c :
  cleanup m = Some c -> createCleanupLocked rand target epoch source m = m.
Proof. unfold createCleanupLocked. by intros ->. Qed.
End Helpers.

(** The postcondition of a section. *)
Definition ok {A} (s : option (Manager * A)) (P : Manager -> A -> Prop) : Prop :=
  match s with
  | Some (m, a) => P m a
  | None => False
  end.

(** [track M] gives the manager [M], a chain of assignments, a name and
    keeps what its fields are; sections are executed on names only. *)
Ltac fields :=
  repeat match goal with
  | H : ?f ?m = _ |- context [?f ?m] => is_var m; rewrite H
  end.
Ltac fields_in H :=
  repeat match goal with
  | E : ?f ?m = _ |- _ =>
      is_var m;
      lazymatch type of H with _ = ?rhs => lazymatch rhs with context [f m] => rewrite E in H end end
  end.
Ltac track M :=
  let m := fresh "m" in
  let E := fresh "E" in
  remember M as m eqn:E;
  let note f := (let H := fresh "F" in
                 pose proof (f_equal f E) as H;
                 cbn -[alter app] in H; fields_in H) in
  note mu; note mutexHeld; note emissionMu; note state; note cleanup; note restarted; note pendingOperation;
  note heap; note transport; note observedEpoch; note pendingEpoch;
  clear E; fields;
  repeat match goal with x : Manager |- _ => clear dependent x end.
Ltac simple_manager M :=
  lazymatch M with
  | context [createCleanupLocked _ _ _ _ _] => fail
  | context [armIdleTimerLocked _] => fail
  | context [match _ with _ => _ end] => fail
  | _ => idtac
  end.

(** The expression the execution of a goal waits for. *)
Ltac headof t :=
  match t with
  | context [match ?x with _ => _ end] =>
      lazymatch x with
      | context [match _ with _ => _ end] => headof x
      | _ => x
      end
  | _ => t
  end.
Ltac crank_on x :=
  match x with
  | context [toDisabledLocked ?m] => is_var m; rewrite (toDisabled_eq m) by congruence
  | context [releaseOwnerLocked ?m] => is_var m; rewrite (releaseOwner_eq m) by congruence
  | context [releaseGate ?m] => is_var m; rewrite (releaseGate_eq m) by congruence
  | context [lockMu ?m] => is_var m; rewrite (lockMu_eq m) by congruence
  | context [createCleanupLocked ?r ?t ?e ?s ?m] =>
      is_var m;
      first [ erewrite (create_id r t e s m) by eassumption
            | destruct (create_eq r t e s m) as (? & ? & ? & -> & ? & ? & ?); [congruence|] ]
  | context [newCleanupAttemptID ?r ?m] => is_var m; destruct (newID_eq r m) as (? & ? & ? & ->)
  | context [armIdleTimerLocked ?m] => is_var m; destruct (arm_eq m) as (? & ? & ? & ->)
  | context [?M] =>
      lazymatch type of M with
      | Manager => tryif is_var M then fail else (simple_manager M; track M)
      end
  end.
Ltac crank1 :=
  match goal with
  | |- ?G =>
      let x := headof G in
      first [ crank_on x | lazymatch G with context [match x with _ => _ end] => destruct x eqn:? end ]
  end.
Ltac secsimpl := cbv beta iota zeta delta [ok mbind option_bind updCleanup isState isKind negb andb orb notNil].
Ltac crank := secsimpl; fields; secsimpl; repeat (crank1; secsimpl; try discriminate).

(** What every section but the ones that start an operation leaves as it
    was; [qt_held]: only a section that enables takes the gate. *)
Record Quiet (m m' : Manager) : Prop := {
  qt_heap : heapExt (heap m) (heap m');
  qt_pending : pendingOperation m' = pendingOperation m \/ pendingOperation m' = None;
  qt_refresh : state m' = Refreshing -> state m = Refreshing;
  qt_disabled : state m = Disabled -> pendingOperation m = None -> state m' = Disabled;
  qt_emission : emissionMu m' = emissionMu m;
  qt_held : held (state m') = true -> held (state m) = true
}.

(** The goals a section leaves: the clauses of the two records, on a chain
    of assignments to the fields of [m]. *)
Ltac msolve :=
  fields; cbn; intros;
  repeat match goal with
  | H : _ \/ _ |- _ => destruct H
  | H : restarted ?m = true, Hr : restarted ?m = true -> _ |- _ => destruct (Hr H) as (? & ? & ?); clear Hr
  end;
  first [ congruence | tauto | apply heapExt_refl | apply heapExt_app
        | apply heapExt_alter; by repeat split
        | split; congruence | repeat split; congruence | eauto ].

(** A thread that goes on with a cleanup attempt has just disabled the
    session, and the section ended the operation. *)
Definition Stays (m m' : Manager) : Prop :=
  state m' = Active -> pendingOperation m' <> None -> state m = Active.
Definition Finished (p : nat) (m m' : Manager) (a : after) : Prop :=
  (MInv m' /\ Quiet m m' /\ Stays m m') /\ pendingOperation m' <> Some p /\
  match a with
  | ThenCleanup _ _ => state m <> Disabled /\ state m' = Disabled /\ pendingOperation m' = None
  | _ => True
  end.
Definition Kept (m m' : Manager) : Prop := MInv m' /\ Quiet m m' /\ Stays m m'.

Lemma Kept_refl m : MInv m -> Kept m m.
Proof. split; [done|]. split; [|by intros ?]. constructor; auto using heapExt_refl. Qed.

Lemma Finished_refl p m r : MInv m -> pendingOperation m <> Some p -> Finished p m m (Return r).
Proof. intros Hm Hp. split; [by apply Kept_refl|done]. Qed.

(** Open the invariant at a current operation and split on the state. *)
Ltac current Hm Hpe :=
  destruct Hm as [Hg Hh Hc Hd Hr Hi Hp]; destruct (Hp _ Hpe) as (? & ? & Hf); simplify_eq; unfold fits in Hf.
Ltac bystate :=
  match goal with |- context [ok _ _] => idtac end;
  match goal with m : Manager |- _ =>
    destruct (state m) eqn:Hs; try discriminate;
    destruct (cleanup m) eqn:Hcm; try (exfalso; by intuition)
  end.
Ltac secdone :=
  split; [split; [|split]|split];
  first [constructor; solve [msolve] | solve [unfold Stays; msolve] | solve [msolve]].

Ltac pendsolve :=
  match goal with
  | H : heap ?m !! ?p = Some ?q |- context [alter ?f ?p (heap ?m)] =>
      exists (f q); rewrite list_lookup_alter_eq, H; split; [done|]; unfold fits; cbn
  end; fields; done.
Ltac refdone :=
  split; [constructor|split; [constructor|]];
  first [ solve [msolve] | solve [unfold Stays; split; msolve] | solve [fields; cbn; intros; simplify_eq; pendsolve] ].

Ltac openinv Hm :=
  destruct Hm as [Hg Hh Hc Hd Hr Hi Hp];
  match goal with m : Manager |- _ =>
    destruct (state m) eqn:Hs; destruct (cleanup m) eqn:Hcm; try (exfalso; by intuition)
  end.

Section Sections.
Context (rand : nat -> option (list byte)).

Lemma enableFinish_ok p q target tok o m :
  MInv m -> heap m !! p = Some q -> Kind q = OperationEnable -> pcleanup q = false ->
  ok (enableFinish rand p q target tok o m) (Finished p m).
Proof.
  intros Hm Hq Hk Hcl. unfold enableFinish, isPending. case_bool_decide as Hpe; cbn [negb].
  2: by apply Finished_refl.
  current Hm Hpe. rewrite Hk, Hcl in Hf. bystate; unfold clearCleanupForOperationLocked; crank; secdone.
Qed.

Lemma readFinish_ok p q target o m :
  MInv m -> heap m !! p = Some q -> Kind q = OperationRead -> pcleanup q = false ->
  (pendingOperation m = Some p -> state m <> Refreshing) ->
  ok (readFinish rand p q target o m) (Finished p m).
Proof.
  intros Hm Hq Hk Hcl Hnr. unfold readFinish, isPending. case_bool_decide as Hpe; cbn [negb].
  2: by apply Finished_refl.
  specialize (Hnr Hpe). current Hm Hpe. rewrite Hk, Hcl in Hf.
  bystate; unfold readFailed, consumeIdleExpiryAfterReadLocked; crank; secdone.
Qed.

Lemma disableFinish_ok p q target o m :
  MInv m -> heap m !! p = Some q -> Kind q = OperationDisable -> pcleanup q = false ->
  (pendingOperation m = Some p -> state m <> Refreshing) ->
  ok (disableFinish rand p q target o m) (Finished p m).
Proof.
  intros Hm Hq Hk Hcl Hnr. unfold disableFinish, isPending. case_bool_decide as Hpe; cbn [negb].
  2: by apply Finished_refl.
  specialize (Hnr Hpe). current Hm Hpe. rewrite Hk, Hcl in Hf. bystate; crank; secdone.
Qed.

Lemma idleFinish_ok p q t o m :
  MInv m -> heap m !! p = Some q -> Kind q = OperationDisable -> pcleanup q = false ->
  ok (idleFinish rand p q t o m) (Finished p m).
Proof.
  intros Hm Hq Hk Hcl. unfold idleFinish, isPending. case_bool_decide as Hpe; cbn [negb].
  2: by apply Finished_refl.
  current Hm Hpe. rewrite Hk, Hcl in Hf. bystate; crank; secdone.
Qed.

Lemma cleanupFinish_ok p id epoch o r m :
  MInv m -> (pendingOperation m = Some p -> state m = Disabled) ->
  ok (Some (cleanupFinish p id epoch o r m)) (Finished p m).
Proof.
  intros Hm Hs. unfold cleanupFinish, isPending. cbn [ok]. case_bool_decide as Hpe.
  2: split; [by apply Kept_refl|done].
  specialize (Hs Hpe). current Hm Hpe. rewrite Hs in *. destruct (cleanup m) eqn:Hcm; crank; secdone.
Qed.

(** After a refresh the operation goes on with the owner, or ends; when a
    disconnect took the owner during the refresh it ends and stays
    recorded. *)
Definition Refreshed {A} (p : nat) (m m' : Manager) (ends : option A) : Prop :=
  MInv m' /\ Quiet m m' /\
  match ends with
  | None => pendingOperation m' = Some p /\ state m' = Active
  | Some _ => Stays m m' /\ (pendingOperation m' = Some p -> state m' = Disabled)
  end.

Lemma notCurrent p m :
  MInv m -> (pendingOperation m = Some p -> state m = Refreshing \/ state m = Disabled) ->
  refreshCurrent p m = false -> pendingOperation m = Some p -> state m = Disabled.
Proof.
  intros Hm Hph Hc Hpe. destruct (Hph Hpe) as [Hs|]; [|done].
  unfold refreshCurrent, isPending in Hc. rewrite bool_decide_eq_true_2, (mi_held _ Hm), Hs in Hc; [|done].
  discriminate.
Qed.

Lemma refreshCurrent_inv p m :
  refreshCurrent p m = true -> pendingOperation m = Some p /\ state m = Refreshing.
Proof.
  unfold refreshCurrent, isPending. intros Hc. bool_facts.
  split; [by apply bool_decide_eq_true_1 in H|]. by destruct (state m).
Qed.

Lemma ownerRefreshed_ok p q target a r m :
  MInv m -> heap m !! p = Some q -> Kind q <> OperationEnable -> pcleanup q = false ->
  (pendingOperation m = Some p -> state m = Refreshing \/ state m = Disabled) ->
  ok (ownerRefreshed rand p q target a r m) (Refreshed p m).
Proof.
  intros Hm Hq Hk Hcl Hph. unfold ownerRefreshed. destruct (refreshCurrent p m) eqn:Hcur; cbn [negb].
  2: split; [done|]; split; [by apply Kept_refl|split; [by intros ?|by apply notCurrent]].
  destruct (refreshCurrent_inv _ _ Hcur) as [Hpe Hs]. clear Hcur Hph. current Hm Hpe.
  destruct (Kind q) eqn:Hkq; [done| |]; rewrite Hcl in Hf; destruct (cleanup m) eqn:Hcm; destruct r; crank; refdone.
Qed.

Lemma idleRefreshed_ok p q a r m :
  MInv m -> heap m !! p = Some q -> Kind q <> OperationEnable -> pcleanup q = false ->
  (pendingOperation m = Some p -> state m = Refreshing \/ state m = Disabled) ->
  ok (idleRefreshed rand p q a r m)
     (fun m' next => Refreshed p m m' (match next with Some _ => None | None => Some tt end)).
Proof.
  intros Hm Hq Hk Hcl Hph. unfold idleRefreshed. destruct (refreshCurrent p m) eqn:Hcur; cbn [negb].
  2: split; [done|]; split; [by apply Kept_refl|split; [by intros ?|by apply notCurrent]].
  destruct (refreshCurrent_inv _ _ Hcur) as [Hpe Hs]. clear Hcur Hph. current Hm Hpe.
  destruct (Kind q) eqn:Hkq; [done| |]; rewrite Hcl in Hf; destruct (cleanup m) eqn:Hcm; destruct r; crank; refdone.
Qed.

(** The other sections that start nothing. *)
Ltac keptdone :=
  split; [|split]; [constructor|constructor|unfold Stays; msolve]; first [ solve [msolve] | solve [fields; cbn; intros; simplify_eq; pendsolve] ].
Lemma idleNoDispatch_ok p q t m :
  MInv m -> ok (m' ← idleNoDispatch rand p q t m; Some (m', tt)) (fun m' _ => Finished p m m' (Return None)).
Proof.
  intros Hm. unfold idleNoDispatch, isPending. case_bool_decide as Hpe; cbn [negb].
  2: by apply Finished_refl.
  openinv Hm; crank; secdone.
Qed.

(** Changes of the store that keep what operations are. *)
Lemma Kept_heap m m' :
  MInv m -> heapExt (heap m) (heap m') -> mu m' = mu m -> mutexHeld m' = mutexHeld m -> state m' = state m ->
  notNil (cleanup m') = notNil (cleanup m) -> restarted m' = restarted m ->
  pendingOperation m' = pendingOperation m -> emissionMu m' = emissionMu m -> Kept m m'.
Proof.
  intros [Hg Hh Hc Hd Hr Hi Hp] Hx E1 E2 E3 E4 E5 E6 E7.
  assert (Hnil : cleanup m' = None <-> cleanup m = None).
  { destruct (cleanup m), (cleanup m'); naive_solver. }
  split; [|split; [|by intros ?; rewrite <- E3]]; constructor; rewrite ?E1, ?E2, ?E3, ?E5, ?E6, ?E7, ?Hnil; auto.
  intros p Hpe. destruct (Hp _ Hpe) as (q & Hq & Hf). destruct (Hx _ _ Hq) as (q' & Hq' & Hs).
  exists q'. by rewrite (fits_same _ _ _ Hs).
Qed.

Lemma bindPendingContext_ok p q m : MInv m -> Kept m (bindPendingContext p q m).
Proof.
  intros Hm. unfold bindPendingContext.
  case_match; apply Kept_heap; try done; apply heapExt_alter; by repeat split.
Qed.
Lemma quietIdle_ok p m : MInv m -> Kept m (quietIdle p m).
Proof. intros Hm. unfold quietIdle. case_match; apply Kept_heap; try done; apply heapExt_refl. Qed.
Lemma MarkQualifiedTarget_ok t m : MInv m -> Kept m (MarkQualifiedTarget t m).
Proof. intros Hm. unfold MarkQualifiedTarget. cbn. case_match; apply Kept_heap; try done; apply heapExt_refl. Qed.
Lemma recordCleanupOutcome_ok id epoch o m : MInv m -> Kept m (recordCleanupOutcome id epoch o m).
Proof.
  intros Hm. unfold recordCleanupOutcome. destruct (cleanup m) eqn:Hc; [case_match|];
    apply Kept_heap; try done; try apply heapExt_refl. cbn. by rewrite Hc.
Qed.
Lemma admit_ok op t m : MInv m -> Kept m (admitPendingEmissionLocked op t m).1.
Proof.
  intros Hm. unfold admitPendingEmissionLocked. do 3 (case_match; try by apply Kept_refl).
  apply Kept_heap; try done. apply heapExt_alter; by repeat split.
Qed.

(** ** Lifecycle events *)

Lemma invalidate_same q : sameOp q (invalidate q).
Proof. by repeat split. Qed.

Lemma invalidatePending_kept m : MInv m -> Kept m (invalidatePending m).
Proof.
  intros Hm. unfold invalidatePending. case_match; [|by apply Kept_refl].
  apply Kept_heap; try done. apply heapExt_alter, invalidate_same.
Qed.

Lemma Kept_trans m1 m2 m3 : Kept m1 m2 -> Kept m2 m3 -> Kept m1 m3.
Proof.
  intros [_ [[A1 A2 A3 A4 A5 A6] A7]] [Hm [[B1 B2 B3 B4 B5 B6] B7]]. split; [done|].
  split; [|intros H1 H2; apply A7; [by apply B7|destruct B2; congruence]]. constructor.
  - intros p q Hq. destruct (A1 _ _ Hq) as (q2 & Hq2 & ? & ? & ? & ?).
    destruct (B1 _ _ Hq2) as (q3 & Hq3 & ? & ? & ? & ?). exists q3. repeat split; congruence.
  - destruct B2 as [->|]; [done|by right].
  - auto.
  - intros Hs Hn. apply B4; [by apply A4|]. destruct A2; congruence.
  - congruence.
  - auto.
Qed.

Lemma invalidatePending_fields m :
  state (invalidatePending m) = state m /\ pendingOperation (invalidatePending m) = pendingOperation m /\
  cleanup (invalidatePending m) = cleanup m /\ mutexHeld (invalidatePending m) = mutexHeld m.
Proof. unfold invalidatePending. by case_match. Qed.

Lemma ResetForRestart_ok ts m : MInv m -> ok (m' ← ResetForRestart ts m; Some (m', tt)) (fun m' _ => Kept m m').
Proof.
  intros Hm. unfold ResetForRestart. rewrite (releaseGate_eq (stopIdleTimerLocked m)) by apply Hm.
  destruct Hm as [Hg Hh Hc Hd Hr Hi Hp]. unfold invalidatePending. cbn.
  destruct (pendingOperation m); (split; [|split; [|by intros ?]]); constructor; solve [msolve].
Qed.

(** The ends of the two events that look at the pending operation. *)
Ltac fitsolve :=
  fields; cbn; intros ? ?;
  match goal with
  | Hp : forall p, ?o = Some p -> _, H : ?o = Some _ |- _ => destruct (Hp _ H) as (? & ? & ?)
  end;
  eexists; split; [eassumption|]; unfold fits in *; repeat case_match; done.

Lemma disable_tail target epoch source m :
  MInv m -> held (state m) = true ->
  ok (m' ← (m' ← toDisabledLocked m; Some (createCleanupLocked rand target epoch source m')); Some (m', tt))
     (fun m' _ => Kept m m' /\ held (state m') = false).
Proof.
  intros [Hg Hh' Hc Hd Hr Hi Hp] Hh.
  destruct (state m) eqn:Hs; try discriminate; destruct (cleanup m) eqn:Hcm; try (exfalso; by intuition);
    crank; (split; [|msolve]); (split; [|split; [|by unfold Stays; fields]]);
    constructor; first [solve [msolve] | solve [fitsolve]].
Qed.

Lemma enabling_of q p m :
  MInv m -> pendingOperation m = Some p -> heap m !! p = Some q -> Kind q = OperationEnable ->
  held (state m) = true -> state m = Enabling /\ cleanup m = None.
Proof.
  intros Hm Hpe Hq Hk Hh. destruct (mi_pending _ Hm _ Hpe) as (q' & Hq' & Hf). simplify_eq.
  unfold fits in Hf. rewrite Hk in Hf.
  assert (state m = Enabling) by (destruct (pcleanup q), (state m); done).
  split; [done|]. apply (mi_clean _ Hm). by right.
Qed.

Lemma early_tail op m m0 :
  MInv m -> state m = Enabling -> mu m0 = mu m -> mutexHeld m0 = mutexHeld m -> emissionMu m0 = emissionMu m ->
  cleanup m0 = cleanup m -> restarted m0 = restarted m -> heap m0 = heap m -> pendingOperation m0 = None ->
  ok (m' ← (m' ← releaseOwnerLocked m0; Some (set_state Idle (clearCleanupForOperationLocked op m')));
      Some (m', tt))
     (fun m' _ => Kept m m' /\ held (state m') = false).
Proof.
  intros [Hg Hh Hc Hd Hr Hi Hp] Hs F1 F2 F3 F4 F5 F6 F7.
  assert (Hcm : cleanup m = None) by auto. rewrite Hcm in F4.
  rewrite (releaseOwner_eq m0) by congruence. cbn. unfold clearCleanupForOperationLocked. cbn. rewrite F4.
  split; [|done]. split; [|split; [|by intros ?]]; constructor; cbn; solve [msolve].
Qed.

Lemma ok_mono {A} (s : option (Manager * A)) (P Q : Manager -> A -> Prop) :
  ok s P -> (forall m a, P m a -> Q m a) -> ok s Q.
Proof. destruct s as [[m a]|]; cbn; auto. Qed.

(** Sequencing the invalidation before the end of an event. *)
Lemma ok_trans {P : Manager -> Prop} (s : option Manager) m m1 :
  Kept m m1 -> ok (m' ← s; Some (m', tt)) (fun m' _ => Kept m1 m' /\ P m') ->
  ok (m' ← s; Some (m', tt)) (fun m' _ => Kept m m' /\ P m').
Proof. intros Hk. destruct s; cbn; [|done]. intros [? ?]. split; [|done]. by eapply Kept_trans. Qed.

Lemma OnTransportDisconnect_ok m :
  MInv m -> ok (m' ← OnTransportDisconnect rand m; Some (m', tt)) (fun m' _ => Kept m m' /\ held (state m') = false).
Proof.
  intros Hm. unfold OnTransportDisconnect. rewrite (mi_held _ Hm). destruct (held (state m)) eqn:Hheld; cbn [negb].
  2: split; [by apply Kept_refl|done].
  pose proof (invalidatePending_kept _ Hm) as Hk. pose proof (invalidatePending_fields m) as (F1 & F2 & _).
  revert Hk F1 F2. generalize (invalidatePending m). intros m1 Hk F1 F2.
  assert (Hm1 : MInv m1) by apply Hk. rewrite <- F1 in Hheld.
  unfold PendingOperation. destruct (pendingOperation m1) as [p|] eqn:Hpe; cbn [mbind option_bind].
  2: by apply (ok_trans _ _ m1 Hk), disable_tail.
  destruct (heap m1 !! p) as [q|] eqn:Hq; [|by apply (ok_trans _ _ m1 Hk), disable_tail].
  destruct (isKind OperationEnable (Kind q)) eqn:Hkq; cbn [andb]; [|by apply (ok_trans _ _ m1 Hk), disable_tail].
  destruct (PEmitted q) eqn:He; cbn [negb]; [by apply (ok_trans _ _ m1 Hk), disable_tail|].
  assert (Kind q = OperationEnable) by (by destruct (Kind q)).
  destruct (enabling_of q p m1) as [Hs Hcm]; try done.
  by apply (ok_trans _ _ m1 Hk), early_tail.
Qed.

Lemma OnEpochAdvance_ok e m : MInv m -> ok (m' ← OnEpochAdvance e m; Some (m', tt)) (fun m' _ => Kept m m').
Proof.
  intros Hm. unfold OnEpochAdvance. case_match; [by apply Kept_refl|].
  set (m0 := set_lastRefreshTransportDown false (set_observedEpoch e m)).
  assert (Hk0 : Kept m m0) by (apply Kept_heap; try done; apply heapExt_refl).
  pose proof (invalidatePending_kept m0 (proj1 Hk0)) as Hk. apply (Kept_trans _ _ _ Hk0) in Hk.
  revert Hk. generalize (invalidatePending m0). clear m0 Hk0. intros m1 Hk. assert (Hm1 : MInv m1) by apply Hk.
  assert (Hend : ok (m' ← (if mutexHeld m1 then Some (set_pendingEpoch e m1) else Some (bindEpoch e m1)); Some (m', tt))
            (fun m' _ => Kept m m')).
  { case_match; cbn; (eapply Kept_trans; [exact Hk|]); apply Kept_heap; try done; apply heapExt_refl. }
  cbv zeta. destruct (PendingOperation m1) as [q|] eqn:Hpo; [|exact Hend].
  destruct (isState Enabling (state m1) && isKind OperationEnable (Kind q) && negb (PEmitted q)) eqn:Hearly; [|exact Hend].
  bool_facts. assert (Hs : state m1 = Enabling) by (by destruct (state m1)).
  eapply ok_mono; [by apply (early_tail (OperationID q) m1)|].
  intros m' [] [Hk' _]. by eapply Kept_trans.
Qed.

(** ** Sections that start an operation *)

Definition Started (k : OperationKind) (c : bool) (target : byte) (m m' : Manager) (p : nat) : Prop :=
  MInv m' /\ p = length (heap m) /\ pendingOperation m = None /\ pendingOperation m' = Some p /\
  (exists q, heap m' = heap m ++ [q] /\ Kind q = k /\ pcleanup q = c /\ Target q = target /\
     invalidated q = false /\ PEmitted q = false) /\
  emissionMu m' = emissionMu m.

Lemma idle_no_pending m : MInv m -> state m = Idle -> pendingOperation m = None.
Proof.
  intros Hm Hs. destruct (pendingOperation m) eqn:Hpe; [|done].
  destruct (mi_pending _ Hm _ Hpe) as (q & _ & Hf). unfold fits in Hf. rewrite Hs in Hf.
  by destruct (Kind q), (pcleanup q).
Qed.

Ltac lastsolve :=
  fields; cbn; intros; simplify_eq; eexists; split; [by apply list_lookup_middle|]; unfold fits; cbn; fields; done.
Ltac startdone :=
  split; [constructor; first [solve [msolve] | solve [lastsolve]]|];
  split; [by fields|]; split; [congruence|]; split; [by fields|];
  split; [eexists; split; [by fields|by repeat split]|by fields].

Lemma enableBegin_ok target m :
  MInv m ->
  ok (enableBegin rand target m) (fun m' res =>
    match res with
    | inl _ => Kept m m'
    | inr (p, _) => Started OperationEnable false target m m' p /\ state m = Idle /\ state m' = Enabling
    end).
Proof.
  intros Hm. pose proof (idle_no_pending m Hm) as Hn. unfold enableBegin, newIssuerToken.
  do 2 (case_match; [by apply Kept_refl|]). destruct (isState Idle (state m)) eqn:Hs; cbn [negb]; [|by apply Kept_refl].
  assert (Hs' : state m = Idle) by (by destruct (state m)). specialize (Hn Hs').
  destruct Hm as [Hg Hh Hc Hd Hr Hi Hp]. rewrite (lockMu_eq (set_state Enabling m)) by (cbn; rewrite Hg, Hh, Hs'; done).
  crank; [split; [startdone|done]|keptdone].
Qed.

Lemma ownerBegin_ok target key kind m :
  MInv m -> kind <> OperationEnable ->
  ok (Some (ownerBegin rand target key kind m)) (fun m' res =>
    match res with
    | inl _ => Kept m m'
    | inr (p, a) => Started kind false target m m' p /\ state m = Active /\
                    state m' = (match a with Some _ => Refreshing | None => Active end)
    end).
Proof.
  intros Hm Hk. unfold ownerBegin. destruct (isState Refreshing (state m)); [by apply Kept_refl|].
  destruct (mutexHeld m); cbn [negb orb]; [|by apply Kept_refl].
  destruct (isState Active (state m)) eqn:Hs; cbn [negb]; [|by apply Kept_refl].
  assert (Hs' : state m = Active) by (by destruct (state m)).
  destruct (pendingOperation m) eqn:Hpe; cbn [notNil]; [by apply Kept_refl|].
  do 2 (case_match; [by apply Kept_refl|]).
  destruct Hm as [Hg Hh Hc Hd Hr Hi Hp]. destruct kind; [done| |]; crank; (split; [startdone|done]).
Qed.

Lemma idleTimerFired_ok gen m :
  MInv m ->
  ok (idleTimerFired rand gen m) (fun m' f =>
    match f with
    | FiredNothing => Kept m m'
    | FiredRefresh p target _ _ =>
        Started OperationDisable false target m m' p /\ state m = Active /\ state m' = Refreshing
    | FiredCleanup _ => Kept m m' /\ state m <> Disabled /\ state m' = Disabled /\ pendingOperation m' = None
    end).
Proof.
  intros Hm. unfold idleTimerFired. destruct (gen =? idleTimerGen m); cbn [negb]; [|by apply Kept_refl].
  destruct (isState Active (state m)) eqn:Hs; cbn [negb]; [|by apply Kept_refl].
  assert (Hs' : state m = Active) by (by destruct (state m)).
  destruct (pendingOperation m) as [p|] eqn:Hpe.
  { repeat case_match; first [by apply Kept_refl | apply Kept_heap; try done; apply heapExt_refl]. }
  destruct Hm as [Hg Hh Hc Hd Hr Hi Hp]. destruct (cleanup m) eqn:Hcm; crank;
    first [split; [startdone|done] | split; [keptdone|split; [congruence|by fields]]].
Qed.

Lemma cleanupBegin_ok epoch m :
  MInv m -> state m = Disabled -> pendingOperation m = None ->
  ok (Some (cleanupBegin rand epoch m)) (fun m' next =>
    match next with
    | None => m' = m
    | Some (p, target, _) => Started OperationDisable true target m m' p /\ state m' = Disabled /\ restarted m = false
    end).
Proof.
  intros Hm Hs Hpe. unfold cleanupBegin. destruct (cleanup m) as [c|] eqn:Hcm; [|done].
  case_match; [done|]. bool_facts. destruct Hm as [Hg Hh Hc Hd Hr Hi Hp]. crank. split; [startdone|done].
Qed.

End Sections.
End B503Inv.
