(* ===== verification/B503Gate.v ===== *)
(** * The B503 session: every interleaving

    The invariant of the manager together with the calls in progress, and
    the theorems about the gate that hold of every world production calls
    and lifecycle events can reach. *)

From S2P Require Import Prelude B503Session B503Inv.

Local Open Scope Z_scope.

Module B503Gate.
Import B503 B503Inv.

(** The kind of operation a caller runs. *)
Definition callKind (c : caller) : OperationKind * bool :=
  match c with
  | CallEnable _ => (OperationEnable, false)
  | CallRead => (OperationRead, false)
  | CallDisable | CallIdle _ => (OperationDisable, false)
  | CallCleanup _ _ _ => (OperationDisable, true)
  end.
Definition refreshes (c : caller) : bool :=
  match c with
  | CallRead | CallDisable | CallIdle _ => true
  | _ => false
  end.

(** What holds of a thread in the phase it is in. *)
Definition threadOk (m : Manager) (t : thread) : Prop :=
  match t with
  | TOp c p target ph =>
      (exists q, heap m !! p = Some q /\ (Kind q, pcleanup q) = callKind c /\ Target q = target) /\
      match ph with
      | PRefresh _ => refreshes c = true /\ (pendingOperation m = Some p -> state m = Refreshing \/ state m = Disabled)
      | _ => pendingOperation m = Some p -> state m <> Refreshing
      end
  | TCleanup _ _ => state m = Disabled /\ pendingOperation m = None
  | _ => True
  end.
Definition ptrOf (t : thread) : option nat := match t with TOp _ p _ _ => Some p | _ => None end.
Definition isFence (t : thread) : bool := match t with TOp _ _ _ (PAdmitted true) => true | _ => false end.
Definition isCleanup (t : thread) : bool := match t with TCleanup _ _ => true | _ => false end.

(** At most one thread has a property. *)
Definition unique (f : thread -> bool) (ts : gmap nat thread) : Prop :=
  forall i j t u, ts !! i = Some t -> ts !! j = Some u -> f t = true -> f u = true -> i = j.

Record WInv (w : World) : Prop := {
  wi_mgr : MInv (mgr w);
  wi_thread tid t : threads w !! tid = Some t -> threadOk (mgr w) t;
  wi_ptr i j t u p : threads w !! i = Some t -> threads w !! j = Some u ->
    ptrOf t = Some p -> ptrOf u = Some p -> i = j;
  wi_owner p : pendingOperation (mgr w) = Some p -> state (mgr w) <> Disabled ->
    exists tid t, threads w !! tid = Some t /\ ptrOf t = Some p;
  wi_cleanup : unique isCleanup (threads w);
  wi_fence : emissionMu (mgr w) = true <-> exists tid t, threads w !! tid = Some t /\ isFence t = true;
  wi_fence1 : unique isFence (threads w)
}.

(** The threads after a step of thread [tid]: [ot] is what it goes on as. *)
Definition becomes (tid : nat) (ot : option thread) (ts : gmap nat thread) : gmap nat thread :=
  partial_alter (fun _ => ot) tid ts.

Lemma becomes_eq tid ot ts : becomes tid ot ts !! tid = ot.
Proof. apply lookup_partial_alter_eq. Qed.
Lemma becomes_ne tid ot ts i : i <> tid -> becomes tid ot ts !! i = ts !! i.
Proof. intros Hne. by apply lookup_partial_alter_ne. Qed.

Lemma becomes_twice tid ot ot' ts : becomes tid ot' (becomes tid ot ts) = becomes tid ot' ts.
Proof.
  apply map_eq. intros i. destruct (decide (i = tid)) as [->|Hne]; by rewrite ?becomes_eq, ?becomes_ne.
Qed.

Definition fenceOf (ot : option thread) : bool := match ot with Some t => isFence t | None => false end.
Definition ptrOf' (ot : option thread) : option nat := ot ≫= ptrOf.

(** A uniqueness property survives when the moved thread has it only if it
    had it before, or if nobody else has it. *)
Lemma unique_becomes f tid ot ts :
  unique f ts ->
  (forall t, ot = Some t -> f t = true ->
     (exists u, ts !! tid = Some u /\ f u = true) \/ (forall i u, i <> tid -> ts !! i = Some u -> f u = false)) ->
  unique f (becomes tid ot ts).
Proof.
  intros Hu Hot i j t u Hi Hj Ht Hf.
  destruct (decide (i = tid)) as [->|Hi'], (decide (j = tid)) as [->|Hj'].
  - done.
  - rewrite becomes_eq in Hi. rewrite becomes_ne in Hj by done. subst.
    destruct (Hot _ eq_refl Ht) as [(v & Hv & Hfv)|Hn]; [by eapply Hu|]. rewrite (Hn j u) in Hf; done.
  - rewrite becomes_eq in Hj. rewrite becomes_ne in Hi by done. subst.
    destruct (Hot _ eq_refl Hf) as [(v & Hv & Hfv)|Hn]; [by eapply Hu|]. rewrite (Hn i t) in Ht; done.
  - rewrite becomes_ne in Hi, Hj by done. by eapply Hu.
Qed.

(** ** Steps that start nothing *)

(** The pointer of the thread that moves is kept, or the operation it was
    on is no longer waited for. *)
Lemma threadOk_kept m m' t own :
  MInv m -> MInv m' -> Quiet m m' ->
  (forall p, pendingOperation m' = Some p -> state m' = Active -> state m = Active \/ own = Some p) ->
  (forall p, ptrOf t = Some p -> own <> Some p) -> threadOk m t -> threadOk m' t.
Proof.
  intros Hm Hm' Hq Hact Hown. destruct t as [rq tg|c p tg ph|e r|id e o r]; cbn; try done.
  - intros [(q & Hhp & Hk & Ht) Hph]. destruct (qt_heap _ _ Hq _ _ Hhp) as (q' & Hhp' & _ & E1 & E2 & E3).
    split; [exists q'; by rewrite E1, E2, E3|].
    assert (Hpend : pendingOperation m' = Some p -> pendingOperation m = Some p).
    { destruct (qt_pending _ _ Hq) as [-> | ->]; done. }
    destruct ph; try (intros Hp Hs; by apply Hph; [auto|apply (qt_refresh _ _ Hq)]).
    destruct Hph as [Hc Hph]. split; [done|]. intros Hp. specialize (Hph (Hpend Hp)).
    destruct (mi_pending _ Hm' _ Hp) as (q2 & Hq2 & Hf). simplify_eq.
    destruct (decide (state m' = Active)) as [Ha|Ha].
    + exfalso. destruct (Hact _ Hp Ha) as [Ha'|Ho]; [destruct Hph; congruence|by eapply Hown].
    + unfold fits in Hf. rewrite E1, E3 in Hf.
      destruct c; try done; injection Hk as E4 E5; rewrite E4, E5 in Hf; destruct (state m'); auto; done.
  - intros [Hs Hp]. split; [by apply (qt_disabled _ _ Hq)|]. destruct (qt_pending _ _ Hq); congruence.
Qed.

(** A step of [tid] that keeps the manager's side and goes on as [ot]. *)
Lemma WInv_move w tid ot m' em :
  WInv w -> MInv m' -> Quiet (mgr w) m' ->
  (forall p, pendingOperation m' = Some p -> state m' = Active ->
     state (mgr w) = Active \/ ptrOf' (threads w !! tid) = Some p) ->
  (forall t, ot = Some t -> threadOk m' t) ->
  (forall p, ptrOf' ot = Some p -> ptrOf' (threads w !! tid) = Some p) ->
  (forall p, ptrOf' (threads w !! tid) = Some p -> ptrOf' ot <> Some p -> pendingOperation m' = Some p ->
     state m' = Disabled) ->
  (forall t, ot = Some t -> isCleanup t = true -> state (mgr w) <> Disabled) ->
  fenceOf ot = fenceOf (threads w !! tid) ->
  WInv (mkWorld m' (becomes tid ot (threads w)) em).
Proof.
  intros [Hm Ht Hp Ho Hc Hf Hf1] Hm' Hq Hact Hot Hptr Hend Hcl Hfe. constructor; cbn.
  - done.
  - intros i t Hi. destruct (decide (i = tid)) as [->|Hne].
    + rewrite becomes_eq in Hi. by apply Hot.
    + rewrite becomes_ne in Hi by done. eapply (threadOk_kept (mgr w) m' t (ptrOf' (threads w !! tid))); eauto.
      intros p Hp1 Hp2. apply Hne. destruct (threads w !! tid) eqn:Htid; [|done]. by eapply Hp.
  - intros i j t u p Hi Hj Hti Huj.
    assert (Hold : forall k v, becomes tid ot (threads w) !! k = Some v -> ptrOf v = Some p ->
              exists v', threads w !! k = Some v' /\ ptrOf v' = Some p).
    { intros k v Hk Hv. destruct (decide (k = tid)) as [->|Hne]; [|rewrite becomes_ne in Hk by done; eauto].
      rewrite becomes_eq in Hk. subst ot. specialize (Hptr p Hv).
      destruct (threads w !! tid); [eauto|done]. }
    destruct (Hold i t) as (? & ? & ?), (Hold j u) as (? & ? & ?); try done. by eapply Hp.
  - intros p Hp1 Hp2. assert (Hpm : pendingOperation (mgr w) = Some p) by (destruct (qt_pending _ _ Hq); congruence).
    assert (Hnd : state (mgr w) <> Disabled).
    { intros Hd. pose proof (qt_held _ _ Hq) as Hh. pose proof (idle_no_pending m' Hm') as Hi.
      rewrite Hd in Hh. destruct (state m'); cbn in Hh; first [done | by specialize (Hh eq_refl) | by rewrite Hi in Hp1]. }
    destruct (Ho p Hpm Hnd) as (i & t & Hi & Hti). destruct (decide (i = tid)) as [->|Hne].
    + destruct (decide (ptrOf' ot = Some p)) as [Hsame|Hdiff].
      * destruct ot as [t'|]; [|done]. exists tid, t'. by rewrite becomes_eq.
      * exfalso. apply Hp2, (Hend p); [by rewrite Hi|done|done].
    + exists i, t. by rewrite becomes_ne.
  - apply unique_becomes; [done|]. intros t -> Htc. right. intros i u Hne Hi.
    destruct (isCleanup u) eqn:Hu; [|done]. exfalso. apply (Hcl _ eq_refl Htc).
    specialize (Ht _ _ Hi). destruct u; try discriminate. apply Ht.
  - rewrite (qt_emission _ _ Hq), Hf. split; intros (i & t & Hi & Hti).
    + destruct (decide (i = tid)) as [->|Hne]; [|exists i, t; by rewrite becomes_ne].
      rewrite Hi in Hfe. cbn in Hfe. rewrite Hti in Hfe. destruct ot as [t'|]; [|done].
      exists tid, t'. rewrite becomes_eq. auto.
    + destruct (decide (i = tid)) as [->|Hne]; [|rewrite becomes_ne in Hi by done; eauto].
      rewrite becomes_eq in Hi. subst ot. cbn in Hfe. rewrite Hti in Hfe.
      destruct (threads w !! tid) as [t'|] eqn:Htid; [|done]. exists tid, t'. auto.
  - apply unique_becomes; [done|]. intros t -> Htf. left. cbn in Hfe. rewrite Htf in Hfe.
    destruct (threads w !! tid); [eauto|done].
Qed.

(** A step that starts an operation in thread [tid]. *)
Lemma WInv_start w tid k cl target p c ph m' em :
  WInv w -> Started k cl target (mgr w) m' p -> callKind c = (k, cl) -> isFence (TOp c p target ph) = false ->
  ptrOf' (threads w !! tid) = None -> fenceOf (threads w !! tid) = false ->
  (forall i u, i <> tid -> threads w !! i = Some u -> isCleanup u = false) ->
  match ph with PRefresh _ => refreshes c = true /\ state m' = Refreshing | _ => state m' <> Refreshing end ->
  WInv (mkWorld m' (becomes tid (Some (TOp c p target ph)) (threads w)) em).
Proof.
  intros [Hm Ht Hp Ho Hc Hf Hf1] (Hm' & -> & Hpn & Hpe & (q & Hq & Hk & Hcl & Htg & _) & He) Hck Hnf Hold Hfo Hnc Hph.
  assert (Hlast : heap m' !! length (heap (mgr w)) = Some q) by (rewrite Hq; by apply list_lookup_middle).
  assert (Hbound : forall i t pt, threads w !! i = Some t -> ptrOf t = Some pt -> (pt < length (heap (mgr w)))%nat).
  { intros i [] pt Hi Hpt; try discriminate. injection Hpt as ->.
    destruct (Ht _ _ Hi) as [(q' & Hq' & _) _]. by eapply lookup_lt_Some. }
  constructor; cbn.
  - done.
  - intros i t Hi. destruct (decide (i = tid)) as [->|Hne].
    + rewrite becomes_eq in Hi. injection Hi as <-. cbn. split; [exists q; by rewrite Hk, Hcl, Hck|].
      destruct ph; try (by intros _); destruct Hph; split; auto.
    + rewrite becomes_ne in Hi by done. pose proof (Ht _ _ Hi) as Hok.
      destruct t as [rq tg|c' pt tg ph'|e r|id e o r]; cbn; try done.
      * destruct Hok as [(q' & Hq' & Hrest) Hph']. pose proof (Hbound _ _ pt Hi eq_refl).
        split; [exists q'; rewrite Hq; split; [by apply lookup_app_l_Some|done]|].
        destruct ph'; try (rewrite Hpe; intros ?; simplify_eq; lia). split; [apply Hph'|].
        rewrite Hpe; intros ?; simplify_eq; lia.
      * by specialize (Hnc _ _ Hne Hi).
  - intros i j t u pt Hi Hj Hti Huj. destruct (decide (i = tid)) as [->|Hi'], (decide (j = tid)) as [->|Hj']; [done| | |].
    + rewrite becomes_eq in Hi. rewrite becomes_ne in Hj by done. simplify_eq/=. pose proof (Hbound _ _ _ Hj Huj). lia.
    + rewrite becomes_eq in Hj. rewrite becomes_ne in Hi by done. simplify_eq/=. pose proof (Hbound _ _ _ Hi Hti). lia.
    + rewrite becomes_ne in Hi, Hj by done. by eapply Hp.
  - intros pt Hpt _. rewrite Hpe in Hpt. simplify_eq. eexists tid, _. by rewrite becomes_eq.
  - apply unique_becomes; [done|]. intros t Heq Htc. by simplify_eq.
  - rewrite He, Hf. split; intros (i & t & Hi & Hti).
    + exists i, t. destruct (decide (i = tid)) as [->|Hne]; [|by rewrite becomes_ne].
      rewrite Hi in Hfo. cbn in Hfo. congruence.
    + destruct (decide (i = tid)) as [->|Hne].
      * rewrite becomes_eq in Hi. simplify_eq. congruence.
      * rewrite becomes_ne in Hi by done. eauto.
  - apply unique_becomes; [done|]. intros t Heq Htf. simplify_eq. congruence.
Qed.

(** Taking and releasing the emission fence. *)
Lemma WInv_fence w tid c p tg b em :
  WInv w -> threads w !! tid = Some (TOp c p tg (PAdmitted (negb b))) -> (b = true -> emissionMu (mgr w) = false) ->
  WInv (mkWorld (set_emissionMu b (mgr w)) (becomes tid (Some (TOp c p tg (PAdmitted b))) (threads w)) em).
Proof.
  intros [Hm Ht Hp Ho Hc Hf Hf1] Htid Hb.
  assert (Hm' : MInv (set_emissionMu b (mgr w))) by (by destruct Hm; constructor).
  assert (Hsame : forall i t, becomes tid (Some (TOp c p tg (PAdmitted b))) (threads w) !! i = Some t ->
            exists t0, threads w !! i = Some t0 /\ ptrOf t0 = ptrOf t /\ isCleanup t0 = isCleanup t /\
              (threadOk (mgr w) t0 -> threadOk (set_emissionMu b (mgr w)) t) /\ (i <> tid -> t0 = t)).
  { intros i t Hi. destruct (decide (i = tid)) as [->|Hne].
    - rewrite becomes_eq in Hi. injection Hi as <-. eexists. by split.
    - rewrite becomes_ne in Hi by done. exists t. do 3 (split; [done|]). split; [by destruct t|done]. }
  constructor; cbn; [done| | | | | |].
  - intros i t Hi. destruct (Hsame _ _ Hi) as (t0 & Hi0 & _ & _ & Hok & _). eauto.
  - intros i j t u pt Hi Hj E1 E2. destruct (Hsame _ _ Hi) as (t0 & Hi0 & E3 & _), (Hsame _ _ Hj) as (u0 & Hj0 & E4 & _).
    apply (Hp i j t0 u0 pt); congruence.
  - intros pt Hpt Hs. destruct (Ho _ Hpt Hs) as (i & t & Hi & Hti). destruct (decide (i = tid)) as [->|Hne].
    + eexists tid, _. rewrite becomes_eq. split; [done|]. rewrite Hi in Htid. by simplify_eq.
    + exists i, t. by rewrite becomes_ne.
  - intros i j t u Hi Hj E1 E2. destruct (Hsame _ _ Hi) as (t0 & Hi0 & _ & E3 & _), (Hsame _ _ Hj) as (u0 & Hj0 & _ & E4 & _).
    apply (Hc i j t0 u0); congruence.
  - destruct b; cbn in *.
    + split; [|done]. intros _. eexists tid, _. by rewrite becomes_eq.
    + split; [done|]. intros (i & t & Hi & Hti). destruct (decide (i = tid)) as [->|Hne].
      * rewrite becomes_eq in Hi. by simplify_eq.
      * rewrite becomes_ne in Hi by done. by specialize (Hf1 _ _ _ _ Hi Htid Hti eq_refl).
  - apply unique_becomes; [done|]. intros t [= <-] Hft. destruct b; [|done]. right. intros i u Hne Hi.
    destruct (isFence u) eqn:Hu; [|done]. rewrite (proj2 Hf) in Hb; [by specialize (Hb eq_refl)|eauto].
Qed.

(** ** Every step *)

Definition Good (o : outcome) : Prop :=
  match o with
  | Next w _ => WInv w
  | Blocked => True
  | Fault => False
  end.

Lemma WInv_kept w m' em : WInv w -> Kept (mgr w) m' -> WInv (mkWorld m' (threads w) em).
Proof.
  intros Hw (Hm' & Hq & Hst). set (tid := fresh (dom (threads w))).
  assert (Htid : threads w !! tid = None) by (apply not_elem_of_dom, is_fresh).
  rewrite <- (delete_id (threads w) tid) by done. apply WInv_move; rewrite ?Htid; try done.
  intros p Hp Ha. left. apply Hst; [done|]. by rewrite Hp.
Qed.

(** A thread that is not on an operation, or goes on with the same one. *)
Lemma WInv_go w tid ot m' em :
  WInv w -> Kept (mgr w) m' -> (forall t, ot = Some t -> threadOk m' t) -> ptrOf' ot = ptrOf' (threads w !! tid) ->
  (forall t, ot = Some t -> isCleanup t = false) -> fenceOf ot = fenceOf (threads w !! tid) ->
  WInv (mkWorld m' (becomes tid ot (threads w)) em).
Proof.
  intros Hw (Hm' & Hq & Hst) Hot Hptr Hc Hfe. apply WInv_move; try done.
  - intros p Hp Ha. left. apply Hst; [done|]. by rewrite Hp.
  - intros p. by rewrite Hptr.
  - intros p Hp Hne. by rewrite Hptr in Hne.
  - intros t Ht Hcl. by rewrite Hc in Hcl.
Qed.

(** The end of the operation of a thread. *)
Lemma WInv_finished w tid c p tg ph m' a :
  WInv w -> threads w !! tid = Some (TOp c p tg ph) -> isFence (TOp c p tg ph) = false ->
  Finished p (mgr w) m' a -> Good (goOn tid w m' a).
Proof.
  intros Hw Htid Hnf ((Hm' & Hq & Hst) & Hpe & Ha).
  assert (Hgo : forall ot em, ptrOf' ot = None -> (forall t, ot = Some t -> threadOk m' t) -> fenceOf ot = false ->
            (forall t, ot = Some t -> isCleanup t = true -> state (mgr w) <> Disabled) ->
            WInv (mkWorld m' (becomes tid ot (threads w)) em)).
  { intros ot em Hptr Hot Hf Hc. apply WInv_move; rewrite ?Htid; try done.
    - intros p' Hp' Hact. left. apply Hst; [done|]. by rewrite Hp'.
    - intros p' Hp'. congruence.
    - cbn. intros p' [= ->] _ Hp'. congruence.
    - by rewrite Hf. }
  destruct a as [r|e r|id e o r]; cbn.
  - by apply (Hgo None).
  - destruct Ha as (Hs & Hs' & Hn). apply (Hgo (Some (TCleanup e r))); try done.
    intros t [= <-]. by split.
  - apply (Hgo (Some (TRecord id e o r))); try done; by intros t [= <-].
Qed.

Section Steps.
Context (rand : nat -> option (list byte)).

Lemma doFinish_good w tid c p tg ph q o :
  WInv w -> threads w !! tid = Some (TOp c p tg ph) -> heap (mgr w) !! p = Some q ->
  ph = PDispatch \/ ph = PAdmitted false ->
  Good (section (doFinish rand c p q tg o (mgr w)) (fun m a => goOn tid w m a)).
Proof.
  intros Hw Htid Hq Hph. pose proof (wi_mgr _ Hw) as Hm.
  assert (Hok : ok (doFinish rand c p q tg o (mgr w)) (Finished p (mgr w))).
  { destruct (wi_thread _ Hw _ _ Htid) as [(q' & Hq' & Hk & Ht) Hst]. simplify_eq.
    assert (Hnr : pendingOperation (mgr w) = Some p -> state (mgr w) <> Refreshing).
    { by destruct Hph as [-> | ->]. }
    destruct c; cbn in Hk; injection Hk as Hk Hcl; cbn [doFinish].
    - by apply enableFinish_ok.
    - by apply readFinish_ok.
    - by apply disableFinish_ok.
    - by apply idleFinish_ok.
    - apply (cleanupFinish_ok rand); [done|]. intros Hpe. destruct (mi_pending _ Hm _ Hpe) as (q' & Hq' & Hf).
      simplify_eq. unfold fits in Hf. rewrite Hk, Hcl in Hf. by destruct (state (mgr w)). }
  unfold section. destruct (doFinish _ _ _ _ _ _ _) as [[m' a]|]; [|done].
  eapply WInv_finished; eauto. by destruct Hph as [-> | ->].
Qed.

Lemma doRefreshed_good w tid c p tg a q r :
  WInv w -> threads w !! tid = Some (TOp c p tg (PRefresh a)) -> heap (mgr w) !! p = Some q ->
  Good (doRefreshed rand tid w c p q tg a r).
Proof.
  intros Hw Htid Hq. pose proof (wi_mgr _ Hw) as Hm.
  destruct (wi_thread _ Hw _ _ Htid) as [(q' & Hq' & Hk & Ht) [Hc Hst]]. simplify_eq.
  assert (Hkq : Kind q <> OperationEnable /\ pcleanup q = false) by (destruct c; try discriminate; injection Hk as Hk1 Hk2; by rewrite Hk1).
  destruct Hkq as [Hk1 Hk2].
  assert (Hend : forall A m' (r' : A), Refreshed p (mgr w) m' (Some r') -> WInv (finish tid (with_mgr m' w))).
  { intros A m' r' (Hm' & Hqt & Hsy & He). apply (WInv_move w tid None m' (emissions w)); rewrite ?Htid; try done.
    - intros p' Hp' Hact. left. apply Hsy; [done|]. by rewrite Hp'.
    - intros p' [= ->] _. apply He. }
  assert (Hgo : forall m' c' ph, callKind c' = callKind c -> isFence (TOp c' p (Target q) ph) = false ->
            match ph with PRefresh _ => False | _ => True end ->
            Refreshed p (mgr w) m' (None : option unit) ->
            WInv (spawn tid (TOp c' p (Target q) ph) (with_mgr m' w))).
  { intros m' c' ph Hck Hnf Hph (Hm' & Hqt & Hpe & Hs).
    apply (WInv_move w tid (Some (TOp c' p (Target q) ph)) m' (emissions w)); rewrite ?Htid; try done.
    - intros p' Hp' _. right. cbn. congruence.
    - intros t [= <-]. cbn. destruct (qt_heap _ _ Hqt _ _ Hq) as (q' & Hq' & _ & E1 & E2 & E3).
      split; [exists q'; by rewrite E1, E2, E3, Hck|]. destruct ph; try done; by rewrite Hs.
    - by intros t [= <-]. }
  destruct c; try discriminate; unfold doRefreshed, section.
  1,2: pose proof (ownerRefreshed_ok rand p q (Target q) a r (mgr w) Hm Hq Hk1 Hk2 Hst) as Hok;
    destruct (ownerRefreshed _ _ _ _ _ _ _) as [[m' [e|]]|]; [by apply (Hend _ m' e)|by apply Hgo|done].
  pose proof (idleRefreshed_ok rand p q a r (mgr w) Hm Hq Hk1 Hk2 Hst) as Hok.
  destruct (idleRefreshed _ _ _ _ _ _) as [[m' [[t' []]|]]|]; [by apply Hgo|by apply Hgo|by apply (Hend _ m' tt)|done].
Qed.

Lemma doEnter_good w tid rq tg :
  WInv w -> threads w !! tid = Some (TEnter rq tg) -> Good (doEnter rand tid w rq tg).
Proof.
  intros Hw Htid. pose proof (wi_mgr _ Hw) as Hm.
  assert (Hnc : state (mgr w) <> Disabled -> forall i u, i <> tid -> threads w !! i = Some u -> isCleanup u = false).
  { intros Hs i u _ Hi. pose proof (wi_thread _ Hw _ _ Hi) as Ht. destruct u; try done. by destruct Ht. }
  assert (Hend : forall m', Kept (mgr w) m' -> WInv (finish tid (with_mgr m' w))).
  { intros m' Hk. by apply (WInv_go w tid None m' (emissions w)); rewrite ?Htid. }
  assert (Howner : forall key kind, kind <> OperationEnable -> callKind (callerOf rq) = (kind, false) ->
     refreshes (callerOf rq) = true ->
     Good (let '(m, res) := ownerBegin rand tg key kind (mgr w) in
      match res with
      | inl e => Next (finish tid (with_mgr m w)) (Some (opErr kind e))
      | inr (p, None) => Next (spawn tid (TOp (callerOf rq) p tg PBind) (with_mgr m w)) None
      | inr (p, Some a) => Next (spawn tid (TOp (callerOf rq) p tg (PRefresh a)) (with_mgr m w)) None
      end)).
  { intros key kind Hne Hck Hrf. pose proof (ownerBegin_ok rand tg key kind (mgr w) Hm Hne) as Hok.
    destruct (ownerBegin rand tg key kind (mgr w)) as [m' [e|[p [a|]]]]; cbn in Hok |- *; [by apply Hend| |];
      destruct Hok as (Hst & Hs & Hs'); eapply (WInv_start w tid); try done; rewrite ?Htid; try done.
      all: first [apply Hnc; congruence | cbn; congruence]. }
  destruct rq; [|by apply Howner|by apply Howner].
  unfold doEnter, section. pose proof (enableBegin_ok rand tg (mgr w) Hm) as Hok.
  destruct (enableBegin rand tg (mgr w)) as [[m' [e|[p tok]]]|]; cbn in Hok |- *; [by apply Hend| |done].
  destruct Hok as (Hst & Hs & Hs'). eapply (WInv_start w tid); try done; rewrite ?Htid; try done; [|cbn; congruence].
  apply Hnc; congruence.
Qed.
Lemma doFire_good w tid gen : WInv w -> threads w !! tid = None -> Good (doFire rand tid gen w).
Proof.
  intros Hw Htid. unfold doFire, section. cbv zeta.
  set (m := set_callbacks _ (mgr w)).
  assert (Hk : Kept (mgr w) m) by (apply Kept_heap; try done; [apply Hw|apply heapExt_refl]).
  pose proof (WInv_kept w m (emissions w) Hw Hk) as Hw1. pose proof (idleTimerFired_ok rand gen m (proj1 Hk)) as Hok.
  destruct (idleTimerFired rand gen m) as [[m' [|p tg a t|e]]|]; cbn in Hok |- *; [| | |done].
  - by apply (WInv_kept (mkWorld m (threads w) (emissions w)) m' (emissions w)).
  - destruct Hok as (Hst & Hs & Hs').
    apply (WInv_start (mkWorld m (threads w) (emissions w)) tid OperationDisable false tg p (CallIdle t) (PRefresh a) m');
      cbn; rewrite ?Htid; try done.
    intros i u _ Hi. pose proof (wi_thread _ Hw1 _ _ Hi) as Ht. destruct u; try done. cbn in Ht. destruct Ht. congruence.
  - destruct Hok as (Hk' & Hs & Hs' & Hn).
    apply (WInv_move (mkWorld m (threads w) (emissions w)) tid (Some (TCleanup e None)) m' (emissions w));
      cbn; rewrite ?Htid; try done; try apply Hk'.
    + intros p Hp. congruence.
    + intros t [= <-]. by split.
Qed.

Lemma doCleanup_good w tid e r :
  WInv w -> threads w !! tid = Some (TCleanup e r) -> Good (doCleanup rand tid w e r).
Proof.
  intros Hw Htid. destruct (wi_thread _ Hw _ _ Htid) as [Hs Hp].
  unfold doCleanup. pose proof (cleanupBegin_ok rand e (mgr w) (wi_mgr _ Hw) Hs Hp) as Hok.
  destruct (cleanupBegin rand e (mgr w)) as [m' [[[p tg] id]|]]; cbn in Hok |- *.
  - destruct Hok as (Hst & Hs' & _).
    eapply (WInv_start w tid _ _ tg p (CallCleanup id e r)); try done; rewrite ?Htid; try done; [|cbn; congruence].
    intros i u Hne Hi. destruct (isCleanup u) eqn:Hu; [|done]. exfalso. apply Hne.
    by eapply (wi_cleanup _ Hw).
  - subst m'. apply (WInv_go w tid None (mgr w) (emissions w)); rewrite ?Htid; try done. apply Kept_refl, Hw.
Qed.

Lemma doAdmit_good w tid fence c p tg q :
  WInv w -> threads w !! tid = Some (TOp c p tg PDispatch) -> Good (doAdmit tid fence w c p tg q).
Proof.
  intros Hw Htid. unfold doAdmit.
  pose proof (admit_ok (OperationID q) tg (mgr w) (wi_mgr _ Hw)) as Hk. unfold AdmitPendingEmission, BeginPendingEmission.
  destruct (admitPendingEmissionLocked (OperationID q) tg (mgr w)) as [m1 okb]. cbn [fst] in Hk.
  assert (Hgo : forall em, WInv (mkWorld m1 (becomes tid (Some (TOp c p tg (PAdmitted false))) (threads w)) em)).
  { intros em. apply WInv_go; rewrite ?Htid; try done; intros t [= <-]; [|done].
    destruct (wi_thread _ Hw _ _ Htid) as [(q' & Hq' & Hkc & Ht) Hst]. destruct Hk as (Hm1 & Hqt & Hsy).
    destruct (qt_heap _ _ Hqt _ _ Hq') as (q2 & Hq2 & _ & E1 & E2 & E3).
    split; [exists q2; by rewrite E1, E2, E3|]. intros Hp Hs.
    apply Hst; [destruct (qt_pending _ _ Hqt); congruence|by apply (qt_refresh _ _ Hqt)]. }
  destruct fence.
  - destruct (emissionMu (mgr w)) eqn:Hem; [done|].
    assert (Hem1 : emissionMu m1 = false) by (rewrite (qt_emission _ _ (proj1 (proj2 Hk))); done).
    destruct okb; cbn.
    + pose proof (WInv_fence _ tid c p tg true (emissions w ++ [mkEmission (Kind q) (pcleanup q) tg
        (TransportEpoch (Transport q)) (observedEpoch m1)]) (Hgo [])) as H. cbn in H.
      rewrite becomes_eq in H. specialize (H eq_refl (fun _ => Hem1)).
      by rewrite becomes_twice in H.
    + apply WInv_kept; [done|]. eapply Kept_trans; [exact Hk|].
      apply Kept_heap; try done; [apply Hk|apply heapExt_refl].
  - destruct okb; cbn; [apply Hgo|by apply WInv_kept].
Qed.

(** The calls and events of production: the operations with a dispatch, the
    lifecycle and the timer.  [Enable], [Disable] and [Read] without a
    dispatch are there for tests. *)
Definition production (_ : World) (l : label) : Prop :=
  match l with
  | LEnable | LDisable _ | LRead _ => False
  | _ => True
  end.
#[export] Instance production_dec w l : Decision (production w l).
Proof. destruct l; apply _. Defined.

Definition inDispatch (ph : phase) : bool := match ph with PRefresh _ | PAdmitted true => false | _ => true end.

(** A section on behalf of an operation that goes on. *)
Lemma sameOp_good w tid c p tg ph ph' m' r :
  WInv w -> threads w !! tid = Some (TOp c p tg ph) -> Kept (mgr w) m' -> inDispatch ph = true -> inDispatch ph' = true ->
  Good (Next (spawn tid (TOp c p tg ph') (with_mgr m' w)) r).
Proof.
  intros Hw Htid Hk Hph Hph'. apply (WInv_go w tid (Some (TOp c p tg ph'))); rewrite ?Htid; try done.
  - intros t [= <-]. destruct (wi_thread _ Hw _ _ Htid) as [(q' & Hq' & Hkc & Ht) Hst]. destruct Hk as (Hm1 & Hqt & Hsy).
    destruct (qt_heap _ _ Hqt _ _ Hq') as (q2 & Hq2 & _ & E1 & E2 & E3).
    split; [exists q2; by rewrite E1, E2, E3|].
    assert (Hst' : pendingOperation m' = Some p -> state m' <> Refreshing).
    { intros Hp Hs. apply (qt_refresh _ _ Hqt) in Hs.
      assert (pendingOperation (mgr w) = Some p) by (destruct (qt_pending _ _ Hqt); congruence).
      destruct ph as [| | | | |[]]; try done; by apply Hst. }
    destruct ph' as [| | | | |[]]; done.
  - by intros t [= <-].
  - by destruct ph as [| | | | |[]], ph' as [| | | | |[]].
Qed.

Lemma only_good w (s : option Manager) :
  WInv w -> ok (m ← s; Some (m, tt)) (fun m _ => Kept (mgr w) m) -> Good (only s w).
Proof. destruct s as [m|]; cbn; [|done]. intros Hw Hk. by apply WInv_kept. Qed.

Lemma step_good w l : WInv w -> production w l -> Good (step rand l w).
Proof.
  intros Hw Hl. pose proof (wi_mgr _ Hw) as Hm.
  destruct l as [b|t| | | |tid rq tg|tid|tid r|tid|tid|tid|tid|tid|tid|tid d|tid|tid|tid gen| |e|ts]; try done;
    cbn [step]; unfold onOp.
  - apply only_good; [done|]. apply Kept_heap; try done; apply heapExt_refl.
  - apply only_good; [done|]. by apply MarkQualifiedTarget_ok.
  - destruct (threads w !! tid) eqn:Htid; [done|].
    apply (WInv_go w tid (Some (TEnter rq tg))); rewrite ?Htid; try done; try (by intros t [= <-]).
    by apply MarkQualifiedTarget_ok.
  - destruct (threads w !! tid) as [[]|] eqn:Htid; try done. by apply doEnter_good.
  - destruct (threads w !! tid) as [[|c p tg ph| |]|] eqn:Htid; try done. destruct (heap (mgr w) !! p) eqn:Hq; [|done].
    destruct ph; try done. by apply doRefreshed_good.
  - destruct (threads w !! tid) as [[|c p tg ph| |]|] eqn:Htid; try done. destruct (heap (mgr w) !! p) eqn:Hq; [|done].
    destruct c as [| | |t|], ph; try done. pose proof (idleNoDispatch_ok rand p p0 t (mgr w) Hm) as Hok.
    destruct (idleNoDispatch rand p p0 t (mgr w)) as [m'|]; [|done].
    by apply (WInv_finished w tid _ _ _ _ m' (Return None) Hw Htid).
  - destruct (threads w !! tid) as [[|c p tg ph| |]|] eqn:Htid; try done. destruct (heap (mgr w) !! p) eqn:Hq; [|done].
    destruct ph; try done. eapply sameOp_good; eauto; [by apply bindPendingContext_ok|by destruct c].
  - destruct (threads w !! tid) as [[|c p tg ph| |]|] eqn:Htid; try done. destruct (heap (mgr w) !! p) eqn:Hq; [|done].
    destruct ph; try done. eapply sameOp_good; eauto. by apply quietIdle_ok.
  - destruct (threads w !! tid) as [[|c p tg ph| |]|] eqn:Htid; try done. destruct (heap (mgr w) !! p) eqn:Hq; [|done].
    destruct ph; try done. by apply doAdmit_good.
  - destruct (threads w !! tid) as [[|c p tg ph| |]|] eqn:Htid; try done. destruct (heap (mgr w) !! p) eqn:Hq; [|done].
    destruct ph; try done. by apply doAdmit_good.
  - destruct (threads w !! tid) as [[|c p tg ph| |]|] eqn:Htid; try done. destruct (heap (mgr w) !! p) eqn:Hq; [|done].
    destruct ph as [| | | | |[]]; try done. by apply (WInv_fence w tid c p tg false).
  - destruct (threads w !! tid) as [[|c p tg ph| |]|] eqn:Htid; try done. destruct (heap (mgr w) !! p) eqn:Hq; [|done].
    destruct ph as [| | | | |[]]; try done; eapply doFinish_good; eauto.
  - destruct (threads w !! tid) as [[]|] eqn:Htid; try done. by apply doCleanup_good.
  - destruct (threads w !! tid) as [[]|] eqn:Htid; try done.
    apply (WInv_go w tid None); rewrite ?Htid; try done. by apply recordCleanupOutcome_ok.
  - destruct (threads w !! tid) eqn:Htid; [done|]. case_match; [|done]. by apply doFire_good.
  - apply only_good; [done|]. eapply ok_mono; [by apply OnTransportDisconnect_ok|]. by intros ? ? [? _].
  - destruct (emissionMu (mgr w)); [done|]. apply only_good; [done|]. by apply OnEpochAdvance_ok.
  - apply only_good; [done|]. by apply ResetForRestart_ok.
Qed.

Lemma reachable_good w0 w : WInv w0 -> reachable rand production w0 w -> WInv w.
Proof.
  intros Hw0 Hr. induction Hr as [|w l w' r Hr IH Hl Hst]; [done|].
  pose proof (step_good w l IH Hl) as Hg. by rewrite Hst in Hg.
Qed.

Lemma start_good t timeout : WInv (start t timeout).
Proof.
  assert (Hm : MInv (New t timeout)) by (constructor; cbn; done).
  constructor; cbn; try done. split; [done|]. by intros (? & ? & ? & ?).
Qed.

(** ** The theorems *)

(** C12: In every world that production calls, refreshes, dispatches, timer
    callbacks, disconnects, epoch advances and restarts can reach, in any
    interleaving: the ownership gate is locked exactly when the session is
    enabling, active or refreshing; the status the public surfaces show is
    never [Disabled] and is idle exactly when nobody owns the session; an
    idle or enabling session carries no cleanup obligation, a disabled one
    carries one unless the process restarted; a session that is enabling or
    refreshing has an operation recorded; as long as the session is not
    disabled, the recorded operation has the thread that will end it, in its
    refresh call exactly when the session is refreshing (so no session stays
    refreshing after its refresh has returned); and the emission fence is
    held by one thread at most.  (In the disabled state an operation that a
    disconnect interrupted during its refresh may stay recorded without a
    thread.) *)
Theorem b503_gate_invariant t timeout w :
  reachable rand production (start t timeout) w ->
  mu (mgr w) = held (state (mgr w)) /\ IsOwned (mgr w) = held (state (mgr w)) /\
  State_ (mgr w) <> Disabled /\ (State_ (mgr w) = Idle <-> IsOwned (mgr w) = false) /\
  (state (mgr w) = Idle \/ state (mgr w) = Enabling -> cleanup (mgr w) = None) /\
  (state (mgr w) = Disabled -> cleanup (mgr w) = None -> restarted (mgr w) = true) /\
  (state (mgr w) = Enabling \/ state (mgr w) = Refreshing -> exists q, PendingOperation (mgr w) = Some q) /\
  (forall q, PendingOperation (mgr w) = Some q -> state (mgr w) <> Disabled ->
     exists tid c p ph, threads w !! tid = Some (TOp c p (Target q) ph) /\
       callKind c = (Kind q, pcleanup q) /\ heap (mgr w) !! p = Some q /\
       (state (mgr w) = Refreshing <-> exists a, ph = PRefresh a)) /\
  unique isFence (threads w).
Proof.
  intros Hr. pose proof (reachable_good _ _ (start_good t timeout) Hr) as Hw. pose proof (wi_mgr _ Hw) as Hm.
  assert (Hst : State_ (mgr w) <> Disabled /\ (State_ (mgr w) = Idle <-> mutexHeld (mgr w) = false)).
  { unfold State_. rewrite (mi_held _ Hm). pose proof (mi_disabled _ Hm) as Hd.
    destruct (state (mgr w)); cbn; try (split; [done|split; done]).
    destruct (cleanup (mgr w)); cbn; [split; done|]. by rewrite Hd. }
  split; [by rewrite (mi_gate _ Hm), (mi_held _ Hm)|]. split; [apply (mi_held _ Hm)|].
  split; [apply Hst|]. split; [apply Hst|]. split; [apply (mi_clean _ Hm)|]. split; [apply (mi_disabled _ Hm)|].
  split; [|split; [|apply (wi_fence1 _ Hw)]].
  { intros He. unfold PendingOperation. destruct (pendingOperation (mgr w)) as [p|] eqn:Hpe.
    - destruct (mi_pending _ Hm _ Hpe) as (q & Hq & _). exists q. by cbn.
    - destruct (mi_idle _ Hm Hpe). by destruct He. }
  intros q Hq Hnd. unfold PendingOperation in Hq. destruct (pendingOperation (mgr w)) as [p|] eqn:Hpe; [|done].
  cbn in Hq. destruct (wi_owner _ Hw _ Hpe Hnd) as (tid & th & Htid & Hptr).
  destruct th as [|c p' tg ph| |]; try done. injection Hptr as ->.
  destruct (wi_thread _ Hw _ _ Htid) as [(q' & Hq' & Hk & Ht) Hph]. simplify_eq.
  exists tid, c, p, ph. split; [done|]. split; [done|]. split; [done|].
  destruct ph; split; try (intros [a' ?]; discriminate); try (by intros Hs; destruct (Hph Hpe Hs)); try done.
  - by exists attempted.
  - intros _. destruct Hph as [_ Hph]. by destruct (Hph Hpe).
Qed.

(** No section faults: whatever has happened before, no call, callback
    or lifecycle event locks an ownership gate that is already locked (which
    would deadlock with the state lock held), unlocks one that is free
    (which aborts the process) or dereferences a cleanup obligation that is
    not there. *)
Theorem b503_no_fault t timeout w l :
  reachable rand production (start t timeout) w -> production w l -> step rand l w <> Fault.
Proof.
  intros Hr Hl Hf. pose proof (reachable_good _ _ (start_good t timeout) Hr) as Hw.
  pose proof (step_good w l Hw Hl) as Hg. by rewrite Hf in Hg.
Qed.
End Steps.

(** A session enabled, with a read between its admission and its release. *)
Definition demoRead : list label :=
  [LCall 0 ReqEnable 8; LEnter 0; LBegin 0; LRelease 0; LFinish 0 (Some (acked (mkTransport "gw" 3)));
   LCall 1 ReqRead 8; LEnter 1; LBind 1; LBegin 1].

Lemma b503_gate_invariant_witness :
  exists w, runWhile counting production demoRead (start (mkTransport "gw" 3) 30) = Some w /\
    unique isFence (threads w) /\ IsOwned (mgr w) = true.
Proof.
  destruct (runWhile counting production demoRead (start (mkTransport "gw" 3) 30)) as [w|] eqn:Hw;
    [|vm_compute in Hw; discriminate].
  exists w. split; [done|]. split.
  - by apply (b503_gate_invariant counting (mkTransport "gw" 3) 30 w (runWhile_reachable _ _ _ _ _ _ (reach_refl _ _ _) Hw)).
  - vm_compute in Hw. injection Hw as <-. done.
Defined.

Lemma b503_no_fault_witness :
  step counting LDisconnect (start (mkTransport "gw" 3) 30) <> Fault.
Proof. apply (b503_no_fault counting (mkTransport "gw" 3) 30); [constructor|done]. Defined.
End B503Gate.
