(* ===== verification/B503Epoch.v ===== *)
(** * Epochs and emissions of the B503 session

    The transport epochs the manager keeps (the bound one, the observed one
    and the one an owner still has to refresh to) are related by an
    invariant; from it, and from the phases of the calls, follow what may
    reach the wire: an owner's frame only under the epoch the manager has
    observed, and one enable at most in the life of the process. *)

From S2P Require Import Prelude B503Session B503Inv B503Gate.

Local Open Scope Z_scope.

Module B503Epoch.
Import B503 B503Inv B503Gate.

(** ** The invariant of the epochs *)

Abbreviation ep m := (TransportEpoch (transport m)).

(** The operation a manager waits for is bound to its transport while the
    owner has it; an enable that lost its owner remembers whether the epoch
    has moved. *)
Definition boundOk (m : Manager) (q : pendingOp) : Prop :=
  (state m = Enabling \/ state m = Active ->
     Transport q = transport m /\ (invalidated q = false -> pendingEpoch m <= ep m)) /\
  (state m = Disabled -> Kind q = OperationEnable -> PEmitted q = true /\
    ((pendingEpoch m <= TransportEpoch (Transport q) /\ observedEpoch m = ep m) \/
     (TransportEpoch (Transport q) < pendingEpoch m /\ observedEpoch m = pendingEpoch m))) /\
  (state m = Enabling -> PEmitted q = false -> pendingEpoch m <= ep m).

Record EInv (m : Manager) : Prop := {
  ei_pos : 0 <= ep m /\ 0 <= observedEpoch m /\ pendingEpoch m <= observedEpoch m;
  ei_held : held (state m) = true ->
    (pendingEpoch m <= ep m /\ observedEpoch m = ep m) \/ (ep m < pendingEpoch m /\ observedEpoch m = pendingEpoch m);
  ei_idle : state m = Idle -> observedEpoch m = ep m;
  ei_owned : state m = Active \/ state m = Refreshing -> cleanup m <> None;
  ei_heap : Forall (fun q => 0 <= TransportEpoch (Transport q)) (heap m);
  ei_pend p q : pendingOperation m = Some p -> heap m !! p = Some q -> pcleanup q = false -> boundOk m q
}.

(** What a section may change in the store: of the operations the
    dispatchers rely on, the emission mark of [ownE] and the transport of
    [own] only. *)
Definition Frame (ownE own : option nat) (m m' : Manager) : Prop :=
  forall p q, heap m !! p = Some q -> exists q', heap m' !! p = Some q' /\
    (ownE <> Some p -> PEmitted q' = PEmitted q) /\ (own <> Some p -> Transport q' = Transport q).

Lemma Frame_refl ownE own m m' : heap m' = heap m -> Frame ownE own m m'.
Proof. intros E p q Hq. exists q. by rewrite E. Qed.
Lemma Frame_alter ownE own p f m m' :
  (forall q, PEmitted (f q) = PEmitted q \/ ownE = Some p) -> (forall q, Transport (f q) = Transport q \/ own = Some p) ->
  heap m' = alter f p (heap m) -> Frame ownE own m m'.
Proof.
  intros Hf Hg E i q Hq. destruct (decide (i = p)) as [->|Hne].
  - exists (f q). rewrite E, list_lookup_alter_eq, Hq. split; [done|]. destruct (Hf q), (Hg q); done.
  - exists q. by rewrite E, list_lookup_alter_ne.
Qed.
Lemma Frame_app ownE own k m m' : heap m' = heap m ++ k -> Frame ownE own m m'.
Proof. intros E i q Hq. exists q. split; [|done]. rewrite E. by apply lookup_app_l_Some. Qed.

(** The session has been enabled, or its enable is on the wire. *)
Definition spent (m : Manager) : Prop :=
  state m <> Idle /\
  (state m = Enabling -> forall p q, pendingOperation m = Some p -> heap m !! p = Some q -> PEmitted q = true).

(** What a section leaves to the operations that were admitted: the session
    stays disabled or spent, an admitted operation is waited for until the
    session is disabled, and the observed epoch only moves in an epoch
    advance or in the refresh of the section's own operation. *)
Record Safe (own : option nat) (m m' : Manager) : Prop := {
  sf_disabled : state m = Disabled -> state m' = Disabled;
  sf_adm p q : pendingOperation m = Some p -> own <> Some p -> heap m !! p = Some q -> PEmitted q = true ->
    pendingOperation m' = Some p \/ state m' = Disabled;
  sf_spent : spent m -> spent m';
  sf_obs : observedEpoch m' = observedEpoch m \/ (state m = Refreshing /\ pendingOperation m = own) \/ emissionMu m = false
}.

Definition Held (ownE own : option nat) (m m' : Manager) : Prop := EInv m' /\ Frame ownE own m m' /\ Safe own m m'.

Lemma Safe_refl own m : Safe own m m.
Proof. constructor; auto. Qed.
Lemma Held_refl ownE own m : EInv m -> Held ownE own m m.
Proof. intros He. split; [done|]. split; [by apply Frame_refl|apply Safe_refl]. Qed.


Lemma Held_trans m1 m2 m3 :
  state m2 = state m1 -> pendingOperation m2 = pendingOperation m1 -> observedEpoch m2 = observedEpoch m1 ->
  emissionMu m2 = emissionMu m1 -> Held None None m1 m2 -> Held None None m2 m3 -> Held None None m1 m3.
Proof.
  intros E1 E2 E3 E4 (_ & F1 & [S1 S2 S3 S4]) (He & F2 & [T1 T2 T3 T4]). split; [done|]. split.
  2: { constructor; [intros; apply T1; congruence| |auto|rewrite <- E1, <- E2, <- E3, <- E4; destruct T4; auto].
       intros p q Hp Hne Hq Hem. destruct (F1 _ _ Hq) as (q2 & Hq2 & He2 & _). apply (T2 p q2); try congruence.
       by rewrite He2. }
  intros p q Hq. destruct (F1 _ _ Hq) as (q2 & Hq2 & A1 & A2). destruct (F2 _ _ Hq2) as (q3 & Hq3 & B1 & B2).
  exists q3. split; [done|]. split; intros Hn; [rewrite B1, A1|rewrite B2, A2]; done.
Qed.

(** Sections that leave the epochs and the state alone. *)
Lemma Held_same own m m' f p :
  EInv m -> heap m' = heap m \/ heap m' = alter f p (heap m) ->
  (forall q, Transport (f q) = Transport q /\ Kind (f q) = Kind q /\ pcleanup (f q) = pcleanup q /\
             (invalidated (f q) = false -> invalidated q = false) /\ (PEmitted (f q) = false -> PEmitted q = false)) ->
  (own = Some p \/ forall q, PEmitted (f q) = PEmitted q) ->
  transport m' = transport m -> observedEpoch m' = observedEpoch m -> pendingEpoch m' = pendingEpoch m ->
  state m' = state m -> notNil (cleanup m') = notNil (cleanup m) -> pendingOperation m' = pendingOperation m ->
  Held own own m m'.
Proof.
  intros [Ep Eh Ei Eo Eheap Epend] Hh Hf Hpe E1 E2 E3 E4 E5 E6. split; [|split].
  - assert (Hnil : cleanup m' = None <-> cleanup m = None).
    { destruct (cleanup m), (cleanup m'); done. }
    constructor; rewrite ?E1, ?E2, ?E3, ?E4, ?E6, ?Hnil; auto.
    + destruct Hh as [-> | ->]; [done|]. apply Forall_alter; [done|]. intros x _ Hx. by destruct (Hf x) as [-> _].
    + intros i q Hi Hq Hc. destruct Hh as [Hh|Hh]; rewrite Hh in Hq.
      { unfold boundOk. rewrite E1, E2, E3, E4. by eapply Epend. }
      rewrite list_lookup_alter in Hq. case_decide as Hip; [subst i|].
      * destruct (heap m !! p) as [q0|] eqn:Hq0; [|done]. cbn in Hq. injection Hq as <-.
        destruct (Hf q0) as (F1 & F2 & F3 & F4 & F5). rewrite F3 in Hc. pose proof (Epend _ _ Hi Hq0 Hc) as (B1 & B2 & B3).
        unfold boundOk. rewrite E1, E2, E3, E4, F1, F2. split; [|split; [|auto]].
        { intros Hs. destruct (B1 Hs). auto. }
        intros Hs Hk. destruct (B2 Hs Hk) as [Hem ?]. split; [|done].
        destruct (PEmitted (f q0)) eqn:Hfq; [done|]. rewrite F5 in Hem; congruence.
      * unfold boundOk. rewrite E1, E2, E3, E4. by eapply Epend.
  - destruct Hh as [Hh|Hh]; [by apply Frame_refl|]. eapply Frame_alter; [| |exact Hh].
    + intros q. destruct Hpe; auto.
    + intros q. left. apply Hf.
  - constructor; rewrite ?E2, ?E4, ?E6; auto. unfold spent. rewrite E4, E6. intros [H1 H2]. split; [done|].
    intros Hs p' q Hp Hq. destruct Hh as [Hh|Hh]; rewrite Hh in Hq; [by eapply H2|].
    rewrite list_lookup_alter in Hq. case_decide as Hip; [subst p'|by eapply H2].
    destruct (heap m !! p) as [q0|] eqn:Hq0; [|done]. cbn in Hq. injection Hq as <-.
    destruct (PEmitted (f q0)) eqn:Hfq; [done|]. apply Hf in Hfq. by rewrite (H2 Hs p q0) in Hfq.
Qed.

(** The clauses left by a section that ends its operation. *)
Ltac esolve :=
  fields; cbn; intros;
  repeat match goal with
  | H : held _ = true -> _ |- _ => specialize (H eq_refl)
  | H : _ \/ _ |- _ => destruct H
  | H : _ /\ _ |- _ => destruct H
  end;
  bool_facts;
  first [ congruence | lia | solve [repeat split; lia] | solve [left; split; lia] | solve [right; split; lia]
        | assumption
        | apply Forall_alter; [assumption|intros; cbn; first [assumption | lia]]
        | apply Forall_app; split; [assumption|apply Forall_singleton; cbn; lia] ].
Ltac framesolve :=
  first [ apply Frame_refl; by fields
        | match goal with E : heap ?m' = alter ?f ?p (heap ?m) |- Frame _ _ ?m ?m' =>
            apply (Frame_alter _ _ p f); [intros; first [by left | by right]|intros; first [by left | by right]|exact E]
          end
        | eapply Frame_app; by fields ].
(** The operation of a section that keeps its owner. *)
Ltac boundsolve :=
  let p' := fresh "p" in let q' := fresh "q" in let Hp' := fresh "Hp" in let Hq' := fresh "Hq" in
  intros p' q' Hp' Hq' _;
  match goal with
  | Fp : pendingOperation ?m0 = Some ?p, Fh : heap ?m0 = alter ?f ?p ?h, Hq : ?h !! ?p = Some ?q |- _ =>
      rewrite Fp in Hp'; injection Hp' as <-; rewrite Fh, list_lookup_alter_eq, Hq in Hq'; injection Hq' as <-
  | Fp : pendingOperation ?m0 = Some (length ?h), Fh : heap ?m0 = ?h ++ [_] |- _ =>
      rewrite Fp in Hp'; injection Hp' as <-; rewrite Fh, list_lookup_middle in Hq' by done; injection Hq' as <-
  end;
  unfold boundOk; fields; cbn; split; [intros Hx; first [by destruct Hx | split; [done|intros; lia]]|split; intros; first [discriminate | lia]].
Ltac safesolve :=
  first
  [ solve [fields; congruence]
  | solve [intros; fields; first [by right | by left | congruence]]
  | solve [unfold spent; fields; first [by intros [? _] | intros _; split; discriminate]]
  | solve [unfold spent; fields; intros [_ Hsp];
           match goal with H : heap _ !! ?p = Some ?q |- _ => specialize (Hsp eq_refl p q eq_refl H) end; congruence]
  | solve [fields; first [by left | by right; left]] ].
Ltac held_done := split; [constructor; first [solve [esolve] | solve [bool_facts; boundsolve]]|split; [framesolve|constructor; safesolve]].

Section Sections.
Context (rand : nat -> option (list byte)).

Lemma enableFinish_epoch p q target tok o m :
  MInv m -> EInv m -> heap m !! p = Some q -> Kind q = OperationEnable -> pcleanup q = false -> Emitted o = PEmitted q ->
  ok (enableFinish rand p q target tok o m) (fun m' _ => Held (Some p) (Some p) m m').
Proof.
  intros Hm [Ep Eh Ei Eo Eheap Epend] Hq Hk Hcl Hon. unfold enableFinish, isPending. case_bool_decide as Hpe; cbn [negb].
  2: by apply Held_refl; constructor.
  destruct (Epend _ _ Hpe Hq Hcl) as (Eb1 & Eb2 & _). pose proof (Forall_lookup_1 _ _ _ _ Eheap Hq) as Eq. cbn in Eq.
  current Hm Hpe. rewrite Hk, Hcl in Hf. bystate.
  1: destruct (Eb1 (or_introl eq_refl)) as [Et _]; rewrite Et; specialize (Eh eq_refl).
  2,3: destruct (Eb2 eq_refl Hk) as [Hem Eb3]; clear Eb2; rewrite Hem in Hon.
  all: unfold clearCleanupForOperationLocked; rewrite Hon; crank.
  all: held_done.
Qed.

Lemma readFinish_epoch p q target o m :
  MInv m -> EInv m -> heap m !! p = Some q -> Kind q = OperationRead -> pcleanup q = false ->
  ok (readFinish rand p q target o m) (fun m' _ => Held (Some p) (Some p) m m').
Proof.
  intros Hm [Ep Eh Ei Eo Eheap Epend] Hq Hk Hcl. unfold readFinish, isPending. case_bool_decide as Hpe; cbn [negb].
  2: by apply Held_refl; constructor.
  current Hm Hpe. rewrite Hk, Hcl in Hf.
  bystate; unfold readFailed, consumeIdleExpiryAfterReadLocked; crank; held_done.
Qed.

Lemma disableFinish_epoch p q target o m :
  MInv m -> EInv m -> heap m !! p = Some q -> Kind q = OperationDisable -> pcleanup q = false ->
  ok (disableFinish rand p q target o m) (fun m' _ => Held (Some p) (Some p) m m').
Proof.
  intros Hm [Ep Eh Ei Eo Eheap Epend] Hq Hk Hcl. unfold disableFinish, isPending. case_bool_decide as Hpe; cbn [negb].
  2: by apply Held_refl; constructor.
  current Hm Hpe. rewrite Hk, Hcl in Hf. bystate; crank; held_done.
Qed.

Lemma idleFinish_epoch p q t o m :
  MInv m -> EInv m -> heap m !! p = Some q -> Kind q = OperationDisable -> pcleanup q = false ->
  ok (idleFinish rand p q t o m) (fun m' _ => Held (Some p) (Some p) m m').
Proof.
  intros Hm [Ep Eh Ei Eo Eheap Epend] Hq Hk Hcl. unfold idleFinish, isPending. case_bool_decide as Hpe; cbn [negb].
  2: by apply Held_refl; constructor.
  current Hm Hpe. rewrite Hk, Hcl in Hf. bystate; crank; held_done.
Qed.

Lemma idleNoDispatch_epoch p q t m :
  MInv m -> EInv m ->
  ok (m' ← idleNoDispatch rand p q t m; Some (m', tt)) (fun m' _ => Held (Some p) (Some p) m m').
Proof.
  intros Hm [Ep Eh Ei Eo Eheap Epend]. unfold idleNoDispatch, isPending. case_bool_decide as Hpe; cbn [negb].
  2: by apply Held_refl; constructor.
  openinv Hm; crank; held_done.
Qed.

Lemma ownerRefreshed_epoch p q target a r m :
  MInv m -> EInv m -> heap m !! p = Some q -> Kind q <> OperationEnable -> pcleanup q = false ->
  ok (ownerRefreshed rand p q target a r m) (fun m' _ => Held None (Some p) m m').
Proof.
  intros Hm [Ep Eh Ei Eo Eheap Epend] Hq Hk Hcl. unfold ownerRefreshed.
  destruct (refreshCurrent p m) eqn:Hcur; cbn [negb].
  2: by apply Held_refl; constructor.
  destruct (refreshCurrent_inv _ _ Hcur) as [Hpe Hs]. clear Hcur. current Hm Hpe.
  rewrite Hs in *. specialize (Eh eq_refl).
  destruct (cleanup m) eqn:Hcm; [|by destruct (Eo (or_intror eq_refl))]. destruct r; crank.
  all: held_done.
Qed.

Lemma idleRefreshed_epoch p q a r m :
  MInv m -> EInv m -> heap m !! p = Some q -> Kind q <> OperationEnable -> pcleanup q = false ->
  ok (idleRefreshed rand p q a r m) (fun m' _ => Held None (Some p) m m').
Proof.
  intros Hm [Ep Eh Ei Eo Eheap Epend] Hq Hk Hcl. unfold idleRefreshed.
  destruct (refreshCurrent p m) eqn:Hcur; cbn [negb].
  2: by apply Held_refl; constructor.
  destruct (refreshCurrent_inv _ _ Hcur) as [Hpe Hs]. clear Hcur. current Hm Hpe.
  rewrite Hs in *. specialize (Eh eq_refl).
  destruct (cleanup m) eqn:Hcm; [|by destruct (Eo (or_intror eq_refl))]. destruct r; crank.
  all: held_done.
Qed.

(** Sections that start an operation. *)
Lemma enableBegin_epoch target m :
  MInv m -> EInv m -> ok (enableBegin rand target m) (fun m' _ => Held None None m m').
Proof.
  intros Hm [Ep Eh Ei Eo Eheap Epend]. pose proof (idle_no_pending m Hm) as Hn. unfold enableBegin, newIssuerToken.
  do 2 (case_match; [by apply Held_refl; constructor|]).
  destruct (isState Idle (state m)) eqn:Hs; cbn [negb]; [|by apply Held_refl; constructor].
  assert (Hs' : state m = Idle) by (by destruct (state m)). specialize (Hn Hs').
  destruct Hm as [Hg Hh Hc Hd Hr Hi Hp]. rewrite Hs' in *. specialize (Ei eq_refl).
  rewrite (lockMu_eq (set_state Enabling m)) by (cbn; rewrite Hg, Hh; done).
  crank; held_done.
Qed.

Lemma ownerBegin_epoch target key kind m :
  MInv m -> EInv m -> kind <> OperationEnable ->
  ok (Some (ownerBegin rand target key kind m)) (fun m' _ => Held None None m m').
Proof.
  intros Hm He Hk. pose proof He as [Ep Eh Ei Eo Eheap Epend].
  assert (Hsame : Held None None m m) by (by apply Held_refl).
  unfold ownerBegin. destruct (isState Refreshing (state m)); [done|].
  destruct (mutexHeld m); cbn [negb orb]; [|done].
  destruct (isState Active (state m)) eqn:Hs; cbn [negb]; [|done].
  assert (Hs' : state m = Active) by (by destruct (state m)).
  destruct (pendingOperation m) eqn:Hpe; cbn [notNil]; [done|].
  do 2 (case_match; [done|]). rewrite Hs' in *.
  destruct Hm as [Hg Hh Hc Hd Hr Hi Hp]. destruct (cleanup m) eqn:Hcm; [|by destruct (Eo (or_introl eq_refl))].
  destruct kind; [done| |]; crank; held_done.
Qed.

Lemma idleTimerFired_epoch gen m :
  MInv m -> EInv m -> ok (idleTimerFired rand gen m) (fun m' _ => Held None None m m').
Proof.
  intros Hm He. pose proof He as [Ep Eh Ei Eo Eheap Epend].
  assert (Hsame : Held None None m m) by (by apply Held_refl).
  unfold idleTimerFired. destruct (gen =? idleTimerGen m); cbn [negb]; [|done].
  destruct (isState Active (state m)) eqn:Hs; cbn [negb]; [|done].
  assert (Hs' : state m = Active) by (by destruct (state m)).
  destruct (pendingOperation m) as [p|] eqn:Hpe.
  { repeat case_match; try done. apply (Held_same None m _ id 0%nat); try done; first [by left | by right]. }
  rewrite Hs' in *.
  destruct Hm as [Hg Hh Hc Hd Hr Hi Hp]. destruct (cleanup m) eqn:Hcm; [|by destruct (Eo (or_introl eq_refl))].
  crank; held_done.
Qed.

Lemma cleanupBegin_epoch epoch m :
  MInv m -> EInv m -> state m = Disabled -> pendingOperation m = None ->
  ok (Some (cleanupBegin rand epoch m)) (fun m' _ => Held None None m m').
Proof.
  intros Hm He Hs Hpe. pose proof He as [Ep Eh Ei Eo Eheap Epend].
  unfold cleanupBegin. destruct (cleanup m) as [c|] eqn:Hcm; [|by apply Held_refl].
  case_match; [by apply Held_refl|]. destruct Hm as [Hg Hh Hc Hd Hr Hi Hp]. crank. held_done.
Qed.

Lemma bindPendingContext_epoch p q m : EInv m -> Held None None m (bindPendingContext p q m).
Proof. intros He. unfold bindPendingContext. case_match; (eapply Held_same; eauto; first [by right | done]). Qed.
Lemma quietIdle_epoch p m : EInv m -> Held None None m (quietIdle p m).
Proof. intros He. unfold quietIdle. case_match; apply (Held_same _ _ _ id 0%nat); try done; first [by left | by right]. Qed.
Lemma MarkQualifiedTarget_epoch t m : EInv m -> Held None None m (MarkQualifiedTarget t m).
Proof.
  intros He. unfold MarkQualifiedTarget. cbn. case_match; apply (Held_same _ _ _ id 0%nat); try done; first [by left | by right].
Qed.
Lemma recordCleanupOutcome_epoch id' epoch o m : EInv m -> Held None None m (recordCleanupOutcome id' epoch o m).
Proof.
  intros He. unfold recordCleanupOutcome. destruct (cleanup m) eqn:Hc; [case_match|];
    apply (Held_same _ _ _ id 0%nat); try done; try first [by left | by right]. cbn. by rewrite Hc.
Qed.
Lemma cleanupFinish_epoch p id' epoch o r m :
  EInv m -> (pendingOperation m = Some p -> state m = Disabled) -> Held (Some p) (Some p) m (cleanupFinish p id' epoch o r m).1.
Proof.
  intros He Hs. cbn. unfold isPending. case_bool_decide as Hpe; [|by apply Held_refl].
  specialize (Hs Hpe). destruct He as [Ep Eh Ei Eo Eheap Epend].
  split; [by constructor|]. split; [by apply Frame_refl|]. constructor; cbn; auto.
  unfold spent. cbn. rewrite Hs. done.
Qed.

(** Admission marks the pending operation. *)
Lemma admit_epoch op t m :
  EInv m -> Held (pendingOperation m) (pendingOperation m) m (admitPendingEmissionLocked op t m).1.
Proof.
  intros He. unfold admitPendingEmissionLocked. destruct (pendingOperation m) as [p|] eqn:Hp; [|by apply Held_refl].
  do 2 (case_match; try by apply Held_refl).
  apply (Held_same (Some p) m _ (set_PEmitted true) p); try done; first [by left | by right].
Qed.

(** ** Lifecycle events *)

Lemma invalidatePending_epoch m : EInv m -> Held None None m (invalidatePending m).
Proof.
  intros He. unfold invalidatePending. case_match; [|by apply Held_refl].
  apply (Held_same None m _ invalidate n); try done; by right.
Qed.

Lemma disable_tail_epoch target epoch source m :
  MInv m -> EInv m -> held (state m) = true ->
  (forall p q, pendingOperation m = Some p -> heap m !! p = Some q -> Kind q = OperationEnable -> PEmitted q = true) ->
  ok (m' ← (m' ← toDisabledLocked m; Some (createCleanupLocked rand target epoch source m')); Some (m', tt))
     (fun m' _ => Held None None m m').
Proof.
  intros Hm [Ep Eh Ei Eo Eheap Epend] Hh Hlate. specialize (Eh Hh).
  assert (Hen : forall p q, pendingOperation m = Some p -> heap m !! p = Some q -> pcleanup q = false ->
    Kind q = OperationEnable -> Transport q = transport m).
  { intros p q Hpe Hq Hc Hk. destruct (enabling_of q p m Hm Hpe Hq Hk Hh) as [Hs _].
    destruct (Epend _ _ Hpe Hq Hc) as [B1 _]. apply B1. by left. }
  destruct Hm as [Hg Hh' Hc Hd Hr Hi Hp].
  assert (Hend : forall m', heap m' = heap m -> transport m' = transport m -> observedEpoch m' = observedEpoch m ->
    pendingEpoch m' = pendingEpoch m -> state m' = Disabled -> pendingOperation m' = pendingOperation m -> Held None None m m').
  { intros m' E1 E2 E3 E4 E5 E6. split; [|split; [by apply Frame_refl|]].
    2: { constructor; rewrite ?E3, ?E5; auto. unfold spent. rewrite E5. done. }
    constructor; rewrite ?E1, ?E2, ?E3, ?E4, ?E5, ?E6; try done; [by intros []|].
    intros p q Hpe Hq Hcq. unfold boundOk. rewrite E2, E3, E4, E5. split; [by intros []|]. split; [|done].
    intros _ Hk. split; [by eapply Hlate|]. rewrite (Hen p q) by done. lia. }
  destruct (state m) eqn:Hs; try discriminate; destruct (cleanup m) eqn:Hcm; try (exfalso; by intuition);
    crank; by apply Hend.
Qed.

Lemma OnTransportDisconnect_epoch m :
  MInv m -> EInv m -> ok (m' ← OnTransportDisconnect rand m; Some (m', tt)) (fun m' _ => Held None None m m').
Proof.
  intros Hm He. unfold OnTransportDisconnect. rewrite (mi_held _ Hm). destruct (held (state m)) eqn:Hheld; cbn [negb].
  2: by apply Held_refl.
  pose proof (invalidatePending_kept _ Hm) as Hk. pose proof (invalidatePending_epoch _ He) as Hk'.
  pose proof (invalidatePending_fields m) as (F1 & F2 & _).
  assert (F3 : observedEpoch (invalidatePending m) = observedEpoch m) by (unfold invalidatePending; by case_match).
  revert Hk Hk' F1 F2 F3. generalize (invalidatePending m). intros m1 Hk Hk' F1 F2 F3.
  assert (F4 : emissionMu m1 = emissionMu m) by apply Hk.
  assert (Hm1 : MInv m1) by apply Hk. assert (He1 : EInv m1) by apply Hk'. rewrite <- F1 in Hheld.
  assert (Htail : forall t e s0,
    (forall p q, pendingOperation m1 = Some p -> heap m1 !! p = Some q -> Kind q = OperationEnable -> PEmitted q = true) ->
    ok (m' ← (m' ← toDisabledLocked m1; Some (createCleanupLocked rand t e s0 m')); Some (m', tt))
     (fun m' _ => Held None None m m')).
  { intros t e s0 Hl. eapply ok_mono; [by apply disable_tail_epoch|]. intros m' [] Hh. by apply (Held_trans _ m1). }
  unfold PendingOperation. destruct (pendingOperation m1) as [p|] eqn:Hpe; cbn [mbind option_bind]; [|by apply Htail].
  destruct (heap m1 !! p) as [q|] eqn:Hq; [|apply Htail; congruence].
  destruct (isKind OperationEnable (Kind q)) eqn:Hkq; cbn [andb];
    [|apply Htail; intros ? ? [= <-] ? Hk2; simplify_eq; by rewrite Hk2 in Hkq].
  destruct (PEmitted q) eqn:Hem; cbn [negb]; [apply Htail; intros; congruence|].
  assert (Kq : Kind q = OperationEnable) by (by destruct (Kind q)).
  destruct (enabling_of q p m1) as [Hs Hcm]; try done.
  assert (Hcl : pcleanup q = false).
  { destruct (mi_pending _ Hm1 _ Hpe) as (q' & Hq' & Hf). simplify_eq. unfold fits in Hf. rewrite Kq in Hf.
    by destruct (pcleanup q). }
  pose proof (ei_pend _ He1 _ _ Hpe Hq Hcl) as (_ & _ & B3). specialize (B3 Hs Hem).
  rewrite (releaseOwner_eq (set_pendingEpoch 0 (set_pendingOperation None m1))) by apply Hm1. cbn.
  unfold clearCleanupForOperationLocked. cbn. rewrite Hcm.
  apply (Held_trans _ m1); try done; [congruence|]. split; [|split; [by apply Frame_refl|]].
  2: { constructor; cbn; [congruence|intros; congruence| |by left].
       intros [_ Hsp]. specialize (Hsp Hs p q Hpe Hq). congruence. }
  destruct He1 as [Ep Eh Ei Eo Eheap Epend].
  specialize (Eh Hheld). constructor; cbn; first [done | lia | by intros []].
Qed.

Lemma OnEpochAdvance_epoch e m :
  MInv m -> EInv m -> emissionMu m = false -> ok (m' ← OnEpochAdvance e m; Some (m', tt)) (fun m' _ => Held None None m m').
Proof.
  intros Hm He Hmu. unfold OnEpochAdvance. case_match; [by apply Held_refl|]. bool_facts.
  set (m0 := set_lastRefreshTransportDown false (set_observedEpoch e m)).
  assert (Hk0 : Kept m m0) by (apply Kept_heap; try done; apply heapExt_refl).
  pose proof (invalidatePending_kept m0 (proj1 Hk0)) as Hk.
  set (m1 := invalidatePending m0) in *.
  assert (E1 : observedEpoch m1 = e /\ transport m1 = transport m /\ pendingEpoch m1 = pendingEpoch m /\
    state m1 = state m /\ pendingOperation m1 = pendingOperation m /\ cleanup m1 = cleanup m /\
    mutexHeld m1 = mutexHeld m /\ mu m1 = mu m).
  { unfold m1, invalidatePending, m0. cbn. destruct (pendingOperation m) eqn:Hpm; cbn; rewrite ?Hpm; by repeat split. }
  assert (Hheap : (pendingOperation m = None /\ heap m1 = heap m) \/
    (exists p, pendingOperation m = Some p /\ heap m1 = alter invalidate p (heap m))).
  { unfold m1, invalidatePending, m0. cbn. destruct (pendingOperation m); [right|left]; eauto. }
  assert (Hm1 : MInv m1) by apply Hk. clearbody m1. destruct E1 as (E1 & E2 & E3 & E4 & E5 & E6 & E7 & E8).
  destruct He as [Ep Eh Ei Eo Eheap Epend].
  assert (Hpos : Forall (fun q => 0 <= TransportEpoch (Transport q)) (heap m1)).
  { destruct Hheap as [[_ ->]|(p & _ & ->)]; [done|]. by apply Forall_alter. }
  assert (Hfr : forall m', heap m' = heap m1 -> Frame None None m m').
  { intros m' E. destruct Hheap as [[_ E']|(p & _ & E')]; [apply Frame_refl; congruence|].
    apply (Frame_alter None None p invalidate); [by left|by left|congruence]. }
  assert (Hinv : forall p q, pendingOperation m1 = Some p -> heap m1 !! p = Some q -> exists q0,
    heap m !! p = Some q0 /\ q = invalidate q0).
  { intros p q Hp Hq. rewrite E5 in Hp. destruct Hheap as [[Hn _]|(p' & Hp' & E')]; [congruence|].
    assert (p' = p) as -> by congruence. rewrite E', list_lookup_alter_eq in Hq.
    destruct (heap m !! p) as [q0|]; [|done]. exists q0. cbn in Hq. split; congruence. }
  assert (Hsafe : forall m', state m' = state m -> pendingOperation m' = pendingOperation m -> heap m' = heap m1 -> Safe None m m').
  { intros m' F1 F2 F3. constructor; rewrite ?F1, ?F2; auto. unfold spent. rewrite F1, F2, F3. intros [S1 S2].
    split; [done|]. intros Hs p q Hp Hq. rewrite <- E5 in Hp. destruct (Hinv p q Hp Hq) as (q0 & Hq0 & ->).
    rewrite E5 in Hp. by apply (S2 Hs p q0). }
  assert (Hend : (forall p q, pendingOperation m1 = Some p -> heap m1 !! p = Some q -> state m = Enabling -> PEmitted q = true) ->
    Held None None m (if mutexHeld m1 then set_pendingEpoch e m1 else bindEpoch e m1)).
  { intros Hlate. rewrite (mi_held _ Hm1), E4.
    destruct (held (state m)) eqn:Hh; (split; [|split; [by apply Hfr|by apply Hsafe]]); constructor; cbn; rewrite ?E1, ?E2, ?E3, ?E4, ?E5, ?E6; try done;
      try lia; try (rewrite <- E5; intros p q Hp Hq Hc; destruct (Hinv p q Hp Hq) as (q0 & Hq0 & ->)).
    - intros Hs. by rewrite Hs in Hh.
    - rewrite E5 in Hp. destruct (Epend _ _ Hp Hq0 Hc) as (B1 & B2 & B3). unfold boundOk. cbn. rewrite E1, E2, E4.
      split; [intros Hs; destruct (B1 Hs); done|]. split; [intros Hs; by rewrite Hs in Hh|].
      intros Hs Hem. rewrite E5 in Hlate. pose proof (Hlate _ _ Hp Hq Hs) as Hl. cbn in Hl. congruence.
    - pose proof (Forall_lookup_1 _ _ _ _ Eheap Hq0) as Hq0'. cbn in Hq0'.
      rewrite E5 in Hp. destruct (Epend _ _ Hp Hq0 Hc) as (_ & B2 & _). unfold boundOk. cbn. rewrite E1, E4.
      split; [intros [Hs|Hs]; by rewrite Hs in Hh|]. split; [|lia].
      intros Hs Hk2. destruct (B2 Hs Hk2) as [Hem _]. split; [done|]. left; split; [lia|done]. }
  cbv zeta. unfold PendingOperation. destruct (pendingOperation m1) as [p|] eqn:Hp1; cbn [mbind option_bind].
  2: { case_match; apply Hend; done. }
  destruct (heap m1 !! p) as [q|] eqn:Hq1; [|case_match; apply Hend; intros ? ? [= <-]; congruence].
  destruct (isState Enabling (state m1) && isKind OperationEnable (Kind q) && negb (PEmitted q)) eqn:Hearly.
  - bool_facts. assert (Hs : state m1 = Enabling) by (by destruct (state m1)).
    assert (Hcm : cleanup m1 = None) by (apply (mi_clean _ Hm1); by right).
    rewrite (releaseOwner_eq (set_pendingOperation None (bindEpoch e m1))) by apply Hm1. cbn.
    unfold clearCleanupForOperationLocked. cbn. rewrite Hcm. split; [|split; [by apply Hfr|]].
    2: { destruct (Hinv p q eq_refl Hq1) as (q0 & Hq0 & ->). rewrite E4 in Hs.
         change (PEmitted (invalidate q0)) with (PEmitted q0) in *.
         constructor; cbn; [congruence|intros; simplify_eq; congruence| |by right; right].
         intros [_ Hsp]. specialize (Hsp Hs p q0 (eq_sym E5) Hq0). congruence. }
    constructor; cbn; first [done | lia | by intros []].
  - case_match; apply Hend; intros p' q' [= <-] Hq' Hs; simplify_eq; rewrite E4, Hs in Hearly; cbn in Hearly;
      destruct (mi_pending _ Hm1 _ Hp1) as (q2 & Hq2 & Hf); simplify_eq; unfold fits in Hf; rewrite E4, Hs in Hf;
      destruct (Kind q), (pcleanup q), (PEmitted q); done.
Qed.

Lemma ResetForRestart_epoch ts m :
  MInv m -> EInv m -> ok (m' ← ResetForRestart ts m; Some (m', tt)) (fun m' _ => Held None None m m').
Proof.
  intros Hm He. pose proof (invalidatePending_epoch m He) as [[Ep Eh Ei Eo Eheap Epend] [Hfr _]].
  unfold ResetForRestart. rewrite (releaseGate_eq (stopIdleTimerLocked m)) by apply Hm.
  unfold invalidatePending in *. cbn in *. destruct (pendingOperation m); cbn in *.
  all: split; [constructor; cbn; first [done | by intros [] | lia]|split; [exact Hfr|]].
  all: constructor; cbn; auto; unfold spent; cbn; done.
Qed.

End Sections.
End B503Epoch.
