(* ===== verification/B503Wire.v ===== *)
(** * What the B503 session puts on the wire

    Over every interleaving of calls whose dispatchers report truthfully
    whether they were admitted: an owner's frame goes out only under the
    epoch the manager has observed, and the enable of the device goes out
    once at most. *)

From S2P Require Import Prelude B503Session B503Inv B503Gate B503Epoch.

Local Open Scope Z_scope.

Module B503Wire.
Import B503 B503Inv B503Gate B503Epoch.

(** ** Assumptions on the environment *)

Definition admitted (ph : phase) : bool := match ph with PAdmitted _ => true | _ => false end.

(** The contract of [DispatchFunc]: [Emitted] says whether the send was
    entered, that is, whether the operation was admitted. *)
Definition honest (w : World) (l : label) : Prop :=
  match l with
  | LFinish tid d =>
      match threads w !! tid with
      | Some (TOp c p tg ph) => Emitted (dispatchOnce d) = admitted ph
      | _ => True
      end
  | _ => True
  end.
#[export] Instance honest_dec w l : Decision (honest w l).
Proof. destruct l; try apply _. cbn. repeat case_match; apply _. Defined.

(** The random identities of operations do not collide. *)
Definition distinctIDs (m : Manager) : Prop := NoDup (OperationID <$> heap m).

Lemma distinctIDs_inj m p1 p2 q1 q2 :
  distinctIDs m -> heap m !! p1 = Some q1 -> heap m !! p2 = Some q2 -> OperationID q1 = OperationID q2 -> p1 = p2.
Proof.
  intros Hd H1 H2 E. apply (NoDup_lookup _ _ _ (OperationID q1) Hd); rewrite list_lookup_fmap; [by rewrite H1|by rewrite H2, E].
Qed.

Definition regular (w : World) (l : label) : Prop := production w l /\ honest w l /\ distinctIDs (mgr w).
#[export] Instance regular_dec w l : Decision (regular w l).
Proof. unfold regular, distinctIDs. apply _. Defined.

Definition isEnable (e : emission) : bool := isKind OperationEnable (emKind e).

(** ** The invariant *)

Record XInv (w : World) : Prop := {
  x_w : WInv w;
  x_e : EInv (mgr w);
  x_phase tid c p tg ph q : threads w !! tid = Some (TOp c p tg ph) -> heap (mgr w) !! p = Some q ->
    PEmitted q = admitted ph;
  x_adm tid c p tg b : threads w !! tid = Some (TOp c p tg (PAdmitted b)) ->
    pendingOperation (mgr w) = Some p \/ state (mgr w) = Disabled;
  x_spent : countb isEnable (emissions w) <> 0%nat -> spent (mgr w);
  x_one : (countb isEnable (emissions w) <= 1)%nat;
  x_bound e : e ∈ emissions w -> emCleanup e = false -> emBound e = emObserved e;
  x_fence tid c p tg q : threads w !! tid = Some (TOp c p tg (PAdmitted true)) -> heap (mgr w) !! p = Some q ->
    pcleanup q = false -> TransportEpoch (Transport q) = observedEpoch (mgr w)
}.

(** How the thread that moves goes on: with its operation, in the same
    relation to the admission, or with one that was not admitted. *)
Definition goesOn (own : option nat) (m' : Manager) (old ot : option thread) : Prop :=
  forall c p tg ph, ot = Some (TOp c p tg ph) ->
    (exists c0 tg0 ph0, old = Some (TOp c0 p tg0 ph0) /\ callKind c = callKind c0 /\ admitted ph = admitted ph0 /\
       (ph = PAdmitted true -> ph0 = PAdmitted true) /\ (own <> Some p \/ admitted ph = false)) \/
    (admitted ph = false /\ forall q, heap m' !! p = Some q -> PEmitted q = false).

Lemma XInv_move w tid ot m' ownE own :
  XInv w -> WInv (mkWorld m' (becomes tid ot (threads w)) (emissions w)) -> Held ownE own (mgr w) m' ->
  (ownE = None \/ (ownE = ptrOf' (threads w !! tid) /\ ptrOf' ot = None)) ->
  (own = None \/ own = ptrOf' (threads w !! tid)) -> goesOn own m' (threads w !! tid) ot ->
  XInv (mkWorld m' (becomes tid ot (threads w)) (emissions w)).
Proof.
  intros [Hw He Hph Hadm Hsp Hone Hbd Hfe] Hw' (He' & Hfr & Hsf) HoE Hown Hgo.
  assert (Hother : forall i c p tg ph, i <> tid -> threads w !! i = Some (TOp c p tg ph) -> ptrOf' (threads w !! tid) <> Some p).
  { intros i c p tg ph Hne Hi Hp. apply Hne. destruct (threads w !! tid) as [t|] eqn:Htid; [|done].
    by eapply (wi_ptr _ Hw). }
  assert (HnE : forall p, ptrOf' (threads w !! tid) <> Some p -> ownE <> Some p) by (intros; destruct HoE as [-> | [-> _]]; congruence).
  assert (Hn : forall p, ptrOf' (threads w !! tid) <> Some p -> own <> Some p) by (intros; destruct Hown as [-> | ->]; congruence).
  assert (Hold : forall i c p tg ph, threads w !! i = Some (TOp c p tg ph) -> exists q, heap (mgr w) !! p = Some q /\
            (Kind q, pcleanup q) = callKind c).
  { intros i c p tg ph Hi. destruct (wi_thread _ Hw _ _ Hi) as [(q & Hq & Hk & _) _]. eauto. }
  constructor; cbn; [done|done| | | | |done|].
  - intros i c p tg ph q' Hi Hq'. destruct (decide (i = tid)) as [->|Hne].
    + rewrite becomes_eq in Hi. destruct (Hgo _ _ _ _ Hi) as [(c0 & tg0 & ph0 & Htid & _ & Ha & _)|[Ha Hp]].
      * destruct (Hold _ _ _ _ _ Htid) as (q & Hq & _). destruct (Hfr _ _ Hq) as (q2 & Hq2 & E & _). simplify_eq.
        rewrite E, Ha; [by eapply Hph|]. destruct HoE as [-> | [_ Hn']]; done.
      * rewrite Ha. by apply Hp.
    + rewrite becomes_ne in Hi by done. destruct (Hold _ _ _ _ _ Hi) as (q & Hq & _).
      destruct (Hfr _ _ Hq) as (q2 & Hq2 & E & _). simplify_eq. rewrite E; [by eapply Hph|]. apply HnE. by eapply Hother.
  - assert (Hkeep : forall i c p tg b, threads w !! i = Some (TOp c p tg (PAdmitted b)) -> own <> Some p ->
      pendingOperation m' = Some p \/ state m' = Disabled).
    { intros i c p tg b Hi Ho. destruct (Hadm _ _ _ _ _ Hi) as [Hp|Hs]; [|right; by apply (sf_disabled _ _ _ Hsf)].
      destruct (Hold _ _ _ _ _ Hi) as (q & Hq & _). apply (sf_adm _ _ _ Hsf p q); try done. by rewrite (Hph _ _ _ _ _ _ Hi Hq). }
    intros i c p tg b Hi. destruct (decide (i = tid)) as [->|Hne].
    + rewrite becomes_eq in Hi. destruct (Hgo _ _ _ _ Hi) as [(c0 & tg0 & ph0 & Htid & _ & Ha & _ & Ho)|[Ha _]]; [|done].
      destruct Ho as [Ho|]; [|done]. destruct ph0; try done. by eapply Hkeep.
    + rewrite becomes_ne in Hi by done. eapply Hkeep; [done|]. apply Hn. by eapply Hother.
  - intros Hc. by apply (sf_spent _ _ _ Hsf), Hsp.
  - done.
  - assert (Hkeep : forall i c p tg q q', threads w !! i = Some (TOp c p tg (PAdmitted true)) -> own <> Some p ->
      heap (mgr w) !! p = Some q -> heap m' !! p = Some q' -> pcleanup q = false ->
      TransportEpoch (Transport q') = observedEpoch m').
    { intros i c p tg q q' Hi Ho Hq Hq' Hc. destruct (Hfr _ _ Hq) as (q2 & Hq2 & _ & E). simplify_eq. rewrite E by done.
      rewrite (Hfe _ _ _ _ _ Hi Hq Hc). destruct (sf_obs _ _ _ Hsf) as [->|[[Hs Hp]|Hmu]]; [done| |].
      - destruct (Hadm _ _ _ _ _ Hi) as [Hp'|Hs']; [|congruence]. by rewrite Hp in Hp'.
      - rewrite (proj2 (wi_fence _ Hw)) in Hmu; [done|eauto]. }
    intros i c p tg q' Hi Hq' Hc.
    assert (Hcl : forall c0 q, (Kind q, pcleanup q) = callKind c0 -> callKind c = callKind c0 -> pcleanup q = false).
    { intros c0 q Hk Hcc. destruct (wi_thread _ Hw' _ _ Hi) as [(q2 & Hq2 & Hk2 & _) _]. cbn in Hq2. simplify_eq. congruence. }
    destruct (decide (i = tid)) as [->|Hne].
    + pose proof Hi as Hi'. rewrite becomes_eq in Hi'.
      destruct (Hgo _ _ _ _ Hi') as [(c0 & tg0 & ph0 & Htid & Hcc & Ha & Hf & Ho)|[Ha _]]; [|done].
      rewrite (Hf eq_refl) in Htid. destruct (Hold _ _ _ _ _ Htid) as (q & Hq & Hk). destruct Ho as [Ho|]; [|done].
      eapply Hkeep; eauto.
    + pose proof Hi as Hi'. rewrite becomes_ne in Hi' by done. destruct (Hold _ _ _ _ _ Hi') as (q & Hq & Hk).
      eapply Hkeep; eauto.
Qed.

(** A section of the manager alone. *)
Lemma XInv_only w m' : XInv w -> WInv (with_mgr m' w) -> Held None None (mgr w) m' -> XInv (with_mgr m' w).
Proof.
  intros Hx Hw' Hh. set (tid := fresh (dom (threads w))).
  assert (Htid : threads w !! tid = None) by (apply not_elem_of_dom, is_fresh).
  assert (Hsame : becomes tid None (threads w) = threads w) by exact (delete_id (threads w) tid Htid).
  pose proof (XInv_move w tid None m' None None Hx) as H. rewrite Hsame in H. apply H; auto. by intros ? ? ? ? ?.
Qed.

Section Steps.
Context (rand : nat -> option (list byte)).

Definition GoodX (o : outcome) : Prop := match o with Next w _ => XInv w | Blocked => True | Fault => False end.

(** The end of an operation. *)
Lemma finished_x w tid c p tg ph m' a :
  XInv w -> threads w !! tid = Some (TOp c p tg ph) -> Held (Some p) (Some p) (mgr w) m' ->
  Good (goOn tid w m' a) -> GoodX (goOn tid w m' a).
Proof.
  intros Hx Htid Hh Hg.
  destruct a as [r|e r|id e o r]; cbn in Hg |- *;
    [apply (XInv_move w tid None m' (Some p) (Some p))|apply (XInv_move w tid (Some (TCleanup e r)) m' (Some p) (Some p))
    |apply (XInv_move w tid (Some (TRecord id e o r)) m' (Some p) (Some p))]; rewrite ?Htid; auto; by intros ? ? ? ? ?.
Qed.

Lemma doFinish_x w tid c p tg ph q o :
  XInv w -> threads w !! tid = Some (TOp c p tg ph) -> heap (mgr w) !! p = Some q ->
  ph = PDispatch \/ ph = PAdmitted false -> Emitted o = admitted ph ->
  GoodX (section (doFinish rand c p q tg o (mgr w)) (fun m a => goOn tid w m a)).
Proof.
  intros Hx Htid Hq Hph Hon. pose proof (x_w _ Hx) as Hw. pose proof (wi_mgr _ Hw) as Hm. pose proof (x_e _ Hx) as He.
  pose proof (doFinish_good rand w tid c p tg ph q o Hw Htid Hq Hph) as Hg.
  assert (Hok : ok (doFinish rand c p q tg o (mgr w)) (fun m' _ => Held (Some p) (Some p) (mgr w) m')).
  { destruct (wi_thread _ Hw _ _ Htid) as [(q' & Hq' & Hk & Ht) Hst]. simplify_eq.
    pose proof (x_phase _ Hx _ _ _ _ _ _ Htid Hq) as Hem.
    destruct c; cbn in Hk; injection Hk as Hk Hcl; cbn [doFinish].
    - apply enableFinish_epoch; try done. congruence.
    - by apply readFinish_epoch.
    - by apply disableFinish_epoch.
    - by apply idleFinish_epoch.
    - apply (cleanupFinish_epoch p attemptID epoch o r); [done|]. intros Hpe. destruct (mi_pending _ Hm _ Hpe) as (q' & Hq' & Hf).
      simplify_eq. unfold fits in Hf. rewrite Hk, Hcl in Hf. by destruct (state (mgr w)). }
  unfold section in *. destruct (doFinish _ _ _ _ _ _ _) as [[m' a]|]; [|done]. by eapply finished_x.
Qed.

Lemma doRefreshed_x w tid c p tg a q r :
  XInv w -> threads w !! tid = Some (TOp c p tg (PRefresh a)) -> heap (mgr w) !! p = Some q ->
  GoodX (doRefreshed rand tid w c p q tg a r).
Proof.
  intros Hx Htid Hq. pose proof (x_w _ Hx) as Hw. pose proof (wi_mgr _ Hw) as Hm. pose proof (x_e _ Hx) as He.
  pose proof (doRefreshed_good rand w tid c p tg a q r Hw Htid Hq) as Hg.
  destruct (wi_thread _ Hw _ _ Htid) as [(q' & Hq' & Hk & Ht) [Hc Hst]]. simplify_eq.
  assert (Hkq : Kind q <> OperationEnable /\ pcleanup q = false) by (destruct c; try discriminate; injection Hk as Hk1 Hk2; by rewrite Hk1).
  destruct Hkq as [Hk1 Hk2].
  assert (Hgo : forall m' ot, Held None (Some p) (mgr w) m' -> WInv (mkWorld m' (becomes tid ot (threads w)) (emissions w)) ->
     (ot = None \/ exists c' ph, ot = Some (TOp c' p (Target q) ph) /\ callKind c' = callKind c /\ admitted ph = false) ->
     XInv (mkWorld m' (becomes tid ot (threads w)) (emissions w))).
  { intros m' ot Hh Hw' Hot. apply (XInv_move w tid ot m' None (Some p)); rewrite ?Htid; auto.
    intros c1 p1 tg1 ph1 Hot1. left. destruct Hot as [-> | (c' & ph' & -> & Hck & Ha)]; [done|]. injection Hot1 as <- <- <- <-.
    exists c, (Target q), (PRefresh a). split; [done|]. split; [done|]. split; [done|]. split; [by intros ->|by right]. }
  destruct c; try discriminate; unfold doRefreshed, section in *.
  1,2: pose proof (ownerRefreshed_epoch rand p q (Target q) a r (mgr w) Hm He Hq Hk1 Hk2) as Hok;
    destruct (ownerRefreshed _ _ _ _ _ _ _) as [[m' [e|]]|]; [by apply (Hgo m' None); auto|apply Hgo; try done; right; by eexists _, _|done].
  pose proof (idleRefreshed_epoch rand p q a r (mgr w) Hm He Hq Hk1 Hk2) as Hok.
  destruct (idleRefreshed _ _ _ _ _ _) as [[m' [[t' []]|]]|]; [| |by apply (Hgo m' None); auto|done];
    apply Hgo; try done; right; by eexists (CallIdle _), _.
Qed.

(** A step that starts an operation. *)
Lemma started_x w tid c p tg ph m' k cl :
  XInv w -> Started k cl tg (mgr w) m' p -> Held None None (mgr w) m' -> admitted ph = false ->
  WInv (mkWorld m' (becomes tid (Some (TOp c p tg ph)) (threads w)) (emissions w)) ->
  XInv (mkWorld m' (becomes tid (Some (TOp c p tg ph)) (threads w)) (emissions w)).
Proof.
  intros Hx (_ & -> & _ & _ & (q & Hq & _ & _ & _ & _ & Hem) & _) Hh Ha Hw'.
  apply (XInv_move w tid _ m' None None); auto. intros c1 p1 tg1 ph1 [= <- <- <- <-]. right. split; [done|].
  rewrite Hq. intros q1 Hq1. rewrite list_lookup_middle in Hq1 by done. congruence.
Qed.

(** A step of a thread that is on no operation. *)
Lemma plain_x w tid ot m' :
  XInv w -> WInv (mkWorld m' (becomes tid ot (threads w)) (emissions w)) -> Held None None (mgr w) m' ->
  ptrOf' ot = None -> XInv (mkWorld m' (becomes tid ot (threads w)) (emissions w)).
Proof.
  intros Hx Hw' Hh Hn. apply (XInv_move w tid ot m' None None); auto. intros c p tg ph ->. discriminate.
Qed.

Lemma doEnter_x w tid rq tg : XInv w -> threads w !! tid = Some (TEnter rq tg) -> GoodX (doEnter rand tid w rq tg).
Proof.
  intros Hx Htid. pose proof (x_w _ Hx) as Hw. pose proof (wi_mgr _ Hw) as Hm. pose proof (x_e _ Hx) as He.
  pose proof (doEnter_good rand w tid rq tg Hw Htid) as Hg.
  assert (Howner : forall kind key, kind <> OperationEnable ->
     let o := (let '(m, res) := ownerBegin rand tg key kind (mgr w) in
      match res with
      | inl e => Next (finish tid (with_mgr m w)) (Some (opErr kind e))
      | inr (p, None) => Next (spawn tid (TOp (callerOf rq) p tg PBind) (with_mgr m w)) None
      | inr (p, Some a) => Next (spawn tid (TOp (callerOf rq) p tg (PRefresh a)) (with_mgr m w)) None
      end) in Good o -> GoodX o).
  { intros kind key Hne. pose proof (ownerBegin_ok rand tg key kind (mgr w) Hm Hne) as Hok.
    pose proof (ownerBegin_epoch rand tg key kind (mgr w) Hm He Hne) as Hep.
    destruct (ownerBegin rand tg key kind (mgr w)) as [m' [e|[p [a|]]]]; cbn in Hok, Hep |- *; intros Hw'.
    - by apply (plain_x w tid None).
    - destruct Hok as [Hst _]. by apply (started_x w tid _ p tg _ m' kind false).
    - destruct Hok as [Hst _]. by apply (started_x w tid _ p tg _ m' kind false). }
  destruct rq; [|by apply Howner|by apply Howner].
  unfold doEnter, section in *. pose proof (enableBegin_ok rand tg (mgr w) Hm) as Hok.
  pose proof (enableBegin_epoch rand tg (mgr w) Hm He) as Hep.
  destruct (enableBegin rand tg (mgr w)) as [[m' [e|[p tok]]]|]; cbn in Hok, Hep, Hg |- *; [| |done].
  - by apply (plain_x w tid None).
  - destruct Hok as [Hst _]. by apply (started_x w tid _ p tg _ m' OperationEnable false).
Qed.

Lemma doFire_x w tid gen : XInv w -> threads w !! tid = None -> GoodX (doFire rand tid gen w).
Proof.
  intros Hx Htid. pose proof (doFire_good rand w tid gen (x_w _ Hx) Htid) as Hg. unfold doFire, section in *. cbv zeta in *.
  set (m := set_callbacks _ (mgr w)) in *.
  assert (Hk : Kept (mgr w) m) by (apply Kept_heap; try done; [apply Hx|apply heapExt_refl]).
  assert (Hh : Held None None (mgr w) m).
  { apply (Held_same None (mgr w) _ id 0%nat); try done; first [apply Hx | by left | by right]. }
  assert (Hx1 : XInv (with_mgr m w)) by (apply XInv_only; [done|apply WInv_kept; [apply Hx|done]|done]).
  pose proof (idleTimerFired_ok rand gen m (proj1 Hk)) as Hok.
  pose proof (idleTimerFired_epoch rand gen m (proj1 Hk) (proj1 Hh)) as Hep.
  destruct (idleTimerFired rand gen m) as [[m' [|p tg a t|e]]|]; cbn in Hok, Hep, Hg |- *; [| | |done].
  - by apply (XInv_only (with_mgr m w)).
  - destruct Hok as [Hst _]. by apply (started_x (with_mgr m w) tid (CallIdle t) p tg (PRefresh a) m' OperationDisable false).
  - by apply (plain_x (with_mgr m w) tid (Some (TCleanup e None))).
Qed.

Lemma doCleanup_x w tid e r :
  XInv w -> threads w !! tid = Some (TCleanup e r) -> GoodX (doCleanup rand tid w e r).
Proof.
  intros Hx Htid. pose proof (x_w _ Hx) as Hw. destruct (wi_thread _ Hw _ _ Htid) as [Hs Hp].
  pose proof (doCleanup_good rand w tid e r Hw Htid) as Hg. unfold doCleanup in *.
  pose proof (cleanupBegin_ok rand e (mgr w) (wi_mgr _ Hw) Hs Hp) as Hok.
  pose proof (cleanupBegin_epoch rand e (mgr w) (wi_mgr _ Hw) (x_e _ Hx) Hs Hp) as Hep.
  destruct (cleanupBegin rand e (mgr w)) as [m' [[[p tg] id]|]]; cbn in Hok, Hep, Hg |- *.
  - destruct Hok as [Hst _]. by apply (started_x w tid _ p tg _ m' OperationDisable true).
  - by apply (plain_x w tid None).
Qed.

(** ** Admission *)

Lemma admit_inv op t m m1 :
  admitPendingEmissionLocked op t m = (m1, true) ->
  exists p q, pendingOperation m = Some p /\ heap m !! p = Some q /\ OperationID q = op /\ invalidated q = false /\
    admissible q m = true /\ m1 = updPending p (set_PEmitted true) m.
Proof.
  unfold admitPendingEmissionLocked. destruct (pendingOperation m) as [p|]; [|done].
  destruct (heap m !! p) as [q|] eqn:Hq; [|done]. case_match eqn:Hc; [done|]. intros [= <-]. bool_facts.
  repeat match goal with H : bool_decide _ = true |- _ => apply bool_decide_eq_true_1 in H end. by exists p, q.
Qed.

Lemma admit_refused op t m m1 : admitPendingEmissionLocked op t m = (m1, false) -> m1 = m.
Proof. unfold admitPendingEmissionLocked. repeat case_match; by intros [= <-]. Qed.

(** An admissible operation of the owner is bound to the observed epoch. *)
Lemma admissible_bound m p q :
  MInv m -> EInv m -> pendingOperation m = Some p -> heap m !! p = Some q -> invalidated q = false ->
  admissible q m = true -> pcleanup q = false -> TransportEpoch (Transport q) = observedEpoch m.
Proof.
  intros Hm He Hp Hq Hinv Had Hcl. destruct (ei_pend _ He _ _ Hp Hq Hcl) as [B1 _].
  assert (Hs : state m = Enabling \/ state m = Active).
  { unfold admissible in Had. rewrite Hcl in Had. destruct (Kind q), (state m); cbn in Had; auto; try done; by destruct (mutexHeld m). }
  destruct (B1 Hs) as [Ht Hle]. specialize (Hle Hinv). rewrite Ht.
  destruct (ei_held _ He) as [[_ ->]|[Hlt _]]; [by destruct Hs as [-> | ->]|done|lia].
Qed.

Lemma countb_one (e : emission) : countb isEnable [e] = if isEnable e then 1%nat else 0%nat.
Proof. unfold countb. cbn [List.filter]. by destruct (isEnable e). Qed.

(** The world after an admitted emission. *)
Lemma admitted_x w tid fence c p tg q b e :
  XInv w -> threads w !! tid = Some (TOp c p tg PDispatch) -> pendingOperation (mgr w) = Some p ->
  heap (mgr w) !! p = Some q -> invalidated q = false -> admissible q (mgr w) = true ->
  emBound e = TransportEpoch (Transport q) -> emObserved e = observedEpoch (mgr w) ->
  emKind e = Kind q -> emCleanup e = pcleanup q ->
  let w' := mkWorld (set_emissionMu b (updPending p (set_PEmitted true) (mgr w)))
              (becomes tid (Some (TOp c p tg (PAdmitted fence))) (threads w)) (emissions w ++ [e]) in
  WInv w' -> XInv w'.
Proof.
  intros Hx Htid Hp Hq Hinv Had E1 E2 E3 E4 w' Hw'. pose proof (x_w _ Hx) as Hw. pose proof (x_e _ Hx) as He.
  pose proof (wi_mgr _ Hw) as Hm. pose proof (x_phase _ Hx _ _ _ _ _ _ Htid Hq) as Hnem. cbn in Hnem.
  assert (Hh : Held (Some p) (Some p) (mgr w) (mgr w')).
  { apply (Held_same (Some p) (mgr w) _ (set_PEmitted true) p); try done; first [by left | by right]. }
  assert (Hself : heap (mgr w') !! p = Some (set_PEmitted true q)) by (cbn; by rewrite list_lookup_alter_eq, Hq).
  assert (Hother : forall i c' p' tg' ph q', i <> tid -> threads w !! i = Some (TOp c' p' tg' ph) ->
     heap (mgr w') !! p' = Some q' -> p' <> p /\ heap (mgr w) !! p' = Some q').
  { intros i c' p' tg' ph q' Hne Hi Hq'. assert (p' <> p). { intros ->. apply Hne. by eapply (wi_ptr _ Hw). }
    split; [done|]. cbn in Hq'. by rewrite list_lookup_alter_ne in Hq'. }
  assert (Hen : isEnable e = true -> countb isEnable (emissions w) = 0%nat /\ state (mgr w) = Enabling).
  { unfold isEnable. rewrite E3. intros Hk. assert (Kq : Kind q = OperationEnable) by (by destruct (Kind q)).
    assert (Hs : state (mgr w) = Enabling) by (unfold admissible in Had; rewrite Kq in Had; by destruct (state (mgr w))).
    split; [|done]. destruct (countb isEnable (emissions w)) eqn:Hc; [done|]. exfalso.
    destruct (x_spent _ Hx) as [_ Hsp]; [by rewrite Hc|]. specialize (Hsp Hs p q Hp Hq). congruence. }
  constructor; cbn [mgr threads emissions]; try done.
  - apply Hh.
  - intros i c' p' tg' ph q' Hi Hq'. destruct (decide (i = tid)) as [->|Hne].
    + cbn in Hi. rewrite becomes_eq in Hi. simplify_eq. done.
    + cbn in Hi. rewrite becomes_ne in Hi by done. destruct (Hother _ _ _ _ _ _ Hne Hi Hq') as [_ Hq2]. by eapply (x_phase _ Hx).
  - intros i c' p' tg' b' Hi. destruct (decide (i = tid)) as [->|Hne].
    + cbn in Hi. rewrite becomes_eq in Hi. simplify_eq. by left.
    + cbn in Hi. rewrite becomes_ne in Hi by done. by apply (x_adm _ Hx _ _ _ _ _ Hi).
  - unfold w' at 1; cbn [emissions]. rewrite countb_app, countb_one. intros Hc. destruct (isEnable e) eqn:He1.
    + destruct (Hen eq_refl) as [_ Hs]. split; [cbn; congruence|]. intros _ p' q' Hp' Hq'. cbn in Hp'. simplify_eq. done.
    + apply (sf_spent _ _ _ (proj2 (proj2 Hh))), (x_spent _ Hx). lia.
  - unfold w'; cbn [emissions]. rewrite countb_app, countb_one. destruct (isEnable e) eqn:He1.
    + destruct (Hen eq_refl) as [-> _]. lia.
    + pose proof (x_one _ Hx). lia.
  - unfold w'; cbn [emissions]. intros e' Hin Hcl. apply elem_of_app in Hin as [Hin|Hin]; [by apply (x_bound _ Hx)|].
    apply list_elem_of_singleton in Hin as ->. rewrite E1, E2. apply (admissible_bound (mgr w) p q); try done. congruence.
  - intros i c' p' tg' q' Hi Hq' Hcl. destruct (decide (i = tid)) as [->|Hne].
    + cbn in Hi. rewrite becomes_eq in Hi. simplify_eq. cbn. by apply (admissible_bound (mgr w) p' q).
    + cbn in Hi. rewrite becomes_ne in Hi by done. destruct (Hother _ _ _ _ _ _ Hne Hi Hq') as [_ Hq2]. by eapply (x_fence _ Hx).
Qed.

Lemma doAdmit_x w tid fence c p tg q :
  XInv w -> distinctIDs (mgr w) -> threads w !! tid = Some (TOp c p tg PDispatch) -> heap (mgr w) !! p = Some q ->
  GoodX (doAdmit tid fence w c p tg q).
Proof.
  intros Hx Hids Htid Hq. pose proof (x_w _ Hx) as Hw. pose proof (wi_mgr _ Hw) as Hm. pose proof (x_e _ Hx) as He.
  pose proof (doAdmit_good w tid fence c p tg q Hw Htid) as Hg.
  pose proof (admit_epoch (OperationID q) tg (mgr w) He) as Hh.
  unfold doAdmit, AdmitPendingEmission, BeginPendingEmission in *.
  destruct (admitPendingEmissionLocked (OperationID q) tg (mgr w)) as [m1 okb] eqn:Had. cbn [fst] in Hh.
  assert (Hmu : fence = true -> emissionMu (mgr w) = true \/ emissionMu (mgr w) = false) by (by destruct (emissionMu (mgr w)); auto).
  destruct okb.
  2: { apply admit_refused in Had as ->. destruct fence; cbn in *; [|by destruct w].
       destruct (emissionMu (mgr w)) eqn:Hem; [done|]. cbn in *.
       apply (XInv_only w); [done|done|]. apply (Held_same None (mgr w) _ id 0%nat); try done; first [by left | by right]. }
  apply admit_inv in Had as (p' & q' & Hp' & Hq' & Hop & Hinv & Had & ->).
  assert (p' = p) as -> by (by eapply distinctIDs_inj). simplify_eq. clear Hh Hmu. destruct fence; cbn in *.
  - destruct (emissionMu (mgr w)) eqn:Hem; [done|]. by apply (admitted_x w tid true c p tg q true).
  - pose proof (admitted_x w tid false c p tg q (emissionMu (mgr w))) as Ha. cbn in Ha.
    assert (Hid : set_emissionMu (emissionMu (mgr w)) (updPending p (set_PEmitted true) (mgr w)) =
                  updPending p (set_PEmitted true) (mgr w)) by (by destruct (mgr w)).
    rewrite Hid in Ha. by apply Ha.
Qed.

(** ** Every step *)

(** A section on behalf of an operation that goes on, as admitted as it was. *)
Lemma sameOp_x w tid c p tg ph ph' m' r :
  XInv w -> threads w !! tid = Some (TOp c p tg ph) -> Held None None (mgr w) m' -> admitted ph' = admitted ph ->
  ph' <> PAdmitted true -> Good (Next (spawn tid (TOp c p tg ph') (with_mgr m' w)) r) ->
  GoodX (Next (spawn tid (TOp c p tg ph') (with_mgr m' w)) r).
Proof.
  intros Hx Htid Hh Ha Hne Hg. apply (XInv_move w tid (Some (TOp c p tg ph')) m' None None); auto.
  intros c1 p1 tg1 ph1 [= <- <- <- <-]. left. exists c, tg, ph. rewrite Htid. repeat split; auto. by intros ->.
Qed.

Lemma only_x w (s : option Manager) :
  XInv w -> ok (m ← s; Some (m, tt)) (fun m _ => Held None None (mgr w) m) -> Good (only s w) -> GoodX (only s w).
Proof. destruct s as [m|]; cbn; [|done]. intros Hx Hk Hg. by apply XInv_only. Qed.

Lemma step_x w l : XInv w -> regular w l -> GoodX (step rand l w).
Proof.
  intros Hx (Hl & Hon & Hids). pose proof (x_w _ Hx) as Hw. pose proof (wi_mgr _ Hw) as Hm. pose proof (x_e _ Hx) as He.
  pose proof (step_good rand w l Hw Hl) as Hg.
  destruct l as [b|t| | | |tid rq tg|tid|tid r|tid|tid|tid|tid|tid|tid|tid d|tid|tid|tid gen| |e|ts]; try done;
    cbn [step] in *; unfold onOp in *.
  - apply only_x; [done| |done]. apply (Held_same None (mgr w) _ id 0%nat); try done; first [by left | by right].
  - apply only_x; [done| |done]. by apply MarkQualifiedTarget_epoch.
  - destruct (threads w !! tid) eqn:Htid; [done|]. apply (plain_x w tid (Some (TEnter rq tg))); try done.
    by apply MarkQualifiedTarget_epoch.
  - destruct (threads w !! tid) as [[]|] eqn:Htid; try done. by apply doEnter_x.
  - destruct (threads w !! tid) as [[|c p tg ph| |]|] eqn:Htid; try done. destruct (heap (mgr w) !! p) eqn:Hq; [|done].
    destruct ph; try done. by apply doRefreshed_x.
  - destruct (threads w !! tid) as [[|c p tg ph| |]|] eqn:Htid; try done. destruct (heap (mgr w) !! p) eqn:Hq; [|done].
    destruct c as [| | |t|], ph; try done. pose proof (idleNoDispatch_epoch rand p p0 t (mgr w) Hm He) as Hok.
    destruct (idleNoDispatch rand p p0 t (mgr w)) as [m'|]; [|done].
    by apply (finished_x w tid (CallIdle t) p tg PNoDispatch m' (Return None)).
  - destruct (threads w !! tid) as [[|c p tg ph| |]|] eqn:Htid; try done. destruct (heap (mgr w) !! p) eqn:Hq; [|done].
    destruct ph; try done. apply (sameOp_x w tid c p tg PBind); auto; [by apply bindPendingContext_epoch|by destruct c..].
  - destruct (threads w !! tid) as [[|c p tg ph| |]|] eqn:Htid; try done. destruct (heap (mgr w) !! p) eqn:Hq; [|done].
    destruct ph; try done. apply (sameOp_x w tid c p tg PQuiet); auto. by apply quietIdle_epoch.
  - destruct (threads w !! tid) as [[|c p tg ph| |]|] eqn:Htid; try done. destruct (heap (mgr w) !! p) eqn:Hq; [|done].
    destruct ph; try done. by apply doAdmit_x.
  - destruct (threads w !! tid) as [[|c p tg ph| |]|] eqn:Htid; try done. destruct (heap (mgr w) !! p) eqn:Hq; [|done].
    destruct ph; try done. by apply doAdmit_x.
  - destruct (threads w !! tid) as [[|c p tg ph| |]|] eqn:Htid; try done. destruct (heap (mgr w) !! p) eqn:Hq; [|done].
    destruct ph as [| | | | |[]]; try done. apply (sameOp_x w tid c p tg (PAdmitted true)); auto.
    apply (Held_same None (mgr w) _ id 0%nat); try done; first [by left | by right].
  - destruct (threads w !! tid) as [[|c p tg ph| |]|] eqn:Htid; try done. destruct (heap (mgr w) !! p) eqn:Hq; [|done].
    cbn [honest] in Hon. rewrite Htid in Hon. destruct ph as [| | | | |[]]; try done; eapply doFinish_x; eauto.
  - destruct (threads w !! tid) as [[]|] eqn:Htid; try done. by apply doCleanup_x.
  - destruct (threads w !! tid) as [[]|] eqn:Htid; try done. apply (plain_x w tid None); try done.
    by apply recordCleanupOutcome_epoch.
  - destruct (threads w !! tid) eqn:Htid; [done|]. case_match; [|done]. by apply doFire_x.
  - apply only_x; [done| |done]. by apply OnTransportDisconnect_epoch.
  - destruct (emissionMu (mgr w)) eqn:Hmu; [done|]. apply only_x; [done| |done]. by apply OnEpochAdvance_epoch.
  - apply only_x; [done| |done]. by apply ResetForRestart_epoch.
Qed.

Lemma reachable_x w0 w : XInv w0 -> reachable rand regular w0 w -> XInv w.
Proof.
  intros Hw0 Hr. induction Hr as [|w l w' r Hr IH Hl Hst]; [done|].
  pose proof (step_x w l IH Hl) as Hg. by rewrite Hst in Hg.
Qed.

Lemma start_x t timeout : 0 <= TransportEpoch t -> XInv (start t timeout).
Proof.
  intros Ht. constructor; cbn; try done; [apply start_good| |lia|by intros ? ?%elem_of_nil].
  constructor; cbn; try done; try lia. by intros [].
Qed.

(** ** The theorems *)

(** C7: Whatever calls, refreshes, timer callbacks, disconnects, epoch
    advances and restarts interleave, when dispatchers report truthfully
    whether they were admitted and random identities do not collide: at most
    one enable is ever sent to the device in the life of the process; every
    frame of an owner (enable, read or disable) is sent under the transport
    epoch the manager has observed at that moment, only cleanups can be
    late; and while a sender holds the emission fence the epoch its frame is
    bound to is still the observed one. *)
Theorem b503_emissions_sound t timeout w :
  0 <= TransportEpoch t -> reachable rand regular (start t timeout) w ->
  (countb isEnable (emissions w) <= 1)%nat /\
  (forall e, e ∈ emissions w -> emCleanup e = false -> emBound e = emObserved e) /\
  (forall tid c p tg q, threads w !! tid = Some (TOp c p tg (PAdmitted true)) -> heap (mgr w) !! p = Some q ->
     pcleanup q = false -> TransportEpoch (Transport q) = observedEpoch (mgr w)).
Proof.
  intros Ht Hr. pose proof (reachable_x _ _ (start_x t timeout Ht) Hr) as Hx.
  split; [apply (x_one _ Hx)|]. split; [apply (x_bound _ Hx)|apply (x_fence _ Hx)].
Qed.

(** An enable finds the session spent. *)
Lemma enableBegin_spent target m :
  state m <> Idle ->
  exists e, (e = ErrSessionBusy \/ e = ErrCleanupPending) /\ enableBegin rand target m = Some (m, inl e).
Proof.
  intros Hs. unfold enableBegin. case_bool_decide; [by eauto|]. destruct (notNil (cleanup m)); [by eauto|].
  destruct (state m); try done; cbn; by eauto.
Qed.

End Steps.

(** A session enabled, read and disabled by its owner. *)
Definition demoSession : list label :=
  let t := mkTransport "gw" 3 in
  [LCall 0 ReqEnable 8; LEnter 0; LBegin 0; LRelease 0; LFinish 0 (Some (acked t));
   LCall 1 ReqRead 8; LEnter 1; LBind 1; LBegin 1; LRelease 1; LFinish 1 (Some (acked t));
   LCall 2 (ReqDisable (mkKey t (HexToken [0]))) 8; LEnter 2; LBind 2; LQuiet 2; LBegin 2].

(** Cleanups are outside the second clause: the idle timer expires under a
    read, the epoch advances, the read fails, and the cleanup it leads to is
    sent under epoch 3 although epoch 4 has been observed, without the refresh
    the timer itself would have made. *)
Definition demoStale : list label :=
  let t := mkTransport "gw" 3 in
  [LSetDispatcher true; LCall 0 ReqEnable 8; LEnter 0; LBegin 0; LRelease 0; LFinish 0 (Some (acked t));
   LCall 1 ReqRead 8; LEnter 1; LBind 1; LBegin 1; LRelease 1; LFire 2 1; LEpoch 4;
   LFinish 1 (Some (mkOutcome [] true NativeAmbiguous t (Some (ErrOther 4 false)))); LCleanup 1; LBind 1; LBegin 1].
Example stale_cleanup :
  last ∘ emissions <$> runWhile counting regular demoStale (start (mkTransport "gw" 3) 30) =
  Some (Some (mkEmission OperationDisable true 8 3 4)).
Proof. vm_compute. reflexivity. Qed.

Lemma b503_emissions_sound_witness :
  exists w, runWhile counting regular demoSession (start (mkTransport "gw" 3) 30) = Some w /\
    emissions w = [mkEmission OperationEnable false 8 3 3; mkEmission OperationRead false 8 3 3;
                   mkEmission OperationDisable false 8 3 3] /\
    (countb isEnable (emissions w) <= 1)%nat.
Proof.
  destruct (runWhile counting regular demoSession (start (mkTransport "gw" 3) 30)) as [w|] eqn:Hw;
    [|vm_compute in Hw; discriminate].
  exists w. split; [done|]. split; [vm_compute in Hw; injection Hw as <-; done|].
  assert (Ht : 0 <= TransportEpoch (mkTransport "gw" 3)) by (cbn; lia).
  apply (b503_emissions_sound counting (mkTransport "gw" 3) 30 w Ht (runWhile_reachable _ _ _ _ _ _ (reach_refl _ _ _) Hw)).
Defined.

End B503Wire.
