(* ===== verification/B503Dispatch.v ===== *)
(** * The B503 frame dispatcher and its runtime

    [rawFrameDispatcher] (src/cmd/gateway/vaillant_b503_dispatcher.go) as a
    tree of the calls it makes, run against the manager while the other
    threads of the world go on, and the lifecycle callbacks of [b503Runtime].
    The dispatcher meets the contract the manager relies on: it reports an
    emission exactly when it was admitted, sends once at most and only while
    it holds the emission fence. *)

From stdpp Require Import relations strings.
From S2P Require Import Prelude B503Session B503Inv B503Gate B503Epoch B503Wire.

Local Open Scope Z_scope.

Module B503Dispatch.
Import B503 B503Inv B503Gate B503Epoch B503Wire.

(** ** Errors *)

(** An error of [bus.Send]: whether it is [ErrNACK], whether one of the two
    transport-down sentinels is in its chain, and its text. *)
Record busErr := mkBusErr {
  isNACK : bool;
  isDownSentinel : bool;
  errText : string
}.

(** [strings.Contains]. *)
Definition contains (sub s : string) : bool := notNil (String.index 0 sub s).

(** [isTransportDownErr], of an error that is not nil. *)
Definition isTransportDownErr (e : busErr) : bool :=
  isDownSentinel e || contains "transport closed" (errText e) || contains "send queue full" (errText e).

(** The sentinels of the dispatcher, as errors of a dispatch: [errors.Is]
    finds [ErrTransportDown] in the chains that wrap it. *)
Definition errRawFrameTransportDown : Err := ErrOther 1 true.
Definition errRawFrameUpstreamTimeout : Err := ErrOther 2 false.
Definition errRawFrameUpstreamRPCFailed : Err := ErrOther 3 false.
Definition errRawFrameStaleEpoch : Err := ErrOther 4 false.
Definition errRawFrameMalformedPayload : Err := ErrOther 5 false.
Definition errRawFrameMisconfigured : Err := ErrOther 6 false.
Definition errRawFrameSourceNotAdmitted : Err := ErrOther 7 true.

(** ** The program *)

(** The frame the dispatcher builds, of type initiator-target. *)
Record sendFrame := mkSend {
  fSource : byte;
  fTarget : byte;
  fPrimary : byte;
  fSecondary : byte;
  fData : list byte
}.
Definition b503PrimaryByte : byte := 181.
Definition b503SecondaryByte : byte := 3.

Inductive ctxOf := CallerCtx | RequestCtx.

(** The calls of the dispatcher, each with what it does with the answer. *)
Inductive prog :=
| Ret (o : DispatchOutcome)
| MgrTransportKey (k : TransportKey -> prog)
| CtxErr (c : ctxOf) (k : bool -> prog)
| CtxCauseDown (c : ctxOf) (k : bool -> prog)
| SourceProvider (k : byte * bool -> prog)
| ReadMu (lock : bool) (k : prog)
| MgrIsOwned (k : bool -> prog)
| DisconnectIfCurrent (t : TransportKey) (k : prog)
| BeginEmission (op : TokenID) (target : byte) (k : bool -> prog)
| ReleaseEmission (k : prog)
| BusSend (f : sendFrame) (k : busErr + option (list byte) -> prog)
| MgrDispatchEpoch (k : Z -> prog).

(** [rawFrameDispatcher]; a manager or bus that is nil is [wired = false]. *)
Record rawFrameDispatcher := mkDispatcher {
  wired : bool;
  dsource : byte;
  sourceProvider : bool;
  readMu : bool;
  requestTimeout : Z;
  disconnectIfCurrentSet : bool
}.

Section Invoke.
Context (d : rawFrameDispatcher).

(** [admittedSource]. *)
Definition admittedSource (k : byte * bool -> prog) : prog :=
  if sourceProvider d then SourceProvider k else k (dsource d, negb (dsource d =? 0)).

Definition lockRead (lock : bool) (k : prog) : prog := if readMu d then ReadMu lock k else k.

(** [if d.disconnectIfCurrent != nil && d.mgr.IsOwned() { ... }]. *)
Definition releaseOwner (t : TransportKey) (k : prog) : prog :=
  if disconnectIfCurrentSet d then MgrIsOwned (fun owned => if owned then DisconnectIfCurrent t k else k) else k.

(** An outcome that was not emitted. *)
Definition refused (t : TransportKey) (e : Err) : DispatchOutcome := mkOutcome [] false NativeAmbiguous t (Some e).

(** [classifyB503ContextErr]. *)
Definition classifyB503ContextErr (c : ctxOf) (k : Err -> prog) : prog :=
  CtxCauseDown c (fun down => k (if down then ErrTransportDown else errRawFrameUpstreamTimeout)).

(** [classifySendErr]. *)
Definition classifySendErr (bsCtx : ctxOf) (t : TransportKey) (e : busErr) (k : Err -> prog) : prog :=
  if isTransportDownErr e then releaseOwner t (k errRawFrameTransportDown)
  else CtxCauseDown CallerCtx (fun c1 => if c1 then k ErrTransportDown else
       CtxCauseDown bsCtx (fun c2 => if c2 then k ErrTransportDown else
       CtxErr CallerCtx (fun e1 => if e1 then k errRawFrameUpstreamTimeout else
       CtxErr bsCtx (fun e2 => if e2 then k errRawFrameUpstreamTimeout else k errRawFrameUpstreamRPCFailed)))).

(** [invokeB503Outcome] from the return of [bus.Send] on. *)
Definition afterSend (bsCtx : ctxOf) (t : TransportKey) (r : busErr + option (list byte)) : prog :=
  lockRead false (MgrDispatchEpoch (fun endEpoch =>
    if negb (endEpoch =? TransportEpoch t) then
      Ret (mkOutcome [] true NativeAmbiguous t (Some errRawFrameStaleEpoch))
    else
      match r with
      | inl e =>
          classifySendErr bsCtx t e (fun err =>
            Ret (mkOutcome [] true (if isNACK e then NativeNAK else NativeAmbiguous) t (Some err)))
      | inr None => Ret (mkOutcome [] true NativeAmbiguous t (Some errRawFrameUpstreamRPCFailed))
      | inr (Some data) => Ret (mkOutcome data true NativeACK t None)
      end)).

(** [invokeB503Outcome] from the final checks before the emission on. *)
Definition emitFrame (op : option TokenID) (bsCtx : ctxOf) (t : TransportKey) (f : sendFrame) : prog :=
  match op with
  | Some op =>
      BeginEmission op (fTarget f) (fun ok =>
        if negb ok then lockRead false (Ret (refused t ErrTransportDown))
        else BusSend f (fun r => ReleaseEmission (afterSend bsCtx t r)))
  | None => BusSend f (fun r => afterSend bsCtx t r)
  end.

(** [len(payload) >= 2 && payload[0] == b503PrimaryByte && payload[1] == b503SecondaryByte]. *)
Definition namespaced (payload : list byte) : bool :=
  match payload with
  | b0 :: b1 :: _ => (b0 =? b503PrimaryByte) && (b1 =? b503SecondaryByte)
  | _ => false
  end.

(** [invokeB503Outcome]; [op] is what [PendingOperationIDFromContext] finds. *)
Definition invokeB503Outcome (op : option TokenID) (target : byte) (payload : list byte) : prog :=
  if negb (wired d) then Ret (refused (mkTransport "" 0) errRawFrameMisconfigured)
  else
    MgrTransportKey (fun t =>
    CtxErr CallerCtx (fun done =>
    if done then classifyB503ContextErr CallerCtx (fun e => Ret (refused t e))
    else if namespaced payload then Ret (refused t errRawFrameMalformedPayload)
    else admittedSource (fun '(source, admitted) =>
    if negb admitted || (source =? 0) then releaseOwner t (Ret (refused t errRawFrameSourceNotAdmitted))
    else
      let bsCtx := if 0 <? requestTimeout d then RequestCtx else CallerCtx in
      lockRead true (CtxErr CallerCtx (fun done1 =>
      if done1 then lockRead false (classifyB503ContextErr CallerCtx (fun e => Ret (refused t e)))
      else CtxErr bsCtx (fun done2 =>
      if done2 then lockRead false (classifyB503ContextErr bsCtx (fun e => Ret (refused t e)))
      else admittedSource (fun '(source', admitted') =>
      if negb admitted' || (source' =? 0) || negb (source' =? source) then
        lockRead false (releaseOwner t (Ret (refused t errRawFrameSourceNotAdmitted)))
      else
        emitFrame op bsCtx t (mkSend source target b503PrimaryByte b503SecondaryByte payload)))))))).
End Invoke.

(** ** The runtime *)

(** [b503Runtime.disconnectIfCurrent], [EBusDriverActivated] and
    [EBusDriverWithdrawn], each under [lifecycleMu]. *)
Definition disconnectIfCurrent (rand : nat -> option (list byte)) (expected : TransportKey) (m : Manager) : option Manager :=
  if bool_decide (LifecycleTransportKey m = expected) then OnTransportDisconnect rand m else Some m.
Definition EBusDriverActivated (generation : Z) (m : Manager) : option Manager :=
  if generation =? 0 then Some m
  else if generation <=? TransportEpoch (LifecycleTransportKey m) then Some m
  else OnEpochAdvance generation m.
Definition EBusDriverWithdrawn (rand : nat -> option (list byte)) (generation : Z) (m : Manager) : option Manager :=
  if generation =? 0 then Some m
  else disconnectIfCurrent rand (mkTransport (AdapterInstanceID (LifecycleTransportKey m)) generation) m.

(** [installVaillantB503]: the manager it makes, with the cleanup hook. *)
Definition defaultVaillantTarget : byte := 8.
Definition installVaillantB503 : option Manager :=
  m ← ResetForRestart [defaultVaillantTarget] (New (mkTransport "gateway" 0) 30000000000);
  Some (SetCleanupDispatcher true m).

(** ** Running the dispatcher in a world *)

(** The thread a label moves. *)
Definition mover (l : label) : option nat :=
  match l with
  | LCall tid _ _ | LEnter tid | LRefreshed tid _ | LNoDispatch tid | LBind tid | LQuiet tid | LAdmit tid
  | LBegin tid | LRelease tid | LFinish tid _ | LCleanup tid | LRecord tid | LFire tid _ => Some tid
  | _ => None
  end.

(** What the dispatcher saw of the manager and of the source provider (the
    source and whether it is admitted) and handed to the bus, each with the
    world it happened in. *)
Inductive event :=
| EvKey (t : TransportKey)
| EvSource (a : byte * bool)
| EvSend (f : sendFrame)
| EvEpoch (e : Z).
Definition log : Type := list (World * event).

(** One step while thread [tid] is in its dispatch: of another thread, or of
    the dispatcher.  The answers of contexts, of the source provider and of
    the bus are any. *)
Inductive dstep (rand : nat -> option (list byte)) (tid : nat) : World * prog * log -> World * prog * log -> Prop :=
| d_other w l w' r P s : production w l -> mover l <> Some tid -> step rand l w = Next w' r ->
    dstep rand tid (w, P, s) (w', P, s)
| d_key w k s :
    dstep rand tid (w, MgrTransportKey k, s) (w, k (TransportKey_ (mgr w)), s ++ [(w, EvKey (TransportKey_ (mgr w)))])
| d_ctx c b w k s : dstep rand tid (w, CtxErr c k, s) (w, k b, s)
| d_cause c b w k s : dstep rand tid (w, CtxCauseDown c k, s) (w, k b, s)
| d_source a w k s : dstep rand tid (w, SourceProvider k, s) (w, k a, s ++ [(w, EvSource a)])
| d_readmu b w k s : dstep rand tid (w, ReadMu b k, s) (w, k, s)
| d_owned w k s : dstep rand tid (w, MgrIsOwned k, s) (w, k (IsOwned (mgr w)), s)
| d_disc t w m k s : disconnectIfCurrent rand t (mgr w) = Some m ->
    dstep rand tid (w, DisconnectIfCurrent t k, s) (with_mgr m w, k, s)
| d_begin op c p tg ph q b w m w' r k s :
    threads w !! tid = Some (TOp c p tg ph) -> heap (mgr w) !! p = Some q -> op = OperationID q ->
    BeginPendingEmission op tg (mgr w) = Some (m, b) -> step rand (LBegin tid) w = Next w' r ->
    dstep rand tid (w, BeginEmission op tg k, s) (w', k b, s)
| d_release w w' r k s : step rand (LRelease tid) w = Next w' r ->
    dstep rand tid (w, ReleaseEmission k, s) (w', k, s)
| d_send f a w k s : dstep rand tid (w, BusSend f k, s) (w, k a, s ++ [(w, EvSend f)])
| d_epoch w k s :
    dstep rand tid (w, MgrDispatchEpoch k, s) (w, k (DispatchEpoch (mgr w)), s ++ [(w, EvEpoch (DispatchEpoch (mgr w)))]).

(** ** The discipline of the dispatcher *)

(** The answers of the source provider that admit a frame: it was asked
    twice and named the frame's source as admitted both times; without a
    provider the source is the configured one. *)
Definition sourced (d : rawFrameDispatcher) (f : sendFrame) : list event :=
  if sourceProvider d then [EvSource (fSource f, true); EvSource (fSource f, true)] else [].
Definition fromSource (d : rawFrameDispatcher) (f : sendFrame) : Prop :=
  fSource f <> 0 /\ (sourceProvider d = false -> fSource f = dsource d).

(** What an outcome says of what was seen and sent. *)
Definition contract (d : rawFrameDispatcher) (ph : phase) (lg : list event) (o : DispatchOutcome) : Prop :=
  (ph = PDispatch /\ Emitted o = false /\ OErr o <> None /\
     (lg = [] \/ exists asked, lg = EvKey (OTransport o) :: (EvSource <$> asked))) \/
  (ph = PAdmitted false /\ Emitted o = true /\
     exists f e, lg = EvKey (OTransport o) :: sourced d f ++ [EvSend f; EvEpoch e] /\ fromSource d f /\
       (OErr o = None -> Native o = NativeACK /\ e = TransportEpoch (OTransport o))).

(** A program that follows the discipline from a point of its dispatch on:
    [ph] is the phase of the thread, [locked] whether it holds [readMu],
    [lg] what it has seen. *)
Fixpoint safe (d : rawFrameDispatcher) (op : TokenID) (tg : byte) (payload : list byte) (ph : phase) (locked : bool)
    (lg : list event) (P : prog) : Prop :=
  match P with
  | Ret o => locked = false /\ contract d ph lg o
  | MgrTransportKey k => forall t, safe d op tg payload ph locked (lg ++ [EvKey t]) (k t)
  | CtxErr _ k | CtxCauseDown _ k | MgrIsOwned k => forall b, safe d op tg payload ph locked lg (k b)
  | SourceProvider k => forall a, safe d op tg payload ph locked (lg ++ [EvSource a]) (k a)
  | ReadMu b k => locked = negb b /\ safe d op tg payload ph b lg k
  | DisconnectIfCurrent _ k => locked = false /\ ph <> PAdmitted true /\ safe d op tg payload ph locked lg k
  | BeginEmission op' tg' k => op' = op /\ tg' = tg /\ ph = PDispatch /\
      safe d op tg payload (PAdmitted true) locked lg (k true) /\ safe d op tg payload PDispatch locked lg (k false)
  | ReleaseEmission k => ph = PAdmitted true /\ safe d op tg payload (PAdmitted false) locked lg k
  | BusSend f k => ph = PAdmitted true /\ f = mkSend (fSource f) tg b503PrimaryByte b503SecondaryByte payload /\
      (exists t, lg = EvKey t :: sourced d f) /\ fromSource d f /\
      forall a, safe d op tg payload ph locked (lg ++ [EvSend f]) (k a)
  | MgrDispatchEpoch k => forall e, safe d op tg payload ph locked (lg ++ [EvEpoch e]) (k e)
  end.

Section Safe.
Context (d : rawFrameDispatcher) (op : TokenID) (tg : byte) (payload : list byte).
Local Abbreviation safe_ := (safe d op tg payload) (only parsing).

Lemma lockRead_safe ph b lg P : safe_ ph (readMu d && b) lg P -> safe_ ph (readMu d && negb b) lg (lockRead d b P).
Proof. unfold lockRead. destruct (readMu d), b; cbn; auto. Qed.
Lemma unlockRead_safe ph lg P : safe_ ph false lg P -> safe_ ph (readMu d && true) lg (lockRead d false P).
Proof. intros HP. apply (lockRead_safe _ false). by rewrite andb_false_r. Qed.

Lemma releaseOwner_safe ph lg t P :
  ph <> PAdmitted true -> safe_ ph false lg P -> safe_ ph false lg (releaseOwner d t P).
Proof. intros Hph HP. unfold releaseOwner. destruct (disconnectIfCurrentSet d); [|done]. cbn. by intros [|]. Qed.

Lemma refused_safe t asked e : safe_ PDispatch false (EvKey t :: (EvSource <$> asked)) (Ret (refused t e)).
Proof. split; [done|]. left. cbn. eauto 10. Qed.

Lemma classifySendErr_safe ph lg bsCtx t e k :
  ph <> PAdmitted true -> (forall err, safe_ ph false lg (k err)) -> safe_ ph false lg (classifySendErr d bsCtx t e k).
Proof.
  intros Hph Hk. unfold classifySendErr. destruct (isTransportDownErr e); [by apply releaseOwner_safe|].
  cbn. intros [|]; [done|]. cbn. intros [|]; [done|]. cbn. intros [|]; [done|]. by intros [|].
Qed.

Lemma afterSend_safe bsCtx t f r :
  fromSource d f ->
  safe_ (PAdmitted false) (readMu d && true) (EvKey t :: sourced d f ++ [EvSend f]) (afterSend d bsCtx t r).
Proof.
  intros Hf. unfold afterSend. apply unlockRead_safe. cbn [safe]. intros e.
  assert (Hend : forall out, OTransport out = t -> Emitted out = true ->
    (OErr out = None -> Native out = NativeACK /\ e = TransportEpoch t) ->
    safe_ (PAdmitted false) false ((EvKey t :: sourced d f ++ [EvSend f]) ++ [EvEpoch e]) (Ret out)).
  { intros out <- He Ho. split; [done|]. right. split; [done|]. split; [done|]. exists f, e. cbn. by rewrite <- app_assoc. }
  destruct (Z.eqb_spec e (TransportEpoch t)) as [->|Hne]; cbn [negb]; [|by apply Hend].
  destruct r as [be|[data|]]; [apply classifySendErr_safe; [done|]; intros err|..]; by apply Hend.
Qed.

Lemma emitFrame_safe bsCtx t src :
  let f := mkSend src tg b503PrimaryByte b503SecondaryByte payload in
  fromSource d f ->
  safe_ PDispatch (readMu d && true) (EvKey t :: sourced d f) (emitFrame d (Some op) bsCtx t f).
Proof.
  intros f Hf. cbn [emitFrame safe]. do 3 (split; [done|]). split; cbn [negb].
  - cbn [safe]. do 2 (split; [done|]). split; [by exists t|]. split; [done|]. intros r. split; [done|]. by apply afterSend_safe.
  - apply unlockRead_safe. unfold sourced. destruct (sourceProvider d);
      [apply (refused_safe t [(fSource f, true); (fSource f, true)])|apply (refused_safe t [])].
Qed.

(** What asking for the source adds to the log. *)
Definition asked (a : byte * bool) : list (byte * bool) := if sourceProvider d then [a] else [].
Lemma admittedSource_safe ph locked lg k :
  (forall a, (sourceProvider d = false -> a = (dsource d, negb (dsource d =? 0))) ->
     safe_ ph locked (lg ++ (EvSource <$> asked a)) (k a)) ->
  safe_ ph locked lg (admittedSource d k).
Proof.
  unfold admittedSource, asked. intros Hk. destruct (sourceProvider d); cbn [safe]; [intros a; by apply Hk|].
  specialize (Hk (dsource d, negb (dsource d =? 0)) (fun _ => eq_refl)). by rewrite app_nil_r in Hk.
Qed.

Lemma invokeB503Outcome_safe : safe_ PDispatch false [] (invokeB503Outcome d (Some op) tg payload).
Proof.
  unfold invokeB503Outcome. destruct (wired d); cbn [negb]; [|split; [done|]; left; cbn; auto].
  cbn [safe app]. intros t gone. destruct gone; [cbn; intros b; apply (refused_safe t [])|].
  destruct (namespaced payload); [apply (refused_safe t [])|].
  apply admittedSource_safe. intros [src adm] Hsrc. destruct (negb adm || (src =? 0)) eqn:Ha.
  { apply releaseOwner_safe; [done|]. apply (refused_safe t (asked (src, adm))). }
  apply orb_false_iff in Ha as [Hadm Hs]. apply negb_false_iff in Hadm as ->. apply Z.eqb_neq in Hs. cbv zeta.
  set (bsCtx := if 0 <? requestTimeout d then RequestCtx else CallerCtx).
  replace false with (readMu d && negb true) at 1 by (by rewrite andb_false_r). apply lockRead_safe.
  cbn [safe]. intros done1. destruct done1; [apply unlockRead_safe; cbn [safe]; intros b; apply (refused_safe t (asked (src, true)))|].
  cbn [safe]. intros done2. destruct done2; [apply unlockRead_safe; cbn [safe]; intros b; apply (refused_safe t (asked (src, true)))|].
  apply admittedSource_safe. intros [src' adm'] _. cbn [app]. rewrite <- fmap_app.
  destruct (negb adm' || (src' =? 0) || negb (src' =? src)) eqn:Hb.
  - apply unlockRead_safe, releaseOwner_safe; [done|]. apply refused_safe.
  - apply orb_false_iff in Hb as [Hb He]. apply orb_false_iff in Hb as [Hb _].
    apply negb_false_iff in Hb as ->. apply negb_false_iff, Z.eqb_eq in He as ->.
    assert (Hf : fromSource d (mkSend src tg b503PrimaryByte b503SecondaryByte payload))
      by (split; [done|]; intros Hp; by specialize (Hsrc Hp); simplify_eq).
    pose proof (emitFrame_safe bsCtx t src Hf) as He. revert He. unfold asked, sourced. by destruct (sourceProvider d).
Qed.
End Safe.

(** ** The dispatcher among the other threads *)

Section Run.
Context (rand : nat -> option (list byte)) (tid : nat).

Lemma goOn_threads t w m a w' r :
  goOn t w m a = Next w' r -> t <> tid -> threads w' !! tid = threads w !! tid.
Proof. destruct a; cbn; intros [= <- <-] Hi; cbn; by rewrite ?lookup_delete_ne, ?lookup_insert_ne. Qed.

(** A step of another thread leaves this one alone. *)
Lemma step_other w l w' r :
  mover l <> Some tid -> step rand l w = Next w' r -> threads w' !! tid = threads w !! tid.
Proof.
  intros Hm. destruct l; cbn [step mover] in *; unfold onOp, only, section, doEnter, doRefreshed, doFire, section, doCleanup, doAdmit;
    intros Hs; try (assert (tid0 <> tid) by congruence);
    repeat (first [discriminate | injection Hs as <- <- | eapply goOn_threads; eassumption | case_match]);
    cbn; by rewrite ?lookup_insert_ne, ?lookup_delete_ne.
Qed.

Lemma begin_step c p tg w q m b w' r :
  threads w !! tid = Some (TOp c p tg PDispatch) -> heap (mgr w) !! p = Some q ->
  BeginPendingEmission (OperationID q) tg (mgr w) = Some (m, b) -> step rand (LBegin tid) w = Next w' r ->
  threads w' !! tid = Some (TOp c p tg (if b then PAdmitted true else PDispatch)).
Proof.
  intros Htid Hq Hb. cbn [step]. unfold onOp. rewrite Htid, Hq. unfold doAdmit. rewrite Hb. destruct b; intros [= <- <-]; cbn; [|done].
  by rewrite lookup_insert_eq.
Qed.

(** What holds of a dispatch at every point: where its thread is, that the
    rest of its program is disciplined, and what each entry of the log
    was. *)
Definition entryOk (c : caller) (p : nat) (tg : byte) (payload : list byte) (x : World * event) : Prop :=
  match x with
  | (w, EvKey t) => t = TransportKey_ (mgr w)
  | (w, EvSource _) => True
  | (w, EvSend f) => threads w !! tid = Some (TOp c p tg (PAdmitted true)) /\
      f = mkSend (fSource f) tg b503PrimaryByte b503SecondaryByte payload
  | (w, EvEpoch e) => e = DispatchEpoch (mgr w)
  end.
Definition runs (d : rawFrameDispatcher) (op : TokenID) (c : caller) (p : nat) (tg : byte) (payload : list byte) (st : World * prog * log) : Prop :=
  let '(w, P, lg) := st in
  Forall (entryOk c p tg payload) lg /\
  exists ph locked, threads w !! tid = Some (TOp c p tg ph) /\ safe d op tg payload ph locked (lg.*2) P.

Lemma dstep_runs d op c p tg payload st st' :
  runs d op c p tg payload st -> dstep rand tid st st' -> runs d op c p tg payload st'.
Proof.
  intros Hr Hst. destruct Hst; destruct Hr as (Hlg & ph0 & locked & Htid & Hs); cbn in Hs;
    rewrite ?fmap_app in *.
  - split; [done|]. exists ph0, locked. by rewrite (step_other w l w' r).
  - split; [by apply Forall_app_2; [|constructor]|]. exists ph0, locked. rewrite fmap_app. split; [done|]. apply Hs.
  - split; [done|]. exists ph0, locked. split; [done|]. apply Hs.
  - split; [done|]. exists ph0, locked. split; [done|]. apply Hs.
  - split; [by apply Forall_app_2; [|repeat constructor]|]. exists ph0, locked. rewrite fmap_app. split; [done|]. apply Hs.
  - split; [done|]. exists ph0, b. split; [done|]. apply Hs.
  - split; [done|]. exists ph0, locked. split; [done|]. apply Hs.
  - split; [done|]. exists ph0, locked. split; [done|]. apply Hs.
  - destruct Hs as (_ & _ & -> & Hyes & Hno). simplify_eq. split; [done|].
    assert (Hb : threads w' !! tid = Some (TOp c p tg (if b then PAdmitted true else PDispatch))) by (by eapply begin_step).
    exists (if b then PAdmitted true else PDispatch), locked. split; [done|]. by destruct b.
  - destruct Hs as [-> Hs]. split; [done|]. exists (PAdmitted false), locked. split; [|done].
    revert H. cbn. unfold onOp. rewrite Htid. case_match; [|done]. intros [= <- <-]. cbn. by rewrite lookup_insert_eq.
  - destruct Hs as (-> & Hf & _ & _ & Hs). split; [by apply Forall_app_2; [|repeat constructor]|].
    exists (PAdmitted true), locked. rewrite fmap_app. split; [done|]. apply Hs.
  - split; [by apply Forall_app_2; [|constructor]|]. exists ph0, locked. rewrite fmap_app. split; [done|]. apply Hs.
Qed.

Lemma rtc_runs d op c p tg payload st st' :
  runs d op c p tg payload st -> rtc (dstep rand tid) st st' -> runs d op c p tg payload st'.
Proof. intros Hr Hs. induction Hs; [done|]. eauto using dstep_runs. Qed.

End Run.

End B503Dispatch.
