(* ===== verification/B503Restart.v ===== *)
(** * The restart fence of the B503 session

    [installVaillantB503] resets every manager it makes before a surface can
    reach it, since a former process may have left the device enabled.  From
    the reset on nothing is admitted for sending and every call is refused,
    whatever was in flight when it happened.  The reset does not wait for the
    emission fence, so a dispatcher that had been admitted before it may still
    hand its one frame to the bus. *)

From S2P Require Import Prelude B503Session B503Inv B503Gate B503Epoch B503Wire B503Dispatch.

Local Open Scope Z_scope.

Module B503Restart.
Import B503 B503Inv B503Gate B503Dispatch.

(** What the reset leaves, for the targets [F] it named. *)
Record fenced (F : gset Z) (m : Manager) : Prop := {
  fe_state : state m = Disabled;
  fe_restarted : restarted m = true;
  fe_cleanup : cleanup m = None;
  fe_pending : pendingOperation m = None;
  fe_held : mutexHeld m = false;
  fe_fences : F ⊆ restartFences m
}.

(** A step of a world under the fence: nothing is admitted, and the fence
    stays. *)
Definition GoodR (F : gset Z) (em : list emission) (o : outcome) : Prop :=
  match o with
  | Next w _ => fenced F (mgr w) /\ emissions w = em
  | _ => True
  end.

Section Steps.
Context (rand : nat -> option (list byte)) (F : gset Z).

(** A section under the fence changes nothing the fence is about. *)
Lemma fenced_same m m' :
  fenced F m -> state m' = state m -> restarted m' = restarted m -> cleanup m' = cleanup m ->
  pendingOperation m' = pendingOperation m -> mutexHeld m' = mutexHeld m ->
  restartFences m' = restartFences m -> fenced F m'.
Proof. intros [? ? ? ? ? ?] ? ? ? ? ? He. constructor; first [congruence | by rewrite He]. Qed.

Lemma isPending_fenced p m : fenced F m -> isPending p m = false.
Proof. intros [_ _ _ Hp _ _]. unfold isPending. rewrite Hp. by apply bool_decide_eq_false_2. Qed.

Lemma doFinish_fenced c p q target o m :
  fenced F m -> exists m' a, doFinish rand c p q target o m = Some (m', a) /\ fenced F m'.
Proof.
  intros Hf. pose proof (isPending_fenced p m Hf) as Hp.
  destruct c; cbn [doFinish]; unfold enableFinish, readFinish, disableFinish, idleFinish, cleanupFinish; rewrite Hp; eauto.
Qed.

Lemma refresh_fenced p m : fenced F m -> refreshCurrent p m = false.
Proof. intros Hf. unfold refreshCurrent. by rewrite (isPending_fenced p m Hf). Qed.

Lemma doRefreshed_fenced tid w c p q target a r :
  fenced F (mgr w) -> GoodR F (emissions w) (doRefreshed rand tid w c p q target a r).
Proof.
  intros Hf. unfold doRefreshed, section, idleRefreshed, ownerRefreshed. rewrite (refresh_fenced p _ Hf). by destruct c.
Qed.

Lemma enableBegin_fenced target m :
  fenced F m -> enableBegin rand target m =
    Some (m, inl (if bool_decide (target ∈ restartFences m) then ErrCleanupPending else ErrSessionBusy)).
Proof. intros [Hs _ Hc _ _ _]. unfold enableBegin. rewrite Hs, Hc. by case_bool_decide. Qed.

Lemma ownerBegin_fenced target key kind m : fenced F m -> ownerBegin rand target key kind m = (m, inl ErrNotActive).
Proof. intros [Hs _ _ _ Hh _]. unfold ownerBegin. by rewrite Hs, Hh. Qed.

(** The error each request gets. *)
Definition refusal (rq : request) (target : byte) (m : Manager) : ret :=
  match rq with
  | ReqEnable => REnable noKey (Some (if bool_decide (target ∈ restartFences m) then ErrCleanupPending else ErrSessionBusy))
  | ReqRead => RRead [] (Some ErrNotActive)
  | ReqDisable _ => RDisable (Some ErrNotActive)
  end.

Lemma doEnter_fenced tid w rq target :
  fenced F (mgr w) -> doEnter rand tid w rq target = Next (finish tid w) (Some (refusal rq target (mgr w))).
Proof.
  intros Hf. unfold doEnter. destruct w as [m ts em]. cbn in *.
  destruct rq; cbn; rewrite ?enableBegin_fenced, ?ownerBegin_fenced by done; done.
Qed.

Lemma admit_fenced op t m : fenced F m -> admitPendingEmissionLocked op t m = (m, false).
Proof. intros [_ _ _ Hp _ _]. unfold admitPendingEmissionLocked. by rewrite Hp. Qed.

Lemma doAdmit_fenced tid fence w c p target q :
  fenced F (mgr w) -> GoodR F (emissions w) (doAdmit tid fence w c p target q).
Proof.
  intros Hf. unfold doAdmit, BeginPendingEmission, AdmitPendingEmission. rewrite (admit_fenced _ _ _ Hf).
  destruct fence; [destruct (emissionMu (mgr w)); [done|]|]; cbn; (split; [|done]); by eapply fenced_same.
Qed.

Lemma MarkQualifiedTarget_fenced t m :
  fenced F m -> fenced F (MarkQualifiedTarget t m) /\ t ∈ restartFences (MarkQualifiedTarget t m).
Proof.
  intros Hf. pose proof (fe_restarted _ _ Hf) as Hr. unfold MarkQualifiedTarget. cbn. rewrite Hr.
  destruct Hf. split; [constructor|]; cbn; first [done | set_solver].
Qed.

(** The reset raises the fence, in any state. *)
Lemma ResetForRestart_fenced ts m m' :
  F ⊆ qualified m ∪ list_to_set ts ∪ restartFences m -> ResetForRestart ts m = Some m' -> fenced F m'.
Proof.
  intros HF.
  unfold ResetForRestart. destruct (releaseGate (stopIdleTimerLocked m)) as [m1|] eqn:Hg; cbn; [|done].
  assert (mutexHeld m1 = false /\ qualified m1 = qualified m /\ restartFences m1 = restartFences m) as (Hh & Hq & Hr).
  { revert Hg. unfold releaseGate, unlockMu. destruct (mutexHeld (stopIdleTimerLocked m)) eqn:Hh; [|by intros [= <-]].
    case_match; [|done]. by intros [= <-]. }
  unfold invalidatePending. cbn. destruct (pendingOperation m1); intros [= <-]; constructor; try done; cbn;
    rewrite Hq, Hr; set_solver.
Qed.

Lemma lifecycle_fenced l w :
  match l with LDisconnect | LEpoch _ | LReset _ => True | _ => False end ->
  fenced F (mgr w) -> GoodR F (emissions w) (step rand l w).
Proof.
  intros Hl Hf. pose proof Hf as [Hs Hr Hc Hp Hh HF]. destruct l; try done; cbn [step].
  - unfold only, OnTransportDisconnect. by rewrite Hh.
  - destruct (emissionMu (mgr w)); [done|]. unfold only, OnEpochAdvance. case_match eqn:He; [|done].
    revert He. case_match; [by intros [= <-]|]. unfold invalidatePending, PendingOperation. cbn. rewrite Hp. cbn. rewrite Hp. cbn.
    rewrite Hh. intros [= <-]. split; [|done]. by eapply fenced_same.
  - unfold only. case_match eqn:He; [|done]. split; [|done]. eapply ResetForRestart_fenced; [|done]. set_solver.
Qed.

Lemma step_fenced w l : fenced F (mgr w) -> production w l -> GoodR F (emissions w) (step rand l w).
Proof.
  intros Hf Hl. pose proof Hf as [Hs Hr Hc Hp Hh HF].
  destruct l as [b|t| | | |tid rq tg|tid|tid r|tid|tid|tid|tid|tid|tid|tid d|tid|tid|tid gen| |e|ts]; try done;
    try (by apply lifecycle_fenced); cbn [step]; unfold onOp;
    try (destruct (threads w !! tid) as [[|c p tg ph| |]|] eqn:Htid; try done);
    try (destruct (heap (mgr w) !! p) as [q|] eqn:Hq; [|done]).
  - split; [|done]. by apply MarkQualifiedTarget_fenced.
  - case_match; [done|]. split; [|done]. by apply MarkQualifiedTarget_fenced.
  - by rewrite doEnter_fenced.
  - destruct ph; try done. by apply doRefreshed_fenced.
  - destruct c as [| | |t|], ph; try done. unfold idleNoDispatch. by rewrite isPending_fenced.
  - destruct ph; try done. split; [|done]. unfold bindPendingContext. rewrite isPending_fenced by done. by eapply fenced_same.
  - destruct ph; try done. split; [|done]. unfold quietIdle. by rewrite isPending_fenced.
  - destruct ph; try done. by apply doAdmit_fenced.
  - destruct ph; try done. by apply doAdmit_fenced.
  - by destruct ph as [| | | | |[]].
  - destruct (doFinish_fenced c p q tg (dispatchOnce d) (mgr w) Hf) as (m' & a & E & Hf').
    destruct ph as [| | | | |[]]; try done; rewrite E; by destruct a.
  - unfold doCleanup, cleanupBegin. by rewrite Hc.
  - split; [|done]. unfold recordCleanupOutcome. cbn. rewrite Hc. by eapply fenced_same.
  - destruct (bool_decide _); [|done]. unfold doFire, section, idleTimerFired. cbn. rewrite Hs. cbn.
    destruct (negb _); cbn; split; first [done | by eapply fenced_same].
Qed.

(** Whoever is admitted in [w'] was already in [w], with the same operation. *)
Definition admittedBefore (w w' : World) : Prop :=
  forall i c p tg b, threads w' !! i = Some (TOp c p tg (PAdmitted b)) ->
    exists b0, threads w !! i = Some (TOp c p tg (PAdmitted b0)) /\ (b = true -> b0 = true).

Lemma admittedBefore_refl w w' : threads w' = threads w -> admittedBefore w w'.
Proof. intros E i c p tg b. rewrite E. eauto. Qed.
Lemma admittedBefore_trans w1 w2 w3 : admittedBefore w1 w2 -> admittedBefore w2 w3 -> admittedBefore w1 w3.
Proof.
  intros H12 H23 i c p tg b Hi. destruct (H23 _ _ _ _ _ Hi) as (b2 & H2 & E2).
  destruct (H12 _ _ _ _ _ H2) as (b1 & H1 & E1). eauto.
Qed.
Lemma admittedBefore_spawn w w' tid t :
  threads w' = <[tid := t]> (threads w) -> (forall c p tg b, t <> TOp c p tg (PAdmitted b)) -> admittedBefore w w'.
Proof.
  intros E Ht i c p tg b. rewrite E. destruct (decide (tid = i)) as [->|Hne].
  - rewrite lookup_insert_eq. intros [= H]. by destruct (Ht _ _ _ _ H).
  - rewrite lookup_insert_ne by done. eauto.
Qed.
Lemma admittedBefore_finish w w' tid : threads w' = delete tid (threads w) -> admittedBefore w w'.
Proof. intros E i c p tg b. rewrite E. intros [_ H]%lookup_delete_Some. eauto. Qed.
Lemma admittedBefore_goOn tid w m a w' r : goOn tid w m a = Next w' r -> admittedBefore w w'.
Proof. destruct a; cbn; intros [= <- <-]; first [by eapply admittedBefore_finish | by eapply admittedBefore_spawn]. Qed.

Lemma step_admitted w l w' r : fenced F (mgr w) -> production w l -> step rand l w = Next w' r -> admittedBefore w w'.
Proof.
  intros Hf Hl. assert (Had : forall tid fence c p tg q, doAdmit tid fence w c p tg q = Next w' r -> admittedBefore w w').
  { intros tid fence c p tg q. unfold doAdmit, BeginPendingEmission, AdmitPendingEmission. rewrite (admit_fenced _ _ _ Hf).
    destruct fence; [destruct (emissionMu (mgr w)); [done|]|]; cbn; intros [= <- <-]; by apply admittedBefore_refl. }
  destruct l; try done; cbn [step]; unfold onOp, only, section, doEnter, doRefreshed, doFire, section, doCleanup; intros Hs;
    repeat (first [discriminate | (eapply Had; eassumption) | (eapply admittedBefore_goOn; eassumption) | injection Hs as <- <- | case_match]);
    first [by apply admittedBefore_refl | by eapply admittedBefore_finish | eapply admittedBefore_spawn; [reflexivity|]; intros; discriminate | idtac].
  - eapply admittedBefore_spawn; [reflexivity|]. destruct c; discriminate.
  - intros i c' p' tg b. cbn. destruct (decide (tid = i)) as [->|Hne].
    + rewrite lookup_insert_eq. intros [= <- <- <- <-]. by exists true.
    + rewrite lookup_insert_ne by done. eauto.
Qed.

Lemma reachable_fenced w0 w :
  fenced F (mgr w0) -> reachable rand production w0 w ->
  fenced F (mgr w) /\ emissions w = emissions w0 /\ admittedBefore w0 w.
Proof.
  intros Hf Hr. induction Hr as [|w l w' r Hr (IH1 & IH2 & IH3) Hl Hst].
  - split; [done|]. split; [done|by apply admittedBefore_refl].
  - pose proof (step_fenced w l IH1 Hl) as Hg. rewrite Hst in Hg. destruct Hg as [Hg1 Hg2].
    split; [done|]. split; [congruence|]. eapply admittedBefore_trans; [done|by eapply step_admitted].
Qed.

End Steps.

Section Fence.
Context (rand : nat -> option (list byte)).

(** The manager as [installVaillantB503] leaves it never admits an emission. *)
Lemma installed_silent m w :
  installVaillantB503 = Some m -> reachable rand production (mkWorld m ∅ []) w -> emissions w = [].
Proof.
  intros Hi Hr. apply (reachable_fenced rand ∅ (mkWorld m ∅ []) w); [|done]. revert Hi. unfold installVaillantB503.
  destruct (ResetForRestart _ _) as [m1|] eqn:He; [|done]. intros [= <-]. apply (ResetForRestart_fenced ∅) in He; [|set_solver].
  by eapply fenced_same.
Qed.

(** C27: After a reset for restart, made with any calls in flight and in any
    state, and over every later interleaving of calls, refreshes, dispatches,
    timer callbacks, disconnects, epoch advances and further resets: no
    emission is ever admitted again, and a dispatcher that is admitted later
    on was admitted already when the reset came, for the same operation (so
    the only frame that can still reach the bus is the one of a dispatcher
    that was between its admission and its send: the reset does not wait for
    the emission fence); the session shows as idle, is owned by nobody and
    waits for no operation; the targets the reset names and those qualified before it stay
    blocked; a new enable is refused because a cleanup is pending, a new
    read or disable because the session is not active, and the calls that
    were between their entry and their first section get the same errors,
    or busy for an enable of a target nobody had named. *)
Theorem b503_restart_fence w0 w1 r1 ts w :
  step rand (LReset ts) w0 = Next w1 r1 -> reachable rand production w1 w ->
  emissions w = emissions w0 /\ admittedBefore w0 w /\ IsOwned (mgr w) = false /\ State_ (mgr w) = Idle /\
  PendingOperation (mgr w) = None /\
  (forall tg, tg ∈ ts \/ tg ∈ qualified (mgr w0) -> TargetBlocked tg (mgr w) = true) /\
  (forall tid rq tg, threads w !! tid = Some (TEnter rq tg) ->
     step rand (LEnter tid) w = Next (finish tid w) (Some (refusal rq tg (mgr w)))) /\
  (forall tid rq tg, threads w !! tid = None ->
     exists w2 w3, step rand (LCall tid rq tg) w = Next w2 None /\
       step rand (LEnter tid) w2 = Next w3 (Some (opErr (kindOf rq)
         match rq with ReqEnable => ErrCleanupPending | _ => ErrNotActive end))).
Proof.
  intros Hst Hr. set (F := qualified (mgr w0) ∪ list_to_set ts).
  assert (Hf1 : fenced F (mgr w1) /\ emissions w1 = emissions w0 /\ admittedBefore w0 w1).
  { revert Hst. cbn. unfold only. destruct (ResetForRestart ts (mgr w0)) eqn:He; [|done]. intros [= <- <-].
    split; [|by split; [|apply admittedBefore_refl]]. eapply ResetForRestart_fenced; [|done]. set_solver. }
  destruct Hf1 as (Hf1 & He1 & Ha1). destruct (reachable_fenced rand F w1 w Hf1 Hr) as (Hf & He & Ha).
  pose proof Hf as [Hs Hre Hc Hp Hh HF].
  split; [congruence|]. split; [by eapply admittedBefore_trans|]. split; [done|]. split; [unfold State_; by rewrite Hs, Hre, Hc|].
  split; [unfold PendingOperation; by rewrite Hp|].
  split; [intros tg Htg; unfold TargetBlocked; rewrite bool_decide_eq_true_2; [done|set_solver]|]. split.
  - intros tid rq tg Htid. cbn. rewrite Htid. by apply (doEnter_fenced rand F).
  - intros tid rq tg Htid. cbn [step]. rewrite Htid. do 2 eexists. split; [done|].
    destruct (MarkQualifiedTarget_fenced F tg _ Hf) as [Hf2 Hin]. cbn. rewrite lookup_insert_eq, (doEnter_fenced rand F) by done.
    f_equal. f_equal. destruct rq; cbn; try done. by rewrite bool_decide_eq_true_2.
Qed.
End Fence.

(** A restart while a read holds the emission fence: nothing is admitted
    after that read. *)
Lemma b503_restart_fence_witness :
  exists w0 w1, runWhile counting production demoRead (start (mkTransport "gw" 3) 30) = Some w0 /\
    step counting (LReset [8]) w0 = Next w1 None /\ emissions w1 = emissions w0 /\ length (emissions w0) = 2%nat /\
    IsOwned (mgr w0) = true /\ IsOwned (mgr w1) = false.
Proof.
  destruct (runWhile counting production demoRead (start (mkTransport "gw" 3) 30)) as [w0|] eqn:Hw;
    [|vm_compute in Hw; discriminate].
  destruct (step counting (LReset [8]) w0) as [| |w1 r] eqn:Hs;
    [vm_compute in Hw; injection Hw as <-; vm_compute in Hs; discriminate..|].
  assert (r = None) as -> by (vm_compute in Hw; injection Hw as <-; vm_compute in Hs; by injection Hs).
  exists w0, w1. destruct (b503_restart_fence counting w0 w1 None [8] w1 Hs (reach_refl _ _ _)) as (He & _ & Ho & _).
  split; [done|]. split; [done|]. split; [done|].
  split; [vm_compute in Hw; injection Hw as <-; done|]. split; [vm_compute in Hw; injection Hw as <-; done|done].
Defined.
End B503Restart.
