(* ===== verification/AddressTable.v ===== *)
(** * Address table

    [AddressTable] and [AddressTableInserter] (src/address_table.go and
    src/address_table_inserter.go): how passively observed traffic creates
    slots of the device registry.  The registry and the table of standard
    addresses belong to other repositories and are classes; the effects on
    the registry and the hooks are a list of calls beside the new state. *)

From S2P Require Import Prelude Ebus PassiveTap Reconstructor ReconstructorInv.

Local Open Scope Z_scope.

Module AddressTable.
Import Reconstructor ReconstructorInv.

(** ** What other repositories provide *)

(** The standard address table of [helianthus-ebusgo/protocol]. *)
Record tableRow := mkRow {
  rowSource : byte;
  rowCompanion : byte;
  rowDescription : string;
  rowPriority : string;
  rowFreeUse : bool
}.
Class StandardTable := {
  IsCanonicalSource : byte -> bool;
  Companion : byte -> option byte;
  SourceOfCompanion : byte -> option byte;
  SourceTier : byte -> option string;
  IsFreeUseSource : byte -> bool;
  SourceAddressTableRows : list tableRow
}.

(** The slots of the registry of [helianthus-ebusreg]. *)
Inductive SlotRole := SlotRoleUnknown | SlotRoleMaster | SlotRoleSlave.
Inductive DiscoverySource := DiscoverySourceUnknown | DiscoverySourcePassiveObserved | DiscoverySourceStaticSeed
  | DiscoverySourceActiveConfirmed.
Inductive VerificationState := VerificationStateUnknown | VerificationStateCandidate | VerificationStateCorroborated
  | VerificationStateIdentityConfirmed.
Record slotSnapshot := mkSnap {
  snapRole : SlotRole;
  snapSource : DiscoverySource;
  snapState : VerificationState
}.
(** What [IterateSnapshots] shows of an entry. *)
Record deviceSnapshot := mkDevice {
  devManufacturer : string;
  devSerial : string;
  devAddresses : list byte
}.

(** The operations the table and the inserter call.  [LookupEntry] is
    [Lookup] with [PrimaryDisplayAddress] of the entry; [AliasAddresses]
    also says whether it succeeded. *)
Class Registry := {
  DeviceRegistry : Type;
  SlotPtr : Type;
  LookupSlotSnapshot : DeviceRegistry -> byte -> option slotSnapshot;
  LookupSlot : DeviceRegistry -> byte -> option SlotPtr;
  LookupEntry : DeviceRegistry -> byte -> option byte;
  RegisterPassiveObserved : byte -> SlotRole -> time -> DeviceRegistry -> DeviceRegistry;
  AliasAddresses : byte -> byte -> DeviceRegistry -> DeviceRegistry * bool;
  Entries : DeviceRegistry -> list deviceSnapshot
}.

(** What the inserter relies on: a registration creates the slot, and
    neither a registration nor an alias removes one. *)
Class RegistryLaws (R : Registry) : Prop := {
  register_creates a role t r : is_Some (LookupSlotSnapshot (RegisterPassiveObserved a role t r) a);
  register_keeps a role t r b : is_Some (LookupSlotSnapshot r b) ->
    is_Some (LookupSlotSnapshot (RegisterPassiveObserved a role t r) b);
  alias_keeps a c r b : is_Some (LookupSlotSnapshot r b) -> is_Some (LookupSlotSnapshot (fst (AliasAddresses a c r)) b)
}.

Section Table.
Context {P : EbusProtocol} {S : StandardTable} {R : Registry}.

(** ** State *)

(** [AddressSlot]. *)
Record AddressSlot := mkSlot {
  Addr : byte;
  SRole : string;
  SDiscoverySource : string;
  SVerificationState : string;
  PriorityTier : string;
  FreeUse : bool;
  RegistrySlot : option SlotPtr
}.

(** [AddressTable]. *)
Record table := mkTable {
  reg : DeviceRegistry;
  slots : gmap Z AddressSlot
}.
Definition NewAddressTable (r : DeviceRegistry) : table := mkTable r ∅.

(** ** The table *)

(** [canonicalSlotMetadata]. *)
Definition canonicalSlotMetadata (addr : byte) : string * bool :=
  match (if IsCanonicalSource addr then Some addr else SourceOfCompanion addr) with
  | None => (EmptyString, false)
  | Some source =>
      match SourceTier source with
      | None => (EmptyString, false)
      | Some tier => (tier, IsFreeUseSource source)
      end
  end.

(** [projectDiscoverySourceLabel] and [projectVerificationStateLabel]. *)
Definition projectDiscoverySourceLabel (s : DiscoverySource) : string :=
  match s with
  | DiscoverySourcePassiveObserved => "passive_observed"
  | DiscoverySourceStaticSeed => "static_seed"
  | DiscoverySourceActiveConfirmed => "active_confirmed"
  | DiscoverySourceUnknown => ""
  end.
Definition projectVerificationStateLabel (s : VerificationState) : string :=
  match s with
  | VerificationStateCandidate => "candidate"
  | VerificationStateCorroborated => "corroborated"
  | VerificationStateIdentityConfirmed => "identity_confirmed"
  | VerificationStateUnknown => ""
  end.

(** [AddressTable.Lookup]. *)
Definition Lookup (t : table) (addr : byte) : option AddressSlot :=
  match slots t !! addr with
  | Some cached =>
      match LookupSlotSnapshot (reg t) addr with
      | Some snap =>
          Some (mkSlot (Addr cached) (SRole cached) (projectDiscoverySourceLabel (snapSource snap))
            (projectVerificationStateLabel (snapState snap)) (PriorityTier cached) (FreeUse cached) (RegistrySlot cached))
      | None => Some cached
      end
  | None =>
      match LookupSlotSnapshot (reg t) addr with
      | Some snap =>
          let role := match snapRole snap with
                      | SlotRoleMaster => "initiator"
                      | SlotRoleSlave => "target"
                      | SlotRoleUnknown => ""
                      end%string in
          let '(tier, free) := canonicalSlotMetadata addr in
          Some (mkSlot addr role (projectDiscoverySourceLabel (snapSource snap))
            (projectVerificationStateLabel (snapState snap)) tier free (LookupSlot (reg t) addr))
      | None => None
      end
  end.

(** [CanonicalAddressView]. *)
Record CanonicalAddressView := mkView {
  ViewAddress : byte;
  ViewRole : string;
  PeerAddress : byte;
  ViewTier : string;
  ViewFreeUse : bool;
  ViewDescription : string;
  Observed : bool;
  ViewSource : string;
  ViewState : string
}.
Definition orElse (s d : string) : string := if String.eqb s EmptyString then d else s.
(** [canonicalAddressView]. *)
Definition canonicalAddressView (t : table) (addr : byte) (role : string) (peer : byte) (desc tier : string) (free : bool)
    : CanonicalAddressView :=
  match Lookup t addr with
  | Some slot =>
      mkView addr role peer tier free desc true (orElse (SDiscoverySource slot) "never_observed")
        (orElse (SVerificationState slot) "never_observed")
  | None => mkView addr role peer tier free desc false "never_observed" "never_observed"
  end.
(** [CanonicalAddressTableSnapshot]. *)
Definition CanonicalAddressTableSnapshot (t : table) : list CanonicalAddressView :=
  flat_map (fun row =>
    [canonicalAddressView t (rowSource row) "initiator" (rowCompanion row) (rowDescription row) (rowPriority row) (rowFreeUse row);
     canonicalAddressView t (rowCompanion row) "target" (rowSource row) (rowDescription row) (rowPriority row) (rowFreeUse row)])
    SourceAddressTableRows.

(** ** The inserter *)

(** What the inserter does to the outside. *)
Inductive call :=
| CObserve (addr : byte) (observedAt : time)
| CRegister (addr : byte) (role : string) (observedAt : time)
| CAlias (addr companion : byte) (ok : bool)
| CRefresh
| CProbe (addr : byte).

(** [AddressTableInserter] with its table: the configured sources, the
    observation counters and which hooks are wired. *)
Record inserter := mkInserter {
  tbl : table;
  ScanSource : byte;
  hasAdmittedSource : bool;
  observationsByAddr : gmap Z Z;
  hasRefresh : bool;
  hasProbe : bool;
  hasObserver : bool
}.
Definition NewAddressTableInserter (t : table) (scanSource : byte) (hasAdmitted : bool) : inserter :=
  mkInserter t scanSource hasAdmitted ∅ false false false.
Definition SetEnrichmentRefreshFn (b : bool) (i : inserter) : inserter :=
  mkInserter (tbl i) (ScanSource i) (hasAdmittedSource i) (observationsByAddr i) b (hasProbe i) (hasObserver i).
Definition SetEnrichmentIdentityProbeFn (b : bool) (i : inserter) : inserter :=
  mkInserter (tbl i) (ScanSource i) (hasAdmittedSource i) (observationsByAddr i) (hasRefresh i) b (hasObserver i).
Definition SetRuntimeStateObserver (b : bool) (i : inserter) : inserter :=
  mkInserter (tbl i) (ScanSource i) (hasAdmittedSource i) (observationsByAddr i) (hasRefresh i) (hasProbe i) b.
Definition set_tbl (t : table) (i : inserter) : inserter :=
  mkInserter t (ScanSource i) (hasAdmittedSource i) (observationsByAddr i) (hasRefresh i) (hasProbe i) (hasObserver i).
Definition set_observations (o : gmap Z Z) (i : inserter) : inserter :=
  mkInserter (tbl i) (ScanSource i) (hasAdmittedSource i) o (hasRefresh i) (hasProbe i) (hasObserver i).

(** [BackfillUnidentifiedAddresses]. *)
Definition needsProbe (d : deviceSnapshot) : bool :=
  String.eqb (devManufacturer d) EmptyString
  || (String.eqb (devManufacturer d) "Vaillant" && String.eqb (devSerial d) EmptyString).
Definition BackfillUnidentifiedAddresses (i : inserter) : list call :=
  if hasProbe i then
    flat_map (fun d => if needsProbe d then CProbe <$> devAddresses d else []) (Entries (reg (tbl i)))
  else [].

(** [admittedSource]; [now] is what [cfg.AdmittedSource] would return. *)
Definition admittedSource (now : byte) (i : inserter) : byte := if hasAdmittedSource i then now else ScanSource i.

(** [maybeAliasCanonicalCompanion]. *)
Definition maybeAliasCanonicalCompanion (addr : byte) (i : inserter) : inserter * list call :=
  match Companion addr with
  | None => (i, [])
  | Some companion =>
      match LookupEntry (reg (tbl i)) companion with
      | None => (i, [])
      | Some entry =>
          if bool_decide (LookupEntry (reg (tbl i)) addr = Some entry) then (i, [])
          else
            let '(r, ok) := AliasAddresses addr companion (reg (tbl i)) in
            (set_tbl (mkTable r (slots (tbl i))) i, [CAlias addr companion ok])
      end
  end.

Definition slotRole (role : string) : SlotRole :=
  if String.eqb role "initiator" then SlotRoleMaster
  else if String.eqb role "target" then SlotRoleSlave else SlotRoleUnknown.

(** [maybeInsert]. *)
Definition maybeInsert (addr : byte) (role : string) (admittedSrc : byte) (observedAt : time) (i : inserter)
    : inserter * list call :=
  if (addr =? admittedSrc) || (addr =? 0xFE) then (i, [])
  else
    let notify := if hasObserver i then [CObserve addr observedAt] else [] in
    let probe := if hasProbe i then [CProbe addr] else [] in
    match Lookup (tbl i) addr with
    | Some _ =>
        let '(i, alias) := maybeAliasCanonicalCompanion addr i in
        (i, notify ++ alias ++ probe)
    | None =>
        let r := RegisterPassiveObserved addr (slotRole role) observedAt (reg (tbl i)) in
        let '(tier, free) := canonicalSlotMetadata addr in
        let slot := mkSlot addr role "passive_observed" "corroborated" tier free (LookupSlot r addr) in
        let i := set_tbl (mkTable r (<[addr := slot]> (slots (tbl i)))) i in
        let refresh := if hasRefresh i then [CRefresh] else [] in
        let '(i, alias) := maybeAliasCanonicalCompanion addr i in
        (i, notify ++ CRegister addr role observedAt :: refresh ++ alias ++ probe)
    end.

(** [observation.PositiveACKCount++]. *)
Definition observations (addr : byte) (i : inserter) : Z := default 0 (observationsByAddr i !! addr).
Definition observe (addr : byte) (i : inserter) : inserter :=
  set_observations (<[addr := observations addr i + 1]> (observationsByAddr i)) i.

(** The companion of a source, as a target. *)
Definition insertCompanion (src admittedSrc : byte) (t : time) (i : inserter) : inserter * list call :=
  match Companion src with
  | Some companion => maybeInsert companion "target" admittedSrc t i
  | None => (i, [])
  end.

(** [handleBroadcastFrameEvent]. *)
Definition handleBroadcastFrameEvent (admittedSrc : byte) (e : PassiveClassifiedEvent) (i : inserter)
    : inserter * list call :=
  if negb (HasRequest e) then (i, [])
  else if negb (bool_decide (EvFrameType e = FrameTypeBroadcast)) then (i, [])
  else if negb (Target (EvRequest e) =? AddressBroadcast) then (i, [])
  else
    let src := Source (EvRequest e) in
    if src =? admittedSrc then (i, [])
    else if (src =? 0xFE) || (src =? 0xAA) then (i, [])
    else if negb (IsCanonicalSource src) then (i, [])
    else
      let i := observe src i in
      if observations src i <? 2 then (i, [])
      else
        let '(i, c1) := maybeInsert src "initiator" admittedSrc (EvObservedAt e) i in
        let '(i, c2) := insertCompanion src admittedSrc (EvObservedAt e) i in
        (i, c1 ++ c2).

(** [OnPassiveClassifiedEvent], after the checks of a transaction. *)
Definition insertTransaction (admittedSrc : byte) (e : PassiveClassifiedEvent) (i : inserter) : inserter * list call :=
  let src := Source (EvRequest e) in
  let t := EvObservedAt e in
  if src =? 0xFF then maybeInsert 0xFF "initiator" admittedSrc t i
  else if src =? admittedSrc then (i, [])
  else
    let '(i, c1) := maybeInsert src "initiator" admittedSrc t i in
    let '(i, c2) := maybeInsert (Target (EvRequest e)) "target" admittedSrc t i in
    let i := observe src i in
    if observations src i <? 2 then (i, c1 ++ c2)
    else
      let '(i, c3) := insertCompanion src admittedSrc t i in
      (i, c1 ++ c2 ++ c3).

(** [OnPassiveClassifiedEvent]; [now] is the admitted source of the moment. *)
Definition OnPassiveClassifiedEvent (now : byte) (e : PassiveClassifiedEvent) (i : inserter) : inserter * list call :=
  let admittedSrc := admittedSource now i in
  match EvKind e with
  | PassiveClassifiedEventBroadcastFrame => handleBroadcastFrameEvent admittedSrc e i
  | PassiveClassifiedEventTransaction =>
      let corr := ACKCorrelation e in
      if negb (CompleteRequest corr) || negb (correlatorM2A corr) then (i, [])
      else if negb (ackAtRequestACK corr) then (i, [])
      else if ackByte corr =? SymbolNack then (i, [])
      else if negb (ackByte corr =? SymbolAck) then (i, [])
      else
        insertTransaction admittedSrc e i
  | _ => (i, [])
  end.

(** A run: each event with the source admitted at that moment and the
    registry as others left it. *)
Definition input : Type := byte * (DeviceRegistry -> DeviceRegistry) * PassiveClassifiedEvent.
Definition withRegistry (f : DeviceRegistry -> DeviceRegistry) (i : inserter) : inserter :=
  set_tbl (mkTable (f (reg (tbl i))) (slots (tbl i))) i.
Fixpoint feed (ins : list input) (i : inserter) : inserter * list (list call) :=
  match ins with
  | [] => (i, [])
  | (now, others, e) :: ins =>
      let '(i, cs) := OnPassiveClassifiedEvent now e (withRegistry others i) in
      let '(i, css) := feed ins i in
      (i, cs :: css)
  end.
End Table.
End AddressTable.
