(* ===== verification/AddressTableSpec.v ===== *)
(** * Correctness of the address table

    Every address the inserter registers is justified by telegrams that were
    on the wire, and every address that completed transactions name gets a
    slot and keeps it. *)

From S2P Require Import Prelude Ebus PassiveTap Reconstructor ReconstructorInv AddressTable.

Local Open Scope Z_scope.

Module AddressTableSpec.
Import PassiveTap Reconstructor ReconstructorInv AddressTable.

Section Spec.
Context {P : EbusProtocol} {S : StandardTable} {R : Registry}.

(** ** Which events count *)

(** A completed transaction whose request was acknowledged. *)
Definition acked (e : PassiveClassifiedEvent) : bool :=
  match EvKind e with
  | PassiveClassifiedEventTransaction =>
      let c := ACKCorrelation e in
      CompleteRequest c && correlatorM2A c && ackAtRequestACK c && negb (ackByte c =? SymbolNack) && (ackByte c =? SymbolAck)
  | _ => false
  end.
(** A broadcast of a canonical source. *)
Definition canonicalBroadcast (e : PassiveClassifiedEvent) : bool :=
  match EvKind e with
  | PassiveClassifiedEventBroadcastFrame =>
      let src := Source (EvRequest e) in
      HasRequest e && bool_decide (EvFrameType e = FrameTypeBroadcast) && (Target (EvRequest e) =? AddressBroadcast)
      && negb (src =? 0xFE) && negb (src =? 0xAA) && IsCanonicalSource src
  | _ => false
  end.
(** The events that are an observation of their source. *)
Definition counts (adm : byte) (e : PassiveClassifiedEvent) : bool :=
  negb (Source (EvRequest e) =? adm) && (canonicalBroadcast e || (acked e && negb (Source (EvRequest e) =? 0xFF))).

(** ** One insertion *)

(** What a call of [maybeInsert] leaves: counters and configuration alone. *)
Definition sameCounters (i i' : inserter) : Prop :=
  observationsByAddr i' = observationsByAddr i /\ ScanSource i' = ScanSource i /\ hasAdmittedSource i' = hasAdmittedSource i.

Lemma alias_same a i : sameCounters i (fst (maybeAliasCanonicalCompanion a i)).
Proof. unfold maybeAliasCanonicalCompanion. repeat case_match; by repeat split. Qed.

Lemma alias_calls a i b role t : CRegister b role t ∉ snd (maybeAliasCanonicalCompanion a i).
Proof.
  unfold maybeAliasCanonicalCompanion. repeat case_match; cbn; try apply not_elem_of_nil.
  by intros [? | []%elem_of_nil]%elem_of_cons.
Qed.

Lemma insert_same a role adm t i : sameCounters i (fst (maybeInsert a role adm t i)).
Proof.
  unfold maybeInsert. case_match; [by repeat split|]. case_match.
  - pose proof (alias_same a i) as H'. by destruct (maybeAliasCanonicalCompanion a i).
  - destruct (canonicalSlotMetadata a) as [tier free]. cbv zeta.
    match goal with |- context [maybeAliasCanonicalCompanion a ?j] => pose proof (alias_same a j) as H' end.
    destruct (maybeAliasCanonicalCompanion a _). by destruct H' as (? & ? & ?).
Qed.

Lemma companion_same src adm t i : sameCounters i (fst (insertCompanion src adm t i)).
Proof. unfold insertCompanion. case_match; [apply insert_same|by repeat split]. Qed.

Lemma insert_calls a role adm t i b role' t' :
  CRegister b role' t' ∈ snd (maybeInsert a role adm t i) ->
  b = a /\ role' = role /\ t' = t /\ a <> adm /\ a <> 0xFE /\ Lookup (tbl i) a = None.
Proof.
  assert (Hnot : forall (h : bool) (c : call), (forall x y z, c <> CRegister x y z) -> CRegister b role' t' ∉ (if h then [c] else [])).
  { intros [] c Hc; [|apply not_elem_of_nil]. intros [Hc'|[]%elem_of_nil]%elem_of_cons. by eapply Hc. }
  unfold maybeInsert. case_match eqn:Hg; [by intros ?%elem_of_nil|]. bool_facts. case_match eqn:Hl.
  - pose proof (alias_calls a i b role' t') as Ha. destruct (maybeAliasCanonicalCompanion a i) as [i' al]. cbn in *.
    rewrite !elem_of_app. intros [Hin|[Hin|Hin]]; exfalso; [by eapply Hnot in Hin|done|by eapply Hnot in Hin].
  - destruct (canonicalSlotMetadata a) as [tier free]. cbv zeta.
    match goal with |- context [maybeAliasCanonicalCompanion a ?j] => pose proof (alias_calls a j b role' t') as Ha end.
    destruct (maybeAliasCanonicalCompanion a _) as [i' al]. cbn in *. rewrite elem_of_app, elem_of_cons, !elem_of_app.
    intros [Hin|[Heq|[Hin|[Hin|Hin]]]]; try (exfalso; first [by eapply Hnot in Hin | done]).
    injection Heq as -> -> ->. by repeat split.
Qed.

Lemma companion_calls src adm t i b role' t' :
  CRegister b role' t' ∈ snd (insertCompanion src adm t i) ->
  Companion src = Some b /\ role' = "target"%string /\ t' = t /\ b <> adm /\ b <> 0xFE.
Proof.
  unfold insertCompanion. destruct (Companion src) as [c|]; [|by intros ?%elem_of_nil].
  intros (-> & -> & -> & ? & ? & _)%insert_calls. done.
Qed.

(** ** One event *)

Lemma observations_observe a b i : observations b (observe a i) = observations b i + (if b =? a then 1 else 0).
Proof.
  unfold observations, observe. cbn. destruct (Z.eqb_spec b a) as [->|Hne].
  - by rewrite lookup_insert_eq.
  - rewrite lookup_insert_ne by done. lia.
Qed.

Lemma observations_same b i i' : sameCounters i i' -> observations b i' = observations b i.
Proof. intros [E _]. unfold observations. by rewrite E. Qed.

Definition config (i i' : inserter) : Prop := ScanSource i' = ScanSource i /\ hasAdmittedSource i' = hasAdmittedSource i.

Lemma sameCounters_trans i j k : sameCounters i j -> sameCounters j k -> sameCounters i k.
Proof. intros (? & ? & ?) (? & ? & ?). repeat split; congruence. Qed.

(** The two outcomes of an observation that counts and of one that does not. *)
Definition effect (adm : byte) (e : PassiveClassifiedEvent) (i : inserter) (res : inserter * list call) : Prop :=
  config i (fst res) /\
  (forall b, observations b (fst res) = observations b i + (if counts adm e && (b =? Source (EvRequest e)) then 1 else 0)) /\
  (forall b role t, CRegister b role t ∈ snd res -> t = EvObservedAt e /\ b <> adm /\ b <> 0xFE /\
     ((acked e = true /\ (b = Source (EvRequest e) \/ b = Target (EvRequest e))) \/
      (counts adm e = true /\ 1 <= observations (Source (EvRequest e)) i /\
       (b = Source (EvRequest e) \/ Companion (Source (EvRequest e)) = Some b)))).

Lemma effect_none adm e i : counts adm e = false -> effect adm e i (i, []).
Proof.
  intros Hc. split; [done|]. split; [intros b; rewrite Hc; cbn; lia|]. by intros ? ? ? ?%elem_of_nil.
Qed.

Lemma broadcast_effect adm e i :
  EvKind e = PassiveClassifiedEventBroadcastFrame -> effect adm e i (handleBroadcastFrameEvent adm e i).
Proof.
  intros Hk. assert (Hna : acked e = false) by (unfold acked; by rewrite Hk).
  assert (Hcb : counts adm e = negb (Source (EvRequest e) =? adm) && canonicalBroadcast e).
  { unfold counts. rewrite Hna. cbn. by rewrite orb_false_r. }
  unfold canonicalBroadcast in Hcb. rewrite Hk in Hcb. unfold handleBroadcastFrameEvent.
  destruct (HasRequest e); cbn [negb] in *; [|apply effect_none; rewrite Hcb; apply andb_false_r].
  destruct (bool_decide (EvFrameType e = FrameTypeBroadcast)); cbn [negb] in *; [|apply effect_none; rewrite Hcb; apply andb_false_r].
  destruct (Target (EvRequest e) =? AddressBroadcast); cbn [negb] in *; [|apply effect_none; rewrite Hcb; apply andb_false_r].
  set (src := Source (EvRequest e)) in *. destruct (Z.eqb_spec src adm) as [Ha|Ha]; cbn [negb] in *; [by apply effect_none|].
  destruct (src =? 0xFE), (src =? 0xAA); cbn [orb negb andb] in *; try (by apply effect_none).
  destruct (IsCanonicalSource src); cbn [negb] in *; [|by apply effect_none]. cbn in Hcb.
  pose proof (fun b => observations_observe src b i) as Ho. rewrite (Ho src), Z.eqb_refl.
  destruct (Z.ltb_spec (observations src i + 1) 2) as [Hlt|Hge].
  - split; [done|]. split; [intros b; rewrite Hcb; cbn; apply Ho|]. by intros ? ? ? ?%elem_of_nil.
  - pose proof (insert_same src "initiator" adm (EvObservedAt e) (observe src i)) as H1.
    pose proof (insert_calls src "initiator" adm (EvObservedAt e) (observe src i)) as C1.
    destruct (maybeInsert src "initiator" adm (EvObservedAt e) (observe src i)) as [i1 c1]. cbn [fst snd] in H1, C1.
    pose proof (companion_same src adm (EvObservedAt e) i1) as H2. pose proof (companion_calls src adm (EvObservedAt e) i1) as C2.
    destruct (insertCompanion src adm (EvObservedAt e) i1) as [i2 c2]. cbn [fst snd] in H2, C2.
    pose proof (sameCounters_trans _ _ _ H1 H2) as H3. split; [apply H3|].
    split; [intros b; rewrite Hcb; cbn; rewrite (observations_same b _ _ H3); apply Ho|]. cbn [snd].
    intros b role t [Hin|Hin]%elem_of_app.
    + destruct (C1 _ _ _ Hin) as (-> & -> & -> & ? & ? & _). do 3 (split; [done|]). right. split; [done|]. split; [fold src; lia|by left].
    + destruct (C2 _ _ _ Hin) as (Hc & -> & -> & ? & ?). do 3 (split; [done|]). right. split; [done|]. split; [fold src; lia|by right].
Qed.

(** The tail of a transaction event. *)
Lemma insertTransaction_effect adm e i :
  EvKind e = PassiveClassifiedEventTransaction -> acked e = true -> effect adm e i (insertTransaction adm e i).
Proof.
  intros Hk Hac. assert (Hnb : canonicalBroadcast e = false) by (unfold canonicalBroadcast; by rewrite Hk).
  assert (Hcb : counts adm e = negb (Source (EvRequest e) =? adm) && negb (Source (EvRequest e) =? 0xFF)).
  { unfold counts. by rewrite Hnb, Hac. }
  unfold insertTransaction. cbv zeta. set (src := Source (EvRequest e)) in *. set (t := EvObservedAt e).
  destruct (Z.eqb_spec src 0xFF) as [Hff|Hff]; cbn [negb] in Hcb.
  { pose proof (insert_same 0xFF "initiator" adm t i) as H1. pose proof (insert_calls 0xFF "initiator" adm t i) as C1.
    split; [apply H1|]. rewrite Hcb, andb_false_r. cbn [andb].
    split; [intros b; rewrite (observations_same b _ _ H1); lia|]. intros b role t' Hin.
    destruct (C1 _ _ _ Hin) as (-> & -> & -> & ? & ? & _). do 3 (split; [done|]). left. split; [done|]. by left. }
  destruct (Z.eqb_spec src adm) as [Ha|Ha]; cbn [negb andb] in Hcb; [by apply effect_none|].
  pose proof (insert_same src "initiator" adm t i) as H1. pose proof (insert_calls src "initiator" adm t i) as C1.
  destruct (maybeInsert src "initiator" adm t i) as [i1 c1]. cbn [fst snd] in H1, C1.
  pose proof (insert_same (Target (EvRequest e)) "target" adm t i1) as H2.
  pose proof (insert_calls (Target (EvRequest e)) "target" adm t i1) as C2.
  destruct (maybeInsert (Target (EvRequest e)) "target" adm t i1) as [i2 c2]. cbn [fst snd] in H2, C2.
  pose proof (sameCounters_trans _ _ _ H1 H2) as H12.
  pose proof (fun b => observations_observe src b i2) as Ho.
  assert (Hb : forall b, observations b (observe src i2) = observations b i + (if b =? src then 1 else 0)).
  { intros b. by rewrite Ho, (observations_same b _ _ H12). }
  assert (Hin12 : forall b role t', CRegister b role t' ∈ c1 ++ c2 -> t' = t /\ b <> adm /\ b <> 0xFE /\
            (b = src \/ b = Target (EvRequest e))).
  { intros b role t' [Hin|Hin]%elem_of_app;
      [destruct (C1 _ _ _ Hin) as (-> & _ & -> & ? & ? & _)|destruct (C2 _ _ _ Hin) as (-> & _ & -> & ? & ? & _)]; auto. }
  rewrite (Hb src), Z.eqb_refl. destruct (Z.ltb_spec (observations src i + 1) 2) as [Hlt|Hge].
  - split; [apply H12|]. rewrite Hcb. split; [exact Hb|]. intros b role t' Hin. destruct (Hin12 _ _ _ Hin) as (? & ? & ? & ?). auto 10.
  - pose proof (companion_same src adm t (observe src i2)) as H3. pose proof (companion_calls src adm t (observe src i2)) as C3.
    destruct (insertCompanion src adm t (observe src i2)) as [i3 c3]. cbn [fst snd] in H3, C3.
    split; [destruct H12 as (_ & ? & ?), H3 as (_ & ? & ?); split; cbn in *; congruence|]. rewrite Hcb.
    split; [intros b; cbn [fst]; rewrite (observations_same b _ _ H3); apply Hb|]. cbn [snd]. intros b role t'.
    rewrite app_assoc. intros [Hin|Hin]%elem_of_app.
    + destruct (Hin12 _ _ _ Hin) as (? & ? & ? & ?). auto 10.
    + destruct (C3 _ _ _ Hin) as (Hc & -> & -> & ? & ?). do 3 (split; [done|]). right. split; [done|]. split; [fold src; lia|by right].
Qed.

Lemma event_effect now e i : effect (admittedSource now i) e i (OnPassiveClassifiedEvent now e i).
Proof.
  set (adm := admittedSource now i). unfold OnPassiveClassifiedEvent. cbv zeta. fold adm.
  destruct (EvKind e) eqn:Hk; try (apply effect_none; unfold counts, canonicalBroadcast, acked; rewrite Hk; apply andb_false_r).
  - by apply broadcast_effect.
  - assert (Hac : acked e = CompleteRequest (ACKCorrelation e) && correlatorM2A (ACKCorrelation e) && ackAtRequestACK (ACKCorrelation e)
       && negb (ackByte (ACKCorrelation e) =? SymbolNack) && (ackByte (ACKCorrelation e) =? SymbolAck)) by (unfold acked; by rewrite Hk).
    assert (Hn : acked e = false -> counts adm e = false).
    { intros Hf. unfold counts, canonicalBroadcast. rewrite Hk, Hf. apply andb_false_r. }
    destruct (CompleteRequest _), (correlatorM2A _), (ackAtRequestACK _), (ackByte _ =? SymbolNack), (ackByte _ =? SymbolAck);
      cbn in Hac |- *; first [by apply effect_none, Hn | by apply insertTransaction_effect].
Qed.
(** ** Runs *)

Lemma feed_app l1 l2 i :
  feed (l1 ++ l2) i = (fst (feed l2 (fst (feed l1 i))), snd (feed l1 i) ++ snd (feed l2 (fst (feed l1 i)))).
Proof.
  revert i. induction l1 as [|[[now f] e] l1 IH]; intros i; cbn; [by destruct (feed l2 i)|].
  destruct (OnPassiveClassifiedEvent now e (withRegistry f i)) as [i1 cs]. rewrite IH.
  by destruct (feed l1 i1) as [i2 css].
Qed.

Lemma config_admitted now i i' : config i i' -> admittedSource now i' = admittedSource now i.
Proof. intros [E1 E2]. unfold admittedSource. by rewrite E1, E2. Qed.
Lemma config_trans i j k : config i j -> config j k -> config i k.
Proof. intros [] []. split; congruence. Qed.

(** The inputs that are an observation of source [a]. *)
Definition countsFor (i : inserter) (a : byte) (x : input) : bool :=
  let '(now, _, e) := x in counts (admittedSource now i) e && (a =? Source (EvRequest e)).

Lemma feed_counts ins i :
  config i (fst (feed ins i)) /\
  forall a, observations a (fst (feed ins i)) = observations a i + Z.of_nat (countb (countsFor i a) ins).
Proof.
  revert i. induction ins as [|[[now f] e] ins IH]; intros i; [split; [done|]; cbn; intros a; lia|].
  cbn [feed]. destruct (event_effect now e (withRegistry f i)) as (Hc & Ho & _).
  destruct (OnPassiveClassifiedEvent now e (withRegistry f i)) as [i1 cs]. cbn [fst snd] in Hc, Ho.
  destruct (IH i1) as [Hc2 Ho2]. destruct (feed ins i1) as [i2 css]. cbn [fst snd] in *.
  assert (Hci : config i i1) by done. split; [by eapply config_trans|]. intros a. rewrite Ho2, Ho.
  assert (Hext : countb (countsFor i1 a) ins = countb (countsFor i a) ins).
  { unfold countb. f_equal. apply List.filter_ext. intros [[now' f'] e']. cbn. by rewrite (config_admitted _ _ _ Hci). }
  rewrite Hext. unfold countb. cbn [List.filter countsFor].
  change (observations a (withRegistry f i)) with (observations a i).
  change (admittedSource now (withRegistry f i)) with (admittedSource now i).
  destruct (counts (admittedSource now i) e && (a =? Source (EvRequest e))); cbn [length]; lia.
Qed.

Lemma feed_registered ins i cs b role t :
  cs ∈ snd (feed ins i) -> CRegister b role t ∈ cs ->
  exists l1 now f e l2, ins = l1 ++ (now, f, e) :: l2 /\ t = EvObservedAt e /\ b <> admittedSource now i /\ b <> 0xFE /\
    ((acked e = true /\ (b = Source (EvRequest e) \/ b = Target (EvRequest e))) \/
     (counts (admittedSource now i) e = true /\
      1 <= observations (Source (EvRequest e)) i + Z.of_nat (countb (countsFor i (Source (EvRequest e))) l1) /\
      (b = Source (EvRequest e) \/ Companion (Source (EvRequest e)) = Some b))).
Proof.
  intros Hcs Hin. apply list_elem_of_lookup in Hcs as [k Hk].
  assert (Hsplit : forall ins i k, snd (feed ins i) !! k = Some cs -> exists l1 now f e l2, ins = l1 ++ (now, f, e) :: l2 /\
            cs = snd (OnPassiveClassifiedEvent now e (withRegistry f (fst (feed l1 i))))).
  { clear. induction ins as [|[[now f] e] ins IH]; intros i k; cbn; [done|].
    destruct (OnPassiveClassifiedEvent now e (withRegistry f i)) as [i1 c1] eqn:He.
    specialize (IH i1). destruct (feed ins i1) as [i2 css] eqn:Hf. cbn in IH |- *. destruct k as [|k]; cbn.
    - intros [= <-]. exists [], now, f, e, ins. cbn. by rewrite He.
    - intros Hk. destruct (IH _ Hk) as (l1 & now' & f' & e' & l2 & -> & ->).
      exists ((now, f, e) :: l1), now', f', e', l2. split; [done|]. cbn. rewrite He. by destruct (feed l1 i1). }
  destruct (Hsplit _ _ _ Hk) as (l1 & now & f & e & l2 & -> & ->). exists l1, now, f, e, l2. split; [done|].
  destruct (event_effect now e (withRegistry f (fst (feed l1 i)))) as (_ & _ & Hr).
  destruct (feed_counts l1 i) as [Hc Ho]. specialize (Hr _ _ _ Hin).
  change (observations ?a (withRegistry f ?j)) with (observations a j) in Hr.
  change (admittedSource now (withRegistry f ?j)) with (admittedSource now j) in Hr.
  rewrite (config_admitted _ _ _ Hc), Ho in Hr. exact Hr.
Qed.

Lemma countb_witness {A} (p : A -> bool) l : (1 <= countb p l)%nat -> exists l1 x l2, l = l1 ++ x :: l2 /\ p x = true.
Proof.
  induction l as [|x l IH]; cbn; [lia|]. destruct (p x) eqn:Hp; [intros _; by exists [], x, l|].
  intros H. destruct (IH H) as (l1 & y & l2 & -> & Hy). by exists (x :: l1), y, l2.
Qed.

(** The kind of an event that counts. *)
Lemma acked_kind e : acked e = true -> EvKind e = PassiveClassifiedEventTransaction.
Proof. unfold acked. by destruct (EvKind e). Qed.
Lemma counts_kind adm e :
  counts adm e = true -> Source (EvRequest e) <> adm /\
    (EvKind e = PassiveClassifiedEventTransaction \/
     (EvKind e = PassiveClassifiedEventBroadcastFrame /\ IsCanonicalSource (Source (EvRequest e)) = true)).
Proof.
  unfold counts. rewrite andb_true_iff, orb_true_iff, negb_true_iff, Z.eqb_neq. intros [Hne [H|H]]; (split; [done|]).
  - right. unfold canonicalBroadcast in H. destruct (EvKind e); try done. bool_facts. done.
  - left. bool_facts. by apply acked_kind.
Qed.
End Spec.

(** ** From the wire to the registry *)

Section Wire.
Context {P : EbusProtocol} {L : EbusLaws P} {S : StandardTable} {R : Registry}.

(** C8: No phantom devices.  When the inserter is fed what the reconstructor
    makes of any stream of tap events, whatever the admitted source is at
    each moment and whatever others do to the registry in between, every
    address it registers is neither the admitted source nor the broadcast
    address, and is justified by telegrams that were on the wire symbol by
    symbol: it is the source or the target of a complete acknowledged
    transaction, or it is the source, or the standard companion of the
    source, of a transaction or of a canonical source's broadcast, of which
    an earlier such telegram had been seen too. *)
Theorem no_phantom_slots (wd : time) (own : option (bool * byte)) (es : list PassiveTapEvent) (ins : list input)
    (i : inserter) (cs : list call) (a : byte) (role : string) (t : time) :
  Forall tap_ok es -> ins.*2 = snd (runTap es (newReconstructor wd own)) -> observationsByAddr i = ∅ ->
  cs ∈ snd (feed ins i) -> CRegister a role t ∈ cs ->
  exists l1 now f e l2 es1, ins = l1 ++ (now, f, e) :: l2 /\ es1 `prefix_of` es /\ event_ok (observed es1) e /\
    a <> admittedSource now i /\ a <> 0xFE /\
    ((EvKind e = PassiveClassifiedEventTransaction /\ (a = Source (EvRequest e) \/ a = Target (EvRequest e))) \/
     ((a = Source (EvRequest e) \/ Companion (Source (EvRequest e)) = Some a) /\
      exists now0 f0 e0 es0, (now0, f0, e0) ∈ l1 /\ es0 `prefix_of` es /\ event_ok (observed es0) e0 /\
        Source (EvRequest e0) = Source (EvRequest e) /\
        Forall (fun x => EvKind x = PassiveClassifiedEventTransaction \/
          (EvKind x = PassiveClassifiedEventBroadcastFrame /\ IsCanonicalSource (Source (EvRequest e)) = true)) [e0; e])).
Proof.
  intros Hes Hins Hobs Hcs Hin. destruct (run_ok es (newReconstructor wd own) []) as (_ & Hok & _); [done|done|].
  assert (Hev : forall x, x ∈ ins -> exists es1, es1 `prefix_of` es /\ event_ok (observed es1) x.2).
  { intros x Hx. apply Hok. rewrite <- Hins. apply list_elem_of_fmap. eauto. }
  destruct (feed_registered ins i cs a role t Hcs Hin) as (l1 & now & f & e & l2 & -> & -> & Hna & Hnf & Hj).
  destruct (Hev (now, f, e)) as (es1 & Hp1 & He1); [set_solver|]. exists l1, now, f, e, l2, es1. do 5 (split; [done|]).
  destruct Hj as [[Hac Ha]|(Hct & Hone & Ha)]; [left; split; [by apply acked_kind|done]|]. right. split; [done|].
  destruct (counts_kind _ _ Hct) as [_ Hk]. assert (Hz : observations (Source (EvRequest e)) i = 0).
  { unfold observations. rewrite Hobs. done. }
  destruct (countb_witness (countsFor i (Source (EvRequest e))) l1) as (m1 & [[now0 f0] e0] & m2 & -> & H0); [lia|].
  cbn in H0. bool_facts. destruct (counts_kind _ _ H) as [_ Hk0].
  destruct (Hev (now0, f0, e0)) as (es0 & Hp0 & He0); [set_solver|].
  exists now0, f0, e0, es0. split; [set_solver|]. do 2 (split; [done|]). split; [congruence|].
  constructor; [|by constructor]. destruct Hk0 as [?|[? ?]]; [by left|right; split; congruence].
Qed.
End Wire.

(** ** Slots are created and stay *)

Section Present.
Context {P : EbusProtocol} {S : StandardTable} {R : Registry} {RL : RegistryLaws R}.

Definition present (a : byte) (i : inserter) : Prop := is_Some (Lookup (tbl i) a).

Lemma present_iff a i : present a i <-> is_Some (slots (tbl i) !! a) \/ is_Some (LookupSlotSnapshot (reg (tbl i)) a).
Proof.
  unfold present, Lookup. destruct (slots (tbl i) !! a) as [c|]; destruct (LookupSlotSnapshot (reg (tbl i)) a) as [sn|];
    try destruct (canonicalSlotMetadata a); split; intros H; eauto; try done; destruct H as [[]|[]]; done.
Qed.

Lemma alias_present a b i : present a i -> present a (fst (maybeAliasCanonicalCompanion b i)).
Proof.
  rewrite !present_iff. unfold maybeAliasCanonicalCompanion. destruct (Companion b) as [c|]; [|done].
  destruct (LookupEntry _ c); [|done]. case_match; [done|].
  pose proof (alias_keeps b c (reg (tbl i)) a) as Hk. destruct (AliasAddresses b c (reg (tbl i))) as [r ok]. cbn in *.
  intros [H'|H']; eauto.
Qed.

Lemma insert_keeps a b role adm t i : present a i -> present a (fst (maybeInsert b role adm t i)).
Proof.
  intros Hp. unfold maybeInsert. case_match; [done|]. case_match.
  - pose proof (alias_present a b i Hp) as H'. by destruct (maybeAliasCanonicalCompanion b i).
  - destruct (canonicalSlotMetadata b) as [tier free]. cbv zeta.
    match goal with |- context [maybeAliasCanonicalCompanion b ?j] => pose proof (alias_present a b j) as H' end.
    destruct (maybeAliasCanonicalCompanion b _) as [i' al]. apply H'. rewrite present_iff in *. cbn.
    destruct Hp as [Hp|Hp]; [left|right; by apply register_keeps].
    destruct (decide (a = b)) as [->|]; [rewrite lookup_insert_eq; eauto|by rewrite lookup_insert_ne].
Qed.

Lemma insert_present a role adm t i : a <> adm -> a <> 0xFE -> present a (fst (maybeInsert a role adm t i)).
Proof.
  intros Ha Hf. unfold maybeInsert. rewrite (proj2 (Z.eqb_neq _ _) Ha), (proj2 (Z.eqb_neq _ _) Hf). cbn [orb].
  destruct (Lookup (tbl i) a) as [sl|] eqn:Hl.
  - pose proof (alias_present a a i) as H'. destruct (maybeAliasCanonicalCompanion a i). apply H'. unfold present. eauto.
  - destruct (canonicalSlotMetadata a) as [tier free]. cbv zeta.
    match goal with |- context [maybeAliasCanonicalCompanion a ?j] => pose proof (alias_present a a j) as H' end.
    destruct (maybeAliasCanonicalCompanion a _) as [i' al]. apply H'. rewrite present_iff. left. cbn. rewrite lookup_insert_eq. eauto.
Qed.

Lemma companion_keeps a src adm t i : present a i -> present a (fst (insertCompanion src adm t i)).
Proof. unfold insertCompanion. case_match; [apply insert_keeps|done]. Qed.
Lemma companion_present a src adm t i :
  Companion src = Some a -> a <> adm -> a <> 0xFE -> present a (fst (insertCompanion src adm t i)).
Proof. intros Hc. unfold insertCompanion. rewrite Hc. apply insert_present. Qed.

(** [nextInsert a]: what the next insertion keeps. *)
Ltac nextInsert a :=
  match goal with
  | |- context [maybeInsert ?b ?r ?m ?t ?j] =>
      pose proof (insert_keeps a b r m t j); pose proof (insert_present b r m t j);
      destruct (maybeInsert b r m t j); cbn [fst] in *
  | |- context [insertCompanion ?b ?m ?t ?j] =>
      pose proof (companion_keeps a b m t j); pose proof (fun a => companion_present a b m t j);
      destruct (insertCompanion b m t j); cbn [fst] in *
  end.

Lemma event_keeps a now e i : present a i -> present a (fst (OnPassiveClassifiedEvent now e i)).
Proof.
  intros Hp. unfold OnPassiveClassifiedEvent, handleBroadcastFrameEvent. cbv zeta.
  assert (Ht : forall adm, present a (fst (insertTransaction adm e i))).
  { intros adm. unfold insertTransaction. cbv zeta. case_match; [by apply insert_keeps|]. case_match; [done|].
    nextInsert a. nextInsert a. case_match; [by auto|]. nextInsert a. auto. }
  destruct (EvKind e); try done;
    repeat (match goal with |- context [if ?b then _ else _] => destruct b end; try done); try apply Ht.
  nextInsert a. nextInsert a. auto.
Qed.

Lemma feed_keeps a ins i :
  Forall (fun x : input => forall r b, is_Some (LookupSlotSnapshot r b) -> is_Some (LookupSlotSnapshot (x.1.2 r) b)) ins ->
  present a i -> present a (fst (feed ins i)).
Proof.
  intros Hk. revert i. induction Hk as [|[[now f] e] ins Hf Hk IH]; intros i Hp; [done|]. cbn [feed].
  assert (Hw : present a (withRegistry f i)).
  { revert Hp. rewrite !present_iff. cbn. intros [?|?]; [by left|right; by apply Hf]. }
  pose proof (event_keeps a now e _ Hw) as He. destruct (OnPassiveClassifiedEvent now e (withRegistry f i)) as [i1 cs].
  specialize (IH i1 He). by destruct (feed ins i1).
Qed.

(** What an event adds. *)
Lemma event_present a now e i :
  let adm := admittedSource now i in
  a <> adm -> a <> 0xFE ->
  (acked e = true /\ Source (EvRequest e) <> adm /\ Source (EvRequest e) <> 0xFF /\
     (a = Source (EvRequest e) \/ a = Target (EvRequest e))) \/
  (counts adm e = true /\ 1 <= observations (Source (EvRequest e)) i /\
     (a = Source (EvRequest e) \/ Companion (Source (EvRequest e)) = Some a)) ->
  present a (fst (OnPassiveClassifiedEvent now e i)).
Proof.
  intros adm Ha Hf Hcase. set (src := Source (EvRequest e)) in *.
  assert (Ht : acked e = true -> src <> adm -> src <> 0xFF ->
    (a = src \/ a = Target (EvRequest e)) \/ (1 <= observations src i /\ (a = src \/ Companion src = Some a)) ->
    present a (fst (insertTransaction adm e i))).
  { intros Hac Hs Hn Hc. unfold insertTransaction. cbv zeta. fold src.
    rewrite (proj2 (Z.eqb_neq _ _) Hn), (proj2 (Z.eqb_neq _ _) Hs).
    pose proof (insert_same src "initiator" adm (EvObservedAt e) i) as H1. nextInsert a.
    match goal with |- context [maybeInsert ?b ?r ?m ?t ?j] => pose proof (insert_same b r m t j) as H2 end. nextInsert a.
    pose proof (observations_same src _ _ (sameCounters_trans _ _ _ H1 H2)) as Hob.
    rewrite observations_observe, Z.eqb_refl, Hob. destruct Hc as [Hc|[Hone Hc]].
    - assert (present a i1) by (destruct Hc as [-> | ->]; auto). case_match; [done|]. nextInsert a. auto.
    - rewrite (proj2 (Z.ltb_ge _ _)) by lia. nextInsert a. destruct Hc as [-> |Hc]; auto. }
  unfold OnPassiveClassifiedEvent. cbv zeta. fold adm.
  assert (Hk : acked e = true -> forall T (x y : T),
     (if negb (CompleteRequest (ACKCorrelation e)) || negb (correlatorM2A (ACKCorrelation e)) then x
      else if negb (ackAtRequestACK (ACKCorrelation e)) then x else if ackByte (ACKCorrelation e) =? SymbolNack then x
      else if negb (ackByte (ACKCorrelation e) =? SymbolAck) then x else y) = y).
  { unfold acked. destruct (EvKind e); try done. intros H ? ? ?.
    by destruct (CompleteRequest _), (correlatorM2A _), (ackAtRequestACK _), (ackByte _ =? SymbolNack), (ackByte _ =? SymbolAck). }
  destruct Hcase as [(Hac & Hs & Hn & Hc)|(Hct & Hone & Hc)].
  - rewrite (acked_kind _ Hac), (Hk Hac). apply Ht; auto.
  - pose proof Hct as Hct'. unfold counts in Hct'. fold src in Hct'.
    rewrite andb_true_iff, orb_true_iff, negb_true_iff, Z.eqb_neq in Hct'. destruct Hct' as [Hs [Hb|Hb]].
    + unfold canonicalBroadcast in Hb. fold src in Hb. destruct (EvKind e); try done. bool_facts.
      unfold handleBroadcastFrameEvent. cbv zeta. fold src.
      repeat match goal with H : _ = true |- _ => rewrite H; clear H end. cbn [negb].
      rewrite (proj2 (Z.eqb_eq _ _)) by done. rewrite !(proj2 (Z.eqb_neq _ _)) by done. cbn [negb orb].
      rewrite observations_observe, Z.eqb_refl, (proj2 (Z.ltb_ge _ _)) by lia.
      nextInsert a. nextInsert a. destruct Hc as [-> |Hc]; auto.
    + apply andb_true_iff in Hb as [Hac Hn]. rewrite (acked_kind _ Hac), (Hk Hac). apply Ht; auto.
      by apply negb_true_iff, Z.eqb_neq in Hn.
Qed.

(** C30: Every device that takes part gets a slot and keeps it.  After any
    history, a completed acknowledged transaction of another source (0xFF
    apart) gives its source and its target a slot, and the second
    observation of a source (a transaction, or a broadcast of a canonical
    source) gives one to the source and its standard companion, except for
    the admitted source and the broadcast address; and as long as others do
    not remove registry slots the address is found by every later lookup. *)
Theorem observed_devices_registered (l1 l2 : list input) (now : byte) (f : DeviceRegistry -> DeviceRegistry)
    (e : PassiveClassifiedEvent) (i : inserter) (a : byte) :
  let adm := admittedSource now i in
  let src := Source (EvRequest e) in
  Forall (fun x : input => forall r b, is_Some (LookupSlotSnapshot r b) -> is_Some (LookupSlotSnapshot (x.1.2 r) b)) l2 ->
  observationsByAddr i = ∅ -> a <> adm -> a <> 0xFE ->
  (acked e = true /\ src <> adm /\ src <> 0xFF /\ (a = src \/ a = Target (EvRequest e))) \/
  (counts adm e = true /\ (1 <= countb (countsFor i src) l1)%nat /\ (a = src \/ Companion src = Some a)) ->
  is_Some (Lookup (tbl (fst (feed (l1 ++ (now, f, e) :: l2) i))) a).
Proof.
  intros adm src Hk Hobs Ha Hf Hc. rewrite feed_app. cbn [fst feed].
  destruct (feed_counts l1 i) as [Hcfg Ho]. set (i1 := fst (feed l1 i)) in *.
  pose proof (config_admitted now _ _ Hcfg) as Hadm.
  assert (Hp : present a (fst (OnPassiveClassifiedEvent now e (withRegistry f i1)))).
  { apply event_present; change (admittedSource now (withRegistry f i1)) with (admittedSource now i1); rewrite ?Hadm; try done.
    destruct Hc as [Hc|(Hc1 & Hc2 & Hc3)]; [by left|right]. split; [done|]. split; [|done].
    change (observations ?x (withRegistry f i1)) with (observations x i1). fold src. rewrite Ho.
    unfold observations. rewrite Hobs, lookup_empty. cbn. lia. }
  destruct (OnPassiveClassifiedEvent now e (withRegistry f i1)) as [i2 cs]. pose proof (feed_keeps a l2 i2 Hk Hp) as Hl.
  by destruct (feed l2 i2).
Qed.
End Present.

(** *** The hypotheses can hold *)

(** A registry that is a map of slots, and one row of the standard table. *)
#[export] Instance demo_slots : Registry := {|
  DeviceRegistry := gmap Z slotSnapshot;
  SlotPtr := unit;
  LookupSlotSnapshot := fun r a => r !! a;
  LookupSlot := fun r a => (fun _ => tt) <$> r !! a;
  LookupEntry := fun r a => (fun _ => a) <$> r !! a;
  RegisterPassiveObserved := fun a role t r =>
    <[a := mkSnap role DiscoverySourcePassiveObserved VerificationStateCorroborated]> r;
  AliasAddresses := fun _ _ r => (r, true);
  Entries := fun _ => []
|}.
#[export] Instance demo_slots_laws : RegistryLaws demo_slots.
Proof.
  split; cbn; [intros; rewrite lookup_insert_eq; eauto| |done].
  intros a role t r b H. destruct (decide (b = a)) as [->|]; [rewrite lookup_insert_eq; eauto|by rewrite lookup_insert_ne].
Qed.
#[export] Instance demo_standard : StandardTable := {|
  IsCanonicalSource := fun a => a =? 0x10;
  Companion := fun a => if a =? 0x10 then Some 0x15 else if a =? 0x15 then Some 0x10 else None;
  SourceOfCompanion := fun a => if a =? 0x15 then Some 0x10 else None;
  SourceTier := fun a => if a =? 0x10 then Some "p0"%string else None;
  IsFreeUseSource := fun _ => false;
  SourceAddressTableRows := [mkRow 0x10 0x15 "heating regulator" "p0" false]
|}.

(** The transaction of the demonstration stream, from 0x10 to 0x08, while
    the gateway is admitted as 0x71. *)
Definition demo_input : input := (0x71, fun r => r, demo_event).
Definition demo_inserter : inserter := NewAddressTableInserter (NewAddressTable ∅) 0 true.
Definition demo_calls : list call :=
  default [] (head (snd (@feed demo_protocol demo_standard demo_slots [demo_input] demo_inserter))).

Lemma no_phantom_slots_witness :
  CRegister 0x08 "target" (EvObservedAt demo_event) ∈ demo_calls /\
  exists l1 now f e l2 es1, [demo_input] = l1 ++ (now, f, e) :: l2 /\ es1 `prefix_of` demo_events /\
    @event_ok demo_protocol (observed es1) e /\ 0x08 <> admittedSource now demo_inserter.
Proof.
  assert (Hin : CRegister 0x08 "target" (EvObservedAt demo_event) ∈ demo_calls).
  { assert (E : demo_calls = [CRegister 0x10 "initiator" (EvObservedAt demo_event); CRegister 0x08 "target" (EvObservedAt demo_event)])
      by (by vm_compute). rewrite E. right. left. }
  split; [done|].
  destruct (@no_phantom_slots demo_protocol demo_laws demo_standard demo_slots 0 None demo_events [demo_input] demo_inserter
    demo_calls 0x08 "target" (EvObservedAt demo_event)) as (l1 & now & f & e & l2 & es1 & H1 & H2 & H3 & H4 & _);
    [apply tap_ok_forall; by vm_compute|by vm_compute|done| |done|by exists l1, now, f, e, l2, es1].
  assert (E : snd (@feed demo_protocol demo_standard demo_slots [demo_input] demo_inserter) = [demo_calls]) by (by vm_compute).
  rewrite E. left.
Defined.

(** The second transaction gives the companion of its source, 0x15, a slot. *)
Lemma observed_devices_registered_witness :
  is_Some (Lookup (tbl (fst (@feed demo_protocol demo_standard demo_slots ([demo_input] ++ demo_input :: []) demo_inserter))) 0x15).
Proof.
  apply (@observed_devices_registered demo_protocol demo_standard demo_slots demo_slots_laws [demo_input] [] 0x71
    (fun r => r) demo_event demo_inserter 0x15); [constructor|done|by vm_compute|done|].
  right. split; [by vm_compute|]. split; [vm_compute; lia|]. right. by vm_compute.
Defined.
End AddressTableSpec.
