(* ===== verification/EscapePair.v ===== *)
(** * Gateway escape pairs

    The write path of src/internal/adaptermux/raw_symbols.go: the encoding of
    a logical byte into raw symbols, and the protocol by which [writeSymbols]
    sends an escape pair and verifies the echo of both symbols while the read
    loop, lifecycle events and the arbitrator go on.  A step is one section
    under a lock, one channel operation or one call of the transport. *)

From S2P Require Import Prelude Ebus Arbitration.

Local Open Scope Z_scope.

Module EscapePair.
Import Arbitration.

(** ** Encoding *)

Section Encoding.
Context {P : EbusProtocol}.

(** [gatewaySendSymbols]. *)
Definition gatewaySendSymbols (data : byte) (structural : bool) : list byte :=
  if (data =? SymbolSyn) && structural then [SymbolSyn]
  else if data =? SymbolEscape then [SymbolEscape; 0x00]
  else if data =? SymbolSyn then [SymbolEscape; 0x01]
  else [data].
End Encoding.

(** [upstreamSendIsRawSymbol] and [activePathIsLogical]. *)
Definition upstreamSendIsRawSymbol (protocol : string) : bool :=
  String.eqb protocol "enh" || String.eqb protocol "ens" || String.eqb protocol EmptyString.
Definition activePathIsLogical (protocol : string) (readsAreLogical : bool) : bool :=
  readsAreLogical && upstreamSendIsRawSymbol protocol.

(** ** Data *)

(** The logical item a raw symbol came with, [transport.StreamEvent]. *)
Inductive streamEvent :=
| EvNone
| EvWireSyn
| EvByte (b : byte) (wasEscaped : bool)
| EvOther.
Definition isStructuralSyn {P : EbusProtocol} (ev : streamEvent) : bool :=
  match ev with
  | EvWireSyn => true
  | EvByte b wasEscaped => (b =? SymbolSyn) && negb wasEscaped
  | _ => false
  end.

(** The states of [gatewayLeadWait.suffixState]. *)
Inductive suffixState := suffixPending | suffixCommitted | suffixRefuted.
#[export] Instance suffixState_eq_dec : EqDecision suffixState.
Proof. solve_decision. Defined.

(** [gatewayEscapeEchoError]. *)
Inductive gatewayEscapeStep := StepLead | StepSuffix.
Inductive echoCause := ErrBusCollision | ErrTimeout.
Record gatewayEscapeEchoError := mkEchoError {
  estep : gatewayEscapeStep;
  elead : byte;
  written : byte;
  eobserved : byte;
  echoObserved : bool;
  beforeWrite : bool;
  cause : echoCause
}.

(** The errors of a write: those [errGatewayLeadEcho] marks, and an error of
    the transport. *)
Inductive writeErr :=
| NotBusOwner
| WithheldFenced (st : gatewayEscapeStep)
| WithheldEnded (st : gatewayEscapeStep)
| EchoFailed (e : gatewayEscapeEchoError)
| CtxDone
| Retired (code : Z)
| Transport (code : Z).

(** [gatewayLeadOutcome]. *)
Record gatewayLeadOutcome := mkOut {
  observed : byte;
  early : bool;
  suffixStep : bool;
  oerr : option Z
}.

(** [gatewayLeadWait]: the channel [result] holds at most one outcome and
    [leadEchoed] says whether that channel is closed.  [seen] and [decidedAt]
    are for the theorems: the symbols the read loop took for this wait and
    the number of writes that had returned when the wait was decided. *)
Record wait := mkWait {
  lead : byte;
  suffix : byte;
  result : option gatewayLeadOutcome;
  leadEchoed : bool;
  leadSeen : bool;
  sstate : suffixState;
  seen : list (byte * bool);
  decidedAt : option nat
}.
Definition set_result (r : option gatewayLeadOutcome) (w : wait) : wait :=
  mkWait (lead w) (suffix w) r (leadEchoed w) (leadSeen w) (sstate w) (seen w) (decidedAt w).
Definition set_sstate (s : suffixState) (w : wait) : wait :=
  mkWait (lead w) (suffix w) (result w) (leadEchoed w) (leadSeen w) s (seen w) (decidedAt w).
Definition see (b : byte) (syn : bool) (w : wait) : wait :=
  mkWait (lead w) (suffix w) (result w) (leadEchoed w) (leadSeen w) (sstate w) (seen w ++ [(b, syn)]) (decidedAt w).
Definition echoLead (w : wait) : wait :=
  mkWait (lead w) (suffix w) (result w) true true (sstate w) (seen w) (decidedAt w).
Definition decide_ (n : nat) (o : gatewayLeadOutcome) (s : suffixState) (w : wait) : wait :=
  mkWait (lead w) (suffix w) (Some o) (leadEchoed w) (leadSeen w) s (seen w) (Some n).

(** ** The failure record *)

(** [gatewayEscapeEchoDiag] with the expvar counters, keyed by the step and
    the observed symbol. *)
Record diag := mkDiag {
  LeadFailures : Z;
  SuffixFailures : Z;
  lastFailure : option gatewayEscapeEchoError;
  lastLogAt : option time;
  suppressed : Z;
  failuresTotal : gmap (bool * option Z) Z
}.
Definition gatewayEscapeEchoLogInterval : time := 30000000000.
Definition isLead (st : gatewayEscapeStep) : bool := match st with StepLead => true | StepSuffix => false end.
(** [recordGatewayEscapeEchoFailure]: the record, and the suppressed count of
    the line it logs. *)
Definition recordGatewayEscapeEchoFailure (e : gatewayEscapeEchoError) (now : time) (d : diag) : diag * option Z :=
  let key := (isLead (estep e), if echoObserved e then Some (eobserved e) else None) in
  let totals := <[key := default 0 (failuresTotal d !! key) + 1]> (failuresTotal d) in
  let l := if isLead (estep e) then u64 (LeadFailures d + 1) else LeadFailures d in
  let s := if isLead (estep e) then SuffixFailures d else u64 (SuffixFailures d + 1) in
  let emit := match lastLogAt d with None => true | Some t => gatewayEscapeEchoLogInterval <=? now - t end in
  if emit then (mkDiag l s (Some e) (Some now) 0 totals, Some (suppressed d))
  else (mkDiag l s (Some e) (lastLogAt d) (u64 (suppressed d + 1)) totals, None).

(** ** The mux *)

(** Where [writeSymbols] is: [w] is its wait, [None] without the raw view. *)
Inductive pc :=
| Ready (r : option (option writeErr))
| Token (l s : byte) (raw : bool)
| Arm (tok : ownershipToken) (l s : byte) (raw : bool)
| LeadCheck (tok : ownershipToken) (l s : byte) (w : option nat)
| LeadLocked (tok : ownershipToken) (l s : byte) (w : option nat)
| LeadWriting (tok : ownershipToken) (l s : byte) (w : option nat)
| Pace (tok : ownershipToken) (l s : byte) (w : option nat)
| Paced (tok : ownershipToken) (l s : byte) (w : option nat)
| SuffixCheck (tok : ownershipToken) (l s : byte) (w : option nat)
| SuffixLocked (tok : ownershipToken) (l s : byte) (w : option nat)
| SuffixWriting (tok : ownershipToken) (l s : byte) (w : option nat)
| Await (l s : byte) (w : nat).

(** The waits ever made, the one [gatewayLeadWait] publishes, the symbol the
    read loop is about to resolve one with, the writer, and the symbols
    written, each with the ownership generation of the moment. *)
Record mux := mkMux {
  arb : arbitrator;
  waits : list wait;
  current : option nat;
  resolving : option (nat * byte * bool);
  writer : pc;
  wrote : list (byte * Z);
  failures : diag
}.
Definition set_arb (a : arbitrator) (m : mux) : mux := mkMux a (waits m) (current m) (resolving m) (writer m) (wrote m) (failures m).
Definition set_waits (ws : list wait) (m : mux) : mux := mkMux (arb m) ws (current m) (resolving m) (writer m) (wrote m) (failures m).
Definition set_current (c : option nat) (m : mux) : mux := mkMux (arb m) (waits m) c (resolving m) (writer m) (wrote m) (failures m).
Definition set_resolving (r : option (nat * byte * bool)) (m : mux) : mux :=
  mkMux (arb m) (waits m) (current m) r (writer m) (wrote m) (failures m).
Definition goto (p : pc) (m : mux) : mux := mkMux (arb m) (waits m) (current m) (resolving m) p (wrote m) (failures m).
Definition put (b : byte) (m : mux) : mux :=
  mkMux (arb m) (waits m) (current m) (resolving m) (writer m) (wrote m ++ [(b, ownershipGen (arb m))]) (failures m).
Definition set_failures (d : diag) (m : mux) : mux := mkMux (arb m) (waits m) (current m) (resolving m) (writer m) (wrote m) d.
Definition updWait (i : nat) (f : wait -> wait) (m : mux) : mux := set_waits (alter f i (waits m)) m.

(** The calls of [tr.Write] that have returned: [wrote] has an entry from the
    moment a call begins, and the writer is in at most one. *)
Definition inWrite (p : pc) : bool :=
  match p with LeadWriting _ _ _ _ | SuffixWriting _ _ _ _ => true | _ => false end.
Definition returned (m : mux) : nat := length (wrote m) - (if inWrite (writer m) then 1 else 0).

(** [armGatewayLeadWait]. *)
Definition newWait (l s : byte) : wait := mkWait l s None false false suffixPending [] None.
Definition armGatewayLeadWait (l s : byte) (m : mux) : mux * nat :=
  let i := length (waits m) in
  (set_current (Some i) (set_waits (waits m ++ [newWait l s]) m), i).

(** [dropGatewayLeadWait]. *)
Definition dropGatewayLeadWait (w : option nat) (m : mux) : mux :=
  if bool_decide (w <> None /\ current m = w) then set_current None m else m.

(** [observeGatewayLeadEcho], up to [resolveGatewayLeadWait]. *)
Definition observeGatewayLeadEcho {P : EbusProtocol} (symbol : byte) (logical : streamEvent) (m : mux) : mux :=
  match current m with
  | None => m
  | Some i =>
      let m := updWait i (see symbol (isStructuralSyn logical)) m in
      match waits m !! i with
      | None => m
      | Some w =>
          if negb (leadSeen w) then
            if isStructuralSyn logical then m
            else if symbol =? lead w then updWait i echoLead m
            else set_resolving (Some (i, symbol, false)) m
          else set_resolving (Some (i, symbol, true)) m
      end
  end.

(** [resolveGatewayLeadWait]. *)
Definition resolveGatewayLeadWait (i : nat) (symbol : byte) (step : bool) (m : mux) : mux :=
  if bool_decide (current m = Some i) then
    match waits m !! i with
    | Some w =>
        let early := bool_decide (sstate w = suffixPending) in
        let s := if early then suffixRefuted else sstate w in
        set_current None (updWait i (decide_ (returned m) (mkOut symbol early step None) s) m)
    | None => m
    end
  else m.

(** [retireGatewayLeadWait], after its fence: the swap and the outcome. *)
Definition retireWait (code : Z) (m : mux) : mux :=
  match current m with
  | Some i => set_current None (updWait i (set_result (Some (mkOut 0 false false (Some code)))) m)
  | None => m
  end.

(** [gatewayPairFailure]. *)
Definition collision (st : gatewayEscapeStep) (l wr obs : byte) (bw : bool) : gatewayEscapeEchoError :=
  mkEchoError st l wr obs true bw ErrBusCollision.
Definition gatewayPairFailure (w : wait) (out : gatewayLeadOutcome) (now : time) (m : mux) : mux * option writeErr :=
  match oerr out with
  | Some code => (m, Some (Retired code))
  | None =>
      if suffixStep out && (negb (early out) && (observed out =? suffix w)) then (m, None)
      else
        let e := if suffixStep out then collision StepSuffix (lead w) (suffix w) (observed out) (early out)
                 else collision StepLead (lead w) (lead w) (observed out) false in
        (set_failures (fst (recordGatewayEscapeEchoFailure e now (failures m))) m, Some (EchoFailed e))
  end.

(** A receive from the channel [result]. *)
Definition receive (i : nat) (m : mux) : option (mux * wait * gatewayLeadOutcome) :=
  w ← waits m !! i;
  out ← result w;
  Some (updWait i (set_result None) m, w, out).

(** The check of [commitWhileOwnershipCurrent], under the arbitrator lock. *)
Definition checkOwnership (tok : ownershipToken) (m : mux) : option arbError :=
  snd (commitWhileOwnershipCurrent tok (fun u : unit => (u, None)) tt (arb m)).
Definition withheld (st : gatewayEscapeStep) (e : arbError) : writeErr :=
  match e with
  | errOwnershipLifecycleFenced => WithheldFenced st
  | _ => WithheldEnded st
  end.
Definition finish (r : option writeErr) (m : mux) : mux := goto (Ready (Some r)) m.

(** The writer holds the lock of the arbitrator during a commit, and the lock
    of its wait while it writes the suffix. *)
Definition arbLocked (p : pc) : bool :=
  match p with
  | LeadLocked _ _ _ _ | LeadWriting _ _ _ _ | SuffixLocked _ _ _ _ | SuffixWriting _ _ _ _ => true
  | _ => false
  end.
Definition waitLocked (p : pc) (i : nat) : bool :=
  match p with SuffixWriting _ _ _ (Some j) => bool_decide (j = i) | _ => false end.

(** The choices of the writer: to go on, to take the expiry of a timer, the
    outcome of the wait or the end of the context, or the return of a write
    of the transport. *)
Inductive choice :=
| Go
| Timer (now : time)
| Result (now : time)
| Ctx
| Returned (err : option Z).

(** The first half of [writeSymbols]: up to the suffix. *)
Definition stepLead (c : choice) (m : mux) : option mux :=
  match writer m, c with
  | Token l s raw, Go =>
      match currentOwnershipToken gatewaySessionID (arb m) with
      | None => Some (finish (Some NotBusOwner) m)
      | Some tok => Some (goto (Arm tok l s raw) m)
      end
  | Arm tok l s raw, Go =>
      if raw then let '(m, i) := armGatewayLeadWait l s m in Some (goto (LeadCheck tok l s (Some i)) m)
      else Some (goto (LeadCheck tok l s None) m)
  | LeadCheck tok l s w, Go =>
      match checkOwnership tok m with
      | Some e => Some (finish (Some (withheld StepLead e)) (dropGatewayLeadWait w m))
      | None => Some (goto (LeadLocked tok l s w) m)
      end
  | LeadLocked tok l s w, Go => Some (goto (LeadWriting tok l s w) (put l m))
  | LeadWriting tok l s w, Returned (Some code) => Some (finish (Some (Transport code)) (dropGatewayLeadWait w m))
  | LeadWriting tok l s w, Returned None => Some (goto (Pace tok l s w) m)
  | _, _ => None
  end.

(** [paceGatewaySuffix]: the two selects. *)
Definition stepPace (c : choice) (m : mux) : option mux :=
  match writer m, c with
  | Pace tok l s w, Go =>
      match w ≫= (fun i => waits m !! i) with
      | Some wt => if leadEchoed wt then Some (goto (Paced tok l s w) m) else None
      | None => None
      end
  | Pace tok l s w, Timer _ => Some (goto (Paced tok l s w) m)
  | Pace tok l s (Some i), Result now =>
      '(m, wt, out) ← receive i m;
      let '(m, err) := gatewayPairFailure wt out now m in
      match err with
      | Some e => Some (finish (Some e) m)
      | None => Some (goto (SuffixCheck tok l s (Some i)) m)
      end
  | Pace tok l s w, Ctx => Some (finish (Some CtxDone) (dropGatewayLeadWait w m))
  | Paced tok l s (Some i), Result now =>
      '(m, wt, out) ← receive i m;
      let '(m, err) := gatewayPairFailure wt out now m in
      match err with
      | Some e => Some (finish (Some e) m)
      | None => Some (goto (SuffixCheck tok l s (Some i)) m)
      end
  | Paced tok l s w, Go =>
      match (w ≫= (fun i => waits m !! i)) ≫= result with
      | Some _ => None
      | None => Some (goto (SuffixCheck tok l s w) m)
      end
  | _, _ => None
  end.

(** The rest of [writeSymbols]: the commit of the suffix and
    [awaitGatewayLeadEcho]. *)
Definition stepSuffix (c : choice) (m : mux) : option mux :=
  match writer m, c with
  | SuffixCheck tok l s w, Go =>
      match checkOwnership tok m with
      | Some e => Some (finish (Some (withheld StepSuffix e)) (dropGatewayLeadWait w m))
      | None => Some (goto (SuffixLocked tok l s w) m)
      end
  | SuffixLocked tok l s None, Go => Some (goto (SuffixWriting tok l s None) (put s m))
  | SuffixLocked tok l s (Some i), Go =>
      wt ← waits m !! i;
      if bool_decide (sstate wt = suffixPending) then
        Some (goto (SuffixWriting tok l s (Some i)) (put s (updWait i (set_sstate suffixCommitted) m)))
      else None
  | SuffixLocked tok l s (Some i), Result now =>
      wt ← waits m !! i;
      if bool_decide (sstate wt = suffixPending) then None
      else
        '(m, wt, out) ← receive i m;
        let '(m, err) := gatewayPairFailure wt out now m in
        Some (finish err m)
  | SuffixWriting tok l s w, Returned (Some code) => Some (finish (Some (Transport code)) (dropGatewayLeadWait w m))
  | SuffixWriting tok l s None, Returned None => Some (finish None m)
  | SuffixWriting tok l s (Some i), Returned None => Some (goto (Await l s i) m)
  | Await l s i, Result now =>
      '(m, wt, out) ← receive i m;
      let '(m, err) := gatewayPairFailure wt out now m in
      Some (finish err m)
  | Await l s i, Timer now =>
      wt ← waits m !! i;
      let e := if leadEchoed wt then mkEchoError StepSuffix l s 0 false false ErrTimeout
               else mkEchoError StepLead l l 0 false false ErrTimeout in
      let m := dropGatewayLeadWait (Some i) m in
      Some (finish (Some (EchoFailed e)) (set_failures (fst (recordGatewayEscapeEchoFailure e now (failures m))) m))
  | Await l s i, Ctx => Some (finish (Some CtxDone) (dropGatewayLeadWait (Some i) m))
  | _, _ => None
  end.

(** ** Steps *)

Inductive label :=
| LWrite (symbols : list byte) (raw : bool) (err : option Z)
| LWriter (c : choice)
| LObserve (symbol : byte) (logical : streamEvent)
| LResolve
| LRetire (code : Z)
| LArb (o : op).

Definition step {P : EbusProtocol} (x : label) (m : mux) : option mux :=
  match x with
  | LWrite symbols raw err =>
      match writer m, symbols with
      | Ready _, [b] => Some (finish (Transport <$> err) (put b m))
      | Ready _, [l; s] => Some (goto (Token l s raw) m)
      | _, _ => None
      end
  | LWriter c =>
      match writer m with
      | Ready _ => None
      | Token _ _ _ | Arm _ _ _ _ | LeadCheck _ _ _ _ | LeadLocked _ _ _ _ | LeadWriting _ _ _ _ => stepLead c m
      | Pace _ _ _ _ | Paced _ _ _ _ => stepPace c m
      | _ => stepSuffix c m
      end
  | LObserve symbol logical =>
      match resolving m with
      | None => Some (observeGatewayLeadEcho symbol logical m)
      | Some _ => None
      end
  | LResolve =>
      match resolving m with
      | Some (i, symbol, st) =>
          if waitLocked (writer m) i then None
          else Some (set_resolving None (resolveGatewayLeadWait i symbol st m))
      | None => None
      end
  | LRetire code => Some (retireWait code m)
  | LArb o => if arbLocked (writer m) && negb (isFence o) then None else Some (set_arb (Arbitration.step o (arb m)) m)
  end.

(** The mux at start. *)
Definition start (a : arbitrator) : mux := mkMux a [] None None (Ready None) [] (mkDiag 0 0 None None 0 ∅).

Inductive reachable {P : EbusProtocol} : mux -> Prop :=
| reach_start a : reachable (start a)
| reach_step m x m' : reachable m -> step x m = Some m' -> reachable m'.
End EscapePair.
