(* ===== verification/EscapePairInv.v ===== *)
(** * Correctness of the escape-pair write

    The invariant of the write protocol and what follows from it: a pair is
    reported as written only when its two echoes were the two symbols the
    read loop took, in order, after the suffix had been written; a pair that
    was refuted, fenced or disowned first never puts its suffix on the wire;
    and a write always ends. *)

From S2P Require Import Prelude Ebus PassiveTap Arbitration EscapePair.

Local Open Scope Z_scope.

Module EscapePairInv.
Import Arbitration EscapePair.

(** ** The symbols a wait took *)

(** Structural SYNs only: the wait is still open for the lead. *)
Definition syns (l : list (byte * bool)) : Prop := Forall (fun x => snd x = true) l.

(** The wait took the lead's echo and nothing after it. *)
Definition awaiting (w : wait) : Prop :=
  if leadSeen w then exists sy, syns sy /\ seen w = sy ++ [(lead w, false)] else syns (seen w).
(** The wait took a symbol that decides it. *)
Definition full (w : wait) (b : byte) (st : bool) : Prop :=
  st = leadSeen w /\
  if leadSeen w then exists sy x, syns sy /\ seen w = sy ++ [(lead w, false); (b, x)]
  else exists sy, syns sy /\ seen w = sy ++ [(b, false)] /\ b <> lead w.

(** The last symbols written are a pair's, in one ownership period. *)
Definition wroteLead (l : byte) (gen : Z) (ws : list (byte * Z)) : Prop := exists pre, ws = pre ++ [(l, gen)].
Definition wrotePair (l s : byte) (gen : Z) (ws : list (byte * Z)) : Prop := exists pre, ws = pre ++ [(l, gen); (s, gen)].

(** The wait a writer is on. *)
Definition waitOf (p : pc) : option nat :=
  match p with
  | LeadCheck _ _ _ w | LeadLocked _ _ _ w | LeadWriting _ _ _ w | Pace _ _ _ w | Paced _ _ _ w
  | SuffixCheck _ _ _ w | SuffixLocked _ _ _ w | SuffixWriting _ _ _ w => w
  | Await _ _ w => Some w
  | _ => None
  end.
(** Whether the suffix has been handed to the transport. *)
Definition committed (p : pc) : bool := match p with SuffixWriting _ _ _ _ | Await _ _ _ => true | _ => false end.
Definition pairOf (p : pc) : option (byte * byte) :=
  match p with
  | LeadCheck _ l s _ | LeadLocked _ l s _ | LeadWriting _ l s _ | Pace _ l s _ | Paced _ l s _
  | SuffixCheck _ l s _ | SuffixLocked _ l s _ | SuffixWriting _ l s _ | Await l s _ => Some (l, s)
  | _ => None
  end.

(** What a decided wait says. *)
Definition decided (w : wait) (out : gatewayLeadOutcome) (ws : list (byte * Z)) : Prop :=
  match oerr out with
  | Some _ => True
  | None =>
      full w (observed out) (suffixStep out) /\
      (if early out then sstate w = suffixRefuted
       else sstate w = suffixCommitted /\ decidedAt w = Some (length ws) /\ exists gen, wrotePair (lead w) (suffix w) gen ws)
  end.

Record Inv (m : mux) : Prop := {
  iv_current i : current m = Some i -> waitOf (writer m) = Some i;
  iv_open i w : current m = Some i -> waits m !! i = Some w ->
    result w = None /\ sstate w <> suffixRefuted /\
    (awaiting w \/ exists b st, resolving m = Some (i, b, st));
  iv_resolving i b st : resolving m = Some (i, b, st) -> exists w, waits m !! i = Some w /\ full w b st;
  iv_wait i : waitOf (writer m) = Some i -> exists w, waits m !! i = Some w /\ pairOf (writer m) = Some (lead w, suffix w) /\
    S i = length (waits m) /\ (sstate w = suffixCommitted <-> committed (writer m) = true) /\
    (forall out, result w = Some out -> decided w out (wrote m)) /\
    (sstate w = suffixRefuted -> exists out, result w = Some out /\ oerr out = None);
  iv_wrote : match writer m with
    | LeadWriting tok l s _ | Pace tok l s _ | Paced tok l s _ | SuffixCheck tok l s _ | SuffixLocked tok l s _ =>
        wroteLead l (tokGen tok) (wrote m)
    | SuffixWriting tok l s _ => wrotePair l s (tokGen tok) (wrote m)
    | Await l s _ => exists gen, wrotePair l s gen (wrote m)
    | _ => True
    end;
  iv_gen : match writer m with
    | LeadLocked tok _ _ _ | SuffixLocked tok _ _ _ => ownershipGen (arb m) = tokGen tok
    | _ => True
    end
}.

Section Inv.
Context {P : EbusProtocol}.

Lemma start_inv a : Inv (start a).
Proof. by constructor. Qed.

(** ** The read loop *)

Lemma awaiting_see w b x : awaiting w -> leadSeen w = false -> x = true -> awaiting (see b x w).
Proof. unfold awaiting. cbn. intros Ha Hl ->. rewrite Hl in *. unfold syns in *. apply Forall_app_2; [done|]. by constructor. Qed.

Lemma alter_eq {A} (f : A -> A) (i : nat) (l : list A) (x : A) : l !! i = Some x -> alter f i l !! i = Some (f x).
Proof. intros H. by rewrite list_lookup_alter_eq, H. Qed.

(** A change of the current wait that keeps its part of the invariant. *)
Lemma Inv_wait m i w w' r :
  Inv m -> current m = Some i -> waits m !! i = Some w -> resolving m = None ->
  lead w' = lead w -> suffix w' = suffix w -> result w' = result w -> sstate w' = sstate w ->
  (match r with
   | None => awaiting w'
   | Some (b, st) => full w' b st
   end) ->
  Inv (set_resolving ((fun bs => (i, bs.1, bs.2)) <$> r) (updWait i (fun _ => w') m)).
Proof.
  intros [Hc Ho Hr Hw Hwr Hg] Hcur Hi Hres E1 E2 E3 E4 Hr'. destruct (Ho i w Hcur Hi) as (O1 & O2 & _).
  pose proof (alter_eq (fun _ => w') i (waits m) w Hi) as Hi'.
  constructor; cbn; try done.
  - intros j w2 Hj Hw2. assert (j = i) as -> by congruence. rewrite Hi' in Hw2. injection Hw2 as <-.
    rewrite E3, E4. split; [done|]. split; [done|]. destruct r as [[b st]|]; [right; cbn; eauto|by left].
  - intros j b st Hrj. destruct r as [[b0 st0]|]; [|done]. cbn in Hrj. injection Hrj as <- <- <-. eauto.
  - intros j Hj. destruct (Hw j Hj) as (w2 & H2 & Hp & Hlen & Hcm & Hout & Href).
    assert (j = i) as -> by (apply Hc in Hcur; congruence). assert (w2 = w) as -> by congruence.
    exists w'. rewrite length_alter, E1, E2, E4. do 4 (split; [done|]). rewrite E3. split; [by rewrite O1|by rewrite O1 in Href].
Qed.

Lemma alter_const {A} (f : A -> A) (i : nat) (l : list A) (x : A) : l !! i = Some x -> alter f i l = alter (fun _ => f x) i l.
Proof.
  intros H. apply list_eq. intros j. destruct (decide (j = i)) as [->|Hne].
  - by rewrite !list_lookup_alter_eq, H.
  - by rewrite !list_lookup_alter_ne.
Qed.

Lemma alter_twice {A} (f : A -> A) (i : nat) (l : list A) (x : A) : alter (fun _ => x) i (alter f i l) = alter (fun _ => x) i l.
Proof.
  apply list_eq. intros j. destruct (decide (j = i)) as [->|Hne].
  - rewrite !list_lookup_alter_eq. by destruct (l !! i).
  - by rewrite !list_lookup_alter_ne.
Qed.

Lemma observe_inv b ev m : Inv m -> resolving m = None -> Inv (observeGatewayLeadEcho b ev m).
Proof.
  intros Hm Hres. unfold observeGatewayLeadEcho. destruct (current m) as [i|] eqn:Hcur; [|done].
  destruct (iv_wait _ Hm i (iv_current _ Hm i Hcur)) as (w & Hi & _). unfold updWait. cbn.
  rewrite (alter_eq _ _ _ _ Hi). cbn. destruct (iv_open _ Hm i w Hcur Hi) as (_ & _ & [Ha|(? & ? & ?)]); [|congruence].
  assert (Halt : alter (see b (isStructuralSyn ev)) i (waits m) = alter (fun _ => see b (isStructuralSyn ev) w) i (waits m))
    by (by apply alter_const).
  assert (Hid : forall m0 : mux, resolving m0 = None -> set_resolving None m0 = m0) by (intros []; cbn; by intros ->).
  destruct (leadSeen w) eqn:Hls; cbn [negb].
  - pose proof (Inv_wait m i w (see b (isStructuralSyn ev) w) (Some (b, true)) Hm Hcur Hi Hres eq_refl eq_refl eq_refl eq_refl) as H.
    cbn in H. rewrite Halt. apply H. unfold awaiting in Ha. rewrite Hls in Ha. destruct Ha as (sy & Hsy & Hse).
    split; [done|]. cbn. rewrite Hls. exists sy, (isStructuralSyn ev). split; [done|]. by rewrite Hse, <- app_assoc.
  - unfold awaiting in Ha. rewrite Hls in Ha. destruct (isStructuralSyn ev) eqn:Hsyn.
    + pose proof (Inv_wait m i w (see b true w) None Hm Hcur Hi Hres eq_refl eq_refl eq_refl eq_refl) as H.
      cbn in H. rewrite Hid in H by done. rewrite Halt. apply H. apply awaiting_see; [|done|done]. unfold awaiting. by rewrite Hls.
    + destruct (Z.eqb_spec b (lead w)) as [->|Hne].
      * pose proof (Inv_wait m i w (echoLead (see (lead w) false w)) None Hm Hcur Hi Hres eq_refl eq_refl eq_refl eq_refl) as H.
        cbn in H. rewrite Hid in H by done.
        rewrite (alter_const echoLead i _ (see (lead w) false w)) by (by apply alter_eq).
        rewrite alter_twice. apply H. unfold awaiting. cbn. by exists (seen w).
      * pose proof (Inv_wait m i w (see b false w) (Some (b, false)) Hm Hcur Hi Hres eq_refl eq_refl eq_refl eq_refl) as H.
        cbn in H. rewrite Halt. apply H. split; [done|]. cbn. rewrite Hls. by exists (seen w).
Qed.

Lemma full_ext w w' b st : leadSeen w' = leadSeen w -> seen w' = seen w -> lead w' = lead w -> full w b st -> full w' b st.
Proof. unfold full. by intros -> -> ->. Qed.

(** The waits the read loop may hold, after a change that keeps what they
    took. *)
Lemma resolving_ext m (ws : list wait) :
  Inv m -> (forall i w, waits m !! i = Some w -> exists w', ws !! i = Some w' /\ leadSeen w' = leadSeen w /\ seen w' = seen w /\ lead w' = lead w) ->
  forall i b st, resolving m = Some (i, b, st) -> exists w, ws !! i = Some w /\ full w b st.
Proof.
  intros Hm Hext i b st Hr. destruct (iv_resolving _ Hm i b st Hr) as (w & Hi & Hf).
  destruct (Hext i w Hi) as (w' & Hi' & ? & ? & ?). exists w'. split; [done|]. by eapply full_ext.
Qed.
Lemma alter_ext (f : wait -> wait) (i : nat) (ws : list wait) :
  (forall w, leadSeen (f w) = leadSeen w /\ seen (f w) = seen w /\ lead (f w) = lead w) ->
  forall j w, ws !! j = Some w -> exists w', alter f i ws !! j = Some w' /\ leadSeen w' = leadSeen w /\ seen w' = seen w /\ lead w' = lead w.
Proof.
  intros Hf j w Hj. destruct (decide (j = i)) as [->|Hne].
  - exists (f w). split; [by apply alter_eq|apply Hf].
  - exists w. by rewrite list_lookup_alter_ne.
Qed.

Lemma resolve_inv i b st m :
  Inv m -> resolving m = Some (i, b, st) -> waitLocked (writer m) i = false ->
  Inv (set_resolving None (resolveGatewayLeadWait i b st m)).
Proof.
  intros Hm Hres Hlock. destruct (iv_resolving _ Hm i b st Hres) as (w & Hi & Hf). unfold resolveGatewayLeadWait.
  case_bool_decide as Hcur.
  2: { destruct Hm as [Hc Ho Hr Hw Hwr Hg]. constructor; cbn; try done.
       intros j w' Hj Hw'. destruct (Ho j w' Hj Hw') as (? & ? & [?|(b' & st' & E)]); [auto|congruence]. }
  rewrite Hi. pose proof (iv_current _ Hm i Hcur) as Hwo. destruct (iv_wait _ Hm i Hwo) as (w0 & Hi0 & Hp & Hlen & Hcm & _ & _).
  assert (w0 = w) as -> by congruence. destruct (iv_open _ Hm i w Hcur Hi) as (_ & Hnr & _).
  constructor; cbn; try done; try apply Hm. intros j Hj. assert (j = i) as -> by congruence.
  exists (decide_ (returned m) (mkOut b (bool_decide (sstate w = suffixPending)) st None)
     (if bool_decide (sstate w = suffixPending) then suffixRefuted else sstate w) w).
  split; [by apply alter_eq|]. rewrite length_alter. split; [done|]. split; [done|]. cbn. case_bool_decide as Hs.
  - split; [rewrite <- Hcm, Hs; done|]. split; [|by eauto]. intros out [= <-]. split; [done|]. cbn. done.
  - split; [done|]. assert (Hsc : sstate w = suffixCommitted) by (by destruct (sstate w)).
    split; [|by rewrite Hsc]. intros out [= <-]. split; [done|]. cbn. split; [done|]. unfold returned.
    apply Hcm in Hsc. pose proof (iv_wrote _ Hm) as Hwr. destruct (writer m) as [| | | | | | | | | |? ? ? [j|]|]; try done; cbn in *.
    + injection Hwo as ->. by rewrite bool_decide_eq_true_2 in Hlock.
    + injection Hp as -> ->. by rewrite Nat.sub_0_r.
Qed.

Lemma retire_inv code m : Inv m -> Inv (retireWait code m).
Proof.
  intros Hm. unfold retireWait. destruct (current m) as [i|] eqn:Hcur; [|done].
  pose proof (iv_current _ Hm i Hcur) as Hwo. destruct (iv_wait _ Hm i Hwo) as (w & Hi & Hp & Hlen & Hcm & _ & _).
  destruct (iv_open _ Hm i w Hcur Hi) as (_ & Hnr & _).
  constructor; cbn; try done; try apply Hm; [by apply resolving_ext, alter_ext|].
  intros j Hj. assert (j = i) as -> by congruence. eexists. split; [by apply alter_eq|]. rewrite length_alter. cbn.
  do 3 (split; [done|]). split; [by intros out [= <-]|done].
Qed.

Lemma arb_inv o m : Inv m -> arbLocked (writer m) && negb (isFence o) = false -> Inv (set_arb (Arbitration.step o (arb m)) m).
Proof.
  intros [Hc Ho Hr Hw Hwr Hg] Hl. constructor; cbn; try done.
  destruct (writer m); try done; cbn in Hl; by destruct o.
Qed.

(** ** The writer *)

(** The writer goes on with the wait it has. *)
Lemma goto_inv m p :
  Inv m -> waitOf p = waitOf (writer m) -> pairOf p = pairOf (writer m) \/ waitOf p = None -> committed p = committed (writer m) ->
  (match p with
   | LeadWriting tok l s _ | Pace tok l s _ | Paced tok l s _ | SuffixCheck tok l s _ | SuffixLocked tok l s _ =>
       wroteLead l (tokGen tok) (wrote m)
   | SuffixWriting tok l s _ => wrotePair l s (tokGen tok) (wrote m)
   | Await l s _ => exists gen, wrotePair l s gen (wrote m)
   | _ => True
   end) ->
  (match p with LeadLocked tok _ _ _ | SuffixLocked tok _ _ _ => ownershipGen (arb m) = tokGen tok | _ => True end) ->
  Inv (goto p m).
Proof.
  intros [Hc Ho Hr Hw Hwr Hg] E1 E2 E3 Hwr' Hg'. constructor; cbn; try done; [by rewrite E1|].
  intros i Hi. destruct E2 as [E2|E2]; [|congruence]. rewrite E2, E3. apply Hw. congruence.
Qed.

Lemma finish_inv m r d :
  (forall i b st, resolving m = Some (i, b, st) -> exists w, waits m !! i = Some w /\ full w b st) ->
  current m = None -> Inv (finish r (set_failures d m)).
Proof. intros Hr Hc. constructor; cbn; try done; by rewrite Hc. Qed.
Lemma finish_inv' m r : Inv m -> current m = None -> Inv (finish r m).
Proof. intros Hm Hc. pose proof (finish_inv m r (failures m) (iv_resolving _ Hm) Hc) as H. by destruct m. Qed.

Lemma drop_current m : Inv m -> current (dropGatewayLeadWait (waitOf (writer m)) m) = None.
Proof.
  intros Hm. unfold dropGatewayLeadWait. case_bool_decide as Hd; [done|]. destruct (current m) as [i|] eqn:Hc; [|done].
  destruct Hd. pose proof (iv_current _ Hm i Hc) as Hw. split; congruence.
Qed.
Lemma drop_resolving m w i b st :
  Inv m -> resolving (dropGatewayLeadWait w m) = Some (i, b, st) -> exists w', waits (dropGatewayLeadWait w m) !! i = Some w' /\ full w' b st.
Proof. intros Hm. unfold dropGatewayLeadWait. case_bool_decide; apply (iv_resolving _ Hm). Qed.

(** The end of a write that drops its wait. *)
Lemma fail_inv m w r d : Inv m -> waitOf (writer m) = w -> Inv (finish r (set_failures d (dropGatewayLeadWait w m))).
Proof. intros Hm <-. apply finish_inv; [by intros i b st; apply drop_resolving|by apply drop_current]. Qed.
Lemma fail_inv' m w r : Inv m -> waitOf (writer m) = w -> Inv (finish r (dropGatewayLeadWait w m)).
Proof.
  intros Hm Hw. pose proof (fail_inv m w r (failures m) Hm Hw) as H. revert H. unfold dropGatewayLeadWait.
  case_bool_decide; by destruct m.
Qed.

(** A receive of the outcome: what it says, and the end of the write. *)
Lemma receive_inv i m m' w out now :
  Inv m -> waitOf (writer m) = Some i -> receive i m = Some (m', w, out) ->
  let '(m2, err) := gatewayPairFailure w out now m' in
  waits m !! i = Some w /\ result w = Some out /\ decided w out (wrote m) /\ Inv (finish err m2) /\
  wrote m2 = wrote m /\ writer m2 = writer m /\
  (committed (writer m) = false -> err <> None).
Proof.
  intros Hm Hwo. unfold receive. destruct (waits m !! i) as [w0|] eqn:Hi; [|done]. cbn.
  destruct (result w0) as [o|] eqn:Ho; [|done]. cbn. intros [= <- <- <-].
  destruct (iv_wait _ Hm i Hwo) as (w1 & Hi1 & _ & _ & Hcm & Hout & _). assert (w1 = w0) as -> by congruence.
  pose proof (Hout _ Ho) as Hd.
  assert (Hcur : current m = None).
  { destruct (current m) as [j|] eqn:Hc; [|done]. pose proof (iv_current _ Hm j Hc). assert (j = i) as -> by congruence.
    destruct (iv_open _ Hm i w0 Hc Hi) as (? & _). congruence. }
  set (m1 := updWait i (set_result None) m).
  assert (Hr1 : forall j b st, resolving m1 = Some (j, b, st) -> exists w, waits m1 !! j = Some w /\ full w b st).
  { apply (resolving_ext m (waits m1) Hm). by apply alter_ext. }
  unfold gatewayPairFailure. unfold decided in Hd. destruct (oerr o) as [code|] eqn:Heo.
  { split; [done|]. split; [done|]. split; [by unfold decided; rewrite Heo|]. split; [|done].
    pose proof (finish_inv m1 (Some (Retired code)) (failures m1) Hr1 Hcur) as H. by destruct m. }
  destruct (suffixStep o && (negb (early o) && (observed o =? suffix w0))) eqn:Hok.
  - split; [done|]. split; [done|]. split; [by unfold decided; rewrite Heo|]. split; [|split; [done|]; split; [done|]].
    + pose proof (finish_inv m1 None (failures m1) Hr1 Hcur) as H. by destruct m.
    + intros Hnc _. destruct Hd as [_ Hd]. destruct (early o); [by destruct (suffixStep o)|]. destruct Hd as [Hd _].
      apply Hcm in Hd. congruence.
  - split; [done|]. split; [done|]. split; [by unfold decided; rewrite Heo|]. split; [|done]. by apply finish_inv.
Qed.

(** The writer puts a symbol on the wire before its wait is committed. *)
Lemma checkOwnership_gen tok m : checkOwnership tok m = None -> ownershipGen (arb m) = tokGen tok.
Proof.
  unfold checkOwnership, commitWhileOwnershipCurrent. destruct (lifecycleEpoch (arb m) =? tokEpoch tok); [|done]. cbn.
  destruct (hasOwner (arb m)); [|done]. destruct (currentOwner (arb m) =? tokSession tok); [|done].
  by destruct (Z.eqb_spec (ownershipGen (arb m)) (tokGen tok)).
Qed.

(** What [commitWhileOwnershipCurrent] asks for: the token's ownership period
    goes on, with no lifecycle fence since the grant. *)
Definition tokenCurrent (tok : ownershipToken) (a : arbitrator) : Prop :=
  lifecycleEpoch a = tokEpoch tok /\ hasOwner a = true /\ currentOwner a = tokSession tok /\ ownershipGen a = tokGen tok.
Lemma checkOwnership_spec tok m :
  match checkOwnership tok m with
  | None => tokenCurrent tok (arb m)
  | Some e => ~ tokenCurrent tok (arb m) /\ forall st,
      withheld st e = if lifecycleEpoch (arb m) =? tokEpoch tok then WithheldEnded st else WithheldFenced st
  end.
Proof.
  unfold checkOwnership, commitWhileOwnershipCurrent, tokenCurrent.
  destruct (Z.eqb_spec (lifecycleEpoch (arb m)) (tokEpoch tok)); cbn; [|naive_solver].
  destruct (hasOwner (arb m)); cbn; [|naive_solver]. destruct (Z.eqb_spec (currentOwner (arb m)) (tokSession tok)); cbn; [|naive_solver].
  destruct (Z.eqb_spec (ownershipGen (arb m)) (tokGen tok)); cbn; naive_solver.
Qed.

Lemma decided_pending w out ws ws' : sstate w <> suffixCommitted -> decided w out ws -> decided w out ws'.
Proof. intros Hs. unfold decided. destruct (oerr out); [done|]. intros [Hf He]. split; [done|]. destruct (early out); [done|]. by destruct He. Qed.

Lemma stepLead_inv c m m' : Inv m -> stepLead c m = Some m' -> Inv m'.
Proof.
  intros Hm. unfold stepLead. destruct (writer m) as [|l s raw|tok l s raw|tok l s w|tok l s w|tok l s w| | | | | |] eqn:Hp; try done;
    destruct c as [|now|now| |[code|]]; try done.
  - assert (Hc : current m = None).
    { destruct (current m) eqn:Hc; [|done]. apply (iv_current _ Hm) in Hc. by rewrite Hp in Hc. }
    destruct (currentOwnershipToken _ _); intros [= <-]; [|by apply finish_inv'].
    apply goto_inv; rewrite ?Hp; try done. by right.
  - assert (Hc : current m = None).
    { destruct (current m) eqn:Hc; [|done]. apply (iv_current _ Hm) in Hc. by rewrite Hp in Hc. }
    destruct raw; [|intros [= <-]; apply goto_inv; rewrite ?Hp; try done; by right].
    cbn. intros [= <-]. constructor; cbn; try done.
    + intros i w [= <-] Hi. rewrite list_lookup_middle in Hi by done. injection Hi as <-. split; [done|]. split; [done|].
      left. unfold awaiting. cbn. constructor.
    + apply (resolving_ext m (waits m ++ [newWait l s])); [done|]. intros i w Hi. exists w. split; [|done]. by apply lookup_app_l_Some.
    + intros i [= <-]. exists (newWait l s). rewrite list_lookup_middle by done. rewrite length_app. cbn.
      split; [done|]. split; [done|]. split; [lia|]. done.
  - destruct (checkOwnership tok m) as [e|] eqn:Hck; intros [= <-]; [by apply fail_inv'; rewrite ?Hp|].
    apply goto_inv; rewrite ?Hp; try done; [by left|]. by apply checkOwnership_gen.
  - intros [= <-]. pose proof (iv_gen _ Hm) as Hg. rewrite Hp in Hg. destruct Hm as [Hc Ho Hr Hw Hwr _]. rewrite Hp in *.
    constructor; cbn; try done.
    + intros i Hi. destruct (Hw i Hi) as (wt & ? & ? & ? & Hcm & Hout & ?). exists wt. do 4 (split; [done|]). split; [|done].
      intros out Hout'. eapply decided_pending; [|by apply Hout]. rewrite Hcm. done.
    + exists (wrote m). by rewrite Hg.
  - intros [= <-]. by apply fail_inv'; rewrite ?Hp.
  - intros [= <-]. pose proof (iv_wrote _ Hm) as Hwr. rewrite Hp in Hwr. apply goto_inv; rewrite ?Hp; try done. by left.
Qed.

Lemma stepPace_inv c m m' : Inv m -> stepPace c m = Some m' -> Inv m'.
Proof.
  intros Hm. pose proof (iv_wrote _ Hm) as Hwr. unfold stepPace.
  destruct (writer m) as [| | | | | |tok l s w|tok l s w| | | |] eqn:Hp; try done.
  - assert (Hgo : Inv (goto (Paced tok l s w) m)) by (apply goto_inv; rewrite ?Hp; try done; by left).
    destruct c as [|now|now| |[code|]]; try (by destruct w).
    + repeat case_match; try done. by destruct w; intros [= <-].
    + by destruct w; intros [= <-].
    + destruct w as [i|]; [|done]. destruct (receive i m) as [[[m1 wt] out]|] eqn:Hrc; [|done]. cbn.
      pose proof (receive_inv i m m1 wt out now Hm) as H. rewrite Hp in H. specialize (H eq_refl Hrc).
      destruct (gatewayPairFailure wt out now m1) as [m2 [e|]]; destruct H as (_ & _ & _ & Hi & _ & _ & Hne); [by intros [= <-]|].
      by destruct (Hne eq_refl).
    + intros E. assert (m' = finish (Some CtxDone) (dropGatewayLeadWait w m)) as -> by (destruct w; by injection E).
      apply fail_inv'; [done|]. by rewrite Hp.
  - assert (Hgo : Inv (goto (SuffixCheck tok l s w) m)) by (apply goto_inv; rewrite ?Hp; try done; by left).
    destruct c as [|now|now| |[code|]]; try (by destruct w).
    + intros E. assert (m' = goto (SuffixCheck tok l s w) m) as -> by (destruct w; cbn in E; repeat case_match; simplify_eq; done). done.
    + destruct w as [i|]; [|done]. destruct (receive i m) as [[[m1 wt] out]|] eqn:Hrc; [|done]. cbn.
      pose proof (receive_inv i m m1 wt out now Hm) as H. rewrite Hp in H. specialize (H eq_refl Hrc).
      destruct (gatewayPairFailure wt out now m1) as [m2 [e|]]; destruct H as (_ & _ & _ & Hi & _ & _ & Hne); [by intros [= <-]|].
      by destruct (Hne eq_refl).
Qed.

Lemma commit_inv m tok l s i w :
  Inv m -> writer m = SuffixLocked tok l s (Some i) -> waits m !! i = Some w -> sstate w = suffixPending ->
  Inv (goto (SuffixWriting tok l s (Some i)) (put s (updWait i (set_sstate suffixCommitted) m))).
Proof.
  intros Hm Hp Hi Hs. pose proof (iv_gen _ Hm) as Hg. pose proof (iv_wrote _ Hm) as Hwr. rewrite Hp in Hg, Hwr.
  destruct (iv_wait _ Hm i) as (w0 & Hi0 & Hpair & Hlen & Hcm & Hout & _); [by rewrite Hp|]. assert (w0 = w) as -> by congruence.
  rewrite Hp in Hpair. pose proof (alter_eq (set_sstate suffixCommitted) i (waits m) w Hi) as Hi'.
  constructor; cbn; try done.
  - intros j Hj. rewrite <- (iv_current _ Hm j Hj), Hp. done.
  - intros j w' Hj Hw'. assert (j = i) as -> by (pose proof (iv_current _ Hm j Hj) as Hj'; rewrite Hp in Hj'; by injection Hj').
    rewrite Hi' in Hw'. injection Hw' as <-. destruct (iv_open _ Hm i w Hj Hi) as (? & _ & ?). by split.
  - apply (resolving_ext m (alter (set_sstate suffixCommitted) i (waits m))); [done|]. by apply alter_ext.
  - intros j [= <-]. exists (set_sstate suffixCommitted w). rewrite length_alter. do 4 (split; [done|]). split; [|done].
    intros out Hres. pose proof (Hout out Hres) as Hd. unfold decided in *. destruct (oerr out); [done|].
    destruct Hd as [_ Hd]. rewrite Hs in Hd. destruct (early out); [done|]. by destruct Hd.
  - destruct Hwr as [pre ->]. exists pre. by rewrite Hg, <- app_assoc.
Qed.

Lemma stepSuffix_inv c m m' : Inv m -> stepSuffix c m = Some m' -> Inv m'.
Proof.
  intros Hm. pose proof (iv_wrote _ Hm) as Hwr. unfold stepSuffix.
  destruct (writer m) as [| | | | | | | |tok l s w|tok l s w|tok l s w|l s i] eqn:Hp; try done.
  - destruct c as [|now|now| |[code|]]; try done.
    destruct (checkOwnership tok m) as [e|] eqn:Hck; intros [= <-]; [by apply fail_inv'; rewrite ?Hp|].
    apply goto_inv; rewrite ?Hp; try done; [by left|]. by apply checkOwnership_gen.
  - destruct w as [i|].
    + destruct c as [|now|now| |[code|]]; try done; destruct (waits m !! i) as [w|] eqn:Hi; try done; cbn; case_bool_decide as Hs; try done.
      * intros [= <-]. by eapply commit_inv.
      * destruct (receive i m) as [[[m1 wt] out]|] eqn:Hrc; [|done]. cbn. pose proof (receive_inv i m m1 wt out now Hm) as H.
        rewrite Hp in H. specialize (H eq_refl Hrc). destruct (gatewayPairFailure wt out now m1) as [m2 err].
        intros [= <-]. apply H.
    + destruct c as [|now|now| |[code|]]; try done. intros [= <-]. pose proof (iv_gen _ Hm) as Hg. rewrite Hp in Hg.
      destruct Hm as [Hc Ho Hr Hw _ _]. rewrite Hp in *. constructor; cbn; try done.
      destruct Hwr as [pre ->]. exists pre. by rewrite Hg, <- app_assoc.
  - destruct c as [|now|now| |[code|]]; try (by destruct w).
    + intros E. assert (m' = finish (Some (Transport code)) (dropGatewayLeadWait w m)) as -> by (destruct w; by injection E).
      apply fail_inv'; [done|]. by rewrite Hp.
    + destruct w as [i|]; intros [= <-].
      * apply goto_inv; rewrite ?Hp; try done; [by left|by eauto].
      * apply finish_inv'; [done|]. destruct (current m) eqn:Hc; [|done]. apply (iv_current _ Hm) in Hc. by rewrite Hp in Hc.
  - destruct c as [|now|now| |[code|]]; try done.
    + destruct (waits m !! i) as [w|] eqn:Hi; [|done]. cbn. intros [= <-]. apply (fail_inv m (Some i)); [done|]. by rewrite Hp.
    + destruct (receive i m) as [[[m1 wt] out]|] eqn:Hrc; [|done]. cbn. pose proof (receive_inv i m m1 wt out now Hm) as H.
      rewrite Hp in H. specialize (H eq_refl Hrc). destruct (gatewayPairFailure wt out now m1) as [m2 err].
      intros [= <-]. apply H.
    + intros [= <-]. apply fail_inv'; [done|]. by rewrite Hp.
Qed.

Lemma step_inv x m m' : Inv m -> step x m = Some m' -> Inv m'.
Proof.
  intros Hm. destruct x as [symbols raw err|c|b ev| |code|o]; cbn [step].
  - destruct (writer m) eqn:Hp; try done.
    assert (Hc : current m = None) by (destruct (current m) eqn:Hc; [|done]; apply (iv_current _ Hm) in Hc; by rewrite Hp in Hc).
    destruct symbols as [|b [|s [|? ?]]]; try done; intros [= <-].
    + constructor; cbn; try done; [by rewrite Hc|by rewrite Hc|apply Hm].
    + apply goto_inv; rewrite ?Hp; try done. by right.
  - intros Hs. destruct (writer m) eqn:Hp; try done; first [by eapply stepLead_inv | by eapply stepPace_inv | by eapply stepSuffix_inv].
  - destruct (resolving m) eqn:Hr; [done|]. intros [= <-]. by apply observe_inv.
  - destruct (resolving m) as [[[i b] st]|] eqn:Hr; [|done]. case_match eqn:Hl; [done|]. intros [= <-]. by apply resolve_inv.
  - intros [= <-]. by apply retire_inv.
  - case_match eqn:Hl; [done|]. intros [= <-]. by apply arb_inv.
Qed.

Lemma reachable_inv m : reachable m -> Inv m.
Proof. induction 1 as [a|m x m' _ IH Hs]; [apply start_inv|]. by eapply step_inv. Qed.

(** ** Theorems *)

(** What a returned pair amounts to. *)
Lemma receive_ok i m m' w out now m2 :
  Inv m -> waitOf (writer m) = Some i -> receive i m = Some (m', w, out) -> gatewayPairFailure w out now m' = (m2, None) ->
  waits m !! i = Some w /\ decidedAt w = Some (length (wrote m)) /\
  (exists gen, wrotePair (lead w) (suffix w) gen (wrote m)) /\
  exists sy b, syns sy /\ seen w = sy ++ [(lead w, false); (suffix w, b)].
Proof.
  intros Hm Hwo Hrc Hgp. pose proof (receive_inv i m m' w out now Hm Hwo Hrc) as H. rewrite Hgp in H.
  destruct H as (Hi & _ & Hd & _). split; [done|]. revert Hgp. unfold gatewayPairFailure, decided in *.
  destruct (oerr out); [done|]. destruct Hd as [[Hst Hfull] Hd]. 
  destruct (suffixStep out) eqn:Hss; cbn [andb]; [|discriminate]. destruct (early out); cbn [negb andb]; [discriminate|].
  destruct (Z.eqb_spec (observed out) (suffix w)) as [Ho|]; [|discriminate]. intros _. destruct Hd as (_ & ? & ?).
  split; [done|]. split; [done|]. rewrite <- Hst, Ho in Hfull. done.
Qed.

(** ** The writer alone *)

(** How many steps of the writer are left at most. *)
Definition rank (p : pc) : nat :=
  match p with
  | Token _ _ _ => 11 | Arm _ _ _ _ => 10 | LeadCheck _ _ _ _ => 9 | LeadLocked _ _ _ _ => 8 | LeadWriting _ _ _ _ => 7
  | Pace _ _ _ _ => 6 | Paced _ _ _ _ => 5 | SuffixCheck _ _ _ _ => 4 | SuffixLocked _ _ _ _ => 3
  | SuffixWriting _ _ _ _ => 2 | Await _ _ _ => 1 | Ready _ => 0
  end%nat.

(** A step of the writer, by where it was: what it did to the wire and where
    it is. *)
Inductive moved (m : mux) : pc -> list (byte * Z) -> Prop :=
| moved_on p : (rank p < rank (writer m))%nat -> committed p = committed (writer m) -> rank p <> 0%nat -> moved m p (wrote m)
| moved_lead tok l s w : writer m = LeadLocked tok l s w -> moved m (LeadWriting tok l s w) (wrote m ++ [(l, ownershipGen (arb m))])
| moved_suffix tok l s w : writer m = SuffixLocked tok l s w ->
    (forall i wt, w = Some i -> waits m !! i = Some wt -> sstate wt = suffixPending) ->
    moved m (SuffixWriting tok l s w) (wrote m ++ [(s, ownershipGen (arb m))])
| moved_failed e : moved m (Ready (Some (Some e))) (wrote m)
| moved_logical tok l s : writer m = SuffixWriting tok l s None -> moved m (Ready (Some None)) (wrote m)
| moved_verified l s i w sy b : writer m = Await l s i -> waits m !! i = Some w -> syns sy ->
    seen w = sy ++ [(l, false); (s, b)] -> decidedAt w = Some (length (wrote m)) -> moved m (Ready (Some None)) (wrote m).

Lemma wrote_drop w m : wrote (dropGatewayLeadWait w m) = wrote m.
Proof. unfold dropGatewayLeadWait. by case_bool_decide. Qed.

(** The receive of an outcome ends the write. *)
Lemma receive_moved i m m1 wt out now m2 err :
  Inv m -> waitOf (writer m) = Some i -> receive i m = Some (m1, wt, out) -> gatewayPairFailure wt out now m1 = (m2, err) ->
  wrote m2 = wrote m /\ (err <> None \/ (committed (writer m) = true /\ waits m !! i = Some wt /\ decidedAt wt = Some (length (wrote m)) /\
     exists sy b, syns sy /\ seen wt = sy ++ [(lead wt, false); (suffix wt, b)])).
Proof.
  intros Hm Hwo Hrc Hg. pose proof (receive_inv i m m1 wt out now Hm Hwo Hrc) as H. rewrite Hg in H.
  destruct H as (_ & _ & _ & _ & Hw & _ & Hne). split; [done|]. destruct err; [by left|]. right.
  destruct (receive_ok i m m1 wt out now m2 Hm Hwo Hrc Hg) as (? & ? & _ & ?).
  split; [|done]. destruct (committed (writer m)); [done|]. by destruct (Hne eq_refl).
Qed.

Definition movedTo (m m' : mux) : Prop := moved m (writer m') (wrote m').

Lemma movedTo_fail m e d w : movedTo m (finish (Some e) (set_failures d (dropGatewayLeadWait w m))).
Proof. unfold movedTo. cbn. rewrite wrote_drop. apply moved_failed. Qed.
Lemma movedTo_fail' m e w : movedTo m (finish (Some e) (dropGatewayLeadWait w m)).
Proof. unfold movedTo. cbn. rewrite wrote_drop. apply moved_failed. Qed.
Lemma movedTo_goto m p :
  (rank p < rank (writer m))%nat -> committed p = committed (writer m) -> rank p <> 0%nat -> movedTo m (goto p m).
Proof. intros. unfold movedTo. cbn. by apply moved_on. Qed.
Lemma movedTo_receive m i m1 wt out now :
  Inv m -> waitOf (writer m) = Some i -> committed (writer m) = false -> receive i m = Some (m1, wt, out) ->
  let '(m2, err) := gatewayPairFailure wt out now m1 in err <> None /\ movedTo m (finish err m2).
Proof.
  intros Hm Hwo Hnc Hrc. destruct (gatewayPairFailure wt out now m1) as [m2 err] eqn:Hg.
  destruct (receive_moved i m m1 wt out now m2 err Hm Hwo Hrc Hg) as [Hw [He|(Hc & _)]]; [|congruence].
  split; [done|]. destruct err as [e|]; [|done]. unfold movedTo. cbn. rewrite Hw. apply moved_failed.
Qed.

Lemma stepLead_moved c m m' : stepLead c m = Some m' -> movedTo m m'.
Proof.
  unfold stepLead. destruct (writer m) as [|l s raw|tok l s raw|tok l s w|tok l s w|tok l s w| | | | | |] eqn:Hp; try done;
    destruct c as [|now|now| |[code|]]; try done.
  - destruct (currentOwnershipToken _ _); intros [= <-]; [|unfold movedTo; cbn; apply moved_failed]. apply movedTo_goto; rewrite ?Hp; cbn; auto; lia.
  - destruct raw; cbn; intros [= <-].
    + unfold movedTo. cbn. apply moved_on; rewrite ?Hp; cbn; auto; lia.
    + apply movedTo_goto; rewrite ?Hp; cbn; auto; lia.
  - destruct (checkOwnership tok m); intros [= <-]; [apply movedTo_fail'|]. apply movedTo_goto; rewrite ?Hp; cbn; auto; lia.
  - intros [= <-]. unfold movedTo. cbn. by apply moved_lead.
  - intros [= <-]. apply movedTo_fail'.
  - intros [= <-]. apply movedTo_goto; rewrite ?Hp; cbn; auto; lia.
Qed.

Lemma stepPace_moved c m m' : Inv m -> stepPace c m = Some m' -> movedTo m m'.
Proof.
  intros Hm. unfold stepPace.
  assert (Hrec : forall i now m1 wt out, waitOf (writer m) = Some i -> committed (writer m) = false -> receive i m = Some (m1, wt, out) ->
     forall p, match gatewayPairFailure wt out now m1 with (m2, Some e) => Some (finish (Some e) m2) | (m2, None) => Some (goto p m2) end = Some m' ->
     movedTo m m').
  { intros i now m1 wt out Hwo Hnc Hrc p. pose proof (movedTo_receive m i m1 wt out now Hm Hwo Hnc Hrc) as H.
    destruct (gatewayPairFailure wt out now m1) as [m2 [e|]]; [intros [= <-]; apply H|by destruct H]. }
  destruct (writer m) as [| | | | | |tok l s w|tok l s w| | | |] eqn:Hp; try done.
  - assert (Hgo : movedTo m (goto (Paced tok l s w) m)) by (apply movedTo_goto; rewrite ?Hp; cbn; auto; lia).
    destruct c as [|now|now| |[code|]]; try (by destruct w).
    + intros E. assert (m' = goto (Paced tok l s w) m) as -> by (destruct w; cbn in E; repeat case_match; simplify_eq; done). done.
    + by destruct w; intros [= <-].
    + destruct w as [i|]; [|done]. destruct (receive i m) as [[[m1 wt] out]|] eqn:Hrc; [|done]. cbn. by eapply Hrec.
    + intros E. assert (m' = finish (Some CtxDone) (dropGatewayLeadWait w m)) as -> by (destruct w; by injection E). apply movedTo_fail'.
  - assert (Hgo : movedTo m (goto (SuffixCheck tok l s w) m)) by (apply movedTo_goto; rewrite ?Hp; cbn; auto; lia).
    destruct c as [|now|now| |[code|]]; try (by destruct w).
    + intros E. assert (m' = goto (SuffixCheck tok l s w) m) as -> by (destruct w; cbn in E; repeat case_match; simplify_eq; done). done.
    + destruct w as [i|]; [|done]. destruct (receive i m) as [[[m1 wt] out]|] eqn:Hrc; [|done]. cbn. by eapply Hrec.
Qed.

Lemma stepSuffix_moved c m m' : Inv m -> stepSuffix c m = Some m' -> movedTo m m'.
Proof.
  intros Hm. unfold stepSuffix.
  destruct (writer m) as [| | | | | | | |tok l s w|tok l s w|tok l s w|l s i] eqn:Hp; try done.
  - destruct c as [|now|now| |[code|]]; try done.
    destruct (checkOwnership tok m); intros [= <-]; [apply movedTo_fail'|]. apply movedTo_goto; rewrite ?Hp; cbn; auto; lia.
  - destruct w as [i|].
    + destruct c as [|now|now| |[code|]]; try done; destruct (waits m !! i) as [w|] eqn:Hi; try done; cbn; case_bool_decide as Hs; try done.
      * intros [= <-]. unfold movedTo. cbn. apply moved_suffix; [done|]. intros j wt [= <-] Hj. congruence.
      * destruct (receive i m) as [[[m1 wt] out]|] eqn:Hrc; [|done]. cbn. pose proof (movedTo_receive m i m1 wt out now Hm) as H.
        rewrite Hp in H. specialize (H eq_refl eq_refl Hrc). destruct (gatewayPairFailure wt out now m1) as [m2 err].
        intros [= <-]. apply H.
    + destruct c as [|now|now| |[code|]]; try done. intros [= <-]. unfold movedTo. cbn. by apply moved_suffix.
  - destruct c as [|now|now| |[code|]]; try (by destruct w).
    + intros E. assert (m' = finish (Some (Transport code)) (dropGatewayLeadWait w m)) as -> by (destruct w; by injection E). apply movedTo_fail'.
    + destruct w as [i|]; intros [= <-].
      * apply movedTo_goto; rewrite ?Hp; cbn; auto; lia.
      * unfold movedTo. cbn. by eapply moved_logical.
  - destruct c as [|now|now| |[code|]]; try done.
    + destruct (waits m !! i) as [w|] eqn:Hi; [|done]. cbn. intros [= <-]. apply (movedTo_fail m).
    + destruct (receive i m) as [[[m1 wt] out]|] eqn:Hrc; [|done]. cbn. destruct (gatewayPairFailure wt out now m1) as [m2 err] eqn:Hg.
      intros [= <-]. pose proof (receive_moved i m m1 wt out now m2 err Hm) as H. rewrite Hp in H. destruct (H eq_refl Hrc Hg) as [Hw Hd].
      unfold movedTo. cbn. rewrite Hw. destruct err as [e|]; [apply moved_failed|].
      destruct Hd as [Hd|(_ & Hi & Hat & sy & b & Hsy & Hse)]; [done|].
      destruct (iv_wait _ Hm i) as (w0 & Hi0 & Hpair & _); [by rewrite Hp|]. rewrite Hp in Hpair. cbn in Hpair.
      assert (w0 = wt) as -> by congruence. injection Hpair as -> ->. by eapply moved_verified.
    + intros [= <-]. apply movedTo_fail'.
Qed.

Lemma writer_moved c m m' : Inv m -> step (LWriter c) m = Some m' -> moved m (writer m') (wrote m').
Proof.
  intros Hm. cbn [step]. intros Hs.
  destruct (writer m) eqn:Hp; try done; first [by eapply stepLead_moved | by eapply stepPace_moved | by eapply stepSuffix_moved].
Qed.

(** ** Theorems *)

(** C10: A write of an escape pair succeeds only when it was verified,
    whatever the read loop, the arbitrator, resets and timers do meanwhile:
    the last two symbols handed to the adapter are the lead and the suffix,
    in one ownership generation; of the symbols the read loop took for the
    pair the first that is not a structural SYN is the echo of the lead and
    the very next one equals the suffix; and when the pair was decided every
    write, the one of the suffix included, had returned.  (An upstream without
    the raw view has only the first part; the logical echo verifies the
    rest.) *)
Theorem escape_pair_verified (m : mux) (c : choice) (m' : mux) :
  reachable m -> step (LWriter c) m = Some m' -> writer m' = Ready (Some None) ->
  exists l s gen, wrotePair l s gen (wrote m') /\
    ((exists i w sy b, writer m = Await l s i /\ waits m !! i = Some w /\ syns sy /\
        seen w = sy ++ [(l, false); (s, b)] /\ decidedAt w = Some (length (wrote m'))) \/
     exists tok, writer m = SuffixWriting tok l s None).
Proof.
  intros Hr Hs Hw'. pose proof (reachable_inv m Hr) as Hm. pose proof (iv_wrote _ Hm) as Hwr.
  pose proof (writer_moved c m m' Hm Hs) as Hmv. revert Hw'. destruct Hmv as [p H1 H2 H3|tok l s w Hp|tok l s w Hp Hu|e|tok l s Hp|l s i w sy b Hp Hi Hsy Hse Hat];
    try done; intros Hw'.
  - by rewrite Hw' in H3.
  - rewrite Hp in Hwr. exists l, s, (tokGen tok). split; [done|]. right. eauto.
  - rewrite Hp in Hwr. destruct Hwr as [gen Hwr]. exists l, s, gen. split; [done|]. left. by exists i, w, sy, b.
Qed.

(** Where a checked write stands: before the check and behind it. *)
Definition checkOf (p : pc) : option (gatewayEscapeStep * ownershipToken) :=
  match p with
  | LeadCheck tok _ _ _ => Some (StepLead, tok)
  | SuffixCheck tok _ _ _ => Some (StepSuffix, tok)
  | _ => None
  end.
Definition passedOf (p : pc) : option (gatewayEscapeStep * ownershipToken) :=
  match p with
  | LeadLocked tok _ _ _ => Some (StepLead, tok)
  | SuffixLocked tok _ _ _ => Some (StepSuffix, tok)
  | _ => None
  end.
Lemma writer_checks c m m' st tok :
  step (LWriter c) m = Some m' -> checkOf (writer m) = Some (st, tok) ->
  tokenCurrent tok (arb m) /\ passedOf (writer m') = Some (st, tok) /\ wrote m' = wrote m \/
  ~ tokenCurrent tok (arb m) /\ wrote m' = wrote m /\
    writer m' = Ready (Some (Some (if lifecycleEpoch (arb m) =? tokEpoch tok then WithheldEnded st else WithheldFenced st))).
Proof.
  cbn [step]. unfold stepLead, stepSuffix. destruct (writer m) as [| | |tok' l s w| | | | |tok' l s w| | |] eqn:Hp; try done; destruct c; try done;
    intros Hs [= <- <-]; pose proof (checkOwnership_spec tok' m) as Hk; destruct (checkOwnership tok' m) as [e|]; injection Hs as <-; cbn;
    rewrite ?wrote_drop; first [by left | (right; destruct Hk as [Hk Hw]; by rewrite Hw)].
Qed.
Lemma writer_passed c m m' st tok :
  step (LWriter c) m = Some m' -> passedOf (writer m') = Some (st, tok) -> checkOf (writer m) = Some (st, tok).
Proof.
  cbn [step]. unfold stepLead, stepPace, stepSuffix, receive.
  destruct (writer m) as [|l s raw|tok' l s raw|tok' l s w|tok' l s w|tok' l s w|tok' l s w|tok' l s w|tok' l s w|tok' l s w|tok' l s w|l s i];
    try done; destruct c as [|now|now| |[code|]]; try done; cbn [armGatewayLeadWait mbind option_bind];
    repeat (case_match; try done); intros Hs;
    repeat match goal with
           | H : context [waits m !! ?n ≫= _] |- _ => destruct (waits m !! n); cbn in H; [|done]
           | H : context [result ?w ≫= _] |- _ => destruct (result w); cbn in H; [|done]
           | H : context [if ?b then _ else _] |- _ => destruct b; try done
           | H : context [gatewayPairFailure ?w ?o ?t ?x] |- _ => destruct (gatewayPairFailure w o t x) as [? []]
           end; by simplify_eq.
Qed.


(** A write always ends.  In every reachable state a writer that has not
    returned can take a step whatever the others have done (it never waits
    for an outcome that cannot come while it holds the arbitrator's lock),
    each of its steps brings it nearer to its return, so it returns after at
    most eleven, and no step of the others moves it. *)
Theorem escape_pair_ends (m : mux) :
  reachable m ->
  (rank (writer m) <> 0%nat -> exists c m', step (LWriter c) m = Some m') /\
  (forall c m', step (LWriter c) m = Some m' -> (rank (writer m') < rank (writer m))%nat) /\
  (forall x m', step x m = Some m' -> rank (writer m) <> 0%nat -> (forall c, x <> LWriter c) -> writer m' = writer m).
Proof.
  intros Hr. pose proof (reachable_inv m Hr) as Hm. split; [|split].
  - intros Hrk. cbn [step].
    destruct (writer m) as [|l s raw|tok l s raw|tok l s w|tok l s w|tok l s w|tok l s w|tok l s w|tok l s w|tok l s w|tok l s w|l s i] eqn:Hp;
      try done; unfold stepLead, stepPace, stepSuffix; rewrite Hp.
    + exists Go. case_match; eauto.
    + exists Go. destruct raw; eauto.
    + exists Go. case_match; eauto.
    + exists Go. eauto.
    + exists (Returned None). eauto.
    + exists (Timer 0). destruct w; eauto.
    + destruct w as [i|]; [|exists Go; eauto]. destruct (waits m !! i) as [wt|] eqn:Hi; [|exists Go; cbn; rewrite Hi; eauto].
      destruct (result wt) as [out|] eqn:Ho; [|exists Go; cbn; rewrite Hi; cbn; rewrite Ho; eauto].
      exists (Result 0). unfold receive. rewrite Hi. cbn. rewrite Ho. cbn. destruct (gatewayPairFailure _ _ _ _) as [m2 [e|]]; eauto.
    + exists Go. case_match; eauto.
    + destruct w as [i|]; [|exists Go; eauto]. destruct (iv_wait _ Hm i) as (wt & Hi & _ & _ & Hcm & _ & Href); [by rewrite Hp|].
      destruct (decide (sstate wt = suffixPending)) as [Hs|Hs]; [exists Go; rewrite Hi; cbn; rewrite bool_decide_eq_true_2 by done; eauto|].
      rewrite Hp in Hcm. cbn in Hcm. assert (sstate wt = suffixRefuted) as Hre by (destruct (sstate wt); [done|by discriminate (proj1 Hcm)|done]).
      destruct (Href Hre) as (out & Ho & _). exists (Result 0). rewrite Hi. cbn. rewrite bool_decide_eq_false_2 by done.
      unfold receive. rewrite Hi. cbn. rewrite Ho. cbn. destruct (gatewayPairFailure _ _ _ _) as [m2 e]. eauto.
    + exists (Returned None). destruct w; eauto.
    + exists Ctx. eauto.
  - intros c m' Hs. pose proof (writer_moved c m m' Hm Hs) as Hmv. assert (Hrk : rank (writer m) <> 0%nat) by (cbn [step] in Hs; by destruct (writer m)).
    destruct Hmv as [p H1 H2 H3|tok l s w Hp|tok l s w Hp Hu|e|tok l s Hp|l s i w sy b Hp Hi Hsy Hse Hat];
      rewrite ?Hp; cbn; lia.
  - intros x m' Hs Hrk Hx. destruct x as [symbols raw err|c|b ev| |code|o]; cbn [step] in Hs.
    + by destruct (writer m).
    + by destruct (Hx c).
    + case_match; [done|]. injection Hs as <-. unfold observeGatewayLeadEcho. repeat case_match; done.
    + repeat case_match; try done. injection Hs as <-. unfold resolveGatewayLeadWait. repeat case_match; done.
    + injection Hs as <-. unfold retireWait. by case_match.
    + case_match; [done|]. by injection Hs as <-.
Qed.
End Inv.

(** ** The encoding and the tap's decoder *)

Section Roundtrip.
Context {P : EbusProtocol} {L : EbusLaws P}.

(** What the passive tap's escape decoder makes of raw symbols: the bytes
    with their provenance, [None] after an invalid escape or inside one. *)
Fixpoint decodeRaw (escape : bool) (raws : list byte) : option (list (byte * bool)) :=
  match raws with
  | [] => if escape then None else Some []
  | raw :: raws =>
      match PassiveTap.push escape raw with
      | (e, PassiveTap.NeedMore) => decodeRaw e raws
      | (e, PassiveTap.Decoded b w) => cons (b, w) <$> decodeRaw e raws
      | (_, PassiveTap.PushError _) => None
      end
  end.

(** Whether a written byte goes out as an escape pair. *)
Definition escapes (x : byte * bool) : bool :=
  let '(data, structural) := x in (data =? SymbolEscape) || ((data =? SymbolSyn) && negb structural).

Lemma decode_one data structural rest :
  decodeRaw false (gatewaySendSymbols data structural ++ rest) = cons (data, escapes (data, structural)) <$> decodeRaw false rest.
Proof.
  destruct L as [Hsyn Hesc _ _ _ _].
  assert (H1 : PassiveTap.push false 0xA9 = (true, PassiveTap.NeedMore)) by (unfold PassiveTap.push; by rewrite Hesc).
  assert (H2 : PassiveTap.push true 0x00 = (false, PassiveTap.Decoded 0xA9 true)) by (unfold PassiveTap.push; by rewrite Hesc).
  assert (H3 : PassiveTap.push true 0x01 = (false, PassiveTap.Decoded 0xAA true)) by (unfold PassiveTap.push; by rewrite Hsyn).
  assert (H4 : forall d, d <> 0xA9 -> PassiveTap.push false d = (false, PassiveTap.Decoded d false)).
  { intros d Hd. unfold PassiveTap.push. rewrite Hesc. by rewrite (proj2 (Z.eqb_neq _ _) Hd). }
  unfold gatewaySendSymbols, escapes. rewrite Hsyn, Hesc.
  destruct (Z.eqb_spec data 0xAA) as [->|Ha]; [|destruct (Z.eqb_spec data 0xA9) as [->|He]]; destruct structural;
    repeat (change (0xAA =? 0xA9) with false); cbn [andb orb negb app decodeRaw];
    rewrite ?H1, ?H2, ?H3, ?H4 by done; cbn [decodeRaw]; by rewrite ?H2, ?H3.
Qed.

(** C32: What the gateway writes is what a listener decodes: the raw symbols
    of any sequence of logical writes, run through the tap's escape decoder,
    give back the same bytes in order, marked as escaped exactly for 0xA9
    and for a 0xAA that is not the structural SYN; so a payload can never
    put a bare 0xAA on the wire. *)
Theorem gateway_symbols_roundtrip (ws : list (byte * bool)) :
  decodeRaw false (flat_map (fun x => gatewaySendSymbols (fst x) (snd x)) ws) = Some (map (fun x => (fst x, escapes x)) ws).
Proof.
  induction ws as [|[data structural] ws IH]; [done|]. cbn [flat_map map fst snd]. by rewrite decode_one, IH.
Qed.
End Roundtrip.

(** ** Concrete runs *)

Section Demo.
#[local] Existing Instance demo_protocol.

Lemma gateway_symbols_roundtrip_witness :
  flat_map (fun x => gatewaySendSymbols (fst x) (snd x)) [(0xAA, true); (0x31, false); (0xAA, false); (0xA9, false)]
    = [0xAA; 0x31; 0xA9; 0x01; 0xA9; 0x00] /\
  decodeRaw false [0xAA; 0x31; 0xA9; 0x01; 0xA9; 0x00] = Some [(0xAA, false); (0x31, false); (0xAA, true); (0xA9, true)].
Proof.
  split; [vm_compute; done|].
  exact (@gateway_symbols_roundtrip demo_protocol demo_laws [(0xAA, true); (0x31, false); (0xAA, false); (0xA9, false)]).
Defined.

Fixpoint run (xs : list label) (m : mux) : option mux :=
  match xs with [] => Some m | x :: xs => m ← step x m; run xs m end.
Lemma run_reachable xs m m' : reachable m -> run xs m = Some m' -> reachable m'.
Proof.
  revert m. induction xs as [|x xs IH]; intros m Hr; cbn; [by intros [= <-]|].
  destruct (step x m) as [m1|] eqn:Hs; [|done]. cbn. apply IH. by eapply reach_step.
Qed.

Definition owned : mux := start (confirmOwnership gatewaySessionID 0x31 newArbitrator).
Definition toPace : list label := [LWrite [0xA9; 0x00] true None; LWriter Go; LWriter Go; LWriter Go; LWriter Go; LWriter (Returned None)].
(** The lead is echoed after a structural SYN, the suffix is written, and its
    echo decides the pair. *)
Definition verified : list label :=
  toPace ++ [LObserve 0xAA EvWireSyn; LObserve 0xA9 EvNone; LWriter Go; LWriter Go; LWriter Go; LWriter Go;
             LWriter (Returned None); LObserve 0x00 (EvByte 0xA9 true); LResolve].

Lemma escape_pair_verified_witness :
  exists m m', run verified owned = Some m /\ step (LWriter (Result 0)) m = Some m' /\
    exists l s gen, wrotePair l s gen (wrote m').
Proof.
  destruct (run verified owned) as [m|] eqn:Hm; [|vm_compute in Hm; discriminate].
  destruct (step (LWriter (Result 0)) m) as [m'|] eqn:Hs; [|vm_compute in Hm; injection Hm as <-; vm_compute in Hs; discriminate].
  exists m, m'. split; [done|]. split; [done|].
  destruct (escape_pair_verified m (Result 0) m') as (l & s & gen & H & _).
  - eapply run_reachable; [apply reach_start|exact Hm].
  - done.
  - vm_compute in Hm. injection Hm as <-. vm_compute in Hs. by injection Hs as <-.
  - by exists l, s, gen.
Defined.

(** A foreign symbol after the lead's echo decides the pair while the suffix
    is still held back. *)
Definition refuted : list label := toPace ++ [LObserve 0xA9 EvNone; LWriter Go; LWriter Go; LWriter Go; LObserve 0x05 (EvByte 0x05 false); LResolve].

Lemma escape_pair_ends_witness :
  exists m c m', run toPace owned = Some m /\ step (LWriter c) m = Some m' /\ (rank (writer m') < rank (writer m))%nat.
Proof.
  destruct (run toPace owned) as [m|] eqn:Hm; [|vm_compute in Hm; discriminate].
  destruct (escape_pair_ends m) as (H1 & H2 & _); [eapply run_reachable; [apply reach_start|exact Hm]|].
  destruct H1 as (c & m' & Hs); [vm_compute in Hm; by injection Hm as <-|].
  exists m, c, m'. split; [done|]. split; [done|]. by apply (H2 c).
Defined.

(** The read loop has taken 0x00 before the suffix 0x00 is written, and
    resolves the wait with it after the write: the write is reported as
    verified, and the order of claim and resolution does not tell. *)
Definition raced : list label :=
  toPace ++ [LObserve 0xA9 EvNone; LWriter Go; LWriter Go; LWriter Go; LObserve 0x00 (EvByte 0xA9 true); LWriter Go;
             LWriter (Returned None); LResolve; LWriter (Result 0)].
Example early_symbol_verifies : writer <$> run raced owned = Some (Ready (Some None)).
Proof. vm_compute. reflexivity. Qed.
End Demo.
End EscapePairInv.
