(* ===== verification/Float64.v ===== *)
(** * Go's [float64]

    The few floating-point operations the gateway uses, as binary64
    arithmetic with rounding to nearest even over the specification floats
    of the Standard Library.  A product followed by a sum is two roundings:
    a fused multiply-add, which Go allows on some processors, is not used. *)

From Stdlib Require Import SpecFloat.
From S2P Require Import Prelude.

Module Float64.

Definition float64 := spec_float.
Definition fmul : float64 -> float64 -> float64 := SFmul 53 1024.
Definition fadd : float64 -> float64 -> float64 := SFadd 53 1024.
Definition fsub : float64 -> float64 -> float64 := SFsub 53 1024.
Definition fdiv : float64 -> float64 -> float64 := SFdiv 53 1024.
Definition feq : float64 -> float64 -> bool := SFeqb.
Definition flt : float64 -> float64 -> bool := SFltb.

(** [float64(x)] of an integer. *)
Definition ofInt (x : Z) : float64 := binary_normalize 53 1024 x 0 false.

(** The constant [a / b], correctly rounded. *)
Definition ratio (a b : Z) : float64 := fdiv (ofInt a) (ofInt b).

(** [int64(f)]: truncation toward zero; out of range the conversion gives
    the minimum, as on amd64. *)
Definition truncate (f : float64) : option Z :=
  match f with
  | S754_zero _ => Some 0
  | S754_finite s m e =>
      let v := if 0 <=? e then Z.shiftl (Zpos m) e else Z.shiftr (Zpos m) (- e) in
      Some (if s then - v else v)
  | _ => None
  end.
Definition toInt64 (f : float64) : Z :=
  match truncate f with
  | Some v => if (- 2 ^ 63 <=? v) && (v <? 2 ^ 63) then v else - 2 ^ 63
  | None => - 2 ^ 63
  end.

(** The sign of a result. *)
Definition nonneg (f : float64) : Prop :=
  match f with
  | S754_zero s | S754_infinity s | S754_finite s _ _ => s = false
  | S754_nan => False
  end.

Example three_tenths : ratio 3 10 = S754_finite false 5404319552844595 (-54).
Proof. vm_compute. reflexivity. Qed.
End Float64.
