(* ===== verification/DriverManager.v ===== *)
(** * The driver manager

    [internal/drivermanager/manager.go]: the lifecycle of the drivers of the
    gateway.  A driver has a desired and an observed state; starts,
    replacements, stops, retries and the reports of a running provider are
    operations that fence each other with operation numbers, retry tokens
    and the handle of the construction in flight.

    The state of a driver and each section that runs under its [mu] are
    translated as they are; a call is a thread that can be interrupted
    between any two sections, calls of the runtime or of a hook.  [opMu] is
    held across sections, so its holder is part of the state.  The runtime is
    an interface: what its calls return, and when, is up to the steps, as
    are the clock, the jitter and the hooks. *)

From stdpp Require Import sorting.
From S2P Require Import Prelude Float64.

Local Open Scope Z_scope.

Module DriverManager.
Import Float64.

(** ** Data *)

(** [DesiredState] and [ObservedState]. *)
Inductive DesiredState := DesiredRunning | DesiredStopped.
Inductive ObservedState :=
| ObservedDisabled | ObservedStopped | ObservedStarting | ObservedRunning
| ObservedDegraded | ObservedBackoff | ObservedStopping | ObservedFailed.
#[export] Instance DesiredState_eq : EqDecision DesiredState.
Proof. solve_decision. Defined.
#[export] Instance ObservedState_eq : EqDecision ObservedState.
Proof. solve_decision. Defined.

(** [ReasonCode] and [Capability] are open string types with closed sets of
    valid values. *)
Abbreviation ReasonCode := string (only parsing).
Definition ReasonNone : ReasonCode := "NONE".
Definition ReasonConfigDisabled : ReasonCode := "CONFIG_DISABLED".
Definition ReasonOperatorStopped : ReasonCode := "OPERATOR_STOPPED".
Definition ReasonStartRequested : ReasonCode := "START_REQUESTED".
Definition ReasonStopRequested : ReasonCode := "STOP_REQUESTED".
Definition ReasonConfigInvalid : ReasonCode := "CONFIG_INVALID".
Definition ReasonProviderUnavailable : ReasonCode := "PROVIDER_UNAVAILABLE".
Definition ReasonDependencyUnavailable : ReasonCode := "DEPENDENCY_UNAVAILABLE".
Definition ReasonRuntimeNotReady : ReasonCode := "RUNTIME_NOT_READY".
Definition ReasonCapabilityDegraded : ReasonCode := "CAPABILITY_DEGRADED".
Definition ReasonRetryScheduled : ReasonCode := "RETRY_SCHEDULED".
Definition ReasonRetryExhausted : ReasonCode := "RETRY_EXHAUSTED".
Definition ReasonStopTimeout : ReasonCode := "STOP_TIMEOUT".
Definition ReasonCloseUnconfirmed : ReasonCode := "CLOSE_UNCONFIRMED".
Definition ReasonInternalError : ReasonCode := "INTERNAL_ERROR".
Definition validReasonCode (code : ReasonCode) : bool :=
  bool_decide (code ∈ [ReasonNone; ReasonConfigDisabled; ReasonOperatorStopped; ReasonStartRequested;
    ReasonStopRequested; ReasonConfigInvalid; ReasonProviderUnavailable; ReasonDependencyUnavailable;
    ReasonRuntimeNotReady; ReasonCapabilityDegraded; ReasonRetryScheduled; ReasonRetryExhausted;
    ReasonStopTimeout; ReasonCloseUnconfirmed; ReasonInternalError]).

Abbreviation Capability := string (only parsing).
Definition validCapability (c : Capability) : bool :=
  bool_decide (c ∈ ["DISCOVERY"; "READ"; "WRITE"; "PAIRING"; "TOPOLOGY"; "RAW_EVIDENCE"; "SEMANTIC_PROJECTION"]).

Record Reason := mkReason { Code : ReasonCode; Retryable : bool }.
#[export] Instance Reason_eq : EqDecision Reason.
Proof. solve_decision. Defined.
Definition because (c : ReasonCode) : Reason := mkReason c false.

(** [normalizeReason]. *)
Definition normalizeReason (r : Reason) : Reason :=
  if negb (validReasonCode (Code r)) then because ReasonInternalError
  else if bool_decide (Code r ∈ [ReasonDependencyUnavailable; ReasonRuntimeNotReady; ReasonRetryScheduled]) then r
  else mkReason (Code r) false.

(** [FailureClass], [FailureDetail] and [normalized]. *)
Abbreviation FailureClass := string (only parsing).
Definition FailureOther : FailureClass := "OTHER".
Definition Valid (c : FailureClass) : bool :=
  bool_decide (c ∈ ["DIAL_FAILED"; "TIMEOUT"; "TRANSPORT_CLOSED"; FailureOther]).
Record FailureDetail := mkDetail { Class : FailureClass; Cause : string }.
Definition normalized (detail : FailureDetail) : FailureDetail :=
  if String.eqb (Class detail) EmptyString && String.eqb (Cause detail) EmptyString then mkDetail EmptyString EmptyString
  else if negb (Valid (Class detail)) then mkDetail FailureOther (Cause detail)
  else detail.
Record Failure := mkFailure { FReason : Reason; FDetail : FailureDetail }.

(** [RetrySnapshot], [Correlation], the retry policies. *)
Record RetrySnapshot := mkRetry {
  Eligible : bool;
  BudgetRemaining : Z;
  NotBeforeUTC : time;
  Attempt : Z;
  RPersistent : bool;
  LastFailure : FailureDetail
}.
Record Correlation := mkCorr { CGeneration : Z; COperation : Z }.
Record PersistentRetry := mkPersistent { PEnabled : bool; PInitialDelay : time; PMaxDelay : time }.
Record RetryPolicy := mkPolicy {
  Budget : Z;
  InitialDelay : time;
  MaxDelay : time;
  JitterRatio : float64;
  Persistent : PersistentRetry
}.

(** An error of the runtime or of a hook: what [errors.Is] says about it. *)
Record error := mkError {
  isSafetyQuarantined : bool;
  isStopTimeout : bool;
  isUnavailable : bool;
  message : string
}.

(** [CloseClass], [Proven], [ClassifyClose] and [CloseReport]. *)
Inductive CloseClass := CloseNotRequired | CloseProven | CloseProvenAfterDrainTimeout | CloseUnconfirmed | CloseInternalError.
Definition Proven (c : CloseClass) : bool :=
  match c with
  | CloseNotRequired | CloseProven | CloseProvenAfterDrainTimeout => true
  | _ => false
  end.
Definition ClassifyClose (err : option error) (q : bool) : CloseClass :=
  if q then CloseUnconfirmed
  else
    match err with
    | None => CloseProven
    | Some e =>
        if isSafetyQuarantined e then CloseUnconfirmed
        else if isStopTimeout e then CloseProvenAfterDrainTimeout
        else CloseInternalError
    end.
Record CloseReport := mkReport {
  RDriverID : string;
  RClass : CloseClass;
  RGeneration : Z;
  ROperation : Z;
  RObserved : ObservedState;
  RReason : Reason
}.

(** [AdmissionHold], [LifecycleHooks] (which hooks are set) and
    [DriverConfig]; of the runtime, whether there is one and which of the
    optional interfaces it has. *)
Record AdmissionHold := mkHold {
  HDriverID : string;
  HCorrelation : Correlation;
  Previous : Z;
  Replacement : bool;
  HRetry : bool
}.
Record LifecycleHooks := mkHooks { HoldAdmission : bool; Closed : bool }.
Record RuntimeKind := mkRuntime { fencer : bool; binder : bool; activator : bool; admitting : bool }.
Record DriverConfig := mkConfig {
  ID : string;
  Enabled : bool;
  Runtime : option RuntimeKind;
  Capabilities : list Capability;
  ClassifyError : option (error -> Failure);
  Retry : RetryPolicy;
  CHooks : LifecycleHooks
}.

(** ** Capabilities *)

(** The order of [sort.Slice] on capabilities; the members are distinct. *)
Definition capLe (a b : Capability) : Prop := String.leb a b = true.
#[export] Instance capLe_dec : RelDecision capLe.
Proof. intros a b. unfold capLe. apply _. Defined.

(** [normalizeCapabilities]. *)
Definition normalizeCapabilities (cs : list Capability) : list Capability :=
  let seen : gset string := list_to_set (List.filter validCapability cs) in
  merge_sort capLe (elements seen).

(** [sort.Search]: the smallest index in [lo, hi) where [f] is true, by
    bisection; each round halves the interval, so the length is fuel. *)
Fixpoint search (fuel : nat) (f : nat -> bool) (lo hi : nat) : nat :=
  match fuel with
  | O => lo
  | S fuel =>
      if (lo <? hi)%nat then
        let h := ((lo + hi) / 2)%nat in
        if f h then search fuel f lo h else search fuel f (S h) hi
      else lo
  end.
(** [containsCapability] and [capabilitySubset]. *)
Definition containsCapability (cs : list Capability) (want : Capability) : bool :=
  let at_ i := default EmptyString (cs !! i) in
  let index := search (S (length cs)) (fun i => String.leb want (at_ i)) 0 (length cs) in
  (index <? length cs)%nat && String.eqb (at_ index) want.
Definition capabilitySubset (candidate allowed : list Capability) : bool :=
  forallb (containsCapability allowed) candidate.

(** ** Retry delays *)

(** [normalizeRetryPolicy]. *)
Definition normalizeRetryPolicy (p : RetryPolicy) : RetryPolicy :=
  let initial := if InitialDelay p <=? 0 then second else InitialDelay p in
  let jitter := if feq (JitterRatio p) (ofInt 0) then ratio 2 10
                else if flt (JitterRatio p) (ofInt 0) then ofInt 0
                else if flt (ratio 1 2) (JitterRatio p) then ratio 1 2
                else JitterRatio p in
  let q := Persistent p in
  let pinitial := if PInitialDelay q <=? 0 then second else PInitialDelay q in
  mkPolicy (if Budget p <? 0 then 0 else Budget p) initial (if MaxDelay p <? initial then initial else MaxDelay p) jitter
    (if PEnabled q then mkPersistent true pinitial (if PMaxDelay q <? pinitial then pinitial else PMaxDelay q) else q).

(** The doubling loop of [retryDelay]: [n] more rounds at most. *)
Fixpoint doubling (n : nat) (maxDelay delay : time) : time :=
  match n with
  | O => delay
  | S n =>
      if delay <? maxDelay then
        if Z.quot maxDelay 2 <? delay then maxDelay else doubling n maxDelay (i64 (delay * 2))
      else delay
  end.

(** [retryDelay]; [jitter] is nil or the jitter function. *)
Definition retryDelay (p : RetryPolicy) (index : Z) (jitter : option (time -> time)) : time :=
  let delay := doubling (Z.to_nat index) (MaxDelay p) (InitialDelay p) in
  let delay := if MaxDelay p <? delay then MaxDelay p else delay in
  let limit := toInt64 (fmul (ofInt delay) (JitterRatio p)) in
  match jitter with
  | Some jitter =>
      if limit <=? 0 then delay
      else
        let a := jitter limit in
        let a := if limit <? a then limit else if a <? - limit then - limit else a in
        let delay := i64 (delay + a) in
        if delay <? InitialDelay p then InitialDelay p
        else if MaxDelay p <? delay then MaxDelay p
        else delay
  | None => delay
  end.

(** ** The managed driver

    [changed] numbers the channels that [transitionLocked] makes: a channel
    is closed when a later one exists.  [activeAttempt] and [retryCancel]
    hold the thread whose contexts they cancel. *)

Record managedDriver := mkDriver {
  cfg : DriverConfig;
  opMu : option nat;
  desired : DesiredState;
  observed : ObservedState;
  reason : Reason;
  retry : option RetrySnapshot;
  generation : Z;
  revision : Z;
  attempt : Z;
  effective : list Capability;
  quarantined : bool;
  changedAt : time;
  operationSeq : Z;
  activeOperation : Z;
  retryRemaining : Z;
  retrySeries : Z;
  retryToken : Z;
  retryCancel : option nat;
  retryNeedsReplace : bool;
  needsReplace : bool;
  activeAttempt : option nat;
  hooks : LifecycleHooks;
  hooksBound : bool;
  changed : Z
}.
Definition set_cfg (v : DriverConfig) (d : managedDriver) : managedDriver :=
  mkDriver v (opMu d) (desired d) (observed d) (reason d) (retry d) (generation d) (revision d) (attempt d)
    (effective d) (quarantined d) (changedAt d) (operationSeq d) (activeOperation d) (retryRemaining d)
    (retrySeries d) (retryToken d) (retryCancel d) (retryNeedsReplace d) (needsReplace d) (activeAttempt d)
    (hooks d) (hooksBound d) (changed d).
Definition set_opMu (v : option nat) (d : managedDriver) : managedDriver :=
  mkDriver (cfg d) v (desired d) (observed d) (reason d) (retry d) (generation d) (revision d) (attempt d)
    (effective d) (quarantined d) (changedAt d) (operationSeq d) (activeOperation d) (retryRemaining d)
    (retrySeries d) (retryToken d) (retryCancel d) (retryNeedsReplace d) (needsReplace d) (activeAttempt d)
    (hooks d) (hooksBound d) (changed d).
Definition set_desired (v : DesiredState) (d : managedDriver) : managedDriver :=
  mkDriver (cfg d) (opMu d) v (observed d) (reason d) (retry d) (generation d) (revision d) (attempt d)
    (effective d) (quarantined d) (changedAt d) (operationSeq d) (activeOperation d) (retryRemaining d)
    (retrySeries d) (retryToken d) (retryCancel d) (retryNeedsReplace d) (needsReplace d) (activeAttempt d)
    (hooks d) (hooksBound d) (changed d).
Definition set_observed (v : ObservedState) (d : managedDriver) : managedDriver :=
  mkDriver (cfg d) (opMu d) (desired d) v (reason d) (retry d) (generation d) (revision d) (attempt d)
    (effective d) (quarantined d) (changedAt d) (operationSeq d) (activeOperation d) (retryRemaining d)
    (retrySeries d) (retryToken d) (retryCancel d) (retryNeedsReplace d) (needsReplace d) (activeAttempt d)
    (hooks d) (hooksBound d) (changed d).
Definition set_reason (v : Reason) (d : managedDriver) : managedDriver :=
  mkDriver (cfg d) (opMu d) (desired d) (observed d) v (retry d) (generation d) (revision d) (attempt d)
    (effective d) (quarantined d) (changedAt d) (operationSeq d) (activeOperation d) (retryRemaining d)
    (retrySeries d) (retryToken d) (retryCancel d) (retryNeedsReplace d) (needsReplace d) (activeAttempt d)
    (hooks d) (hooksBound d) (changed d).
Definition set_retry (v : option RetrySnapshot) (d : managedDriver) : managedDriver :=
  mkDriver (cfg d) (opMu d) (desired d) (observed d) (reason d) v (generation d) (revision d) (attempt d)
    (effective d) (quarantined d) (changedAt d) (operationSeq d) (activeOperation d) (retryRemaining d)
    (retrySeries d) (retryToken d) (retryCancel d) (retryNeedsReplace d) (needsReplace d) (activeAttempt d)
    (hooks d) (hooksBound d) (changed d).
Definition set_generation (v : Z) (d : managedDriver) : managedDriver :=
  mkDriver (cfg d) (opMu d) (desired d) (observed d) (reason d) (retry d) v (revision d) (attempt d)
    (effective d) (quarantined d) (changedAt d) (operationSeq d) (activeOperation d) (retryRemaining d)
    (retrySeries d) (retryToken d) (retryCancel d) (retryNeedsReplace d) (needsReplace d) (activeAttempt d)
    (hooks d) (hooksBound d) (changed d).
Definition set_revision (v : Z) (d : managedDriver) : managedDriver :=
  mkDriver (cfg d) (opMu d) (desired d) (observed d) (reason d) (retry d) (generation d) v (attempt d)
    (effective d) (quarantined d) (changedAt d) (operationSeq d) (activeOperation d) (retryRemaining d)
    (retrySeries d) (retryToken d) (retryCancel d) (retryNeedsReplace d) (needsReplace d) (activeAttempt d)
    (hooks d) (hooksBound d) (changed d).
Definition set_attempt (v : Z) (d : managedDriver) : managedDriver :=
  mkDriver (cfg d) (opMu d) (desired d) (observed d) (reason d) (retry d) (generation d) (revision d) v
    (effective d) (quarantined d) (changedAt d) (operationSeq d) (activeOperation d) (retryRemaining d)
    (retrySeries d) (retryToken d) (retryCancel d) (retryNeedsReplace d) (needsReplace d) (activeAttempt d)
    (hooks d) (hooksBound d) (changed d).
Definition set_effective (v : list Capability) (d : managedDriver) : managedDriver :=
  mkDriver (cfg d) (opMu d) (desired d) (observed d) (reason d) (retry d) (generation d) (revision d) (attempt
    d) v (quarantined d) (changedAt d) (operationSeq d) (activeOperation d) (retryRemaining d) (retrySeries d)
    (retryToken d) (retryCancel d) (retryNeedsReplace d) (needsReplace d) (activeAttempt d) (hooks d)
    (hooksBound d) (changed d).
Definition set_quarantined (v : bool) (d : managedDriver) : managedDriver :=
  mkDriver (cfg d) (opMu d) (desired d) (observed d) (reason d) (retry d) (generation d) (revision d) (attempt
    d) (effective d) v (changedAt d) (operationSeq d) (activeOperation d) (retryRemaining d) (retrySeries d)
    (retryToken d) (retryCancel d) (retryNeedsReplace d) (needsReplace d) (activeAttempt d) (hooks d)
    (hooksBound d) (changed d).
Definition set_changedAt (v : time) (d : managedDriver) : managedDriver :=
  mkDriver (cfg d) (opMu d) (desired d) (observed d) (reason d) (retry d) (generation d) (revision d) (attempt
    d) (effective d) (quarantined d) v (operationSeq d) (activeOperation d) (retryRemaining d) (retrySeries d)
    (retryToken d) (retryCancel d) (retryNeedsReplace d) (needsReplace d) (activeAttempt d) (hooks d)
    (hooksBound d) (changed d).
Definition set_operationSeq (v : Z) (d : managedDriver) : managedDriver :=
  mkDriver (cfg d) (opMu d) (desired d) (observed d) (reason d) (retry d) (generation d) (revision d) (attempt
    d) (effective d) (quarantined d) (changedAt d) v (activeOperation d) (retryRemaining d) (retrySeries d)
    (retryToken d) (retryCancel d) (retryNeedsReplace d) (needsReplace d) (activeAttempt d) (hooks d)
    (hooksBound d) (changed d).
Definition set_activeOperation (v : Z) (d : managedDriver) : managedDriver :=
  mkDriver (cfg d) (opMu d) (desired d) (observed d) (reason d) (retry d) (generation d) (revision d) (attempt
    d) (effective d) (quarantined d) (changedAt d) (operationSeq d) v (retryRemaining d) (retrySeries d)
    (retryToken d) (retryCancel d) (retryNeedsReplace d) (needsReplace d) (activeAttempt d) (hooks d)
    (hooksBound d) (changed d).
Definition set_retryRemaining (v : Z) (d : managedDriver) : managedDriver :=
  mkDriver (cfg d) (opMu d) (desired d) (observed d) (reason d) (retry d) (generation d) (revision d) (attempt
    d) (effective d) (quarantined d) (changedAt d) (operationSeq d) (activeOperation d) v (retrySeries d)
    (retryToken d) (retryCancel d) (retryNeedsReplace d) (needsReplace d) (activeAttempt d) (hooks d)
    (hooksBound d) (changed d).
Definition set_retrySeries (v : Z) (d : managedDriver) : managedDriver :=
  mkDriver (cfg d) (opMu d) (desired d) (observed d) (reason d) (retry d) (generation d) (revision d) (attempt
    d) (effective d) (quarantined d) (changedAt d) (operationSeq d) (activeOperation d) (retryRemaining d) v
    (retryToken d) (retryCancel d) (retryNeedsReplace d) (needsReplace d) (activeAttempt d) (hooks d)
    (hooksBound d) (changed d).
Definition set_retryToken (v : Z) (d : managedDriver) : managedDriver :=
  mkDriver (cfg d) (opMu d) (desired d) (observed d) (reason d) (retry d) (generation d) (revision d) (attempt
    d) (effective d) (quarantined d) (changedAt d) (operationSeq d) (activeOperation d) (retryRemaining d)
    (retrySeries d) v (retryCancel d) (retryNeedsReplace d) (needsReplace d) (activeAttempt d) (hooks d)
    (hooksBound d) (changed d).
Definition set_retryCancel (v : option nat) (d : managedDriver) : managedDriver :=
  mkDriver (cfg d) (opMu d) (desired d) (observed d) (reason d) (retry d) (generation d) (revision d) (attempt
    d) (effective d) (quarantined d) (changedAt d) (operationSeq d) (activeOperation d) (retryRemaining d)
    (retrySeries d) (retryToken d) v (retryNeedsReplace d) (needsReplace d) (activeAttempt d) (hooks d)
    (hooksBound d) (changed d).
Definition set_retryNeedsReplace (v : bool) (d : managedDriver) : managedDriver :=
  mkDriver (cfg d) (opMu d) (desired d) (observed d) (reason d) (retry d) (generation d) (revision d) (attempt
    d) (effective d) (quarantined d) (changedAt d) (operationSeq d) (activeOperation d) (retryRemaining d)
    (retrySeries d) (retryToken d) (retryCancel d) v (needsReplace d) (activeAttempt d) (hooks d) (hooksBound
    d) (changed d).
Definition set_needsReplace (v : bool) (d : managedDriver) : managedDriver :=
  mkDriver (cfg d) (opMu d) (desired d) (observed d) (reason d) (retry d) (generation d) (revision d) (attempt
    d) (effective d) (quarantined d) (changedAt d) (operationSeq d) (activeOperation d) (retryRemaining d)
    (retrySeries d) (retryToken d) (retryCancel d) (retryNeedsReplace d) v (activeAttempt d) (hooks d)
    (hooksBound d) (changed d).
Definition set_activeAttempt (v : option nat) (d : managedDriver) : managedDriver :=
  mkDriver (cfg d) (opMu d) (desired d) (observed d) (reason d) (retry d) (generation d) (revision d) (attempt
    d) (effective d) (quarantined d) (changedAt d) (operationSeq d) (activeOperation d) (retryRemaining d)
    (retrySeries d) (retryToken d) (retryCancel d) (retryNeedsReplace d) (needsReplace d) v (hooks d)
    (hooksBound d) (changed d).
Definition set_hooks (v : LifecycleHooks) (d : managedDriver) : managedDriver :=
  mkDriver (cfg d) (opMu d) (desired d) (observed d) (reason d) (retry d) (generation d) (revision d) (attempt
    d) (effective d) (quarantined d) (changedAt d) (operationSeq d) (activeOperation d) (retryRemaining d)
    (retrySeries d) (retryToken d) (retryCancel d) (retryNeedsReplace d) (needsReplace d) (activeAttempt d) v
    (hooksBound d) (changed d).
Definition set_hooksBound (v : bool) (d : managedDriver) : managedDriver :=
  mkDriver (cfg d) (opMu d) (desired d) (observed d) (reason d) (retry d) (generation d) (revision d) (attempt
    d) (effective d) (quarantined d) (changedAt d) (operationSeq d) (activeOperation d) (retryRemaining d)
    (retrySeries d) (retryToken d) (retryCancel d) (retryNeedsReplace d) (needsReplace d) (activeAttempt d)
    (hooks d) v (changed d).
Definition set_changed (v : Z) (d : managedDriver) : managedDriver :=
  mkDriver (cfg d) (opMu d) (desired d) (observed d) (reason d) (retry d) (generation d) (revision d) (attempt
    d) (effective d) (quarantined d) (changedAt d) (operationSeq d) (activeOperation d) (retryRemaining d)
    (retrySeries d) (retryToken d) (retryCancel d) (retryNeedsReplace d) (needsReplace d) (activeAttempt d)
    (hooks d) (hooksBound d) v.

(** [Snapshot] and [snapshotLocked]. *)
Record Snapshot := mkSnapshot {
  SDriverID : string;
  SDesiredState : DesiredState;
  SObservedState : ObservedState;
  SReason : Reason;
  SRetry : option RetrySnapshot;
  SGeneration : Z;
  SRevision : Z;
  SAttempt : Z;
  SCapabilities : list Capability;
  SEffectiveCapabilities : list Capability;
  SSafetyQuarantined : bool;
  SActiveOperation : Z;
  SChangedAtUTC : time
}.
Definition snapshotLocked (d : managedDriver) : Snapshot :=
  mkSnapshot (ID (cfg d)) (desired d) (observed d) (reason d) (retry d) (generation d) (revision d) (attempt d)
    (Capabilities (cfg d)) (effective d) (quarantined d) (activeOperation d) (changedAt d).

(** [nextOperationLocked], [resetRetryLocked], [retryContinuesLocked]. *)
Definition nextOperationLocked (d : managedDriver) : managedDriver :=
  let seq := incr64 (operationSeq d) in set_activeOperation seq (set_operationSeq seq d).
Definition resetRetryLocked (d : managedDriver) : managedDriver :=
  set_retrySeries 0 (set_retryRemaining (Budget (Retry (cfg d))) d).
Definition retryContinuesLocked (d : managedDriver) : bool :=
  (0 <? retryRemaining d) || PEnabled (Persistent (Retry (cfg d))).

(** [transitionLocked]. *)
Definition transitionLocked (now : time) (o : ObservedState) (r : Reason) (rt : option RetrySnapshot)
    (eff : list Capability) (d : managedDriver) : managedDriver :=
  let d := set_retry rt (set_reason (normalizeReason r) (set_observed o d)) in
  let d := set_revision (incr64 (revision d)) (set_effective (normalizeCapabilities eff) d) in
  set_changed (changed d + 1) (set_changedAt now d).

(** [nextRetryDelay]. *)
Definition nextRetryDelay (jitter : time -> time) (d : managedDriver) : managedDriver * time :=
  let p := Retry (cfg d) in
  if 0 <? retryRemaining d then
    (set_retryRemaining (retryRemaining d - 1) d, retryDelay p (Budget p - retryRemaining d) (Some jitter))
  else
    let index := retrySeries d - Budget p in
    let index := if index <? 0 then 0 else index in
    let q := mkPolicy 0 (PInitialDelay (Persistent p)) (PMaxDelay (Persistent p)) (JitterRatio p) (mkPersistent false 0 0) in
    (d, retryDelay q index (Some jitter)).

(** [classify] and [acceptsCallbackLocked]. *)
Definition classify (d : managedDriver) (err : error) : Failure :=
  let f := match ClassifyError (cfg d) with
           | Some classifier => classifier err
           | None => mkFailure (because ReasonInternalError) (mkDetail EmptyString EmptyString)
           end in
  mkFailure (normalizeReason (FReason f)) (FDetail f).
Definition acceptsCallbackLocked (c : Correlation) (d : managedDriver) : bool :=
  negb (quarantined d) && bool_decide (desired d = DesiredRunning) && (generation d =? CGeneration c)
  && (activeOperation d =? COperation c).
Definition runtimeQuarantined (d : managedDriver) (q : bool) : bool :=
  match Runtime (cfg d) with Some _ => q | None => false end.

(** ** Threads *)

(** [Start] and [StartAsync], [Replace], [Stop] and the stop of [Shutdown]
    up to their section under [mu]: before [cancelRetry], before
    [cancelAttempt] ([Shutdown] only), before [opMu.Lock], before the second
    [cancelRetry], before the section. *)
Inductive opKind := KStart (async : bool) | KReplace | KStop (shutdown : bool).
Inductive opPhase := PCancel | PCancelAttempt | PLock | PCancelAgain | PSection.

(** An attempt ([startAttempt]) and where it is: before its guard; before and
    in the call of the runtime; before the check for a superseding
    operation; before it looks for a hook, in the hook, after it; before, in
    and after the stop that retires the construction ([Some] the error of
    the hook); before it reads the state for its report and before it hands
    the report over; before [finishAttempt]; before [BindCorrelation]; before
    the deferred function. *)
Record attemptOf := mkAttempt { aOp : Z; aReplace : bool; aRetry : bool; aTask : bool }.
Inductive attemptPhase :=
| AEnter
| ACall
| ABuild
| ABuilt (gen : Z) (err : option error)
| AHooks (gen previous : Z)
| AHold (gen previous : Z)
| AHeld (gen : Z) (holdErr : option error)
| ARetire (held : option error) (gen : Z)
| ARetiring (held : option error) (gen : Z) (covers : gset nat)
| ARetired (held : option error) (gen : Z) (err : option error)
| AReport (r : CloseReport)
| AClosed (r : CloseReport)
| AFinish (gen : Z) (err : option error)
| ABind (c : Correlation)
| ADone.

(** A stop after its first section: before, in and after the call of
    [Runtime.Stop] and before [Closed].  A retry: waiting, before
    [opMu.Lock], before its section.  [TSpawn]: [StartAsync] before
    [beginTask]. *)
Inductive thread :=
| TOp (k : opKind) (ph : opPhase)
| TSpawn (op : Z) (replace : bool)
| TAttempt (a : attemptOf) (ph : attemptPhase)
| TStopCall (r : CloseReport)
| TStopping (r : CloseReport) (covers : gset nat)
| TStopRet (r : CloseReport) (err : option error)
| TClosed (r : CloseReport)
| TRetry (op token : Z) (delay : time)
| TRetryLock (op token : Z)
| TRetrySection (op token : Z).

(** What the runtime, the hooks and the callers see. *)
Inductive mgrErr := ErrManagerClosed | ErrSafetyQuarantined | ErrUnavailable.
Inductive event :=
| EvFence
| EvCall (tid : nat) (replace : bool)
| EvBuilt (tid : nat) (gen : Z) (err : option error)
| EvHold (tid : nat) (h : AdmissionHold)
| EvStop (tid : nat)
| EvStopped (tid : nat) (err : option error)
| EvActivate (c : Correlation)
| EvBind (c : Correlation)
| EvClosed (r : CloseReport)
| EvReported (accepted : bool)
| EvReturn (tid : nat) (err : option mgrErr).

(** One driver with its threads.  Contexts are named by their thread;
    [opened] holds the constructions that succeeded and after which no
    [Runtime.Stop] was called that released them ([releases]); [trace] is
    newest first. *)
Record unit_ := mkUnit {
  driver : managedDriver;
  threads : gmap nat thread;
  nextTid : nat;
  cancelledRetry : gset nat;
  cancelledAttempt : gset nat;
  opened : gset nat;
  trace : list event
}.
Definition set_driver (v : managedDriver) (u : unit_) : unit_ :=
  mkUnit v (threads u) (nextTid u) (cancelledRetry u) (cancelledAttempt u) (opened u) (trace u).
Definition set_threads (v : gmap nat thread) (u : unit_) : unit_ :=
  mkUnit (driver u) v (nextTid u) (cancelledRetry u) (cancelledAttempt u) (opened u) (trace u).
Definition set_nextTid (v : nat) (u : unit_) : unit_ :=
  mkUnit (driver u) (threads u) v (cancelledRetry u) (cancelledAttempt u) (opened u) (trace u).
Definition set_cancelledRetry (v : gset nat) (u : unit_) : unit_ :=
  mkUnit (driver u) (threads u) (nextTid u) v (cancelledAttempt u) (opened u) (trace u).
Definition set_cancelledAttempt (v : gset nat) (u : unit_) : unit_ :=
  mkUnit (driver u) (threads u) (nextTid u) (cancelledRetry u) v (opened u) (trace u).
Definition set_opened (v : gset nat) (u : unit_) : unit_ :=
  mkUnit (driver u) (threads u) (nextTid u) (cancelledRetry u) (cancelledAttempt u) v (trace u).
Definition set_trace (v : list event) (u : unit_) : unit_ :=
  mkUnit (driver u) (threads u) (nextTid u) (cancelledRetry u) (cancelledAttempt u) (opened u) v.

(** ** Sections *)

(** What a section asks the world: [manager.now()] (twice when it schedules
    a retry), the jitter, [SafetyQuarantined] (twice at most). *)
Record env := mkEnv { eNow : time; eNow2 : time; eJitter : time -> time; eQ1 : bool; eQ2 : bool }.

Definition onDriver (f : managedDriver -> managedDriver) (u : unit_) : unit_ := set_driver (f (driver u)) u.
Definition emit (e : event) (u : unit_) : unit_ := set_trace (e :: trace u) u.
Definition goto (tid : nat) (t : thread) (u : unit_) : unit_ := set_threads (<[tid := t]> (threads u)) u.
Definition exit (tid : nat) (u : unit_) : unit_ := set_threads (delete tid (threads u)) u.
Definition return_ (tid : nat) (err : option mgrErr) (u : unit_) : unit_ := exit tid (emit (EvReturn tid err) u).
Definition unlockOp (u : unit_) : unit_ := onDriver (set_opMu None) u.

(** [cancelRetry] and [cancelAttempt]; a cancelled context is recorded with
    the section that takes its handle. *)
Definition cancelRetry (u : unit_) : unit_ :=
  let d := driver u in
  let u := match retryCancel d with
           | Some t => set_cancelledRetry ({[t]} ∪ cancelledRetry u) u
           | None => u
           end in
  set_driver (set_retryCancel None (set_retryToken (incr64 (retryToken d)) d)) u.
Definition cancelAttemptControl (a : option nat) (u : unit_) : unit_ :=
  match a with
  | Some t => set_cancelledAttempt ({[t]} ∪ cancelledAttempt u) u
  | None => u
  end.
Definition cancelAttempt (u : unit_) : unit_ := cancelAttemptControl (activeAttempt (driver u)) u.

(** [fenceWithdrawalLocked]. *)
Definition fenceWithdrawalLocked (u : unit_) : unit_ :=
  match Runtime (cfg (driver u)) with
  | Some k => if fencer k then emit EvFence u else u
  | None => u
  end.

(** [scheduleRetryLocked], with [beginTask] and the start of [runRetry]. *)
Definition beginBackoff (e : env) (replace : bool) (detail : FailureDetail) (d : managedDriver) : managedDriver * time :=
  let remaining := retryRemaining d in
  let '(d, delay) := nextRetryDelay (eJitter e) d in
  let d := set_retrySeries (i64 (retrySeries d + 1)) d in
  let rt := mkRetry true remaining (eNow e + delay) (retrySeries d) (PEnabled (Persistent (Retry (cfg d)))) (normalized detail) in
  let d := transitionLocked (eNow2 e) ObservedBackoff (mkReason ReasonRetryScheduled true) (Some rt) [] d in
  (set_retryNeedsReplace replace (set_retryToken (incr64 (retryToken d)) d), delay).
Definition scheduleRetryLocked (e : env) (closed : bool) (operation : Z) (replace : bool) (detail : FailureDetail)
    (u : unit_) : unit_ :=
  let '(d, delay) := beginBackoff e replace detail (driver u) in
  if closed then set_driver (set_retryCancel None d) u
  else
    let tid := nextTid u in
    goto tid (TRetry operation (retryToken d) delay) (set_nextTid (S tid) (set_driver (set_retryCancel (Some tid) d) u)).

(** [start], under [opMu] and [mu]: the change of the driver, and the
    section. *)
Definition beginStart (now : time) (d : managedDriver) : managedDriver :=
  let d := nextOperationLocked (resetRetryLocked (set_desired DesiredRunning d)) in
  let d := transitionLocked now ObservedStarting (because ReasonStartRequested) None [] d in
  set_attempt (incr64 (attempt d)) d.
Definition startSection (e : env) (closed : bool) (tid : nat) (async : bool) (u : unit_) : unit_ :=
  let d := driver u in
  let ret r := return_ tid r (unlockOp u) in
  if closed then ret (Some ErrManagerClosed)
  else if quarantined d then ret (Some ErrSafetyQuarantined)
  else if bool_decide (observed d = ObservedRunning) then ret None
  else if bool_decide (desired d = DesiredRunning) && bool_decide (observed d = ObservedDegraded) then ret None
  else if bool_decide (desired d = DesiredRunning) && bool_decide (observed d = ObservedStarting) then ret None
  else if bool_decide (is_Some (activeAttempt d)) then ret (Some ErrUnavailable)
  else if bool_decide (observed d = ObservedStopping) then ret (Some ErrUnavailable)
  else
    let d := beginStart (eNow e) d in
    goto tid (if async then TSpawn (activeOperation d) (needsReplace d)
              else TAttempt (mkAttempt (activeOperation d) (needsReplace d) false false) AEnter)
      (unlockOp (set_driver d u)).

(** [Replace], under [opMu] and [mu]; the hook of the fence only sees the
    runtime. *)
Definition beginReplace (now : time) (d : managedDriver) : managedDriver :=
  let d := nextOperationLocked (resetRetryLocked (set_desired DesiredRunning d)) in
  let d := transitionLocked now ObservedStopping (because ReasonStopRequested) None [] d in
  set_attempt (incr64 (attempt d)) d.
Definition replaceSection (e : env) (closed : bool) (tid : nat) (u : unit_) : unit_ :=
  let d := driver u in
  let ret r := return_ tid r (unlockOp u) in
  if closed then ret (Some ErrManagerClosed)
  else if quarantined d then ret (Some ErrSafetyQuarantined)
  else if bool_decide (observed d = ObservedStarting) || bool_decide (observed d = ObservedStopping) then
    ret (Some ErrUnavailable)
  else if bool_decide (is_Some (activeAttempt d)) then ret (Some ErrUnavailable)
  else
    let d := beginReplace (eNow e) d in
    goto tid (TAttempt (mkAttempt (activeOperation d) true false false) AEnter)
      (unlockOp (fenceWithdrawalLocked (set_driver d u))).

(** [stopLocked]: the section before [Runtime.Stop] and the one after it. *)
Definition finishReport (r : CloseReport) (c : CloseClass) (d : managedDriver) : CloseReport :=
  mkReport (RDriverID r) c (RGeneration r) (ROperation r) (observed d) (reason d).
Definition beginStop (now : time) (d : managedDriver) : managedDriver :=
  transitionLocked now ObservedStopping (because ReasonStopRequested) None [] (nextOperationLocked (set_desired DesiredStopped d)).
Definition stopQuarantined (now : time) (d : managedDriver) : managedDriver :=
  if bool_decide (desired d = DesiredStopped) then d
  else transitionLocked now ObservedFailed (because ReasonCloseUnconfirmed) None [] (set_desired DesiredStopped d).
Definition stopSection (e : env) (tid : nat) (u : unit_) : unit_ :=
  let d := driver u in
  let control := activeAttempt d in
  let r op := mkReport (ID (cfg d)) CloseInternalError (generation d) op (observed d) (reason d) in
  let leave c d' :=
    goto tid (TClosed (finishReport (r 0) c d')) (unlockOp (cancelAttemptControl control (set_driver d' u))) in
  if quarantined d then leave CloseUnconfirmed (stopQuarantined (eNow e) d)
  else if bool_decide (observed d = ObservedStopped) || bool_decide (observed d = ObservedDisabled) then
    leave (if runtimeQuarantined d (eQ1 e) then CloseUnconfirmed
           else if bool_decide (is_Some control) then CloseInternalError else CloseNotRequired)
      (set_desired DesiredStopped d)
  else
    let d' := beginStop (eNow e) d in
    goto tid (match Runtime (cfg d) with
              | Some _ => TStopCall (r (activeOperation d'))
              | None => TStopRet (r (activeOperation d')) None
              end)
      (cancelAttemptControl control (fenceWithdrawalLocked (set_driver d' u))).
Definition endStop (e : env) (err : option error) (d : managedDriver) : managedDriver :=
  let d := set_activeOperation 0 d in
  let stopped c := transitionLocked (eNow e) ObservedStopped (because c) None [] (set_needsReplace false d) in
  match err with
  | None => stopped ReasonOperatorStopped
  | Some x =>
      if isStopTimeout x then stopped ReasonStopTimeout
      else if isSafetyQuarantined x || runtimeQuarantined d (eQ2 e) then
        transitionLocked (eNow e) ObservedFailed (because ReasonCloseUnconfirmed) None [] (set_quarantined true d)
      else transitionLocked (eNow e) ObservedFailed (because ReasonInternalError) None [] d
  end.
Definition stopFinish (e : env) (tid : nat) (r : CloseReport) (err : option error) (u : unit_) : unit_ :=
  let class := ClassifyClose err (runtimeQuarantined (driver u) (eQ1 e)) in
  let d := endStop e err (driver u) in
  goto tid (TClosed (finishReport r class d)) (unlockOp (set_driver d u)).

(** [startAttempt], its guard. *)
Definition current (a : attemptOf) (d : managedDriver) : bool :=
  (activeOperation d =? aOp a) && bool_decide (desired d = DesiredRunning).
Definition endAttempt (tid : nat) (a : attemptOf) (u : unit_) : unit_ :=
  if aTask a then exit tid u else return_ tid None u.
Definition unavailableErr : error := mkError false false false "provider unavailable".
Definition enterAttempt (tid : nat) (a : attemptOf) (u : unit_) : unit_ :=
  if negb (current a (driver u)) || quarantined (driver u) then endAttempt tid a u
  else
    let u := onDriver (set_activeAttempt (Some tid)) u in
    goto tid (TAttempt a (match Runtime (cfg (driver u)) with
                          | Some _ => ACall
                          | None => AFinish 0 (Some unavailableErr)
                          end)) u.

(** The first line of [finishAttempt] and the deferred function of
    [startAttempt]. *)
Definition dropControl (tid : nat) (d : managedDriver) : managedDriver :=
  if bool_decide (activeAttempt d = Some tid) then set_activeAttempt None d else d.

(** [finishAttempt]; the correlation is the one to bind. *)
Definition publishRunning (now : time) (gen : Z) (d : managedDriver) : managedDriver :=
  let d := set_needsReplace false (set_quarantined false (set_attempt 1 (set_generation gen d))) in
  let d := set_activeOperation 0 (resetRetryLocked d) in
  transitionLocked now ObservedRunning (because ReasonNone) None (Capabilities (cfg d)) d.
Definition quarantine (now : time) (d : managedDriver) : managedDriver :=
  transitionLocked now ObservedFailed (because ReasonCloseUnconfirmed) None [] (set_activeOperation 0 (set_quarantined true d)).
Definition failDriver (now : time) (r : Reason) (d : managedDriver) : managedDriver :=
  let r := if Retryable r then because ReasonRetryExhausted else r in
  transitionLocked now ObservedFailed r None [] (set_activeOperation 0 d).
Definition finishAttempt (e : env) (closed : bool) (tid : nat) (operation gen : Z) (err : option error) (replace : bool)
    (u : unit_) : unit_ * option Correlation :=
  let d := dropControl tid (driver u) in
  if closed || negb (activeOperation d =? operation) || negb (bool_decide (desired d = DesiredRunning)) then
    (set_driver d u, None)
  else
    match err with
    | None =>
        let c := mkCorr gen 0 in
        let u := set_driver (publishRunning (eNow e) gen d) u in
        (match Runtime (cfg d) with
         | Some k => if activator k then emit (EvActivate c) u else u
         | None => u
         end, Some c)
    | Some x =>
        if isSafetyQuarantined x || runtimeQuarantined d (eQ1 e) then (set_driver (quarantine (eNow e) d) u, None)
        else
          let f := if isUnavailable x then mkFailure (because ReasonProviderUnavailable) (mkDetail EmptyString EmptyString)
                   else classify d x in
          let d := if replace then set_needsReplace true d else d in
          if Retryable (FReason f) && retryContinuesLocked d then
            (scheduleRetryLocked e closed operation replace (FDetail f) (set_driver d u), None)
          else (set_driver (failDriver (eNow e) (FReason f) d) u, None)
    end.

(** The checks of [startAttempt] after the runtime and after the hook. *)
Definition supersededCheck (closed : bool) (tid : nat) (a : attemptOf) (gen : Z) (err : option error) (u : unit_) : unit_ :=
  let d := driver u in
  let superseded := closed || negb (current a d) in
  goto tid (TAttempt a
    (if superseded && (bool_decide (err = None) || (generation d <? gen)) then ARetire None gen
     else if bool_decide (err = None) && negb superseded then AHooks gen (generation d)
     else AFinish gen err)) u.
Definition heldCheck (closed : bool) (tid : nat) (a : attemptOf) (gen : Z) (holdErr : option error) (u : unit_) : unit_ :=
  goto tid (TAttempt a
    (if closed || negb (current a (driver u)) then ARetire None gen
     else match holdErr with Some x => ARetire (Some x) gen | None => AFinish gen None end)) u.

(** [retireSupersededAdmission] and [retireHeldAdmission], after the stop. *)
Definition retireSection (e : env) (closed : bool) (tid : nat) (a : attemptOf) (held : option error) (gen : Z)
    (err : option error) (u : unit_) : unit_ :=
  let d := driver u in
  let q := runtimeQuarantined d (eQ1 e) in
  let r c := mkReport (ID (cfg d)) c gen (aOp a) (observed d) (reason d) in
  match held with
  | None =>
      if bool_decide (is_Some err) || q then
        goto tid (TAttempt a (AReport (r CloseUnconfirmed))) (onDriver (quarantine (eNow e)) u)
      else goto tid (TAttempt a (AReport (r CloseProven))) u
  | Some holdErr =>
      let class := ClassifyClose err q in
      if negb (Proven class) then
        let u := onDriver (fun d => quarantine (eNow e) (dropControl tid d)) u in
        goto tid (TAttempt a (AClosed (finishReport (r class) class (driver u)))) u
      else
        let '(u, _) := finishAttempt e closed tid (aOp a) 0 (Some holdErr) false u in
        goto tid (TAttempt a (AReport (r class))) u
  end.

(** [runRetry], under [opMu] and [mu]. *)
Definition beginRetry (now : time) (d : managedDriver) : managedDriver :=
  let d := transitionLocked now ObservedStarting (because ReasonStartRequested) None [] (set_retryCancel None d) in
  set_attempt (incr64 (attempt d)) d.
Definition retrySection (e : env) (closed : bool) (tid : nat) (operation token : Z) (u : unit_) : unit_ :=
  let d := driver u in
  if closed || negb (retryToken d =? token) || negb (activeOperation d =? operation)
     || negb (bool_decide (desired d = DesiredRunning)) || negb (bool_decide (observed d = ObservedBackoff))
     || quarantined d
  then exit tid (unlockOp u)
  else
    let d' := beginRetry (eNow e) d in
    goto tid (TAttempt (mkAttempt operation (retryNeedsReplace d) true true) AEnter) (unlockOp (set_driver d' u)).

(** [ReportDegradedCorrelated] and [ReportFailure]. *)
Definition stable (o : ObservedState) : bool := bool_decide (o = ObservedRunning) || bool_decide (o = ObservedDegraded).
Definition ReportDegradedCorrelated (e : env) (closed : bool) (c : Correlation) (eff : list Capability) (r : Reason)
    (u : unit_) : unit_ :=
  let d := driver u in
  let eff := normalizeCapabilities eff in
  if closed || negb (String.eqb (Code r) ReasonCapabilityDegraded) || negb (acceptsCallbackLocked c d)
     || negb (stable (observed d)) || (length eff =? 0)%nat || (length (Capabilities (cfg d)) <=? length eff)%nat
     || negb (capabilitySubset eff (Capabilities (cfg d)))
  then emit (EvReported false) u
  else emit (EvReported true) (set_driver (transitionLocked (eNow e) ObservedDegraded r None eff d) u).
Definition ReportFailure (e : env) (closed : bool) (c : Correlation) (f : Failure) (u : unit_) : unit_ :=
  let d := driver u in
  if closed || negb (validReasonCode (Code (FReason f))) || negb (acceptsCallbackLocked c d) || negb (stable (observed d))
  then emit (EvReported false) u
  else
    let r := normalizeReason (FReason f) in
    let d := resetRetryLocked (set_needsReplace true (nextOperationLocked d)) in
    let u := emit (EvReported true) (fenceWithdrawalLocked (set_driver d u)) in
    if Retryable r && retryContinuesLocked d then scheduleRetryLocked e closed (activeOperation d) true (FDetail f) u
    else set_driver (failDriver (eNow e) r d) u.

(** [BindHooks]. *)
Definition BindHooks (h : LifecycleHooks) (u : unit_) : unit_ :=
  if hooksBound (driver u) then u else onDriver (fun d => set_hooksBound true (set_hooks h d)) u.

(** [Invoke]: the correlation of a refusal, or the runtime is asked to
    admit. *)
Inductive invocation := Refused (c : Correlation) | Admits.
Definition Invoke (closed : bool) (capability : Capability) (u : unit_) : invocation :=
  let d := driver u in
  if closed then Refused (mkCorr 0 0)
  else if negb (containsCapability (effective d) capability) || quarantined d then
    Refused (mkCorr (generation d) (activeOperation d))
  else
    match Runtime (cfg d) with
    | Some k => if admitting k then Admits else Refused (mkCorr (generation d) (activeOperation d))
    | None => Refused (mkCorr (generation d) (activeOperation d))
    end.

(** [Watch]: the snapshot and the number of its channel. *)
Definition Watch (u : unit_) : Snapshot * Z := (snapshotLocked (driver u), changed (driver u)).

(** ** Steps of one driver *)

Inductive label :=
| LCall (k : opKind)
| LRun (tid : nat) (e : env)
| LBuilt (tid : nat) (gen : Z) (err : option error)
| LHeld (tid : nat) (err : option error)
| LStopped (tid : nat) (err : option error)
| LWait (tid : nat) (due : bool)
| LDegraded (e : env) (c : Correlation) (eff : list Capability) (r : Reason)
| LFailure (e : env) (c : Correlation) (f : Failure)
| LBind (h : LifecycleHooks).

Definition lockOp (tid : nat) (t : thread) (u : unit_) : option unit_ :=
  match opMu (driver u) with
  | None => Some (goto tid t (onDriver (set_opMu (Some tid)) u))
  | Some _ => None
  end.

(** [Start], [Replace] and the stops up to their section. *)
Definition stepOp (e : env) (closed : bool) (tid : nat) (k : opKind) (ph : opPhase) (u : unit_) : option unit_ :=
  match ph with
  | PCancel => Some (goto tid (TOp k (match k with KStop true => PCancelAttempt | _ => PLock end)) (cancelRetry u))
  | PCancelAttempt => Some (goto tid (TOp k PLock) (cancelAttempt u))
  | PLock => lockOp tid (TOp k PCancelAgain) u
  | PCancelAgain => Some (goto tid (TOp k PSection) (cancelRetry u))
  | PSection =>
      Some match k with
           | KStart async => startSection e closed tid async u
           | KReplace => replaceSection e closed tid u
           | KStop _ => stopSection e tid u
           end
  end.

(** [startAttempt], section by section. *)
Definition stepAttempt (e : env) (closed : bool) (tid : nat) (a : attemptOf) (ph : attemptPhase) (u : unit_) : option unit_ :=
  let d := driver u in
  match ph with
  | AEnter => Some (enterAttempt tid a u)
  | ACall => Some (goto tid (TAttempt a ABuild) (emit (EvCall tid (aReplace a)) u))
  | ABuilt gen err => Some (supersededCheck closed tid a gen err u)
  | AHooks gen previous =>
      Some (if HoldAdmission (hooks d) then
              goto tid (TAttempt a (AHold gen previous))
                (emit (EvHold tid (mkHold (ID (cfg d)) (mkCorr gen (aOp a)) previous (aReplace a) (aRetry a))) u)
            else goto tid (TAttempt a (AFinish gen None)) u)
  | AHeld gen holdErr => Some (heldCheck closed tid a gen holdErr u)
  | ARetire held gen => Some (goto tid (TAttempt a (ARetiring held gen (opened u))) (emit (EvStop tid) u))
  | ARetired held gen err => Some (retireSection e closed tid a held gen err u)
  | AReport r => Some (goto tid (TAttempt a (AClosed (finishReport r (RClass r) d))) u)
  | AClosed r => Some (goto tid (TAttempt a ADone) (if Closed (hooks d) then emit (EvClosed r) u else u))
  | AFinish gen err =>
      let '(u, c) := finishAttempt e closed tid (aOp a) gen err (aReplace a) u in
      Some (goto tid (TAttempt a (match c with
                                  | Some c => if CGeneration c =? 0 then ADone else ABind c
                                  | None => ADone
                                  end)) u)
  | ABind c =>
      Some (goto tid (TAttempt a ADone)
              (match Runtime (cfg d) with Some k => if binder k then emit (EvBind c) u else u | None => u end))
  | ADone => Some (endAttempt tid a (onDriver (dropControl tid) u))
  | ABuild | AHold _ _ | ARetiring _ _ _ => None
  end.

(** The results of [Runtime.Stop] after which [stopLocked] publishes STOPPED:
    nil and the drain timeout.  They are not close proof: the class of the
    report is, which [ClassifyClose] computes and which asks the runtime for
    its quarantine as well. *)
Definition releases (err : option error) : bool :=
  match err with None => true | Some x => isStopTimeout x end.
Definition stopReturned (tid : nat) (covers : gset nat) (err : option error) (u : unit_) : unit_ :=
  emit (EvStopped tid err) (if releases err then set_opened (opened u ∖ covers) u else u).

Definition stepRun (e : env) (closed : bool) (tid : nat) (t : thread) (u : unit_) : option unit_ :=
  match t with
  | TOp k ph => stepOp e closed tid k ph u
  | TSpawn op replace =>
      Some (if closed then return_ tid (Some ErrManagerClosed) u
            else goto tid (TAttempt (mkAttempt op replace false true) AEnter) (emit (EvReturn tid None) u))
  | TAttempt a ph => stepAttempt e closed tid a ph u
  | TStopCall r => Some (goto tid (TStopping r (opened u)) (emit (EvStop tid) u))
  | TStopRet r err => Some (stopFinish e tid r err u)
  | TClosed r => Some (return_ tid None (if Closed (hooks (driver u)) then emit (EvClosed r) u else u))
  | TRetryLock op token => lockOp tid (TRetrySection op token) u
  | TRetrySection op token => Some (retrySection e closed tid op token u)
  | TStopping _ _ | TRetry _ _ _ => None
  end.

Definition ustep (closed : bool) (l : label) (u : unit_) : option unit_ :=
  match l with
  | LCall k => Some (goto (nextTid u) (TOp k PCancel) (set_nextTid (S (nextTid u)) u))
  | LRun tid e => t ← threads u !! tid; stepRun e closed tid t u
  | LBuilt tid gen err =>
      match threads u !! tid with
      | Some (TAttempt a ABuild) =>
          let u := if bool_decide (err = None) then set_opened ({[tid]} ∪ opened u) u else u in
          Some (goto tid (TAttempt a (ABuilt gen err)) (emit (EvBuilt tid gen err) u))
      | _ => None
      end
  | LHeld tid err =>
      match threads u !! tid with
      | Some (TAttempt a (AHold gen _)) => Some (goto tid (TAttempt a (AHeld gen err)) u)
      | _ => None
      end
  | LStopped tid err =>
      match threads u !! tid with
      | Some (TStopping r covers) => Some (goto tid (TStopRet r err) (stopReturned tid covers err u))
      | Some (TAttempt a (ARetiring held gen covers)) =>
          Some (goto tid (TAttempt a (ARetired held gen err)) (stopReturned tid covers err u))
      | _ => None
      end
  | LWait tid due =>
      match threads u !! tid with
      | Some (TRetry op token _) =>
          if due then Some (goto tid (TRetryLock op token) u)
          else if closed || bool_decide (tid ∈ cancelledRetry u) then Some (exit tid u)
          else None
      | _ => None
      end
  | LDegraded e c eff r => Some (ReportDegradedCorrelated e closed c eff r u)
  | LFailure e c f => Some (ReportFailure e closed c f u)
  | LBind h => Some (BindHooks h u)
  end.

(** [New], one driver. *)
Definition newDriver (now : time) (c : DriverConfig) : managedDriver :=
  let c := mkConfig (ID c) (Enabled c) (Runtime c) (normalizeCapabilities (Capabilities c)) (ClassifyError c)
             (normalizeRetryPolicy (Retry c)) (CHooks c) in
  mkDriver c None (if Enabled c then DesiredRunning else DesiredStopped)
    (if Enabled c then ObservedStopped else ObservedDisabled)
    (if Enabled c then because ReasonNone else because ReasonConfigDisabled)
    None 0 1 0 [] false now 0 0 (Budget (Retry c)) 0 0 None false false None (CHooks c)
    (HoldAdmission (CHooks c) || Closed (CHooks c)) 0.
Definition newUnit (now : time) (c : DriverConfig) : unit_ := mkUnit (newDriver now c) ∅ 0 ∅ ∅ ∅ [].

(** A driver after [n] steps; [closed] is the flag of the manager, which
    [Shutdown] sets at any moment. *)
Inductive reachable (now : time) (c : DriverConfig) : nat -> bool -> unit_ -> Prop :=
| reach_new : reachable now c 0 false (newUnit now c)
| reach_close n b u : reachable now c n b u -> reachable now c n true u
| reach_step n b l u u' : reachable now c n b u -> ustep b l u = Some u' -> reachable now c (S n) b u'.

(** A run of one driver, for concrete schedules. *)
Fixpoint run (b : bool) (ls : list label) (u : unit_) : option unit_ :=
  match ls with
  | [] => Some u
  | l :: ls => u ← ustep b l u; run b ls u
  end.
Lemma driver_run_reachable now c n b ls u u' :
  reachable now c n b u -> run b ls u = Some u' -> reachable now c (length ls + n) b u'.
Proof.
  revert n u. induction ls as [|l ls IH]; intros n u Hr; cbn; [by intros [= <-]|].
  destruct (ustep b l u) as [u1|] eqn:Hs; cbn; [|done]. intros Hrun.
  replace (S (length ls + n)) with (length ls + S n)%nat by lia. eapply IH; [|done]. by eapply reach_step.
Qed.
End DriverManager.
