(* ===== verification/DriverCaps.v ===== *)
(** * Capability sets

    The capability lists of the driver manager are kept sorted and without
    duplicates: normalisation is idempotent and the bisection of
    [containsCapability] is membership. *)

From stdpp Require Import sorting.
From S2P Require Import Prelude Float64 DriverManager.

Module DriverCaps.
Import DriverManager.

(** ** The order on strings *)

Lemma leb_total (a b : string) : String.leb a b = true \/ String.leb b a = true.
Proof. apply String.leb_total. Qed.
#[local] Instance capLe_total : Total capLe.
Proof. intros a b. apply leb_total. Qed.
#[local] Instance capLe_anti : AntiSymm (=) capLe.
Proof. intros a b H1 H2. by apply String.leb_antisym. Qed.
Lemma compare_trans (a b c : string) : String.compare a b <> Gt -> String.compare b c <> Gt -> String.compare a c <> Gt.
Proof.
  revert b c. induction a as [|x a IH]; intros [|y b] [|z c]; cbn; try done.
  destruct (Ascii.compare x y) eqn:E1, (Ascii.compare y z) eqn:E2, (Ascii.compare x z) eqn:E3; try done;
    unfold Ascii.compare in *; rewrite ?N.compare_eq_iff, ?N.compare_lt_iff, ?N.compare_gt_iff in *; try lia; eauto.
Qed.
#[local] Instance capLe_trans : Transitive capLe.
Proof.
  unfold capLe, String.leb. intros a b c H1 H2. pose proof (compare_trans a b c) as H.
  destruct (String.compare a b), (String.compare b c), (String.compare a c); try done; by destruct H.
Qed.

(** ** Normalisation *)

Lemma normalizeCapabilities_sorted cs : StronglySorted capLe (normalizeCapabilities cs).
Proof. apply (StronglySorted_merge_sort capLe). Qed.
Lemma elem_of_normalizeCapabilities cs c : c ∈ normalizeCapabilities cs <-> c ∈ cs /\ validCapability c = true.
Proof.
  unfold normalizeCapabilities. rewrite merge_sort_Permutation, elem_of_elements, elem_of_list_to_set.
  by rewrite elem_of_filterb.
Qed.
Lemma normalizeCapabilities_nodup cs : NoDup (normalizeCapabilities cs).
Proof. unfold normalizeCapabilities. rewrite merge_sort_Permutation. apply NoDup_elements. Qed.

Lemma normalizeCapabilities_idem cs : normalizeCapabilities (normalizeCapabilities cs) = normalizeCapabilities cs.
Proof.
  apply (StronglySorted_unique capLe); [apply normalizeCapabilities_sorted..|].
  apply NoDup_Permutation; [apply normalizeCapabilities_nodup..|].
  intros c. rewrite !elem_of_normalizeCapabilities. tauto.
Qed.

(** ** Bisection *)

(** [sort.Search] on a monotone predicate finds the first index where it
    holds. *)
Lemma search_spec fuel f lo hi n :
  (hi - lo < fuel)%nat -> (lo <= hi <= n)%nat -> (forall i j, (i <= j < n)%nat -> f i = true -> f j = true) ->
  (forall i, (i < lo)%nat -> f i = false) -> (forall i, (hi <= i < n)%nat -> f i = true) ->
  let r := search fuel f lo hi in
  (r <= n)%nat /\ (forall i, (i < r)%nat -> f i = false) /\ (forall i, (r <= i < n)%nat -> f i = true).
Proof.
  revert lo hi. induction fuel as [|fuel IH]; intros lo hi Hf Hb Hm Hlo Hhi; [lia|]. cbn [search].
  destruct (Nat.ltb_spec lo hi) as [Hlt|Hge].
  - assert (Hh : (lo <= (lo + hi) / 2 < hi)%nat).
    { split; [apply Nat.div_le_lower_bound; lia|apply Nat.div_lt_upper_bound; lia]. }
    destruct (f ((lo + hi) / 2)%nat) eqn:E.
    + apply IH; [lia|lia|done|done|]. intros i Hi. apply (Hm ((lo + hi) / 2)%nat); [lia|done].
    + apply IH; [lia|lia|done| |].
      * intros i Hi. destruct (f i) eqn:E'; [|done]. rewrite (Hm i ((lo + hi) / 2)%nat) in E; [done|lia|done].
      * intros i Hi. apply Hhi. lia.
  - assert (lo = hi) as <- by lia. split_and!; [lia|done|done].
Qed.

Lemma sorted_lookup cs i j x y :
  StronglySorted capLe cs -> (i < j)%nat -> cs !! i = Some x -> cs !! j = Some y -> capLe x y.
Proof.
  intros Hs. revert i j. induction Hs as [|z cs Hs IH Hall]; intros i j Hij Hx Hy; [done|].
  destruct i, j; cbn in *; try lia.
  - injection Hx as ->. rewrite Forall_forall in Hall. apply Hall. by eapply list_elem_of_lookup_2.
  - by apply (IH i j); [lia|..].
Qed.

(** On a sorted list [containsCapability] is membership. *)
Lemma containsCapability_elem cs c : StronglySorted capLe cs -> containsCapability cs c = true <-> c ∈ cs.
Proof.
  intros Hs. unfold containsCapability. cbv beta zeta. rewrite andb_true_iff, Nat.ltb_lt, String.eqb_eq. split.
  { intros [Hlt E]. destruct (lookup_lt_is_Some_2 cs _ Hlt) as [x Hx]. rewrite Hx in E. cbn in E. subst x.
    by eapply list_elem_of_lookup_2. }
  intros Hin. apply list_elem_of_lookup in Hin as [k Hk]. pose proof (lookup_lt_Some _ _ _ Hk) as Hkl.
  destruct (search_spec (S (length cs)) (fun i => String.leb c (default EmptyString (cs !! i))) 0 (length cs) (length cs))
    as (Hr & Hbelow & Habove); [lia|lia| |lia|lia|].
  { intros i j Hij Hi. destruct (lookup_lt_is_Some_2 cs i) as [x Hx]; [lia|]. destruct (lookup_lt_is_Some_2 cs j) as [y Hy]; [lia|].
    rewrite Hx in Hi. rewrite Hy. cbn in *. destruct (decide (i = j)) as [->|Hne]; [congruence|].
    assert (Hxy : capLe x y) by (by eapply (sorted_lookup cs i j); [|lia|..]). by apply (capLe_trans c x y). }
  cbv zeta in *. set (r := search _ _ _ _) in *.
  assert (Hrk : (r <= k)%nat).
  { destruct (Nat.le_gt_cases r k) as [|Hgt]; [done|]. specialize (Hbelow k Hgt). rewrite Hk in Hbelow. cbn in Hbelow.
    destruct (leb_total c c); congruence. }
  split; [lia|]. destruct (lookup_lt_is_Some_2 cs r) as [x Hx]; [lia|]. rewrite Hx. cbn.
  assert (Hle : capLe c x) by (specialize (Habove r); rewrite Hx in Habove; apply Habove; lia).
  apply capLe_anti; [|done].
  destruct (decide (r = k)) as [E|Hne]; [rewrite E in Hx; assert (x = c) as -> by congruence; by destruct (leb_total c c)|].
  eapply (sorted_lookup cs r k); [done|lia|done|done].
Qed.

Lemma subset_elem candidate allowed c :
  StronglySorted capLe allowed -> capabilitySubset candidate allowed = true -> c ∈ candidate -> c ∈ allowed.
Proof.
  intros Hs Hsub Hc. unfold capabilitySubset in Hsub. rewrite forallb_forall in Hsub.
  apply containsCapability_elem; [done|]. apply Hsub. by apply list_elem_of_In.
Qed.
End DriverCaps.
