(* ===== verification/DriverInv.v ===== *)
(** * The invariant of a driver

    What holds between a driver and its threads after every step: operation
    numbers and retry tokens fence the threads, the handle of a construction
    in flight belongs to exactly one attempt, and each observed state goes
    with the intent, the quarantine flag and the effective capabilities that
    belong to it. *)

From stdpp Require Import sorting.
From S2P Require Import Prelude Float64 DriverManager DriverCaps.

Local Open Scope Z_scope.

Module DriverInv.
Import DriverManager DriverCaps.

(** ** Threads that work on an operation *)

(** An attempt that has entered and not yet given its handle back. *)
Definition holdingPhase (ph : attemptPhase) : bool :=
  match ph with
  | AEnter | AReport _ | AClosed _ | ABind _ | ADone => false
  | _ => true
  end.

(** The operation a thread works on. *)
Definition worker (th : thread) : option Z :=
  match th with
  | TSpawn op _ => Some op
  | TAttempt a AEnter => Some (aOp a)
  | TAttempt a ph => if holdingPhase ph then Some (aOp a) else None
  | _ => None
  end.
Definition curb (d : managedDriver) (th : thread) : bool :=
  match worker th with Some op => op =? activeOperation d | None => false end.

(** The driver as an attempt that is not superseded finds it. *)
Definition Cur (d : managedDriver) : Prop :=
  desired d = DesiredRunning /\ (observed d = ObservedStarting \/ observed d = ObservedStopping) /\ quarantined d = false.

Definition TInv (d : managedDriver) (t : nat) (th : thread) : Prop :=
  match th with
  | TOp _ PCancelAgain | TOp _ PSection => opMu d = Some t
  | TOp _ _ => True
  | TSpawn op _ => 1 <= op <= operationSeq d /\ (op = activeOperation d -> Cur d /\ activeAttempt d = None)
  | TAttempt a AEnter => 1 <= aOp a <= operationSeq d /\ (aOp a = activeOperation d -> Cur d /\ activeAttempt d = None)
  | TAttempt a ph =>
      holdingPhase ph = true ->
      1 <= aOp a <= operationSeq d /\ activeAttempt d = Some t /\ (aOp a = activeOperation d -> Cur d)
  | TStopCall _ | TStopping _ _ | TStopRet _ _ =>
      opMu d = Some t /\ desired d = DesiredStopped /\ (observed d = ObservedStopping \/ quarantined d = true)
  | TClosed _ => True
  | TRetry op token _ | TRetryLock op token => 1 <= op <= operationSeq d /\ 1 <= token <= retryToken d
  | TRetrySection op token => 1 <= op <= operationSeq d /\ 1 <= token <= retryToken d /\ opMu d = Some t
  end.

(** ** The driver *)

(** What each observed state comes with. *)
Definition SInv (d : managedDriver) : Prop :=
  match observed d with
  | ObservedDisabled => activeOperation d = 0 /\ quarantined d = false
  | ObservedStopped | ObservedFailed => activeOperation d = 0
  | ObservedRunning | ObservedDegraded =>
      activeOperation d = 0 /\ desired d = DesiredRunning /\ quarantined d = false /\ activeAttempt d = None
  | ObservedBackoff =>
      1 <= activeOperation d /\ desired d = DesiredRunning /\ quarantined d = false /\ activeAttempt d = None
  | ObservedStarting => 1 <= activeOperation d /\ desired d = DesiredRunning /\ quarantined d = false
  | ObservedStopping => 1 <= activeOperation d /\ quarantined d = false
  end.

Definition CapInv (d : managedDriver) : Prop :=
  match observed d with
  | ObservedRunning => effective d = Capabilities (cfg d)
  | ObservedDegraded =>
      effective d <> [] /\ (length (effective d) < length (Capabilities (cfg d)))%nat /\
      (forall c, c ∈ effective d -> c ∈ Capabilities (cfg d)) /\ effective d = normalizeCapabilities (effective d)
  | _ => effective d = []
  end.

Record DInv (n : nat) (d : managedDriver) : Prop := {
  di_seq : 0 <= operationSeq d <= Z.of_nat n;
  di_active : 0 <= activeOperation d <= operationSeq d;
  di_token : 0 <= retryToken d <= Z.of_nat n;
  di_caps : normalizeCapabilities (Capabilities (cfg d)) = Capabilities (cfg d);
  di_state : SInv d;
  di_cap : CapInv d
}.

(** The invariant, of a driver and a set of threads. *)
Record Inv (n : nat) (d : managedDriver) (ths : gmap nat thread) : Prop := {
  inv_d : DInv n d;
  inv_t : forall t th, ths !! t = Some th -> TInv d t th;
  inv_u : forall t1 t2 th1 th2, ths !! t1 = Some th1 -> ths !! t2 = Some th2 ->
    curb d th1 = true -> curb d th2 = true -> t1 = t2
}.

(** ** Changing one thing at a time *)

Lemma inv_delete n d ths t : Inv n d ths -> Inv n d (delete t ths).
Proof.
  intros [H1 H2 H3]. split; [done| |].
  - intros s th Hs. apply lookup_delete_Some in Hs as [_ Hs]. by apply H2.
  - intros t1 t2 th1 th2 Ha Hb. apply lookup_delete_Some in Ha as [_ Ha]. apply lookup_delete_Some in Hb as [_ Hb].
    by apply (H3 t1 t2 th1 th2).
Qed.

Lemma inv_insert n d ths t th :
  Inv n d ths -> TInv d t th -> (curb d th = true -> forall s th', ths !! s = Some th' -> s <> t -> curb d th' = false) ->
  Inv n d (<[t := th]> ths).
Proof.
  intros [H1 H2 H3] Ht Hc. split; [done| |].
  - intros s th' Hs. destruct (decide (s = t)) as [->|Hne].
    + rewrite lookup_insert_eq in Hs. by simplify_eq.
    + rewrite lookup_insert_ne in Hs by done. by apply H2.
  - intros t1 t2 th1 th2 Ha Hb Hc1 Hc2.
    destruct (decide (t1 = t)) as [->|Hn1], (decide (t2 = t)) as [->|Hn2];
      rewrite ?lookup_insert_eq, ?lookup_insert_ne in * by done; simplify_eq; try done.
    + pose proof (Hc Hc1 t2 th2 Hb Hn2). congruence.
    + pose proof (Hc Hc2 t1 th1 Ha Hn1). congruence.
    + by apply (H3 t1 t2 th1 th2).
Qed.

(** The driver changes under the threads. *)
Lemma driver_frame_inv n n' d d' ths :
  Inv n d ths -> DInv n' d' ->
  (forall t th, ths !! t = Some th -> TInv d t th -> TInv d' t th) ->
  (forall t th, ths !! t = Some th -> curb d' th = true -> curb d th = true) ->
  Inv n' d' ths.
Proof.
  intros [H1 H2 H3] Hd Ht Hc. split; [done| |].
  - intros t th Hs. apply Ht; [done|by apply H2].
  - intros t1 t2 th1 th2 Ha Hb Hc1 Hc2. apply (H3 t1 t2 th1 th2); [done..| |]; by eapply Hc.
Qed.

(** A worker is on an operation that was given out. *)
Lemma worker_range d t th op : TInv d t th -> worker th = Some op -> 1 <= op <= operationSeq d.
Proof.
  destruct th as [|o r|a ph| | | | | | |]; cbn; try done; [intros [? _] [= <-]; done|].
  destruct ph; cbn; try done; intros H [= <-]; first [apply H; done | destruct H as [H _]; done].
Qed.

(** Nobody works on operation 0 or on one not yet given out. *)
Lemma curb_fresh d d' t th :
  TInv d t th -> activeOperation d' = 0 \/ operationSeq d < activeOperation d' -> curb d' th = false.
Proof.
  intros Ht Ha. unfold curb. destruct (worker th) as [op|] eqn:Hw; [|done].
  pose proof (worker_range d t th op Ht Hw). apply Z.eqb_neq. lia.
Qed.

(** What a thread needs of a change of the driver. *)
Definition stopping (th : thread) : bool :=
  match th with TStopCall _ | TStopping _ _ | TStopRet _ _ => true | _ => false end.
Definition Halting (d : managedDriver) : Prop :=
  desired d = DesiredStopped /\ (observed d = ObservedStopping \/ quarantined d = true).
Record keeps (d d' : managedDriver) (t : nat) (th : thread) : Prop := {
  k_seq : operationSeq d <= operationSeq d';
  k_token : retryToken d <= retryToken d';
  k_opMu : opMu d = Some t -> opMu d' = Some t;
  k_att : activeAttempt d = Some t -> activeAttempt d' = Some t;
  k_cur : curb d' th = true ->
    curb d th = true /\ (Cur d -> Cur d') /\ (activeAttempt d = None -> activeAttempt d' = None);
  k_stop : stopping th = true -> Halting d -> Halting d'
}.

Lemma tinv_frame d d' t th : TInv d t th -> keeps d d' t th -> TInv d' t th.
Proof.
  intros Ht [Hs Hk Ho Ha Hc Hst]. unfold curb in Hc.
  destruct th as [k ph|op r|a ph| | | | | | |]; cbn in *.
  - destruct ph; auto.
  - destruct Ht as [? Hcur]. split; [lia|]. intros ->. rewrite Z.eqb_refl in Hc. destruct (Hc eq_refl) as (E & F & G).
    apply Z.eqb_eq in E. destruct (Hcur E). auto.
  - destruct ph; cbn in *; try done;
      first [ destruct Ht as [? Hcur]; split; [lia|]; intros E0; rewrite E0, Z.eqb_refl in Hc;
              destruct (Hc eq_refl) as (E & F & G); apply Z.eqb_eq in E; rewrite <- E0 in E; destruct (Hcur E); by auto
            | intros _; destruct (Ht eq_refl) as (? & ? & Hcur); split_and!; [lia..|by auto|];
              intros E0; rewrite E0, Z.eqb_refl in Hc; destruct (Hc eq_refl) as (E & F & G); apply Z.eqb_eq in E;
              rewrite <- E0 in E; by auto ].
  - destruct Ht as (? & ? & ?). destruct (Hst eq_refl) as [? ?]; [by split|]. auto.
  - destruct Ht as (? & ? & ?). destruct (Hst eq_refl) as [? ?]; [by split|]. auto.
  - destruct Ht as (? & ? & ?). destruct (Hst eq_refl) as [? ?]; [by split|]. auto.
  - done.
  - destruct Ht. lia.
  - destruct Ht. lia.
  - destruct Ht as (? & ? & ?). split_and!; [lia..|auto].
Qed.

(** A thread goes on while the driver changes. *)
Lemma inv_goto n n' d d' ths tid old th :
  Inv n d ths -> ths !! tid = Some old -> DInv n' d' ->
  (forall t th', ths !! t = Some th' -> t <> tid -> TInv d t th' -> keeps d d' t th') ->
  TInv d' tid th ->
  (curb d' th = true -> curb d old = true \/ forall t th', ths !! t = Some th' -> t <> tid -> curb d' th' = false) ->
  Inv n' d' (<[tid := th]> ths).
Proof.
  intros Hi Ho Hd Hk Ht Hc. rewrite <- insert_delete_eq. apply inv_insert; [|done|].
  - eapply driver_frame_inv; [by apply inv_delete|done| |]; intros t th' Hs; apply lookup_delete_Some in Hs as [Hne Hs].
    + intros Ht'. by eapply tinv_frame, Hk.
    + intros Hc'. apply (k_cur d d' t th'); [|done]. apply Hk; [done..|]. by eapply inv_t.
  - intros Hcur s th' Hs Hne. apply lookup_delete_Some in Hs as [_ Hs].
    destruct (Hc Hcur) as [Hold|Hall]; [|by apply (Hall s th')].
    destruct (curb d' th') eqn:E; [|done]. exfalso. apply Hne.
    apply (inv_u n d ths Hi s tid th' old); [done..| |done].
    apply (k_cur d d' s th'); [|done]. apply Hk; [done..|]. by eapply inv_t.
Qed.

Lemma inv_exit n n' d d' ths tid :
  Inv n d ths -> DInv n' d' ->
  (forall t th', ths !! t = Some th' -> t <> tid -> TInv d t th' -> keeps d d' t th') ->
  Inv n' d' (delete tid ths).
Proof.
  intros Hi Hd Hk. eapply driver_frame_inv; [by apply inv_delete|done| |]; intros t th' Hs;
    apply lookup_delete_Some in Hs as [Hne Hs].
  - intros Ht'. by eapply tinv_frame, Hk.
  - intros Hc'. apply (k_cur d d' t th'); [|done]. apply Hk; [done..|]. by eapply inv_t.
Qed.

(** The fields the invariant is about. *)
Definition core (d : managedDriver) :=
  (opMu d, desired d, observed d, quarantined d, activeOperation d, operationSeq d, activeAttempt d).
Lemma keeps_core d d' t th :
  core d' = core d -> retryToken d <= retryToken d' -> keeps d d' t th.
Proof.
  unfold core. intros [= H1 H2 H3 H4 H5 H6 H7] Hk.
  split; unfold curb, Cur, Halting; rewrite ?H1, ?H2, ?H3, ?H4, ?H5, ?H6, ?H7; auto; lia.
Qed.
Lemma dinv_core n n' d d' :
  DInv n d -> core d' = core d -> cfg d' = cfg d -> effective d' = effective d -> (n <= n')%nat ->
  0 <= retryToken d' <= Z.of_nat n' -> DInv n' d'.
Proof.
  unfold core. intros [] [= H1 H2 H3 H4 H5 H6 H7] Hc He Hn Ht.
  split; unfold SInv, CapInv in *; rewrite ?Hc, ?He, ?H1, ?H2, ?H3, ?H4, ?H5, ?H6, ?H7; try done; lia.
Qed.

(** A step that leaves them alone. *)
Lemma inv_quiet n d d' ths tid old th :
  Inv n d ths -> ths !! tid = Some old -> core d' = core d -> cfg d' = cfg d -> effective d' = effective d ->
  retryToken d <= retryToken d' <= Z.of_nat (S n) -> TInv d' tid th -> (curb d th = true -> curb d old = true) ->
  Inv (S n) d' (<[tid := th]> ths).
Proof.
  intros Hi Ho Hc Hf He Hk Ht Hcur. pose proof (inv_d _ _ _ Hi) as Hd.
  eapply inv_goto; [done..| | |done|].
  - pose proof (di_token _ _ Hd). eapply dinv_core; [done..|lia|lia].
  - intros t th' _ _ _. apply keeps_core; [done|lia].
  - intros Hx. left. apply Hcur. unfold core in Hc. injection Hc as _ _ _ _ Ha _ _. unfold curb in *. by rewrite Ha in Hx.
Qed.

(** ** Sections *)

Lemma normalizeCapabilities_nil : normalizeCapabilities [] = [].
Proof. reflexivity. Qed.

Lemma incr64_small n x : 0 <= x <= Z.of_nat n -> Z.of_nat n + 1 < 2 ^ 64 -> incr64 x = x + 1.
Proof. intros ? ?. unfold incr64. apply u64_id. lia. Qed.
#[local] Opaque normalizeCapabilities normalizeReason incr64.

Lemma stopping_opMu d t th : TInv d t th -> stopping th = true -> opMu d = Some t.
Proof. destruct th; try done; cbn; tauto. Qed.

(** The state of the unit. *)
Definition UInv (n : nat) (u : unit_) : Prop := Inv n (driver u) (threads u).
(** Few enough steps that no 64-bit counter comes round. *)
Definition few (n : nat) : Prop := Z.of_nat n + 1 < 2 ^ 64.

(** Whoever holds [opMu] may give out a new operation, or end one. *)
Lemma keeps_locked d d' tid t th :
  TInv d t th -> opMu d = Some tid -> t <> tid ->
  operationSeq d <= operationSeq d' -> activeOperation d' = 0 \/ operationSeq d < activeOperation d' ->
  retryToken d <= retryToken d' -> activeAttempt d' = activeAttempt d -> keeps d d' t th.
Proof.
  intros Ht Ho Hne Hs Ha Hk Hc. split; [done..| | | |].
  - rewrite Ho. by intros [= ->].
  - by rewrite Hc.
  - by rewrite (curb_fresh d d' t th).
  - intros Hst _. pose proof (stopping_opMu d t th Ht Hst). congruence.
Qed.
(** Releasing [opMu] and nothing else. *)
Lemma keeps_unlock d tid t th : opMu d = Some tid -> t <> tid -> keeps d (set_opMu None d) t th.
Proof. intros Ho Hne. split; try done; rewrite Ho; by intros [= ->]. Qed.
Lemma dinv_opMu n d v : DInv n d -> DInv (S n) (set_opMu v d).
Proof. intros []. split; try done; cbn; lia. Qed.
Lemma inv_unlock_exit n d ths tid :
  Inv n d ths -> opMu d = Some tid -> Inv (S n) (set_opMu None d) (delete tid ths).
Proof.
  intros Hi Ho. eapply inv_exit; [done|by apply dinv_opMu, (inv_d _ _ _ Hi)|].
  intros t th' _ Hne _. by eapply keeps_unlock.
Qed.
Lemma inv_lock n d ths tid old th :
  Inv n d ths -> ths !! tid = Some old -> opMu d = None -> TInv (set_opMu (Some tid) d) tid th -> worker th = None ->
  Inv (S n) (set_opMu (Some tid) d) (<[tid := th]> ths).
Proof.
  intros Hi Hold Ho Ht Hw. eapply inv_goto; [done..|by apply dinv_opMu, (inv_d _ _ _ Hi)| |done|].
  - intros t th' _ _ _. split; try done; by rewrite Ho.
  - unfold curb. by rewrite Hw.
Qed.

(** A section that gives out a new operation under [opMu] and goes on as
    [th]. *)
Lemma inv_newop n d d' ths tid old th :
  Inv n d ths -> ths !! tid = Some old -> opMu d = Some tid -> DInv (S n) d' ->
  operationSeq d < activeOperation d' -> activeOperation d' = operationSeq d' -> retryToken d <= retryToken d' ->
  activeAttempt d' = activeAttempt d -> TInv d' tid th -> Inv (S n) d' (<[tid := th]> ths).
Proof.
  intros Hi Hold Ho Hd Hs Ha Hk Hc Ht. eapply inv_goto; [done..| |done|].
  - intros t th' Hth Hne Htv. eapply keeps_locked; eauto. lia.
  - intros _. right. intros t th' Hth Hne. apply (curb_fresh d d' t); [by eapply inv_t|by right].
Qed.

Lemma inv_unlockOp_return n u tid r :
  UInv n u -> opMu (driver u) = Some tid -> UInv (S n) (return_ tid r (unlockOp u)).
Proof. intros Hi Ho. by apply inv_unlock_exit. Qed.

Lemma fence_fields u :
  driver (fenceWithdrawalLocked u) = driver u /\ threads (fenceWithdrawalLocked u) = threads u /\
  nextTid (fenceWithdrawalLocked u) = nextTid u /\ opened (fenceWithdrawalLocked u) = opened u /\
  cancelledRetry (fenceWithdrawalLocked u) = cancelledRetry u.
Proof. unfold fenceWithdrawalLocked. destruct (Runtime _) as [k|]; [destruct (fencer k)|]; done. Qed.
Lemma control_fields a u :
  driver (cancelAttemptControl a u) = driver u /\ threads (cancelAttemptControl a u) = threads u /\
  nextTid (cancelAttemptControl a u) = nextTid u /\ opened (cancelAttemptControl a u) = opened u /\
  cancelledRetry (cancelAttemptControl a u) = cancelledRetry u.
Proof. by destruct a. Qed.

(** The test of the next [if] of the goal. *)
Ltac branch H := match goal with |- context [if ?c then _ else _] => destruct c eqn:H end.

Lemma tinv_entry d t op r (async : bool) :
  1 <= op <= operationSeq d -> Cur d -> activeAttempt d = None ->
  TInv d t (if async then TSpawn op r else TAttempt (mkAttempt op r false false) AEnter).
Proof. by destruct async. Qed.

(** The driver after a new operation was given out. *)
Definition begun (o : ObservedState) (r : DesiredState) (d d' : managedDriver) : Prop :=
  cfg d' = cfg d /\ effective d' = [] /\ retryToken d' = retryToken d /\ observed d' = o /\ desired d' = r /\
  quarantined d' = quarantined d /\ operationSeq d' = incr64 (operationSeq d) /\
  activeOperation d' = incr64 (operationSeq d) /\ opMu d' = opMu d /\ activeAttempt d' = activeAttempt d.
Lemma beginStart_begun now d : begun ObservedStarting DesiredRunning d (beginStart now d).
Proof. by split_and!. Qed.
Lemma beginReplace_begun now d : begun ObservedStopping DesiredRunning d (beginReplace now d).
Proof. by split_and!. Qed.
Lemma beginStop_begun now d : begun ObservedStopping DesiredStopped d (beginStop now d).
Proof. by split_and!. Qed.

Lemma begin_inv n d d' o r m :
  few n -> DInv n d -> o = ObservedStarting \/ o = ObservedStopping -> quarantined d = false ->
  (o = ObservedStarting -> r = DesiredRunning) -> begun o r d d' ->
  DInv (S n) (set_opMu m d') /\ operationSeq d < activeOperation d' /\ 1 <= activeOperation d' <= operationSeq d' /\
  activeOperation d' = operationSeq d'.
Proof.
  intros Hn Hd Ho Hq Hr (Hcfg & He & Hk & Hob & Hde & Hq' & Hs & Ha & _ & _). pose proof (di_seq _ _ Hd) as Hseq.
  pose proof (incr64_small n _ Hseq Hn) as Hinc. rewrite Hinc in Hs, Ha.
  destruct Hd. split; [|lia].
  split; unfold SInv, CapInv; cbn; rewrite ?Hcfg, ?Hk, ?Hs, ?Ha, ?Hob, ?Hde, ?Hq', ?He; try done; try lia;
    destruct Ho as [-> | ->]; try done; (split_and!; [lia|..]); try done. by apply Hr.
Qed.

(** A section that gives out a new operation goes on as [th]; [m] is what it
    leaves in [opMu]. *)
Lemma inv_begin n d d' o r m ths tid old th :
  few n -> Inv n d ths -> ths !! tid = Some old -> opMu d = Some tid ->
  o = ObservedStarting \/ o = ObservedStopping -> quarantined d = false ->
  (o = ObservedStarting -> r = DesiredRunning) -> begun o r d d' ->
  (1 <= activeOperation d' <= operationSeq d' -> TInv (set_opMu m d') tid th) -> Inv (S n) (set_opMu m d') (<[tid := th]> ths).
Proof.
  intros Hn Hi Hold Ho Hob Hq Hr Hb Ht.
  destruct (begin_inv n d d' o r m Hn (inv_d _ _ _ Hi) Hob Hq Hr Hb) as (Hd' & Hs & Hrange & Heq).
  destruct Hb as (_ & _ & Hk & _ & _ & _ & _ & _ & _ & Hat).
  apply (inv_newop n d _ ths tid _ _ Hi Hold Ho Hd'); cbn; [done|done|lia|done|auto].
Qed.

Lemma startSection_inv n e b tid async u :
  few n -> UInv n u -> threads u !! tid = Some (TOp (KStart async) PSection) ->
  UInv (S n) (startSection e b tid async u).
Proof.
  intros Hn Hi Hold. pose proof (inv_t _ _ _ Hi _ _ Hold) as Ho. cbn in Ho.
  unfold startSection.
  branch E1; [by apply inv_unlockOp_return|]. branch E2; [by apply inv_unlockOp_return|].
  branch E3; [by apply inv_unlockOp_return|]. branch E4; [by apply inv_unlockOp_return|].
  branch E5; [by apply inv_unlockOp_return|]. branch E6; [by apply inv_unlockOp_return|].
  branch E7; [by apply inv_unlockOp_return|].
  assert (Ha : activeAttempt (driver u) = None).
  { apply bool_decide_eq_false in E6. destruct (activeAttempt (driver u)); [|done]. by destruct E6. }
  pose proof (beginStart_begun (eNow e) (driver u)) as Hb. revert Hb. generalize (beginStart (eNow e) (driver u)) as d'.
  intros d' Hb. eapply inv_begin; [done|exact Hi|exact Hold|exact Ho|by left|exact E2|done|exact Hb|].
  intros Hr. destruct Hb as (_ & _ & _ & Hob & Hde & Hq & _ & _ & _ & Hat).
  apply tinv_entry; [exact Hr| |exact (eq_trans Hat Ha)]. split_and!; [exact Hde|by left|exact (eq_trans Hq E2)].
Qed.

Lemma replaceSection_inv n e b tid u :
  few n -> UInv n u -> threads u !! tid = Some (TOp KReplace PSection) -> UInv (S n) (replaceSection e b tid u).
Proof.
  intros Hn Hi Hold. pose proof (inv_t _ _ _ Hi _ _ Hold) as Ho. cbn in Ho.
  unfold replaceSection.
  branch E1; [by apply inv_unlockOp_return|]. branch E2; [by apply inv_unlockOp_return|].
  branch E3; [by apply inv_unlockOp_return|]. branch E4; [by apply inv_unlockOp_return|].
  assert (Ha : activeAttempt (driver u) = None).
  { apply bool_decide_eq_false in E4. destruct (activeAttempt (driver u)); [|done]. by destruct E4. }
  pose proof (beginReplace_begun (eNow e) (driver u)) as Hb. revert Hb. generalize (beginReplace (eNow e) (driver u)) as d'.
  intros d' Hb. unfold UInv. cbn [driver threads goto set_threads unlockOp onDriver set_driver].
  edestruct fence_fields as (-> & -> & _). cbn [driver threads set_driver].
  eapply inv_begin; [done|exact Hi|exact Hold|exact Ho|by right|exact E2|done|exact Hb|].
  intros Hr. destruct Hb as (_ & _ & _ & Hob & Hde & Hq & _ & _ & _ & Hat).
  split; [exact Hr|]. intros _. split; [|exact (eq_trans Hat Ha)].
  split_and!; [exact Hde|by right|exact (eq_trans Hq E2)].
Qed.

(** The holder of [opMu] ends an operation, or names no new one. *)
Lemma inv_endop n d d' ths tid old th :
  Inv n d ths -> ths !! tid = Some old -> opMu d = Some tid -> DInv (S n) d' ->
  activeOperation d' = 0 -> operationSeq d' = operationSeq d -> retryToken d' = retryToken d ->
  activeAttempt d' = activeAttempt d -> TInv d' tid th -> worker th = None -> Inv (S n) d' (<[tid := th]> ths).
Proof.
  intros Hi Hold Ho Hd Ha Hs Hk Hc Ht Hw. eapply inv_goto; [done..| |done|].
  - intros t th' Hth Hne Htv. eapply keeps_locked; eauto; lia.
  - unfold curb. by rewrite Hw.
Qed.

(** A driver at rest. *)
Lemma rest_inv n d d' :
  DInv n d -> cfg d' = cfg d -> retryToken d' = retryToken d -> operationSeq d' = operationSeq d ->
  activeOperation d' = 0 -> effective d' = [] ->
  match observed d' with
  | ObservedStopped | ObservedFailed => True
  | ObservedDisabled => quarantined d' = false
  | _ => False
  end -> DInv (S n) d'.
Proof.
  intros [] Hcfg Hk Hs Ha He Ho. split; unfold SInv, CapInv; rewrite ?Hcfg, ?Hk, ?Hs, ?Ha, ?He; try done; try lia;
    by destruct (observed d').
Qed.
Lemma rest_fields n d :
  DInv n d -> observed d = ObservedStopped \/ observed d = ObservedDisabled \/ quarantined d = true ->
  activeOperation d = 0 /\ effective d = [] /\
  match observed d with
  | ObservedStopped | ObservedFailed => True
  | ObservedDisabled => quarantined d = false
  | _ => False
  end.
Proof.
  intros [_ _ _ _ Hs Hc] Ho. unfold SInv, CapInv in *.
  destruct (observed d); try (split_and!; first [done | tauto]); exfalso; destruct Ho as [?|[?|?]]; try discriminate; intuition congruence.
Qed.

Lemma stopQuarantined_fields now d :
  let d' := stopQuarantined now d in
  cfg d' = cfg d /\ retryToken d' = retryToken d /\ operationSeq d' = operationSeq d /\
  activeOperation d' = activeOperation d /\ activeAttempt d' = activeAttempt d /\
  (observed d' = observed d /\ quarantined d' = quarantined d \/ observed d' = ObservedFailed) /\
  (effective d' = effective d \/ effective d' = []).
Proof. unfold stopQuarantined. destruct (bool_decide _); cbn; split_and!; auto. Qed.

Lemma stopSection_inv n e k tid u :
  few n -> UInv n u -> threads u !! tid = Some (TOp (KStop k) PSection) -> UInv (S n) (stopSection e tid u).
Proof.
  intros Hn Hi Hold. pose proof (inv_t _ _ _ Hi _ _ Hold) as Ho. cbn in Ho. pose proof (inv_d _ _ _ Hi) as Hd.
  unfold stopSection. branch E1; [|branch E2].
  - destruct (rest_fields n (driver u) Hd) as (Ha & He & Hob); [auto|].
    unfold UInv. cbn [driver threads goto set_threads unlockOp onDriver set_driver].
    edestruct control_fields as (-> & -> & _). cbn [driver threads set_driver].
    destruct (stopQuarantined_fields (eNow e) (driver u)) as (Hcfg & Hk & Hs & Ha' & Hat & Hob' & Hef).
    revert Hcfg Hk Hs Ha' Hat Hob' Hef. generalize (stopQuarantined (eNow e) (driver u)) as d'. intros d' Hcfg Hk Hs Ha' Hat Hob' Hef.
    eapply inv_endop; [exact Hi|exact Hold|exact Ho| |cbn; congruence|done..].
    eapply (rest_inv n (driver u)); [done..|cbn; congruence| |]; cbn.
    + destruct Hef as [-> | ->]; done.
    + destruct Hob' as [[-> ->] | ->]; done.
  - destruct (rest_fields n (driver u) Hd) as (Ha & He & Hob).
    { apply orb_true_iff in E2 as [E|E]; apply bool_decide_eq_true in E; auto. }
    unfold UInv. cbn [driver threads goto set_threads unlockOp onDriver set_driver].
    edestruct control_fields as (-> & -> & _). cbn [driver threads set_driver].
    eapply inv_endop; [exact Hi|exact Hold|exact Ho| |done..]. by eapply rest_inv.
  - pose proof (beginStop_begun (eNow e) (driver u)) as Hb. revert Hb. generalize (beginStop (eNow e) (driver u)) as d'.
    intros d' Hb. unfold UInv. cbn [driver threads goto set_threads].
    edestruct control_fields as (-> & -> & _). edestruct fence_fields as (-> & -> & _). cbn [driver threads set_driver].
    assert (Hop : set_opMu (opMu d') d' = d') by (by destruct d'). rewrite <- Hop.
    eapply (inv_begin n _ d' ObservedStopping DesiredStopped); [done|exact Hi|exact Hold|exact Ho|by right|exact E1|done|exact Hb|].
    intros Hr. destruct Hb as (_ & _ & _ & Hob & Hde & Hq & _ & _ & Hom & Hat). rewrite Hop.
    destruct (Runtime _); (split_and!; [congruence|done|by left]).
Qed.

Lemma endStop_fields e err d :
  let d' := endStop e err d in
  cfg d' = cfg d /\ retryToken d' = retryToken d /\ operationSeq d' = operationSeq d /\ activeOperation d' = 0 /\
  effective d' = [] /\ activeAttempt d' = activeAttempt d /\ desired d' = desired d /\
  (observed d' = ObservedStopped \/ observed d' = ObservedFailed) /\
  (observed d' = ObservedStopped -> releases err = true /\ quarantined d' = quarantined d) /\
  (quarantined d = true -> quarantined d' = true).
Proof.
  unfold endStop, releases. destruct err as [x|]; [destruct (isStopTimeout x); [|destruct (_ || _)]|];
    cbn; (split_and!; try done; auto).
Qed.

Lemma stopFinish_inv n e tid r err u :
  UInv n u -> threads u !! tid = Some (TStopRet r err) -> UInv (S n) (stopFinish e tid r err u).
Proof.
  intros Hi Hold. pose proof (inv_t _ _ _ Hi _ _ Hold) as (Ho & _). pose proof (inv_d _ _ _ Hi) as Hd.
  destruct (endStop_fields e err (driver u)) as (Hcfg & Hk & Hs & Ha & He & Hat & _ & Hob & _).
  unfold stopFinish. revert Hcfg Hk Hs Ha He Hat Hob. cbv zeta. generalize (endStop e err (driver u)) as d'.
  intros d' Hcfg Hk Hs Ha He Hat Hob. eapply inv_endop; [exact Hi|exact Hold|exact Ho| |done..].
  eapply (rest_inv n (driver u)); [exact Hd|done..|]. cbn. by destruct Hob as [-> | ->].
Qed.

(** ** Attempts *)

(** No thread is on the current operation. *)
Lemma inv_idle n d ths :
  DInv n d -> (forall t th, ths !! t = Some th -> TInv d t th /\ curb d th = false) -> Inv n d ths.
Proof.
  intros Hd Ht. split; [done|by intros; apply Ht|].
  intros t1 t2 th1 th2 Ha Hb Hc _. destruct (Ht t1 th1 Ha). congruence.
Qed.

(** The late phases of an attempt. *)
Definition latePhase (ph : attemptPhase) : bool :=
  match ph with AReport _ | AClosed _ | ABind _ | ADone => true | _ => false end.
Lemma late_inv d t a ph : latePhase ph = true -> TInv d t (TAttempt a ph) /\ curb d (TAttempt a ph) = false.
Proof. by destruct ph. Qed.

(** What ends a current attempt does to the driver. *)
Definition settled (d d' : managedDriver) : Prop :=
  cfg d' = cfg d /\ opMu d' = opMu d /\ operationSeq d' = operationSeq d /\ activeAttempt d' = activeAttempt d /\
  desired d' = desired d.

Lemma publishRunning_settled now gen d :
  normalizeCapabilities (Capabilities (cfg d)) = Capabilities (cfg d) ->
  let d' := publishRunning now gen d in
  settled d d' /\ observed d' = ObservedRunning /\ quarantined d' = false /\ activeOperation d' = 0 /\
  retryToken d' = retryToken d /\ effective d' = Capabilities (cfg d).
Proof. intros Hc. split; [by split_and!|]. split_and!; try done. Qed.
Lemma quarantine_settled now d :
  let d' := quarantine now d in
  settled d d' /\ observed d' = ObservedFailed /\ quarantined d' = true /\ activeOperation d' = 0 /\
  retryToken d' = retryToken d /\ effective d' = [].
Proof. split; [by split_and!|]. split_and!; try done. Qed.
Lemma failDriver_settled now r d :
  let d' := failDriver now r d in
  settled d d' /\ observed d' = ObservedFailed /\ quarantined d' = quarantined d /\ activeOperation d' = 0 /\
  retryToken d' = retryToken d /\ effective d' = [].
Proof. split; [by split_and!|]. split_and!; try done. Qed.
Lemma beginBackoff_settled e replace detail d :
  let d' := fst (beginBackoff e replace detail d) in
  settled d d' /\ observed d' = ObservedBackoff /\ quarantined d' = quarantined d /\
  activeOperation d' = activeOperation d /\ retryToken d' = incr64 (retryToken d) /\ effective d' = [].
Proof.
  unfold beginBackoff. destruct (nextRetryDelay (eJitter e) d) as [d1 delay] eqn:E.
  assert (H : settled d d1 /\ quarantined d1 = quarantined d /\ activeOperation d1 = activeOperation d /\
    retryToken d1 = retryToken d).
  { revert E. unfold nextRetryDelay. destruct (0 <? _); intros [= <- <-]; by split_and!. }
  clear E. destruct H as ((H1 & H2 & H3 & H4 & H5) & H6 & H7 & H8). cbn.
  split; [by split_and!|]. split_and!; try done. cbn. by rewrite H8.
Qed.
Lemma dropControl_fields tid d :
  let d' := dropControl tid d in
  cfg d' = cfg d /\ opMu d' = opMu d /\ operationSeq d' = operationSeq d /\ desired d' = desired d /\
  observed d' = observed d /\ quarantined d' = quarantined d /\ activeOperation d' = activeOperation d /\
  retryToken d' = retryToken d /\ effective d' = effective d /\
  activeAttempt d' = (if bool_decide (activeAttempt d = Some tid) then None else activeAttempt d).
Proof. unfold dropControl. by destruct (bool_decide _). Qed.

(** The outcomes of [finishAttempt] for a current attempt. *)
Inductive finished (e : env) (tid : nat) (operation gen : Z) (err : option error) (replace : bool) (u : unit_) : unit_ -> Prop :=
| fin_running tr : err = None ->
    finished e tid operation gen err replace u
      (set_trace tr (set_driver (publishRunning (eNow e) gen (dropControl tid (driver u))) u))
| fin_quarantine : is_Some err ->
    finished e tid operation gen err replace u (set_driver (quarantine (eNow e) (dropControl tid (driver u))) u)
| fin_failed r b : is_Some err ->
    finished e tid operation gen err replace u
      (set_driver (failDriver (eNow e) r (set_needsReplace b (dropControl tid (driver u)))) u)
| fin_backoff detail b d delay : is_Some err ->
    retryContinuesLocked (driver u) = true ->
    beginBackoff e replace detail (set_needsReplace b (dropControl tid (driver u))) = (d, delay) ->
    finished e tid operation gen err replace u
      (goto (nextTid u) (TRetry operation (retryToken d) delay)
         (set_nextTid (S (nextTid u)) (set_driver (set_retryCancel (Some (nextTid u)) d) u))).

Lemma set_driver_twice d d' u : set_driver d (set_driver d' u) = set_driver d u.
Proof. done. Qed.
Lemma needsReplace_cases (replace : bool) d :
  (if replace then set_needsReplace true d else d) = set_needsReplace (replace || needsReplace d) d.
Proof. destruct d, replace; done. Qed.
Lemma retryContinues_drop tid b d :
  retryContinuesLocked (set_needsReplace b (dropControl tid d)) = retryContinuesLocked d.
Proof. unfold dropControl. by destruct (bool_decide _). Qed.

Lemma finishAttempt_cases e b tid op gen err replace u u' c :
  finishAttempt e b tid op gen err replace u = (u', c) ->
  let d := driver u in
  (b = true \/ activeOperation d <> op \/ desired d <> DesiredRunning) /\
    u' = set_driver (dropControl tid d) u \/
  b = false /\ activeOperation d = op /\ desired d = DesiredRunning /\
    finished e tid op gen err replace u u'.
Proof.
  unfold finishAttempt. destruct (dropControl_fields tid (driver u)) as (_ & _ & _ & Hde & _ & _ & Ha & _ & _ & _).
  cbv zeta in *. rewrite Ha, Hde. branch E.
  { intros [= <- <-]. left. split; [|done]. apply orb_true_iff in E as [E|E]; [apply orb_true_iff in E as [->|E]|]; [auto|..].
    - right; left. apply negb_true_iff, Z.eqb_neq in E. done.
    - right; right. by apply negb_true_iff, bool_decide_eq_false in E. }
  apply orb_false_iff in E as [E E3]. apply orb_false_iff in E as [-> E2].
  apply negb_false_iff, Z.eqb_eq in E2. apply negb_false_iff, bool_decide_eq_true in E3.
  intros H. right. split_and!; try done. revert H. destruct err as [x|].
  - destruct (isSafetyQuarantined x || _); [intros [= <- <-]; by apply fin_quarantine|].
    rewrite needsReplace_cases, retryContinues_drop. destruct (Retryable _ && _) eqn:Er.
    + apply andb_true_iff in Er as [_ Er]. unfold scheduleRetryLocked.
      cbn [driver set_driver nextTid]. destruct (beginBackoff e replace _ _) as [d delay] eqn:Eb. intros [= <- <-].
      rewrite set_driver_twice. by eapply fin_backoff.
    + intros [= <- <-]. by apply fin_failed.
  - intros [= <- <-]. destruct (Runtime _) as [k|]; [destruct (activator k)|];
      [by apply fin_running| |];
      match goal with |- finished _ _ _ _ _ _ _ (set_driver ?D ?U) =>
        change (set_driver D U) with (set_trace (trace U) (set_driver D U)) end; by apply fin_running.
Qed.

(** An attempt gives its handle back. *)
Lemma keeps_drop d d' tid t th :
  settled (dropControl tid d) d' -> observed d' = observed d -> quarantined d' = quarantined d ->
  activeOperation d' = activeOperation d -> retryToken d <= retryToken d' -> t <> tid -> keeps d d' t th.
Proof.
  intros (_ & Ho & Hs & Hat & Hde) Hob Hq Ha Hk Hne.
  destruct (dropControl_fields tid d) as (_ & Ho' & Hs' & Hde' & _ & _ & _ & _ & _ & Hat').
  split; unfold curb, Cur, Halting;
    rewrite ?Ho, ?Hs, ?Hat, ?Hde, ?Hob, ?Hq, ?Ha, ?Ho', ?Hs', ?Hde', ?Hat'; auto; try lia.
  - intros E. rewrite bool_decide_eq_false_2; [done|congruence].
  - intros E. split_and!; auto. intros ->. by case_bool_decide.
Qed.
Lemma dinv_drop n tid d : DInv n d -> DInv (S n) (dropControl tid d).
Proof.
  intros [H1 H2 H3 H4 H5 H6].
  destruct (dropControl_fields tid d) as (Hc & Ho & Hs & Hde & Hob & Hq & Ha & Hk & He & Hat).
  split; unfold SInv, CapInv; rewrite ?Hc, ?Hs, ?Hde, ?Hob, ?Hq, ?Ha, ?Hk, ?He, ?Hat; try done; try lia.
  revert H5. unfold SInv. destruct (observed d); try done; intros; case_bool_decide; intuition.
Qed.
Lemma handle_drop_inv n d ths tid old th :
  Inv n d ths -> ths !! tid = Some old -> TInv (dropControl tid d) tid th -> (curb d th = true -> curb d old = true) ->
  Inv (S n) (dropControl tid d) (<[tid := th]> ths).
Proof.
  intros Hi Hold Ht Hc. pose proof (dinv_drop n tid d (inv_d _ _ _ Hi)) as Hd.
  destruct (dropControl_fields tid d) as (_ & _ & _ & _ & Hob & Hq & Ha & Hk & _ & _).
  eapply inv_goto; [done|done|done| |done|].
  - intros t th' _ Hne _. apply (keeps_drop d _ tid); try done; first [by split_and! | lia].
  - unfold curb in *. rewrite Ha. auto.
Qed.

(** What a current attempt makes of the driver when it ends. *)
Lemma settled_keeps d d' tid t th :
  settled (dropControl tid d) d' -> desired d = DesiredRunning -> retryToken d <= retryToken d' ->
  curb d' th = false -> TInv d t th -> t <> tid -> keeps d d' t th.
Proof.
  intros (_ & Ho & Hs & Hat & Hde) Hr Hk Hc Htv Hne.
  destruct (dropControl_fields tid d) as (_ & Ho' & Hs' & Hde' & _ & _ & _ & _ & _ & Hat').
  split; [lia|lia| | | |].
  - by rewrite Ho, Ho'.
  - rewrite Hat, Hat'. intros E. rewrite bool_decide_eq_false_2; [done|congruence].
  - by rewrite Hc.
  - intros _ [E _]. congruence.
Qed.

Lemma settle_others n d d' ths tid old :
  Inv n d ths -> ths !! tid = Some old -> curb d old = true -> settled (dropControl tid d) d' ->
  desired d = DesiredRunning -> retryToken d <= retryToken d' ->
  activeOperation d' = 0 \/ activeOperation d' = activeOperation d ->
  forall t th, ths !! t = Some th -> t <> tid -> TInv d' t th /\ curb d' th = false.
Proof.
  intros Hi Hold Hc Hs Hde Hk Ha t th Hth Hne. pose proof (inv_t _ _ _ Hi _ _ Hth) as Htv.
  assert (Hf : curb d' th = false).
  { destruct Ha as [Ha|Ha]; [by apply (curb_fresh d d' t); auto|].
    destruct (curb d' th) eqn:E; [|done]. exfalso. apply Hne. apply (inv_u n d ths Hi t tid th old); [done..| |done].
    unfold curb in *. by rewrite Ha in E. }
  split; [|done]. eapply tinv_frame; [done|]. by apply (settled_keeps d d' tid).
Qed.

(** The driver a current attempt leaves behind. *)
Lemma running_dinv n now gen d :
  DInv n d -> desired d = DesiredRunning -> activeAttempt d = None -> DInv (S n) (publishRunning now gen d).
Proof.
  intros [] Hde Hat. destruct (publishRunning_settled now gen d) as ((H1 & H2 & H3 & H4 & H5) & H6 & H7 & H8 & H9 & H10); [done|].
  split; unfold SInv, CapInv; rewrite ?H6; rewrite ?H1, ?H3, ?H4, ?H5, ?H7, ?H8, ?H9, ?H10; try done; try lia.
Qed.
Lemma quarantine_dinv n now d : DInv n d -> DInv (S n) (quarantine now d).
Proof.
  intros Hd. destruct (quarantine_settled now d) as ((H1 & H2 & H3 & H4 & H5) & H6 & H7 & H8 & H9 & H10).
  eapply rest_inv; [done..|]. by rewrite H6.
Qed.
Lemma failDriver_dinv n now r d : DInv n d -> DInv (S n) (failDriver now r d).
Proof.
  intros Hd. destruct (failDriver_settled now r d) as ((H1 & H2 & H3 & H4 & H5) & H6 & H7 & H8 & H9 & H10).
  eapply rest_inv; [done..|]. by rewrite H6.
Qed.
Lemma backoff_dinv n e replace detail d :
  few n -> DInv n d -> desired d = DesiredRunning -> activeAttempt d = None -> quarantined d = false ->
  1 <= activeOperation d ->
  let d' := fst (beginBackoff e replace detail d) in
  DInv (S n) d' /\ retryToken d < retryToken d'.
Proof.
  intros Hn Hd Hde Hat Hq Hop. destruct (beginBackoff_settled e replace detail d) as ((H1 & H2 & H3 & H4 & H5) & H6 & H7 & H8 & H9 & H10).
  cbv zeta. revert H1 H2 H3 H4 H5 H6 H7 H8 H9 H10. generalize (fst (beginBackoff e replace detail d)) as d'. intros.
  rewrite (incr64_small n _ (di_token _ _ Hd) Hn) in H9. destruct Hd.
  split; [|lia]. split; unfold SInv, CapInv; rewrite ?H6; rewrite ?H1, ?H3, ?H4, ?H5, ?H7, ?H8, ?H9, ?H10; try done; try lia.
Qed.

Lemma dinv_needsReplace n d b : DInv n d -> DInv n (set_needsReplace b d).
Proof. intros []. by split. Qed.
Lemma dinv_retryCancel n d c : DInv n d -> DInv n (set_retryCancel c d).
Proof. intros []. by split. Qed.
Lemma dinv_dropped n d tid : DInv n d -> DInv n (dropControl tid d).
Proof.
  intros [H1 H2 H3 H4 H5 H6].
  destruct (dropControl_fields tid d) as (Hc & Ho & Hs & Hde & Hob & Hq & Ha & Hk & He & Hat).
  split; unfold SInv, CapInv; rewrite ?Hc, ?Hs, ?Hde, ?Hob, ?Hq, ?Ha, ?Hk, ?He, ?Hat; try done.
  revert H5. unfold SInv. destruct (observed d); try done; intros; case_bool_decide; intuition.
Qed.
Lemma settled_needsReplace d b d' : settled (set_needsReplace b d) d' -> settled d d'.
Proof. done. Qed.

Lemma current_holder n d ths tid a ph :
  Inv n d ths -> ths !! tid = Some (TAttempt a ph) -> holdingPhase ph = true ->
  activeAttempt d = Some tid /\ activeAttempt (dropControl tid d) = None /\ 1 <= aOp a /\
  (activeOperation d = aOp a -> curb d (TAttempt a ph) = true /\ Cur d).
Proof.
  intros Hi Hold Hph. pose proof (inv_t _ _ _ Hi _ _ Hold) as Ht.
  assert (Hx : 1 <= aOp a <= operationSeq d /\ activeAttempt d = Some tid /\ (aOp a = activeOperation d -> Cur d)).
  { destruct ph; try done; by apply Ht. }
  destruct Hx as (Hr & Hat & Hc).
  destruct (dropControl_fields tid d) as (_ & _ & _ & _ & _ & _ & _ & _ & _ & Hat').
  split_and!; [done| |lia|].
  - rewrite Hat'. by rewrite bool_decide_eq_true_2.
  - intros E. split; [|by apply Hc]. unfold curb. destruct ph; try done; cbn; by apply Z.eqb_eq.
Qed.

(** A current attempt that settles the driver as [d'] and goes on late. *)
Lemma inv_settle n d d' ths tid a ph ph' :
  Inv n d ths -> ths !! tid = Some (TAttempt a ph) -> holdingPhase ph = true -> latePhase ph' = true ->
  activeOperation d = aOp a -> desired d = DesiredRunning -> settled (dropControl tid d) d' -> DInv (S n) d' ->
  retryToken d <= retryToken d' -> activeOperation d' = 0 \/ activeOperation d' = activeOperation d ->
  (forall t th, <[tid := TAttempt a ph']> ths !! t = Some th -> TInv d' t th /\ curb d' th = false) /\
  Inv (S n) d' (<[tid := TAttempt a ph']> ths).
Proof.
  intros Hi Hold Hh Hl Ha Hde Hs Hd Hk Ha'.
  destruct (current_holder n d ths tid a ph Hi Hold Hh) as (_ & _ & _ & Hc). destruct (Hc Ha) as [Hcb _].
  assert (Hall : forall t th, <[tid := TAttempt a ph']> ths !! t = Some th -> TInv d' t th /\ curb d' th = false).
  { intros t th Hth. destruct (decide (t = tid)) as [->|Hne].
    - rewrite lookup_insert_eq in Hth. injection Hth as <-. by apply late_inv.
    - rewrite lookup_insert_ne in Hth by done. by eapply (settle_others n d d' ths tid). }
  split; [done|]. by apply inv_idle.
Qed.

Lemma finishAttempt_inv n e b tid a ph ph' gen err replace u u' c :
  few n -> UInv n u -> threads u !! tid = Some (TAttempt a ph) -> holdingPhase ph = true -> latePhase ph' = true ->
  finishAttempt e b tid (aOp a) gen err replace u = (u', c) -> UInv (S n) (goto tid (TAttempt a ph') u').
Proof.
  intros Hn Hi Hold Hh Hl Hfin. pose proof (inv_d _ _ _ Hi) as Hd. unfold UInv in *. pose proof (dinv_dropped n (driver u) tid Hd) as Hd0.
  destruct (current_holder n _ _ tid a ph Hi Hold Hh) as (Hat & Hat' & Hop & Hc).
  destruct (dropControl_fields tid (driver u)) as (_ & _ & _ & Hde' & _ & Hq' & Ha' & Hk' & _ & _).
  destruct (finishAttempt_cases _ _ _ _ _ _ _ _ _ _ Hfin) as [[_ ->]|(-> & Ha & Hde & Hf)].
  { cbn. eapply handle_drop_inv; [done..|by apply late_inv|]. by rewrite (proj2 (late_inv (driver u) tid a ph' Hl)). }
  destruct (Hc Ha) as [_ (_ & _ & Hq)].
  destruct Hf as [tr Herr|Herr|r nr Herr|detail nr d delay Herr Hrc Hb]; cbn [driver threads goto set_threads set_trace set_driver].
  - destruct (publishRunning_settled (eNow e) gen (dropControl tid (driver u)) (di_caps _ _ Hd0)) as (Hs & _ & _ & Hao & Hk & _).
    eapply inv_settle; [done..| |lia|by left]. apply running_dinv; [done|congruence|done].
  - destruct (quarantine_settled (eNow e) (dropControl tid (driver u))) as (Hs & _ & _ & Hao & Hk & _).
    eapply inv_settle; [done..| |lia|by left]. by apply quarantine_dinv.
  - destruct (failDriver_settled (eNow e) r (set_needsReplace nr (dropControl tid (driver u)))) as (Hs & _ & _ & Hao & Hk & _).
    eapply inv_settle; [done..| |cbn in *; lia|by left]. by apply failDriver_dinv, dinv_needsReplace.
  - destruct (beginBackoff_settled e replace detail (set_needsReplace nr (dropControl tid (driver u)))) as (Hs & _ & _ & Hao & Hk & _).
    destruct (backoff_dinv n e replace detail (set_needsReplace nr (dropControl tid (driver u)))) as [Hd' Hlt];
      [done|by apply dinv_needsReplace|cbn; congruence|done|cbn; congruence|cbn; lia|].
    rewrite Hb in Hs, Hao, Hk, Hd', Hlt. cbn [fst] in *. cbn in Hao, Hlt.
    destruct (inv_settle n (driver u) (set_retryCancel (Some (nextTid u)) d) (threads u) tid a ph ph') as [Hall Hinv];
      [done..|by apply dinv_retryCancel|cbn; lia|cbn; right; congruence|].
    cbn. destruct (decide (nextTid u = tid)) as [<-|Hne]; [by rewrite insert_insert_eq|].
    rewrite insert_insert_ne by done. apply inv_insert; [done| |done].
    pose proof (di_active _ _ Hd). pose proof (di_token _ _ Hd). destruct Hs as (_ & _ & Hseq & _).
    destruct (dropControl_fields tid (driver u)) as (_ & _ & Hs0 & _). cbn in *. lia.
Qed.

(** A stale provider whose close is not proven. *)
Lemma keeps_quarantine d d' tid t th :
  settled d d' \/ settled (dropControl tid d) d' -> quarantined d' = true -> activeOperation d' = 0 ->
  retryToken d' = retryToken d -> TInv d t th -> t <> tid -> keeps d d' t th.
Proof.
  intros Hs Hq Ha Hk Htv Hne.
  destruct (dropControl_fields tid d) as (_ & Ho' & Hs' & Hde' & _ & _ & _ & _ & _ & Hat').
  assert (Hx : operationSeq d' = operationSeq d /\ opMu d' = opMu d /\ desired d' = desired d /\
    (activeAttempt d = Some t -> activeAttempt d' = Some t)).
  { destruct Hs as [(_ & ? & ? & E & ?)|(_ & ? & ? & E & ?)]; split_and!; try congruence.
    rewrite E, Hat'. intros E'. rewrite bool_decide_eq_false_2; [done|congruence]. }
  destruct Hx as (Hx1 & Hx2 & Hx3 & Hx4). split; [lia|lia|congruence|done| |].
  - by rewrite (curb_fresh d d' t th) by auto.
  - intros _ [E _]. split; [congruence|by right].
Qed.
Lemma inv_quarantine n d d' ths tid old th :
  Inv n d ths -> ths !! tid = Some old -> settled d d' \/ settled (dropControl tid d) d' -> quarantined d' = true ->
  activeOperation d' = 0 -> retryToken d' = retryToken d -> DInv (S n) d' -> TInv d' tid th -> worker th = None ->
  Inv (S n) d' (<[tid := th]> ths).
Proof.
  intros Hi Hold Hs Hq Ha Hk Hd Ht Hw. eapply inv_goto; [done..| |done|].
  - intros t th' _ Hne Htv. by eapply keeps_quarantine.
  - unfold curb. by rewrite Hw.
Qed.

Lemma quiet_dinv n d : DInv n d -> DInv (S n) d.
Proof. intros []. split; try done; lia. Qed.
Lemma inv_step_thread n d ths tid old th :
  Inv n d ths -> ths !! tid = Some old -> TInv d tid th -> (curb d th = true -> curb d old = true) ->
  Inv (S n) d (<[tid := th]> ths).
Proof.
  intros Hi Hold Ht Hc. pose proof (di_token _ _ (inv_d _ _ _ Hi)). eapply inv_quiet; [done..|lia|done|done].
Qed.
(** A phase of an attempt with the handle, and the phases after it. *)
Lemma inv_phase n d ths tid a ph ph' :
  Inv n d ths -> ths !! tid = Some (TAttempt a ph) ->
  holdingPhase ph = true /\ holdingPhase ph' = true \/ latePhase ph' = true ->
  Inv (S n) d (<[tid := TAttempt a ph']> ths).
Proof.
  intros Hi Hold Hph. eapply inv_step_thread; [done..| |].
  - destruct Hph as [[H1 H2]|H]; [|by apply late_inv]. pose proof (inv_t _ _ _ Hi _ _ Hold) as Ht.
    destruct ph, ph'; try done; exact Ht.
  - destruct Hph as [[H1 H2]|H]; [|by rewrite (proj2 (late_inv d tid a ph' H))].
    by destruct ph, ph'.
Qed.

Lemma retireSection_inv n e b tid a held gen err u :
  few n -> UInv n u -> threads u !! tid = Some (TAttempt a (ARetired held gen err)) ->
  UInv (S n) (retireSection e b tid a held gen err u).
Proof.
  intros Hn Hi Hold. unfold retireSection. pose proof (inv_d _ _ _ Hi) as Hd. destruct held as [holdErr|].
  - branch E.
    + unfold UInv. cbn [driver threads goto set_threads set_driver onDriver].
      destruct (quarantine_settled (eNow e) (dropControl tid (driver u))) as (Hs & _ & Hq & Ha & Hk & _).
      destruct (dropControl_fields tid (driver u)) as (_ & _ & _ & _ & _ & _ & _ & Hk' & _ & _).
      eapply inv_quarantine; [exact Hi|exact Hold|by right|done|done|congruence| |by apply late_inv|done].
      by apply quarantine_dinv, dinv_dropped.
    + destruct (finishAttempt e b tid (aOp a) 0 (Some holdErr) false u) as [u' c] eqn:Ef.
      by eapply finishAttempt_inv.
  - branch E.
    + unfold UInv. cbn [driver threads goto set_threads set_driver onDriver].
      destruct (quarantine_settled (eNow e) (driver u)) as (Hs & _ & Hq & Ha & Hk & _).
      eapply inv_quarantine; [exact Hi|exact Hold|by left|done|done|done| |by apply late_inv|done].
      by apply quarantine_dinv.
    + eapply inv_phase; [exact Hi|exact Hold|by right].
Qed.

(** ** Retries, reports and the other steps *)

Lemma beginRetry_fields now d :
  let d' := beginRetry now d in
  cfg d' = cfg d /\ opMu d' = opMu d /\ operationSeq d' = operationSeq d /\ desired d' = desired d /\
  observed d' = ObservedStarting /\ quarantined d' = quarantined d /\ activeOperation d' = activeOperation d /\
  retryToken d' = retryToken d /\ effective d' = [] /\ activeAttempt d' = activeAttempt d.
Proof. by split_and!. Qed.

(** In a stable state and in back-off nobody works. *)
Lemma nobody_current n d ths t th :
  Inv n d ths -> ths !! t = Some th ->
  observed d <> ObservedStarting -> observed d <> ObservedStopping -> curb d th = false.
Proof.
  intros Hi Hth H1 H2. pose proof (inv_t _ _ _ Hi _ _ Hth) as Ht. destruct (curb d th) eqn:E; [|done]. exfalso.
  assert (Hc : Cur d).
  { unfold curb in E. destruct th as [|op r|a ph| | | | | | |]; try done; cbn in *.
    - apply Z.eqb_eq in E. by apply Ht.
    - destruct ph; try done; cbn in *; apply Z.eqb_eq in E; first [by apply Ht | by destruct (Ht eq_refl) as (_ & _ & ?); auto]. }
  destruct Hc as (_ & [?|?] & _); done.
Qed.

Lemma retrySection_inv n e b tid op token u :
  UInv n u -> threads u !! tid = Some (TRetrySection op token) -> UInv (S n) (retrySection e b tid op token u).
Proof.
  intros Hi Hold. pose proof (inv_t _ _ _ Hi _ _ Hold) as (Hr & _ & Ho). unfold retrySection. branch E.
  { by apply inv_unlock_exit. }
  repeat (apply orb_false_iff in E as [E ?]). bool_facts.
  match goal with H : bool_decide (observed _ = _) = true |- _ => apply bool_decide_eq_true in H; rename H into Hob end.
  match goal with H : bool_decide (desired _ = _) = true |- _ => apply bool_decide_eq_true in H; rename H into Hde end.
  match goal with H : quarantined _ = false |- _ => rename H into Hq end.
  pose proof (inv_d _ _ _ Hi) as Hd. pose proof (di_state _ _ Hd) as Hst. unfold SInv in Hst. rewrite Hob in Hst.
  destruct Hst as (Hop & _ & _ & Hat).
  destruct (beginRetry_fields (eNow e) (driver u)) as (F1 & F2 & F3 & F4 & F5 & F6 & F7 & F8 & F9 & F10).
  unfold UInv. cbn [driver threads goto set_threads set_driver unlockOp onDriver].
  revert F1 F2 F3 F4 F5 F6 F7 F8 F9 F10. cbv zeta. generalize (beginRetry (eNow e) (driver u)) as d'. intros.
  assert (Hc : forall d t th, d = set_opMu None d' -> threads u !! t = Some th -> curb d th = false).
  { intros d t th -> Hth. pose proof (nobody_current n _ _ t th Hi Hth) as Hx. rewrite Hob in Hx.
    unfold curb in *. cbn. rewrite F7. by apply Hx. }
  eapply inv_goto; [exact Hi|exact Hold| | | |].
  - destruct Hd. split; unfold SInv, CapInv; cbn; rewrite ?F1, ?F3, ?F4, ?F5, ?F6, ?F7, ?F8, ?F9; try done; lia.
  - intros t th Hth Hne Htv. split; cbn; rewrite ?F2, ?F3, ?F8, ?F10; try lia; try done.
    + rewrite Ho. by intros [= ->].
    + by rewrite (Hc _ t th eq_refl Hth).
    + intros Hs _. pose proof (stopping_opMu _ t th Htv Hs). congruence.
  - cbn. rewrite F3, F7. split; [lia|]. intros _. unfold Cur. cbn. rewrite F4, F5, F6, F10. auto.
  - intros _. right. intros t th Hth _. by eapply Hc.
Qed.

(** A stable driver: nobody stops it and nobody works on it. *)
Lemma stable_facts n d ths :
  Inv n d ths -> stable (observed d) = true ->
  activeOperation d = 0 /\ desired d = DesiredRunning /\ quarantined d = false /\ activeAttempt d = None /\
  observed d <> ObservedStarting /\ observed d <> ObservedStopping.
Proof.
  intros Hi Hst. pose proof (di_state _ _ (inv_d _ _ _ Hi)) as Hs. unfold SInv, stable in *.
  destruct (observed d); try done; destruct Hs as (? & ? & ? & ?); by split_and!.
Qed.
Lemma inv_report n d d' ths :
  Inv n d ths -> stable (observed d) = true -> DInv (S n) d' -> operationSeq d <= operationSeq d' ->
  activeOperation d' = 0 \/ operationSeq d < activeOperation d' -> retryToken d <= retryToken d' -> opMu d' = opMu d ->
  activeAttempt d' = activeAttempt d ->
  (forall t th, ths !! t = Some th -> TInv d' t th /\ curb d' th = false) /\ Inv (S n) d' ths.
Proof.
  intros Hi Hst Hd Hs Ha Hk Ho Hat. destruct (stable_facts n d ths Hi Hst) as (_ & Hde & _ & _ & _ & _).
  assert (Hall : forall t th, ths !! t = Some th -> TInv d' t th /\ curb d' th = false).
  { intros t th Hth. pose proof (inv_t _ _ _ Hi _ _ Hth) as Htv.
    assert (Hc : curb d' th = false) by (by apply (curb_fresh d d' t)). split; [|done].
    eapply tinv_frame; [done|]. split; [lia|lia|by rewrite Ho|by rewrite Hat|by rewrite Hc|]. intros _ [E _]. congruence. }
  split; [done|]. by apply inv_idle.
Qed.

Lemma ReportDegraded_inv n e b c eff r u : UInv n u -> UInv (S n) (ReportDegradedCorrelated e b c eff r u).
Proof.
  intros Hi. unfold ReportDegradedCorrelated. branch E.
  { unfold UInv, emit. cbn. destruct Hi as [Hd Ht Hu]. split; [by apply quiet_dinv|done|done]. }
  repeat (apply orb_false_iff in E as [E ?]). bool_facts.
  match goal with H : stable _ = true |- _ => rename H into Hst end.
  match goal with H : (length _ =? 0)%nat = false |- _ => apply Nat.eqb_neq in H; rename H into Hnil end.
  match goal with H : (_ <=? length _)%nat = false |- _ => apply Nat.leb_gt in H; rename H into Hlen end.
  match goal with H : capabilitySubset _ _ = true |- _ => rename H into Hsub end.
  destruct (stable_facts n _ _ Hi Hst) as (Ha & Hde & Hq & Hat & _ & _). pose proof (inv_d _ _ _ Hi) as Hd.
  eapply inv_report; [exact Hi|done| |done|by left|done|done|done].
  destruct Hd. split; unfold SInv, CapInv; cbn; try done; try lia. split_and!; try done.
  - rewrite normalizeCapabilities_idem. intros E0. by rewrite E0 in Hnil.
  - by rewrite normalizeCapabilities_idem.
  - intros x. rewrite normalizeCapabilities_idem. apply subset_elem; [|done].
    rewrite <- di_caps0. apply normalizeCapabilities_sorted.
  - by rewrite !normalizeCapabilities_idem.
Qed.

Lemma ReportFailure_inv n e b c f u : few n -> UInv n u -> UInv (S n) (ReportFailure e b c f u).
Proof.
  intros Hn Hi. unfold ReportFailure. branch E.
  { unfold UInv, emit. cbn. destruct Hi as [Hd Ht Hu]. split; [by apply quiet_dinv|done|done]. }
  repeat (apply orb_false_iff in E as [E ?]). bool_facts. subst b.
  match goal with H : stable _ = true |- _ => rename H into Hst end.
  destruct (stable_facts n _ _ Hi Hst) as (Ha & Hde & Hq & Hat & _ & _). pose proof (inv_d _ _ _ Hi) as Hd.
  set (d1 := resetRetryLocked (set_needsReplace true (nextOperationLocked (driver u)))).
  assert (F : cfg d1 = cfg (driver u) /\ opMu d1 = opMu (driver u) /\ operationSeq d1 = operationSeq (driver u) + 1 /\
    activeOperation d1 = operationSeq (driver u) + 1 /\ retryToken d1 = retryToken (driver u) /\
    activeAttempt d1 = None /\ quarantined d1 = false /\ desired d1 = DesiredRunning).
  { unfold d1. cbn. by rewrite (incr64_small n _ (di_seq _ _ Hd) Hn). }
  clearbody d1. destruct F as (F1 & F2 & F3 & F4 & F5 & F6 & F7 & F8).
  branch E1.
  - unfold scheduleRetryLocked, UInv. cbn [driver threads emit set_trace].
    edestruct fence_fields as (E2 & E3 & E4 & _). rewrite E2. cbn [driver set_driver].
    destruct (beginBackoff e true (FDetail f) d1) as [d delay] eqn:Eb.
    destruct (beginBackoff_settled e true (FDetail f) d1) as ((G1 & G2 & G3 & G4 & G5) & G6 & G7 & G8 & G9 & G10).
    rewrite Eb in *. cbn [fst] in *. cbn [driver threads goto set_threads set_nextTid set_driver nextTid emit set_trace].
    rewrite E3. rewrite F5, (incr64_small n _ (di_token _ _ Hd) Hn) in G9.
    destruct (inv_report n (driver u) (set_retryCancel (Some (nextTid (fenceWithdrawalLocked (set_driver d1 u)))) d) (threads u))
      as [_ Hinv]; cbn; try done; try lia; try congruence.
    { destruct Hd. split; unfold SInv, CapInv; cbn; rewrite ?G6; rewrite ?G1, ?G3, ?G8, ?G9, ?F1, ?F3, ?F4, ?F5; try done; try lia.
      split_and!; try lia; congruence. }
    apply inv_insert; [done| |done]. pose proof (di_seq _ _ Hd). pose proof (di_token _ _ Hd). cbn. lia.
  - unfold UInv. cbn [driver threads set_driver emit set_trace]. edestruct fence_fields as (_ & -> & _). cbn [threads set_driver].
    destruct (failDriver_settled (eNow e) (normalizeReason (FReason f)) d1) as ((G1 & G2 & G3 & G4 & G5) & G6 & G7 & G8 & G9 & G10).
    revert G1 G2 G3 G4 G5 G6 G7 G8 G9 G10. cbv zeta. generalize (failDriver (eNow e) (normalizeReason (FReason f)) d1) as d'. intros.
    pose proof (di_seq _ _ Hd).
    eapply inv_report; [exact Hi|done| |lia|by left|lia|congruence|congruence].
    destruct Hd. split; unfold SInv, CapInv; rewrite ?G6; rewrite ?G1, ?G3, ?G8, ?G9, ?G10, ?F1, ?F3, ?F5; try done; lia.
Qed.

(** ** Every step *)

Lemma inv_weaken n d ths : Inv n d ths -> Inv (S n) d ths.
Proof. intros [Hd Ht Hu]. split; [by apply quiet_dinv|done|done]. Qed.
Lemma inv_gone n d ths tid : Inv n d ths -> Inv (S n) d (delete tid ths).
Proof. intros Hi. by apply inv_weaken, inv_delete. Qed.

Lemma cancelRetry_fields u :
  let d' := driver (cancelRetry u) in
  core d' = core (driver u) /\ cfg d' = cfg (driver u) /\ effective d' = effective (driver u) /\
  retryToken d' = incr64 (retryToken (driver u)) /\ threads (cancelRetry u) = threads u /\
  nextTid (cancelRetry u) = nextTid u /\ opened (cancelRetry u) = opened u /\ opMu d' = opMu (driver u).
Proof. unfold cancelRetry. by destruct (retryCancel (driver u)). Qed.

Lemma cancelRetry_inv n tid old th u :
  few n -> UInv n u -> threads u !! tid = Some old -> worker th = None ->
  (forall d, opMu d = opMu (driver u) -> TInv d tid th) -> UInv (S n) (goto tid th (cancelRetry u)).
Proof.
  intros Hn Hi Hold Hw Ht. pose proof (di_token _ _ (inv_d _ _ _ Hi)) as Hk.
  destruct (cancelRetry_fields u) as (Hc & Hf & He & Htok & Hth & _ & _ & Hop). rewrite (incr64_small n _ Hk Hn) in Htok.
  unfold UInv. cbn [driver threads goto set_threads]. rewrite Hth.
  eapply inv_quiet; [exact Hi|exact Hold|done..|lia| |].
  - by apply Ht.
  - unfold curb. by rewrite Hw.
Qed.

Lemma lockOp_inv n tid old th u u' :
  UInv n u -> threads u !! tid = Some old -> worker th = None -> (forall d, opMu d = Some tid ->
    operationSeq d = operationSeq (driver u) -> retryToken d = retryToken (driver u) -> TInv d tid th) ->
  lockOp tid th u = Some u' -> UInv (S n) u'.
Proof.
  intros Hi Hold Hw Ht. unfold lockOp. destruct (opMu (driver u)) eqn:Ho; [done|]. intros [= <-].
  eapply inv_lock; [exact Hi|exact Hold|done|by apply Ht|done].
Qed.

Lemma stepOp_inv n e b tid k ph u u' :
  few n -> UInv n u -> threads u !! tid = Some (TOp k ph) -> stepOp e b tid k ph u = Some u' -> UInv (S n) u'.
Proof.
  intros Hn Hi Hold. pose proof (inv_t _ _ _ Hi _ _ Hold) as Ht. destruct ph; cbn [stepOp].
  - intros [= <-]. eapply cancelRetry_inv; [done|exact Hi|exact Hold|done|]. by destruct k as [| |[]].
  - intros [= <-]. unfold UInv. cbn [driver threads goto set_threads]. unfold cancelAttempt.
    edestruct control_fields as (-> & -> & _). eapply inv_step_thread; [exact Hi|exact Hold|done|done].
  - intros Hl. eapply lockOp_inv; [exact Hi|exact Hold| | |exact Hl]; done.
  - intros [= <-]. eapply cancelRetry_inv; [done|exact Hi|exact Hold|done|]. intros d Ho. cbn. by rewrite Ho.
  - intros [= <-]. destruct k as [async| |sh].
    + by apply startSection_inv.
    + by apply replaceSection_inv.
    + by eapply stopSection_inv.
Qed.

Lemma enterAttempt_inv n tid a u :
  UInv n u -> threads u !! tid = Some (TAttempt a AEnter) -> UInv (S n) (enterAttempt tid a u).
Proof.
  intros Hi Hold. pose proof (inv_t _ _ _ Hi _ _ Hold) as [Hr Hcur]. unfold enterAttempt. branch E.
  { unfold endAttempt. destruct (aTask a); by apply inv_gone. }
  apply orb_false_iff in E as [E _]. apply negb_false_iff in E. unfold current in E. apply andb_true_iff in E as [Ha _].
  apply Z.eqb_eq in Ha. destruct (Hcur (eq_sym Ha)) as [Hc Hat]. unfold UInv.
  cbn [driver threads goto set_threads onDriver set_driver].
  eapply inv_goto; [exact Hi|exact Hold| | | |].
  - destruct (inv_d _ _ _ Hi) as [H1 H2 H3 H4 H5 H6]. split; try done; [cbn; lia..|]. destruct Hc as (Hde & Hob & Hq).
    unfold SInv in *. cbn. by destruct Hob as [E|E]; rewrite E in *.
  - intros t th Hth Hne Htv. split; cbn; try done.
    + by rewrite Hat.
    + intros E. exfalso. apply Hne. apply (inv_u _ _ _ Hi t tid th _ Hth Hold); [done|].
      unfold curb. cbn. by apply Z.eqb_eq.
  - destruct (Runtime _); intros _; (split; [exact Hr|split; [done|by intros _]]).
  - intros _. left. unfold curb. cbn. by apply Z.eqb_eq.
Qed.

Lemma stepAttempt_inv n e b tid a ph u u' :
  few n -> UInv n u -> threads u !! tid = Some (TAttempt a ph) -> stepAttempt e b tid a ph u = Some u' -> UInv (S n) u'.
Proof.
  intros Hn Hi Hold. unfold UInv. destruct ph; cbn [stepAttempt]; try done.
  - intros [= <-]. by apply enterAttempt_inv.
  - intros [= <-]. eapply inv_phase; [exact Hi|exact Hold|by left].
  - intros [= <-]. eapply inv_phase; [exact Hi|exact Hold|]. left. split; [done|]. by repeat case_match.
  - intros [= <-]. destruct (HoldAdmission _); (eapply inv_phase; [exact Hi|exact Hold|by left]).
  - intros [= <-]. eapply inv_phase; [exact Hi|exact Hold|]. left. split; [done|]. by repeat case_match.
  - intros [= <-]. eapply inv_phase; [exact Hi|exact Hold|by left].
  - intros [= <-]. by apply retireSection_inv.
  - intros [= <-]. eapply inv_phase; [exact Hi|exact Hold|by right].
  - intros [= <-]. destruct (Closed _); (eapply inv_phase; [exact Hi|exact Hold|by right]).
  - destruct (finishAttempt e b tid (aOp a) gen err (aReplace a) u) as [u1 c] eqn:Ef. intros [= <-].
    eapply finishAttempt_inv; [done|exact Hi|exact Hold|done| |exact Ef]. by repeat case_match.
  - intros [= <-]. destruct (Runtime _) as [k|]; [destruct (binder k)|]; (eapply inv_phase; [exact Hi|exact Hold|by right]).
  - intros [= <-]. assert (Hx : Inv (S n) (dropControl tid (driver u)) (delete tid (threads u))).
    { eapply inv_exit; [exact Hi|by apply dinv_drop, (inv_d _ _ _ Hi)|]. intros t th _ Hne _.
      destruct (dropControl_fields tid (driver u)) as (_ & _ & _ & _ & Hob & Hq & Ha & Hk & _ & _).
      apply (keeps_drop (driver u) _ tid); try done; first [by split_and! | lia]. }
    unfold endAttempt. by destruct (aTask a).
Qed.

Lemma stepRun_inv n e b tid th u u' :
  few n -> UInv n u -> threads u !! tid = Some th -> stepRun e b tid th u = Some u' -> UInv (S n) u'.
Proof.
  intros Hn Hi Hold. pose proof (inv_t _ _ _ Hi _ _ Hold) as Ht. destruct th; cbn [stepRun]; try done.
  - by apply stepOp_inv.
  - intros [= <-]. destruct b; [by apply inv_gone|]. eapply inv_step_thread; [exact Hi|exact Hold|exact Ht|done].
  - by apply stepAttempt_inv.
  - intros [= <-]. eapply inv_step_thread; [exact Hi|exact Hold|exact Ht|done].
  - intros [= <-]. by apply stopFinish_inv.
  - intros [= <-]. destruct (Closed _); by apply inv_gone.
  - intros Hl. refine (lockOp_inv n tid _ _ u u' Hi Hold _ _ Hl); [done|]. cbn in *. intros d Ho Hs Hk. rewrite Hs, Hk. tauto.
  - intros [= <-]. by apply retrySection_inv.
Qed.

Lemma ustep_inv n b l u u' : few n -> UInv n u -> ustep b l u = Some u' -> UInv (S n) u'.
Proof.
  intros Hn Hi. destruct l as [k|tid e|tid gen err|tid err|tid err|tid due|e c eff r|e c f|h]; cbn [ustep].
  - intros [= <-]. apply inv_insert; [by apply inv_weaken|done|done].
  - destruct (threads u !! tid) as [th|] eqn:Hold; cbn; [|done]. by apply stepRun_inv.
  - destruct (threads u !! tid) as [[| |a []| | | | | | |]|] eqn:Hold; try done. intros [= <-].
    destruct (bool_decide _); (eapply inv_phase; [exact Hi|exact Hold|by left]).
  - destruct (threads u !! tid) as [[| |a []| | | | | | |]|] eqn:Hold; try done. intros [= <-].
    eapply inv_phase; [exact Hi|exact Hold|by left].
  - destruct (threads u !! tid) as [[| |a []| |r covers| | | | |]|] eqn:Hold; try done; intros [= <-]; unfold stopReturned;
      destruct (releases err); first [ eapply inv_phase; [exact Hi|exact Hold|by left]
        | eapply inv_step_thread; [exact Hi|exact Hold|exact (inv_t _ _ _ Hi _ _ Hold)|done]].
  - destruct (threads u !! tid) as [[| | | | | | |op token delay| |]|] eqn:Hold; try done.
    destruct due; [intros [= <-]; eapply inv_step_thread; [exact Hi|exact Hold|exact (inv_t _ _ _ Hi _ _ Hold)|done]|].
    destruct (_ || _); [|done]. intros [= <-]. by apply inv_gone.
  - intros [= <-]. by apply ReportDegraded_inv.
  - intros [= <-]. by apply ReportFailure_inv.
  - intros [= <-]. unfold BindHooks. destruct (hooksBound _); [by apply inv_weaken|].
    destruct Hi as [Hd Ht Hu]. split; [|done|done]. apply quiet_dinv in Hd. by destruct Hd.
Qed.

Lemma newUnit_inv now c : UInv 0 (newUnit now c).
Proof.
  split; [|done|done].
  split; unfold SInv, CapInv; cbn; try lia; [apply normalizeCapabilities_idem|by destruct (Enabled c)..].
Qed.

Lemma driver_reachable_inv now c n b u : reachable now c n b u -> few n -> UInv n u.
Proof.
  induction 1 as [|n b u _ IH|n b l u u' _ IH Hs]; intros Hn; [apply newUnit_inv|auto|].
  unfold few in *. apply (ustep_inv n b l u); [unfold few; lia|apply IH; lia|done].
Qed.
End DriverInv.
