(* ===== verification/DriverLive.v ===== *)
(** * Somebody always attends to a driver

    While a driver is starting, stopping or in back-off there is a thread that
    works on it: an attempt on the current operation, a stop, a retry with
    the current token whose context is not cancelled, or a call that has
    cancelled the retry and is about to take over. *)

From S2P Require Import Prelude Float64 DriverManager DriverCaps DriverInv.

Local Open Scope Z_scope.

Module DriverLive.
Import DriverManager DriverCaps DriverInv.

(** ** Threads and tokens *)

Definition retryOf (th : thread) : option (Z * Z) :=
  match th with
  | TRetry op token _ | TRetryLock op token | TRetrySection op token => Some (op, token)
  | _ => None
  end.

(** Contexts are named by threads that exist or existed, and the context of
    a retry with the current token is not cancelled. *)
Record Tok (u : unit_) : Prop := {
  tk_tids : forall t th, threads u !! t = Some th -> (t < nextTid u)%nat;
  tk_cancelled : forall t, t ∈ cancelledRetry u -> (t < nextTid u)%nat;
  tk_handle : forall t, retryCancel (driver u) = Some t -> (t < nextTid u)%nat;
  tk_live : forall t th op token, threads u !! t = Some th -> retryOf th = Some (op, token) ->
    token = retryToken (driver u) -> t ∉ cancelledRetry u
}.

(** A thread goes on without touching the tokens. *)
Lemma tok_goto u u' tid old th :
  Tok u -> threads u !! tid = Some old -> threads u' = <[tid := th]> (threads u) -> nextTid u' = nextTid u ->
  cancelledRetry u' = cancelledRetry u -> retryCancel (driver u') = retryCancel (driver u) \/ retryCancel (driver u') = None ->
  retryToken (driver u') = retryToken (driver u) -> (retryOf th = None \/ retryOf th = retryOf old) -> Tok u'.
Proof.
  intros [H1 H2 H3 H4] Hold Ht Hn Hc Hr Hk Ho. split; rewrite ?Ht, ?Hn, ?Hc, ?Hk.
  - intros t th'. destruct (decide (t = tid)) as [->|Hne]; [by intros _; eapply H1|]. rewrite lookup_insert_ne by done. apply H1.
  - done.
  - destruct Hr as [-> | ->]; [apply H3|done].
  - intros t th' op token. destruct (decide (t = tid)) as [->|Hne].
    + rewrite lookup_insert_eq. intros [= <-] E. destruct Ho as [Ho|Ho]; [congruence|]. apply (H4 tid old op token Hold). congruence.
    + rewrite lookup_insert_ne by done. apply H4.
Qed.
Lemma tok_exit u u' tid :
  Tok u -> threads u' = delete tid (threads u) -> nextTid u' = nextTid u ->
  cancelledRetry u' = cancelledRetry u -> retryCancel (driver u') = retryCancel (driver u) ->
  retryToken (driver u') = retryToken (driver u) -> Tok u'.
Proof.
  intros [H1 H2 H3 H4] Ht Hn Hc Hr Hk. split; rewrite ?Ht, ?Hn, ?Hc, ?Hr, ?Hk; try done.
  - intros t th' Hth. apply lookup_delete_Some in Hth as [_ Hth]. by eapply H1.
  - intros t th' op token Hth. apply lookup_delete_Some in Hth as [_ Hth]. by eapply H4.
Qed.

(** Retry tokens are not ahead of the driver. *)
Lemma token_bound n d ths t th op token :
  Inv n d ths -> ths !! t = Some th -> retryOf th = Some (op, token) -> token <= retryToken d.
Proof.
  intros Hi Hth Hr. pose proof (inv_t _ _ _ Hi _ _ Hth) as Ht. destruct th; try discriminate Hr; injection Hr as <- <-; cbn in Ht; lia.
Qed.

Lemma cancelRetry_tok n tid old th u :
  few n -> UInv n u -> Tok u -> threads u !! tid = Some old -> retryOf th = None -> Tok (goto tid th (cancelRetry u)).
Proof.
  intros Hn Hi [H1 H2 H3 H4] Hold Hw. pose proof (di_token _ _ (inv_d _ _ _ Hi)) as Hk.
  destruct (cancelRetry_fields u) as (_ & _ & _ & Htok & Hth & Hnt & _). rewrite (incr64_small n _ Hk Hn) in Htok.
  assert (Hcan : forall t, t ∈ cancelledRetry (cancelRetry u) -> (t < nextTid u)%nat).
  { unfold cancelRetry. destruct (retryCancel (driver u)) as [c|] eqn:Ec; cbn; [|apply H2]. intros t Hin.
    apply elem_of_union in Hin as [Hin|Hin]; [|by apply H2]. apply elem_of_singleton in Hin as ->. by apply H3. }
  split; cbn [threads nextTid cancelledRetry driver goto set_threads]; rewrite ?Hth, ?Hnt, ?Htok; try done.
  - intros t th'. destruct (decide (t = tid)) as [->|Hne]; [by intros _; eapply H1|]. rewrite lookup_insert_ne by done. apply H1.
  - intros t th' op token. destruct (decide (t = tid)) as [->|Hne].
    + rewrite lookup_insert_eq. intros [= <-]. congruence.
    + rewrite lookup_insert_ne by done. intros Hl Hr ->. pose proof (token_bound _ _ _ _ _ _ _ Hi Hl Hr). lia.
Qed.

(** A retry is scheduled: a fresh thread with a fresh token. *)
Lemma tok_schedule n u u' d op token delay :
  UInv n u -> Tok u -> threads u' = <[nextTid u := TRetry op token delay]> (threads u) -> nextTid u' = S (nextTid u) ->
  cancelledRetry u' = cancelledRetry u -> driver u' = d -> retryCancel d = Some (nextTid u) ->
  retryToken (driver u) < retryToken d -> Tok u'.
Proof.
  intros Hi [H1 H2 H3 H4] Ht Hn Hc <- Hr Hk. split; rewrite ?Ht, ?Hn, ?Hc, ?Hr.
  - intros t th'. destruct (decide (t = nextTid u)) as [->|Hne]; [lia|]. rewrite lookup_insert_ne by done.
    intros Hth. specialize (H1 t th' Hth). lia.
  - intros t Hin. specialize (H2 t Hin). lia.
  - intros t [= <-]. lia.
  - intros t th' op' token'. destruct (decide (t = nextTid u)) as [->|Hne].
    + intros _ _ _ Hin. specialize (H2 _ Hin). lia.
    + rewrite lookup_insert_ne by done. intros Hl Hr' ->. pose proof (token_bound _ _ _ _ _ _ _ Hi Hl Hr'). lia.
Qed.

(** A thread goes on, not as a retry. *)
Ltac tok_go Hold := eapply tok_goto; [done|exact Hold|done..|by left|done|by left].

(** The fields of the drivers that sections make. *)
Lemma dropControl_retry tid d :
  retryCancel (dropControl tid d) = retryCancel d /\ retryToken (dropControl tid d) = retryToken d.
Proof. unfold dropControl. by destruct (bool_decide _). Qed.
Lemma stopQuarantined_retry now d :
  retryCancel (stopQuarantined now d) = retryCancel d /\ retryToken (stopQuarantined now d) = retryToken d.
Proof. unfold stopQuarantined. by destruct (bool_decide _). Qed.
Lemma endStop_retry e err d :
  retryCancel (endStop e err d) = retryCancel d /\ retryToken (endStop e err d) = retryToken d.
Proof. unfold endStop. destruct err as [x|]; [destruct (isStopTimeout x); [|destruct (_ || _)]|]; done. Qed.

Lemma begin_retry now d :
  (retryCancel (beginStart now d) = retryCancel d /\ retryToken (beginStart now d) = retryToken d) /\
  (retryCancel (beginReplace now d) = retryCancel d /\ retryToken (beginReplace now d) = retryToken d) /\
  (retryCancel (beginStop now d) = retryCancel d /\ retryToken (beginStop now d) = retryToken d).
Proof. by split_and!. Qed.

(** A section leaves the tokens and the threads of the others alone. *)
Definition leaves (tid : nat) (u u' : unit_) : Prop :=
  (exists th, threads u' = <[tid := th]> (threads u) /\ retryOf th = None) /\ nextTid u' = nextTid u /\
  cancelledRetry u' = cancelledRetry u /\ retryCancel (driver u') = retryCancel (driver u) /\
  retryToken (driver u') = retryToken (driver u).
Lemma tok_leaves tid old u u' : Tok u -> threads u !! tid = Some old -> leaves tid u u' -> Tok u'.
Proof.
  intros Hk Hold ((th & Ht & Hr) & Hn & Hc & Hrc & Htok). eapply tok_goto; [done|exact Hold|exact Ht|done|done|by left|done|by left].
Qed.

Lemma sections_tok e b tid k u :
  Tok u -> threads u !! tid = Some (TOp k PSection) ->
  Tok match k with
      | KStart async => startSection e b tid async u
      | KReplace => replaceSection e b tid u
      | KStop _ => stopSection e tid u
      end.
Proof.
  intros Hk Hold. destruct k as [async| |sh].
  - unfold startSection. do 7 (branch E; [by eapply tok_exit|clear E]).
    destruct (begin_retry (eNow e) (driver u)) as [[G1 G2] _]. revert G1 G2. generalize (beginStart (eNow e) (driver u)) as d'. intros.
    eapply tok_leaves; [done|exact Hold|]. split; [|by split_and!]. eexists. split; [done|by destruct async].
  - unfold replaceSection. do 4 (branch E; [by eapply tok_exit|clear E]).
    destruct (begin_retry (eNow e) (driver u)) as [_ [[G1 G2] _]]. revert G1 G2. generalize (beginReplace (eNow e) (driver u)) as d'.
    intros. destruct (fence_fields (set_driver d' u)) as (E1 & E2 & E3 & E4 & E5).
    eapply tok_leaves; [done|exact Hold|]. unfold leaves. cbn. rewrite E1, E2, E3, E5. split; [eauto|by split_and!].
  - unfold stopSection. branch E1; [|branch E2].
    + destruct (stopQuarantined_retry (eNow e) (driver u)) as [G1 G2]. revert G1 G2.
      generalize (stopQuarantined (eNow e) (driver u)) as d'. intros.
      destruct (control_fields (activeAttempt (driver u)) (set_driver d' u)) as (F1 & F2 & F3 & F4 & F5).
      eapply tok_leaves; [done|exact Hold|]. unfold leaves. cbn. rewrite F1, F2, F3, F5. split; [eauto|by split_and!].
    + edestruct (control_fields (activeAttempt (driver u)) (set_driver (set_desired DesiredStopped (driver u)) u)) as (F1 & F2 & F3 & F4 & F5).
      eapply tok_leaves; [done|exact Hold|]. unfold leaves. cbn. rewrite F1, F2, F3, F5. split; [eauto|by split_and!].
    + destruct (begin_retry (eNow e) (driver u)) as [_ [_ [G1 G2]]]. revert G1 G2. generalize (beginStop (eNow e) (driver u)) as d'.
      intros. destruct (fence_fields (set_driver d' u)) as (H1 & H2 & H3 & H4 & H5).
      destruct (control_fields (activeAttempt (driver u)) (fenceWithdrawalLocked (set_driver d' u))) as (F1 & F2 & F3 & F4 & F5).
      eapply tok_leaves; [done|exact Hold|]. unfold leaves. cbn. rewrite F1, F2, F3, F5, H1, H2, H3, H5.
      split; [|by split_and!]. eexists. split; [done|]. by destruct (Runtime _).
Qed.

Lemma finishAttempt_tok n e b tid a ph ph' gen err replace u u' c :
  few n -> UInv n u -> Tok u -> threads u !! tid = Some (TAttempt a ph) -> holdingPhase ph = true ->
  finishAttempt e b tid (aOp a) gen err replace u = (u', c) -> Tok (goto tid (TAttempt a ph') u').
Proof.
  intros Hn Hi Hk Hold Hh Hfin. destruct (dropControl_retry tid (driver u)) as [D1 D2].
  pose proof (tk_tids _ Hk _ _ Hold) as Hlt.
  destruct (finishAttempt_cases _ _ _ _ _ _ _ _ _ _ Hfin) as [[_ ->]|(-> & Ha & Hde & Hf)].
  { tok_go Hold. }
  destruct Hf as [tr Herr|Herr|r nr Herr|detail nr d delay Herr Hrc Hb];
    try tok_go Hold.
  pose proof (inv_d _ _ _ Hi) as Hd. pose proof (di_token _ _ Hd) as Htok.
  destruct (beginBackoff_settled e replace detail (set_needsReplace nr (dropControl tid (driver u)))) as (_ & _ & _ & _ & Hto & _).
  rewrite Hb in Hto. cbn in Hto. rewrite D2, (incr64_small n _ Htok Hn) in Hto.
  set (u1 := goto (nextTid u) (TRetry (aOp a) (retryToken d) delay)
    (set_nextTid (S (nextTid u)) (set_driver (set_retryCancel (Some (nextTid u)) d) u))).
  assert (Hk1 : Tok u1) by (eapply (tok_schedule n u); [done..|cbn; lia]).
  eapply (tok_goto u1); [done| |done..|by left|done|by left].
  cbn. rewrite lookup_insert_ne by lia. exact Hold.
Qed.

Lemma stepAttempt_tok n e b tid a ph u u' :
  few n -> UInv n u -> Tok u -> threads u !! tid = Some (TAttempt a ph) -> stepAttempt e b tid a ph u = Some u' -> Tok u'.
Proof.
  intros Hn Hi Hk Hold. destruct (dropControl_retry tid (driver u)) as [D1 D2].
  destruct ph; cbn [stepAttempt]; try done.
  - intros [= <-]. unfold enterAttempt, endAttempt. branch E; [destruct (aTask a); by eapply tok_exit|].
    tok_go Hold.
  - intros [= <-]. tok_go Hold.
  - intros [= <-]. tok_go Hold.
  - intros [= <-]. destruct (HoldAdmission _); tok_go Hold.
  - intros [= <-]. tok_go Hold.
  - intros [= <-]. tok_go Hold.
  - intros [= <-]. unfold retireSection. destruct held as [x|].
    + branch E; [tok_go Hold|].
      destruct (finishAttempt e b tid (aOp a) 0 (Some x) false u) as [u1 c] eqn:Ef. by eapply finishAttempt_tok.
    + branch E; tok_go Hold.
  - intros [= <-]. tok_go Hold.
  - intros [= <-]. destruct (Closed _); tok_go Hold.
  - destruct (finishAttempt e b tid (aOp a) gen err (aReplace a) u) as [u1 c] eqn:Ef. intros [= <-].
    by eapply finishAttempt_tok.
  - intros [= <-]. destruct (Runtime _) as [k|]; [destruct (binder k)|];
      tok_go Hold.
  - intros [= <-]. unfold endAttempt. destruct (aTask a); (eapply tok_exit; [done|done|done|done|exact D1|exact D2]).
Qed.

Lemma stepRun_tok n e b tid th u u' :
  few n -> UInv n u -> Tok u -> threads u !! tid = Some th -> stepRun e b tid th u = Some u' -> Tok u'.
Proof.
  intros Hn Hi Hk Hold. destruct th as [k ph|op r|a ph|r|r cov|r err|r|op tok dl|op tok|op tok]; cbn [stepRun]; try done.
  - destruct ph; cbn [stepOp].
    + intros [= <-]. by eapply cancelRetry_tok.
    + intros [= <-]. destruct (control_fields (activeAttempt (driver u)) u) as (F1 & F2 & F3 & F4 & F5).
      eapply tok_leaves; [done|exact Hold|]. unfold leaves, cancelAttempt. cbn. rewrite F1, F2, F3, F5. split; [eauto|done].
    + unfold lockOp. destruct (opMu _); [done|]. intros [= <-]. tok_go Hold.
    + intros [= <-]. by eapply cancelRetry_tok.
    + intros [= <-]. by apply sections_tok.
  - intros [= <-]. destruct b; [by eapply tok_exit|]. tok_go Hold.
  - by apply (stepAttempt_tok n).
  - intros [= <-]. tok_go Hold.
  - intros [= <-]. unfold stopFinish. destruct (endStop_retry e err (driver u)) as [G1 G2]. revert G1 G2.
    generalize (endStop e err (driver u)) as d'. intros. tok_go Hold.
  - intros [= <-]. destruct (Closed _); by eapply tok_exit.
  - unfold lockOp. destruct (opMu _); [done|]. intros [= <-].
    eapply tok_goto; [done|exact Hold|done..|by left|done|by right].
  - intros [= <-]. unfold retrySection. branch E; [by eapply tok_exit|].
    eapply tok_goto; [done|exact Hold|done..|by right|done|by left].
Qed.

Lemma ustep_tok n b l u u' : few n -> UInv n u -> Tok u -> ustep b l u = Some u' -> Tok u'.
Proof.
  intros Hn Hi Hk. destruct l as [k|tid e|tid gen err|tid err|tid err|tid due|e c eff r|e c f|h]; cbn [ustep].
  - intros [= <-]. destruct Hk as [H1 H2 H3 H4]. split; cbn.
    + intros t th. destruct (decide (t = nextTid u)) as [->|Hne]; [lia|]. rewrite lookup_insert_ne by done.
      intros Hth. specialize (H1 t th Hth). lia.
    + intros t Hin. specialize (H2 t Hin). lia.
    + intros t Hr. specialize (H3 t Hr). lia.
    + intros t th op token. destruct (decide (t = nextTid u)) as [->|Hne].
      * rewrite lookup_insert_eq. by intros [= <-].
      * rewrite lookup_insert_ne by done. apply H4.
  - destruct (threads u !! tid) as [th|] eqn:Hold; cbn; [|done]. by apply (stepRun_tok n).
  - destruct (threads u !! tid) as [[| |a []| | | | | | |]|] eqn:Hold; try done. intros [= <-].
    destruct (bool_decide _); tok_go Hold.
  - destruct (threads u !! tid) as [[| |a []| | | | | | |]|] eqn:Hold; try done. intros [= <-]. tok_go Hold.
  - destruct (threads u !! tid) as [[| |a []| |r covers| | | | |]|] eqn:Hold; try done; intros [= <-]; unfold stopReturned;
      destruct (releases err); tok_go Hold.
  - destruct (threads u !! tid) as [[| | | | | | |op token delay| |]|] eqn:Hold; try done.
    destruct due; [intros [= <-]; eapply tok_goto; [done|exact Hold|done..|by left|done|by right]|].
    destruct (_ || _); [|done]. intros [= <-]. by eapply tok_exit.
  - intros [= <-]. unfold ReportDegradedCorrelated. branch E; by destruct Hk.
  - intros [= <-]. unfold ReportFailure. branch E; [by destruct Hk|].
    repeat (apply orb_false_iff in E as [E ?]). subst b.
    pose proof (di_token _ _ (inv_d _ _ _ Hi)) as Htok.
    set (d1 := resetRetryLocked (set_needsReplace true (nextOperationLocked (driver u)))).
    assert (F : retryToken d1 = retryToken (driver u) /\ retryCancel d1 = retryCancel (driver u)) by done.
    clearbody d1. destruct F as [F1 F2]. destruct (fence_fields (set_driver d1 u)) as (E1 & E2 & E3 & E4 & E5).
    branch E0.
    + unfold scheduleRetryLocked. cbn [driver emit set_trace]. rewrite E1. cbn [driver set_driver].
      destruct (beginBackoff e true (FDetail f) d1) as [d delay] eqn:Eb.
      destruct (beginBackoff_settled e true (FDetail f) d1) as (_ & _ & _ & _ & G & _). rewrite Eb, F1 in G. cbn in G.
      rewrite (incr64_small n _ Htok Hn) in G.
      eapply (tok_schedule n u); [done..| | | |done| |]; cbn; rewrite ?E2, ?E3, ?E5; try done. lia.
    + destruct Hk as [K1 K2 K3 K4]. split; cbn; rewrite ?E2, ?E3, ?E5; try done.
      * intros t. rewrite F2. apply K3.
      * intros t th op token Hth Hr. rewrite F1. by apply (K4 t th op token).
  - intros [= <-]. unfold BindHooks. destruct (hooksBound _); [done|]. by destruct Hk.
Qed.

(** ** Attention *)

Definition retrying (d : managedDriver) (th : thread) : bool :=
  match retryOf th with
  | Some (op, token) => (op =? activeOperation d) && (token =? retryToken d)
  | None => false
  end.
(** A call that has cancelled the retry. *)
Definition engaged (th : thread) : bool :=
  match th with TOp _ PCancel => false | TOp _ _ => true | _ => false end.
Definition busy (o : ObservedState) : bool :=
  match o with ObservedStarting | ObservedStopping | ObservedBackoff => true | _ => false end.
Definition attends (d : managedDriver) (th : thread) : bool :=
  match observed d with
  | ObservedStarting => curb d th
  | ObservedStopping => curb d th || stopping th
  | ObservedBackoff => retrying d th || engaged th
  | _ => false
  end.
Definition Attended (d : managedDriver) (ths : gmap nat thread) : Prop :=
  busy (observed d) = true -> exists t th, ths !! t = Some th /\ attends d th = true.

(** An attempt that retires a construction found itself superseded. *)
Definition stale (th : thread) : bool :=
  match th with
  | TAttempt _ (ARetire None _) | TAttempt _ (ARetiring None _ _) | TAttempt _ (ARetired None _ _) => true
  | _ => false
  end.
Record Att (b : bool) (u : unit_) : Prop := {
  at_attended : b = false -> Attended (driver u) (threads u);
  at_stale : b = false -> forall t th, threads u !! t = Some th -> stale th = true -> curb (driver u) th = false
}.

Definition sameView (d d' : managedDriver) : Prop :=
  observed d' = observed d /\ activeOperation d' = activeOperation d /\ retryToken d' = retryToken d.
Lemma sameView_curb d d' th : sameView d d' -> curb d' th = curb d th.
Proof. intros (_ & Ha & _). unfold curb. by rewrite Ha. Qed.
Lemma sameView_attends d d' th : sameView d d' -> attends d' th = attends d th.
Proof.
  intros Hv. pose proof (sameView_curb d d' th Hv) as Hc. destruct Hv as (Ho & Ha & Hk).
  unfold attends, retrying. by rewrite Ho, Ha, Hk, Hc.
Qed.
Lemma att_goto b u u' tid old th :
  Att b u -> threads u !! tid = Some old -> threads u' = <[tid := th]> (threads u) -> sameView (driver u) (driver u') ->
  (b = false -> attends (driver u) old = true -> attends (driver u) th = true) ->
  (b = false -> stale th = true -> curb (driver u) th = false) -> Att b u'.
Proof.
  intros [H1 H2] Hold Ht Hv Ha Hs. split; intros Hb.
  - intros Hbusy. rewrite (proj1 Hv) in Hbusy. destruct (H1 Hb Hbusy) as (t & th' & Hth & Hat). rewrite Ht.
    destruct (decide (t = tid)) as [->|Hne].
    + exists tid, th. rewrite lookup_insert_eq, (sameView_attends _ _ th Hv). split; [done|]. apply Ha; [done|]. congruence.
    + exists t, th'. rewrite lookup_insert_ne, (sameView_attends _ _ th' Hv) by done. done.
  - intros t th'. rewrite Ht, (sameView_curb _ _ th' Hv). destruct (decide (t = tid)) as [->|Hne].
    + rewrite lookup_insert_eq. intros [= <-]. auto.
    + rewrite lookup_insert_ne by done. by apply H2.
Qed.
Lemma att_exit b u u' tid old :
  Att b u -> threads u !! tid = Some old -> threads u' = delete tid (threads u) -> sameView (driver u) (driver u') ->
  (b = false -> attends (driver u) old = false) -> Att b u'.
Proof.
  intros [H1 H2] Hold Ht Hv Ha. split; intros Hb.
  - intros Hbusy. rewrite (proj1 Hv) in Hbusy. destruct (H1 Hb Hbusy) as (t & th' & Hth & Hat). rewrite Ht.
    destruct (decide (t = tid)) as [->|Hne]; [specialize (Ha Hb); congruence|].
    exists t, th'. rewrite lookup_delete_ne, (sameView_attends _ _ th' Hv) by done. done.
  - intros t th'. rewrite Ht, (sameView_curb _ _ th' Hv). intros Hth. apply lookup_delete_Some in Hth as [_ Hth]. by eapply H2.
Qed.

(** A section that moves the driver on: the stale threads stay stale. *)
Lemma stale_kept n b u (ths' : gmap nat thread) d' :
  UInv n u -> Att b u -> b = false ->
  (forall t th, ths' !! t = Some th -> stale th = true -> threads u !! t = Some th) ->
  activeOperation d' = activeOperation (driver u) \/ activeOperation d' = 0 \/ operationSeq (driver u) < activeOperation d' ->
  forall t th, ths' !! t = Some th -> stale th = true -> curb d' th = false.
Proof.
  intros Hi [_ H2] Hb Hsub Ha t th Hth Hs. pose proof (Hsub t th Hth Hs) as Hth'. destruct Ha as [Ha|Ha].
  - unfold curb. rewrite Ha. by apply (H2 Hb t th).
  - apply (curb_fresh (driver u) d' t th); [|lia]. by apply (inv_t _ _ _ Hi).
Qed.
Lemma att_move n b u u' tid th :
  UInv n u -> Att b u -> threads u' = <[tid := th]> (threads u) -> stale th = false ->
  activeOperation (driver u') = activeOperation (driver u) \/ activeOperation (driver u') = 0 \/
    operationSeq (driver u) < activeOperation (driver u') ->
  (b = false -> busy (observed (driver u')) = true -> attends (driver u') th = true) -> Att b u'.
Proof.
  intros Hi Ha Ht Hs Hop Hat. split; intros Hb.
  - intros Hbusy. exists tid, th. rewrite Ht, lookup_insert_eq. auto.
  - eapply (stale_kept n b u); [done..| |done]. intros t th' Hth Hst. rewrite Ht in Hth.
    destruct (decide (t = tid)) as [->|Hne]; [rewrite lookup_insert_eq in Hth; congruence|].
    by rewrite lookup_insert_ne in Hth by done.
Qed.

Lemma backoff_facts n u :
  UInv n u -> observed (driver u) = ObservedBackoff ->
  1 <= activeOperation (driver u) /\ desired (driver u) = DesiredRunning /\ quarantined (driver u) = false /\
  activeAttempt (driver u) = None.
Proof. intros Hi Ho. pose proof (di_state _ _ (inv_d _ _ _ Hi)) as Hs. unfold SInv in Hs. by rewrite Ho in Hs. Qed.

Lemma op_refused b u tid k r :
  Att b u -> threads u !! tid = Some (TOp k PSection) -> (b = false -> observed (driver u) <> ObservedBackoff) ->
  Att b (return_ tid r (unlockOp u)).
Proof.
  intros Ha Hold Hob. eapply att_exit; [done|exact Hold|done|by split_and!|]. intros Hb. specialize (Hob Hb).
  unfold attends. by destruct (observed (driver u)).
Qed.

Lemma entry_attends d op r (async : bool) :
  observed d = ObservedStarting -> op = activeOperation d ->
  attends d (if async then TSpawn op r else TAttempt (mkAttempt op r false false) AEnter) = true.
Proof. intros Ho ->. unfold attends, curb. rewrite Ho. destruct async; cbn; apply Z.eqb_refl. Qed.

Lemma startSection_att n e b tid async u :
  few n -> UInv n u -> Att b u -> threads u !! tid = Some (TOp (KStart async) PSection) -> Att b (startSection e b tid async u).
Proof.
  intros Hn Hi Ha Hold. pose proof (backoff_facts n u Hi) as Hbo.
  pose proof (incr64_small n _ (di_seq _ _ (inv_d _ _ _ Hi)) Hn) as Hinc.
  unfold startSection.
  branch E1; [eapply op_refused; [done|exact Hold|done]|].
  branch E2; [eapply op_refused; [done|exact Hold|]; intros _ Hx; destruct (Hbo Hx) as (_ & _ & ? & _); congruence|].
  branch E3; [eapply op_refused; [done|exact Hold|]; apply bool_decide_eq_true in E3; congruence|].
  branch E4; [eapply op_refused; [done|exact Hold|]; apply andb_true_iff in E4 as [_ E4]; apply bool_decide_eq_true in E4; congruence|].
  branch E5; [eapply op_refused; [done|exact Hold|]; apply andb_true_iff in E5 as [_ E5]; apply bool_decide_eq_true in E5; congruence|].
  branch E6; [eapply op_refused; [done|exact Hold|]; apply bool_decide_eq_true in E6; intros _ Hx; destruct (Hbo Hx) as (_ & _ & _ & Hy); rewrite Hy in E6; by destruct E6|].
  branch E7; [eapply op_refused; [done|exact Hold|]; apply bool_decide_eq_true in E7; congruence|].
  destruct (beginStart_begun (eNow e) (driver u)) as (_ & _ & _ & Hob & _ & _ & _ & Hop & _).
  revert Hob Hop. generalize (beginStart (eNow e) (driver u)) as d'. intros. rewrite Hinc in Hop.
  eapply (att_move n _ u _ tid); [done|done|done|by destruct async|cbn; lia|]. intros _ _. by apply entry_attends.
Qed.

Lemma replaceSection_att n e b tid u :
  few n -> UInv n u -> Att b u -> threads u !! tid = Some (TOp KReplace PSection) -> Att b (replaceSection e b tid u).
Proof.
  intros Hn Hi Ha Hold. pose proof (backoff_facts n u Hi) as Hbo.
  pose proof (incr64_small n _ (di_seq _ _ (inv_d _ _ _ Hi)) Hn) as Hinc.
  unfold replaceSection.
  branch E1; [eapply op_refused; [done|exact Hold|done]|].
  branch E2; [eapply op_refused; [done|exact Hold|]; intros _ Hx; destruct (Hbo Hx) as (_ & _ & ? & _); congruence|].
  branch E3; [eapply op_refused; [done|exact Hold|]; apply orb_true_iff in E3 as [E3|E3]; apply bool_decide_eq_true in E3; congruence|].
  branch E4; [eapply op_refused; [done|exact Hold|]; apply bool_decide_eq_true in E4; intros _ Hx; destruct (Hbo Hx) as (_ & _ & _ & Hy); rewrite Hy in E4; by destruct E4|].
  destruct (beginReplace_begun (eNow e) (driver u)) as (_ & _ & _ & Hob & _ & _ & _ & Hop & _).
  revert Hob Hop. generalize (beginReplace (eNow e) (driver u)) as d'. intros. rewrite Hinc in Hop.
  destruct (fence_fields (set_driver d' u)) as (F1 & F2 & _).
  eapply (att_move n _ u _ tid); [done|done|cbn; by rewrite F2|done|cbn; rewrite F1; cbn; lia|].
  intros _ _. unfold attends, curb. cbn. rewrite F1. cbn. by rewrite Hob, Z.eqb_refl.
Qed.

Lemma stopSection_att n e b tid k u :
  few n -> UInv n u -> Att b u -> threads u !! tid = Some (TOp (KStop k) PSection) -> Att b (stopSection e tid u).
Proof.
  intros Hn Hi Ha Hold. pose proof (backoff_facts n u Hi) as Hbo.
  pose proof (incr64_small n _ (di_seq _ _ (inv_d _ _ _ Hi)) Hn) as Hinc.
  unfold stopSection. branch E1; [|branch E2].
  + destruct (rest_fields n (driver u) (inv_d _ _ _ Hi)) as (Hop & _ & Hst); [auto|].
    destruct (stopQuarantined_fields (eNow e) (driver u)) as (_ & _ & _ & G1 & _ & G2 & _). revert G1 G2. cbv zeta.
    generalize (stopQuarantined (eNow e) (driver u)) as d'. intros.
    destruct (control_fields (activeAttempt (driver u)) (set_driver d' u)) as (F1 & F2 & _).
    eapply (att_move n _ u _ tid); [done|done|cbn; by rewrite F2|done|cbn; rewrite F1; cbn; auto|].
    cbn. rewrite F1. cbn. intros _. destruct G2 as [[-> _] | ->]; [|done]. by destruct (observed (driver u)).
  + destruct (rest_fields n (driver u) (inv_d _ _ _ Hi)) as (Hop & _ & Hst).
    { apply orb_true_iff in E2 as [E|E]; apply bool_decide_eq_true in E; auto. }
    destruct (control_fields (activeAttempt (driver u)) (set_driver (set_desired DesiredStopped (driver u)) u)) as (F1 & F2 & _).
    eapply (att_move n _ u _ tid); [done|done|cbn; by rewrite F2|done|cbn; rewrite F1; cbn; auto|].
    cbn. rewrite F1. cbn. intros _. by destruct (observed (driver u)).
  + destruct (beginStop_begun (eNow e) (driver u)) as (_ & _ & _ & Hob & _ & _ & _ & Hop & _).
    revert Hob Hop. generalize (beginStop (eNow e) (driver u)) as d'. intros. rewrite Hinc in Hop.
    destruct (fence_fields (set_driver d' u)) as (G1 & G2 & _).
    destruct (control_fields (activeAttempt (driver u)) (fenceWithdrawalLocked (set_driver d' u))) as (F1 & F2 & _).
    eapply (att_move n _ u _ tid); [done|done|cbn; by rewrite F2, G2|by destruct (Runtime _)|cbn; rewrite F1, G1; cbn; lia|].
    intros _ _. unfold attends. cbn. rewrite F1, G1. cbn. rewrite Hob. by destruct (Runtime _).
Qed.

(** An attempt attends to the driver exactly while it is current. *)
Lemma attempt_attends d a ph : attends d (TAttempt a ph) = true -> curb d (TAttempt a ph) = true.
Proof.
  unfold attends, retrying. cbn. destruct (observed d); try done. by rewrite orb_false_r.
Qed.
Lemma holding_worker a ph : holdingPhase ph = true -> worker (TAttempt a ph) = Some (aOp a).
Proof. by destruct ph. Qed.
Lemma phase_attends d a ph ph' :
  holdingPhase ph = true -> holdingPhase ph' = true ->
  attends d (TAttempt a ph) = true -> attends d (TAttempt a ph') = true.
Proof.
  intros H1 H2. assert (Hc : curb d (TAttempt a ph) = curb d (TAttempt a ph')).
  { unfold curb. by rewrite !holding_worker. }
  unfold attends, retrying. rewrite Hc. done.
Qed.
Lemma att_phase b u u' tid a ph ph' :
  Att b u -> threads u !! tid = Some (TAttempt a ph) -> threads u' = <[tid := TAttempt a ph']> (threads u) ->
  driver u' = driver u -> (b = false -> curb (driver u) (TAttempt a ph) = true -> holdingPhase ph = true /\ holdingPhase ph' = true) ->
  (b = false -> stale (TAttempt a ph') = true -> curb (driver u) (TAttempt a ph') = false) -> Att b u'.
Proof.
  intros Ha Hold Ht Hd Hph Hs. eapply att_goto; [done|exact Hold|exact Ht|by rewrite Hd|intros Hb Hat|done].
  destruct (Hph Hb (attempt_attends _ _ _ Hat)) as [H1 H2]. exact (phase_attends _ _ ph ph' H1 H2 Hat).
Qed.

Lemma finishAttempt_att n e b tid a ph ph' gen err replace u u' c :
  few n -> UInv n u -> Tok u -> Att b u -> threads u !! tid = Some (TAttempt a ph) -> holdingPhase ph = true ->
  latePhase ph' = true -> finishAttempt e b tid (aOp a) gen err replace u = (u', c) -> Att b (goto tid (TAttempt a ph') u').
Proof.
  intros Hn Hi Htk Ha Hold Hh Hl Hfin. pose proof (inv_d _ _ _ Hi) as Hd.
  destruct (current_holder n _ _ tid a ph Hi Hold Hh) as (_ & _ & Hop & Hc).
  destruct (dropControl_fields tid (driver u)) as (_ & _ & D3 & D4 & D5 & D6 & D7 & D8 & _ & _).
  assert (Hsl : stale (TAttempt a ph') = false) by (by destruct ph').
  destruct (finishAttempt_cases _ _ _ _ _ _ _ _ _ _ Hfin) as [[Hst ->]|(-> & Hao & Hde & Hf)].
  { eapply att_goto; [done|exact Hold|done|by split_and!| |by rewrite Hsl]. intros -> Hat. exfalso.
    apply attempt_attends in Hat. unfold curb in Hat. assert (Hcur : activeOperation (driver u) = aOp a).
    { destruct ph; try done; cbn in Hat; by apply Z.eqb_eq in Hat. }
    destruct (Hc Hcur) as (_ & Hr & _). destruct Hst as [?|[?|?]]; congruence. }
  destruct Hf as [tr Herr|Herr|r nr Herr|detail nr d delay Herr Hrc Hb].
  - eapply (att_move n _ u _ tid); [done|done|done|done|by right; left|done].
  - eapply (att_move n _ u _ tid); [done|done|done|done|by right; left|done].
  - eapply (att_move n _ u _ tid); [done|done|done|done|by right; left|done].
  - destruct (beginBackoff_settled e replace detail (set_needsReplace nr (dropControl tid (driver u)))) as (_ & Hob & _ & Hop' & _ & _).
    rewrite Hb in Hob, Hop'. cbn in Hob, Hop'. pose proof (tk_tids _ Htk _ _ Hold) as Hlt. split; intros _.
    + intros _. exists (nextTid u), (TRetry (aOp a) (retryToken d) delay). cbn. rewrite lookup_insert_ne, lookup_insert_eq by lia.
      split; [done|]. unfold attends, retrying. cbn. by rewrite Hob, Hop', D7, Hao, !Z.eqb_refl.
    + eapply (stale_kept n false u); [done|done|done| |left; cbn; congruence]. cbn. intros t th. rewrite !lookup_insert_Some.
      intros [[<- <-]|[? [[<- <-]|[? ?]]]]; [congruence|done|done].
Qed.

Lemma superseded_curb d tid a ph ph' :
  holdingPhase ph = true -> TInv d tid (TAttempt a ph) -> current a d = false -> curb d (TAttempt a ph') = false.
Proof.
  intros Hh Htv Hcur. apply not_true_iff_false. intros Hc.
  assert (E : aOp a = activeOperation d) by (unfold curb in Hc; destruct ph'; try done; cbn in Hc; by apply Z.eqb_eq in Hc).
  assert (Hd : Cur d) by (destruct ph; try done; by apply (Htv eq_refl)). destruct Hd as (Hde & _).
  unfold current in Hcur. by rewrite Hde, E, Z.eqb_refl in Hcur.
Qed.

Lemma stepAttempt_att n e b tid a ph u u' :
  few n -> UInv n u -> Tok u -> Att b u -> threads u !! tid = Some (TAttempt a ph) -> stepAttempt e b tid a ph u = Some u' ->
  Att b u'.
Proof.
  intros Hn Hi Htk Ha Hold. pose proof (inv_t _ _ _ Hi _ _ Hold) as Htv.
  destruct ph; cbn [stepAttempt]; try done.
  - intros [= <-]. unfold enterAttempt, endAttempt. branch E.
    + assert (Hat : attends (driver u) (TAttempt a AEnter) = false).
      { apply not_true_iff_false. intros Hat. apply attempt_attends in Hat. unfold curb in Hat. cbn in Hat. apply Z.eqb_eq in Hat.
        destruct Htv as [_ Hcur]. destruct (Hcur Hat) as [(Hde & _ & Hq) _]. unfold current in E.
        by rewrite Hq, Hde, Hat, Z.eqb_refl in E. }
      destruct (aTask a); (eapply att_exit; [done|exact Hold|done|done|done]).
    + eapply att_goto; [done|exact Hold|done|by split_and!| |cbn; by destruct (Runtime (cfg (driver u)))]. intros _. unfold attends, retrying, curb. cbn.
      by destruct (observed (driver u)), (Runtime (cfg (driver u))).
  - intros [= <-]. by eapply att_phase.
  - intros [= <-]. unfold supersededCheck. eapply att_phase; [done|exact Hold|done|done|by repeat case_match|].
    intros -> Hst. destruct (current a (driver u)) eqn:Ecur; [by repeat case_match|].
    by eapply (superseded_curb _ tid a (ABuilt gen err)).
  - intros [= <-]. destruct (HoldAdmission _); by eapply att_phase.
  - intros [= <-]. unfold heldCheck. eapply att_phase; [done|exact Hold|done|done|by repeat case_match|].
    intros -> Hst. destruct (current a (driver u)) eqn:Ecur; [by repeat case_match|].
    by eapply (superseded_curb _ tid a (AHeld gen holdErr)).
  - intros [= <-]. eapply att_phase; [done|exact Hold|done|done|done|]. intros Hb Hst.
    pose proof (at_stale _ _ Ha Hb _ _ Hold) as Hx. destruct held; [done|]. by apply Hx.
  - intros [= <-]. unfold retireSection. destruct held as [x|].
    + branch E.
      { eapply (att_move n _ u _ tid); [done|done|done|done|by right; left|done]. }
      destruct (finishAttempt e b tid (aOp a) 0 (Some x) false u) as [u1 c] eqn:Ef. by eapply finishAttempt_att.
    + branch E.
      { eapply (att_move n _ u _ tid); [done|done|done|done|by right; left|done]. }
      eapply att_phase; [done|exact Hold|done|done| |done]. intros Hb Hc.
      pose proof (at_stale _ _ Ha Hb _ _ Hold eq_refl). congruence.
  - intros [= <-]. by eapply att_phase.
  - intros [= <-]. destruct (Closed _); by eapply att_phase.
  - destruct (finishAttempt e b tid (aOp a) gen err (aReplace a) u) as [u1 c] eqn:Ef. intros [= <-].
    eapply finishAttempt_att; [done..| |exact Ef]. by repeat case_match.
  - intros [= <-]. destruct (Runtime _) as [k|]; [destruct (binder k)|]; by eapply att_phase.
  - intros [= <-]. destruct (dropControl_fields tid (driver u)) as (_ & _ & _ & _ & D5 & _ & D7 & D8 & _ & _).
    unfold endAttempt. destruct (aTask a);
      (eapply att_exit; [done|exact Hold|done|by split_and!|intros _; unfold attends; cbn; by destruct (observed (driver u))]).
Qed.

Lemma cancelRetry_att b u tid k ph ph' :
  Att b u -> threads u !! tid = Some (TOp k ph) -> ph' <> PCancel -> Att b (goto tid (TOp k ph') (cancelRetry u)).
Proof.
  intros [H1 H2] Hold Hph. destruct (cancelRetry_fields u) as (Hc & _ & _ & _ & Ht & _).
  unfold core in Hc. assert (Hob : observed (driver (cancelRetry u)) = observed (driver u)) by congruence.
  assert (Hop : activeOperation (driver (cancelRetry u)) = activeOperation (driver u)) by congruence. clear Hc.
  split; intros Hb; cbn [driver threads goto set_threads]; rewrite Ht.
  - intros Hbusy. rewrite Hob in Hbusy. destruct (H1 Hb Hbusy) as (t & th & Hth & Hat).
    destruct (decide (observed (driver u) = ObservedBackoff)) as [E|E].
    + exists tid, (TOp k ph'). rewrite lookup_insert_eq. split; [done|]. unfold attends. rewrite Hob, E. by destruct ph'.
    + assert (Hne : t <> tid).
      { intros ->. rewrite Hold in Hth. injection Hth as <-. revert Hat. unfold attends. by destruct (observed (driver u)). }
      exists t, th. rewrite lookup_insert_ne by done. split; [done|]. revert Hat. unfold attends, curb. rewrite Hob, Hop.
      by destruct (observed (driver u)).
  - intros t th. rewrite lookup_insert_Some. unfold curb. rewrite Hop. intros [[<- <-]|[Hne Hth]]; [done|]. by apply (H2 Hb t).
Qed.

Lemma stepOp_att n e b tid k ph u u' :
  few n -> UInv n u -> Att b u -> threads u !! tid = Some (TOp k ph) -> stepOp e b tid k ph u = Some u' -> Att b u'.
Proof.
  intros Hn Hi Ha Hold. destruct ph; cbn [stepOp].
  - intros [= <-]. eapply cancelRetry_att; [done|exact Hold|]. by destruct k as [| |[]].
  - intros [= <-]. destruct (control_fields (activeAttempt (driver u)) u) as (F1 & F2 & _). unfold cancelAttempt.
    eapply att_goto; [done|exact Hold|cbn; by rewrite F2|cbn; by rewrite F1|done|done].
  - unfold lockOp. destruct (opMu _); [done|]. intros [= <-]. by eapply att_goto.
  - intros [= <-]. by eapply cancelRetry_att.
  - intros [= <-]. destruct k as [async| |sh].
    + by eapply startSection_att.
    + by eapply replaceSection_att.
    + by eapply stopSection_att.
Qed.

Lemma retrySection_att n e b tid op token u :
  UInv n u -> Att b u -> threads u !! tid = Some (TRetrySection op token) -> Att b (retrySection e b tid op token u).
Proof.
  intros Hi Ha Hold. unfold retrySection. branch E.
  - eapply att_exit; [done|exact Hold|done|by split_and!|]. intros ->. apply not_true_iff_false. intros Hat.
    assert (Hob : observed (driver u) = ObservedBackoff) by (revert Hat; unfold attends; by destruct (observed (driver u))).
    destruct (backoff_facts n u Hi Hob) as (_ & Hde & Hq & _). unfold attends, retrying in Hat. rewrite Hob in Hat. cbn in Hat.
    rewrite orb_false_r in Hat. apply andb_true_iff in Hat as [H1 H2]. apply Z.eqb_eq in H1 as ->. apply Z.eqb_eq in H2 as ->.
    by rewrite !Z.eqb_refl, Hde, Hob, Hq in E.
  - repeat (apply orb_false_iff in E as [E ?]). bool_facts.
    destruct (beginRetry_fields (eNow e) (driver u)) as (_ & _ & _ & _ & F5 & _ & F7 & _). revert F5 F7. cbv zeta.
    generalize (beginRetry (eNow e) (driver u)) as d'. intros.
    eapply (att_move n _ u _ tid); [done|done|done|done|by left|]. intros _ _. unfold attends, curb. cbn.
    rewrite F5, F7. by apply Z.eqb_eq.
Qed.

Lemma stepRun_att n e b tid th u u' :
  few n -> UInv n u -> Tok u -> Att b u -> threads u !! tid = Some th -> stepRun e b tid th u = Some u' -> Att b u'.
Proof.
  intros Hn Hi Htk Ha Hold. destruct th as [k ph|op r|a ph|r|r cov|r err|r|op tok dl|op tok|op tok]; cbn [stepRun]; try done.
  - by apply (stepOp_att n).
  - intros [= <-]. destruct b; [eapply att_exit; [done|exact Hold|done..]|]. by eapply att_goto.
  - by apply (stepAttempt_att n).
  - intros [= <-]. by eapply att_goto.
  - intros [= <-]. unfold stopFinish. destruct (endStop_fields e err (driver u)) as (_ & _ & _ & F1 & _ & _ & _ & F2 & _).
    revert F1 F2. cbv zeta. generalize (endStop e err (driver u)) as d'. intros.
    eapply (att_move n _ u _ tid); [done|done|done|done|by right; left|]. intros _. cbn. by destruct F2 as [-> | ->].
  - intros [= <-]. destruct (Closed _);
      (eapply att_exit; [done|exact Hold|done|done|intros _; unfold attends; by destruct (observed (driver u))]).
  - unfold lockOp. destruct (opMu _); [done|]. intros [= <-]. by eapply att_goto.
  - intros [= <-]. by apply (retrySection_att n).
Qed.

Lemma ReportFailure_att n e b c f u : few n -> UInv n u -> Att b u -> Att b (ReportFailure e b c f u).
Proof.
  intros Hn Hi Ha. unfold ReportFailure. branch E; [by destruct Ha|].
  repeat (apply orb_false_iff in E as [E ?]). subst b. bool_facts.
  pose proof (incr64_small n _ (di_seq _ _ (inv_d _ _ _ Hi)) Hn) as Hinc.
  set (d1 := resetRetryLocked (set_needsReplace true (nextOperationLocked (driver u)))).
  assert (F : activeOperation d1 = incr64 (operationSeq (driver u))) by done.
  clearbody d1. rewrite Hinc in F. destruct (fence_fields (set_driver d1 u)) as (E1 & E2 & E3 & _).
  branch E0.
  - unfold scheduleRetryLocked. cbn [driver emit set_trace]. rewrite E1. cbn [driver set_driver].
    destruct (beginBackoff e true (FDetail f) d1) as [d delay] eqn:Eb.
    destruct (beginBackoff_settled e true (FDetail f) d1) as (_ & Hob & _ & Hop & _ & _). rewrite Eb in Hob, Hop. cbn in Hob, Hop.
    eapply (att_move n _ u _ (nextTid u)); [done|done|cbn; by rewrite E2, E3|done|cbn; lia|].
    intros _ _. unfold attends, retrying. cbn. by rewrite Hob, Hop, !Z.eqb_refl.
  - split; intros _; cbn; [done|]. rewrite E2. eapply (stale_kept n false u); [done|done|done| |by right; left].
    by cbn.
Qed.

Lemma ustep_att n b l u u' : few n -> UInv n u -> Tok u -> Att b u -> ustep b l u = Some u' -> Att b u'.
Proof.
  intros Hn Hi Htk Ha. destruct l as [k|tid e|tid gen err|tid err|tid err|tid due|e c eff r|e c f|h]; cbn [ustep].
  - intros [= <-]. destruct Ha as [H1 H2]. split; intros Hb; cbn.
    + intros Hbusy. destruct (H1 Hb Hbusy) as (t & th & Hth & Hat). exists t, th. split; [|done].
      rewrite lookup_insert_ne; [done|]. pose proof (tk_tids _ Htk _ _ Hth). lia.
    + intros t th. rewrite lookup_insert_Some. intros [[<- <-]|[Hne Hth]]; [done|]. by apply (H2 Hb t).
  - destruct (threads u !! tid) as [th|] eqn:Hold; cbn; [|done]. by apply (stepRun_att n).
  - destruct (threads u !! tid) as [[| |a []| | | | | | |]|] eqn:Hold; try done. intros [= <-].
    destruct (bool_decide _); by eapply att_phase.
  - destruct (threads u !! tid) as [[| |a []| | | | | | |]|] eqn:Hold; try done. intros [= <-]. by eapply att_phase.
  - destruct (threads u !! tid) as [[| |a []| |r covers| | | | |]|] eqn:Hold; try done; intros [= <-]; unfold stopReturned.
    + destruct (releases err); (eapply att_phase; [done|exact Hold|done|done|done|]; intros Hb Hst;
        pose proof (at_stale _ _ Ha Hb _ _ Hold) as Hx; destruct held; [done|by apply Hx]).
    + destruct (releases err); by eapply att_goto.
  - destruct (threads u !! tid) as [[| | | | | | |op token delay| |]|] eqn:Hold; try done.
    destruct due; [intros [= <-]; by eapply att_goto|].
    destruct (_ || _) eqn:E; [|done]. intros [= <-]. eapply att_exit; [done|exact Hold|done|done|]. intros ->. cbn in E.
    apply bool_decide_eq_true in E. apply not_true_iff_false. intros Hat. unfold attends in Hat.
    destruct (observed (driver u)); try done. cbn in Hat. rewrite orb_false_r in Hat. unfold retrying in Hat. cbn in Hat.
    apply andb_true_iff in Hat as [_ Hat]. apply Z.eqb_eq in Hat. by apply (tk_live _ Htk tid _ op token Hold eq_refl Hat).
  - intros [= <-]. unfold ReportDegradedCorrelated. branch E; [by destruct Ha|].
    repeat (apply orb_false_iff in E as [E ?]). subst b. destruct Ha as [H7 H8]. split; intros _; cbn; [done|]. by apply H8.
  - intros [= <-]. by apply (ReportFailure_att n).
  - intros [= <-]. unfold BindHooks. destruct (hooksBound _); [done|]. by destruct Ha.
Qed.

Lemma reachable_att now c n b u : reachable now c n b u -> few n -> Tok u /\ Att b u.
Proof.
  intros Hr Hn. induction Hr as [|n b u Hr IH|n b l u u' Hr IH Hs].
  - split; split; try done; cbn; try set_solver. intros _. unfold Attended. cbn. by destruct (Enabled c).
  - destruct (IH Hn) as [Htk _]. by split.
  - assert (Hn' : few n) by (unfold few in *; lia). destruct (IH Hn') as [Htk Ha].
    pose proof (driver_reachable_inv _ _ _ _ _ Hr Hn') as Hi. split; [by eapply ustep_tok|by eapply ustep_att].
Qed.
End DriverLive.
