(* ===== verification/DriverOpen.v ===== *)
(** * Which constructions are open

    [opened] holds the constructions that succeeded and that no stop called
    after them has released, with nil or with the drain timeout.  A driver
    that rests stopped has none left behind, and a driver that serves has
    one. *)

From S2P Require Import Prelude Float64 DriverManager DriverCaps DriverInv DriverLive.

Local Open Scope Z_scope.

Module DriverOpen.
Import DriverManager DriverCaps DriverInv DriverLive.

(** ** The invariant *)

(** A thread that will close its own construction or quarantine the driver. *)
Definition resp (th : thread) : bool :=
  match th with
  | TAttempt _ (ABuilt _ None) | TAttempt _ (ARetire _ _) | TAttempt _ (ARetiring _ _ _) => true
  | TAttempt _ (ARetired _ _ err) => negb (releases err)
  | _ => false
  end.
Definition Ok (d : managedDriver) (ths : gmap nat thread) (open covers : gset nat) : Prop :=
  forall t, t ∈ open -> t ∈ covers \/ (exists th, ths !! t = Some th /\ resp th = true) \/ quarantined d = true.

(** What a thread may rely on: the runtime it calls, its own construction. *)
Definition built (th : thread) : bool :=
  match th with
  | TAttempt _ (ABuilt _ None) | TAttempt _ (AHooks _ _) | TAttempt _ (AHold _ _) | TAttempt _ (AHeld _ _)
  | TAttempt _ (AFinish _ None) => true
  | _ => false
  end.
Definition OThread (d : managedDriver) (open : gset nat) (t : nat) (th : thread) : Prop :=
  (built th = true -> curb d th = true -> t ∈ open) /\
  match th with
  | TAttempt _ ACall | TAttempt _ ABuild => is_Some (Runtime (cfg d))
  | TAttempt _ (ARetiring _ _ covers) => t ∈ open -> t ∈ covers
  | TAttempt _ (ARetired _ _ err) => releases err = true -> t ∉ open
  | _ => True
  end.
(** What a stop knows about the constructions it does not cover. *)
Definition OStop (d : managedDriver) (ths : gmap nat thread) (open : gset nat) (th : thread) : Prop :=
  match th with
  | TStopping _ covers => Ok d ths open covers
  | TStopRet _ err => releases err = true -> Ok d ths open ∅
  | _ => True
  end.

Definition rests (o : ObservedState) : bool :=
  match o with ObservedStopped | ObservedDisabled => true | _ => false end.

Record Opn (d : managedDriver) (ths : gmap nat thread) (open : gset nat) : Prop := {
  op_runtime : Runtime (cfg d) = None -> open = ∅;
  op_thread : forall t th, ths !! t = Some th -> OThread d open t th;
  op_stop : forall t th, ths !! t = Some th -> OStop d ths open th;
  op_rest : rests (observed d) = true -> Ok d ths open ∅;
  op_serve : stable (observed d) = true -> open <> ∅
}.

(** ** Moving on *)

Definition opStep (d d' : managedDriver) : Prop :=
  activeOperation d' = activeOperation d \/ activeOperation d' = 0 \/ operationSeq d < activeOperation d'.
Lemma curb_back d d' t th : opStep d d' -> TInv d t th -> curb d' th = true -> curb d th = true.
Proof.
  intros Hop Htv Hc. destruct Hop as [E|Hop]; [unfold curb in *; by rewrite <- E|].
  rewrite (curb_fresh d d' t th) in Hc; [done|done|lia].
Qed.

Lemma ok_goto d d' ths tid old th open covers :
  Ok d ths open covers -> ths !! tid = Some old -> (quarantined d = true -> quarantined d' = true) ->
  (resp old = true -> tid ∈ open -> resp th = true \/ quarantined d' = true) ->
  Ok d' (<[tid := th]> ths) open covers.
Proof.
  intros Hok Hold Hq Hr t Ht. destruct (Hok t Ht) as [Hc|[(th' & Hth & Hre)|Hqu]]; [auto| |auto].
  destruct (decide (t = tid)) as [->|Hne].
  - rewrite Hold in Hth. injection Hth as <-. destruct (Hr Hre Ht) as [H|H]; [|auto]. right; left.
    exists th. by rewrite lookup_insert_eq.
  - right; left. exists th'. by rewrite lookup_insert_ne by done.
Qed.
Lemma ok_exit d d' ths tid old open covers :
  Ok d ths open covers -> ths !! tid = Some old -> (quarantined d = true -> quarantined d' = true) -> resp old = false ->
  Ok d' (delete tid ths) open covers.
Proof.
  intros Hok Hold Hq Hr t Ht. destruct (Hok t Ht) as [Hc|[(th' & Hth & Hre)|Hqu]]; [auto| |auto].
  right; left. exists th'. split; [|done]. apply lookup_delete_Some. split; [|done]. intros <-. congruence.
Qed.
Lemma othread_back d d' open t th :
  OThread d open t th -> opStep d d' -> cfg d' = cfg d -> TInv d t th -> OThread d' open t th.
Proof.
  intros [H1 H2] Hop Hc Htv. split; [|by rewrite Hc]. intros Hb Hcu. apply H1; [done|]. by eapply curb_back.
Qed.

(** A thread goes on and the driver changes. *)
Lemma opn_goto n d d' ths tid old th open :
  Inv n d ths -> Opn d ths open -> ths !! tid = Some old ->
  opStep d d' -> cfg d' = cfg d -> (quarantined d = true -> quarantined d' = true) ->
  (resp old = true -> tid ∈ open -> resp th = true \/ quarantined d' = true) ->
  (rests (observed d') = true -> rests (observed d) = true \/ quarantined d' = true \/ Ok d ths open ∅) ->
  (stable (observed d') = true -> stable (observed d) = true \/ open <> ∅) ->
  OThread d' open tid th -> OStop d' (<[tid := th]> ths) open th ->
  Opn d' (<[tid := th]> ths) open.
Proof.
  intros Hi [H1 H2 H3 H4 H5] Hold Hop Hc Hq Hr Hre Hst Ht Hs. split.
  - by rewrite Hc.
  - intros t th'. rewrite lookup_insert_Some. intros [[<- <-]|[Hne Hth]]; [done|].
    eapply othread_back; [by apply H2|done..|by apply (inv_t _ _ _ Hi)].
  - intros t th'. rewrite lookup_insert_Some. intros [[<- <-]|[Hne Hth]]; [done|]. specialize (H3 t th' Hth).
    destruct th'; try done; cbn in *; [|intros Hcl; specialize (H3 Hcl)]; by eapply ok_goto.
  - intros Hx. destruct (Hre Hx) as [Hy|[Hy|Hy]].
    + eapply ok_goto; [by apply H4|done..].
    + intros t _. auto.
    + by eapply ok_goto.
  - intros Hx. destruct (Hst Hx); auto.
Qed.
Lemma opn_exit n d d' ths tid old open :
  Inv n d ths -> Opn d ths open -> ths !! tid = Some old -> resp old = false ->
  opStep d d' -> cfg d' = cfg d -> quarantined d' = quarantined d -> observed d' = observed d ->
  Opn d' (delete tid ths) open.
Proof.
  intros Hi [H1 H2 H3 H4 H5] Hold Hr Hop Hc Hq Ho. assert (Hq' : quarantined d = true -> quarantined d' = true) by congruence.
  split; rewrite ?Hc, ?Ho; try done.
  - intros t th' Hth. apply lookup_delete_Some in Hth as [_ Hth]. eapply othread_back; [by apply H2|done..|by apply (inv_t _ _ _ Hi)].
  - intros t th' Hth. apply lookup_delete_Some in Hth as [_ Hth]. specialize (H3 t th' Hth).
    destruct th'; try done; cbn in *; [|intros Hcl; specialize (H3 Hcl)]; by eapply ok_exit.
  - intros Hx. eapply ok_exit; [by apply H4|done..].
Qed.
(** A new thread without a construction. *)
Lemma opn_spawn d ths tid th open :
  Opn d ths open -> ths !! tid = None -> (forall d o, OThread d o tid th) -> (forall d ths o, OStop d ths o th) ->
  Opn d (<[tid := th]> ths) open.
Proof.
  intros [H1 H2 H3 H4 H5] Hn Ht Hs. assert (Hok : forall c, Ok d ths open c -> Ok d (<[tid := th]> ths) open c).
  { intros c Hok t Hin. destruct (Hok t Hin) as [?|[(th' & Hth & ?)|?]]; auto. right; left. exists th'.
    rewrite lookup_insert_ne; [done|]. intros ->. congruence. }
  split; auto.
  - intros t th'. rewrite lookup_insert_Some. intros [[<- <-]|[_ Hth]]; auto.
  - intros t th'. rewrite lookup_insert_Some. intros [[<- <-]|[_ Hth]]; [done|]. specialize (H3 t th' Hth).
    destruct th'; try done; cbn in *; auto.
Qed.

(** ** Steps *)

Definition UOpn (u : unit_) : Prop := Opn (driver u) (threads u) (opened u).

(** Threads that hold nothing. *)
Definition plain (th : thread) : bool :=
  match th with
  | TAttempt _ ph => match ph with AEnter | AReport _ | AClosed _ | ABind _ | ADone => true | _ => false end
  | TStopping _ _ | TStopRet _ _ => false
  | _ => true
  end.
Lemma plain_trivial d ths open t th :
  plain th = true -> OThread d open t th /\ OStop d ths open th /\ resp th = false.
Proof. by destruct th as [| |a []| | | | | | |]. Qed.

Lemma opn_plain n u u' tid old th :
  UInv n u -> UOpn u -> threads u !! tid = Some old ->
  threads u' = <[tid := th]> (threads u) -> plain th = true -> opened u' = opened u ->
  opStep (driver u) (driver u') -> cfg (driver u') = cfg (driver u) ->
  (quarantined (driver u) = true -> quarantined (driver u') = true) ->
  (resp old = true -> tid ∈ opened u -> quarantined (driver u') = true) ->
  (rests (observed (driver u')) = true ->
    rests (observed (driver u)) = true \/ quarantined (driver u') = true \/ Ok (driver u) (threads u) (opened u) ∅) ->
  (stable (observed (driver u')) = true -> stable (observed (driver u)) = true \/ opened u <> ∅) -> UOpn u'.
Proof.
  intros Hi Ho Hold Ht Hp Hop Hs Hc Hq Hr Hre Hst. unfold UOpn. rewrite Ht, Hop.
  destruct (plain_trivial (driver u') (<[tid := th]> (threads u)) (opened u) tid th Hp) as (P1 & P2 & _).
  eapply opn_goto; [exact Hi|exact Ho|exact Hold|done..| |done|done|done|done]. intros H1 H2. right. auto.
Qed.
Lemma opn_quiet n u u' tid old th :
  UInv n u -> UOpn u -> threads u !! tid = Some old -> threads u' = <[tid := th]> (threads u) -> opened u' = opened u ->
  driver u' = driver u -> (resp old = true -> tid ∈ opened u -> resp th = true) ->
  OThread (driver u) (opened u) tid th -> OStop (driver u) (<[tid := th]> (threads u)) (opened u) th -> UOpn u'.
Proof.
  intros Hi Ho Hold Ht Hop Hd Hr Hth Hs. unfold UOpn. rewrite Ht, Hop, Hd.
  eapply opn_goto; [exact Hi|exact Ho|exact Hold|by left|done|done| | | |done|done]; auto.
Qed.

Lemma op_refused_opn n u tid k r :
  UInv n u -> UOpn u -> threads u !! tid = Some (TOp k PSection) -> UOpn (return_ tid r (unlockOp u)).
Proof. intros Hi Ho Hold. eapply opn_exit; [exact Hi|exact Ho|exact Hold|done|by left|done|done|done]. Qed.

Lemma begun_opStep n d d' o r : few n -> DInv n d -> begun o r d d' -> opStep d d'.
Proof.
  intros Hn Hd (_ & _ & _ & _ & _ & _ & _ & Ha & _). rewrite (incr64_small n _ (di_seq _ _ Hd) Hn) in Ha. right; right. lia.
Qed.

Lemma startSection_opn n e b tid async u :
  few n -> UInv n u -> UOpn u -> threads u !! tid = Some (TOp (KStart async) PSection) -> UOpn (startSection e b tid async u).
Proof.
  intros Hn Hi Ho Hold. unfold startSection. do 7 (branch E; [by eapply op_refused_opn|clear E]).
  pose proof (beginStart_begun (eNow e) (driver u)) as Hb. revert Hb. generalize (beginStart (eNow e) (driver u)) as d'.
  intros d' Hb. pose proof (begun_opStep n _ _ _ _ Hn (inv_d _ _ _ Hi) Hb) as Hs.
  destruct Hb as (Hc & _ & _ & Hob & _ & Hq & _).
  eapply opn_plain; [exact Hi|exact Ho|exact Hold|done|by destruct async|done|exact Hs|done|cbn; congruence|done| |]; cbn; by rewrite Hob.
Qed.
Lemma replaceSection_opn n e b tid u :
  few n -> UInv n u -> UOpn u -> threads u !! tid = Some (TOp KReplace PSection) -> UOpn (replaceSection e b tid u).
Proof.
  intros Hn Hi Ho Hold. unfold replaceSection. do 4 (branch E; [by eapply op_refused_opn|clear E]).
  pose proof (beginReplace_begun (eNow e) (driver u)) as Hb. revert Hb. generalize (beginReplace (eNow e) (driver u)) as d'.
  intros d' Hb. pose proof (begun_opStep n _ _ _ _ Hn (inv_d _ _ _ Hi) Hb) as Hs.
  destruct Hb as (Hc & _ & _ & Hob & _ & Hq & _). destruct (fence_fields (set_driver d' u)) as (F1 & F2 & _ & F4 & _).
  eapply opn_plain; [exact Hi|exact Ho|exact Hold|cbn; by rewrite F2|done|done|..]; cbn; rewrite ?F1; cbn; rewrite ?Hob; try done.
  congruence.
Qed.
Lemma stopSection_opn n e tid k u :
  few n -> UInv n u -> UOpn u -> threads u !! tid = Some (TOp (KStop k) PSection) -> UOpn (stopSection e tid u).
Proof.
  intros Hn Hi Ho Hold. unfold stopSection. branch E1; [|branch E2].
  - destruct (stopQuarantined_fields (eNow e) (driver u)) as (G0 & _ & _ & G1 & _ & G2 & _).
    assert (Hq : quarantined (stopQuarantined (eNow e) (driver u)) = true).
    { unfold stopQuarantined. by destruct (bool_decide _). }
    destruct (rest_fields n (driver u) (inv_d _ _ _ Hi)) as (_ & _ & Hst); [auto|]. revert G0 G1 G2 Hq. cbv zeta.
    generalize (stopQuarantined (eNow e) (driver u)) as d'. intros.
    destruct (control_fields (activeAttempt (driver u)) (set_driver d' u)) as (F1 & F2 & _ & F4 & _).
    eapply opn_plain; [exact Hi|exact Ho|exact Hold|cbn; by rewrite F2|done|cbn; by rewrite F4|..]; cbn; rewrite ?F1; cbn; auto; try done.
    + by left.
    + destruct G2 as [[-> _] | ->]; [|done]. by destruct (observed (driver u)).
  - destruct (control_fields (activeAttempt (driver u)) (set_driver (set_desired DesiredStopped (driver u)) u)) as (F1 & F2 & _ & F4 & _).
    eapply opn_plain; [exact Hi|exact Ho|exact Hold|cbn; by rewrite F2|done|cbn; by rewrite F4|..]; cbn; rewrite ?F1; cbn; auto; try done.
    by left.
  - pose proof (beginStop_begun (eNow e) (driver u)) as Hb. revert Hb. generalize (beginStop (eNow e) (driver u)) as d'.
    intros d' Hb. pose proof (begun_opStep n _ _ _ _ Hn (inv_d _ _ _ Hi) Hb) as Hs.
    destruct Hb as (Hc & _ & _ & Hob & _ & Hq & _). destruct (fence_fields (set_driver d' u)) as (G1 & G2 & _ & G4 & _).
    destruct (control_fields (activeAttempt (driver u)) (fenceWithdrawalLocked (set_driver d' u))) as (F1 & F2 & _ & F4 & _).
    unfold UOpn. cbn [driver threads opened goto set_threads]. rewrite F1, F2, F4, G1, G2, G4. cbn [driver threads opened set_driver].
    eapply opn_goto; [exact Hi|exact Ho|exact Hold|exact Hs|done|congruence|done| | | |]; rewrite ?Hob; try done.
    + destruct (Runtime (cfg (driver u))); by split.
    + destruct (Runtime (cfg (driver u))) eqn:Er; [done|]. cbn. intros _ t Hin. rewrite (op_runtime _ _ _ Ho Er) in Hin. set_solver.
Qed.

Lemma finishAttempt_opn n e b tid a ph ph' gen err replace u u' c :
  few n -> UInv n u -> Tok u -> UOpn u -> threads u !! tid = Some (TAttempt a ph) -> holdingPhase ph = true ->
  latePhase ph' = true -> (resp (TAttempt a ph) = true -> tid ∉ opened u) -> (err = None -> built (TAttempt a ph) = true) ->
  finishAttempt e b tid (aOp a) gen err replace u = (u', c) -> UOpn (goto tid (TAttempt a ph') u').
Proof.
  intros Hn Hi Htk Ho Hold Hh Hl Hr Hbu Hfin. assert (Hp : plain (TAttempt a ph') = true) by (by destruct ph').
  destruct (current_holder n _ _ tid a ph Hi Hold Hh) as (_ & _ & Hop & Hc).
  destruct (dropControl_fields tid (driver u)) as (D1 & _ & D3 & D4 & D5 & D6 & D7 & D8 & _ & _).
  destruct (finishAttempt_cases _ _ _ _ _ _ _ _ _ _ Hfin) as [[_ ->]|(-> & Hao & Hde & Hf)].
  { eapply opn_plain; [exact Hi|exact Ho|exact Hold|done|done|done|by left|..]; cbn; rewrite ?D1, ?D5, ?D6; auto. by intros ?%Hr. }
  destruct (Hc Hao) as [Hcur (_ & _ & Hq)].
  destruct Hf as [tr Herr|Herr|r nr Herr|detail nr d delay Herr Hrc Hb].
  - eapply opn_plain; [exact Hi|exact Ho|exact Hold|done|done|done|by right; left|done| | | |]; cbn; try congruence.
    + by intros ?%Hr.
    + intros _. right. intros E. pose proof (proj1 (op_thread _ _ _ Ho _ _ Hold) (Hbu Herr) Hcur) as Hin. rewrite E in Hin. set_solver.
  - eapply opn_plain; [exact Hi|exact Ho|exact Hold|done|done|done|by right; left|done|done| | |]; cbn; try done.
  - eapply opn_plain; [exact Hi|exact Ho|exact Hold|done|done|done|by right; left|done| | | |]; cbn; try done; [congruence|].
    by intros ?%Hr.
  - destruct (beginBackoff_settled e replace detail (set_needsReplace nr (dropControl tid (driver u)))) as ((S1 & _) & Hob & Hqb & Hop' & _ & _).
    rewrite Hb in S1, Hob, Hqb, Hop'. cbn in S1, Hob, Hqb, Hop'. pose proof (tk_tids _ Htk _ _ Hold) as Hlt.
    unfold UOpn. cbn [driver threads opened goto set_threads set_nextTid set_driver]. rewrite insert_insert_ne by lia.
    apply opn_spawn; [|rewrite lookup_insert_ne by lia; destruct (threads u !! nextTid u) eqn:E; [|done]|done|done].
    + destruct (plain_trivial (set_retryCancel (Some (nextTid u)) d) (<[tid := TAttempt a ph']> (threads u)) (opened u) tid _ Hp) as (P1 & P2 & _).
      eapply opn_goto; [exact Hi|exact Ho|exact Hold|left; cbn; congruence|cbn; congruence|cbn; congruence| | | |exact P1|exact P2];
        cbn; rewrite ?Hob; try done. by intros ?%Hr.
    + pose proof (tk_tids _ Htk _ _ E). lia.
Qed.

Lemma retireSection_opn n e b tid a held gen err u :
  few n -> UInv n u -> Tok u -> UOpn u -> threads u !! tid = Some (TAttempt a (ARetired held gen err)) ->
  UOpn (retireSection e b tid a held gen err u).
Proof.
  intros Hn Hi Htk Ho Hold. unfold retireSection. pose proof (op_thread _ _ _ Ho _ _ Hold) as [_ Hcl]. cbn in Hcl.
  destruct (dropControl_fields tid (driver u)) as (D1 & _ & D3 & D4 & D5 & D6 & D7 & D8 & _ & _).
  assert (Hgone : releases err = true -> resp (TAttempt a (ARetired held gen err)) = true -> tid ∈ opened u -> False).
  { cbn. intros E. by rewrite E. }
  destruct held as [x|].
  - branch E.
    + eapply opn_plain; [exact Hi|exact Ho|exact Hold|done|done|done|by right; left|by cbn; rewrite D1|done..].
    + destruct (finishAttempt e b tid (aOp a) 0 (Some x) false u) as [u1 c] eqn:Ef.
      eapply finishAttempt_opn; [done|exact Hi|done|exact Ho|exact Hold|done|done| | |exact Ef]; [|done].
      cbn. apply negb_false_iff in E. destruct err as [y|]; cbn; [|done]. intros Hst. apply negb_true_iff in Hst.
      revert E. unfold ClassifyClose. destruct (runtimeQuarantined _ _); [done|]. rewrite Hst. by destruct (isSafetyQuarantined y).
  - branch E.
    + eapply opn_plain; [exact Hi|exact Ho|exact Hold|done|done|done|by right; left|done..].
    + apply orb_false_iff in E as [E _]. destruct err as [y|]; [done|].
      eapply opn_plain; [exact Hi|exact Ho|exact Hold|done|done|done|by left|done|done|done|..]; auto.
Qed.

Lemma supersededCheck_opn n b tid a gen err u :
  UInv n u -> UOpn u -> threads u !! tid = Some (TAttempt a (ABuilt gen err)) -> UOpn (supersededCheck b tid a gen err u).
Proof.
  intros Hi Ho Hold. unfold supersededCheck. pose proof (inv_t _ _ _ Hi _ _ Hold) as Htv.
  pose proof (op_thread _ _ _ Ho _ _ Hold) as [Hbu _].
  destruct (b || negb (current a (driver u))) eqn:Es; cbn [andb].
  - destruct err as [x|]; cbn [bool_decide].
    + eapply opn_quiet; [exact Hi|exact Ho|exact Hold|done|done|done|done| |]; by repeat case_match.
    + rewrite bool_decide_eq_true_2 by done. cbn [orb]. by eapply opn_quiet.
  - destruct err as [x|].
    + rewrite bool_decide_eq_false_2 by done. by eapply opn_quiet.
    + rewrite bool_decide_eq_true_2 by done. cbn [orb andb negb].
      apply orb_false_iff in Es as [_ Es]. apply negb_false_iff in Es. unfold current in Es. apply andb_true_iff in Es as [Ea Ed].
      apply Z.eqb_eq in Ea. apply bool_decide_eq_true in Ed. destruct (Htv eq_refl) as (_ & _ & Hcur).
      destruct (Hcur (eq_sym Ea)) as (_ & Hob & _). destruct Ho as [H1 H2 H3 H4 H5]. split; cbn; try done.
      * intros t th. rewrite lookup_insert_Some. intros [[<- <-]|[_ Hth]]; [|by apply H2]. split; [|done]. intros _ Hc. by apply Hbu.
      * intros t th. rewrite lookup_insert_Some. intros [[<- <-]|[_ Hth]]; [done|]. pose proof (inv_t _ _ _ Hi _ _ Hth) as Htv'.
        destruct th; try done; cbn in Htv'; destruct Htv' as (_ & ? & _); congruence.
      * destruct Hob as [-> | ->]; done.
Qed.

Lemma stepAttempt_opn n e b tid a ph u u' :
  few n -> UInv n u -> Tok u -> UOpn u -> threads u !! tid = Some (TAttempt a ph) -> stepAttempt e b tid a ph u = Some u' ->
  UOpn u'.
Proof.
  intros Hn Hi Htk Ho Hold. pose proof (op_thread _ _ _ Ho _ _ Hold) as [Hbu Hex]. 
  destruct (dropControl_fields tid (driver u)) as (D1 & _ & D3 & D4 & D5 & D6 & D7 & D8 & _ & _).
  destruct ph; cbn [stepAttempt]; try done.
  - intros [= <-]. unfold enterAttempt, endAttempt. branch E.
    + destruct (aTask a); (eapply opn_exit; [exact Hi|exact Ho|exact Hold|done|by left|done|done|done]).
    + cbn. destruct (Runtime (cfg (driver u))) eqn:Er;
        (eapply opn_goto; [exact Hi|exact Ho|exact Hold|by left|done|done|done|by left|by left| |done]); split; try done; cbn; by rewrite Er.
  - intros [= <-]. by eapply opn_quiet.
  - intros [= <-]. by eapply supersededCheck_opn.
  - intros [= <-]. destruct (HoldAdmission _); by eapply opn_quiet.
  - intros [= <-]. unfold heldCheck. eapply opn_quiet; [exact Hi|exact Ho|exact Hold|done|done|done|done| |]; by repeat case_match.
  - intros [= <-]. by eapply opn_quiet.
  - intros [= <-]. by eapply retireSection_opn.
  - intros [= <-]. by eapply opn_quiet.
  - intros [= <-]. destruct (Closed _); by eapply opn_quiet.
  - destruct (finishAttempt e b tid (aOp a) gen err (aReplace a) u) as [u1 c] eqn:Ef. intros [= <-].
    eapply finishAttempt_opn; [done|exact Hi|done|exact Ho|exact Hold|done| |done| |exact Ef]; [by repeat case_match|by intros ->].
  - intros [= <-]. destruct (Runtime _) as [k|]; [destruct (binder k)|]; by eapply opn_quiet.
  - intros [= <-]. unfold endAttempt.
    destruct (aTask a); (eapply opn_exit; [exact Hi|exact Ho|exact Hold|done|by left|done|done|done]).
Qed.
(** ** The other threads *)

(** The driver changes under the threads. *)
Lemma ok_driver d d' ths open covers :
  Ok d ths open covers -> (quarantined d = true -> quarantined d' = true) -> Ok d' ths open covers.
Proof. intros Hok Hq t Ht. destruct (Hok t Ht) as [?|[?|?]]; auto. Qed.
Lemma opn_driver n d d' ths open :
  Inv n d ths -> Opn d ths open -> opStep d d' -> cfg d' = cfg d -> (quarantined d = true -> quarantined d' = true) ->
  (rests (observed d') = true -> rests (observed d) = true) -> (stable (observed d') = true -> stable (observed d) = true) ->
  Opn d' ths open.
Proof.
  intros Hi [H1 H2 H3 H4 H5] Hop Hc Hq Hr Hs. split.
  - by rewrite Hc.
  - intros t th Hth. eapply othread_back; [by apply H2|done..|by apply (inv_t _ _ _ Hi)].
  - intros t th Hth. specialize (H3 t th Hth). destruct th; try done; cbn in *; [|intros Hcl; specialize (H3 Hcl)]; by eapply ok_driver.
  - intros Hx. eapply ok_driver; [by apply H4, Hr|done].
  - auto.
Qed.

(** A stop that releases closes what it covers. *)
Lemma opn_closed n d ths tid old th open open' :
  Inv n d ths -> Opn d ths open -> ths !! tid = Some old -> open' ⊆ open -> stable (observed d) = false ->
  (forall t th', ths !! t = Some th' -> t <> tid -> built th' = true -> curb d th' = true -> False) ->
  (resp old = true -> tid ∈ open' -> resp th = true) -> OThread d open' tid th -> OStop d (<[tid := th]> ths) open' th ->
  Opn d (<[tid := th]> ths) open'.
Proof.
  intros Hi [H1 H2 H3 H4 H5] Hold Hsub Hst Hb Hr Ht Hs.
  assert (Hok : forall c, Ok d ths open c -> Ok d (<[tid := th]> ths) open' c).
  { intros c Hok. eapply ok_goto; [|exact Hold|done|auto]. intros t Hin. by apply Hok, Hsub. }
  split.
  - intros E. specialize (H1 E). set_solver.
  - intros t th'. rewrite lookup_insert_Some. intros [[<- <-]|[Hne Hth]]; [done|]. destruct (H2 t th' Hth) as [_ Hex].
    split; [intros B C; by destruct (Hb t th' Hth (not_eq_sym Hne) B C)|].
    destruct th' as [| |a []| | | | | | |]; try done; set_solver.
  - intros t th'. rewrite lookup_insert_Some. intros [[<- <-]|[Hne Hth]]; [done|]. specialize (H3 t th' Hth).
    destruct th'; try done; cbn in *; auto.
  - auto.
  - congruence.
Qed.
Lemma opn_built d ths tid a gen open :
  Opn d ths open -> ths !! tid = Some (TAttempt a ABuild) ->
  Opn d (<[tid := TAttempt a (ABuilt gen None)]> ths) ({[tid]} ∪ open).
Proof.
  intros [H1 H2 H3 H4 H5] Hold. pose proof (proj2 (H2 _ _ Hold)) as Hrt. cbn in Hrt.
  assert (Hok : forall c, Ok d ths open c -> Ok d (<[tid := TAttempt a (ABuilt gen None)]> ths) ({[tid]} ∪ open) c).
  { intros c Hok t Hin. destruct (decide (t = tid)) as [->|Hne].
    - right; left. exists (TAttempt a (ABuilt gen None)). by rewrite lookup_insert_eq.
    - rewrite lookup_insert_ne by done. apply Hok. set_solver. }
  split.
  - intros E. rewrite E in Hrt. by destruct Hrt.
  - intros t th'. rewrite lookup_insert_Some. intros [[<- <-]|[Hne Hth]].
    + split; [|done]. intros _ _. set_solver.
    + destruct (H2 t th' Hth) as [Hb Hex]. split; [intros B C; specialize (Hb B C); set_solver|].
      destruct th' as [| |a' []| | | | | | |]; try done; set_solver.
  - intros t th'. rewrite lookup_insert_Some. intros [[<- <-]|[Hne Hth]]; [done|]. specialize (H3 t th' Hth).
    destruct th'; try done; cbn in *; auto.
  - auto.
  - intros _. set_solver.
Qed.

Lemma cancelRetry_opn n tid old k ph u :
  UInv n u -> UOpn u -> threads u !! tid = Some old -> resp old = false -> UOpn (goto tid (TOp k ph) (cancelRetry u)).
Proof.
  intros Hi Ho Hold Hr. destruct (cancelRetry_fields u) as (Hc & Hcfg & _ & _ & Ht & _ & Hop & _). revert Hc Hcfg Ht Hop.
  cbv zeta. generalize (cancelRetry u) as u1. intros u1 Hc Hcfg Ht Hop. unfold core in Hc.
  assert (Hob : observed (driver u1) = observed (driver u)) by congruence.
  eapply opn_plain; [exact Hi|exact Ho|exact Hold|cbn; by rewrite Ht|done|done|left; cbn; congruence|done|cbn; congruence|congruence|..];
    cbn; rewrite Hob; auto.
Qed.
Lemma stepOp_opn n e b tid k ph u u' :
  few n -> UInv n u -> UOpn u -> threads u !! tid = Some (TOp k ph) -> stepOp e b tid k ph u = Some u' -> UOpn u'.
Proof.
  intros Hn Hi Ho Hold. destruct ph; cbn [stepOp].
  - intros [= <-]. by eapply cancelRetry_opn.
  - intros [= <-]. destruct (control_fields (activeAttempt (driver u)) u) as (F1 & F2 & _ & F4 & _). unfold cancelAttempt.
    eapply opn_quiet; [exact Hi|exact Ho|exact Hold|cbn; by rewrite F2|cbn; by rewrite F4|cbn; by rewrite F1|done..].
  - unfold lockOp. destruct (opMu _); [done|]. intros [= <-].
    eapply opn_plain; [exact Hi|exact Ho|exact Hold|done|done|done|by left|done|done|done|..]; auto.
  - intros [= <-]. by eapply cancelRetry_opn.
  - intros [= <-]. destruct k as [async| |sh].
    + by eapply startSection_opn.
    + by eapply replaceSection_opn.
    + by eapply stopSection_opn.
Qed.
Lemma retrySection_opn n e b tid op token u :
  UInv n u -> UOpn u -> threads u !! tid = Some (TRetrySection op token) -> UOpn (retrySection e b tid op token u).
Proof.
  intros Hi Ho Hold. unfold retrySection. branch E.
  - eapply opn_exit; [exact Hi|exact Ho|exact Hold|done|by left|done|done|done].
  - destruct (beginRetry_fields (eNow e) (driver u)) as (F0 & _ & _ & _ & F5 & F6 & F7 & _). revert F0 F5 F6 F7. cbv zeta.
    generalize (beginRetry (eNow e) (driver u)) as d'. intros.
    eapply opn_plain; [exact Hi|exact Ho|exact Hold|done|done|done|by left|done|cbn; congruence|done|..]; cbn; by rewrite F5.
Qed.

Lemma stepRun_opn n e b tid th u u' :
  few n -> UInv n u -> Tok u -> UOpn u -> threads u !! tid = Some th -> stepRun e b tid th u = Some u' -> UOpn u'.
Proof.
  intros Hn Hi Htk Ho Hold. destruct th as [k ph|op r|a ph|r|r cov|r err|r|op tok dl|op tok|op tok]; cbn [stepRun]; try done.
  - by apply (stepOp_opn n).
  - intros [= <-]. destruct b; [eapply opn_exit; [exact Hi|exact Ho|exact Hold|done|by left|done..]|]. by eapply opn_quiet.
  - by apply (stepAttempt_opn n).
  - intros [= <-]. eapply opn_quiet; [exact Hi|exact Ho|exact Hold|done..|]. intros t Ht. by left.
  - intros [= <-]. pose proof (op_stop _ _ _ Ho _ _ Hold) as Hcl. cbn in Hcl. unfold stopFinish.
    destruct (endStop_fields e err (driver u)) as (F0 & _ & _ & F1 & _ & _ & _ & F2 & F3 & F4). revert F0 F1 F2 F3 F4. cbv zeta.
    generalize (endStop e err (driver u)) as d'. intros.
    eapply opn_plain; [exact Hi|exact Ho|exact Hold|done|done|done|by right; left|done|done|done|..]; cbn.
    + destruct F2 as [E|E]; rewrite E; [|done]. intros _. right; right. by apply Hcl, F3.
    + by destruct F2 as [-> | ->].
  - intros [= <-]. destruct (Closed _); (eapply opn_exit; [exact Hi|exact Ho|exact Hold|done|by left|done..]).
  - unfold lockOp. destruct (opMu _); [done|]. intros [= <-].
    eapply opn_plain; [exact Hi|exact Ho|exact Hold|done|done|done|by left|done|done|done|..]; auto.
  - intros [= <-]. by apply (retrySection_opn n).
Qed.

Lemma ReportFailure_opn n e b c f u :
  few n -> UInv n u -> Tok u -> UOpn u -> UOpn (ReportFailure e b c f u).
Proof.
  intros Hn Hi Htk Ho. unfold ReportFailure. branch E; [done|].
  pose proof (incr64_small n _ (di_seq _ _ (inv_d _ _ _ Hi)) Hn) as Hinc.
  set (d1 := resetRetryLocked (set_needsReplace true (nextOperationLocked (driver u)))).
  assert (F : activeOperation d1 = incr64 (operationSeq (driver u)) /\ cfg d1 = cfg (driver u) /\ quarantined d1 = quarantined (driver u))
    by done.
  clearbody d1. rewrite Hinc in F. destruct F as (F1 & F2 & F3). destruct (fence_fields (set_driver d1 u)) as (E1 & E2 & E3 & E4 & _).
  branch E0.
  - unfold scheduleRetryLocked. cbn [driver emit set_trace]. rewrite E1. cbn [driver set_driver].
    destruct (beginBackoff e true (FDetail f) d1) as [d delay] eqn:Eb.
    destruct (beginBackoff_settled e true (FDetail f) d1) as ((S1 & _) & Hob & Hqb & Hop & _ & _).
    rewrite Eb in S1, Hob, Hqb, Hop. cbn in S1, Hob, Hqb, Hop.
    assert (Hd : Opn (set_retryCancel (Some (nextTid u)) d) (threads u) (opened u)).
    { eapply opn_driver; [exact Hi|exact Ho|right; right; cbn; lia|cbn; congruence|cbn; congruence|..]; cbn; by rewrite Hob. }
    destruct b.
    { unfold UOpn. cbn. rewrite E2, E4. eapply opn_driver; [exact Hi|exact Ho|right; right; cbn; lia|cbn; congruence|cbn; congruence|..]; cbn; by rewrite Hob. }
    unfold UOpn. cbn. rewrite E2, E3, E4. cbn. apply opn_spawn; [done| |done|done].
    destruct (threads u !! nextTid u) eqn:Et; [|done]. pose proof (tk_tids _ Htk _ _ Et). lia.
  - unfold UOpn. cbn. rewrite E2, E4. eapply opn_driver; [exact Hi|exact Ho|by right; left|done|cbn; congruence|done|done].
Qed.
(** What a call of [Runtime.Stop] finds around it. *)
Lemma stopping_alone n d ths tid r covers t th :
  Inv n d ths -> ths !! tid = Some (TStopping r covers) -> ths !! t = Some th -> built th = true -> curb d th = true -> False.
Proof.
  intros Hi Hold Hth Hb Hc. destruct (inv_t _ _ _ Hi _ _ Hold) as (_ & Hde & _). pose proof (inv_t _ _ _ Hi _ _ Hth) as Htv.
  destruct th as [| |a ph| | | | | | |]; try done.
  assert (Hcur : Cur d); [|destruct Hcur; congruence].
  destruct ph; try done; apply (Htv eq_refl); unfold curb in Hc; cbn in Hc; by apply Z.eqb_eq in Hc.
Qed.
Lemma holder_alone n d ths tid a ph t th :
  Inv n d ths -> ths !! tid = Some (TAttempt a ph) -> holdingPhase ph = true -> ths !! t = Some th -> t <> tid ->
  built th = true -> False.
Proof.
  intros Hi Hold Hh Hth Hne Hb. assert (H1 : activeAttempt d = Some tid).
  { pose proof (inv_t _ _ _ Hi _ _ Hold) as H. destruct ph; try done; apply (H eq_refl). }
  assert (H2 : activeAttempt d = Some t); [|congruence].
  pose proof (inv_t _ _ _ Hi _ _ Hth) as H. destruct th as [| |a' []| | | | | | |]; try done; apply (H eq_refl).
Qed.
Lemma ok_covered d ths open covers : Ok d ths open covers -> Ok d ths (open ∖ covers) ∅.
Proof. intros Hok t Ht. destruct (Hok t) as [?|?]; set_solver. Qed.

Lemma stop_returned_opn n tid r covers err u :
  UInv n u -> UOpn u -> threads u !! tid = Some (TStopping r covers) ->
  UOpn (goto tid (TStopRet r err) (stopReturned tid covers err u)).
Proof.
  intros Hi Ho Hold. pose proof (op_stop _ _ _ Ho _ _ Hold) as Hok. cbn in Hok. unfold stopReturned, UOpn.
  destruct (inv_t _ _ _ Hi _ _ Hold) as (_ & _ & Hst). destruct (releases err) eqn:Ec; cbn.
  - assert (stable (observed (driver u)) = false) as Hns.
    { destruct Hst as [-> |Hq]; [done|]. destruct (rest_fields n (driver u) (inv_d _ _ _ Hi)) as (_ & _ & ?); [auto|].
      by destruct (observed (driver u)). }
    eapply opn_closed; [exact Hi|exact Ho|exact Hold|set_solver|done| |done|done|].
    + intros t th Hth _. by eapply stopping_alone.
    + intros _. eapply ok_goto; [by apply ok_covered|exact Hold|done|done].
  - eapply opn_goto; [exact Hi|exact Ho|exact Hold|by left|done..|by left|by left|done|]. cbn. congruence.
Qed.
Lemma retired_opn n tid a held gen covers err u :
  UInv n u -> UOpn u -> threads u !! tid = Some (TAttempt a (ARetiring held gen covers)) ->
  UOpn (goto tid (TAttempt a (ARetired held gen err)) (stopReturned tid covers err u)).
Proof.
  intros Hi Ho Hold. pose proof (proj2 (op_thread _ _ _ Ho _ _ Hold)) as Hcov. cbn in Hcov. unfold stopReturned, UOpn.
  destruct (inv_t _ _ _ Hi _ _ Hold eq_refl) as (_ & Hat & _). destruct (releases err) eqn:Ec; cbn.
  - assert (stable (observed (driver u)) = false) as Hns.
    { pose proof (di_state _ _ (inv_d _ _ _ Hi)) as Hs. unfold SInv in Hs. rewrite Hat in Hs. destruct (observed (driver u)); try done; naive_solver. }
    eapply opn_closed; [exact Hi|exact Ho|exact Hold|set_solver|done| |set_solver| |done].
    + intros t th Hth Hne Hb _. by eapply holder_alone.
    + split; [done|]. cbn. set_solver.
  - eapply opn_goto; [exact Hi|exact Ho|exact Hold|by left|done|done| |by left|by left| |done].
    + cbn. rewrite Ec. auto.
    + split; [done|]. cbn. congruence.
Qed.

Lemma ustep_opn n b l u u' : few n -> UInv n u -> Tok u -> UOpn u -> ustep b l u = Some u' -> UOpn u'.
Proof.
  intros Hn Hi Htk Ho. destruct l as [k|tid e|tid gen err|tid err|tid err|tid due|e c eff r|e c f|h]; cbn [ustep].
  - intros [= <-]. unfold UOpn. cbn. apply opn_spawn; [done| |done|done].
    destruct (threads u !! nextTid u) eqn:Et; [|done]. pose proof (tk_tids _ Htk _ _ Et). lia.
  - destruct (threads u !! tid) as [th|] eqn:Hold; cbn; [|done]. by apply (stepRun_opn n).
  - destruct (threads u !! tid) as [[| |a []| | | | | | |]|] eqn:Hold; try done. intros [= <-]. destruct err as [x|].
    + rewrite bool_decide_eq_false_2 by done. by eapply opn_quiet.
    + rewrite bool_decide_eq_true_2 by done. by apply opn_built.
  - destruct (threads u !! tid) as [[| |a []| | | | | | |]|] eqn:Hold; try done. intros [= <-].
    pose proof (proj1 (op_thread _ _ _ Ho _ _ Hold)). by eapply opn_quiet.
  - destruct (threads u !! tid) as [[| |a []| |r covers| | | | |]|] eqn:Hold; try done; intros [= <-].
    + by eapply retired_opn.
    + by eapply stop_returned_opn.
  - destruct (threads u !! tid) as [[| | | | | | |op token delay| |]|] eqn:Hold; try done.
    destruct due; [intros [= <-]; by eapply opn_quiet|].
    destruct (_ || _) eqn:E; [|done]. intros [= <-]. eapply opn_exit; [exact Hi|exact Ho|exact Hold|done|by left|done..].
  - intros [= <-]. unfold ReportDegradedCorrelated. branch E; [done|]. repeat (apply orb_false_iff in E as [E ?]). bool_facts.
    eapply opn_driver; [exact Hi|exact Ho|by left|done|done|done|]. intros _. done.
  - intros [= <-]. by eapply ReportFailure_opn.
  - intros [= <-]. unfold BindHooks. destruct (hooksBound _); [done|]. eapply opn_driver; [exact Hi|exact Ho|by left|done..].
Qed.

Lemma reachable_opn now c n b u : reachable now c n b u -> few n -> UOpn u.
Proof.
  intros Hr Hn. induction Hr as [|n b u Hr IH|n b l u u' Hr IH Hs].
  - split; try done; cbn. by destruct (Enabled c).
  - by apply IH.
  - assert (Hn' : few n) by (unfold few in *; lia). destruct (reachable_att _ _ _ _ _ Hr Hn') as [Htk _].
    eapply ustep_opn; [done|by eapply driver_reachable_inv|done|by apply IH|done].
Qed.
End DriverOpen.
