(* ===== verification/DriverRetry.v ===== *)
(** * Retry schedules

    How each step changes the configuration, the quarantine flag and the
    retry state of a driver, and what follows: the delays of [retryDelay]
    stay between the bounds of their policy, the remaining budget is what
    the failure series has not used, and the published retry matches both. *)

From S2P Require Import Prelude Float64 DriverManager DriverCaps DriverInv DriverLive.

Local Open Scope Z_scope.

Module DriverRetry.
Import Float64 DriverManager DriverInv DriverLive.

(** ** Delays *)

(** What [normalizeRetryPolicy] establishes about a schedule, for durations
    that are 64-bit integers. *)
Definition schedule (initial max : time) : Prop := 0 < initial <= max /\ max < 2 ^ 63.

Lemma i64_small x : - 2 ^ 63 <= x < 2 ^ 63 -> i64 x = x.
Proof. intros H. unfold i64. rewrite Z.mod_small; lia. Qed.

Lemma doubling_spec n initial max :
  schedule initial max -> doubling n max initial = Z.min max (initial * 2 ^ Z.of_nat n).
Proof.
  revert initial. induction n as [|n IH]; intros initial Hs; cbn [doubling]; unfold schedule in Hs; [rewrite Z.pow_0_r; lia|].
  rewrite Nat2Z.inj_succ, Z.pow_succ_r by lia. assert (1 <= 2 ^ Z.of_nat n) by (apply (Z.pow_le_mono_r 2 0); lia).
  destruct (Z.ltb_spec initial max) as [Hlt|]; [|nia].
  pose proof (Z.quot_div_nonneg max 2 ltac:(lia) ltac:(lia)) as ->. destruct (Z.ltb_spec (max / 2) initial) as [Hh|Hh].
  - assert (max < initial * 2) by (pose proof (Z.div_mod max 2); pose proof (Z.mod_pos_bound max 2); lia). nia.
  - assert (initial * 2 <= max) by (pose proof (Z.div_mod max 2); pose proof (Z.mod_pos_bound max 2); lia).
    rewrite i64_small by lia. rewrite IH by (unfold schedule; lia). f_equal. ring.
Qed.

(** Without jitter the delays double up to the maximum; with any jitter
    they stay between the bounds. *)
Lemma retryDelay_base p i :
  schedule (InitialDelay p) (MaxDelay p) -> retryDelay p i None = Z.min (MaxDelay p) (InitialDelay p * 2 ^ (Z.max 0 i)).
Proof.
  intros Hs. unfold retryDelay. rewrite (doubling_spec _ _ _ Hs). replace (Z.of_nat (Z.to_nat i)) with (Z.max 0 i) by lia.
  destruct (Z.ltb_spec (MaxDelay p) (Z.min (MaxDelay p) (InitialDelay p * 2 ^ Z.max 0 i))); lia.
Qed.
Lemma retryDelay_bounds p i j :
  schedule (InitialDelay p) (MaxDelay p) -> InitialDelay p <= retryDelay p i j <= MaxDelay p.
Proof.
  intros Hs. assert (Hb : InitialDelay p <= retryDelay p i None <= MaxDelay p).
  { rewrite retryDelay_base by done. unfold schedule in Hs. assert (1 <= 2 ^ Z.max 0 i) by (apply (Z.pow_le_mono_r 2 0); lia). nia. }
  unfold retryDelay in *. destruct j as [f|]; [|done].
  match goal with |- context [i64 (?D + _)] => set (delay := D) in * end. clearbody delay.
  destruct (_ <=? 0); [done|]. cbv zeta. match goal with |- context [i64 ?X] => generalize (i64 X) as x end. intros x.
  unfold schedule in Hs. destruct (Z.ltb_spec x (InitialDelay p)); [lia|]. destruct (Z.ltb_spec (MaxDelay p) x); lia.
Qed.

(** The schedule of the [k]-th retry of a failure series and its number in
    it: the fast one while the budget lasts, then the persistent one from its
    own beginning. *)
Definition place (p : RetryPolicy) (k : Z) : time * time * Z :=
  if k <=? Budget p then (InitialDelay p, MaxDelay p, k - 1)
  else (PInitialDelay (Persistent p), PMaxDelay (Persistent p), k - 1 - Budget p).
(** The wait of that retry: the initial delay doubled for each retry before it
    in the schedule, up to the maximum, moved by at most the jitter limit of
    that delay and held between the initial delay and the maximum. *)
Definition waitOf (p : RetryPolicy) (k : Z) (delay : time) : Prop :=
  let '(initial, max, index) := place p k in
  let base := Z.min max (initial * 2 ^ index) in
  let limit := Z.max 0 (toInt64 (fmul (ofInt base) (JitterRatio p))) in
  exists a, - limit <= a <= limit /\ delay = Z.max initial (Z.min max (i64 (base + a))).

Lemma retryDelay_wait p i f :
  schedule (InitialDelay p) (MaxDelay p) -> 0 <= i ->
  let base := Z.min (MaxDelay p) (InitialDelay p * 2 ^ i) in
  let limit := Z.max 0 (toInt64 (fmul (ofInt base) (JitterRatio p))) in
  exists a, - limit <= a <= limit /\
    retryDelay p i (Some f) = Z.max (InitialDelay p) (Z.min (MaxDelay p) (i64 (base + a))).
Proof.
  intros Hs Hi. cbv zeta. pose proof (retryDelay_base p i Hs) as Hb. rewrite Z.max_r in Hb by done.
  assert (Hr : InitialDelay p <= Z.min (MaxDelay p) (InitialDelay p * 2 ^ i) <= MaxDelay p).
  { unfold schedule in Hs. assert (1 <= 2 ^ i) by (apply (Z.pow_le_mono_r 2 0); lia). nia. }
  unfold retryDelay in *. rewrite Hb. set (base := Z.min _ _) in *. clearbody base. clear Hb.
  set (limit := toInt64 _). clearbody limit. destruct (Z.leb_spec limit 0) as [Hl|Hl].
  - exists 0. split; [lia|]. rewrite Z.add_0_r, i64_small by (unfold schedule in Hs; lia). lia.
  - exists (if limit <? f limit then limit else if f limit <? - limit then - limit else f limit). split.
    + destruct (Z.ltb_spec limit (f limit)); [lia|]. destruct (Z.ltb_spec (f limit) (- limit)); lia.
    + unfold schedule in Hs. match goal with |- context [i64 ?X] => generalize (i64 X) as x end. intros x.
      destruct (Z.ltb_spec x (InitialDelay p)); [lia|]. destruct (Z.ltb_spec (MaxDelay p) x); lia.
Qed.

(** ** What a step does *)

Definition rkept (d d' : managedDriver) : Prop :=
  retryRemaining d' = retryRemaining d /\ retrySeries d' = retrySeries d.
Definition rreset (d d' : managedDriver) : Prop :=
  retryRemaining d' = Budget (Retry (cfg d)) /\ retrySeries d' = 0.

Inductive rchange (d d' : managedDriver) : Prop :=
| rc_same : observed d' = observed d -> retry d' = retry d -> rkept d d' -> rchange d d'
| rc_degrade : stable (observed d) = true -> observed d' = ObservedDegraded -> retry d' = None -> rkept d d' -> rchange d d'
| rc_clear : observed d' <> ObservedBackoff -> observed d' <> ObservedDegraded -> retry d' = None ->
    rkept d d' \/ rreset d d' -> rchange d d'
| rc_backoff e replace detail d0 c : cfg d0 = cfg d -> rkept d d0 \/ rreset d d0 -> retryContinuesLocked d0 = true ->
    d' = set_retryCancel c (fst (beginBackoff e replace detail d0)) -> rchange d d'.

Record uchange (u u' : unit_) : Prop := {
  uc_cfg : cfg (driver u') = cfg (driver u);
  uc_q : quarantined (driver u) = true -> quarantined (driver u') = true;
  uc_retry : rchange (driver u) (driver u');
  uc_delay : forall t op token delay, threads u' !! t = Some (TRetry op token delay) ->
    threads u !! t = Some (TRetry op token delay) \/
    exists e replace detail d0, cfg d0 = cfg (driver u) /\ (rkept (driver u) d0 \/ rreset (driver u) d0) /\
      retryContinuesLocked d0 = true /\ delay = snd (beginBackoff e replace detail d0) /\
      exists c, driver u' = set_retryCancel c (fst (beginBackoff e replace detail d0))
}.

Definition isRetry (th : thread) : bool := match th with TRetry _ _ _ => true | _ => false end.
Lemma uc_goto u u' tid th :
  threads u' = <[tid := th]> (threads u) -> isRetry th = false -> cfg (driver u') = cfg (driver u) ->
  (quarantined (driver u) = true -> quarantined (driver u') = true) -> rchange (driver u) (driver u') -> uchange u u'.
Proof.
  intros Ht Hr Hc Hq Hx. split; try done. intros t op tok dl. rewrite Ht, lookup_insert_Some.
  intros [[<- ->]|[_ ?]]; [done|by left].
Qed.
Lemma uc_exit u u' tid :
  threads u' = delete tid (threads u) -> cfg (driver u') = cfg (driver u) ->
  (quarantined (driver u) = true -> quarantined (driver u') = true) -> rchange (driver u) (driver u') -> uchange u u'.
Proof. intros Ht Hc Hq Hx. split; try done. intros t op tok dl. rewrite Ht, lookup_delete_Some. intros [_ ?]; by left. Qed.
Lemma uc_still u u' :
  threads u' = threads u -> cfg (driver u') = cfg (driver u) ->
  (quarantined (driver u) = true -> quarantined (driver u') = true) -> rchange (driver u) (driver u') -> uchange u u'.
Proof. intros Ht Hc Hq Hx. split; try done. intros t op tok dl. rewrite Ht. by left. Qed.
Lemma uc_refl u : uchange u u.
Proof. by apply uc_still; [| | |apply rc_same]. Qed.
(** ** Sections *)

Definition sameRetry (d d' : managedDriver) : Prop :=
  cfg d' = cfg d /\ quarantined d' = quarantined d /\ observed d' = observed d /\ retry d' = retry d /\ rkept d d'.
Lemma same_refl d : sameRetry d d.
Proof. by split_and!. Qed.
Lemma same_rchange d d' : sameRetry d d' -> rchange d d'.
Proof. intros (_ & _ & ? & ? & ?). by apply rc_same. Qed.
Lemma uc_goto_same u u' tid th :
  threads u' = <[tid := th]> (threads u) -> isRetry th = false -> sameRetry (driver u) (driver u') -> uchange u u'.
Proof.
  intros Ht Hr Hs. pose proof (same_rchange _ _ Hs). destruct Hs as (? & ? & _). eapply uc_goto; [done..|congruence|done].
Qed.
Lemma uc_exit_same u u' tid : threads u' = delete tid (threads u) -> sameRetry (driver u) (driver u') -> uchange u u'.
Proof.
  intros Ht Hs. pose proof (same_rchange _ _ Hs). destruct Hs as (? & ? & _). eapply uc_exit; [done..|congruence|done].
Qed.

Lemma dropControl_same tid d : sameRetry d (dropControl tid d).
Proof. unfold dropControl. by destruct (bool_decide _). Qed.
Lemma cancelRetry_same u : sameRetry (driver u) (driver (cancelRetry u)).
Proof. unfold cancelRetry. by destruct (retryCancel _). Qed.

(** The new state is published without a retry. *)
Definition cleared (o : ObservedState) (d d' : managedDriver) : Prop :=
  cfg d' = cfg d /\ observed d' = o /\ retry d' = None /\ (rkept d d' \/ rreset d d').
Lemma begin_cleared now d :
  cleared ObservedStarting d (beginStart now d) /\ cleared ObservedStopping d (beginReplace now d) /\
  cleared ObservedStopping d (beginStop now d) /\ cleared ObservedStarting d (beginRetry now d).
Proof. unfold cleared. split_and!; try done; [right|right|left|left]; done. Qed.
Lemma settle_cleared now gen r d :
  cleared ObservedRunning d (publishRunning now gen d) /\ cleared ObservedFailed d (quarantine now d) /\
  cleared ObservedFailed d (failDriver now r d).
Proof. unfold cleared. split_and!; try done; [right|left|left]; done. Qed.
Lemma endStop_cleared e err d : exists o, o <> ObservedBackoff /\ o <> ObservedDegraded /\ cleared o d (endStop e err d).
Proof.
  unfold endStop, cleared, rkept. destruct err as [x|]; [destruct (isStopTimeout x); [|destruct (_ || _)]|];
    (eexists; split_and!; [..|reflexivity|done|by left]; done).
Qed.
Lemma cleared_rchange o d d' : cleared o d d' -> o <> ObservedBackoff -> o <> ObservedDegraded -> rchange d d'.
Proof. intros (_ & <- & ? & ?) ? ?. by apply rc_clear. Qed.
Lemma same_then d d1 d' : sameRetry d d1 -> rkept d1 d' \/ rreset d1 d' -> rkept d d' \/ rreset d d'.
Proof. intros (Hc & _ & _ & _ & E1 & E2). unfold rkept, rreset. rewrite Hc, E1, E2. tauto. Qed.
Lemma cleared_after o d d1 d' : sameRetry d d1 -> cleared o d1 d' -> cleared o d d'.
Proof. intros Hs (? & ? & ? & ?). split_and!; try done; [destruct Hs; congruence|by eapply same_then]. Qed.

Lemma startSection_uc e b tid async u : uchange u (startSection e b tid async u).
Proof.
  unfold startSection. do 7 (branch E; [by eapply uc_exit_same|clear E]).
  destruct (begin_cleared (eNow e) (driver u)) as (H & _). assert (Hq : quarantined (beginStart (eNow e) (driver u)) = quarantined (driver u)) by done.
  revert H Hq. generalize (beginStart (eNow e) (driver u)) as d'. intros d' H Hq.
  eapply (uc_goto _ _ tid); [done|by destruct async|apply H|cbn; congruence|by eapply cleared_rchange].
Qed.
Lemma replaceSection_uc e b tid u : uchange u (replaceSection e b tid u).
Proof.
  unfold replaceSection. do 4 (branch E; [by eapply uc_exit_same|clear E]).
  destruct (begin_cleared (eNow e) (driver u)) as (_ & H & _).
  assert (Hq : quarantined (beginReplace (eNow e) (driver u)) = quarantined (driver u)) by done.
  revert H Hq. generalize (beginReplace (eNow e) (driver u)) as d'. intros d' H Hq.
  destruct (fence_fields (set_driver d' u)) as (F1 & F2 & _).
  eapply (uc_goto _ _ tid); cbn; rewrite ?F1, ?F2; [done|done|apply H|cbn; congruence|by eapply cleared_rchange].
Qed.
Lemma stopSection_uc e tid u : uchange u (stopSection e tid u).
Proof.
  unfold stopSection. branch E1; [|branch E2].
  - assert (H : stopQuarantined (eNow e) (driver u) = driver u \/
      cleared ObservedFailed (driver u) (stopQuarantined (eNow e) (driver u)) /\ quarantined (stopQuarantined (eNow e) (driver u)) = true).
    { unfold stopQuarantined, cleared. destruct (bool_decide _); [by left|]. right. split_and!; try done. by left. }
    revert H. generalize (stopQuarantined (eNow e) (driver u)) as d'. intros d' H.
    destruct (control_fields (activeAttempt (driver u)) (set_driver d' u)) as (F1 & F2 & _).
    destruct H as [-> |[H Hq]]; [eapply (uc_goto_same _ _ tid); cbn; by rewrite ?F1, ?F2|].
    eapply (uc_goto _ _ tid); cbn; rewrite ?F1, ?F2; [done|done|apply H|done|by eapply cleared_rchange].
  - destruct (control_fields (activeAttempt (driver u)) (set_driver (set_desired DesiredStopped (driver u)) u)) as (F1 & F2 & _).
    eapply (uc_goto_same _ _ tid); cbn; by rewrite ?F1, ?F2.
  - destruct (begin_cleared (eNow e) (driver u)) as (_ & _ & H & _).
    assert (Hq : quarantined (beginStop (eNow e) (driver u)) = quarantined (driver u)) by done.
    revert H Hq. generalize (beginStop (eNow e) (driver u)) as d'. intros d' H Hq. destruct (fence_fields (set_driver d' u)) as (G1 & G2 & _).
    destruct (control_fields (activeAttempt (driver u)) (fenceWithdrawalLocked (set_driver d' u))) as (F1 & F2 & _).
    eapply (uc_goto _ _ tid); cbn; rewrite ?F1, ?F2, ?G1, ?G2;
      [done|by destruct (Runtime _)|apply H|cbn; congruence|by eapply cleared_rchange].
Qed.

Lemma retryContinues_kept d d' : cfg d' = cfg d -> rkept d d' -> retryContinuesLocked d' = retryContinuesLocked d.
Proof. intros Hc [H _]. unfold retryContinuesLocked. by rewrite Hc, H. Qed.
Lemma finishAttempt_uc n e b tid a ph ph' gen err replace u u' c :
  UInv n u -> threads u !! tid = Some (TAttempt a ph) -> holdingPhase ph = true ->
  finishAttempt e b tid (aOp a) gen err replace u = (u', c) -> uchange u (goto tid (TAttempt a ph') u').
Proof.
  intros Hi Hold Hh Hfin. pose proof (dropControl_same tid (driver u)) as Hs.
  destruct (current_holder n _ _ tid a ph Hi Hold Hh) as (_ & _ & _ & Hc).
  destruct (finishAttempt_cases _ _ _ _ _ _ _ _ _ _ Hfin) as [[_ ->]|(_ & Hao & _ & Hf)]; [by eapply (uc_goto_same _ _ tid)|].
  destruct (Hc Hao) as [_ (_ & _ & Hq)].
  destruct Hf as [tr Herr|Herr|r nr Herr|detail nr d delay Herr Hrc Hb].
  - destruct (settle_cleared (eNow e) gen (because ReasonNone) (dropControl tid (driver u))) as (H & _ & _).
    pose proof (cleared_after _ _ _ _ Hs H). eapply (uc_goto _ _ tid); [done|done|by apply Hs|congruence|by eapply cleared_rchange].
  - destruct (settle_cleared (eNow e) gen (because ReasonNone) (dropControl tid (driver u))) as (_ & H & _).
    pose proof (cleared_after _ _ _ _ Hs H). eapply (uc_goto _ _ tid); [done|done|by apply Hs|done|by eapply cleared_rchange].
  - destruct (settle_cleared (eNow e) gen r (set_needsReplace nr (dropControl tid (driver u)))) as (_ & _ & H).
    assert (cleared ObservedFailed (driver u) (failDriver (eNow e) r (set_needsReplace nr (dropControl tid (driver u))))) by (by eapply cleared_after).
    eapply (uc_goto _ _ tid); [done|done|by apply Hs|congruence|by eapply cleared_rchange].
  - set (d0 := set_needsReplace nr (dropControl tid (driver u))) in *.
    assert (Hs0 : sameRetry (driver u) d0) by exact Hs. clearbody d0. clear Hs. destruct Hs0 as (S1 & S2 & _ & _ & S5).
    destruct (beginBackoff_settled e replace detail d0) as ((B1 & _) & _ & Hqb & _). rewrite Hb in B1, Hqb. cbn in B1, Hqb.
    assert (Hrc0 : retryContinuesLocked d0 = true) by (by rewrite (retryContinues_kept (driver u))). split; cbn.
    + congruence.
    + congruence.
    + eapply (rc_backoff _ _ e replace detail d0); [done|by left|done|by rewrite Hb].
    + intros t op tok dl. rewrite !lookup_insert_Some. intros [[_ ?]|[_ [[_ E]|[_ ?]]]]; [done| |by left].
      injection E as <- <- <-. right. exists e, replace, detail, d0. rewrite Hb. split_and!; eauto.
Qed.
Lemma retireSection_uc n e b tid a held gen err u :
  UInv n u -> threads u !! tid = Some (TAttempt a (ARetired held gen err)) -> uchange u (retireSection e b tid a held gen err u).
Proof.
  intros Hi Hold. unfold retireSection. pose proof (dropControl_same tid (driver u)) as Hs. destruct held as [x|]; branch E.
  - destruct (settle_cleared (eNow e) 0 (because ReasonNone) (dropControl tid (driver u))) as (_ & H & _).
    pose proof (cleared_after _ _ _ _ Hs H). eapply (uc_goto _ _ tid); [done|done|by apply Hs|done|by eapply cleared_rchange].
  - destruct (finishAttempt e b tid (aOp a) 0 (Some x) false u) as [u1 c] eqn:Ef. by eapply finishAttempt_uc.
  - destruct (settle_cleared (eNow e) 0 (because ReasonNone) (driver u)) as (_ & H & _).
    eapply (uc_goto _ _ tid); [done|done|done|done|by eapply cleared_rchange].
  - by eapply (uc_goto_same _ _ tid).
Qed.

Lemma stepAttempt_uc n e b tid a ph u u' :
  UInv n u -> threads u !! tid = Some (TAttempt a ph) -> stepAttempt e b tid a ph u = Some u' -> uchange u u'.
Proof.
  intros Hi Hold. destruct ph; cbn [stepAttempt]; try done.
  - intros [= <-]. unfold enterAttempt, endAttempt. branch E; [destruct (aTask a); by eapply uc_exit_same|].
    by eapply (uc_goto_same _ _ tid).
  - intros [= <-]. by eapply (uc_goto_same _ _ tid).
  - intros [= <-]. by eapply (uc_goto_same _ _ tid).
  - intros [= <-]. destruct (HoldAdmission _); by eapply (uc_goto_same _ _ tid).
  - intros [= <-]. by eapply (uc_goto_same _ _ tid).
  - intros [= <-]. by eapply (uc_goto_same _ _ tid).
  - intros [= <-]. by eapply retireSection_uc.
  - intros [= <-]. by eapply (uc_goto_same _ _ tid).
  - intros [= <-]. destruct (Closed _); by eapply (uc_goto_same _ _ tid).
  - destruct (finishAttempt e b tid (aOp a) gen err (aReplace a) u) as [u1 c] eqn:Ef. intros [= <-]. by eapply finishAttempt_uc.
  - intros [= <-]. destruct (Runtime _) as [k|]; [destruct (binder k)|]; by eapply (uc_goto_same _ _ tid).
  - intros [= <-]. unfold endAttempt. pose proof (dropControl_same tid (driver u)).
    destruct (aTask a); by eapply uc_exit_same.
Qed.

Lemma stepOp_uc e b tid k ph u u' : stepOp e b tid k ph u = Some u' -> uchange u u'.
Proof.
  destruct ph; cbn [stepOp].
  - intros [= <-]. pose proof (cancelRetry_same u). destruct (cancelRetry_fields u) as (_ & _ & _ & _ & Ht & _).
    revert H Ht. generalize (cancelRetry u) as u1. intros u1 H Ht. eapply (uc_goto_same _ _ tid); [cbn; by rewrite Ht|done|done].
  - intros [= <-]. destruct (control_fields (activeAttempt (driver u)) u) as (F1 & F2 & _). unfold cancelAttempt.
    eapply (uc_goto_same _ _ tid); cbn; by rewrite ?F1, ?F2.
  - unfold lockOp. destruct (opMu _); [done|]. intros [= <-]. by eapply (uc_goto_same _ _ tid).
  - intros [= <-]. pose proof (cancelRetry_same u). destruct (cancelRetry_fields u) as (_ & _ & _ & _ & Ht & _).
    revert H Ht. generalize (cancelRetry u) as u1. intros u1 H Ht. eapply (uc_goto_same _ _ tid); [cbn; by rewrite Ht|done|done].
  - intros [= <-]. destruct k as [async| |sh]; [apply startSection_uc|apply replaceSection_uc|apply stopSection_uc].
Qed.

Lemma stepRun_uc n e b tid th u u' :
  UInv n u -> threads u !! tid = Some th -> stepRun e b tid th u = Some u' -> uchange u u'.
Proof.
  intros Hi Hold. destruct th as [k ph|op r|a ph|r|r cov|r err|r|op tok dl|op tok|op tok]; cbn [stepRun]; try done.
  - by apply stepOp_uc.
  - intros [= <-]. destruct b; [by eapply uc_exit_same|by eapply (uc_goto_same _ _ tid)].
  - by apply (stepAttempt_uc n).
  - intros [= <-]. by eapply (uc_goto_same _ _ tid).
  - intros [= <-]. unfold stopFinish. destruct (endStop_cleared e err (driver u)) as (o & Ho1 & Ho2 & Hc).
    destruct (endStop_fields e err (driver u)) as (_ & _ & _ & _ & _ & _ & _ & _ & _ & Hq). revert Hc Hq. cbv zeta.
    generalize (endStop e err (driver u)) as d'. intros d' Hc Hq.
    eapply (uc_goto _ _ tid); [done|done|apply Hc|done|by eapply cleared_rchange].
  - intros [= <-]. destruct (Closed _); by eapply uc_exit_same.
  - unfold lockOp. destruct (opMu _); [done|]. intros [= <-]. by eapply (uc_goto_same _ _ tid).
  - intros [= <-]. unfold retrySection. branch E; [by eapply uc_exit_same|].
    destruct (begin_cleared (eNow e) (driver u)) as (_ & _ & _ & H).
    assert (Hq : quarantined (beginRetry (eNow e) (driver u)) = quarantined (driver u)) by done.
    revert H Hq. generalize (beginRetry (eNow e) (driver u)) as d'. intros d' H Hq.
    eapply (uc_goto _ _ tid); [done|done|apply H|cbn; congruence|by eapply cleared_rchange].
Qed.

Lemma ReportFailure_uc e b c f u : uchange u (ReportFailure e b c f u).
Proof.
  unfold ReportFailure. branch E; [by apply uc_still; [| | |apply rc_same]|].
  set (d1 := resetRetryLocked (set_needsReplace true (nextOperationLocked (driver u)))).
  assert (F : cfg d1 = cfg (driver u) /\ quarantined d1 = quarantined (driver u) /\ rreset (driver u) d1) by done.
  clearbody d1. destruct F as (F1 & F2 & F3). destruct (fence_fields (set_driver d1 u)) as (E1 & E2 & E3 & _). branch E0.
  - apply andb_true_iff in E0 as [_ Hrc].
    destruct (beginBackoff_settled e true (FDetail f) d1) as ((B1 & _) & _ & Hqb & _).
    unfold scheduleRetryLocked. cbn [driver emit set_trace]. rewrite E1. cbn [driver set_driver].
    destruct (beginBackoff e true (FDetail f) d1) as [d delay] eqn:Eb. cbn in B1, Hqb. destruct b.
    + apply uc_still; cbn; [done|congruence|congruence|]. eapply (rc_backoff _ _ e true (FDetail f) d1); [done|by right|done|by rewrite Eb].
    + split; cbn.
      * congruence.
      * congruence.
      * eapply (rc_backoff _ _ e true (FDetail f) d1); [done|by right|done|by rewrite Eb].
      * rewrite E2, E3. intros t op tok dl. rewrite lookup_insert_Some. intros [[_ [= <- <- <-]]|[_ ?]]; [|by left].
        right. exists e, true, (FDetail f), d1. rewrite Eb. split_and!; eauto.
  - destruct (settle_cleared (eNow e) 0 (normalizeReason (FReason f)) d1) as (_ & _ & H1 & H2 & H3 & H4).
    apply uc_still; cbn; [done|done|congruence|]. apply rc_clear; [done..|]. right.
    destruct H4 as [[H4 H5]|[H4 H5]]; destruct F3 as [F3 F4]; split; congruence.
Qed.

Lemma ustep_uc n b l u u' : UInv n u -> ustep b l u = Some u' -> uchange u u'.
Proof.
  intros Hi. destruct l as [k|tid e|tid gen err|tid err|tid err|tid due|e c eff r|e c f|h]; cbn [ustep].
  - intros [= <-]. by eapply (uc_goto_same _ _ (nextTid u)).
  - destruct (threads u !! tid) as [th|] eqn:Hold; cbn; [|done]. by apply (stepRun_uc n).
  - destruct (threads u !! tid) as [[| |a []| | | | | | |]|] eqn:Hold; try done. intros [= <-].
    destruct (bool_decide _); by eapply (uc_goto_same _ _ tid).
  - destruct (threads u !! tid) as [[| |a []| | | | | | |]|] eqn:Hold; try done. intros [= <-]. by eapply (uc_goto_same _ _ tid).
  - destruct (threads u !! tid) as [[| |a []| |r covers| | | | |]|] eqn:Hold; try done; intros [= <-]; unfold stopReturned;
      destruct (releases err); by eapply (uc_goto_same _ _ tid).
  - destruct (threads u !! tid) as [[| | | | | | |op token delay| |]|] eqn:Hold; try done.
    destruct due; [intros [= <-]; by eapply (uc_goto_same _ _ tid)|].
    destruct (_ || _); [|done]. intros [= <-]. by eapply uc_exit_same.
  - intros [= <-]. unfold ReportDegradedCorrelated. branch E; [by apply uc_still; [| | |apply rc_same]|].
    repeat (apply orb_false_iff in E as [E ?]). bool_facts. apply uc_still; [done|done|done|]. by apply rc_degrade.
  - intros [= <-]. by apply ReportFailure_uc.
  - intros [= <-]. unfold BindHooks. destruct (hooksBound _); [by apply uc_refl|]. by apply uc_still; [| | |apply rc_same].
Qed.
(** ** The budget *)

(** The durations of a policy are 64-bit integers. *)
Definition durations (p : RetryPolicy) : Prop :=
  InitialDelay p < 2 ^ 63 /\ MaxDelay p < 2 ^ 63 /\ PInitialDelay (Persistent p) < 2 ^ 63 /\ PMaxDelay (Persistent p) < 2 ^ 63.
Lemma normalize_schedule p :
  durations p -> let q := normalizeRetryPolicy p in
  0 <= Budget q /\ schedule (InitialDelay q) (MaxDelay q) /\
  (PEnabled (Persistent q) = true -> schedule (PInitialDelay (Persistent q)) (PMaxDelay (Persistent q))).
Proof.
  intros (H1 & H2 & H3 & H4). unfold normalizeRetryPolicy, schedule. cbv zeta. cbn [Budget InitialDelay MaxDelay Persistent].
  assert (0 < second < 2 ^ 63) by (unfold second; lia).
  split_and!; try (destruct (PEnabled (Persistent p)) eqn:E; [|by rewrite E]; intros _; cbn [PInitialDelay PMaxDelay]);
    repeat match goal with |- context [?a <=? ?b] => destruct (Z.leb_spec a b) | |- context [?a <? ?b] => destruct (Z.ltb_spec a b) end; lia.
Qed.

(** The retry a driver in back-off publishes. *)
Definition published (p : RetryPolicy) (series : Z) (rt : RetrySnapshot) : Prop :=
  Eligible rt = true /\ Attempt rt = series /\ 1 <= series /\ BudgetRemaining rt = Z.max 0 (Budget p - (series - 1)) /\
  RPersistent rt = PEnabled (Persistent p) /\ (PEnabled (Persistent p) = false -> 1 <= BudgetRemaining rt).
Record RInv (n : nat) (d : managedDriver) : Prop := {
  ri_series : 0 <= retrySeries d <= Z.of_nat n;
  ri_remaining : retryRemaining d = Z.max 0 (Budget (Retry (cfg d)) - retrySeries d);
  ri_finite : PEnabled (Persistent (Retry (cfg d))) = false -> retrySeries d <= Budget (Retry (cfg d));
  ri_retry : match retry d with
             | Some rt => observed d = ObservedBackoff /\ published (Retry (cfg d)) (retrySeries d) rt
             | None => observed d <> ObservedBackoff
             end
}.
Definition scheduledPolicy (p : RetryPolicy) : Prop :=
  0 <= Budget p /\ schedule (InitialDelay p) (MaxDelay p) /\
  (PEnabled (Persistent p) = true -> schedule (PInitialDelay (Persistent p)) (PMaxDelay (Persistent p))).

(** The budget and the series, before a retry is scheduled. *)
Definition budget (d : managedDriver) : Prop :=
  0 <= retrySeries d /\ retryRemaining d = Z.max 0 (Budget (Retry (cfg d)) - retrySeries d) /\
  (PEnabled (Persistent (Retry (cfg d))) = false -> retrySeries d <= Budget (Retry (cfg d))).
Lemma budget_next n d d' :
  RInv n d -> scheduledPolicy (Retry (cfg d)) -> cfg d' = cfg d -> rkept d d' \/ rreset d d' -> budget d' /\ retrySeries d' <= Z.of_nat n.
Proof.
  intros [H1 H2 H3 _] (Hb & _) Hc Hr. unfold budget. rewrite Hc.
  destruct Hr as [[-> ->]|[-> ->]]; split_and!; try done; lia.
Qed.

#[local] Arguments retryDelay : simpl never.
#[local] Arguments normalizeRetryPolicy : simpl never.
Lemma beginBackoff_budget e replace detail d c :
  budget d -> scheduledPolicy (Retry (cfg d)) -> retryContinuesLocked d = true -> retrySeries d + 1 < 2 ^ 63 ->
  let d' := set_retryCancel c (fst (beginBackoff e replace detail d)) in
  cfg d' = cfg d /\ retrySeries d' = retrySeries d + 1 /\ budget d' /\ observed d' = ObservedBackoff /\
  (exists rt, retry d' = Some rt /\ published (Retry (cfg d)) (retrySeries d + 1) rt /\
     NotBeforeUTC rt = eNow e + snd (beginBackoff e replace detail d)) /\
  waitOf (Retry (cfg d)) (retrySeries d + 1) (snd (beginBackoff e replace detail d)).
Proof.
  intros (B1 & B2 & B3) (P1 & P2 & P3) Hrc Hs. unfold retryContinuesLocked in Hrc. unfold beginBackoff, nextRetryDelay, budget, waitOf, place.
  assert (Hi : i64 (retrySeries d + 1) = retrySeries d + 1) by (apply i64_small; lia).
  destruct (Z.ltb_spec 0 (retryRemaining d)) as [Hr|Hr]; cbn; rewrite Hi.
  - split_and!; try done; try lia.
    + eexists. split; [reflexivity|]. unfold published. cbn. split_and!; try done; lia.
    + rewrite (proj2 (Z.leb_le _ _)) by lia. replace (Budget (Retry (cfg d)) - retryRemaining d) with (retrySeries d + 1 - 1) by lia.
      apply retryDelay_wait; [done|lia].
  - cbn in Hrc. split_and!; try done; try lia; try congruence.
    + eexists. split; [reflexivity|]. unfold published. cbn. rewrite Hrc. split_and!; try done; lia.
    + rewrite (proj2 (Z.leb_gt _ _)) by lia.
      replace (retrySeries d + 1 - 1 - Budget (Retry (cfg d))) with
        (if retrySeries d - Budget (Retry (cfg d)) <? 0 then 0 else retrySeries d - Budget (Retry (cfg d)))
        by (destruct (Z.ltb_spec (retrySeries d - Budget (Retry (cfg d))) 0); lia).
      apply (retryDelay_wait (mkPolicy 0 _ _ _ _)); [by apply P3|].
      destruct (Z.ltb_spec (retrySeries d - Budget (Retry (cfg d))) 0); lia.
Qed.

Lemma rinv_step n d d' :
  RInv n d -> scheduledPolicy (Retry (cfg d)) -> cfg d' = cfg d -> Z.of_nat (S n) < 2 ^ 63 -> rchange d d' ->
  (stable (observed d) = true -> retry d = None) -> RInv (S n) d'.
Proof.
  intros Hi Hp Hc Hn Hr Hst. assert (Hweak : rkept d d' \/ rreset d d' -> 0 <= retrySeries d' <= Z.of_nat (S n) /\
    retryRemaining d' = Z.max 0 (Budget (Retry (cfg d')) - retrySeries d') /\
    (PEnabled (Persistent (Retry (cfg d'))) = false -> retrySeries d' <= Budget (Retry (cfg d')))).
  { intros Hk. destruct (budget_next n d d' Hi Hp Hc Hk) as [(? & ? & ?) ?]. split_and!; try done; lia. }
  destruct Hr as [Ho Hr Hk|Hs Ho Hr Hk|Ho Ho2 Hr Hk|e replace detail d0 c Hc0 Hk Hrc ->].
  - destruct Hweak as (? & ? & ?); [by left|]. split; try done. rewrite Hr, Ho, Hc. destruct Hk as [_ ->]. apply (ri_retry _ _ Hi).
  - destruct Hweak as (? & ? & ?); [by left|]. split; try done. by rewrite Hr, Ho.
  - destruct Hweak as (? & ? & ?); [done|]. split; try done. by rewrite Hr.
  - destruct (budget_next n d d0 Hi Hp Hc0 Hk) as [Hb Hle]. rewrite <- Hc0 in Hp.
    destruct (beginBackoff_budget e replace detail d0 c Hb Hp Hrc ltac:(lia)) as (C & S1 & (B1 & B2 & B3) & Hob & (rt & Hrt & Hpub & _) & _).
    split; [lia|done|done|]. rewrite Hrt, C. split; [done|]. by rewrite S1.
Qed.

Lemma reachable_cfg now c n b u : reachable now c n b u -> few n -> cfg (driver u) = cfg (newDriver now c).
Proof.
  intros Hr Hn. induction Hr as [|n b u Hr IH|n b l u u' Hr IH Hs]; [done|by apply IH|].
  assert (Hn' : few n) by (unfold few in *; lia). rewrite <- (IH Hn').
  apply (uc_cfg u u'). eapply ustep_uc; [by eapply driver_reachable_inv|done].
Qed.

Lemma reachable_retry now c n b u :
  reachable now c n b u -> Z.of_nat n < 2 ^ 63 -> durations (Retry c) -> RInv n (driver u).
Proof.
  intros Hr Hn Hdu. pose proof (normalize_schedule _ Hdu) as Hp. cbv zeta in Hp.
  induction Hr as [|n b u Hr IH|n b l u u' Hr IH Hs].
  - destruct Hp as (Hb & _ & _). split; cbn; try lia. by destruct (Enabled c).
  - by apply IH.
  - assert (Hn' : few n) by (unfold few; lia). pose proof (IH ltac:(lia)) as Hi.
    pose proof (driver_reachable_inv _ _ _ _ _ Hr Hn') as Hinv. pose proof (ustep_uc _ _ _ _ _ Hinv Hs) as [U1 _ U3 _].
    pose proof (reachable_cfg _ _ _ _ _ Hr Hn') as Hc. assert (Hrc : Retry (cfg (driver u)) = normalizeRetryPolicy (Retry c)) by (by rewrite Hc).
    eapply rinv_step; [done|by rewrite Hrc|done|lia|done|]. intros Hst. pose proof (ri_retry _ _ Hi) as Hx.
    destruct (retry (driver u)); [|done]. destruct Hx as [E _]. by rewrite E in Hst.
Qed.

(** A retry that begins to wait waits for its place in the series, and is
    published with it. *)
Lemma retry_begins now c n b u l u' t op token delay :
  reachable now c n b u -> Z.of_nat (S n) < 2 ^ 63 -> durations (Retry c) -> ustep b l u = Some u' ->
  threads u' !! t = Some (TRetry op token delay) -> threads u !! t <> Some (TRetry op token delay) ->
  exists rt at_, retry (driver u') = Some rt /\ NotBeforeUTC rt = at_ + delay /\
    waitOf (normalizeRetryPolicy (Retry c)) (Attempt rt) delay.
Proof.
  intros Hr Hn Hdu Hs Hth Hnew. assert (Hn' : few n) by (unfold few; lia).
  pose proof (reachable_retry _ _ _ _ _ Hr ltac:(lia) Hdu) as Hi. pose proof (normalize_schedule _ Hdu) as Hp. cbv zeta in Hp.
  pose proof (driver_reachable_inv _ _ _ _ _ Hr Hn') as Hinv. pose proof (ustep_uc _ _ _ _ _ Hinv Hs) as [_ _ _ U4].
  pose proof (reachable_cfg _ _ _ _ _ Hr Hn') as Hc. assert (Hrc : Retry (cfg (driver u)) = normalizeRetryPolicy (Retry c)) by (by rewrite Hc).
  destruct (U4 t op token delay Hth) as [?|(e & replace & detail & d0 & D1 & D2 & D3 & -> & ca & ->)]; [done|].
  destruct (budget_next n (driver u) d0 Hi) as [Hb Hle]; [by rewrite Hrc|done|done|].
  assert (Hp0 : Retry (cfg d0) = normalizeRetryPolicy (Retry c)) by congruence.
  destruct (beginBackoff_budget e replace detail d0 ca Hb) as (_ & _ & _ & _ & (rt & Hrt & Hpub & Hnb) & Hw); [by rewrite Hp0|done|lia|].
  exists rt, (eNow e). split; [done|]. split; [done|]. destruct Hpub as (_ & -> & _). by rewrite <- Hp0.
Qed.
End DriverRetry.
