(* ===== verification/DriverTerm.v ===== *)
(** * Progress of the calls on a driver

    [opMu] is always held by a thread that will release it, so some thread
    can go on wherever one waits, and every call ends after a bounded number
    of its own steps. *)

From S2P Require Import Prelude Float64 DriverManager DriverCaps DriverInv DriverLive.

Local Open Scope Z_scope.

Module DriverTerm.
Import DriverManager DriverInv DriverLive.

(** ** Who holds [opMu] *)

Definition locked (th : thread) : bool :=
  match th with
  | TOp _ PCancelAgain | TOp _ PSection | TStopCall _ | TStopping _ _ | TStopRet _ _ | TRetrySection _ _ => true
  | _ => false
  end.
Definition Held (u : unit_) : Prop :=
  forall t, opMu (driver u) = Some t -> exists th, threads u !! t = Some th /\ locked th = true.

(** How many more steps of its own a thread can take, at most. *)
Definition rankOp (ph : opPhase) : nat :=
  match ph with PCancel => 40 | PCancelAttempt => 39 | PLock => 38 | PCancelAgain => 37 | PSection => 36 end.
Definition rankAttempt (ph : attemptPhase) : nat :=
  match ph with
  | AEnter => 29 | ACall => 28 | ABuild => 27 | ABuilt _ _ => 26 | AHooks _ _ => 25 | AHold _ _ => 24 | AHeld _ _ => 23
  | ARetire _ _ => 22 | ARetiring _ _ _ => 21 | ARetired _ _ _ => 20 | AReport _ => 19 | AClosed _ => 18
  | AFinish _ _ => 17 | ABind _ => 16 | ADone => 15
  end.
Definition rank (th : thread) : nat :=
  match th with
  | TOp _ ph => rankOp ph
  | TRetry _ _ _ => 33 | TRetryLock _ _ => 32 | TRetrySection _ _ => 31
  | TSpawn _ _ => 30
  | TAttempt _ ph => rankAttempt ph
  | TStopCall _ => 10 | TStopping _ _ => 9 | TStopRet _ _ => 8 | TClosed _ => 7
  end.

(** How a step of thread [tid] may change the lock and the threads: the
    thread goes on or ends, another one may start with a number that is not
    in use. *)
Inductive move (tid : nat) (old : thread) (u u' : unit_) : Prop :=
| mv_goto th : threads u' = <[tid := th]> (threads u) -> (rank th < rank old)%nat ->
    opMu (driver u') = None \/ opMu (driver u') = opMu (driver u) /\ (locked old = true -> locked th = true) \/
      opMu (driver u') = Some tid /\ locked th = true -> move tid old u u'
| mv_exit : threads u' = delete tid (threads u) ->
    opMu (driver u') = None \/ opMu (driver u') = opMu (driver u) /\ locked old = false -> move tid old u u'
| mv_fork th th' : (tid < nextTid u)%nat -> threads u' = <[tid := th]> (<[nextTid u := th']> (threads u)) ->
    (rank th < rank old)%nat -> opMu (driver u') = opMu (driver u) -> locked old = false -> move tid old u u'.

Lemma held_locked u tid old : Held u -> threads u !! tid = Some old -> opMu (driver u) = Some tid -> locked old = true.
Proof. intros Hh Hold Ho. destruct (Hh tid Ho) as (th & ? & ?). congruence. Qed.
Lemma move_held tid old u u' : Tok u -> Held u -> threads u !! tid = Some old -> move tid old u u' -> Held u'.
Proof.
  intros Htk Hh Hold [th Ht _ Hm|Ht Hm|th th' Hne Ht _ Hm Hl] t Ho; rewrite Ht; pose proof (held_locked _ _ _ Hh Hold) as Hlo.
  - destruct Hm as [Hm|[[Hm Hl]|[Hm Hl]]]; [congruence| |].
    + rewrite Hm in Ho. destruct (decide (t = tid)) as [->|Hn]; [exists th; rewrite lookup_insert_eq; auto|].
      destruct (Hh t Ho) as (th0 & ? & ?). exists th0. by rewrite lookup_insert_ne.
    + assert (t = tid) as -> by congruence. exists th. by rewrite lookup_insert_eq.
  - destruct Hm as [Hm|[Hm Hn]]; [congruence|]. rewrite Hm in Ho. destruct (Hh t Ho) as (th0 & ? & ?). exists th0.
    rewrite lookup_delete_ne; [done|]. intros ->. rewrite Hlo in Hn; congruence.
  - rewrite Hm in Ho. destruct (decide (t = tid)) as [->|Hn]; [rewrite Hlo in Hl; congruence|].
    destruct (Hh t Ho) as (th0 & Hth & ?). exists th0. pose proof (tk_tids _ Htk _ _ Hth). by rewrite !lookup_insert_ne by (lia || done).
Qed.

(** ** Steps *)

Lemma mv_phase tid a ph ph' u u' :
  threads u' = <[tid := TAttempt a ph']> (threads u) -> (rankAttempt ph' < rankAttempt ph)%nat ->
  opMu (driver u') = opMu (driver u) -> move tid (TAttempt a ph) u u'.
Proof. intros Ht Hr Ho. eapply mv_goto; [done|done|]. by right; left. Qed.
Lemma mv_return tid k u r : move tid (TOp k PSection) u (return_ tid r (unlockOp u)).
Proof. apply mv_exit; [done|by left]. Qed.

Lemma sections_move e b tid k u :
  move tid (TOp k PSection) u match k with
                              | KStart async => startSection e b tid async u
                              | KReplace => replaceSection e b tid u
                              | KStop _ => stopSection e tid u
                              end.
Proof.
  destruct k as [async| |sh].
  - unfold startSection. do 7 (branch E; [apply mv_return|clear E]).
    eapply mv_goto; [done|destruct async; cbn; lia|by left].
  - unfold replaceSection. do 4 (branch E; [apply mv_return|clear E]). generalize (beginReplace (eNow e) (driver u)) as d'. intros d'.
    destruct (fence_fields (set_driver d' u)) as (_ & E2 & _). eapply mv_goto; [cbn; by rewrite E2|cbn; lia|by left].
  - unfold stopSection. branch E1; [|branch E2].
    + generalize (stopQuarantined (eNow e) (driver u)) as d'. intros d'.
      destruct (control_fields (activeAttempt (driver u)) (set_driver d' u)) as (_ & F2 & _).
      eapply mv_goto; [cbn; by rewrite F2|cbn; lia|by left].
    + destruct (control_fields (activeAttempt (driver u)) (set_driver (set_desired DesiredStopped (driver u)) u)) as (_ & F2 & _).
      eapply mv_goto; [cbn; by rewrite F2|cbn; lia|by left].
    + assert (Ho : opMu (beginStop (eNow e) (driver u)) = opMu (driver u)) by done. revert Ho.
      generalize (beginStop (eNow e) (driver u)) as d'. intros d' Ho. destruct (fence_fields (set_driver d' u)) as (G1 & G2 & _).
      destruct (control_fields (activeAttempt (driver u)) (fenceWithdrawalLocked (set_driver d' u))) as (F1 & F2 & _).
      eapply mv_goto; [cbn; by rewrite F2, G2|destruct (Runtime _); cbn; lia|]. right; left.
      cbn. rewrite F1, G1. split; [done|]. by destruct (Runtime _).
Qed.

Lemma finishAttempt_move e b tid a ph ph' gen err replace u u' c :
  Tok u -> threads u !! tid = Some (TAttempt a ph) -> (rankAttempt ph' < rankAttempt ph)%nat ->
  finishAttempt e b tid (aOp a) gen err replace u = (u', c) -> move tid (TAttempt a ph) u (goto tid (TAttempt a ph') u').
Proof.
  intros Htk Hold Hr Hfin. destruct (dropControl_fields tid (driver u)) as (_ & D2 & _).
  destruct (finishAttempt_cases _ _ _ _ _ _ _ _ _ _ Hfin) as [[_ ->]|(_ & _ & _ & Hf)]; [by eapply mv_phase|].
  destruct Hf as [tr Herr|Herr|r nr Herr|detail nr d delay Herr Hrc Hb]; [by eapply mv_phase..|].
  destruct (beginBackoff_settled e replace detail (set_needsReplace nr (dropControl tid (driver u)))) as ((_ & S2 & _) & _).
  rewrite Hb in S2. cbn in S2. eapply mv_fork; [by apply (tk_tids _ Htk _ _ Hold)|done|done|cbn; congruence|done].
Qed.

Lemma endAttempt_move tid a ph u d :
  opMu d = opMu (driver u) -> move tid (TAttempt a ph) u (endAttempt tid a (set_driver d u)).
Proof. intros Ho. unfold endAttempt. destruct (aTask a); apply mv_exit; auto. Qed.
Lemma stepAttempt_move e b tid a ph u u' :
  Tok u -> threads u !! tid = Some (TAttempt a ph) -> stepAttempt e b tid a ph u = Some u' -> move tid (TAttempt a ph) u u'.
Proof.
  intros Htk Hold. destruct ph; cbn [stepAttempt]; try done.
  - intros [= <-]. unfold enterAttempt. branch E; [by apply (endAttempt_move tid a AEnter u (driver u))|].
    eapply mv_phase; [done|by repeat case_match; cbn; lia|done].
  - intros [= <-]. eapply mv_phase; [done|cbn; lia|done].
  - intros [= <-]. unfold supersededCheck. eapply mv_phase; [done|repeat case_match; cbn; lia|done].
  - intros [= <-]. destruct (HoldAdmission _); (eapply mv_phase; [done|cbn; lia|done]).
  - intros [= <-]. unfold heldCheck. eapply mv_phase; [done|repeat case_match; cbn; lia|done].
  - intros [= <-]. eapply mv_phase; [done|cbn; lia|done].
  - intros [= <-]. unfold retireSection. destruct held as [x|]; branch E.
    + destruct (dropControl_fields tid (driver u)) as (_ & D2 & _). eapply mv_phase; [done|cbn; lia|done].
    + destruct (finishAttempt e b tid (aOp a) 0 (Some x) false u) as [u1 c] eqn:Ef. eapply finishAttempt_move; [done|done|cbn; lia|done].
    + eapply mv_phase; [done|cbn; lia|done].
    + eapply mv_phase; [done|cbn; lia|done].
  - intros [= <-]. eapply mv_phase; [done|cbn; lia|done].
  - intros [= <-]. destruct (Closed _); (eapply mv_phase; [done|cbn; lia|done]).
  - destruct (finishAttempt e b tid (aOp a) gen err (aReplace a) u) as [u1 c] eqn:Ef. intros [= <-].
    eapply finishAttempt_move; [done|done|repeat case_match; cbn; lia|done].
  - intros [= <-]. destruct (Runtime _) as [k|]; [destruct (binder k)|]; (eapply mv_phase; [done|cbn; lia|done]).
  - intros [= <-]. apply endAttempt_move. by destruct (dropControl_fields tid (driver u)) as (_ & D2 & _).
Qed.

Lemma cancelRetry_move tid k ph ph' u :
  (rankOp ph' < rankOp ph)%nat -> (locked (TOp k ph) = true -> locked (TOp k ph') = true) ->
  move tid (TOp k ph) u (goto tid (TOp k ph') (cancelRetry u)).
Proof.
  intros Hr Hl. destruct (cancelRetry_fields u) as (_ & _ & _ & _ & Ht & _ & _ & Ho). revert Ht Ho. cbv zeta.
  generalize (cancelRetry u) as u1. intros u1 Ht Ho. eapply mv_goto; [cbn; by rewrite Ht|done|]. right; left. by split.
Qed.
Lemma lockOp_move tid old th u u' :
  (rank th < rank old)%nat -> locked th = true -> lockOp tid th u = Some u' -> move tid old u u'.
Proof. intros Hr Hl. unfold lockOp. destruct (opMu _); [done|]. intros [= <-]. eapply mv_goto; [done|done|]. by right; right. Qed.
Lemma stepOp_move e b tid k ph u u' : stepOp e b tid k ph u = Some u' -> move tid (TOp k ph) u u'.
Proof.
  destruct ph; cbn [stepOp].
  - intros [= <-]. by apply cancelRetry_move; [destruct k as [| |[]]; cbn; lia|].
  - intros [= <-]. destruct (control_fields (activeAttempt (driver u)) u) as (F1 & F2 & _). unfold cancelAttempt.
    eapply mv_goto; [cbn; by rewrite F2|cbn; lia|]. right; left. cbn. by rewrite F1.
  - apply lockOp_move; [cbn; lia|done].
  - intros [= <-]. apply cancelRetry_move; [cbn; lia|done].
  - intros [= <-]. apply sections_move.
Qed.
Lemma stepRun_move e b tid th u u' :
  Tok u -> threads u !! tid = Some th -> stepRun e b tid th u = Some u' -> move tid th u u'.
Proof.
  intros Htk Hold. destruct th as [k ph|op r|a ph|r|r cov|r err|r|op tok dl|op tok|op tok]; cbn [stepRun]; try done.
  - by apply stepOp_move.
  - intros [= <-]. destruct b; [by apply mv_exit; [|right]|]. eapply mv_goto; [done|cbn; lia|by right; left].
  - by apply stepAttempt_move.
  - intros [= <-]. eapply mv_goto; [done|cbn; lia|by right; left].
  - intros [= <-]. eapply mv_goto; [done|cbn; lia|by left].
  - intros [= <-]. destruct (Closed _); by apply mv_exit; [|right].
  - apply lockOp_move; [cbn; lia|done].
  - intros [= <-]. unfold retrySection. branch E; [by apply mv_exit; [|left]|]. eapply mv_goto; [done|cbn; lia|by left].
Qed.

(** The thread a label is about. *)
Definition subject (l : label) : option nat :=
  match l with
  | LRun t _ | LBuilt t _ _ | LHeld t _ | LStopped t _ | LWait t _ => Some t
  | LCall _ | LDegraded _ _ _ _ | LFailure _ _ _ | LBind _ => None
  end.
Lemma ustep_move b l u u' tid :
  Tok u -> ustep b l u = Some u' -> subject l = Some tid -> exists old, threads u !! tid = Some old /\ move tid old u u'.
Proof.
  intros Htk Hs Hl. destruct l as [k|t e|t gen err|t err|t err|t due|e c eff r|e c f|h]; try done; injection Hl as ->; cbn [ustep] in Hs.
  - destruct (threads u !! tid) as [th|] eqn:Hold; cbn in Hs; [|done]. exists th. split; [done|]. by eapply stepRun_move.
  - destruct (threads u !! tid) as [[| |a []| | | | | | |]|] eqn:Hold; try done. injection Hs as <-. eexists. split; [done|].
    destruct (bool_decide _); (eapply mv_phase; [done|cbn; lia|done]).
  - destruct (threads u !! tid) as [[| |a []| | | | | | |]|] eqn:Hold; try done. injection Hs as <-. eexists. split; [done|].
    eapply mv_phase; [done|cbn; lia|done].
  - destruct (threads u !! tid) as [[| |a []| |r covers| | | | |]|] eqn:Hold; try done; injection Hs as <-; eexists; (split; [done|]);
      unfold stopReturned; destruct (releases err); (eapply mv_goto; [done|cbn; lia|by right; left]).
  - destruct (threads u !! tid) as [[| | | | | | |op token delay| |]|] eqn:Hold; try done. eexists. split; [done|].
    destruct due; [injection Hs as <-; eapply mv_goto; [done|cbn; lia|by right; left]|].
    destruct (_ || _); [|done]. injection Hs as <-. by apply mv_exit; [|right].
Qed.
(** The other labels start a thread at most. *)
Lemma ustep_spawn b l u u' :
  ustep b l u = Some u' -> subject l = None ->
  opMu (driver u') = opMu (driver u) /\
  (threads u' = threads u \/ exists th, threads u' = <[nextTid u := th]> (threads u)).
Proof.
  intros Hs Hl. destruct l as [k|t e|t gen err|t err|t err|t due|e c eff r|e c f|h]; try done; cbn [ustep] in Hs; injection Hs as <-.
  - split; [done|]. right. by eexists.
  - unfold ReportDegradedCorrelated. branch E; (split; [done|by left]).
  - unfold ReportFailure. branch E; [split; [done|by left]|].
    set (d1 := resetRetryLocked (set_needsReplace true (nextOperationLocked (driver u)))).
    assert (F : opMu d1 = opMu (driver u)) by done. clearbody d1. destruct (fence_fields (set_driver d1 u)) as (E1 & E2 & E3 & _).
    branch E0; [|split; cbn; [done|left; by rewrite E2]].
    unfold scheduleRetryLocked. cbn [driver emit set_trace]. rewrite E1. cbn [driver set_driver].
    destruct (beginBackoff_settled e true (FDetail f) d1) as ((_ & S2 & _) & _).
    destruct (beginBackoff e true (FDetail f) d1) as [d delay] eqn:Eb. cbn in S2.
    destruct b; cbn; rewrite ?E2, ?E3; (split; [cbn; congruence|]); [by left|right; by eexists].
  - unfold BindHooks. destruct (hooksBound _); (split; [done|by left]).
Qed.

Lemma ustep_held b l u u' : Tok u -> Held u -> ustep b l u = Some u' -> Held u'.
Proof.
  intros Htk Hh Hs. destruct (subject l) as [tid|] eqn:Hl.
  - destruct (ustep_move b l u u' tid Htk Hs Hl) as (old & Hold & Hm). by eapply move_held.
  - destruct (ustep_spawn b l u u' Hs Hl) as [Ho Ht]. intros t Hot. rewrite Ho in Hot. destruct (Hh t Hot) as (th & Hth & Hlk).
    destruct Ht as [-> |(th' & ->)]; [eauto|]. exists th. pose proof (tk_tids _ Htk _ _ Hth). by rewrite lookup_insert_ne by lia.
Qed.
Lemma reachable_held now c n b u : reachable now c n b u -> few n -> Held u.
Proof.
  intros Hr Hn. induction Hr as [|n b u Hr IH|n b l u u' Hr IH Hs]; [done|by apply IH|].
  assert (Hn' : few n) by (unfold few in *; lia). destruct (reachable_att _ _ _ _ _ Hr Hn') as [Htk _].
  eapply ustep_held; [done|by apply IH|done].
Qed.

(** A thread that does not wait for [opMu] can always go on. *)
Definition waits (th : thread) : bool :=
  match th with TOp _ PLock | TRetryLock _ _ => true | _ => false end.
Lemma thread_steps b u t th :
  threads u !! t = Some th -> waits th = false -> exists l u', subject l = Some t /\ ustep b l u = Some u'.
Proof.
  intros Hth Hw. pose (e := mkEnv 0 0 (fun _ => 0) false false). 
  destruct th as [k ph|op r|a ph|r|r cov|r err|r|op tok dl|op tok|op tok]; try done.
  - destruct ph; try done; (eexists (LRun t e), _; split; [done|]; cbn; rewrite Hth; cbn; reflexivity).
  - eexists (LRun t e), _. split; [done|]. cbn. rewrite Hth. cbn. reflexivity.
  - destruct ph;
      try (eexists (LRun t e), _; split; [done|]; cbn [ustep]; rewrite Hth; cbn [mbind option_bind stepRun stepAttempt]; reflexivity).
    + eexists (LBuilt t 0 None), _. split; [done|]. cbn [ustep]. rewrite Hth. reflexivity.
    + eexists (LHeld t None), _. split; [done|]. cbn [ustep]. rewrite Hth. reflexivity.
    + eexists (LStopped t None), _. split; [done|]. cbn [ustep]. rewrite Hth. reflexivity.
    + destruct (finishAttempt e b t (aOp a) gen err (aReplace a) u) as [u1 c] eqn:Ef.
      eexists (LRun t e), _. split; [done|]. cbn [ustep]. rewrite Hth. cbn [mbind option_bind stepRun stepAttempt]. by rewrite Ef.
  - eexists (LRun t e), _. split; [done|]. cbn [ustep]. rewrite Hth. reflexivity.
  - eexists (LStopped t None), _. split; [done|]. cbn [ustep]. rewrite Hth. reflexivity.
  - eexists (LRun t e), _. split; [done|]. cbn [ustep]. rewrite Hth. reflexivity.
  - eexists (LRun t e), _. split; [done|]. cbn [ustep]. rewrite Hth. reflexivity.
  - eexists (LWait t true), _. split; [done|]. cbn [ustep]. rewrite Hth. reflexivity.
  - eexists (LRun t e), _. split; [done|]. cbn [ustep]. rewrite Hth. reflexivity.
Qed.

(** Thread numbers are not used again. *)
Lemma schedule_tids e b op replace detail u : (nextTid u <= nextTid (scheduleRetryLocked e b op replace detail u))%nat.
Proof. unfold scheduleRetryLocked. destruct (beginBackoff _ _ _ _). destruct b; cbn; lia. Qed.
Lemma finishAttempt_tids e b tid op gen err replace u u' c :
  finishAttempt e b tid op gen err replace u = (u', c) -> (nextTid u <= nextTid u')%nat.
Proof.
  intros H. destruct (finishAttempt_cases _ _ _ _ _ _ _ _ _ _ H) as [[_ ->]|(_ & _ & _ & Hf)]; [done|].
  destruct Hf; [done..|]. cbn. lia.
Qed.
Lemma sections_tids e b tid k u :
  nextTid match k with
          | KStart async => startSection e b tid async u
          | KReplace => replaceSection e b tid u
          | KStop _ => stopSection e tid u
          end = nextTid u.
Proof.
  destruct k as [async| |sh].
  - unfold startSection. do 7 (branch E; [done|clear E]). generalize (beginStart (eNow e) (driver u)) as d'. done.
  - unfold replaceSection. do 4 (branch E; [done|clear E]). generalize (beginReplace (eNow e) (driver u)) as d'. intros d'.
    destruct (fence_fields (set_driver d' u)) as (_ & _ & E & _). cbn. by rewrite E.
  - unfold stopSection. branch E1; [|branch E2].
    + generalize (stopQuarantined (eNow e) (driver u)) as d'. intros d'. destruct (control_fields (activeAttempt (driver u)) (set_driver d' u)) as (_ & _ & F & _).
      cbn. by rewrite F.
    + generalize (set_desired DesiredStopped (driver u)) as d'. intros d'. destruct (control_fields (activeAttempt (driver u)) (set_driver d' u)) as (_ & _ & F & _).
      cbn. by rewrite F.
    + generalize (beginStop (eNow e) (driver u)) as d'. intros d'. destruct (fence_fields (set_driver d' u)) as (_ & _ & E & _).
      destruct (control_fields (activeAttempt (driver u)) (fenceWithdrawalLocked (set_driver d' u))) as (_ & _ & F & _).
      cbn. by rewrite F, E.
Qed.
Lemma stepOp_tids e b tid k ph u u' : stepOp e b tid k ph u = Some u' -> nextTid u' = nextTid u.
Proof.
  destruct (cancelRetry_fields u) as (_ & _ & _ & _ & _ & Hc & _). destruct ph; cbn [stepOp].
  - by intros [= <-].
  - intros [= <-]. unfold cancelAttempt. destruct (control_fields (activeAttempt (driver u)) u) as (_ & _ & F & _). cbn. by rewrite F.
  - unfold lockOp. destruct (opMu _); [done|]. by intros [= <-].
  - by intros [= <-].
  - intros [= <-]. apply sections_tids.
Qed.
Lemma retireSection_tids e b tid a held gen err u : (nextTid u <= nextTid (retireSection e b tid a held gen err u))%nat.
Proof.
  unfold retireSection. destruct held as [x|]; branch E; [done| |done|done].
  destruct (finishAttempt e b tid (aOp a) 0 (Some x) false u) as [u1 c] eqn:Ef. exact (finishAttempt_tids _ _ _ _ _ _ _ _ _ _ Ef).
Qed.
Lemma stepAttempt_tids e b tid a ph u u' : stepAttempt e b tid a ph u = Some u' -> (nextTid u <= nextTid u')%nat.
Proof.
  destruct ph; cbn [stepAttempt]; try done.
  - intros [= <-]. unfold enterAttempt, endAttempt. branch E; [by destruct (aTask a)|done].
  - by intros [= <-].
  - by intros [= <-].
  - intros [= <-]. by destruct (HoldAdmission _).
  - by intros [= <-].
  - by intros [= <-].
  - intros [= <-]. apply retireSection_tids.
  - by intros [= <-].
  - intros [= <-]. by destruct (Closed _).
  - destruct (finishAttempt e b tid (aOp a) gen err (aReplace a) u) as [u1 c] eqn:Ef. intros [= <-]. exact (finishAttempt_tids _ _ _ _ _ _ _ _ _ _ Ef).
  - intros [= <-]. by destruct (Runtime _) as [k|]; [destruct (binder k)|].
  - intros [= <-]. unfold endAttempt. by destruct (aTask a).
Qed.
Lemma stepRun_tids e b tid th u u' : stepRun e b tid th u = Some u' -> (nextTid u <= nextTid u')%nat.
Proof.
  destruct th as [k ph|op r|a ph|r|r cov|r err|r|op tok dl|op tok|op tok]; cbn [stepRun]; try done.
  - intros H. by rewrite (stepOp_tids _ _ _ _ _ _ _ H).
  - intros [= <-]. by destruct b.
  - apply stepAttempt_tids.
  - by intros [= <-].
  - by intros [= <-].
  - intros [= <-]. by destruct (Closed _).
  - unfold lockOp. destruct (opMu _); [done|]. by intros [= <-].
  - intros [= <-]. unfold retrySection. by branch E.
Qed.
Lemma ReportFailure_tids e b c f u : (nextTid u <= nextTid (ReportFailure e b c f u))%nat.
Proof.
  unfold ReportFailure. branch E; [done|].
  generalize (resetRetryLocked (set_needsReplace true (nextOperationLocked (driver u)))) as d1. intros d1.
  destruct (fence_fields (set_driver d1 u)) as (_ & _ & E3 & _). branch E0; [|cbn; by rewrite E3].
  etransitivity; [|apply schedule_tids]. cbn. by rewrite E3.
Qed.
Lemma ustep_tids b l u u' : ustep b l u = Some u' -> (nextTid u <= nextTid u')%nat.
Proof.
  destruct l as [k|tid e|tid gen err|tid err|tid err|tid due|e c eff r|e c f|h]; cbn [ustep].
  - intros [= <-]. cbn. lia.
  - destruct (threads u !! tid) as [th|]; cbn; [apply stepRun_tids|done].
  - destruct (threads u !! tid) as [[| |a []| | | | | | |]|]; try done. intros [= <-]. by destruct (bool_decide _).
  - destruct (threads u !! tid) as [[| |a []| | | | | | |]|]; try done. by intros [= <-].
  - destruct (threads u !! tid) as [[| |a []| |r covers| | | | |]|]; try done; intros [= <-]; unfold stopReturned; by destruct (releases err).
  - destruct (threads u !! tid) as [[| | | | | | |op token delay| |]|]; try done.
    destruct due; [by intros [= <-]|]. destruct (_ || _); [|done]. by intros [= <-].
  - intros [= <-]. unfold ReportDegradedCorrelated. by branch E.
  - intros [= <-]. apply ReportFailure_tids.
  - intros [= <-]. unfold BindHooks. by destruct (hooksBound _).
Qed.

(** ** The steps of one thread in a run *)

Definition stepsOf (t : nat) (ls : list label) : nat := length (filter (fun l => subject l = Some t) ls).
Definition left_ (u : unit_) (t : nat) : nat := match threads u !! t with Some th => rank th | None => 0 end.
Lemma ustep_left b l u u' t :
  Tok u -> (t < nextTid u)%nat -> ustep b l u = Some u' ->
  (left_ u' t + (if bool_decide (subject l = Some t) then 1 else 0) <= left_ u t)%nat.
Proof.
  intros Htk Hlt Hs. unfold left_. destruct (subject l) as [s|] eqn:Hl.
  - destruct (ustep_move b l u u' s Htk Hs Hl) as (old & Hold & Hm). destruct (decide (s = t)) as [->|Hne].
    + rewrite bool_decide_eq_true_2, Hold by done. assert (0 < rank old)%nat by (destruct old as [? []| |? []| | | | | | |]; cbn; lia).
      destruct Hm as [th -> Hr _| -> _|th th' Hx -> Hr _ _]; rewrite ?lookup_insert_eq, ?lookup_delete_eq; lia.
    + rewrite bool_decide_eq_false_2 by congruence.
      destruct Hm as [th -> Hr _| -> _|th th' Hx -> Hr _ _]; rewrite ?lookup_insert_ne, ?lookup_delete_ne by lia; lia.
  - rewrite bool_decide_eq_false_2 by done. destruct (ustep_spawn b l u u' Hs Hl) as [_ [-> |(th & ->)]]; [lia|].
    rewrite lookup_insert_ne by lia. lia.
Qed.
Lemma run_left now c n b ls u u' t :
  reachable now c n b u -> few (length ls + n) -> (t < nextTid u)%nat -> run b ls u = Some u' ->
  (left_ u' t + stepsOf t ls <= left_ u t)%nat.
Proof.
  revert n u. induction ls as [|l ls IH]; intros n u Hr Hn Hlt; cbn [run].
  - intros [= <-]. unfold stepsOf. cbn. lia.
  - destruct (ustep b l u) as [u1|] eqn:Hs; [|done]. intros Hrun. cbn in Hn.
    destruct (reachable_att _ _ _ _ _ Hr) as [Htk _]; [unfold few in *; lia|].
    pose proof (ustep_left b l u u1 t Htk Hlt Hs) as H1. pose proof (ustep_tids _ _ _ _ Hs).
    assert (H2 : (left_ u' t + stepsOf t ls <= left_ u1 t)%nat).
    { eapply (IH (S n)); [by eapply reach_step|unfold few in *; lia|lia|done]. }
    unfold stepsOf in *. rewrite filter_cons. destruct (decide _) as [E|E];
      [rewrite bool_decide_eq_true_2 in H1 by done; cbn|rewrite bool_decide_eq_false_2 in H1 by done]; lia.
Qed.
Lemma rank_bound th : (rank th <= 40)%nat.
Proof. destruct th as [? []| |? []| | | | | | |]; cbn; lia. Qed.
End DriverTerm.
