(* ===== verification/DriverWorld.v ===== *)
(** * The manager

    [New], the lookups of the manager and [Shutdown] over the drivers of a
    configuration: each driver goes its own way with the steps of
    [DriverManager]; [Shutdown] closes the manager, stops the drivers one
    after the other in the order of their names and waits for the tasks. *)

From stdpp Require Import sorting.
From S2P Require Import Prelude Float64 DriverManager DriverCaps DriverInv DriverLive DriverTerm.

Local Open Scope Z_scope.

Module DriverWorld.
Import DriverManager DriverInv DriverLive DriverTerm.

(** ** State *)

(** Where a call of [Shutdown] is: before the next driver, waiting for the
    stop of one (its thread), waiting for the tasks, returned ([true] is a
    nil error). *)
Inductive shutdownPhase :=
| SNext (ids : list string)
| SStop (id : string) (tid : nat) (ids : list string)
| SWait
| SReturned (ok : bool).
Record Manager := mkManager {
  drivers : gmap string unit_;
  closed : bool;
  shutdowns : gmap nat shutdownPhase;
  nextShutdown : nat
}.

(** ** [New] *)

Inductive newError := ErrNonCanonicalID | ErrDuplicateID (id : string).
(** The loop of [New]; each driver reads the clock. *)
Fixpoint newDrivers (cfgs : list (DriverConfig * time)) (ds : gmap string unit_) : newError + gmap string unit_ :=
  match cfgs with
  | [] => inr ds
  | (c, now) :: cfgs =>
      let id := TrimSpace (ID c) in
      if String.eqb id EmptyString || negb (String.eqb id (ID c)) then inl ErrNonCanonicalID
      else if bool_decide (is_Some (ds !! id)) then inl (ErrDuplicateID id)
      else newDrivers cfgs (<[id := newUnit now c]> ds)
  end.
Definition New (cfgs : list (DriverConfig * time)) : newError + Manager :=
  match newDrivers cfgs ∅ with
  | inl e => inl e
  | inr ds => inr (mkManager ds false ∅ 0)
  end.

(** ** Lookups *)

Definition SnapshotOf (id : string) (m : Manager) : option Snapshot := snapshotLocked ∘ driver <$> drivers m !! id.
Definition InvokeOf (id : string) (cap : Capability) (m : Manager) : invocation :=
  match drivers m !! id with
  | Some u => Invoke (closed m) cap u
  | None => Refused (mkCorr 0 0)
  end.

(** ** Steps *)

Definition onUnit (id : string) (u : unit_) (m : Manager) : Manager :=
  mkManager (<[id := u]> (drivers m)) (closed m) (shutdowns m) (nextShutdown m).
Definition setShutdown (s : nat) (ph : shutdownPhase) (m : Manager) : Manager :=
  mkManager (drivers m) (closed m) (<[s := ph]> (shutdowns m)) (nextShutdown m).

(** The goroutines that [beginTask] counts. *)
Definition isTask (th : thread) : bool :=
  match th with
  | TAttempt a _ => aTask a
  | TRetry _ _ _ | TRetryLock _ _ | TRetrySection _ _ => true
  | _ => false
  end.
Definition idle (m : Manager) : bool :=
  bool_decide (map_Forall (fun _ u => map_Forall (fun _ th => isTask th = false) (threads u)) (drivers m)).

Inductive mlabel :=
| MDriver (id : string) (l : label)
| MShutdown
| MShut (s : nat)
| MTimeout (s : nat).
Definition external (l : label) : bool := match l with LCall (KStop true) => false | _ => true end.

Definition beginShutdown (m : Manager) : Manager :=
  let ids := merge_sort capLe (elements (dom (drivers m))) in
  mkManager (drivers m) true (<[nextShutdown m := SNext ids]> (shutdowns m)) (S (nextShutdown m)).
Definition stepShutdown (s : nat) (m : Manager) : option Manager :=
  match shutdowns m !! s with
  | Some (SNext (id :: ids)) =>
      u ← drivers m !! id;
      u' ← ustep (closed m) (LCall (KStop true)) u;
      Some (setShutdown s (SStop id (nextTid u) ids) (onUnit id u' m))
  | Some (SNext []) => Some (setShutdown s SWait m)
  | Some (SStop id tid ids) =>
      u ← drivers m !! id;
      if bool_decide (threads u !! tid = None) then Some (setShutdown s (SNext ids) m) else None
  | Some SWait => if idle m then Some (setShutdown s (SReturned true) m) else None
  | _ => None
  end.
Definition mstep (l : mlabel) (m : Manager) : option Manager :=
  match l with
  | MDriver id l =>
      if external l then
        u ← drivers m !! id;
        u' ← ustep (closed m) l u;
        Some (onUnit id u' m)
      else None
  | MShutdown => Some (beginShutdown m)
  | MShut s => stepShutdown s m
  | MTimeout s =>
      match shutdowns m !! s with
      | Some SWait => Some (setShutdown s (SReturned false) m)
      | _ => None
      end
  end.

Inductive mreachable (cfgs : list (DriverConfig * time)) : nat -> Manager -> Prop :=
| mreach_new m : New cfgs = inr m -> mreachable cfgs 0 m
| mreach_step n l m m' : mreachable cfgs n m -> mstep l m = Some m' -> mreachable cfgs (S n) m'.
Fixpoint mrun (ls : list mlabel) (m : Manager) : option Manager :=
  match ls with
  | [] => Some m
  | l :: ls => m ← mstep l m; mrun ls m
  end.
Lemma mrun_reachable cfgs n ls m m' : mreachable cfgs n m -> mrun ls m = Some m' -> mreachable cfgs (length ls + n) m'.
Proof.
  revert n m. induction ls as [|l ls IH]; intros n m Hr; cbn; [by intros [= <-]|].
  destruct (mstep l m) as [m1|] eqn:Hs; cbn; [|done]. intros Hrun.
  replace (S (length ls + n)) with (length ls + S n)%nat by lia. eapply IH; [|done]. by eapply mreach_step.
Qed.

(** ** Each driver runs by its own steps *)

Lemma newDrivers_lookup cfgs ds ds' id u :
  newDrivers cfgs ds = inr ds' -> ds' !! id = Some u ->
  ds !! id = Some u \/ exists c now, (c, now) ∈ cfgs /\ ID c = id /\ u = newUnit now c.
Proof.
  revert ds. induction cfgs as [|[c now] cfgs IH]; intros ds; cbn; [intros [= <-]; auto|].
  destruct (_ || _) eqn:E; [done|]. apply orb_false_iff in E as [_ E]. apply negb_false_iff, String.eqb_eq in E.
  case_bool_decide; [done|]. intros Hn Hu. destruct (IH _ Hn Hu) as [H1|(c' & now' & H1 & H2)].
  - apply lookup_insert_Some in H1 as [[<- <-]|[_ ?]]; [|auto]. right. exists c, now. split; [by left|]. by rewrite E.
  - right. exists c', now'. split; [by right|done].
Qed.

Lemma mreachable_unit cfgs n m id u :
  mreachable cfgs n m -> drivers m !! id = Some u ->
  exists c now k, (c, now) ∈ cfgs /\ ID c = id /\ (k <= n)%nat /\ reachable now c k (closed m) u.
Proof.
  intros Hr. revert id u. induction Hr as [m Hn|n l m m' Hr IH Hs]; intros id u Hu.
  - unfold New in Hn. destruct (newDrivers cfgs ∅) as [|ds] eqn:E; [done|]. injection Hn as <-. cbn in Hu.
    destruct (newDrivers_lookup _ _ _ _ _ E Hu) as [?|(c & now & ? & ? & ->)]; [done|].
    exists c, now, 0%nat. split_and!; try done. apply reach_new.
  - assert (Hkeep : forall v, drivers m !! id = Some v -> closed m' = closed m -> v = u ->
      exists c now k, (c, now) ∈ cfgs /\ ID c = id /\ (k <= S n)%nat /\ reachable now c k (closed m') u).
    { intros v Hv Hc ->. destruct (IH id u Hv) as (c & now & k & ? & ? & ? & ?). exists c, now, k. rewrite Hc. split_and!; try done. lia. }
    assert (Hstep : forall id' v l' v', drivers m !! id' = Some v -> ustep (closed m) l' v = Some v' -> closed m' = closed m ->
      drivers m' = <[id' := v']> (drivers m) -> exists c now k, (c, now) ∈ cfgs /\ ID c = id /\ (k <= S n)%nat /\ reachable now c k (closed m') u).
    { intros id' v l' v' Hv Hst Hc Hd. rewrite Hd in Hu. apply lookup_insert_Some in Hu as [[-> ->]|[_ Hu]]; [|by eapply Hkeep].
      destruct (IH id v Hv) as (c & now & k & ? & ? & ? & ?). exists c, now, (S k). rewrite Hc. split_and!; try done; [lia|]. by eapply reach_step. }
    destruct l as [id' l| |s|s]; cbn [mstep] in Hs.
    + destruct (external l); [|done]. destruct (drivers m !! id') as [v|] eqn:Hv; cbn in Hs; [|done].
      destruct (ustep (closed m) l v) as [v'|] eqn:Hst; cbn in Hs; [|done]. injection Hs as <-. by eapply Hstep.
    + injection Hs as <-. cbn in *. destruct (IH id u Hu) as (c & now & k & ? & ? & ? & ?). exists c, now, k.
      split_and!; try done; [lia|]. by eapply reach_close.
    + unfold stepShutdown in Hs. destruct (shutdowns m !! s) as [[[|id' ids]|id' tid ids| |]|]; try done.
      * injection Hs as <-. by eapply Hkeep.
      * destruct (drivers m !! id') as [v|] eqn:Hv; cbn [mbind option_bind] in Hs; [|done].
        destruct (ustep (closed m) (LCall (KStop true)) v) as [v'|] eqn:Hst; cbn [mbind option_bind] in Hs; [|done].
        injection Hs as <-. by eapply Hstep.
      * destruct (drivers m !! id') as [v|] eqn:Hv; cbn in Hs; [|done]. case_bool_decide; [|done]. injection Hs as <-. by eapply Hkeep.
      * destruct (idle m); [|done]. injection Hs as <-. by eapply Hkeep.
    + destruct (shutdowns m !! s) as [[| | |]|]; try done. injection Hs as <-. by eapply Hkeep.
Qed.

(** ** A closed manager comes to rest *)

(** What a step of a closed manager may not do: want a driver that is not
    wanted, start a task. *)
Definition taskFree (u : unit_) : Prop := forall t th, threads u !! t = Some th -> isTask th = false.
Record quiesces (u u' : unit_) : Prop := {
  q_desired : desired (driver u) = DesiredStopped -> desired (driver u') = DesiredStopped;
  q_tasks : taskFree u -> taskFree u'
}.
Lemma q_goto u u' tid old th :
  threads u !! tid = Some old -> threads u' = <[tid := th]> (threads u) -> (isTask th = true -> isTask old = true) ->
  desired (driver u') = desired (driver u) \/ desired (driver u') = DesiredStopped -> quiesces u u'.
Proof.
  intros Hold Ht Hk Hd. split; [destruct Hd; congruence|]. intros Hf t th'. rewrite Ht, lookup_insert_Some.
  intros [[<- <-]|[_ ?]]; [|by eapply Hf]. apply not_true_iff_false. intros E. specialize (Hk E). rewrite (Hf tid old Hold) in Hk. done.
Qed.
Lemma q_exit u u' tid :
  threads u' = delete tid (threads u) -> desired (driver u') = desired (driver u) -> quiesces u u'.
Proof. intros Ht Hd. split; [congruence|]. intros Hf t th'. rewrite Ht, lookup_delete_Some. intros [_ ?]. by eapply Hf. Qed.
Lemma q_same u u' : threads u' = threads u -> desired (driver u') = desired (driver u) -> quiesces u u'.
Proof. intros Ht Hd. split; [congruence|]. intros Hf t th'. rewrite Ht. by apply Hf. Qed.

Lemma cancelRetry_q tid old k ph u :
  threads u !! tid = Some old -> quiesces u (goto tid (TOp k ph) (cancelRetry u)).
Proof.
  intros Hold. destruct (cancelRetry_fields u) as (Hc & _ & _ & _ & Ht & _). revert Hc Ht. cbv zeta. generalize (cancelRetry u) as u1.
  intros u1 Hc Ht. unfold core in Hc. eapply q_goto; [done|cbn; by rewrite Ht|done|left; cbn; congruence].
Qed.
Lemma stopSection_desired e tid u : desired (driver (stopSection e tid u)) = DesiredStopped.
Proof.
  unfold stopSection. branch E1; [|branch E2].
  - assert (H : desired (stopQuarantined (eNow e) (driver u)) = DesiredStopped).
    { unfold stopQuarantined. case_bool_decide; done. }
    revert H. generalize (stopQuarantined (eNow e) (driver u)) as d'. intros d' H.
    destruct (control_fields (activeAttempt (driver u)) (set_driver d' u)) as (F & _). cbn. by rewrite F.
  - destruct (control_fields (activeAttempt (driver u)) (set_driver (set_desired DesiredStopped (driver u)) u)) as (F & _).
    cbn. by rewrite F.
  - assert (H : desired (beginStop (eNow e) (driver u)) = DesiredStopped) by done. revert H.
    generalize (beginStop (eNow e) (driver u)) as d'. intros d' H. destruct (fence_fields (set_driver d' u)) as (G & _).
    destruct (control_fields (activeAttempt (driver u)) (fenceWithdrawalLocked (set_driver d' u))) as (F & _). cbn. by rewrite F, G.
Qed.
Lemma stopSection_q e tid old u : threads u !! tid = Some old -> quiesces u (stopSection e tid u).
Proof.
  intros Hold. pose proof (stopSection_desired e tid u) as Hd. revert Hd. unfold stopSection. branch E1; [|branch E2].
  - generalize (stopQuarantined (eNow e) (driver u)) as d'. intros d' Hd.
    destruct (control_fields (activeAttempt (driver u)) (set_driver d' u)) as (_ & F & _).
    eapply q_goto; [done|cbn; by rewrite F|done|by right].
  - intros Hd. destruct (control_fields (activeAttempt (driver u)) (set_driver (set_desired DesiredStopped (driver u)) u)) as (_ & F & _).
    eapply q_goto; [done|cbn; by rewrite F|done|by right].
  - generalize (beginStop (eNow e) (driver u)) as d'. intros d' Hd. destruct (fence_fields (set_driver d' u)) as (_ & G & _).
    destruct (control_fields (activeAttempt (driver u)) (fenceWithdrawalLocked (set_driver d' u))) as (_ & F & _).
    eapply q_goto; [done|cbn; by rewrite F, G|by destruct (Runtime _)|by right].
Qed.
Lemma stepOp_q e tid k ph u u' :
  threads u !! tid = Some (TOp k ph) -> stepOp e true tid k ph u = Some u' -> quiesces u u'.
Proof.
  intros Hold. destruct ph; cbn [stepOp].
  - intros [= <-]. by eapply cancelRetry_q.
  - intros [= <-]. destruct (control_fields (activeAttempt (driver u)) u) as (F1 & F2 & _). unfold cancelAttempt.
    eapply q_goto; [done|cbn; by rewrite F2|done|left; cbn; by rewrite F1].
  - unfold lockOp. destruct (opMu _); [done|]. intros [= <-]. eapply q_goto; [done|done|done|by left].
  - intros [= <-]. by eapply cancelRetry_q.
  - intros [= <-]. destruct k; [by eapply q_exit|by eapply q_exit|by eapply stopSection_q].
Qed.
Lemma finishAttempt_closed e tid op gen err replace u :
  finishAttempt e true tid op gen err replace u = (set_driver (dropControl tid (driver u)) u, None).
Proof. done. Qed.
Lemma stepAttempt_q e tid a ph u u' :
  threads u !! tid = Some (TAttempt a ph) -> stepAttempt e true tid a ph u = Some u' -> quiesces u u'.
Proof.
  intros Hold. destruct (dropControl_fields tid (driver u)) as (_ & _ & _ & D & _).
  destruct ph; cbn [stepAttempt]; try done; rewrite ?finishAttempt_closed; intros [= <-].
  - unfold enterAttempt, endAttempt. branch E; [destruct (aTask a); by eapply q_exit|]. eapply q_goto; [done|done|done|by left].
  - eapply q_goto; [done|done|done|by left].
  - eapply q_goto; [done|done|done|by left].
  - destruct (HoldAdmission _); (eapply q_goto; [done|done|done|by left]).
  - eapply q_goto; [done|done|done|by left].
  - eapply q_goto; [done|done|done|by left].
  - unfold retireSection. destruct held as [x|]; branch E; rewrite ?finishAttempt_closed; (eapply q_goto; [done|done|done|by left]).
  - eapply q_goto; [done|done|done|by left].
  - destruct (Closed _); (eapply q_goto; [done|done|done|by left]).
  - eapply q_goto; [done|done|done|by left].
  - destruct (Runtime _) as [k|]; [destruct (binder k)|]; (eapply q_goto; [done|done|done|by left]).
  - unfold endAttempt. destruct (aTask a); by eapply q_exit.
Qed.
Lemma stepRun_q e tid th u u' : threads u !! tid = Some th -> stepRun e true tid th u = Some u' -> quiesces u u'.
Proof.
  intros Hold. destruct th as [k ph|op r|a ph|r|r cov|r err|r|op tok dl|op tok|op tok]; cbn [stepRun]; try done.
  - by apply stepOp_q.
  - intros [= <-]. by eapply q_exit.
  - by apply stepAttempt_q.
  - intros [= <-]. eapply q_goto; [done|done|done|by left].
  - intros [= <-]. unfold stopFinish. destruct (endStop_fields e err (driver u)) as (_ & _ & _ & _ & _ & _ & F & _). revert F. cbv zeta.
    generalize (endStop e err (driver u)) as d'. intros d' F. eapply q_goto; [done|done|done|by left].
  - intros [= <-]. destruct (Closed _); by eapply q_exit.
  - unfold lockOp. destruct (opMu _); [done|]. intros [= <-]. eapply q_goto; [done|done|done|by left].
  - intros [= <-]. by eapply q_exit.
Qed.
Lemma ustep_q l u u' : Tok u -> ustep true l u = Some u' -> quiesces u u'.
Proof.
  intros Htk. destruct l as [k|tid e|tid gen err|tid err|tid err|tid due|e c eff r|e c f|h]; cbn [ustep].
  - intros [= <-]. split; [done|]. intros Hf t th. cbn. rewrite lookup_insert_Some. intros [[_ <-]|[_ ?]]; [done|by eapply Hf].
  - destruct (threads u !! tid) as [th|] eqn:Hold; cbn; [by apply stepRun_q|done].
  - destruct (threads u !! tid) as [[| |a []| | | | | | |]|] eqn:Hold; try done. intros [= <-].
    destruct (bool_decide _); (eapply q_goto; [done|done|done|by left]).
  - destruct (threads u !! tid) as [[| |a []| | | | | | |]|] eqn:Hold; try done. intros [= <-]. eapply q_goto; [done|done|done|by left].
  - destruct (threads u !! tid) as [[| |a []| |r covers| | | | |]|] eqn:Hold; try done; intros [= <-]; unfold stopReturned;
      destruct (releases err); (eapply q_goto; [done|done|done|by left]).
  - destruct (threads u !! tid) as [[| | | | | | |op token delay| |]|] eqn:Hold; try done.
    destruct due; [intros [= <-]; eapply q_goto; [done|done|done|by left]|]. intros [= <-]. by eapply q_exit.
  - intros [= <-]. by apply q_same.
  - intros [= <-]. by apply q_same.
  - intros [= <-]. unfold BindHooks. destruct (hooksBound _); by apply q_same.
Qed.

(** ** The stop of a shutdown *)

(** A stop that has not reached its section yet, or the driver is not
    wanted. *)
Definition stopDue (u : unit_) (tid : nat) : Prop :=
  (exists k ph, threads u !! tid = Some (TOp (KStop k) ph)) \/ desired (driver u) = DesiredStopped.
Lemma stop_due l u u' tid :
  Tok u -> (tid < nextTid u)%nat -> ustep true l u = Some u' -> stopDue u tid -> stopDue u' tid.
Proof.
  intros Htk Hlt Hs [(k & ph & Hth)|Hd]; [|right; by apply (q_desired _ _ (ustep_q l u u' Htk Hs))].
  destruct (subject l) as [t|] eqn:Hl.
  - destruct (decide (t = tid)) as [->|Hne].
    + destruct l as [k'|t e|t gen err|t err|t err|t due|e c eff r|e c f|h]; try done; injection Hl as ->;
        cbn [ustep] in Hs; rewrite Hth in Hs; try done.
      cbn [mbind option_bind stepRun] in Hs. destruct ph; cbn [stepOp] in Hs.
      * injection Hs as <-. left. cbn [threads goto set_threads]. eexists _, _. by rewrite lookup_insert_eq.
      * injection Hs as <-. left. cbn [threads goto set_threads]. eexists _, _. by rewrite lookup_insert_eq.
      * unfold lockOp in Hs. destruct (opMu _); [done|]. injection Hs as <-. left. eexists _, _. cbn. by rewrite lookup_insert_eq.
      * injection Hs as <-. left. cbn [threads goto set_threads]. eexists _, _. by rewrite lookup_insert_eq.
      * injection Hs as <-. right. apply stopSection_desired.
    + destruct (ustep_move _ l u u' t Htk Hs Hl) as (old & Hold & Hm). left. exists k, ph.
      destruct Hm as [th -> _ _| -> _|th th' Hx -> _ _ _]; rewrite ?lookup_insert_ne, ?lookup_delete_ne by lia; done.
  - left. exists k, ph. destruct (ustep_spawn _ l u u' Hs Hl) as [_ [-> |(th & ->)]]; [done|]. by rewrite lookup_insert_ne by lia.
Qed.

(** ** Shutdown *)

(** The drivers a shutdown has yet to stop. *)
Definition pending (ph : shutdownPhase) : list string :=
  match ph with SNext ids => ids | SStop id _ ids => id :: ids | SWait | SReturned _ => [] end.
Record ShInv (m : Manager) (ph : shutdownPhase) : Prop := {
  sh_closed : closed m = true;
  sh_stopped : forall id u, drivers m !! id = Some u -> id ∉ pending ph -> desired (driver u) = DesiredStopped;
  sh_due : forall id tid ids u, ph = SStop id tid ids -> drivers m !! id = Some u -> (tid < nextTid u)%nat /\ stopDue u tid;
  sh_tasks : ph = SReturned true -> forall id u, drivers m !! id = Some u -> taskFree u
}.

Lemma mreachable_tok cfgs n m id u : mreachable cfgs n m -> few n -> drivers m !! id = Some u -> Tok u.
Proof.
  intros Hr Hn Hu. destruct (mreachable_unit _ _ _ _ _ Hr Hu) as (c & now & k & _ & _ & Hk & Hru).
  apply (reachable_att _ _ _ _ _ Hru). unfold few in *. lia.
Qed.
Lemma sh_driver cfgs n m id u u' l ph :
  mreachable cfgs n m -> few n -> drivers m !! id = Some u -> ustep (closed m) l u = Some u' -> ShInv m ph -> ShInv (onUnit id u' m) ph.
Proof.
  intros Hr Hn Hu Hs [H1 H2 H3 H4]. pose proof (mreachable_tok _ _ _ _ _ Hr Hn Hu) as Htk. rewrite H1 in Hs.
  pose proof (ustep_q l u u' Htk Hs) as [Hq1 Hq2]. split; [done|..]; cbn [drivers onUnit].
  - intros id' v. rewrite lookup_insert_Some. intros [[<- <-]|[_ Hv]] Hp; [|by eapply H2]. apply Hq1. by eapply H2.
  - intros id' tid ids v E. rewrite lookup_insert_Some. intros [[<- <-]|[_ Hv]]; [|by eapply H3]. destruct (H3 id tid ids u E Hu) as [Hlt Hdue].
    split; [|by eapply stop_due]. pose proof (ustep_tids _ _ _ _ Hs). lia.
  - intros E id' v. rewrite lookup_insert_Some. intros [[<- <-]|[_ Hv]]; [|by eapply (H4 E)]. apply Hq2. by eapply (H4 E).
Qed.
Lemma sh_same m m' ph : drivers m' = drivers m -> closed m' = closed m -> ShInv m ph -> ShInv m' ph.
Proof. intros Hd Hc [H1 H2 H3 H4]. split; rewrite ?Hd, ?Hc; done. Qed.
Lemma idle_free m id u : idle m = true -> drivers m !! id = Some u -> taskFree u.
Proof. intros Hi Hu t th Hth. apply bool_decide_eq_true in Hi. exact (Hi id u Hu t th Hth). Qed.

Lemma sh_step cfgs n m m' s ph :
  mreachable cfgs n m -> few n -> stepShutdown s m = Some m' -> shutdowns m !! s = Some ph -> ShInv m ph ->
  exists ph', shutdowns m' = <[s := ph']> (shutdowns m) /\ ShInv m' ph' /\ closed m' = closed m /\
    (drivers m' = drivers m \/ exists id u u' l, drivers m !! id = Some u /\ ustep (closed m) l u = Some u' /\ drivers m' = <[id := u']> (drivers m)).
Proof.
  intros Hr Hn Hs Hph Hi. unfold stepShutdown in Hs. rewrite Hph in Hs. destruct ph as [[|id ids]|id tid ids| |]; try done.
  - injection Hs as <-. exists SWait. split_and!; try done; [|by left]. destruct Hi. split; try done.
  - destruct (drivers m !! id) as [u|] eqn:Hu; cbn [mbind option_bind] in Hs; [|done].
    destruct (ustep (closed m) (LCall (KStop true)) u) as [u'|] eqn:Hst; cbn [mbind option_bind] in Hs; [|done].
    injection Hs as <-. exists (SStop id (nextTid u) ids). pose proof (sh_driver _ _ _ _ _ _ _ _ Hr Hn Hu Hst Hi) as [S1 S2 S3 S4].
    split_and!; try done; [|by right; exists id, u, u', (LCall (KStop true))]. split; try done. cbn [drivers setShutdown onUnit].
    intros id' tid' ids' v [= <- <- <-]. rewrite lookup_insert_eq. intros [= <-]. cbn [ustep] in Hst. injection Hst as <-.
    split; [cbn; lia|]. left. exists true, PCancel. exact (lookup_insert_eq (threads u) (nextTid u) _).
  - destruct (drivers m !! id) as [u|] eqn:Hu; cbn in Hs; [|done]. case_bool_decide as Hg; [|done]. injection Hs as <-.
    exists (SNext ids). split_and!; try done; [|by left]. destruct Hi as [S1 S2 S3 S4]. split; try done. cbn.
    intros id' v Hv Hp. destruct (decide (id' = id)) as [->|Hne]; [|apply (S2 id' v Hv); set_solver].
    rewrite Hu in Hv. injection Hv as <-. destruct (S3 id tid ids u eq_refl Hu) as [_ [(k & ph & Hth)|?]]; [congruence|done].
  - destruct (idle m) eqn:Hid; [|done]. injection Hs as <-. exists (SReturned true). split_and!; try done; [|by left].
    destruct Hi as [S1 S2 S3 S4]. split; try done. intros _ id u Hu. by eapply idle_free.
Qed.

Lemma beginShutdown_inv m : ShInv (beginShutdown m) (SNext (merge_sort capLe (elements (dom (drivers m))))).
Proof.
  split; try done. cbn. intros id u Hu Hp. exfalso. apply Hp. rewrite merge_sort_Permutation.
  apply elem_of_elements, elem_of_dom. by exists u.
Qed.

Lemma mreachable_shutdown cfgs n m s ph : mreachable cfgs n m -> few n -> shutdowns m !! s = Some ph -> ShInv m ph.
Proof.
  intros Hr. revert s ph. induction Hr as [m Hnew|n l m m' Hr IH Hs]; intros s ph Hn Hph.
  - unfold New in Hnew. destruct (newDrivers cfgs ∅); [done|]. by injection Hnew as <-.
  - assert (Hn' : few n) by (unfold few in *; lia). pose proof (fun s ph => IH s ph Hn') as IH'. clear IH.
    destruct l as [id l| |s'|s']; cbn [mstep] in Hs.
    + destruct (external l); [|done]. destruct (drivers m !! id) as [u|] eqn:Hu; cbn in Hs; [|done].
      destruct (ustep (closed m) l u) as [u'|] eqn:Hst; cbn in Hs; [|done]. injection Hs as <-.
      by eapply sh_driver; [..|by eapply IH'].
    + injection Hs as <-. revert Hph. cbn. rewrite lookup_insert_Some. intros [[_ <-]|[_ Hph]]; [apply beginShutdown_inv|].
      specialize (IH' s ph Hph) as [S1 S2 S3 S4]. by split.
    + destruct (shutdowns m !! s') as [ph0|] eqn:E; [|unfold stepShutdown in Hs; by rewrite E in Hs].
      destruct (sh_step _ _ _ _ _ _ Hr Hn' Hs E (IH' _ _ E)) as (ph' & Hsh & Hi & Hc & Hd). rewrite Hsh in Hph.
      apply lookup_insert_Some in Hph as [[_ <-]|[_ Hph]]; [done|].
      destruct Hd as [Hd|(id & u & u' & l & Hu & Hst & Hd)]; [apply (sh_same m); [done..|by eapply IH']|].
      apply (sh_same (onUnit id u' m)); [done..|]. eapply sh_driver; [done|done|done|done|by eapply IH'].
    + destruct (shutdowns m !! s') as [[| | |]|] eqn:E; try done. injection Hs as <-. revert Hph. cbn. rewrite lookup_insert_Some.
      intros [[_ <-]|[_ Hph]]; [|apply (sh_same m); [done..|by eapply IH']]. destruct (IH' _ _ E) as [S1 S2 S3 S4]. by split.
Qed.
End DriverWorld.
