(* ===== verification/DriverSpec.v ===== *)
(** * What the driver manager guarantees

    For every run of a driver, whatever the runtime, the hooks, the clock
    and the callers do: who may use it, what a stopped driver leaves behind,
    that no state is left without a thread that moves it on, that every call
    ends, that a quarantine is final, how retries are scheduled and what a
    shutdown leaves.  The hypothesis [few] says that no 64-bit counter comes
    round. *)

From S2P Require Import Prelude Float64 DriverManager DriverCaps DriverInv DriverLive DriverOpen DriverRetry DriverTerm DriverWorld.

Local Open Scope Z_scope.

Module DriverSpec.
Import DriverManager DriverCaps DriverInv DriverLive DriverOpen DriverRetry DriverTerm DriverWorld.

(** ** Example runs *)

Definition exRuntime : RuntimeKind := mkRuntime true true true true.
Definition exPolicy : RetryPolicy := mkPolicy 2 second (30 * second) (Float64.ratio 1 5) (mkPersistent false 0 0).
Definition exConfig : DriverConfig :=
  mkConfig "ebus" true (Some exRuntime) ["WRITE"; "READ"; "JUNK"]
    (Some (fun _ => mkFailure (mkReason ReasonDependencyUnavailable true) (mkDetail "TIMEOUT" "dial"))) exPolicy (mkHooks false true).
Definition exEnv : env := mkEnv 100 100 (fun limit => limit) false false.
Definition go (t : nat) (n : nat) : list label := repeat (LRun t exEnv) n.
Definition exRun (ls : list label) : unit_ := default (newUnit 0 exConfig) (run false ls (newUnit 0 exConfig)).
Lemma exRun_reachable ls : run false ls (newUnit 0 exConfig) = Some (exRun ls) -> reachable 0 exConfig (length ls) false (exRun ls).
Proof. intros H. rewrite <- (Nat.add_0_r (length ls)). eapply driver_run_reachable; [apply reach_new|done]. Qed.
(** A start that runs; the report of a degraded provider; a stop that is
    proven; a start that fails; a stop that is not proven. *)
Definition starts : list label := LCall (KStart false) :: go 0 6 ++ [LBuilt 0 7 None] ++ go 0 5.
Definition degrades : list label := starts ++ [LDegraded exEnv (mkCorr 7 0) ["READ"] (because ReasonCapabilityDegraded)].
Definition stops (err : option error) : list label :=
  starts ++ LCall (KStop false) :: go 1 5 ++ [LStopped 1 err] ++ go 1 2.
Definition fails : list label := LCall (KStart false) :: go 0 6 ++ [LBuilt 0 0 (Some (mkError false false false "dial"))] ++ go 0 2.
Definition unproven : error := mkError true false false "quarantined".
Example run_states :
  (observed (driver (exRun starts)), effective (driver (exRun starts)), observed (driver (exRun degrades)),
   observed (driver (exRun (stops None))), opened (exRun (stops None)), observed (driver (exRun fails)),
   quarantined (driver (exRun (stops (Some unproven))))) =
  (ObservedRunning, ["READ"; "WRITE"], ObservedDegraded, ObservedStopped, ∅, ObservedBackoff, true).
Proof. vm_compute. reflexivity. Qed.

(** ** Who may use a driver *)

Lemma caps_cfg now c n b u : reachable now c n b u -> few n -> Capabilities (cfg (driver u)) = normalizeCapabilities (Capabilities c).
Proof. intros Hr Hn. by rewrite (reachable_cfg _ _ _ _ _ Hr Hn). Qed.
Lemma effective_sorted now c n b u cap :
  reachable now c n b u -> few n -> containsCapability (effective (driver u)) cap = true <-> cap ∈ effective (driver u).
Proof.
  intros Hr Hn. apply containsCapability_elem. pose proof (di_cap _ _ (inv_d _ _ _ (driver_reachable_inv _ _ _ _ _ Hr Hn))) as Hc.
  pose proof (caps_cfg _ _ _ _ _ Hr Hn) as Hcf. unfold CapInv in Hc. destruct (observed (driver u));
    try (rewrite Hc; first [rewrite Hcf; apply normalizeCapabilities_sorted | constructor]).
  destruct Hc as (_ & _ & _ & ->). apply normalizeCapabilities_sorted.
Qed.

(** C6: a call is admitted to the provider exactly when the manager is
    open, the driver is wanted, has a runtime that admits, is not
    quarantined, and either runs with a configured valid capability or is
    degraded and still has that one; a degraded driver keeps some of its
    configured capabilities and not all of them. *)
Theorem admission_exact now c n b u cap :
  reachable now c n b u -> few n ->
  let d := driver u in
  (Invoke b cap u = Admits <->
   b = false /\ desired d = DesiredRunning /\ quarantined d = false /\ activeOperation d = 0 /\
   (exists k, Runtime c = Some k /\ admitting k = true) /\
   (observed d = ObservedRunning /\ cap ∈ Capabilities c /\ validCapability cap = true \/
    observed d = ObservedDegraded /\ cap ∈ effective d)) /\
  (observed d = ObservedDegraded ->
   effective d <> [] /\ (length (effective d) < length (normalizeCapabilities (Capabilities c)))%nat /\
   forall x, x ∈ effective d -> x ∈ Capabilities c /\ validCapability x = true).
Proof.
  intros Hr Hn. cbv zeta. pose proof (inv_d _ _ _ (driver_reachable_inv _ _ _ _ _ Hr Hn)) as [_ _ _ _ Hs Hc].
  pose proof (caps_cfg _ _ _ _ _ Hr Hn) as Hcf. assert (Hrt : Runtime (cfg (driver u)) = Runtime c) by (by rewrite (reachable_cfg _ _ _ _ _ Hr Hn)).
  pose proof (effective_sorted _ _ _ _ _ cap Hr Hn) as Hel.  unfold CapInv in Hc. rewrite Hcf in Hc. split.
  - unfold Invoke. rewrite Hrt. split.
    + destruct b; [done|]. destruct (_ || _) eqn:E; [done|]. apply orb_false_iff in E as [E Eq]. apply negb_false_iff, Hel in E.
      destruct (Runtime c) as [k|]; [|done]. destruct (admitting k) eqn:Ea; [|done]. intros _.
      unfold SInv in Hs. destruct (observed (driver u)) eqn:Eo; try (rewrite Hc in E; by apply elem_of_nil in E).
      * rewrite Hc, elem_of_normalizeCapabilities in E. naive_solver.
      * naive_solver.
    + intros (-> & _ & Hq & _ & (k & -> & ->) & Hcap). rewrite Hq, orb_false_r. assert (Hin : cap ∈ effective (driver u)).
      { destruct Hcap as [(Eo & H1 & H2)|[_ ?]]; [|done]. rewrite Eo in Hc. rewrite Hc. by apply elem_of_normalizeCapabilities. }
      apply Hel in Hin. by rewrite Hin.
  - intros Eo. rewrite Eo in Hc. destruct Hc as (H1 & H2 & H3 & _). split_and!; try done. intros x Hx. by apply elem_of_normalizeCapabilities, H3.
Qed.
Lemma admission_exact_witness :
  Invoke false "WRITE" (exRun starts) = Admits /\ Invoke false "WRITE" (exRun degrades) <> Admits.
Proof.
  assert (H1 : reachable 0 exConfig (length starts) false (exRun starts)) by (apply exRun_reachable; vm_compute; reflexivity).
  assert (H2 : reachable 0 exConfig (length degrades) false (exRun degrades)) by (apply exRun_reachable; vm_compute; reflexivity).
  split.
  - apply (admission_exact 0 exConfig (length starts) false (exRun starts) "WRITE" H1); [vm_compute; reflexivity|].
    split_and!; [vm_compute; reflexivity..|by exists exRuntime|left; split_and!; vm_compute; [reflexivity|by left|reflexivity]].
  - intros H. apply (admission_exact 0 exConfig (length degrades) false (exRun degrades) "WRITE" H2) in H; [|vm_compute; reflexivity].
    destruct H as (_ & _ & _ & _ & _ & [[H _]|[_ H]]); [vm_compute in H; discriminate|].
    replace (effective (driver (exRun degrades))) with ["READ"] in H by (vm_compute; reflexivity).
    apply list_elem_of_singleton in H. discriminate.
Defined.

(** ** Constructions and closes *)

Lemma holder_handle n d ths t a ph :
  Inv n d ths -> ths !! t = Some (TAttempt a ph) -> holdingPhase ph = true -> activeAttempt d = Some t.
Proof. intros Hi Hth Hh. pose proof (inv_t _ _ _ Hi _ _ Hth) as H. destruct ph; try done; apply (H eq_refl). Qed.

(** C18: at most one attempt is between its entry and the moment it gives
    its handle back, and the handle names it; a stop that is under way holds
    [opMu]; a driver that serves has no attempt and no stop under way and no
    operation. *)
Theorem driver_single_flight now c n b u :
  reachable now c n b u -> few n ->
  (forall t1 t2 a1 a2 ph1 ph2, threads u !! t1 = Some (TAttempt a1 ph1) -> threads u !! t2 = Some (TAttempt a2 ph2) ->
     holdingPhase ph1 = true -> holdingPhase ph2 = true -> t1 = t2 /\ activeAttempt (driver u) = Some t1) /\
  (forall t th, threads u !! t = Some th -> stopping th = true -> opMu (driver u) = Some t) /\
  (stable (observed (driver u)) = true -> activeOperation (driver u) = 0 /\
     forall t th, threads u !! t = Some th -> stopping th = false /\ forall a ph, th = TAttempt a ph -> holdingPhase ph = false).
Proof.
  intros Hr Hn. pose proof (driver_reachable_inv _ _ _ _ _ Hr Hn) as Hi. split_and!.
  - intros t1 t2 a1 a2 ph1 ph2 H1 H2 P1 P2. pose proof (holder_handle _ _ _ _ _ _ Hi H1 P1) as E1.
    pose proof (holder_handle _ _ _ _ _ _ Hi H2 P2) as E2. split; [congruence|done].
  - intros t th Hth. by apply stopping_opMu, (inv_t _ _ _ Hi).
  - intros Hst. pose proof (di_state _ _ (inv_d _ _ _ Hi)) as Hs. unfold SInv in Hs.
    assert (Hx : activeOperation (driver u) = 0 /\ desired (driver u) = DesiredRunning /\ activeAttempt (driver u) = None)
      by (destruct (observed (driver u)); try done; naive_solver).
    destruct Hx as (Hop & Hde & Hat). split; [done|]. intros t th Hth. split.
    + pose proof (inv_t _ _ _ Hi _ _ Hth) as H. destruct th; try done; destruct H as (_ & H & _); congruence.
    + intros a ph ->. apply not_true_iff_false. intros Hh. pose proof (holder_handle _ _ _ _ _ _ Hi Hth Hh). congruence.
Qed.
Lemma driver_single_flight_witness : activeOperation (driver (exRun starts)) = 0.
Proof.
  apply (driver_single_flight 0 exConfig (length starts) false); [apply exRun_reachable; vm_compute; reflexivity|vm_compute; reflexivity..].
Defined.

(** The report of a stop: only the two sections of [stopLocked] leave their
    thread with one. *)
Definition noReport (tid : nat) (u : unit_) : Prop := forall r, threads u !! tid <> Some (TClosed r).

Lemma noReport_goto tid th u : (forall r, th <> TClosed r) -> noReport tid (goto tid th u).
Proof. intros H r. unfold goto. cbn. rewrite lookup_insert_eq. intros [= E]. by apply (H r). Qed.
Lemma noReport_exit tid u : noReport tid (exit tid u).
Proof. intros r. unfold exit. cbn. by rewrite lookup_delete_eq. Qed.
Lemma noReport_return tid x u : noReport tid (return_ tid x u).
Proof. apply noReport_exit. Qed.

Ltac no_report :=
  repeat match goal with
  | |- noReport _ (return_ _ _ _) => apply noReport_return
  | |- noReport _ (exit _ _) => apply noReport_exit
  | |- noReport _ (goto _ _ _) => apply noReport_goto; intros ?; repeat case_match; discriminate
  | |- noReport _ (if ?c then _ else _) => destruct c
  | |- noReport _ (let '(_, _) := ?c in _) => destruct c
  | |- noReport _ (match ?c with _ => _ end) => destruct c
  end.

Lemma startSection_noReport e b tid async u : noReport tid (startSection e b tid async u).
Proof. unfold startSection. cbv zeta. no_report. Qed.
Lemma replaceSection_noReport e b tid u : noReport tid (replaceSection e b tid u).
Proof. unfold replaceSection. cbv zeta. no_report. Qed.
Lemma stepAttempt_noReport e b tid a ph u u' : stepAttempt e b tid a ph u = Some u' -> noReport tid u'.
Proof.
  destruct ph; cbn [stepAttempt]; try discriminate; intros [= <-] || (case_match; intros [= <-]);
    unfold enterAttempt, endAttempt, supersededCheck, heldCheck, retireSection; cbv zeta; no_report.
Qed.

Lemma stopSection_report e tid u r :
  threads (stopSection e tid u) !! tid = Some (TClosed r) -> Proven (RClass r) = true ->
  runtimeQuarantined (driver u) (eQ1 e) = false /\ rests (observed (driver (stopSection e tid u))) = true.
Proof.
  unfold stopSection. destruct (quarantined (driver u)); [cbn; rewrite lookup_insert_eq; by intros [= <-]|].
  branch E; cbn; rewrite lookup_insert_eq; [|by destruct (Runtime _)].
  intros [= <-]. cbn. destruct (runtimeQuarantined _ _); [done|]. intros _. split; [done|].
  destruct (control_fields (activeAttempt (driver u)) (set_driver (set_desired DesiredStopped (driver u)) u)) as (F1 & _).
  rewrite F1. cbn. apply orb_true_iff in E as [E|E]; apply bool_decide_eq_true in E; by rewrite E.
Qed.
Lemma stopFinish_report e tid rp err u r :
  threads (stopFinish e tid rp err u) !! tid = Some (TClosed r) -> Proven (RClass r) = true ->
  runtimeQuarantined (driver u) (eQ1 e) = false /\ rests (observed (driver (stopFinish e tid rp err u))) = true.
Proof.
  unfold stopFinish. cbn. rewrite lookup_insert_eq. intros [= <-]. cbn. unfold ClassifyClose, endStop.
  destruct (runtimeQuarantined (driver u) (eQ1 e)); [done|]. intros Hp. split; [done|].
  destruct err as [x|]; [|done]. destruct (isSafetyQuarantined x); [done|]. by destruct (isStopTimeout x).
Qed.

Lemma stop_report_rests b e tid u u' r :
  ustep b (LRun tid e) u = Some u' -> threads u' !! tid = Some (TClosed r) -> threads u !! tid <> Some (TClosed r) ->
  Proven (RClass r) = true -> runtimeQuarantined (driver u) (eQ1 e) = false /\ rests (observed (driver u')) = true.
Proof.
  intros Hs Hr Hn Hp. cbn [ustep] in Hs. destruct (threads u !! tid) as [th|]; cbn in Hs; [|done].
  enough (noReport tid u' \/ u' = stopSection e tid u \/ exists rp err, u' = stopFinish e tid rp err u)
    as [H|[->|(rp & err & ->)]]; [by destruct (H r)|by eapply stopSection_report|by eapply stopFinish_report|].
  clear r Hr Hn Hp. assert (Hg : forall th', (forall r, th' <> TClosed r) -> lockOp tid th' u = Some u' -> noReport tid u').
  { intros th' Ht. unfold lockOp. destruct (opMu _); [done|]. intros [= <-]. by apply noReport_goto. }
  destruct th as [k ph|op rp|a ph|rp|rp cov|rp err|rp|op tok dl|op tok|op tok]; cbn [stepRun] in Hs; try done.
  - destruct ph; cbn [stepOp] in Hs; [..|destruct k]; try (left; eapply Hg; [|exact Hs]; done); injection Hs as <-; try (left; by apply noReport_goto).
    + left. apply startSection_noReport.
    + left. apply replaceSection_noReport.
    + right. by left.
  - injection Hs as <-. left. no_report.
  - left. by eapply stepAttempt_noReport.
  - injection Hs as <-. left. by apply noReport_goto.
  - injection Hs as <-. right. right. by eexists _, _.
  - injection Hs as <-. left. apply noReport_return.
  - left. eapply Hg; [|exact Hs]; done.
  - injection Hs as <-. left. unfold retrySection. cbv zeta. no_report.
Qed.

(** C3: nothing is left running behind a driver that is published as stopped.
    A driver that rests stopped or disabled, is not quarantined and has no
    construction in flight has, for every construction that ever succeeded,
    had a [Runtime.Stop] called after it that returned nil or the drain
    timeout, however starts, replacements, stops and retries interleaved; a
    driver that serves has a construction without one.  Such a return is no
    close proof by itself: a stop reports a proven close only if the runtime
    denies quarantine when it is asked, and then every construction not yet
    released belongs to an attempt that still has to retire it or quarantine the
    driver, or the driver is quarantined already. *)
Theorem stopped_means_released now c n b u :
  reachable now c n b u -> few n ->
  (rests (observed (driver u)) = true -> quarantined (driver u) = false -> activeAttempt (driver u) = None -> opened u = ∅) /\
  (stable (observed (driver u)) = true -> opened u <> ∅) /\
  (forall e tid u' r, ustep b (LRun tid e) u = Some u' ->
     threads u' !! tid = Some (TClosed r) -> threads u !! tid <> Some (TClosed r) -> Proven (RClass r) = true ->
     runtimeQuarantined (driver u) (eQ1 e) = false /\ rests (observed (driver u')) = true /\
     forall t, t ∈ opened u' -> (exists th, threads u' !! t = Some th /\ resp th = true) \/ quarantined (driver u') = true).
Proof.
  intros Hr Hn. pose proof (reachable_opn _ _ _ _ _ Hr Hn) as Ho. pose proof (driver_reachable_inv _ _ _ _ _ Hr Hn) as Hi.
  split_and!; [|by apply (op_serve _ _ _ Ho)|].
  - intros Hre Hq Hat. apply set_eq. intros t. split; [|set_solver]. intros Hin.
    destruct (op_rest _ _ _ Ho Hre t Hin) as [?|[(th & Hth & Hre')|?]]; [done| |congruence]. exfalso.
    destruct th as [| |a ph| | | | | | |]; try done. assert (holdingPhase ph = true) by (by destruct ph).
    pose proof (holder_handle _ _ _ _ _ _ Hi Hth H). congruence.
  - intros e tid u' r Hs H1 H2 Hp. destruct (stop_report_rests _ _ _ _ _ _ Hs H1 H2 Hp) as [Hq Hre]. split; [done|]. split; [done|].
    destruct (reachable_att _ _ _ _ _ Hr Hn) as [Htk _]. pose proof (ustep_opn n b _ u u' Hn Hi Htk Ho Hs) as Ho'.
    intros t Ht. by destruct (op_rest _ _ _ Ho' Hre t Ht) as [?|?].
Qed.
Definition stopBack : list label := starts ++ LCall (KStop false) :: go 1 5 ++ [LStopped 1 None].
Definition stopReport : CloseReport :=
  match threads (exRun (stopBack ++ [LRun 1 exEnv])) !! 1%nat with
  | Some (TClosed r) => r
  | _ => mkReport EmptyString CloseInternalError 0 0 ObservedStopped (because ReasonNone)
  end.
Lemma stopped_means_released_witness :
  opened (exRun (stops None)) = ∅ /\ opened (exRun starts) <> ∅ /\
  Proven (RClass stopReport) = true /\ runtimeQuarantined (driver (exRun stopBack)) (eQ1 exEnv) = false.
Proof.
  split; [|split; [|split]].
  - apply (stopped_means_released 0 exConfig (length (stops None)) false);
      [apply exRun_reachable; vm_compute; reflexivity|vm_compute; reflexivity..].
  - apply (stopped_means_released 0 exConfig (length starts) false);
      [apply exRun_reachable; vm_compute; reflexivity|vm_compute; reflexivity..].
  - vm_compute; reflexivity.
  - destruct (stopped_means_released 0 exConfig (length stopBack) false (exRun stopBack)) as (_ & _ & H);
      [apply exRun_reachable; vm_compute; reflexivity|vm_compute; reflexivity|].
    apply (H exEnv 1%nat (exRun (stopBack ++ [LRun 1 exEnv])) stopReport);
      [vm_compute; reflexivity|vm_compute; reflexivity|vm_compute; discriminate|vm_compute; reflexivity].
Defined.

(** ** Progress *)

(** C5: while the manager is open, a driver that starts, stops or backs off
    has a thread that will move it on (the attempt or the stop of the
    current operation; in back-off the retry with the current token or a
    call that has cancelled it and has not decided yet); so a driver without
    threads is in a state it may stay in. *)
Theorem driver_never_stranded now c n u :
  reachable now c n false u -> few n ->
  (busy (observed (driver u)) = true -> exists t th, threads u !! t = Some th /\ attends (driver u) th = true) /\
  (threads u = ∅ -> observed (driver u) ∈ [ObservedStopped; ObservedDisabled; ObservedRunning; ObservedDegraded; ObservedFailed]).
Proof.
  intros Hr Hn. destruct (reachable_att _ _ _ _ _ Hr Hn) as [_ Ha]. pose proof (at_attended _ _ Ha eq_refl) as Hb. unfold Attended in Hb. split; [done|].
  intros Ht. destruct (busy (observed (driver u))) eqn:E.
  - destruct (Hb eq_refl) as (t & th & Hth & _). by rewrite Ht in Hth.
  - destruct (observed (driver u)); try done; set_solver.
Qed.
Lemma driver_never_stranded_witness : exists t th, threads (exRun fails) !! t = Some th /\ attends (driver (exRun fails)) th = true.
Proof.
  apply (driver_never_stranded 0 exConfig (length fails)); [apply exRun_reachable; vm_compute; reflexivity|vm_compute; reflexivity..].
Defined.

(** C15: no call of the manager goes on for ever or gets stuck: in any
    schedule a call takes at most 40 steps of its own, and whenever a call
    has not ended, it can take a step or it waits for [opMu] and the thread
    that holds it can. *)
Theorem driver_calls_end now c n b u t th :
  reachable now c n b u -> few n -> threads u !! t = Some th ->
  (forall ls u', few (length ls + n) -> run b ls u = Some u' -> (stepsOf t ls <= 40)%nat) /\
  (exists l u' s, ustep b l u = Some u' /\ subject l = Some s /\ (s = t \/ waits th = true /\ opMu (driver u) = Some s)).
Proof.
  intros Hr Hn Hth. destruct (reachable_att _ _ _ _ _ Hr Hn) as [Htk _]. split.
  - intros ls u' Hl Hrun. pose proof (run_left _ _ _ _ _ _ _ t Hr Hl (tk_tids _ Htk _ _ Hth) Hrun) as H.
    pose proof (rank_bound th). unfold left_ in H at 2. rewrite Hth in H. lia.
  - destruct (waits th) eqn:Hw; [|destruct (thread_steps b u t th Hth Hw) as (l & u' & ? & ?); exists l, u', t; auto].
    destruct (opMu (driver u)) as [h|] eqn:Ho.
    + destruct (reachable_held _ _ _ _ _ Hr Hn h Ho) as (th' & Hth' & Hlk).
      destruct (thread_steps b u h th' Hth') as (l & u' & ? & ?); [by destruct th' as [? []| | | | | | | | |]|]. exists l, u', h. auto.
    + exists (LRun t exEnv). cbn [ustep]. rewrite Hth. destruct th as [k []| | | | | | | |op tok|]; try done; cbn; unfold lockOp; rewrite Ho;
        (eexists _, t; split; [reflexivity|auto]).
Qed.
Lemma driver_calls_end_witness :
  exists l u' s, ustep false l (exRun fails) = Some u' /\ subject l = Some s /\ s = 1%nat.
Proof.
  destruct (driver_calls_end 0 exConfig (length fails) false (exRun fails) 1
    (default (TSpawn 0 false) (threads (exRun fails) !! 1%nat))) as [_ (l & u' & s & H1 & H2 & H3)];
    [apply exRun_reachable; vm_compute; reflexivity|vm_compute; reflexivity..|].
  exists l, u', s. split; [exact H1|]. split; [exact H2|]. destruct H3 as [H3|[H3 _]]; [exact H3|vm_compute in H3; discriminate].
Defined.

(** ** Quarantine *)

Lemma run_quarantined now c n b ls u u' :
  reachable now c n b u -> few (length ls + n) -> quarantined (driver u) = true -> run b ls u = Some u' -> quarantined (driver u') = true.
Proof.
  revert n u. induction ls as [|l ls IH]; intros n u Hr Hn Hq; cbn [run]; [by intros [= <-]|].
  destruct (ustep b l u) as [u1|] eqn:Hs; [|done]. intros Hrun. cbn in Hn.
  eapply (IH (S n)); [by eapply reach_step|unfold few in *; lia| |done].
  apply (uc_q u u1); [|done]. eapply ustep_uc; [eapply driver_reachable_inv; [done|unfold few in *; lia]|done].
Qed.

(** C14: a quarantined driver stays quarantined, whatever happens later, even
    where an attempt or a stop that was already under way ends well: it is
    stopped or failed, offers nothing, admits no call and refuses every start
    and replacement.  (A close that is only reported as unconfirmed, because
    the runtime is in quarantine although its stop returned nil, does not
    quarantine the driver.) *)
Theorem quarantine_is_final now c n b u ls u' :
  reachable now c n b u -> few (length ls + n) -> quarantined (driver u) = true -> run b ls u = Some u' ->
  let d := driver u' in
  quarantined d = true /\ (observed d = ObservedStopped \/ observed d = ObservedFailed) /\ effective d = [] /\ activeOperation d = 0 /\
  (forall cap, Invoke b cap u' <> Admits) /\
  (forall e t async, startSection e false t async u' = return_ t (Some ErrSafetyQuarantined) (unlockOp u')) /\
  (forall e t, replaceSection e false t u' = return_ t (Some ErrSafetyQuarantined) (unlockOp u')).
Proof.
  intros Hr Hn Hq Hrun. cbv zeta. pose proof (run_quarantined _ _ _ _ _ _ _ Hr Hn Hq Hrun) as Hq'.
  pose proof (driver_reachable_inv _ _ _ _ _ (driver_run_reachable _ _ _ _ _ _ _ Hr Hrun) Hn) as Hi.
  destruct (rest_fields _ _ (inv_d _ _ _ Hi)) as (H1 & H2 & H3); [auto|]. split_and!; try done.
  - destruct (observed (driver u')); try done; auto. congruence.
  - intros cap. unfold Invoke. destruct b; [done|]. by rewrite Hq', orb_true_r.
  - intros e t async. unfold startSection. by rewrite Hq'.
  - intros e t. unfold replaceSection. by rewrite Hq'.
Qed.
Lemma quarantine_is_final_witness : quarantined (driver (exRun (stops (Some unproven) ++ LCall KReplace :: go 2 4))) = true.
Proof.
  apply (quarantine_is_final 0 exConfig (length (stops (Some unproven))) false (exRun (stops (Some unproven))) (LCall KReplace :: go 2 4));
    [apply exRun_reachable; vm_compute; reflexivity|vm_compute; reflexivity..].
Defined.

(** ** Retries *)


(** ** Shutdown *)

(** Two drivers, one of them running; a shutdown that stops both and
    returns. *)
Definition exDrivers : list (DriverConfig * time) :=
  [(exConfig, 0); (mkConfig "modbus" false None [] None exPolicy (mkHooks false false), 1)].
Definition exManager : Manager := match New exDrivers with inr m => m | inl _ => mkManager ∅ false ∅ 0 end.
Definition exShutdown : list mlabel :=
  (MDriver "ebus" <$> starts) ++ [MShutdown; MShut 0] ++ (MDriver "ebus" <$> go 1 6 ++ [LStopped 1 None] ++ go 1 2) ++
  [MShut 0; MShut 0] ++ (MDriver "modbus" <$> go 0 6) ++ [MShut 0; MShut 0; MShut 0].
Definition exEnd : Manager := default exManager (mrun exShutdown exManager).
Lemma exEnd_reachable : mreachable exDrivers (length exShutdown) exEnd.
Proof.
  rewrite <- (Nat.add_0_r (length exShutdown)). eapply mrun_reachable; [apply mreach_new; vm_compute; reflexivity|vm_compute; reflexivity].
Qed.

(** C16: from the moment a shutdown begins nothing is admitted any more, and
    every driver it has passed is not wanted, offers nothing and is stopped,
    disabled, failed or being stopped, whatever other calls do; when it
    returns without an error no task is left, and none is started later. *)
Theorem shutdown_final cfgs n m s ph :
  mreachable cfgs n m -> few n -> shutdowns m !! s = Some ph ->
  (forall id cap, InvokeOf id cap m <> Admits) /\
  (forall id u, drivers m !! id = Some u -> id ∉ pending ph ->
     desired (driver u) = DesiredStopped /\ effective (driver u) = [] /\
     observed (driver u) ∈ [ObservedDisabled; ObservedStopped; ObservedStopping; ObservedFailed]) /\
  (ph = SReturned true -> forall id u t th, drivers m !! id = Some u -> threads u !! t = Some th -> isTask th = false).
Proof.
  intros Hr Hn Hph. destruct (mreachable_shutdown _ _ _ _ _ Hr Hn Hph) as [H1 H2 _ H4]. split_and!.
  - intros id cap. unfold InvokeOf. destruct (drivers m !! id); [|done]. unfold Invoke. by rewrite H1.
  - intros id u Hu Hp. pose proof (H2 id u Hu Hp) as Hd. split; [done|].
    destruct (mreachable_unit _ _ _ _ _ Hr Hu) as (c & now & k & _ & _ & Hk & Hru).
    assert (Hk' : few k) by (unfold few in *; lia). destruct (inv_d _ _ _ (driver_reachable_inv _ _ _ _ _ Hru Hk')) as [_ _ _ _ Hs Hc].
    unfold SInv, CapInv in *. destruct (observed (driver u));
      first [destruct Hs as (_ & Hx & _); congruence | (split; [exact Hc|]; by repeat constructor)].
  - intros E id u t th Hu Hth. exact (H4 E id u Hu t th Hth).
Qed.
Lemma shutdown_final_witness : exists u, drivers exEnd !! "ebus" = Some u /\ desired (driver u) = DesiredStopped.
Proof.
  destruct (drivers exEnd !! "ebus") as [u|] eqn:E; [|vm_compute in E; discriminate].
  exists u. split; [reflexivity|].
  apply (shutdown_final exDrivers (length exShutdown) exEnd 0 (SReturned true) exEnd_reachable) in E;
    [apply E|vm_compute; reflexivity|vm_compute; reflexivity|apply not_elem_of_nil].
Defined.
End DriverSpec.
