(* ===== verification/Pacer.v ===== *)
(** * The output pacer and the echo watchdog

    [internal/adaptermux/v8classifier/pacer.go]: when the next byte goes to
    a client, the moving average of the echo round trips and the timers that
    watch over an outstanding write.  A method under [mu] is one step.  A
    timer that has expired runs its callback in a goroutine of its own,
    which [Stop] no longer reaches: expiry, the section under [mu] and the
    report are separate steps. *)

From S2P Require Import Prelude Float64.

Local Open Scope Z_scope.

Module Pacer.
Import Float64.

(** ** Data *)

Definition microsecond : time := 1000.
Definition millisecond : time := 1000000.
Definition TauWireByte : time := 4167 * microsecond.
Definition LrttBootstrapInitial : time := 100 * millisecond.
Definition LrttEmaAlpha : float64 := ratio 3 10.
Definition GraceIdleThreshold : time := 30 * second.
Definition GraceBootstrapSamples : Z := 3.
Definition SoftDeadlineGrace : time := 500 * millisecond.
Definition SoftDeadlineNormal : time := 100 * millisecond.
Definition HardDeadlineNormalAdd : time := 200 * millisecond.

(** The struct; a timer is named by a number, [adminEventEmit] says whether
    a callback is registered. *)
Record Pacer := mkPacer {
  tau : time;
  lastScheduledEmit : time;
  scheduledInitialized : bool;
  lRttEMA : time;
  graceRemaining : Z;
  lastEchoAt : time;
  recordedSamples : Z;
  beforeActiveWriteTotal : Z;
  adminEventEmit : bool;
  softTimer : option nat;
  hardTimer : option nat;
  armGeneration : Z;
  softTimeoutTotal : Z;
  hardTimeoutTotal : Z
}.
Definition NewPacer : Pacer := mkPacer TauWireByte 0 false LrttBootstrapInitial 0 0 0 0 false None None 0 0 0.

(** ** Output *)

Definition SetTau (v : time) (p : Pacer) : Pacer * bool :=
  if v <=? 0 then (p, false)
  else (mkPacer v (lastScheduledEmit p) (scheduledInitialized p) (lRttEMA p) (graceRemaining p) (lastEchoAt p)
          (recordedSamples p) (beforeActiveWriteTotal p) (adminEventEmit p) (softTimer p) (hardTimer p)
          (armGeneration p) (softTimeoutTotal p) (hardTimeoutTotal p), true).
Definition setOutput (v : time) (p : Pacer) : Pacer :=
  mkPacer (tau p) v true (lRttEMA p) (graceRemaining p) (lastEchoAt p) (recordedSamples p) (beforeActiveWriteTotal p)
    (adminEventEmit p) (softTimer p) (hardTimer p) (armGeneration p) (softTimeoutTotal p) (hardTimeoutTotal p).
Definition Schedule (now : time) (p : Pacer) : Pacer * time :=
  let emitAt :=
    if negb (scheduledInitialized p) then now
    else
      let next := lastScheduledEmit p + tau p in
      if now <? next then next else now in
  (setOutput emitAt p, emitAt).
Definition NextOutput (now : time) (p : Pacer) : time :=
  if scheduledInitialized p then
    let next := lastScheduledEmit p + tau p in
    if now <? next then next else now
  else now.
Definition ResumeOutput (now : time) (p : Pacer) : Pacer := setOutput now p.

(** ** Round trips *)

Definition setGrace (v samples : Z) (p : Pacer) : Pacer :=
  mkPacer (tau p) (lastScheduledEmit p) (scheduledInitialized p) (lRttEMA p) v (lastEchoAt p) (recordedSamples p) samples
    (adminEventEmit p) (softTimer p) (hardTimer p) (armGeneration p) (softTimeoutTotal p) (hardTimeoutTotal p).
Definition BeforeActiveWrite (now : time) (p : Pacer) : Pacer :=
  let total := incr64 (beforeActiveWriteTotal p) in
  if lastEchoAt p =? 0 then setGrace (graceRemaining p) total p
  else if now - lastEchoAt p <? GraceIdleThreshold then setGrace (graceRemaining p) total p
  else setGrace (if graceRemaining p <? GraceBootstrapSamples then GraceBootstrapSamples else graceRemaining p) total p.
Definition setEcho (ema : time) (grace : Z) (at_ : time) (samples : Z) (p : Pacer) : Pacer :=
  mkPacer (tau p) (lastScheduledEmit p) (scheduledInitialized p) ema grace at_ samples (beforeActiveWriteTotal p)
    (adminEventEmit p) (softTimer p) (hardTimer p) (armGeneration p) (softTimeoutTotal p) (hardTimeoutTotal p).
Definition ema (rtt old : time) : time :=
  let alpha := LrttEmaAlpha in
  toInt64 (fadd (fmul alpha (ofInt rtt)) (fmul (fsub (ofInt 1) alpha) (ofInt old))).
Definition RecordEcho (rtt now : time) (p : Pacer) : Pacer :=
  if rtt <=? 0 then p
  else
    setEcho (ema rtt (lRttEMA p)) (if 0 <? graceRemaining p then graceRemaining p - 1 else graceRemaining p) now
      (incr64 (recordedSamples p)) p.
Definition InGraceBootstrap (p : Pacer) : bool := 0 <? graceRemaining p.
Definition EchoDeadlines (p : Pacer) : time * time * bool :=
  if 0 <? graceRemaining p then (i64 (lRttEMA p + SoftDeadlineGrace), 0, false)
  else (i64 (lRttEMA p + SoftDeadlineNormal), i64 (i64 (2 * lRttEMA p) + HardDeadlineNormalAdd), true).
Definition ResetLrtt (p : Pacer) : Pacer := setEcho LrttBootstrapInitial 0 0 (recordedSamples p) p.

(** ** The watchdog *)

Inductive AdminEventKind := AdminEventKindEchoSoftTimeout | AdminEventKindEchoHardTimeout.
#[export] Instance AdminEventKind_eq : EqDecision AdminEventKind.
Proof. solve_decision. Defined.

Definition setWatchdog (soft hard : option nat) (gen : Z) (p : Pacer) : Pacer :=
  mkPacer (tau p) (lastScheduledEmit p) (scheduledInitialized p) (lRttEMA p) (graceRemaining p) (lastEchoAt p)
    (recordedSamples p) (beforeActiveWriteTotal p) (adminEventEmit p) soft hard gen (softTimeoutTotal p) (hardTimeoutTotal p).
Definition SetAdminEventEmitter (v : bool) (p : Pacer) : Pacer :=
  mkPacer (tau p) (lastScheduledEmit p) (scheduledInitialized p) (lRttEMA p) (graceRemaining p) (lastEchoAt p)
    (recordedSamples p) (beforeActiveWriteTotal p) v (softTimer p) (hardTimer p) (armGeneration p) (softTimeoutTotal p)
    (hardTimeoutTotal p).
Definition WatchdogArmed (p : Pacer) : bool := bool_decide (is_Some (softTimer p)) || bool_decide (is_Some (hardTimer p)).

(** A timer that runs, with the generation its callback captured and its
    duration; a callback before its section, and before the report.  The
    world keeps what happened: the generations armed (with or without a hard
    deadline), the timeouts counted and the events reported, each with the
    generation of its callback. *)
Record timer := mkTimer { tKind : AdminEventKind; tGen : Z; tAfter : time }.
Inductive callback := CFired (k : AdminEventKind) (gen : Z) | CEmit (k : AdminEventKind) (gen : Z).

Record world := mkWorld {
  pacer : Pacer;
  timers : gmap nat timer;
  callbacks : gmap nat callback;
  nextTimer : nat;
  armed : list (Z * bool);
  counted : list (AdminEventKind * Z);
  reported : list (AdminEventKind * Z)
}.
Definition onPacer (f : Pacer -> Pacer) (w : world) : world :=
  mkWorld (f (pacer w)) (timers w) (callbacks w) (nextTimer w) (armed w) (counted w) (reported w).

(** [Stop] on a timer that may have expired. *)
Definition stopTimer (t : option nat) (m : gmap nat timer) : gmap nat timer :=
  match t with Some t => delete t m | None => m end.
Definition cancelTimersLocked (w : world) : world :=
  let p := pacer w in
  mkWorld (setWatchdog None None (incr64 (armGeneration p)) p) (stopTimer (hardTimer p) (stopTimer (softTimer p) (timers w)))
    (callbacks w) (nextTimer w) (armed w) (counted w) (reported w).
Definition ArmEchoWatchdog (w : world) : world :=
  let w := cancelTimersLocked w in
  let p := pacer w in
  let gen := armGeneration p in
  let n := nextTimer w in
  let '(soft, hard, hardEnabled) := EchoDeadlines p in
  let ts := <[n := mkTimer AdminEventKindEchoSoftTimeout gen soft]> (timers w) in
  if hardEnabled then
    mkWorld (setWatchdog (Some n) (Some (S n)) gen p) (<[S n := mkTimer AdminEventKindEchoHardTimeout gen hard]> ts)
      (callbacks w) (S (S n)) ((gen, true) :: armed w) (counted w) (reported w)
  else mkWorld (setWatchdog (Some n) (hardTimer p) gen p) ts (callbacks w) (S n) ((gen, false) :: armed w) (counted w) (reported w).
Definition CancelEchoWatchdog (w : world) : world := cancelTimersLocked w.

(** [onSoftTimeout] and [onHardTimeout], under [mu]. *)
Definition countTimeout (k : AdminEventKind) (p : Pacer) : Pacer :=
  match k with
  | AdminEventKindEchoSoftTimeout =>
      mkPacer (tau p) (lastScheduledEmit p) (scheduledInitialized p) (lRttEMA p) (graceRemaining p) (lastEchoAt p)
        (recordedSamples p) (beforeActiveWriteTotal p) (adminEventEmit p) None (hardTimer p) (armGeneration p)
        (incr64 (softTimeoutTotal p)) (hardTimeoutTotal p)
  | AdminEventKindEchoHardTimeout =>
      mkPacer (tau p) (lastScheduledEmit p) (scheduledInitialized p) (lRttEMA p) (graceRemaining p) (lastEchoAt p)
        (recordedSamples p) (beforeActiveWriteTotal p) (adminEventEmit p) (softTimer p) None (armGeneration p)
        (softTimeoutTotal p) (incr64 (hardTimeoutTotal p))
  end.
Definition onTimeout (c : nat) (k : AdminEventKind) (gen : Z) (w : world) : world :=
  let p := pacer w in
  if negb (armGeneration p =? gen) then
    mkWorld p (timers w) (delete c (callbacks w)) (nextTimer w) (armed w) (counted w) (reported w)
  else
    mkWorld (countTimeout k p) (timers w)
      (if adminEventEmit p then <[c := CEmit k gen]> (callbacks w) else delete c (callbacks w)) (nextTimer w) (armed w)
      ((k, gen) :: counted w) (reported w).

(** ** Steps *)

Inductive label :=
| LSetTau (v : time)
| LSchedule (now : time)
| LResume (now : time)
| LBefore (now : time)
| LEcho (rtt now : time)
| LReset
| LEmitter (v : bool)
| LArm
| LCancel
| LExpire (t : nat)
| LCallback (c : nat).
Definition step (l : label) (w : world) : option world :=
  match l with
  | LSetTau v => Some (onPacer (fun p => fst (SetTau v p)) w)
  | LSchedule now => Some (onPacer (fun p => fst (Schedule now p)) w)
  | LResume now => Some (onPacer (ResumeOutput now) w)
  | LBefore now => Some (onPacer (BeforeActiveWrite now) w)
  | LEcho rtt now => Some (onPacer (RecordEcho rtt now) w)
  | LReset => Some (onPacer ResetLrtt w)
  | LEmitter v => Some (onPacer (SetAdminEventEmitter v) w)
  | LArm => Some (ArmEchoWatchdog w)
  | LCancel => Some (CancelEchoWatchdog w)
  | LExpire t =>
      tm ← timers w !! t;
      Some (mkWorld (pacer w) (delete t (timers w)) (<[t := CFired (tKind tm) (tGen tm)]> (callbacks w)) (nextTimer w)
              (armed w) (counted w) (reported w))
  | LCallback c =>
      match callbacks w !! c with
      | Some (CFired k gen) => Some (onTimeout c k gen w)
      | Some (CEmit k gen) =>
          Some (mkWorld (pacer w) (timers w) (delete c (callbacks w)) (nextTimer w) (armed w) (counted w) ((k, gen) :: reported w))
      | None => None
      end
  end.
Definition newWorld : world := mkWorld NewPacer ∅ ∅ 0 [] [] [].
Inductive reachable : nat -> world -> Prop :=
| reach_new : reachable 0 newWorld
| reach_step n l w w' : reachable n w -> step l w = Some w' -> reachable (S n) w'.
Fixpoint run (ls : list label) (w : world) : option world :=
  match ls with [] => Some w | l :: ls => w ← step l w; run ls w end.
Lemma pacer_run_reachable n ls w w' : reachable n w -> run ls w = Some w' -> reachable (length ls + n) w'.
Proof.
  revert n w. induction ls as [|l ls IH]; intros n w Hr; cbn; [by intros [= <-]|].
  destruct (step l w) as [w1|] eqn:Hs; cbn; [|done]. intros Hrun.
  replace (S (length ls + n)) with (length ls + S n)%nat by lia. eapply IH; [|done]. by eapply reach_step.
Qed.

Example ema_first : ema (50 * millisecond) LrttBootstrapInitial = 85 * millisecond.
Proof. vm_compute. reflexivity. Qed.
End Pacer.
