(* ===== verification/PacerSpec.v ===== *)
(** * What the pacer guarantees

    The slots of the output pacer are the earliest ones that keep the
    cadence, and the watchdog counts a timeout only for the write it was
    armed for, at most once, however expiry, cancellation and callbacks
    interleave. *)

From S2P Require Import Prelude Float64 Pacer.

Local Open Scope Z_scope.

Module PacerSpec.
Import Pacer.

(** ** Output *)

Fixpoint schedules (nows : list time) (p : Pacer) : list time :=
  match nows with
  | [] => []
  | now :: nows => let '(p, t) := Schedule now p in t :: schedules nows p
  end.

Lemma schedules_from nows p k t :
  scheduledInitialized p = true -> 0 < tau p -> schedules nows p !! k = Some t ->
  let due j now := now + Z.of_nat (k - j) * tau p in
  lastScheduledEmit p + Z.of_nat (S k) * tau p <= t /\
  (forall j now, (j <= k)%nat -> nows !! j = Some now -> due j now <= t) /\
  (t = lastScheduledEmit p + Z.of_nat (S k) * tau p \/ exists j now, (j <= k)%nat /\ nows !! j = Some now /\ t = due j now).
Proof.
  revert p k t. induction nows as [|now nows IH]; intros p k t Hi Ht; cbn; [done|]. rewrite Hi. cbn [negb].
  set (t0 := if now <? lastScheduledEmit p + tau p then lastScheduledEmit p + tau p else now).
  assert (H0 : t0 = Z.max now (lastScheduledEmit p + tau p)).
  { unfold t0. destruct (Z.ltb_spec now (lastScheduledEmit p + tau p)); lia. }
  clearbody t0. destruct k as [|k]; cbn.
  - intros [= <-]. split_and!; [lia| |].
    + intros j now' Hj. replace j with 0%nat by lia. cbn. intros [= <-]. lia.
    + destruct (Z.max_spec now (lastScheduledEmit p + tau p)) as [[_ E]|[_ E]]; [left; lia|].
      right. exists 0%nat, now. split_and!; [lia|done|]. cbn. lia.
  - intros Hk. destruct (IH (setOutput t0 p) k t eq_refl Ht Hk) as (H1 & H2 & H3). cbn [tau lastScheduledEmit setOutput] in H1, H2, H3.
    split_and!; [nia| |].
    + intros [|j] now' Hj; cbn; [intros [= <-]; nia|]. intros Hn. apply H2; [lia|done].
    + destruct H3 as [H3|(j & now' & Hj & Hn & H3)].
      * destruct (Z.max_spec now (lastScheduledEmit p + tau p)) as [[_ E]|[_ E]]; [left; nia|].
        right. exists 0%nat, now. split_and!; [lia|done|]. cbn. nia.
      * right. exists (S j), now'. split_and!; [lia|done|done].
Qed.
Lemma schedules_spaced nows p k t t' :
  scheduledInitialized p = true -> 0 < tau p -> schedules nows p !! k = Some t -> schedules nows p !! S k = Some t' -> t + tau p <= t'.
Proof.
  revert p k. induction nows as [|now nows IH]; intros p k Hi Ht; cbn; [done|]. rewrite Hi. cbn [negb].
  set (t0 := if now <? lastScheduledEmit p + tau p then lastScheduledEmit p + tau p else now). clearbody t0.
  destruct k as [|k]; cbn; [|by apply (IH (setOutput t0 p))]. intros [= <-] Hs.
  destruct (schedules_from nows (setOutput t0 p) 0 t' eq_refl Ht Hs) as (H & _). cbn in H. lia.
Qed.

(** C20: the output slots of a fresh pacer are exactly the earliest ones that
    respect the requests and the cadence: the slot of request [k] is the
    largest of [now j + (k - j) * tau] over the requests [j] up to [k];
    slots are at least [tau] apart, and a preview gives the slot that the
    next request will get. *)
Theorem output_paced v nows k t :
  0 < v -> let p := fst (SetTau v NewPacer) in
  schedules nows p !! k = Some t ->
  (forall j now, (j <= k)%nat -> nows !! j = Some now -> now + Z.of_nat (k - j) * v <= t) /\
  (exists j now, (j <= k)%nat /\ nows !! j = Some now /\ t = now + Z.of_nat (k - j) * v) /\
  (forall t', schedules nows p !! S k = Some t' -> t + v <= t') /\
  (forall q now, NextOutput now q = snd (Schedule now q)).
Proof.
  intros Hv p. assert (Hp : scheduledInitialized p = false /\ tau p = v).
  { unfold p, SetTau. destruct (Z.leb_spec v 0); [lia|done]. }
  clearbody p. destruct Hp as [Hp Ht]. assert (Hn : forall q now, NextOutput now q = snd (Schedule now q)).
  { intros q now. unfold NextOutput, Schedule. by destruct (scheduledInitialized q). }
  destruct nows as [|now nows]; cbn; [done|]. rewrite Hp. cbn [negb].
  destruct k as [|k]; cbn.
  - intros [= <-]. split_and!; [| | |done].
    + intros j now' Hj. replace j with 0%nat by lia. cbn. intros [= <-]. lia.
    + exists 0%nat, now. split_and!; [lia|done|]. cbn. lia.
    + intros t' Hs. destruct (schedules_from nows (setOutput now p) 0 t' eq_refl) as (H & _); [by cbn; rewrite Ht|done|].
      cbn in H. rewrite Ht in H. lia.
  - intros Hk. destruct (schedules_from nows (setOutput now p) k t eq_refl) as (H1 & H2 & H3); [by cbn; rewrite Ht|done|].
    cbn [tau lastScheduledEmit setOutput] in H1, H2, H3. rewrite Ht in *. split_and!; [| | |done].
    + intros [|j] now' Hj; cbn; [intros [= <-]; nia|]. intros Hj'. apply H2; [lia|done].
    + destruct H3 as [H3|(j & now' & Hj & Hj' & H3)].
      * exists 0%nat, now. split_and!; [lia|done|]. cbn. nia.
      * exists (S j), now'. split_and!; [lia|done|done].
    + intros t' Hs. rewrite <- Ht. apply (schedules_spaced nows (setOutput now p) k t t'); [done|by cbn; rewrite Ht|done|done].
Qed.
Lemma output_paced_witness : exists j now, (j <= 2)%nat /\ [0; 1; 20] !! j = Some now /\ 20 = now + Z.of_nat (2 - j) * 5.
Proof.
  destruct (output_paced 5 [0; 1; 20] 2 20) as (_ & H & _); [lia|reflexivity|exact H].
Defined.

(** ** The watchdog *)

Definition field (k : AdminEventKind) (p : Pacer) : option nat :=
  match k with AdminEventKindEchoSoftTimeout => softTimer p | AdminEventKindEchoHardTimeout => hardTimer p end.
Definition total (k : AdminEventKind) (p : Pacer) : Z :=
  match k with AdminEventKindEchoSoftTimeout => softTimeoutTotal p | AdminEventKindEchoHardTimeout => hardTimeoutTotal p end.
Definition countOf (k : AdminEventKind) (l : list (AdminEventKind * Z)) : nat := length (filter (fun x => x.1 = k) l).

(** Running timers are the ones the fields name; a callback of the current
    generation is the one its field names, until it is counted. *)
Record WInv (n : nat) (w : world) : Prop := {
  w_gen : 0 <= armGeneration (pacer w) <= Z.of_nat n;
  w_timer : forall t tm, timers w !! t = Some tm -> (t < nextTimer w)%nat /\ callbacks w !! t = None /\
    tGen tm = armGeneration (pacer w) /\ field (tKind tm) (pacer w) = Some t;
  w_cb : forall t c, callbacks w !! t = Some c -> (t < nextTimer w)%nat /\ timers w !! t = None;
  w_fired : forall t k g, callbacks w !! t = Some (CFired k g) ->
    g <= armGeneration (pacer w) /\ (exists he, (g, he) ∈ armed w /\ (k = AdminEventKindEchoHardTimeout -> he = true)) /\
    (g = armGeneration (pacer w) -> field k (pacer w) = Some t);
  w_running : forall t tm, timers w !! t = Some tm ->
    exists he, (tGen tm, he) ∈ armed w /\ (tKind tm = AdminEventKindEchoHardTimeout -> he = true);
  w_armed : forall g he, (g, he) ∈ armed w -> 1 <= g <= armGeneration (pacer w);
  w_nodup : NoDup (counted w);
  w_counted : forall k g, (k, g) ∈ counted w -> (exists he, (g, he) ∈ armed w /\ (k = AdminEventKindEchoHardTimeout -> he = true)) /\
    (g = armGeneration (pacer w) -> field k (pacer w) = None);
  w_total : forall k, total k (pacer w) = Z.of_nat (countOf k (counted w));
  w_few : (length (counted w) <= n)%nat;
  w_emit : forall t k g, callbacks w !! t = Some (CEmit k g) -> (k, g) ∈ counted w /\ (k, g) ∉ reported w /\
    forall t', callbacks w !! t' = Some (CEmit k g) -> t' = t;
  w_reported : NoDup (reported w) /\ forall x, x ∈ reported w -> x ∈ counted w
}.

(** The methods that leave the watchdog alone. *)
Definition sameDog (p p' : Pacer) : Prop :=
  armGeneration p' = armGeneration p /\ (forall k, field k p' = field k p) /\ (forall k, total k p' = total k p).
Lemma onPacer_inv n f w : (forall p, sameDog p (f p)) -> WInv n w -> WInv (S n) (onPacer f w).
Proof.
  intros Hf [H1 H2 H3 H4 H5 H6 H7 H8 H9 H10 H11 H12]. destruct (Hf (pacer w)) as (E1 & E2 & E3).
  split; cbn; try setoid_rewrite E1; try setoid_rewrite E2; try setoid_rewrite E3; try done; lia.
Qed.

Lemma incr64_few n x : 0 <= x <= Z.of_nat n -> Z.of_nat n + 1 < 2 ^ 64 -> incr64 x = x + 1.
Proof. intros ? ?. unfold incr64. apply u64_id. lia. Qed.

Lemma stop_fields n w t tm :
  WInv n w -> stopTimer (hardTimer (pacer w)) (stopTimer (softTimer (pacer w)) (timers w)) !! t = Some tm -> False.
Proof.
  intros Hi Ht.
  assert (Hx : timers w !! t = Some tm /\ softTimer (pacer w) <> Some t /\ hardTimer (pacer w) <> Some t).
  { destruct (hardTimer (pacer w)) as [h|], (softTimer (pacer w)) as [s|]; cbn in Ht; rewrite ?lookup_delete_Some in Ht; naive_solver. }
  destruct Hx as (Hx & Hs & Hh). destruct (w_timer _ _ Hi _ _ Hx) as (_ & _ & _ & Hf). destruct (tKind tm); cbn in Hf; congruence.
Qed.
Lemma stopTimer_empty n w : WInv n w -> stopTimer (hardTimer (pacer w)) (stopTimer (softTimer (pacer w)) (timers w)) = ∅.
Proof.
  intros Hi. apply map_empty. intros t. destruct (_ !! t) as [tm|] eqn:E; [|done].
  exfalso. by eapply (stop_fields n w t tm).
Qed.

Lemma cancel_inv n w : Z.of_nat n + 1 < 2 ^ 64 -> WInv n w -> WInv (S n) (cancelTimersLocked w).
Proof.
  intros Hn Hi. pose proof Hi as [H1 H2 H3 H4 H5 H6 H7 H8 H9 H10 H11 H12]. pose proof (incr64_few n _ H1 Hn) as Hg.
  unfold cancelTimersLocked. rewrite (stopTimer_empty n w Hi), Hg. split; cbn; try done; try lia.
  - intros t c Hc. by destruct (H3 t c Hc).
  - intros t k g Hc. destruct (H4 t k g Hc) as (? & ? & _). split_and!; [lia|done|lia].
  - intros g he Hin. specialize (H6 g he Hin). lia.
  - intros k g Hin. destruct (H8 k g Hin) as [? _]. split; [done|]. by destruct k.
Qed.

(** New timers with the generation a cancellation has just made. *)
Lemma armed_inv n v ts soft hard N he :
  WInv n v -> timers v = ∅ -> (forall k, field k (pacer v) = None) -> 1 <= armGeneration (pacer v) ->
  (forall g b, (g, b) ∈ armed v -> g < armGeneration (pacer v)) -> (nextTimer v <= N)%nat ->
  let p := setWatchdog soft hard (armGeneration (pacer v)) (pacer v) in
  (forall t tm, ts !! t = Some tm -> (nextTimer v <= t < N)%nat /\ tGen tm = armGeneration (pacer v) /\ field (tKind tm) p = Some t /\
     (tKind tm = AdminEventKindEchoHardTimeout -> he = true)) ->
  WInv n (mkWorld p ts (callbacks v) N ((armGeneration (pacer v), he) :: armed v) (counted v) (reported v)).
Proof.
  intros [H1 H2 H3 H4 H5 H6 H7 H8 H9 H10 H11 H12] Ht Hf Hg Hnew HN p Hts.
  assert (Hno : forall m, (nextTimer v <= m)%nat -> callbacks v !! m = None).
  { intros m Hm. destruct (callbacks v !! m) as [c|] eqn:E; [|done]. destruct (H3 m c E). lia. }
  split; cbn [pacer timers callbacks nextTimer armed counted]; try done.
  - intros t tm E. destruct (Hts t tm E) as (? & ? & ? & ?). split_and!; [lia|apply Hno; lia|done|done].
  - intros t c E. destruct (H3 t c E). split; [lia|]. destruct (ts !! t) as [tm|] eqn:E'; [|done]. destruct (Hts t tm E'). lia.
  - intros t k g E. destruct (H4 t k g E) as (? & (b & Hin & ?) & _). pose proof (Hnew g b Hin).
    split_and!; [done|exists b; split; [by right|done]|cbn; lia].
  - intros t tm E. destruct (Hts t tm E) as (_ & -> & _ & ?). exists he. split; [by left|done].
  - intros g b. rewrite elem_of_cons. intros [[= -> ->]|Hin]; [cbn; lia|]. by apply (H6 g b).
  - intros k g Hin. destruct (H8 k g Hin) as ((b & Hb & ?) & _). pose proof (Hnew g b Hb). split; [exists b; split; [by right|done]|cbn; lia].
Qed.
Lemma arm_inv n w : Z.of_nat n + 1 < 2 ^ 64 -> WInv n w -> WInv (S n) (ArmEchoWatchdog w).
Proof.
  intros Hn Hi. pose proof (cancel_inv n w Hn Hi) as Hc. pose proof (incr64_few n _ (w_gen _ _ Hi) Hn) as Hinc. unfold ArmEchoWatchdog.
  assert (Ht : timers (cancelTimersLocked w) = ∅) by exact (stopTimer_empty n w Hi).
  assert (Hf : forall k, field k (pacer (cancelTimersLocked w)) = None) by (by intros []).
  assert (Hg : 1 <= armGeneration (pacer (cancelTimersLocked w))) by (cbn; pose proof (w_gen _ _ Hi); lia).
  assert (Hnew : forall g b, (g, b) ∈ armed (cancelTimersLocked w) -> g < armGeneration (pacer (cancelTimersLocked w))).
  { intros g b Hin. cbn. pose proof (w_armed _ _ Hi g b Hin). lia. }
  revert Hc Ht Hf Hg Hnew. generalize (cancelTimersLocked w) as v. intros v Hc Ht Hf Hg Hnew. rewrite Ht.
  destruct (EchoDeadlines (pacer v)) as [[soft hard] he]. destruct he; apply armed_inv; try done; try lia.
  - intros t tm. rewrite !lookup_insert_Some, lookup_empty. intros [[<- <-]|[_ [[<- <-]|[_ ?]]]]; [| |done]; cbn; split_and!; try done; lia.
  - intros t tm. rewrite !lookup_insert_Some, lookup_empty. intros [[<- <-]|[_ ?]]; [|done]; cbn; split_and!; try done; lia.
Qed.

Lemma expire_inv n w t tm :
  WInv n w -> timers w !! t = Some tm ->
  WInv (S n) (mkWorld (pacer w) (delete t (timers w)) (<[t := CFired (tKind tm) (tGen tm)]> (callbacks w)) (nextTimer w)
                (armed w) (counted w) (reported w)).
Proof.
  intros [H1 H2 H3 H4 H5 H6 H7 H8 H9 H10 H11 H12] Ht. destruct (H2 t tm Ht) as (L1 & L2 & L3 & L4).
  split; cbn [pacer timers callbacks nextTimer armed counted]; try done; try lia.
  - intros t' tm' E. apply lookup_delete_Some in E as [Hne E]. destruct (H2 t' tm' E) as (? & ? & ? & ?).
    split_and!; try done. by rewrite lookup_insert_ne.
  - intros t' c. rewrite lookup_insert_Some. intros [[<- <-]|[Hne E]]; [by rewrite lookup_delete_eq|].
    destruct (H3 t' c E). by rewrite lookup_delete_ne.
  - intros t' k g. rewrite lookup_insert_Some. intros [[<- [= <- <-]]|[Hne E]]; [|by apply H4].
    split_and!; [lia|by apply (H5 t)|done].
  - intros t' tm' E. apply lookup_delete_Some in E as [_ E]. by apply (H5 t').
  - intros t' k g. rewrite lookup_insert_Some. intros [[_ ?]|[_ E]]; [done|]. destruct (H11 t' k g E) as (? & ? & Hu).
    split_and!; try done. intros t2. rewrite lookup_insert_Some. intros [[_ ?]|[_ E2]]; [done|by apply Hu].
Qed.

Lemma callback_gone n w c :
  WInv n w -> WInv (S n) (mkWorld (pacer w) (timers w) (delete c (callbacks w)) (nextTimer w) (armed w) (counted w) (reported w)).
Proof.
  intros [H1 H2 H3 H4 H5 H6 H7 H8 H9 H10 H11 H12]. split; cbn [pacer timers callbacks nextTimer armed counted]; try done; try lia.
  - intros t tm E. destruct (H2 t tm E) as (? & ? & ? & ?). split_and!; try done. by apply lookup_delete_None; right.
  - intros t c' E. apply lookup_delete_Some in E as [_ E]. by eapply H3.
  - intros t k g E. apply lookup_delete_Some in E as [_ E]. by apply H4.
  - intros t k g E. apply lookup_delete_Some in E as [_ E]. destruct (H11 t k g E) as (? & ? & Hu).
    split_and!; try done. intros t2 E2. apply lookup_delete_Some in E2 as [_ E2]. by apply Hu.
Qed.
(** A callback reports what it has counted. *)
Lemma report_inv n w c k g :
  WInv n w -> callbacks w !! c = Some (CEmit k g) ->
  WInv (S n) (mkWorld (pacer w) (timers w) (delete c (callbacks w)) (nextTimer w) (armed w) (counted w) ((k, g) :: reported w)).
Proof.
  intros Hi Hc. destruct (w_emit _ _ Hi c k g Hc) as (Hin & Hni & Hu). destruct (w_reported _ _ Hi) as [Hnd Hsub].
  destruct (callback_gone n w c Hi) as [G1 G2 G3 G4 G5 G6 G7 G8 G9 G10 G11 _].
  split; try done; cbn [callbacks counted reported] in *.
  - intros t k' g' E. destruct (G11 t k' g' E) as (? & ? & ?). split_and!; try done. rewrite not_elem_of_cons. split; [|done].
    intros [= -> ->]. apply lookup_delete_Some in E as [Hne E]. apply Hne. symmetry. by apply Hu.
  - split; [by constructor|]. intros x. rewrite elem_of_cons. intros [->|Hx]; [done|by apply Hsub].
Qed.

Lemma countTimeout_fields k p :
  armGeneration (countTimeout k p) = armGeneration p /\ field k (countTimeout k p) = None /\ total k (countTimeout k p) = incr64 (total k p) /\
  forall k', k' <> k -> field k' (countTimeout k p) = field k' p /\ total k' (countTimeout k p) = total k' p.
Proof. destruct k; cbn; split_and!; try done; by intros []. Qed.
Lemma count_inv n w c k g :
  Z.of_nat n + 1 < 2 ^ 64 -> WInv n w -> callbacks w !! c = Some (CFired k g) -> g = armGeneration (pacer w) ->
  WInv (S n) (mkWorld (countTimeout k (pacer w)) (timers w) (delete c (callbacks w)) (nextTimer w) (armed w) ((k, g) :: counted w) (reported w)).
Proof.
  intros Hn [H1 H2 H3 H4 H5 H6 H7 H8 H9 H10 H11 H12] Hc Hg. destruct (countTimeout_fields k (pacer w)) as (F1 & F2 & F3 & F4).
  destruct (H4 c k g Hc) as (_ & Harm & Hfc). specialize (Hfc Hg). destruct (H3 c _ Hc) as [_ Hct].
  assert (Hother : forall k' t, field k' (pacer w) = Some t -> t <> c -> field k' (countTimeout k (pacer w)) = Some t).
  { intros k' t Hf Hne. destruct (decide (k' = k)) as [->|Hk]; [congruence|]. destruct (F4 k' Hk). congruence. }
  split; cbn [pacer timers callbacks nextTimer armed counted]; rewrite ?F1; try done; try lia.
  - intros t tm E. destruct (H2 t tm E) as (? & ? & ? & ?). split_and!; try done; [by apply lookup_delete_None; right|]. apply Hother; [done|congruence].
  - intros t c' E. apply lookup_delete_Some in E as [_ E]. by eapply H3.
  - intros t k' g' E. apply lookup_delete_Some in E as [Hne E]. destruct (H4 t k' g' E) as (? & ? & Hf). split_and!; try done.
    intros Hg'. apply Hother; [by apply Hf|done].
  - constructor; [|done]. intros Hin. destruct (H8 k g Hin) as [_ Hf]. rewrite (Hf Hg) in Hfc. done.
  - intros k' g'. rewrite elem_of_cons. intros [[= -> ->]|Hin]; [split; [done|by intros _]|]. destruct (H8 k' g' Hin) as [? Hf]. split; [done|].
    intros Hg'. destruct (decide (k' = k)) as [->|Hk]; [done|]. destruct (F4 k' Hk) as [-> _]. by apply Hf.
  - intros k'. unfold countOf. rewrite filter_cons. cbn. destruct (decide (k = k')) as [->|Hk].
    + rewrite F3, H9. cbn. unfold countOf. pose proof (length_filter (fun x : AdminEventKind * Z => x.1 = k') (counted w)).
      rewrite (incr64_few n) by lia. lia.
    + destruct (F4 k' (not_eq_sym Hk)) as [_ ->]. apply H9.
  - cbn. lia.
  - intros t k' g' E. apply lookup_delete_Some in E as [_ E]. destruct (H11 t k' g' E) as (? & ? & Hu).
    split_and!; [by right|done|]. intros t2 E2. apply lookup_delete_Some in E2 as [_ E2]. by apply Hu.
  - destruct H12 as [Hnd Hsub]. split; [done|]. intros x Hx. right. by apply Hsub.
Qed.
(** A timeout that is about to be counted has not been counted before. *)
Lemma uncounted n w c k g :
  WInv n w -> callbacks w !! c = Some (CFired k g) -> g = armGeneration (pacer w) -> (k, g) ∉ counted w.
Proof.
  intros Hi Hc Hg Hin. destruct (w_fired _ _ Hi c k g Hc) as (_ & _ & Hf). destruct (w_counted _ _ Hi k g Hin) as [_ Hf'].
  rewrite (Hf' Hg) in Hf. by specialize (Hf Hg).
Qed.

Lemma emit_inv n w c k g :
  WInv n w -> callbacks w !! c = None -> (c < nextTimer w)%nat -> timers w !! c = None ->
  (k, g) ∈ counted w -> (k, g) ∉ reported w -> (forall t, callbacks w !! t <> Some (CEmit k g)) ->
  WInv n (mkWorld (pacer w) (timers w) (<[c := CEmit k g]> (callbacks w)) (nextTimer w) (armed w) (counted w) (reported w)).
Proof.
  intros [H1 H2 H3 H4 H5 H6 H7 H8 H9 H10 H11 H12] Hc Hlt Hct Hin Hni Hno.
  split; cbn [pacer timers callbacks nextTimer armed counted]; try done.
  - intros t tm E. destruct (H2 t tm E) as (? & ? & ? & ?). split_and!; try done. rewrite lookup_insert_ne; [done|congruence].
  - intros t c'. rewrite lookup_insert_Some. intros [[<- _]|[_ E]]; [done|by eapply H3].
  - intros t k' g'. rewrite lookup_insert_Some. intros [[_ ?]|[_ E]]; [done|by apply H4].
  - intros t k' g'. rewrite lookup_insert_Some. intros [[<- [= <- <-]]|[Hne E]].
    + split_and!; try done. intros t2. rewrite lookup_insert_Some. intros [[<- _]|[_ E2]]; [done|by apply Hno in E2].
    + destruct (H11 t k' g' E) as (? & ? & Hu). split_and!; try done. intros t2. rewrite lookup_insert_Some.
      intros [[<- [= <- <-]]|[_ E2]]; [by apply Hno in E|by apply Hu].
Qed.

Lemma watch_step_inv n l w w' : Z.of_nat n + 1 < 2 ^ 64 -> WInv n w -> step l w = Some w' -> WInv (S n) w'.
Proof.
  intros Hn Hi. destruct l as [v|now|now|now|rtt now| |v| | |t|c]; cbn [step].
  - intros [= <-]. apply onPacer_inv; [|done]. intros p. unfold SetTau. destruct (v <=? 0); split_and!; try done; by intros [].
  - intros [= <-]. apply onPacer_inv; [|done]. intros p. split_and!; try done; by intros [].
  - intros [= <-]. apply onPacer_inv; [|done]. intros p. split_and!; try done; by intros [].
  - intros [= <-]. apply onPacer_inv; [|done]. intros p. unfold BeforeActiveWrite.
    destruct (_ =? 0); [|destruct (_ <? GraceIdleThreshold)]; split_and!; try done; by intros [].
  - intros [= <-]. apply onPacer_inv; [|done]. intros p. unfold RecordEcho. destruct (rtt <=? 0); split_and!; try done; by intros [].
  - intros [= <-]. apply onPacer_inv; [|done]. intros p. split_and!; try done; by intros [].
  - intros [= <-]. apply onPacer_inv; [|done]. intros p. split_and!; try done; by intros [].
  - intros [= <-]. by apply arm_inv.
  - intros [= <-]. by apply cancel_inv.
  - destruct (timers w !! t) as [tm|] eqn:Ht; cbn; [|done]. intros [= <-]. by apply expire_inv.
  - destruct (callbacks w !! c) as [[k g|k g]|] eqn:Hc; [|intros [= <-]; by apply report_inv|done].
    intros [= <-]. unfold onTimeout. destruct (Z.eqb_spec (armGeneration (pacer w)) g) as [Hg|Hg]; cbn [negb]; [|by apply callback_gone].
    pose proof (count_inv n w c k g Hn Hi Hc (eq_sym Hg)) as H. destruct (adminEventEmit (pacer w)); [|done].
    pose proof (uncounted n w c k g Hi Hc (eq_sym Hg)) as Hnew.
    rewrite <- (insert_delete_eq (callbacks w)). destruct (w_cb _ _ Hi c _ Hc).
    apply (emit_inv _ _ c k g H); cbn; [apply lookup_delete_eq|done|done|by left| |].
    + intros Hr. by apply Hnew, (w_reported _ _ Hi).
    + intros t E. apply lookup_delete_Some in E as [_ E]. by apply Hnew, (w_emit _ _ Hi t).
Qed.
Lemma newWorld_inv : WInv 0 newWorld.
Proof. split; try done; cbn; try lia; try set_solver; [by constructor|by intros []|split; [constructor|done]]. Qed.
Lemma reachable_watch n w : reachable n w -> Z.of_nat n < 2 ^ 64 -> WInv n w.
Proof.
  intros Hr Hn. induction Hr as [|n l w w' Hr IH Hs]; [exact newWorld_inv|]. eapply watch_step_inv; [lia|apply IH; lia|done].
Qed.

(** C19: in every run of fewer than 2^64 steps, however the expiry of timers,
    their callbacks, echoes, cancellations and new writes interleave: a
    timeout is counted only for a write that was armed and at most once per
    deadline, a hard one only for a write armed with a hard deadline; the
    counters are exact; an event is reported only for a timeout that was
    counted, at most once; the pending timers are the ones of the current
    write.  A callback that comes after the write was cancelled or replaced
    only ends: it changes neither the pacer nor its timers and neither counts
    nor reports; one of the current write counts its own timer and reports it
    exactly if there is an emitter; and a report follows its count. *)
Theorem watchdog_sound n w :
  reachable n w -> Z.of_nat n < 2 ^ 64 ->
  NoDup (counted w) /\
  (forall k g, (k, g) ∈ counted w -> exists hard, (g, hard) ∈ armed w /\ (k = AdminEventKindEchoHardTimeout -> hard = true)) /\
  softTimeoutTotal (pacer w) = Z.of_nat (countOf AdminEventKindEchoSoftTimeout (counted w)) /\
  hardTimeoutTotal (pacer w) = Z.of_nat (countOf AdminEventKindEchoHardTimeout (counted w)) /\
  NoDup (reported w) /\ (forall x, x ∈ reported w -> x ∈ counted w) /\
  (forall t tm, timers w !! t = Some tm -> tGen tm = armGeneration (pacer w) /\ field (tKind tm) (pacer w) = Some t) /\
  (forall c w', step (LCallback c) w = Some w' ->
     match callbacks w !! c with
     | Some (CFired k g) =>
         if g =? armGeneration (pacer w) then
           field k (pacer w) = Some c /\ field k (pacer w') = None /\ counted w' = (k, g) :: counted w /\ reported w' = reported w /\
           callbacks w' !! c = if adminEventEmit (pacer w) then Some (CEmit k g) else None
         else
           pacer w' = pacer w /\ timers w' = timers w /\ callbacks w' = delete c (callbacks w) /\
           counted w' = counted w /\ reported w' = reported w
     | Some (CEmit k g) =>
         pacer w' = pacer w /\ counted w' = counted w /\ (k, g) ∈ counted w /\ (k, g) ∉ reported w /\
         reported w' = (k, g) :: reported w
     | None => False
     end).
Proof.
  intros Hr Hn. destruct (reachable_watch n w Hr Hn) as [H1 H2 H3 H4 H5 H6 H7 H8 H9 H10 H11 H12]. split_and!; try done; try apply H12.
  - intros k g Hin. by apply H8.
  - exact (H9 AdminEventKindEchoSoftTimeout).
  - exact (H9 AdminEventKindEchoHardTimeout).
  - intros t tm Ht. by destruct (H2 t tm Ht) as (_ & _ & ? & ?).
  - intros c w'. cbn [step]. destruct (callbacks w !! c) as [[k g|k g]|] eqn:Hc; [| |done].
    + intros [= <-]. unfold onTimeout. rewrite (Z.eqb_sym g). destruct (Z.eqb_spec (armGeneration (pacer w)) g) as [Hg|Hg]; cbn; [|done].
      destruct (H4 c k g Hc) as (_ & _ & Hf). destruct (countTimeout_fields k (pacer w)) as (_ & F2 & _).
      split_and!; try done; [by apply Hf|]. destruct (adminEventEmit (pacer w)); [apply lookup_insert_eq|apply lookup_delete_eq].
    + intros [= <-]. cbn. by destruct (H11 c k g Hc) as (? & ? & _).
Qed.
Definition exWatch : list label := [LArm; LExpire 0; LCancel; LCallback 0; LArm; LExpire 2; LCallback 2; LExpire 3; LCallback 3].
Definition exWorld : world := default newWorld (run exWatch newWorld).
Lemma watchdog_sound_witness : softTimeoutTotal (pacer exWorld) = Z.of_nat (countOf AdminEventKindEchoSoftTimeout (counted exWorld)).
Proof.
  apply (watchdog_sound (length exWatch + 0) exWorld); [|vm_compute; reflexivity].
  apply (pacer_run_reachable 0 exWatch newWorld); [apply reach_new|vm_compute; reflexivity].
Defined.
Example exWorld_counts : (softTimeoutTotal (pacer exWorld), hardTimeoutTotal (pacer exWorld)) = (1, 1).
Proof. vm_compute. reflexivity. Qed.
End PacerSpec.
