(* ===== verification/BroadcastListener.v ===== *)
(** * The broadcast listener's supervisor

    [broadcast_listener.go]: a loop consumes classified events and hands
    broadcasts to the router; a router overflow makes the listener degraded
    and starts a recovery loop that waits for a window without faults.  The
    consumer and the recovery loops are threads; the atomic counter, the
    sections under [stateMu], the timer and the deferred function of the
    recovery loop are separate steps. *)

From S2P Require Import Prelude.

Local Open Scope Z_scope.

Module BroadcastListener.

(** ** Data *)

Definition broadcastSupervisorRecoveryWindow : time := 5 * second.
Inductive reason := RouterOverflow | ResubscribeFailed | PostResetEvent | FaultFreeWindow.
#[export] Instance reason_eq : EqDecision reason.
Proof. solve_decision. Defined.
(** The supervisor metrics: transitions newest first. *)
Inductive transition := ToDegraded (r : reason) | ToHealthy (r : reason).
#[export] Instance transition_eq : EqDecision transition.
Proof. solve_decision. Defined.

(** Where the consumer is: waiting for an event; in [markDegraded] between
    the counter and the section; before it subscribes again; ended. *)
Inductive consumerAt := CWait | CDegrade (r : reason) | CResubscribe | CEnded.
(** Where a recovery loop is: before the timer, before it loads the
    generation, waiting for the timer, before it looks at the state, before
    [markHealthyIfGeneration], before it resets the timer, before the
    deferred function. *)
Inductive recoveryAt :=
| RTimer
| RLoad (deadline : time)
| RWait (gen : Z) (deadline : time)
| RLook (gen : Z)
| RMark (gen : Z)
| RReset (gen : Z)
| RDone.

Record listener := mkListener {
  window : time;
  cancelled : bool;
  degraded : bool;
  recoveryGeneration : Z;
  recoveryLoopActive : bool;
  recoveryTerminal : bool;
  consumer : consumerAt;
  loops : gmap nat recoveryAt;
  nextLoop : nat;
  transitions : list transition;
  faults : Z;
  resubscribes : Z
}.

Definition set_degraded (v : bool) (ts : list transition) (gen : Z) (l : listener) : listener :=
  mkListener (window l) (cancelled l) v gen (recoveryLoopActive l) (recoveryTerminal l) (consumer l) (loops l) (nextLoop l)
    ts (faults l) (resubscribes l).
Definition set_loop (active terminal : bool) (l : listener) : listener :=
  mkListener (window l) (cancelled l) (degraded l) (recoveryGeneration l) active terminal (consumer l) (loops l) (nextLoop l)
    (transitions l) (faults l) (resubscribes l).
Definition set_consumer (c : consumerAt) (l : listener) : listener :=
  mkListener (window l) (cancelled l) (degraded l) (recoveryGeneration l) (recoveryLoopActive l) (recoveryTerminal l) c (loops l)
    (nextLoop l) (transitions l) (faults l) (resubscribes l).
Definition set_loops (m : gmap nat recoveryAt) (n : nat) (l : listener) : listener :=
  mkListener (window l) (cancelled l) (degraded l) (recoveryGeneration l) (recoveryLoopActive l) (recoveryTerminal l) (consumer l) m n
    (transitions l) (faults l) (resubscribes l).
Definition set_counts (f r : Z) (l : listener) : listener :=
  mkListener (window l) (cancelled l) (degraded l) (recoveryGeneration l) (recoveryLoopActive l) (recoveryTerminal l) (consumer l)
    (loops l) (nextLoop l) (transitions l) f r.
Definition cancel (l : listener) : listener :=
  mkListener (window l) true (degraded l) (recoveryGeneration l) (recoveryLoopActive l) (recoveryTerminal l) (consumer l)
    (loops l) (nextLoop l) (transitions l) (faults l) (resubscribes l).

(** ** Sections *)

(** [recoveryGeneration.Add(1)]. *)
Definition bump (l : listener) : listener :=
  set_degraded (degraded l) (transitions l) (incr64 (recoveryGeneration l)) l.
(** [markDegraded] under [stateMu], and the start of the recovery loop. *)
Definition markDegraded (r : reason) (l : listener) : listener :=
  let ts := if degraded l then transitions l else ToDegraded r :: transitions l in
  let l := set_degraded true ts (recoveryGeneration l) l in
  if bool_decide (r = ResubscribeFailed) then set_loop (recoveryLoopActive l) true l
  else if recoveryLoopActive l then l
  else set_loops (<[nextLoop l := RTimer]> (loops l)) (S (nextLoop l)) (set_loop true (recoveryTerminal l) l).
Definition markHealthyIfGeneration (gen : Z) (r : reason) (l : listener) : listener :=
  if negb (degraded l) then l
  else if negb (gen =? 0) && negb (recoveryGeneration l =? gen) then l
  else set_degraded false (ToHealthy r :: transitions l) (incr64 (recoveryGeneration l)) l.
Definition markHealthy (r : reason) (l : listener) : listener := markHealthyIfGeneration 0 r l.

(** ** Steps *)

(** What the consumer receives: an event that is no broadcast or that the
    router takes, an event the router refuses with an overflow, the end of
    the subscription. *)
Inductive received := Delivered | Overflow | SubscriptionClosed.
Inductive label :=
| LCancel
| LReceive (x : received)
| LConsumer (subscribed : bool)
| LLoop (t : nat) (now : time) (stop : bool).

Definition effectiveWindow (l : listener) : time := if window l <=? 0 then broadcastSupervisorRecoveryWindow else window l.
Definition stepReceive (x : received) (l : listener) : option listener :=
  match consumer l with
  | CWait =>
      Some match x with
           | Delivered => markHealthy PostResetEvent l
           | Overflow => set_consumer (CDegrade RouterOverflow) (bump (set_counts (faults l + 1) (resubscribes l) l))
           | SubscriptionClosed => set_consumer (if cancelled l then CEnded else CResubscribe) l
           end
  | _ => None
  end.
Definition stepConsumer (subscribed : bool) (l : listener) : option listener :=
  match consumer l with
  | CWait => if cancelled l then Some (set_consumer CEnded l) else None
  | CDegrade r => Some (set_consumer (if bool_decide (r = ResubscribeFailed) then CEnded else CResubscribe) (markDegraded r l))
  | CResubscribe =>
      Some (if subscribed then set_consumer CWait (set_counts (faults l) (resubscribes l + 1) l)
            else set_consumer (CDegrade ResubscribeFailed) (bump l))
  | CEnded => None
  end.
(** A step of a recovery loop; [stop] says which ready case its selects take,
    the end of the context or the timer. *)
Definition stepLoop (t : nat) (now : time) (stop : bool) (l : listener) : option listener :=
  let goto ph := set_loops (<[t := ph]> (loops l)) (nextLoop l) l in
  match loops l !! t with
  | Some RTimer => Some (goto (RLoad (now + effectiveWindow l)))
  | Some (RLoad deadline) => Some (goto (RWait (recoveryGeneration l) deadline))
  | Some (RWait gen deadline) =>
      if stop then (if cancelled l then Some (goto RDone) else None)
      else if deadline <=? now then Some (goto (RLook gen)) else None
  | Some (RLook gen) =>
      Some (goto (if recoveryTerminal l then RDone
                  else if recoveryGeneration l =? gen then RMark gen
                  else RReset (recoveryGeneration l)))
  | Some (RReset gen) => Some (goto (RWait gen (now + effectiveWindow l)))
  | Some (RMark gen) =>
      let l := markHealthyIfGeneration gen FaultFreeWindow l in
      Some (set_loops (<[t := RDone]> (loops l)) (nextLoop l) l)
  | Some RDone =>
      let l := set_loop false (recoveryTerminal l) l in
      Some (set_loops (delete t (loops l)) (nextLoop l) l)
  | None => None
  end.
Definition step (x : label) (l : listener) : option listener :=
  match x with
  | LCancel => Some (cancel l)
  | LReceive x => stepReceive x l
  | LConsumer s => stepConsumer s l
  | LLoop t now stop => stepLoop t now stop l
  end.
Definition newListener (w : time) : listener := mkListener w false false 0 false false CWait ∅ 0 [] 0 0.
Inductive reachable (w : time) : nat -> listener -> Prop :=
| reach_new : reachable w 0 (newListener w)
| reach_step n x l l' : reachable w n l -> step x l = Some l' -> reachable w (S n) l'.
Fixpoint run (xs : list label) (l : listener) : option listener :=
  match xs with [] => Some l | x :: xs => l ← step x l; run xs l end.
Lemma listener_run_reachable w n xs l l' : reachable w n l -> run xs l = Some l' -> reachable w (length xs + n) l'.
Proof.
  revert n l. induction xs as [|x xs IH]; intros n l Hr; cbn; [by intros [= <-]|].
  destruct (step x l) as [l1|] eqn:Hs; cbn; [|done]. intros Hrun.
  replace (S (length xs + n)) with (length xs + S n)%nat by lia. eapply IH; [|done]. by eapply reach_step.
Qed.
End BroadcastListener.
