(* ===== verification/BroadcastSpec.v ===== *)
(** * What the broadcast listener's supervisor guarantees

    One recovery loop at a time and no end of service without a reason, over
    every interleaving; and a schedule in which a fault is left without a
    recovery loop. *)

From S2P Require Import Prelude BroadcastListener.

Local Open Scope Z_scope.

Module BroadcastSpec.
Import BroadcastListener.

(** Transitions, newest first, that lead from healthy to the state [d] and
    change it each time. *)
Fixpoint alternate (d : bool) (ts : list transition) : Prop :=
  match ts with
  | [] => d = false
  | ToDegraded _ :: ts => d = true /\ alternate false ts
  | ToHealthy _ :: ts => d = false /\ alternate true ts
  end.

Definition loopGen (ph : recoveryAt) : option Z :=
  match ph with RWait g _ | RLook g | RMark g | RReset g => Some g | _ => None end.
Record LInv (n : nat) (l : listener) : Prop := {
  li_gen : 0 <= recoveryGeneration l <= Z.of_nat n;
  li_loops : forall t ph, loops l !! t = Some ph -> recoveryLoopActive l = true /\ (t < nextLoop l)%nat /\ 1 <= recoveryGeneration l /\
    forall g, loopGen ph = Some g -> 1 <= g <= recoveryGeneration l;
  li_one : forall t1 t2 p1 p2, loops l !! t1 = Some p1 -> loops l !! t2 = Some p2 -> t1 = t2;
  li_active : recoveryLoopActive l = true -> exists t ph, loops l !! t = Some ph;
  li_degraded : degraded l = true -> 1 <= recoveryGeneration l;
  li_pending : forall r, consumer l = CDegrade r -> 1 <= recoveryGeneration l /\ (r = RouterOverflow \/ r = ResubscribeFailed);
  li_terminal : recoveryTerminal l = true -> consumer l = CEnded;
  li_ended : consumer l = CEnded -> cancelled l = true \/ recoveryTerminal l = true;
  li_alternate : alternate (degraded l) (transitions l)
}.

Lemma incr_gen n x : 0 <= x <= Z.of_nat n -> Z.of_nat n + 1 < 2 ^ 64 -> incr64 x = x + 1.
Proof. intros ? ?. unfold incr64. apply u64_id. lia. Qed.

(** A step that only moves the generation up and the consumer on. *)
Lemma bump_inv n l f r c :
  Z.of_nat n + 1 < 2 ^ 64 -> LInv n l -> (forall x, c = CDegrade x -> x = RouterOverflow \/ x = ResubscribeFailed) ->
  c <> CEnded -> recoveryTerminal l = false -> LInv (S n) (set_consumer c (bump (set_counts f r l))).
Proof.
  intros Hn [H1 H2 H3 H4 H5 H6 H7 H8 H9] Hc Hne Ht. pose proof (incr_gen n _ H1 Hn) as Hg.
  split; cbn; rewrite ?Hg; try done; try lia.
  - intros t ph E. destruct (H2 t ph E) as (? & ? & ? & Hx). split_and!; try done; [lia|]. intros g Eg. specialize (Hx g Eg). lia.
  - intros x ->. split; [lia|by apply Hc].
  - congruence.
Qed.

Lemma markHealthy_inv n l g r :
  Z.of_nat n + 1 < 2 ^ 64 -> LInv n l -> LInv (S n) (markHealthyIfGeneration g r l).
Proof.
  intros Hn [H1 H2 H3 H4 H5 H6 H7 H8 H9]. unfold markHealthyIfGeneration. pose proof (incr_gen n _ H1 Hn) as Hg.
  destruct (degraded l) eqn:Ed; cbn [negb]; [destruct (_ && _)|]; split; cbn; rewrite ?Hg, ?Ed; try done; try lia.
  - intros t ph E. destruct (H2 t ph E) as (? & ? & ? & Hx). split_and!; try done; [lia|]. intros g' Eg. specialize (Hx g' Eg). lia.
  - intros x E. destruct (H6 x E). split; [lia|done].
Qed.

Lemma markDegraded_inv n l r :
  LInv n l -> consumer l = CDegrade r ->
  LInv (S n) (set_consumer (if bool_decide (r = ResubscribeFailed) then CEnded else CResubscribe) (markDegraded r l)).
Proof.
  intros [H1 H2 H3 H4 H5 H6 H7 H8 H9] Hc. destruct (H6 r Hc) as [Hg Hr]. unfold markDegraded.
  assert (Ht : recoveryTerminal l = false) by (destruct (recoveryTerminal l); [rewrite (H7 eq_refl) in Hc; done|done]).
  assert (Htr : alternate true (if degraded l then transitions l else ToDegraded r :: transitions l)) by (by destruct (degraded l)).
  destruct (bool_decide_reflect (r = ResubscribeFailed)) as [->|Hne]; [split; cbn; try done; try lia; by right|].
  destruct (recoveryLoopActive l) eqn:Ea; cbn; rewrite ?Ea.
  - split; cbn; rewrite ?Ea; try done; try lia. congruence.
  - assert (Hno : forall t ph, loops l !! t <> Some ph) by (intros t ph E; destruct (H2 t ph E); congruence).
    split; cbn; try done; try lia; try congruence.
    + intros t ph. rewrite lookup_insert_Some. intros [[<- <-]|[_ E]]; [|by apply Hno in E]. split_and!; try done; lia.
    + intros t1 t2 p1 p2. rewrite !lookup_insert_Some. intros [[<- _]|[_ E]]; [|by apply Hno in E]. intros [[<- _]|[_ E]]; [done|by apply Hno in E].
    + intros _. exists (nextLoop l), RTimer. by rewrite lookup_insert_eq.
Qed.

(** A recovery loop goes on. *)
Lemma loop_goto n l t old ph :
  LInv n l -> loops l !! t = Some old -> (forall g, loopGen ph = Some g -> 1 <= g <= recoveryGeneration l) ->
  LInv (S n) (set_loops (<[t := ph]> (loops l)) (nextLoop l) l).
Proof.
  intros [H1 H2 H3 H4 H5 H6 H7 H8 H9] Hold Hg. destruct (H2 t old Hold) as (Ha & Hlt & Hge & _). split; cbn; try done; try lia.
  - intros t' ph'. rewrite lookup_insert_Some. intros [[<- <-]|[_ E]]; [done|by apply H2].
  - intros t1 t2 p1 p2. rewrite !lookup_insert_Some. intros [[<- _]|[_ E1]] [[<- _]|[_ E2]]; [done|by eapply H3..].
  - intros _. exists t, ph. by rewrite lookup_insert_eq.
Qed.
Lemma loop_marked n l t old :
  LInv n l -> loops l !! t = Some old -> LInv n (set_loops (<[t := RDone]> (loops l)) (nextLoop l) l).
Proof.
  intros [H1 H2 H3 H4 H5 H6 H7 H8 H9] Hold. destruct (H2 t old Hold) as (Ha & Hlt & Hge & _). split; cbn; try done.
  - intros t' ph'. rewrite lookup_insert_Some. intros [[<- <-]|[_ E]]; [done|by apply H2].
  - intros t1 t2 p1 p2. rewrite !lookup_insert_Some. intros [[<- _]|[_ E1]] [[<- _]|[_ E2]]; [done|by eapply H3..].
  - intros _. exists t, RDone. by rewrite lookup_insert_eq.
Qed.
Lemma loop_exit n l t :
  LInv n l -> loops l !! t = Some RDone ->
  LInv (S n) (set_loops (delete t (loops l)) (nextLoop l) (set_loop false (recoveryTerminal l) l)).
Proof.
  intros [H1 H2 H3 H4 H5 H6 H7 H8 H9] Hold.
  assert (Hno : forall t' ph, delete t (loops l) !! t' <> Some ph).
  { intros t' ph E. apply lookup_delete_Some in E as [Hne E]. by pose proof (H3 _ _ _ _ Hold E). }
  split; cbn; try done; try lia.
  - intros t' ph E. by apply Hno in E.
  - intros t1 t2 p1 p2 E. by apply Hno in E.
Qed.

Lemma step_linv n x l l' : Z.of_nat n + 1 < 2 ^ 64 -> LInv n l -> step x l = Some l' -> LInv (S n) l'.
Proof.
  intros Hn Hi. pose proof (li_terminal _ _ Hi) as Ht. destruct x as [|x|s|t now stop]; cbn [step].
  - intros [= <-]. destruct Hi. split; cbn; try done; try lia; by left.
  - unfold stepReceive. destruct (consumer l) eqn:Hc; try done. intros [= <-]. destruct x.
    + by apply markHealthy_inv.
    + apply bump_inv; try done; [intros x [= <-]; by left|]. destruct (recoveryTerminal l); [|done]. by specialize (Ht eq_refl).
    + destruct Hi. destruct (cancelled l) eqn:E; split; cbn; rewrite ?E; try done; try lia;
        first [by left | intros T; by specialize (Ht T)].
  - unfold stepConsumer. destruct (consumer l) eqn:Hc; try done.
    + destruct (cancelled l) eqn:E; [|done]. intros [= <-]. destruct Hi. split; cbn; rewrite ?E; try done; try lia; by left.
    + intros [= <-]. by apply markDegraded_inv.
    + intros [= <-]. destruct s.
      * destruct Hi. split; cbn; try done; try lia; intros T; by specialize (Ht T).
      * apply (bump_inv n l (faults l) (resubscribes l)); try done; [intros x [= <-]; by right|].
        destruct (recoveryTerminal l); [|done]. by specialize (Ht eq_refl).
  - unfold stepLoop. destruct (loops l !! t) as [ph|] eqn:Hold; [|done]. destruct (li_loops _ _ Hi t ph Hold) as (_ & _ & Hge & Hg).
    destruct ph.
    + intros [= <-]. by eapply loop_goto.
    + intros [= <-]. eapply loop_goto; [done|done|]. intros g [= <-]. lia.
    + destruct stop; [destruct (cancelled l); [|done]|destruct (_ <=? _); [|done]]; intros [= <-]; by eapply loop_goto.
    + intros [= <-]. eapply loop_goto; [done|done|]. destruct (recoveryTerminal l); [done|]. destruct (_ =? _); [done|]. intros g' [= <-]. lia.
    + intros [= <-]. pose proof (markHealthy_inv n l gen FaultFreeWindow Hn Hi) as H.
      assert (E : loops (markHealthyIfGeneration gen FaultFreeWindow l) = loops l).
      { unfold markHealthyIfGeneration. destruct (degraded l); cbn; [|done]. by destruct (_ && _). }
      eapply loop_marked; [done|by rewrite E].
    + intros [= <-]. by eapply loop_goto.
    + intros [= <-]. by apply loop_exit.
Qed.
Lemma reachable_linv w n l : reachable w n l -> Z.of_nat n < 2 ^ 64 -> LInv n l.
Proof.
  intros Hr Hn. induction Hr as [|n x l l' Hr IH Hs]; [split; try done; cbn; lia|]. eapply step_linv; [lia|apply IH; lia|done].
Qed.

(** C21: over every interleaving of fewer than 2^64 steps of events, faults,
    resubscriptions and the recovery loop: there is at most one recovery loop
    and the flag says whether there is one; the reported transitions
    alternate, from the healthy state at the start to the present one, so
    that a second fault of a degraded listener reports none; a window without faults is reported only if
    the generation did not move since the loop last looked; and the consumer
    ends only when the listener was cancelled or the resubscription
    failed. *)
Theorem supervisor_invariant w n l :
  reachable w n l -> Z.of_nat n < 2 ^ 64 ->
  (forall t1 t2 p1 p2, loops l !! t1 = Some p1 -> loops l !! t2 = Some p2 -> t1 = t2) /\
  (recoveryLoopActive l = true <-> exists t ph, loops l !! t = Some ph) /\
  alternate (degraded l) (transitions l) /\
  (forall t now stop l', step (LLoop t now stop) l = Some l' -> transitions l' <> transitions l ->
     loops l !! t = Some (RMark (recoveryGeneration l)) /\ transitions l' = ToHealthy FaultFreeWindow :: transitions l) /\
  (consumer l = CEnded -> cancelled l = true \/ recoveryTerminal l = true).
Proof.
  intros Hr Hn. destruct (reachable_linv w n l Hr Hn) as [H1 H2 H3 H4 H5 H6 H7 H8 H9]. split_and!; try done.
  - split; [done|]. intros (t & ph & E). by destruct (H2 t ph E).
  - intros t now stop l'. cbn [step]. unfold stepLoop. destruct (loops l !! t) as [ph|] eqn:E; [|done].
    destruct (H2 t ph E) as (_ & _ & _ & Hg).
    destruct ph as [|dl|g dl|g|g|g|]; try (intros [= <-] Hx; by destruct Hx).
    + destruct stop; [destruct (cancelled l); [|done]|destruct (_ <=? _); [|done]]; intros [= <-] Hx; by destruct Hx.
    + intros [= <-]. cbn. unfold markHealthyIfGeneration. destruct (degraded l); cbn; [|done].
      destruct (Z.eqb_spec g 0) as [->|Hg0]; [specialize (Hg 0 eq_refl); lia|]. cbn.
      destruct (Z.eqb_spec (recoveryGeneration l) g) as [->|Hne]; cbn; [done|done].
Qed.
Definition exFault : list label := [LReceive Overflow; LConsumer true; LConsumer true; LLoop 0 0 false; LLoop 0 0 false].
Lemma supervisor_invariant_witness : exists t ph, loops (default (newListener 0) (run exFault (newListener 0))) !! t = Some ph.
Proof.
  apply (supervisor_invariant 0 (length exFault + 0)); [|vm_compute; reflexivity..].
  apply (listener_run_reachable 0 0 exFault (newListener 0)); [apply reach_new|vm_compute; reflexivity].
Defined.

(** A fault that comes after the recovery loop has reported the listener
    healthy and before its deferred function clears the flag starts no new
    loop, and the old one ends: the listener stays degraded without a
    recovery loop until the next event is delivered. *)
Theorem recovery_lost :
  exists xs l, run xs (newListener 0) = Some l /\ degraded l = true /\ recoveryTerminal l = false /\ cancelled l = false /\
    loops l = ∅ /\ consumer l = CWait.
Proof.
  exists (exFault ++ [LLoop 0 (5 * second) false; LLoop 0 0 false; LLoop 0 0 false; LReceive Overflow; LConsumer true; LConsumer true;
    LLoop 0 0 false]).
  eexists. split; [vm_compute; reflexivity|]. split_and!; vm_compute; reflexivity.
Qed.
End BroadcastSpec.
